(* ===== verification/_CoqProject ===== *)
-Q . S2P
Prelude.v
KState.v
Spinlock.v
SkipList.v
SkipListInv.v
SkipListInsert.v
SkipListDelete.v
Mem.v
KString.v
Kalloc.v
Vm.v
VmInv.v
VmSpace.v
VmAlloc.v
VmCopy.v
MemProps.v
Mp.v
KEnv.v
Proc.v
ProcQueue.v
ProcInv.v
ProcSwitch.v
ProcLife.v
ProcExit.v
Boot.v
Trap.v
X86.v
TrapInv.v
System.v
BumpEnv.v
Random.v
FsState.v
Ide.v
IdeProps.v
Bio.v
BioInv.v
Log.v
LogInv.v
LogCommit.v
LogCrash.v
Fs.v
FsTxn.v
FsAlloc.v
FsContent.v
FsWrite.v
Mkfs.v
MkfsProps.v
LogSpace.v
FsFrame.v
Syscall.v
Ring.v
Pipe.v
File.v
Sysfile.v
SysfileInv.v
FileRefs.v
Exec.v
ExecImage.v
ExecLoad.v
ExecProof.v
ExecProps.v
Loader.v
Sysproc.v
SysprocInv.v
SyscallProps.v
FsProps.v
Ulib.v
UserProgs.v
Sh.v
ShParse.v
ShRun.v
Console.v
ConsoleInv.v
Kbd.v
Umalloc.v
UmallocAlloc.v
Grep.v
SchedProps.v
IoProps.v
UserProps.v
