(* ===== verification/Prelude.v ===== *)
(** * A verification development for xv6 with the BFS skip-list scheduler

    The program is xv6 for i386, a small Unix kernel with its user programs,
    in which the scheduler of proc.c is replaced by BFS: every process has a
    virtual deadline, the runnable processes are kept in a skip list ordered by
    deadline, and the scheduler runs the first one.  File names below are those
    of src/.

    ** How C is represented

    A function of the source is a computation [M S A] on the state [S] of its
    component (this file): it ends in a value ([Done]), a panic ([Panic] with
    the message), a step that C leaves undefined, such as a read through a null
    pointer ([Undef]), or not at all ([NoFuel]: a loop that has used up its
    fuel, or a wait that only another process can end).  [wp m Q s] says that
    [m] ends in a value with [Q]; [wpf F m Q s] admits the faults [F] besides.
    Integers are [Z] with the wrap-around of their width written out ([u8],
    [i16], [u32], [i32]); pointers into static tables are indices, pointers
    into memory are 32-bit addresses.

    Loops without a constant bound have fuel.  Where the code computes a bound,
    or one follows from the data, the definition fixes the fuel: [search_fuel]
    of the skip list is the number of its nodes, the loops over page tables
    have the number of pages, those over files and directories the number of
    blocks or entries, [parse_fuel] of the shell four calls per character.
    Elsewhere fuel is an argument, and the theorems hold for every sufficient
    value: malloc and free need the length of the free list, the polls of the
    disk (idewait, waitdisk) as many rounds as the disk stays busy, mpinit one
    round per entry of its table.  No theorem
    with [wp] can hold for want of fuel, since [NoFuel] does not satisfy it;
    the statements over [wpf] say which faults they admit.

    ** Processes and the scheduler: proc.c, proc.h, bfs.h, spinlock.c, trap.c

    KState.v has the state: ptable with its node array, the cpu, locks, clock.
    Spinlock.v is spinlock.c; SkipList.v random, computevd, insert, delete and
    pinit as they work on the node array; Proc.v the rest of proc.c, where a
    function that calls sched is cut at the swtch; Trap.v the dispatcher of
    trap.c.  KEnv.v is the interface to the allocator, the page tables and the
    file system: an operation per call, with the channels it wakes where exit
    uses it, and laws that say that each keeps an invariant of its own.  The
    theorems on processes hold for every instance; BumpEnv.v is a small one for
    the witnesses.  The models of Kalloc.v, Vm.v and Fs.v are not an instance:
    their invariants need to know which pages a process owns, which the laws,
    stated for all arguments, do not say.  System.v composes proc.c and trap.c
    into events, from one point where no lock is held to the next; [event_panic]
    are the events that stop the machine, as the code has it.

    SkipListInv.v, SkipListInsert.v and SkipListDelete.v prove that insert and
    delete implement a queue ordered by deadline on every level; ProcQueue.v
    that the queue holds exactly the processes that can run; ProcInv.v,
    ProcSwitch.v, ProcLife.v, ProcExit.v, Boot.v and TrapInv.v the invariant
    of the process table and of the locks, function by function; Random.v the
    bounds of the deadlines.  SchedProps.v states the results: every event and
    every reachable state keeps the invariant, the scheduler runs a process
    with the earliest deadline, a process with a fresh deadline cannot
    overtake one that is due, and what fork, exit, wait, sleep, wakeup, kill
    and the clock do.

    ** Memory: kalloc.c, vm.c, string.c, mmu.h, memlayout.h, x86.h

    Mem.v and KString.v: constants, byte memory, the routines of string.c.
    Kalloc.v: the free list in the pages.  Vm.v and VmInv.v: page tables in
    memory and the translation they define; VmSpace.v, VmAlloc.v and VmCopy.v:
    the pages that an address space owns.  MemProps.v: mappages changes exactly
    the translation of its range, copyuvm copies every user page or gives every
    page back, freevm frees each page once, kalloc hands out each page once,
    memmove copies overlapping ranges, uva2ka reads through null where there is
    no page table.

    ** Below the C code: mmu.h, trapasm.S, swtch.S, vectors.pl, mp.c, bootmain.c

    X86.v: the descriptors with seginit and tvinit, trap entry and return, and
    swtch, as instructions of a machine with registers and words.  The gates let
    a user program in only by the system call; what a trap saves it restores; a
    context switch and the switch back return to the caller.  Mp.v: the tables
    of the BIOS; the walk through them ends exactly if it meets no entry of an
    unknown type.  Loader.v: the boot loader ends with every segment of the
    kernel where the ELF file says, on a disk that reports no error.

    ** Files: sleeplock.c, ide.c, memide.c, bio.c, log.c, fs.c, file.c, pipe.c, mkfs.c

    FsState.v: blocks as bytes, and the state.  Bio.v, Log.v and Fs.v are bio.c
    (with sleeplock.c and memide.c), log.c and fs.c; File.v is file.c with pipealloc; Pipe.v the
    rest of pipe.c, over the ring buffer of Ring.v, which the console shares.  Ide.v is
    ide.c over the ports of the disk, a class whose laws are those of the ATA
    interface; IdeProps.v: queue, interrupts and sleepers implement a disk that
    serves requests in order.  Mkfs.v is mkfs.c; MkfsProps.v: the image holds
    the files given, and readi of the kernel finds them there.

    BioInv.v: the cache is a map from block numbers to contents.  LogInv.v,
    LogCommit.v, LogCrash.v: a crash at any write leaves the disk before or
    after the transaction.  LogSpace.v: the reservation of begin_op.  FsTxn.v,
    FsAlloc.v, FsContent.v, FsWrite.v: free map, file content, readi and writei.
    FsFrame.v: locks and transactions are balanced.  FsProps.v states the
    results; IoProps.v those of pipes: a pipe is a bounded queue under every
    interleaving of readers and writers.

    ** System calls: syscall.c, sysfile.c, sysproc.c, exec.c

    Syscall.v: arguments from the user stack.  Sysfile.v and Sysproc.v: the
    calls and the dispatcher.  SysfileInv.v and FileRefs.v: every call on files
    leaves locks, transactions and reference counts exact, and reads no memory
    outside the process.  SysprocInv.v: no call of sysproc.c, whatever its
    arguments, breaks the process table, and two can stop the machine; in this
    table the calls on files, which have a state of their own, are parameters.
    SyscallProps.v states the results.

    Exec.v is exec.c on the file system and memory together.  ExecImage.v,
    ExecLoad.v and ExecProof.v: the image it builds, from the segments of the
    file to the arguments on the stack.  ExecProps.v: exec replaces the image as
    a whole or leaves the process as it was, and the image is the one that the
    program headers describe.  sys_exec of Sysfile.v, which fetches the
    arguments, has exec as a parameter, since its state has no page tables.

    ** Console and keyboard: console.c, kbd.c, kbd.h, uart.c

    Console.v, ConsoleInv.v, Kbd.v: scan codes to characters, line editing over
    the ring buffer, reading lines, output that stays on the screen.  IoProps.v
    states the results.

    ** User programs: ulib.c, printf.c, umalloc.c, sh.c, grep.c, wc.c, ...

    Ulib.v and UserProgs.v: the C library and the loops of wc, cat, ls, echo.
    Umalloc.v and UmallocAlloc.v: the allocator hands out blocks that overlap
    nothing, and free coalesces.  Sh.v, ShParse.v, ShRun.v: the parser decides
    its grammar, and runcmd gives every program the descriptors that the line
    asks for.  Grep.v: the matcher decides the language of its pattern.
    UserProps.v states the results.

    ** Not modelled

    - Processors other than the one that runs.  The spin of acquire and the
      waits of begin_op, of sleep locks and of the console for another process
      have no end in a run of one process, and are [NoFuel]; pipes and the
      log's reservation are proved under interleaving.
    - Hardware set-up, which consists of stores to ports and registers: lapic.c,
      ioapic.c, picirq.c, kshutdown.c, the set-up of uart.c, and main.c, which
      calls the initialisations and starts the other processors.
    - Assembly that switches the mode of the processor (bootasm.S, entry.S,
      entryother.S) and the stubs with one trap instruction (usys.S, initcode.S).
    - The main functions of sh.c, grep.c, wc.c, cat.c, ls.c, which open files and
      read lines, init.c, and the programs that make one system call per argument
      (kill, ln, mkdir, rm).
    - kvmalloc, consoleinit, and the call stacks that getcallerpcs records.
    - usertests.c, forktest.c, stressfs.c and the other tests. *)

From Stdlib Require Export ZArith Lia.
From stdpp Require Export base list functions strings gmap sorting.


(** ** Machine integers

    A C [uint] is a [Z] in [0, 2^32) and an [int] a [Z] in [-2^31, 2^31); the
    conversions below are those gcc applies on i386, where arithmetic that
    leaves the range wraps around. *)

Declare Scope c_scope.
Delimit Scope c_scope with c.

Definition u32_mod : Z := 4294967296.
Definition u8 (z : Z) : Z := z `mod` 256.
Definition u16 (z : Z) : Z := z `mod` 65536.
Definition i16 (z : Z) : Z := (z + 32768) `mod` 65536 - 32768.
Definition u32 (z : Z) : Z := z `mod` u32_mod.
Definition i32 (z : Z) : Z := (z + 2147483648) `mod` u32_mod - 2147483648.

Definition is_u32 (z : Z) : Prop := (0 <= z < u32_mod)%Z.
Definition is_i32 (z : Z) : Prop := (-2147483648 <= z < 2147483648)%Z.

(** [lia] with the divisions and remainders of the goal spelled out. *)
Ltac zlia := Z.to_euclidean_division_equations; lia.

Lemma u32_range z : is_u32 (u32 z).
Proof. unfold is_u32, u32, u32_mod. zlia. Qed.

Lemma u32_small z : is_u32 z -> u32 z = z.
Proof. unfold is_u32, u32, u32_mod. intros. zlia. Qed.

Lemma i32_range z : is_i32 (i32 z).
Proof. unfold is_i32, i32, u32_mod. zlia. Qed.

Lemma i32_small z : is_i32 z -> i32 z = z.
Proof. unfold is_i32, i32, u32_mod. intros. zlia. Qed.

Lemma u32_u32 z : u32 (u32 z) = u32 z.
Proof. apply u32_small, u32_range. Qed.

Lemma i32_u32 z : i32 (u32 z) = i32 z.
Proof. unfold i32, u32, u32_mod. zlia. Qed.

Lemma u32_i32 z : u32 (i32 z) = u32 z.
Proof. unfold i32, u32, u32_mod. zlia. Qed.

(** Bit fields that do not overlap *)
Lemma testbit_multiple a n i : (a `mod` 2 ^ n = 0)%Z -> (0 <= i < n)%Z -> Z.testbit a i = false.
Proof. intros Ha Hi. rewrite <- (Z.mod_pow2_bits_low a n) by lia. by rewrite Ha, Z.testbit_0_l. Qed.

Lemma land_low a f n : (a `mod` 2 ^ n = 0)%Z -> (0 <= f < 2 ^ n)%Z -> Z.land a f = 0%Z.
Proof.
  intros Ha Hf. destruct (Z.eq_dec f 0%Z) as [->|Hf0]; [apply Z.land_0_r|]. apply Z.bits_inj'. intros i Hi.
  rewrite Z.land_spec, Z.testbit_0_l. destruct (Z.lt_ge_cases i n) as [Hlt|Hge]; [by rewrite (testbit_multiple a n) by (done || lia)|].
  rewrite (Z.bits_above_log2 f); [apply andb_false_r|lia|]. apply Z.log2_lt_pow2; [lia|].
  pose proof (Z.pow_le_mono_r 2%Z n i ltac:(lia) Hge). lia.
Qed.

Lemma lor_low a f n : (a `mod` 2 ^ n = 0)%Z -> (0 <= f < 2 ^ n)%Z -> Z.lor a f = (a + f)%Z.
Proof.
  intros Ha Hf. pose proof (land_low a f n Ha Hf) as H. by rewrite <- Z.lxor_lor, <- Z.add_nocarry_lxor.
Qed.

Create HintDb cint discriminated.
#[export] Hint Resolve u32_range i32_range : cint.

(** ** Kernel computations

    A kernel routine is a function of the state it runs in.  It finishes
    ([Done]), stops the machine in [panic] (console.c), dereferences a pointer
    to no object ([Undef]; C gives such an access no meaning), or runs past
    the fuel that bounds a loop of the model ([NoFuel]; theorems show that the
    fuel chosen is enough). *)

Inductive outcome (S A : Type) : Type :=
| Done (a : A) (s : S)
| Panic (msg : string) (s : S)
| Undef (s : S)
| NoFuel (s : S).
Arguments Done {S A} a s.
Arguments Panic {S A} msg s.
Arguments Undef {S A} s.
Arguments NoFuel {S A} s.

Definition M (S A : Type) : Type := S -> outcome S A.

Section Monad.
Context {S : Type}.

Definition ret {A} (a : A) : M S A := fun s => Done a s.

Definition bind {A B} (m : M S A) (k : A -> M S B) : M S B := fun s =>
  match m s with
  | Done a s' => k a s'
  | Panic msg s' => Panic msg s'
  | Undef s' => Undef s'
  | NoFuel s' => NoFuel s'
  end.

Definition panic {A} (msg : string) : M S A := fun s => Panic msg s.
Definition undef {A} : M S A := fun s => Undef s.
Definition out_of_fuel {A} : M S A := fun s => NoFuel s.
Definition gets {A} (f : S -> A) : M S A := fun s => Done (f s) s.
Definition modify (f : S -> S) : M S unit := fun s => Done tt (f s).

Definition when (b : bool) (m : M S unit) : M S unit :=
  if b then m else ret tt.

(** [for] over the elements of a list, in order. *)
Fixpoint for_each {A} (l : list A) (body : A -> M S unit) : M S unit :=
  match l with
  | [] => ret tt
  | x :: l' => bind (body x) (fun _ => for_each l' body)
  end.

Lemma bind_done {A B} (m : M S A) (k : A -> M S B) s a s' :
  m s = Done a s' -> bind m k s = k a s'.
Proof. unfold bind. by intros ->. Qed.

Lemma bind_Done_inv {A B} (m : M S A) (k : A -> M S B) s b s' :
  bind m k s = Done b s' -> exists a s1, m s = Done a s1 /\ k a s1 = Done b s'.
Proof. unfold bind. destruct (m s); naive_solver. Qed.

Lemma for_each_app {A} (l1 l2 : list A) body s :
  for_each (l1 ++ l2) body s = bind (for_each l1 body) (fun _ => for_each l2 body) s.
Proof.
  revert s. induction l1 as [|x l1 IH]; intros s; simpl; [done|].
  unfold bind. destruct (body x s); [|done..].
  specialize (IH s0). unfold bind in IH. done.
Qed.

(** The loop rule: an invariant indexed by the elements already visited. *)
Lemma for_each_inv {A} (I : list A -> S -> Prop) (l : list A) body s :
  I [] s ->
  (forall done_ x todo s1, l = done_ ++ x :: todo -> I done_ s1 ->
     exists s2, body x s1 = Done tt s2 /\ I (done_ ++ [x]) s2) ->
  exists s', for_each l body s = Done tt s' /\ I l s'.
Proof.
  intros H0 Hstep.
  assert (forall todo pre s1, l = pre ++ todo -> I pre s1 ->
    exists s', for_each todo body s1 = Done tt s' /\ I l s') as Haux.
  { induction todo as [|x todo IH]; intros pre s1 Hl HI; simpl.
    - rewrite app_nil_r in Hl. subst. eauto.
    - destruct (Hstep pre x todo s1 Hl HI) as (s2 & Hb & HI2).
      destruct (IH (pre ++ [x]) s2) as (s' & Hf & HI'); [|done|].
      { rewrite <- app_assoc. done. }
      exists s'. split; [|done]. by rewrite (bind_done _ _ _ _ _ Hb). }
  by apply (Haux l [] s).
Qed.
End Monad.

Notation "x <- m ;; k" := (bind m (fun x => k))
  (at level 100, m at next level, k at level 200, right associativity) : c_scope.
Notation "m ;; k" := (bind m (fun _ => k))
  (at level 100, k at level 200, right associativity) : c_scope.

(** A computation stays outside the outcomes that stop the machine. *)
Definition completes {S A} (m : M S A) (s : S) : Prop :=
  exists a s', m s = Done a s'.

(** ** Total correctness

    [wp m Q s]: run from [s], [m] finishes, and [Q] holds of its result and of
    the state it leaves. *)
Definition wp {S A} (m : M S A) (Q : A -> S -> Prop) (s : S) : Prop :=
  match m s with Done a s' => Q a s' | _ => False end.

Section Wp.
Context {S : Type}.

Lemma wp_done {A} (m : M S A) Q s : wp m Q s <-> exists a s', m s = Done a s' /\ Q a s'.
Proof. unfold wp. destruct (m s); naive_solver. Qed.

Lemma wp_intro {A} (m : M S A) (Q : A -> S -> Prop) s a s' : m s = Done a s' -> Q a s' -> wp m Q s.
Proof. unfold wp. by intros ->. Qed.

Lemma wp_bind {A B} (m : M S A) (k : A -> M S B) Q s :
  wp m (fun a s' => wp (k a) Q s') s -> wp (bind m k) Q s.
Proof. unfold wp, bind. by destruct (m s). Qed.

Lemma wp_mono {A} (m : M S A) (P Q : A -> S -> Prop) s :
  wp m P s -> (forall a s', P a s' -> Q a s') -> wp m Q s.
Proof. unfold wp. destruct (m s); naive_solver. Qed.

Lemma wp_ret {A} (a : A) (Q : A -> S -> Prop) s : Q a s -> wp (ret a) Q s.
Proof. done. Qed.

Lemma wp_gets {A} (f : S -> A) (Q : A -> S -> Prop) s : Q (f s) s -> wp (gets f) Q s.
Proof. done. Qed.

Lemma wp_modify (f : S -> S) (Q : unit -> S -> Prop) s : Q tt (f s) -> wp (modify f) Q s.
Proof. done. Qed.

(** Loop rule over a list, with an invariant indexed by the part done. *)
Lemma wp_for_each {A} (I : list A -> S -> Prop) (l : list A) body (Q : unit -> S -> Prop) s :
  I [] s ->
  (forall done_ x todo s1, l = done_ ++ x :: todo -> I done_ s1 ->
     wp (body x) (fun _ s2 => I (done_ ++ [x]) s2) s1) ->
  (forall s', I l s' -> Q tt s') ->
  wp (for_each l body) Q s.
Proof.
  intros H0 Hstep Hend.
  destruct (for_each_inv I l body s H0) as (s' & Hf & HI).
  { intros done_ x todo s1 Hl HI. specialize (Hstep done_ x todo s1 Hl HI).
    apply wp_done in Hstep as ([] & s2 & Hb & HI2). eauto. }
  eapply wp_intro; [exact Hf|auto].
Qed.
End Wp.

(** ** Correctness up to the faults of a callee

    [wpf F m Q s] allows [m], besides finishing in [Q], to stop with a fault in
    [F].  With [F] empty it is [wp]; a component proved against an interface
    takes for [F] the faults that the implementation of the interface raises. *)
Inductive fault := FPanic (msg : string) | FUndef | FNoFuel.

Definition wpf {S A} (F : fault -> Prop) (m : M S A) (Q : A -> S -> Prop) (s : S) : Prop :=
  match m s with
  | Done a s' => Q a s'
  | Panic msg _ => F (FPanic msg)
  | Undef _ => F FUndef
  | NoFuel _ => F FNoFuel
  end.

Section Wpf.
Context {S : Type} (F : fault -> Prop).

Lemma wpf_wp {A} (m : M S A) Q s : wp m Q s -> wpf F m Q s.
Proof. unfold wp, wpf. by destruct (m s). Qed.

Lemma wp_wpf {A} (m : M S A) Q s : wpf (fun _ => False) m Q s -> wp m Q s.
Proof. unfold wp, wpf. by destruct (m s). Qed.

Lemma wpf_weaken {A} (G : fault -> Prop) (m : M S A) Q s :
  (forall f, F f -> G f) -> wpf F m Q s -> wpf G m Q s.
Proof. unfold wpf. destruct (m s); auto. Qed.

Lemma wpf_call {A} (G : fault -> Prop) (m : M S A) (P Q : A -> S -> Prop) s :
  wpf F m P s -> (forall f, F f -> G f) -> (forall a s', P a s' -> Q a s') -> wpf G m Q s.
Proof. unfold wpf. destruct (m s); auto. Qed.

Lemma wpf_bind {A B} (m : M S A) (k : A -> M S B) Q s :
  wpf F m (fun a s' => wpf F (k a) Q s') s -> wpf F (bind m k) Q s.
Proof. unfold wpf, bind. by destruct (m s). Qed.

Lemma wpf_mono {A} (m : M S A) (P Q : A -> S -> Prop) s :
  wpf F m P s -> (forall a s', P a s' -> Q a s') -> wpf F m Q s.
Proof. unfold wpf. destruct (m s); naive_solver. Qed.

Lemma wpf_done {A} (m : M S A) (Q : A -> S -> Prop) s a s' : m s = Done a s' -> Q a s' -> wpf F m Q s.
Proof. unfold wpf. by intros ->. Qed.

Lemma wpf_step {A B} (m : M S A) (k : A -> M S B) Q s a s' :
  m s = Done a s' -> wpf F (k a) Q s' -> wpf F (bind m k) Q s.
Proof. intros Hm Hk. unfold wpf. by rewrite (bind_done _ _ _ _ _ Hm). Qed.

Lemma wpf_for_each {A} (I : list A -> S -> Prop) (l : list A) body (Q : unit -> S -> Prop) s :
  I [] s ->
  (forall done_ x todo s1, l = done_ ++ x :: todo -> I done_ s1 ->
     wpf F (body x) (fun _ s2 => I (done_ ++ [x]) s2) s1) ->
  (forall s', I l s' -> Q tt s') ->
  wpf F (for_each l body) Q s.
Proof.
  intros H0 Hstep Hend.
  assert (forall todo pre s1, l = pre ++ todo -> I pre s1 ->
    wpf F (for_each todo body) Q s1) as Haux.
  { induction todo as [|x todo IH]; intros pre s1 Hl HI; simpl.
    - rewrite app_nil_r in Hl. subst. by apply Hend.
    - apply wpf_bind. eapply wpf_mono; [by eapply Hstep|].
      intros [] s2 HI2. apply (IH (pre ++ [x])); [|done]. by rewrite <- app_assoc. }
  by apply (Haux l []).
Qed.
End Wpf.

(** Run the first statement, when it is one that computes to [Done]. *)
Ltac wnext := eapply wpf_step; [reflexivity|]; cbv beta.
(** Run the first statement by an equation for it. *)
Tactic Notation "wrun" uconstr(H) := eapply wpf_step; [apply H|]; cbv beta.

Ltac mstep H := rewrite (bind_done _ _ _ _ _ H).

Ltac inv_done :=
  repeat match goal with
  | H : Done _ _ = Done _ _ |- _ => injection H; clear H; intros; subst
  | H : Done _ _ = Panic _ _ |- _ => discriminate H
  | H : Panic _ _ = Done _ _ |- _ => discriminate H
  | H : Undef _ = Done _ _ |- _ => discriminate H
  | H : NoFuel _ = Done _ _ |- _ => discriminate H
  end.

(** ** Lists *)

Section Lists.
Context {A : Type} (P : A -> Prop) `{!forall x, Decision (P x)}.

Lemma filter_all (l : list A) : (forall x, x ∈ l -> P x) -> filter P l = l.
Proof.
  induction l as [|x l IH]; intros Hl; [done|]. rewrite filter_cons_True by set_solver.
  f_equal. apply IH. set_solver.
Qed.

Lemma filter_none (l : list A) : (forall x, x ∈ l -> ~ P x) -> filter P l = [].
Proof.
  induction l as [|x l IH]; intros Hl; [done|]. rewrite filter_cons_False by set_solver.
  apply IH. set_solver.
Qed.

Lemma filter_sublist_mono (l1 l2 : list A) :
  l1 `sublist_of` l2 -> filter P l1 `sublist_of` filter P l2.
Proof.
  induction 1 as [|x l1 l2 Hl IH|x l1 l2 Hl IH]; [done|..]; rewrite !filter_cons;
    case_decide; by try constructor.
Qed.

Lemma StronglySorted_filter (R : A -> A -> Prop) (l : list A) :
  StronglySorted R l -> StronglySorted R (filter P l).
Proof.
  induction 1 as [|x l Hs IH Hx]; [constructor|]. rewrite filter_cons.
  case_decide; [|done]. constructor; [done|].
  apply Forall_forall. intros y Hy. apply list_elem_of_filter in Hy as [_ Hy].
  rewrite Forall_forall in Hx. by apply Hx.
Qed.
End Lists.


Lemma bool_decide_ext_if {A} (P Q : Prop) `{!Decision P, !Decision Q} (x y : A) :
  (P <-> Q) -> (if bool_decide P then x else y) = if bool_decide Q then x else y.
Proof. intros H. by rewrite (bool_decide_ext P Q H). Qed.

(** ** Arrays as functions: reading after writing *)

Ltac fn_simp :=
  repeat first
    [ rewrite fn_lookup_insert
    | rewrite fn_lookup_insert_ne by (first [done | congruence | lia]) ].
