(* ===== verification/KState.v ===== *)
(** * The kernel state that proc.c, trap.c and spinlock.c work on

    The constants of param.h and bfs.h, [struct proc] (proc.h), [struct node]
    and [struct ptable] (proc.c), [struct cpu] (proc.h), [struct spinlock]
    (spinlock.h) and the record [kst] of the globals.

    Pointers into the tables are indices: a [struct proc *] is an index into
    ptable.proc, a [struct node *] a value of [nptr].  Sleep channels are
    addresses that the code only compares, so [chan] has one constructor per
    kind of object whose address is used.  The record is parameterised by the
    type [E] of the state of the components that proc.c calls (page allocator,
    page tables, file table, inode cache, log). *)

From S2P Require Import Prelude.

(** ** param.h and bfs.h *)

Definition NPROC : nat := 64.
Definition KSTACKSIZE : Z := 4096.
Definition NCPU : nat := 8.
Definition NOFILE : nat := 16.
Definition BFS_DEFAULT_QUANTUM : Z := 50.
Definition NICE_FIRST_LEVEL : Z := -20.
Definition NICE_LAST_LEVEL : Z := 19.
Definition SEED : Z := 6969420.
Definition LEVELS : nat := 4.
Definition SKIPLIST_P : Z := 2500.

Lemma NPROC_eq : NPROC = 64.
Proof. done. Qed.
Lemma LEVELS_eq : LEVELS = 4.
Proof. done. Qed.
Lemma NOFILE_eq : NOFILE = 16.
Proof. done. Qed.

(** Proofs use the sizes of the tables through these equations only. *)
#[global] Opaque NPROC LEVELS NOFILE.

(** ** spinlock.h *)

Record spinlock := mkSpinlock {
  lk_locked : bool;
  lk_cpu : option nat;  (* the processor holding the lock *)
}.

(** The locks that proc.c and trap.c name, and those of other components. *)
Inductive lockid :=
| PtableLock            (* ptable.lock *)
| TicksLock             (* tickslock *)
| ObjLock (addr : Z).

#[global] Instance lockid_eq_dec : EqDecision lockid.
Proof. solve_decision. Defined.

(** ** struct trapframe (x86.h), the paddings left out *)

Record trapframe := mkTrapframe {
  tf_edi : Z;
  tf_esi : Z;
  tf_ebp : Z;
  tf_oesp : Z;
  tf_ebx : Z;
  tf_edx : Z;
  tf_ecx : Z;
  tf_eax : Z;
  tf_gs : Z;
  tf_fs : Z;
  tf_es : Z;
  tf_ds : Z;
  tf_trapno : Z;
  tf_err : Z;
  tf_eip : Z;
  tf_cs : Z;
  tf_eflags : Z;
  tf_esp : Z;
  tf_ss : Z;
}.

Definition set_tf_eax (v : Z) (r : trapframe) : trapframe :=
  mkTrapframe (tf_edi r) (tf_esi r) (tf_ebp r) (tf_oesp r) (tf_ebx r) (tf_edx r)
    (tf_ecx r) v (tf_gs r) (tf_fs r) (tf_es r) (tf_ds r) (tf_trapno r) (tf_err r)
    (tf_eip r) (tf_cs r) (tf_eflags r) (tf_esp r) (tf_ss r).
Definition set_tf_trapno (v : Z) (r : trapframe) : trapframe :=
  mkTrapframe (tf_edi r) (tf_esi r) (tf_ebp r) (tf_oesp r) (tf_ebx r) (tf_edx r)
    (tf_ecx r) (tf_eax r) (tf_gs r) (tf_fs r) (tf_es r) (tf_ds r) v (tf_err r)
    (tf_eip r) (tf_cs r) (tf_eflags r) (tf_esp r) (tf_ss r).
Definition set_tf_eip (v : Z) (r : trapframe) : trapframe :=
  mkTrapframe (tf_edi r) (tf_esi r) (tf_ebp r) (tf_oesp r) (tf_ebx r) (tf_edx r)
    (tf_ecx r) (tf_eax r) (tf_gs r) (tf_fs r) (tf_es r) (tf_ds r) (tf_trapno r)
    (tf_err r) v (tf_cs r) (tf_eflags r) (tf_esp r) (tf_ss r).
Definition set_tf_esp (v : Z) (r : trapframe) : trapframe :=
  mkTrapframe (tf_edi r) (tf_esi r) (tf_ebp r) (tf_oesp r) (tf_ebx r) (tf_edx r)
    (tf_ecx r) (tf_eax r) (tf_gs r) (tf_fs r) (tf_es r) (tf_ds r) (tf_trapno r)
    (tf_err r) (tf_eip r) (tf_cs r) (tf_eflags r) v (tf_ss r).


(** ** Sleep channels *)

Inductive chan :=
| NoChan
| ProcChan (p : nat)     (* &ptable.proc[p] *)
| TicksChan              (* &ticks *)
| ObjChan (addr : Z).    (* any other kernel object *)

#[global] Instance chan_eq_dec : EqDecision chan.
Proof. solve_decision. Defined.

(** The channel a [struct proc *] is, the null pointer included. *)
Definition chan_of_proc (p : option nat) : chan :=
  match p with None => NoChan | Some q => ProcChan q end.

(** ** Saved contexts

    [struct context] holds the registers with which swtch resumes a kernel
    thread.  All the code uses of it is the point at which execution goes on,
    so a saved context is that point with the locals live there. *)

Inductive sched_caller :=
| FromYield
| FromSleep (lk : lockid)
| FromExit.

Inductive kctx :=
| CtxNone                                         (* never set up *)
| CtxForkret                                      (* eip = forkret (allocproc) *)
| CtxSched (intena : bool) (k : sched_caller).    (* after the swtch in sched *)

(** ** proc.h *)

Inductive procstate := UNUSED | EMBRYO | SLEEPING | RUNNABLE | RUNNING | ZOMBIE.

#[global] Instance procstate_eq_dec : EqDecision procstate.
Proof. solve_decision. Defined.

Record proc := mkProc {
  p_sz : Z;  (* uint sz: size of process memory (bytes) *)
  p_pgdir : Z;  (* page directory, 0 for none *)
  p_kstack : Z;  (* bottom of the kernel stack, 0 for none *)
  p_state : procstate;
  p_pid : Z;
  p_parent : option nat;  (* index into ptable.proc *)
  p_tf : trapframe;  (* the frame tf points to, on the process's own stack *)
  p_context : kctx;  (* where swtch resumes the process *)
  p_chan : chan;  (* what it sleeps on *)
  p_killed : bool;
  p_ofile : nat -> option nat;  (* ofile[NOFILE], indices into ftable.file *)
  p_cwd : option nat;  (* index into icache.inode *)
  p_name : list Z;  (* char name[16] *)
  p_virt_deadline : Z;
  p_nice : Z;
  p_ticks_left : Z;
  p_max_skiplist_level : Z;
}.

Definition set_p_sz (v : Z) (r : proc) : proc :=
  mkProc v (p_pgdir r) (p_kstack r) (p_state r) (p_pid r) (p_parent r) (p_tf r)
    (p_context r) (p_chan r) (p_killed r) (p_ofile r) (p_cwd r) (p_name r)
    (p_virt_deadline r) (p_nice r) (p_ticks_left r) (p_max_skiplist_level r).
Definition set_p_pgdir (v : Z) (r : proc) : proc :=
  mkProc (p_sz r) v (p_kstack r) (p_state r) (p_pid r) (p_parent r) (p_tf r)
    (p_context r) (p_chan r) (p_killed r) (p_ofile r) (p_cwd r) (p_name r)
    (p_virt_deadline r) (p_nice r) (p_ticks_left r) (p_max_skiplist_level r).
Definition set_p_kstack (v : Z) (r : proc) : proc :=
  mkProc (p_sz r) (p_pgdir r) v (p_state r) (p_pid r) (p_parent r) (p_tf r)
    (p_context r) (p_chan r) (p_killed r) (p_ofile r) (p_cwd r) (p_name r)
    (p_virt_deadline r) (p_nice r) (p_ticks_left r) (p_max_skiplist_level r).
Definition set_p_state (v : procstate) (r : proc) : proc :=
  mkProc (p_sz r) (p_pgdir r) (p_kstack r) v (p_pid r) (p_parent r) (p_tf r)
    (p_context r) (p_chan r) (p_killed r) (p_ofile r) (p_cwd r) (p_name r)
    (p_virt_deadline r) (p_nice r) (p_ticks_left r) (p_max_skiplist_level r).
Definition set_p_pid (v : Z) (r : proc) : proc :=
  mkProc (p_sz r) (p_pgdir r) (p_kstack r) (p_state r) v (p_parent r) (p_tf r)
    (p_context r) (p_chan r) (p_killed r) (p_ofile r) (p_cwd r) (p_name r)
    (p_virt_deadline r) (p_nice r) (p_ticks_left r) (p_max_skiplist_level r).
Definition set_p_parent (v : option nat) (r : proc) : proc :=
  mkProc (p_sz r) (p_pgdir r) (p_kstack r) (p_state r) (p_pid r) v (p_tf r)
    (p_context r) (p_chan r) (p_killed r) (p_ofile r) (p_cwd r) (p_name r)
    (p_virt_deadline r) (p_nice r) (p_ticks_left r) (p_max_skiplist_level r).
Definition set_p_tf (v : trapframe) (r : proc) : proc :=
  mkProc (p_sz r) (p_pgdir r) (p_kstack r) (p_state r) (p_pid r) (p_parent r) v
    (p_context r) (p_chan r) (p_killed r) (p_ofile r) (p_cwd r) (p_name r)
    (p_virt_deadline r) (p_nice r) (p_ticks_left r) (p_max_skiplist_level r).
Definition set_p_context (v : kctx) (r : proc) : proc :=
  mkProc (p_sz r) (p_pgdir r) (p_kstack r) (p_state r) (p_pid r) (p_parent r) (p_tf r) v
    (p_chan r) (p_killed r) (p_ofile r) (p_cwd r) (p_name r) (p_virt_deadline r)
    (p_nice r) (p_ticks_left r) (p_max_skiplist_level r).
Definition set_p_chan (v : chan) (r : proc) : proc :=
  mkProc (p_sz r) (p_pgdir r) (p_kstack r) (p_state r) (p_pid r) (p_parent r) (p_tf r)
    (p_context r) v (p_killed r) (p_ofile r) (p_cwd r) (p_name r) (p_virt_deadline r)
    (p_nice r) (p_ticks_left r) (p_max_skiplist_level r).
Definition set_p_killed (v : bool) (r : proc) : proc :=
  mkProc (p_sz r) (p_pgdir r) (p_kstack r) (p_state r) (p_pid r) (p_parent r) (p_tf r)
    (p_context r) (p_chan r) v (p_ofile r) (p_cwd r) (p_name r) (p_virt_deadline r)
    (p_nice r) (p_ticks_left r) (p_max_skiplist_level r).
Definition set_p_ofile (v : nat -> option nat) (r : proc) : proc :=
  mkProc (p_sz r) (p_pgdir r) (p_kstack r) (p_state r) (p_pid r) (p_parent r) (p_tf r)
    (p_context r) (p_chan r) (p_killed r) v (p_cwd r) (p_name r) (p_virt_deadline r)
    (p_nice r) (p_ticks_left r) (p_max_skiplist_level r).
Definition set_p_cwd (v : option nat) (r : proc) : proc :=
  mkProc (p_sz r) (p_pgdir r) (p_kstack r) (p_state r) (p_pid r) (p_parent r) (p_tf r)
    (p_context r) (p_chan r) (p_killed r) (p_ofile r) v (p_name r) (p_virt_deadline r)
    (p_nice r) (p_ticks_left r) (p_max_skiplist_level r).
Definition set_p_name (v : list Z) (r : proc) : proc :=
  mkProc (p_sz r) (p_pgdir r) (p_kstack r) (p_state r) (p_pid r) (p_parent r) (p_tf r)
    (p_context r) (p_chan r) (p_killed r) (p_ofile r) (p_cwd r) v (p_virt_deadline r)
    (p_nice r) (p_ticks_left r) (p_max_skiplist_level r).
Definition set_p_virt_deadline (v : Z) (r : proc) : proc :=
  mkProc (p_sz r) (p_pgdir r) (p_kstack r) (p_state r) (p_pid r) (p_parent r) (p_tf r)
    (p_context r) (p_chan r) (p_killed r) (p_ofile r) (p_cwd r) (p_name r) v (p_nice r)
    (p_ticks_left r) (p_max_skiplist_level r).
Definition set_p_nice (v : Z) (r : proc) : proc :=
  mkProc (p_sz r) (p_pgdir r) (p_kstack r) (p_state r) (p_pid r) (p_parent r) (p_tf r)
    (p_context r) (p_chan r) (p_killed r) (p_ofile r) (p_cwd r) (p_name r)
    (p_virt_deadline r) v (p_ticks_left r) (p_max_skiplist_level r).
Definition set_p_ticks_left (v : Z) (r : proc) : proc :=
  mkProc (p_sz r) (p_pgdir r) (p_kstack r) (p_state r) (p_pid r) (p_parent r) (p_tf r)
    (p_context r) (p_chan r) (p_killed r) (p_ofile r) (p_cwd r) (p_name r)
    (p_virt_deadline r) (p_nice r) v (p_max_skiplist_level r).
Definition set_p_max_skiplist_level (v : Z) (r : proc) : proc :=
  mkProc (p_sz r) (p_pgdir r) (p_kstack r) (p_state r) (p_pid r) (p_parent r) (p_tf r)
    (p_context r) (p_chan r) (p_killed r) (p_ofile r) (p_cwd r) (p_name r)
    (p_virt_deadline r) (p_nice r) (p_ticks_left r) v.

Record cpu := mkCpu {
  c_id : nat;  (* index into cpus[] *)
  c_ncli : Z;  (* depth of pushcli nesting *)
  c_intena : bool;  (* interrupts enabled before pushcli? *)
  c_if : bool;  (* FL_IF of the processor's eflags *)
  c_proc : option nat;  (* the process running here, or none *)
  c_cr3 : Z;  (* page directory in use *)
  c_esp0 : Z;  (* ts.esp0: kernel stack used by a trap *)
}.

Definition set_c_id (v : nat) (r : cpu) : cpu :=
  mkCpu v (c_ncli r) (c_intena r) (c_if r) (c_proc r) (c_cr3 r) (c_esp0 r).
Definition set_c_ncli (v : Z) (r : cpu) : cpu :=
  mkCpu (c_id r) v (c_intena r) (c_if r) (c_proc r) (c_cr3 r) (c_esp0 r).
Definition set_c_intena (v : bool) (r : cpu) : cpu :=
  mkCpu (c_id r) (c_ncli r) v (c_if r) (c_proc r) (c_cr3 r) (c_esp0 r).
Definition set_c_if (v : bool) (r : cpu) : cpu :=
  mkCpu (c_id r) (c_ncli r) (c_intena r) v (c_proc r) (c_cr3 r) (c_esp0 r).
Definition set_c_proc (v : option nat) (r : cpu) : cpu :=
  mkCpu (c_id r) (c_ncli r) (c_intena r) (c_if r) v (c_cr3 r) (c_esp0 r).
Definition set_c_cr3 (v : Z) (r : cpu) : cpu :=
  mkCpu (c_id r) (c_ncli r) (c_intena r) (c_if r) (c_proc r) v (c_esp0 r).
Definition set_c_esp0 (v : Z) (r : cpu) : cpu :=
  mkCpu (c_id r) (c_ncli r) (c_intena r) (c_if r) (c_proc r) (c_cr3 r) v.


(** ** struct node and pointers to nodes (proc.c)

    [NAt l i] is [&ptable.level[l][i]].  [NBelow] is [&ptable->level[-1][0]],
    the address the searches of insert and delete compute when they step below
    level 0 from a head node; it points to no node. *)

Inductive nptr := NNull | NAt (l i : nat) | NBelow.

#[global] Instance nptr_eq_dec : EqDecision nptr.
Proof. solve_decision. Defined.

Record node := mkNode {
  n_proc : option nat;
  n_prev : nptr;
  n_next : nptr;
  n_lower : nptr;
}.

Definition set_n_proc (v : option nat) (n : node) : node :=
  mkNode v (n_prev n) (n_next n) (n_lower n).
Definition set_n_prev (v : nptr) (n : node) : node :=
  mkNode (n_proc n) v (n_next n) (n_lower n).
Definition set_n_next (v : nptr) (n : node) : node :=
  mkNode (n_proc n) (n_prev n) v (n_lower n).
Definition set_n_lower (v : nptr) (n : node) : node :=
  mkNode (n_proc n) (n_prev n) (n_next n) v.

(** ** What proc.c prints with cprintf *)

Inductive kmsg :=
| MsgRemoved (pid lvl : Z)
| MsgInserted (pid lvl : Z)
| MsgTick (t : Z)                       (* "%d|" of the schedlog line *)
| MsgSlotUnused                         (* "[-]---:0:-(-)(-)(-)" *)
| MsgSlot (pid : Z) (name : list Z) (st : procstate) (nice lvl vd left : Z)
| MsgComma
| MsgNewline
| MsgProc (pid : Z) (st : procstate) (name : list Z)   (* procdump *)
| MsgText (s : string).

(** ** The globals *)

Record kst (E : Type) := mkKst {
  k_level : nat * nat -> node;  (* ptable.level *)
  k_proc : nat -> proc;  (* ptable.proc *)
  k_locks : lockid -> spinlock;  (* the spin locks *)
  k_seed : Z;  (* static seed *)
  k_nextpid : Z;
  k_initproc : option nat;
  k_ticks : Z;  (* uint ticks (trap.c) *)
  k_schedlog_active : Z;
  k_schedlog_lasttick : Z;
  k_cpu : cpu;  (* the processor this runs on *)
  k_first : bool;  (* static first, in forkret *)
  k_out : list kmsg;  (* what cprintf printed, latest first *)
  k_env : E;  (* the rest of the kernel *)
}.
Arguments mkKst {E}.
Arguments k_level {E} _.
Arguments k_proc {E} _.
Arguments k_locks {E} _.
Arguments k_seed {E} _.
Arguments k_nextpid {E} _.
Arguments k_initproc {E} _.
Arguments k_ticks {E} _.
Arguments k_schedlog_active {E} _.
Arguments k_schedlog_lasttick {E} _.
Arguments k_cpu {E} _.
Arguments k_first {E} _.
Arguments k_out {E} _.
Arguments k_env {E} _.

Definition set_k_level {E : Type} (v : nat * nat -> node) (r : kst E) : kst E :=
  mkKst v (k_proc r) (k_locks r) (k_seed r) (k_nextpid r) (k_initproc r) (k_ticks r)
    (k_schedlog_active r) (k_schedlog_lasttick r) (k_cpu r) (k_first r) (k_out r)
    (k_env r).
Definition set_k_proc {E : Type} (v : nat -> proc) (r : kst E) : kst E :=
  mkKst (k_level r) v (k_locks r) (k_seed r) (k_nextpid r) (k_initproc r) (k_ticks r)
    (k_schedlog_active r) (k_schedlog_lasttick r) (k_cpu r) (k_first r) (k_out r)
    (k_env r).
Definition set_k_locks {E : Type} (v : lockid -> spinlock) (r : kst E) : kst E :=
  mkKst (k_level r) (k_proc r) v (k_seed r) (k_nextpid r) (k_initproc r) (k_ticks r)
    (k_schedlog_active r) (k_schedlog_lasttick r) (k_cpu r) (k_first r) (k_out r)
    (k_env r).
Definition set_k_seed {E : Type} (v : Z) (r : kst E) : kst E :=
  mkKst (k_level r) (k_proc r) (k_locks r) v (k_nextpid r) (k_initproc r) (k_ticks r)
    (k_schedlog_active r) (k_schedlog_lasttick r) (k_cpu r) (k_first r) (k_out r)
    (k_env r).
Definition set_k_nextpid {E : Type} (v : Z) (r : kst E) : kst E :=
  mkKst (k_level r) (k_proc r) (k_locks r) (k_seed r) v (k_initproc r) (k_ticks r)
    (k_schedlog_active r) (k_schedlog_lasttick r) (k_cpu r) (k_first r) (k_out r)
    (k_env r).
Definition set_k_initproc {E : Type} (v : option nat) (r : kst E) : kst E :=
  mkKst (k_level r) (k_proc r) (k_locks r) (k_seed r) (k_nextpid r) v (k_ticks r)
    (k_schedlog_active r) (k_schedlog_lasttick r) (k_cpu r) (k_first r) (k_out r)
    (k_env r).
Definition set_k_ticks {E : Type} (v : Z) (r : kst E) : kst E :=
  mkKst (k_level r) (k_proc r) (k_locks r) (k_seed r) (k_nextpid r) (k_initproc r) v
    (k_schedlog_active r) (k_schedlog_lasttick r) (k_cpu r) (k_first r) (k_out r)
    (k_env r).
Definition set_k_schedlog_active {E : Type} (v : Z) (r : kst E) : kst E :=
  mkKst (k_level r) (k_proc r) (k_locks r) (k_seed r) (k_nextpid r) (k_initproc r)
    (k_ticks r) v (k_schedlog_lasttick r) (k_cpu r) (k_first r) (k_out r) (k_env r).
Definition set_k_schedlog_lasttick {E : Type} (v : Z) (r : kst E) : kst E :=
  mkKst (k_level r) (k_proc r) (k_locks r) (k_seed r) (k_nextpid r) (k_initproc r)
    (k_ticks r) (k_schedlog_active r) v (k_cpu r) (k_first r) (k_out r) (k_env r).
Definition set_k_cpu {E : Type} (v : cpu) (r : kst E) : kst E :=
  mkKst (k_level r) (k_proc r) (k_locks r) (k_seed r) (k_nextpid r) (k_initproc r)
    (k_ticks r) (k_schedlog_active r) (k_schedlog_lasttick r) v (k_first r) (k_out r)
    (k_env r).
Definition set_k_first {E : Type} (v : bool) (r : kst E) : kst E :=
  mkKst (k_level r) (k_proc r) (k_locks r) (k_seed r) (k_nextpid r) (k_initproc r)
    (k_ticks r) (k_schedlog_active r) (k_schedlog_lasttick r) (k_cpu r) v (k_out r)
    (k_env r).
Definition set_k_out {E : Type} (v : list kmsg) (r : kst E) : kst E :=
  mkKst (k_level r) (k_proc r) (k_locks r) (k_seed r) (k_nextpid r) (k_initproc r)
    (k_ticks r) (k_schedlog_active r) (k_schedlog_lasttick r) (k_cpu r) (k_first r) v
    (k_env r).
Definition set_k_env {E : Type} (v : E) (r : kst E) : kst E :=
  mkKst (k_level r) (k_proc r) (k_locks r) (k_seed r) (k_nextpid r) (k_initproc r)
    (k_ticks r) (k_schedlog_active r) (k_schedlog_lasttick r) (k_cpu r) (k_first r)
    (k_out r) v.
