(* ===== verification/Spinlock.v ===== *)
(** * spinlock.c

    [pushcli], [popcli], [holding], [acquire] and [release] on the processor
    that runs the code.  The spin of acquire, [while(xchg(&lk->locked, 1) != 0)],
    can only be left through a release by another processor, so within one
    uninterrupted run of the model a lock found taken is [NoFuel]. *)

From S2P Require Import Prelude KState.

Local Open Scope c_scope.
Local Open Scope Z_scope.

Section Spinlock.
Context {E : Type}.

(** [readeflags()&FL_IF], [cli], [sti] *)
Definition interrupts_on : M (kst E) bool := gets (fun s => c_if (k_cpu s)).
Definition cli : M (kst E) unit := modify (fun s => set_k_cpu (set_c_if false (k_cpu s)) s).
Definition sti : M (kst E) unit := modify (fun s => set_k_cpu (set_c_if true (k_cpu s)) s).

(** mycpu (proc.c): the processor's record; the apicid lookup is the identity of [k_cpu]. *)
Definition mycpu : M (kst E) cpu :=
  on <- interrupts_on ;;
  if on : bool then panic "mycpu called with interrupts enabled" else gets k_cpu.

Definition set_cpu (f : cpu -> cpu) : M (kst E) unit :=
  modify (fun s => set_k_cpu (f (k_cpu s)) s).

Definition pushcli : M (kst E) unit :=
  eflags <- interrupts_on ;;
  cli ;;
  c <- mycpu ;;
  when (c_ncli c =? 0) (set_cpu (set_c_intena eflags)) ;;
  set_cpu (fun c => set_c_ncli (c_ncli c + 1) c).

Definition popcli : M (kst E) unit :=
  on <- interrupts_on ;;
  if on : bool then panic "popcli - interruptible"
  else
    set_cpu (fun c => set_c_ncli (c_ncli c - 1) c) ;;
    c <- mycpu ;;
    if c_ncli c <? 0 then panic "popcli"
    else when ((c_ncli c =? 0) && c_intena c) sti.

Definition holding (lk : lockid) : M (kst E) bool :=
  pushcli ;;
  c <- mycpu ;;
  l <- gets (fun s => k_locks s lk) ;;
  popcli ;;
  ret (lk_locked l && bool_decide (lk_cpu l = Some (c_id c))).

Definition set_lock (lk : lockid) (l : spinlock) : M (kst E) unit :=
  modify (fun s => set_k_locks (<[lk := l]> (k_locks s)) s).

Definition initlock (lk : lockid) : M (kst E) unit := set_lock lk (mkSpinlock false None).

Definition acquire (lk : lockid) : M (kst E) unit :=
  pushcli ;;
  h <- holding lk ;;
  if h : bool then panic "acquire"
  else
    l <- gets (fun s => k_locks s lk) ;;
    if lk_locked l then out_of_fuel   (* spins until another processor releases it *)
    else
      set_lock lk (mkSpinlock true (lk_cpu l)) ;;
      c <- mycpu ;;
      set_lock lk (mkSpinlock true (Some (c_id c))).

Definition release (lk : lockid) : M (kst E) unit :=
  h <- holding lk ;;
  if negb h then panic "release"
  else set_lock lk (mkSpinlock false None) ;; popcli.

(** ** Their effects on the processor and the lock *)

Definition pushed (c : cpu) : cpu :=
  let c1 := set_c_if false c in
  let c2 := if c_ncli c =? 0 then set_c_intena (c_if c) c1 else c1 in
  set_c_ncli (c_ncli c + 1) c2.

Definition popped (c : cpu) : cpu :=
  let c1 := set_c_ncli (c_ncli c - 1) c in
  if (c_ncli c - 1 =? 0) && c_intena c then set_c_if true c1 else c1.

Lemma pushcli_eq s : pushcli s = Done tt (set_k_cpu (pushed (k_cpu s)) s).
Proof.
  unfold pushcli, pushed, bind, interrupts_on, cli, mycpu, set_cpu, when, gets, modify. simpl.
  destruct (c_ncli (k_cpu s) =? 0); simpl; by destruct (k_cpu s).
Qed.

(** A processor inside [pushcli]: interrupts off, counter positive. *)
Definition in_cli (c : cpu) : Prop := c_if c = false /\ 0 < c_ncli c.

Lemma popcli_eq s : in_cli (k_cpu s) -> popcli s = Done tt (set_k_cpu (popped (k_cpu s)) s).
Proof.
  intros [Hif Hn]. unfold popcli, popped, bind, interrupts_on, mycpu, set_cpu, when, gets, modify.
  simpl. rewrite Hif. simpl. unfold bind, gets. simpl. rewrite Hif. simpl.
  destruct (Z.ltb_spec (c_ncli (k_cpu s) - 1) 0); [lia|].
  destruct ((c_ncli (k_cpu s) - 1 =? 0) && c_intena (k_cpu s)); simpl; by destruct (k_cpu s).
Qed.

(** Matched pushcli and popcli cancel out (when interrupts are off, or the
    counter says that nothing was pushed). *)
Definition cli_ok (c : cpu) : Prop :=
  0 <= c_ncli c /\ (0 < c_ncli c -> c_if c = false).

Lemma pushed_in_cli c : cli_ok c -> in_cli (pushed c).
Proof.
  intros [H0 H1]. unfold in_cli, pushed. destruct (c_ncli c =? 0); simpl; split; try done; lia.
Qed.

Lemma popped_pushed c :
  cli_ok c -> popped (pushed c) = if c_ncli c =? 0 then set_c_intena (c_if c) c else c.
Proof.
  intros [H0 H1]. unfold popped, pushed. destruct (Z.eqb_spec (c_ncli c) 0) as [Hz|Hz]; simpl.
  - replace (c_ncli c + 1 - 1 =? 0) with true by lia. simpl.
    destruct c as [id n ie cif cp cr es]; simpl in *. subst n. by destruct cif.
  - replace (c_ncli c + 1 - 1 =? 0) with false by lia. simpl.
    destruct c as [id n ie cif cp cr es]; simpl in *. rewrite H1 by lia.
    by replace (n + 1 - 1) with n by lia.
Qed.


Lemma set_k_cpu_id (s : kst E) : set_k_cpu (k_cpu s) s = s.
Proof. by destruct s. Qed.

(** What [holding] answers. *)
Definition held_here (s : kst E) (lk : lockid) : bool :=
  lk_locked (k_locks s lk) && bool_decide (lk_cpu (k_locks s lk) = Some (c_id (k_cpu s))).

Lemma pushed_id c : c_id (pushed c) = c_id c.
Proof. unfold pushed. by destruct (c_ncli c =? 0). Qed.

Lemma mycpu_eq (s : kst E) : c_if (k_cpu s) = false -> mycpu s = Done (k_cpu s) s.
Proof. intros H. unfold mycpu, bind, interrupts_on, gets. by rewrite H. Qed.

Lemma holding_eq s lk :
  cli_ok (k_cpu s) ->
  holding lk s = Done (held_here s lk) (set_k_cpu (popped (pushed (k_cpu s))) s).
Proof.
  intros Hc. pose proof (pushed_in_cli _ Hc) as Hin. unfold holding.
  mstep (pushcli_eq s). mstep (mycpu_eq (set_k_cpu (pushed (k_cpu s)) s) (proj1 Hin)).
  erewrite bind_done by reflexivity. mstep (popcli_eq (set_k_cpu (pushed (k_cpu s)) s) Hin).
  unfold ret, held_here. cbn -[pushed popped]. by rewrite pushed_id.
Qed.

Lemma in_cli_ok c : in_cli c -> cli_ok c.
Proof. intros [? ?]. split; [lia|done]. Qed.

Lemma holding_in_cli s lk : in_cli (k_cpu s) -> holding lk s = Done (held_here s lk) s.
Proof.
  intros Hin. rewrite (holding_eq s lk (in_cli_ok _ Hin)), popped_pushed by (by apply in_cli_ok).
  destruct Hin as [_ Hn]. destruct (Z.eqb_spec (c_ncli (k_cpu s)) 0); [lia|].
  by rewrite set_k_cpu_id.
Qed.

(** ** acquire and release *)

Definition acquired (lk : lockid) (s : kst E) : kst E :=
  set_k_locks (<[lk := mkSpinlock true (Some (c_id (k_cpu s)))]>
      (<[lk := mkSpinlock true (lk_cpu (k_locks s lk))]> (k_locks s)))
    (set_k_cpu (pushed (k_cpu s)) s).

Definition released (lk : lockid) (s : kst E) : kst E :=
  set_k_cpu (popped (k_cpu s)) (set_k_locks (<[lk := mkSpinlock false None]> (k_locks s)) s).

Lemma acquire_free s lk :
  cli_ok (k_cpu s) -> lk_locked (k_locks s lk) = false -> acquire lk s = Done tt (acquired lk s).
Proof.
  intros Hc Hfree. pose proof (pushed_in_cli _ Hc) as Hin. unfold acquire.
  mstep (pushcli_eq s). mstep (holding_in_cli (set_k_cpu (pushed (k_cpu s)) s) lk Hin).
  unfold held_here. cbn -[pushed]. rewrite Hfree. cbn [andb].
  erewrite bind_done by reflexivity. cbn -[pushed bind set_lock]. rewrite Hfree.
  unfold set_lock at 1. erewrite bind_done by reflexivity.
  rewrite (bind_done _ _ _ _ _ (mycpu_eq (set_k_locks _ (set_k_cpu (pushed (k_cpu s)) s)) (proj1 Hin))).
  unfold set_lock, modify, acquired. cbn -[pushed]. by rewrite pushed_id.
Qed.

Lemma release_held s lk :
  in_cli (k_cpu s) -> held_here s lk = true -> release lk s = Done tt (released lk s).
Proof.
  intros Hin Hheld. unfold release. mstep (holding_in_cli s lk Hin). rewrite Hheld. simpl.
  unfold set_lock. erewrite bind_done by reflexivity. by rewrite popcli_eq.
Qed.

Lemma acquire_held s lk :
  cli_ok (k_cpu s) -> held_here s lk = true ->
  exists s', acquire lk s = Panic "acquire" s'.
Proof.
  intros Hc Hheld. pose proof (pushed_in_cli _ Hc) as Hin. unfold acquire.
  mstep (pushcli_eq s). mstep (holding_in_cli (set_k_cpu (pushed (k_cpu s)) s) lk Hin).
  unfold held_here in *. cbn -[pushed]. rewrite pushed_id, Hheld. by eexists.
Qed.

Lemma release_not_held s lk :
  cli_ok (k_cpu s) -> held_here s lk = false ->
  exists s', release lk s = Panic "release" s'.
Proof.
  intros Hc Hheld. unfold release. mstep (holding_eq s lk Hc). rewrite Hheld. by eexists.
Qed.

Lemma acquired_held lk s : held_here (acquired lk s) lk = true.
Proof.
  unfold held_here, acquired. cbn -[pushed insert]. rewrite fn_lookup_insert, pushed_id. simpl.
  by rewrite bool_decide_true.
Qed.

Lemma acquired_lock lk s :
  k_locks (acquired lk s) lk = mkSpinlock true (Some (c_id (k_cpu s))).
Proof. unfold acquired. cbn -[insert]. by fn_simp. Qed.

Lemma held_here_intro s lk :
  k_locks s lk = mkSpinlock true (Some (c_id (k_cpu s))) -> held_here s lk = true.
Proof. intros Hl. unfold held_here. rewrite Hl. simpl. by apply bool_decide_eq_true. Qed.

Lemma acquired_in_cli lk s : cli_ok (k_cpu s) -> in_cli (k_cpu (acquired lk s)).
Proof. apply pushed_in_cli. Qed.

Lemma acquired_other lk lk' s : lk' <> lk -> k_locks (acquired lk s) lk' = k_locks s lk'.
Proof. intros. unfold acquired. cbn -[insert]. by fn_simp. Qed.

Lemma released_lock lk s : k_locks (released lk s) lk = mkSpinlock false None.
Proof. unfold released. cbn -[insert]. by fn_simp. Qed.

Lemma released_other lk lk' s : lk' <> lk -> k_locks (released lk s) lk' = k_locks s lk'.
Proof. intros. unfold released. cbn -[insert]. by fn_simp. Qed.

Lemma popped_ok c : in_cli c -> cli_ok (popped c).
Proof.
  intros [Hif Hn]. unfold popped, cli_ok.
  destruct (Z.eqb_spec (c_ncli c - 1) 0), (c_intena c); simpl; split; (lia || done).
Qed.

End Spinlock.
