(* ===== verification/SkipList.v ===== *)
(** * The skip list of proc.c

    [random], [computevd], [insert], [delete] and [pinit] as they are written:
    the list nodes live in the static array ptable.level[LEVELS][NPROC + 1],
    slot 0 of each level is its head, a slot whose [proc] is null is free, and
    every traversal follows [prev], [next] and [lower] pointers through that
    array.  Loops whose bound is not a constant of the code carry fuel. *)

From S2P Require Import Prelude KState.

Local Open Scope c_scope.
Local Open Scope Z_scope.

Section SkipList.
Context {E : Type}.

(** ** Memory accesses *)

(** Whether [&level[l][i]] is the address of an element of the array. *)
Definition node_in_range (l i : nat) : bool :=
  bool_decide (l < LEVELS)%nat && bool_decide (i < NPROC + 1)%nat.

Definition load (p : nptr) : M (kst E) node :=
  match p with
  | NAt l i => if node_in_range l i then gets (fun s => k_level s (l, i)) else undef
  | NNull | NBelow => undef
  end.

(** [p->field = v], the field chosen by [f]. *)
Definition store (p : nptr) (f : node -> node) : M (kst E) unit :=
  match p with
  | NAt l i =>
      if node_in_range l i
      then modify (fun s => set_k_level (<[(l, i) := f (k_level s (l, i))]> (k_level s)) s)
      else undef
  | NNull | NBelow => undef
  end.

(** [n.proc->virt_deadline], undefined for a null [proc]. *)
Definition deadline_of (n : node) : M (kst E) Z :=
  match n_proc n with
  | Some p => gets (fun s => p_virt_deadline (k_proc s p))
  | None => undef
  end.

Definition get_proc (p : nat) : M (kst E) proc := gets (fun s => k_proc s p).

Definition put_proc (p : nat) (f : proc -> proc) : M (kst E) unit :=
  modify (fun s => set_k_proc (<[p := f (k_proc s p)]> (k_proc s)) s).

Definition print (m : kmsg) : M (kst E) unit :=
  modify (fun s => set_k_out (m :: k_out s) s).

(** ** int ins_del_flag = 1, which no code changes *)

Definition ins_del_flag : bool := true.

(** ** computevd *)

Definition computevd (nice_value curr_ticks : Z) : Z :=
  i32 (curr_ticks + i32 (i32 (nice_value - NICE_FIRST_LEVEL + 1) * BFS_DEFAULT_QUANTUM)).

(** ** random *)

(** One update of the 32-bit seed. *)
Definition next_seed (seed : Z) : Z :=
  let s1 := Z.lxor seed (u32 (Z.shiftl seed 17)) in
  let s2 := Z.lxor s1 (Z.shiftr s1 7) in
  Z.lxor s2 (u32 (Z.shiftl s2 5)).

Definition random (max : Z) : M (kst E) Z :=
  modify (fun s => set_k_seed (next_seed (k_seed s)) s) ;;
  gets (fun s => k_seed s `mod` max).

(** ** The search that insert and delete start with

    [placement[LEVELS]] starts uninitialised. *)

Local Abbreviation placement_t := (nat -> option nptr).

Definition no_placement : placement_t := fun _ => None.

Definition head_ptr (level : Z) : nptr :=
  if level <? 0 then NBelow else NAt (Z.to_nat level) 0.

(** [curr->next != 0 && curr->next->proc->virt_deadline < curr_deadline] *)
Definition go_forward (n : node) (curr_deadline : Z) : M (kst E) bool :=
  match n_next n with
  | NNull => ret false
  | nx => nn <- load nx ;; d <- deadline_of nn ;; ret (d <? curr_deadline)
  end.

Fixpoint search (msg : string) (fuel : nat) (level : Z) (curr : nptr)
    (curr_deadline : Z) (placement : placement_t) : M (kst E) (placement_t * nptr) :=
  match fuel with
  | O => out_of_fuel
  | S fuel' =>
      if level <? 0 then ret (placement, curr)
      else
        n <- load curr ;;
        fwd <- go_forward n curr_deadline ;;
        if fwd : bool then search msg fuel' level (n_next n) curr_deadline placement
        else
          let placement' := <[Z.to_nat level := Some curr]> placement in
          let level' := level - 1 in
          match n_proc n with
          | None => search msg fuel' level' (head_ptr level') curr_deadline placement'
          | Some _ =>
              let curr' := n_lower n in
              if bool_decide (curr' = NNull) && (0 <=? level')
              then panic msg
              else search msg fuel' level' curr' curr_deadline placement'
          end
  end.

(** Each level is left once and its nodes are passed at most once. *)
Definition search_fuel : nat := LEVELS * (NPROC + 1) + 1.

Definition start_level : Z := Z.of_nat LEVELS - 1.

Definition placement_at (placement : placement_t) (level : nat) : M (kst E) nptr :=
  match placement level with Some p => ret p | None => undef end.

(** ** insert *)

Definition insert_search (curr_deadline : Z) : M (kst E) (placement_t * nptr) :=
  search "insertion: above level 0 with no lower" search_fuel start_level
    (head_ptr start_level) curr_deadline no_placement.

(** The first unallocated index of a level, from index [i] on. *)
Fixpoint find_slot (fuel : nat) (level i : nat) : M (kst E) nat :=
  match fuel with
  | O => out_of_fuel
  | S fuel' =>
      n <- load (NAt level i) ;;
      match n_proc n with
      | None => ret i
      | Some _ =>
          if bool_decide (NPROC + 1 <= S i)%nat
          then panic "not enough memory to store a new value"
          else find_slot fuel' level (S i)
      end
  end.

(** The body of the insertion loop once the dice allow the level. *)
Definition insert_at (proc : nat) (placement : placement_t) (level : nat) (lower : nptr)
    : M (kst E) nptr :=
  i <- find_slot (S NPROC) level 1 ;;
  let node := NAt level i in
  store node (set_n_lower lower) ;;
  store node (set_n_proc (Some proc)) ;;
  curr <- placement_at placement level ;;
  store node (set_n_prev curr) ;;
  cn <- load curr ;;
  store node (set_n_next (n_next cn)) ;;
  store curr (set_n_next node) ;;
  nn <- load node ;;
  when (bool_decide (n_next nn <> NNull)) (store (n_next nn) (set_n_prev node)) ;;
  ret node.

(** [for (level = ...; level < LEVELS; level++)], [k] levels remaining. *)
Fixpoint insert_levels (k : nat) (proc : nat) (placement : placement_t) (level : nat)
    (lower : nptr) : M (kst E) nat :=
  match k with
  | O => ret level
  | S k' =>
      stop <- (if bool_decide (level <> 0)%nat
               then r <- random 10000 ;; ret (SKIPLIST_P <=? r)
               else ret false) ;;
      if stop : bool then ret level
      else
        node <- insert_at proc placement level lower ;;
        insert_levels k' proc placement (S level) node
  end.

Definition insert (proc : nat) : M (kst E) Z :=
  p <- get_proc proc ;;
  sr <- insert_search (p_virt_deadline p) ;;
  level <- insert_levels LEVELS proc (fst sr) 0 NNull ;;
  put_proc proc (set_p_max_skiplist_level (Z.of_nat level)) ;;
  when ins_del_flag (print (MsgInserted (p_pid p) (Z.of_nat level))) ;;
  ret (Z.of_nat level).

(** ** delete

    The test of the loop after the search reads [curr->proc] while [curr] is
    what the search stepped down to from level 0: the null [lower] of a
    level-0 node, or [&level[-1][0]].  The value such a load returns is the
    parameter [stray]: the word the machine finds there, as a process pointer. *)

Context (stray : kst E -> nptr -> option nat).

Definition proc_field (p : nptr) : M (kst E) (option nat) :=
  match p with
  | NAt _ _ => n <- load p ;; ret (n_proc n)
  | NNull | NBelow => gets (fun s => stray s p)
  end.

Definition delete_search (curr_deadline : Z) : M (kst E) (placement_t * nptr) :=
  search "deletion: above level 0 with no lower" search_fuel start_level
    (head_ptr start_level) curr_deadline no_placement.

(** The inner loop: along the nodes of equal deadline until [proc] is met. *)
Fixpoint delete_scan (fuel : nat) (proc : nat) (curr_deadline : Z) (curr : nptr)
    : M (kst E) nptr :=
  match fuel with
  | O => out_of_fuel
  | S fuel' =>
      n <- load curr ;;
      go <- match n_next n with
            | NNull => ret false
            | nx =>
                nn <- load nx ;; d <- deadline_of nn ;;
                ret ((d =? curr_deadline) && bool_decide (n_proc n <> Some proc))
            end ;;
      if go : bool then delete_scan fuel' proc curr_deadline (n_next n) else ret curr
  end.

(** [for (level = LEVELS - 1; curr->proc != proc; level--)]; [k] is [level + 1]. *)
Fixpoint delete_find (k : nat) (proc : nat) (curr_deadline : Z) (placement : placement_t)
    (curr : nptr) : M (kst E) nptr :=
  q <- proc_field curr ;;
  if bool_decide (q = Some proc) then ret curr
  else
    match k with
    | O => panic "deletion search beyond lowest level"
    | S k' =>
        c0 <- placement_at placement k' ;;
        curr' <- delete_scan (NPROC + 2) proc curr_deadline c0 ;;
        delete_find k' proc curr_deadline placement curr'
    end.

(** One turn of the do-while loop: unlink and clear a node, return its [lower]. *)
Definition unlink (curr : nptr) : M (kst E) nptr :=
  n <- load curr ;;
  if bool_decide (n_prev n = NNull) then panic "somehow deleting node with no set previous"
  else
    store (n_prev n) (set_n_next (n_next n)) ;;
    n1 <- load curr ;;
    when (bool_decide (n_next n1 <> NNull)) (store (n_next n1) (set_n_prev (n_prev n1))) ;;
    store curr (set_n_proc None) ;;
    store curr (set_n_prev NNull) ;;
    store curr (set_n_next NNull) ;;
    n2 <- load curr ;;
    store curr (set_n_lower NNull) ;;
    ret (n_lower n2).

Fixpoint unlink_down (fuel : nat) (curr : nptr) : M (kst E) unit :=
  match fuel with
  | O => out_of_fuel
  | S fuel' =>
      lower <- unlink curr ;;
      if bool_decide (lower = NNull) then ret tt else unlink_down fuel' lower
  end.

Definition delete (proc : nat) : M (kst E) Z :=
  p <- get_proc proc ;;
  when ins_del_flag (print (MsgRemoved (p_pid p) (p_max_skiplist_level p))) ;;
  sr <- delete_search (p_virt_deadline p) ;;
  curr <- delete_find LEVELS proc (p_virt_deadline p) (fst sr) (snd sr) ;;
  unlink_down LEVELS curr ;;
  q <- get_proc proc ;;
  put_proc proc (set_p_max_skiplist_level (-1)) ;;
  ret (p_max_skiplist_level q).

(** ** The part of pinit between acquire and release *)

Definition pinit_levels : M (kst E) unit :=
  for_each (seq 0 LEVELS) (fun i =>
    store (NAt i 0) (set_n_prev NNull) ;;
    store (NAt i 0) (set_n_next NNull) ;;
    store (NAt i 0) (set_n_lower NNull) ;;
    for_each (seq 0 (NPROC + 1)) (fun j => store (NAt i j) (set_n_proc None))).

End SkipList.
