(* ===== verification/SkipListInv.v ===== *)
(** * Representation invariant of the skip list and its search

    [dll]: the doubly linked list of one level; [level_ok]: one level
    represents a list of processes ordered by deadline; [wf]: the whole
    structure, with the [lower] links between the levels.  [search_spec]: the
    search of insert and delete finds, at every level, the last node whose
    deadline is smaller than the one sought, within its fuel. *)

From S2P Require Import Prelude KState SkipList.

Local Open Scope c_scope.

(** ** Doubly linked lists in one row of the array *)

Abbreviation nodes := (nat * nat -> node).

(** The index that ends the list [xs] started at [a]. *)
Definition lst (a : nat) (xs : list nat) : nat := default a (last xs).

Definition first_ptr (l : nat) (xs : list nat) : nptr :=
  match xs with [] => NNull | x :: _ => NAt l x end.

(** From index [a] on, [next] leads through [xs] to null and [prev] back. *)
Fixpoint dll (nd : nodes) (l a : nat) (xs : list nat) : Prop :=
  match xs with
  | [] => n_next (nd (l, a)) = NNull
  | x :: xs' =>
      n_next (nd (l, a)) = NAt l x /\ n_prev (nd (l, x)) = NAt l a /\ dll nd l x xs'
  end.

Lemma lst_nil a : lst a [] = a.
Proof. done. Qed.

Lemma lst_snoc a xs x : lst a (xs ++ [x]) = x.
Proof. unfold lst. by rewrite last_snoc. Qed.

Lemma lst_cons a x xs : lst a (x :: xs) = lst x xs.
Proof. unfold lst. rewrite last_cons. by destruct (last xs). Qed.

Lemma lst_in a xs : lst a xs ∈ a :: xs.
Proof.
  revert a. induction xs as [|x xs IH]; intros a; [set_solver|].
  rewrite lst_cons. specialize (IH x). set_solver.
Qed.

Lemma dll_next nd l a pre suf :
  dll nd l a (pre ++ suf) -> n_next (nd (l, lst a pre)) = first_ptr l suf.
Proof.
  revert a. induction pre as [|x pre IH]; intros a; simpl.
  - rewrite lst_nil. destruct suf; simpl; naive_solver.
  - rewrite lst_cons. naive_solver.
Qed.

Lemma dll_prev nd l a pre x suf :
  dll nd l a (pre ++ x :: suf) -> n_prev (nd (l, x)) = NAt l (lst a pre).
Proof.
  revert a. induction pre as [|y pre IH]; intros a; simpl.
  - rewrite lst_nil. naive_solver.
  - rewrite lst_cons. naive_solver.
Qed.

(** A list is not affected by stores to other nodes. *)
Lemma dll_frame nd nd' l a xs :
  (forall x, x ∈ a :: xs -> n_next (nd' (l, x)) = n_next (nd (l, x))) ->
  (forall x, x ∈ xs -> n_prev (nd' (l, x)) = n_prev (nd (l, x))) ->
  dll nd l a xs -> dll nd' l a xs.
Proof.
  revert a. induction xs as [|x xs IH]; intros a Hn Hp; simpl.
  - rewrite Hn; set_solver.
  - intros (H1 & H2 & H3). rewrite Hn, Hp by set_solver.
    split_and!; [done..|]. apply IH; set_solver.
Qed.

(** Linking index [i] in between [pre] and [suf]. *)
Lemma dll_link nd nd' l a pre i suf :
  dll nd l a (pre ++ suf) ->
  NoDup (a :: pre ++ suf) -> i ∉ a :: pre ++ suf ->
  n_next (nd' (l, lst a pre)) = NAt l i ->
  n_prev (nd' (l, i)) = NAt l (lst a pre) ->
  n_next (nd' (l, i)) = first_ptr l suf ->
  (forall y, head suf = Some y -> n_prev (nd' (l, y)) = NAt l i) ->
  (forall x, x <> lst a pre -> x <> i -> n_next (nd' (l, x)) = n_next (nd (l, x))) ->
  (forall x, x <> i -> head suf <> Some x -> n_prev (nd' (l, x)) = n_prev (nd (l, x))) ->
  dll nd' l a (pre ++ i :: suf).
Proof.
  revert a. induction pre as [|x pre IH]; intros a Hd Hnd Hi H1 H2 H3 H4 H5 H6; simpl in *.
  - rewrite lst_nil in *. split_and!; [done..|].
    destruct suf as [|y suf]; simpl in *; [done|].
    split_and!; [done|by apply H4|]. destruct Hd as (_ & _ & Hd).
    eapply dll_frame; [..|exact Hd].
    + intros z Hz. apply H5; intros ->; inversion Hnd; set_solver.
    + intros z Hz. apply H6; [intros ->; set_solver|].
      inversion Hnd as [|?? _ Hnd2]; subst. inversion Hnd2. naive_solver.
  - rewrite lst_cons in *. destruct Hd as (Ha & Hb & Hd).
    inversion Hnd as [|?? Ha2 Hnd2]; subst.
    assert (a <> lst x pre) by (pose proof (lst_in x pre); set_solver).
    split_and!.
    + rewrite H5; [done..|set_solver].
    + rewrite H6; [done|set_solver|].
      inversion Hnd2 as [|?? Hx _]; subst. destruct suf; simpl; set_solver.
    + apply IH; try done. set_solver.
Qed.

(** Unlinking index [i]. *)
Lemma dll_unlink nd nd' l a pre i suf :
  dll nd l a (pre ++ i :: suf) ->
  NoDup (a :: pre ++ i :: suf) ->
  n_next (nd' (l, lst a pre)) = first_ptr l suf ->
  (forall y, head suf = Some y -> n_prev (nd' (l, y)) = NAt l (lst a pre)) ->
  (forall x, x <> lst a pre -> x <> i -> n_next (nd' (l, x)) = n_next (nd (l, x))) ->
  (forall x, x <> i -> head suf <> Some x -> n_prev (nd' (l, x)) = n_prev (nd (l, x))) ->
  dll nd' l a (pre ++ suf).
Proof.
  revert a. induction pre as [|x pre IH]; intros a Hd Hnd H1 H4 H5 H6; simpl in *.
  - rewrite lst_nil in *. destruct Hd as (_ & _ & Hd).
    inversion Hnd as [|?? Ha2 Hnd2]; subst. inversion Hnd2 as [|?? Hi Hnd3]; subst.
    destruct suf as [|y suf]; simpl in *; [done|].
    split_and!; [done|by apply H4|]. destruct Hd as (_ & _ & Hd).
    eapply dll_frame; [..|exact Hd].
    + intros z Hz. apply H5; intros ->; set_solver.
    + intros z Hz. apply H6; [intros ->; set_solver|]. inversion Hnd3. naive_solver.
  - rewrite lst_cons in *. destruct Hd as (Ha & Hb & Hd).
    inversion Hnd as [|?? Ha2 Hnd2]; subst.
    assert (a <> lst x pre) by (pose proof (lst_in x pre); set_solver).
    split_and!.
    + rewrite H5; [done..|set_solver].
    + inversion Hnd2 as [|?? Hx _]; subst.
      rewrite H6; [done|set_solver|]. destruct suf; simpl; set_solver.
    + by apply IH.
Qed.

(** ** Lists of processes ordered by deadline *)

(** The abstract queue: the processes of level 0.  [enqueue] puts a process
    before the first one whose deadline is not smaller. *)
Definition earlier (dl : nat -> Z) (d : Z) (q : list nat) : list nat :=
  filter (fun p => (dl p < d)%Z) q.
Definition not_earlier (dl : nat -> Z) (d : Z) (q : list nat) : list nat :=
  filter (fun p => ~ (dl p < d)%Z) q.
Definition enqueue (dl : nat -> Z) (p : nat) (q : list nat) : list nat :=
  earlier dl (dl p) q ++ p :: not_earlier dl (dl p) q.
Definition dequeue (p : nat) (q : list nat) : list nat := filter (fun q => q <> p) q.

Definition by_deadline (dl : nat -> Z) (p q : nat) : Prop := (dl p <= dl q)%Z.

Lemma sorted_split dl d q :
  StronglySorted (by_deadline dl) q -> q = earlier dl d q ++ not_earlier dl d q.
Proof.
  induction 1 as [|p q Hs IH Hp]; [done|]. unfold earlier, not_earlier in *.
  rewrite !filter_cons. destruct (decide (dl p < d)%Z) as [Hlt|Hge].
  - rewrite (decide_False (P := ~ (dl p < d)%Z)) by lia. simpl. by f_equal.
  - rewrite (decide_True (P := ~ (dl p < d)%Z)) by lia.
    assert (filter (fun p => (dl p < d)%Z) q = []) as Hn.
    { apply filter_none. intros z Hin.
      rewrite Forall_forall in Hp. specialize (Hp z Hin).
      unfold by_deadline in Hp. lia. }
    rewrite Hn in *. simpl in *. by f_equal.
Qed.

Lemma elem_of_enqueue dl p q x : x ∈ enqueue dl p q <-> x = p \/ x ∈ q.
Proof.
  unfold enqueue, earlier, not_earlier.
  rewrite elem_of_app, elem_of_cons, !list_elem_of_filter.
  destruct (decide (dl x < dl p)%Z); naive_solver.
Qed.

Lemma elem_of_dequeue p q x : x ∈ dequeue p q <-> x <> p /\ x ∈ q.
Proof. unfold dequeue. by rewrite list_elem_of_filter. Qed.

Lemma enqueue_sorted dl p q :
  StronglySorted (by_deadline dl) q -> StronglySorted (by_deadline dl) (enqueue dl p q).
Proof.
  intros Hs. unfold enqueue, earlier, not_earlier.
  apply StronglySorted_app_2; [|by apply StronglySorted_filter|].
  - intros x y [Hx _]%list_elem_of_filter [->|[Hy _]%list_elem_of_filter]%elem_of_cons;
      unfold by_deadline; lia.
  - constructor; [by apply StronglySorted_filter|]. apply Forall_forall.
    intros x [Hx _]%list_elem_of_filter. unfold by_deadline. lia.
Qed.

Lemma enqueue_perm dl p q : enqueue dl p q ≡ₚ p :: q.
Proof.
  unfold enqueue, earlier, not_earlier. rewrite <- Permutation_middle. f_equiv.
  induction q as [|x q IH]; [done|]. rewrite !filter_cons. destruct (decide (dl x < dl p)%Z).
  - rewrite decide_False by lia. simpl. by f_equiv.
  - rewrite decide_True by lia. rewrite <- Permutation_middle. by f_equiv.
Qed.

Lemma enqueue_NoDup dl p q : NoDup q -> p ∉ q -> NoDup (enqueue dl p q).
Proof. intros ??. rewrite enqueue_perm. by constructor. Qed.

Lemma enqueue_sublist dl p q1 q2 :
  q1 `sublist_of` q2 -> enqueue dl p q1 `sublist_of` enqueue dl p q2.
Proof.
  intros H. unfold enqueue. apply sublist_app; [by apply filter_sublist_mono|].
  apply sublist_skip. by apply filter_sublist_mono.
Qed.

(** A level the new process does not reach stays below the one it does reach. *)
Lemma enqueue_sublist_skip dl p q1 q2 :
  StronglySorted (by_deadline dl) q2 ->
  q1 `sublist_of` q2 -> q1 `sublist_of` enqueue dl p q2.
Proof.
  intros Hs H. rewrite (sorted_split dl (dl p) q2 Hs) in H. etrans; [exact H|].
  unfold enqueue. apply sublist_app; [done|]. by apply sublist_cons.
Qed.

Lemma dequeue_sorted dl p q :
  StronglySorted (by_deadline dl) q -> StronglySorted (by_deadline dl) (dequeue p q).
Proof. apply StronglySorted_filter. Qed.

Lemma dequeue_NoDup p q : NoDup q -> NoDup (dequeue p q).
Proof. apply NoDup_filter. Qed.

Lemma dequeue_sublist p q1 q2 :
  q1 `sublist_of` q2 -> dequeue p q1 `sublist_of` dequeue p q2.
Proof. apply filter_sublist_mono. Qed.

Lemma dequeue_app p pre suf :
  NoDup (pre ++ p :: suf) -> dequeue p (pre ++ p :: suf) = pre ++ suf.
Proof.
  intros (Hpre & Hd & [Hp Hsuf]%NoDup_cons)%NoDup_app.
  unfold dequeue. rewrite filter_app, filter_cons_False by naive_solver.
  f_equal; apply filter_all; set_solver.
Qed.

Lemma dequeue_absent p q : p ∉ q -> dequeue p q = q.
Proof. intros. apply filter_all. set_solver. Qed.

Lemma dequeue_enqueue dl p q :
  StronglySorted (by_deadline dl) q -> NoDup q -> p ∉ q -> dequeue p (enqueue dl p q) = q.
Proof.
  intros Hs Hnd Hp. pose proof (enqueue_NoDup dl p q Hnd Hp) as H.
  unfold enqueue in *. rewrite dequeue_app by done. symmetry. by apply sorted_split.
Qed.

(** ** The invariant *)

(** Row [l] of the array represents the list [ps]; process [p] of it has the
    node with index [slot p]. *)
Record level_ok (nd : nodes) (dl : nat -> Z) (l : nat) (slot : nat -> nat)
    (ps : list nat) : Prop := mkLevelOk {
  lo_nodup : NoDup ps;
  lo_bound : forall p, p ∈ ps -> p < NPROC;
  lo_sorted : StronglySorted (by_deadline dl) ps;
  lo_range : forall p, p ∈ ps -> 1 <= slot p <= NPROC;
  lo_proc : forall p, p ∈ ps -> n_proc (nd (l, slot p)) = Some p;
  lo_used : forall i p, 1 <= i <= NPROC -> n_proc (nd (l, i)) = Some p ->
            p ∈ ps /\ i = slot p;
  lo_head : n_proc (nd (l, 0)) = None;
  lo_dll : dll nd l 0 (slot <$> ps);
}.

(** All levels: each is an express lane over the one below, and a node points
    to the node of the same process one level down. *)
Record wf (nd : nodes) (dl : nat -> Z) (slot : nat -> nat -> nat)
    (ps : nat -> list nat) : Prop := mkWf {
  wf_level : forall l, l < LEVELS -> level_ok nd dl l (slot l) (ps l);
  wf_bottom : forall p, p ∈ ps 0 -> n_lower (nd (0, slot 0 p)) = NNull;
  wf_lower : forall l p, S l < LEVELS -> p ∈ ps (S l) ->
             n_lower (nd (S l, slot (S l) p)) = NAt l (slot l p);
  wf_lanes : forall l, S l < LEVELS -> ps (S l) `sublist_of` ps l;
}.

Lemma slot_NoDup nd dl l slot ps : level_ok nd dl l slot ps -> NoDup (0 :: (slot <$> ps)).
Proof.
  intros H. constructor.
  - intros (p & Hp & Hin)%list_elem_of_fmap. pose proof (lo_range _ _ _ _ _ H p Hin). lia.
  - apply NoDup_fmap_2_strong; [|apply H]. intros x y Hx Hy Heq.
    pose proof (lo_proc _ _ _ _ _ H x Hx) as H1. rewrite Heq in H1.
    rewrite (lo_proc _ _ _ _ _ H y Hy) in H1. congruence.
Qed.

(** A bounded list without duplicates fits the array. *)
Lemma bounded_length ps : NoDup ps -> (forall p, p ∈ ps -> p < NPROC) -> length ps <= NPROC.
Proof.
  intros Hnd Hb. rewrite <- (length_seq NPROC 0).
  apply submseteq_length, NoDup_submseteq; [done|].
  intros x Hx. apply elem_of_seq. specialize (Hb x Hx). lia.
Qed.

Lemma level_length nd dl l slot ps : level_ok nd dl l slot ps -> length ps <= NPROC.
Proof. intros H. apply bounded_length; apply H. Qed.

Lemma wf_subset nd dl slot ps l p :
  wf nd dl slot ps -> l < LEVELS -> p ∈ ps l -> p ∈ ps 0.
Proof.
  intros Hwf Hl. induction l as [|l IH]; [done|]. intros Hp. apply IH; [lia|].
  eapply elem_of_submseteq; [exact Hp|].
  apply sublist_submseteq, (wf_lanes _ _ _ _ Hwf); lia.
Qed.

(** The index after which a process of deadline [d] belongs in row [l]. *)
Definition place (dl : nat -> Z) (slot : nat -> nat -> nat) (ps : nat -> list nat)
    (d : Z) (l : nat) : nat :=
  lst 0 (slot l <$> earlier dl d (ps l)).

Lemma lst_fmap_last a (f : nat -> nat) q p : last q = Some p -> lst a (f <$> q) = f p.
Proof. unfold lst. rewrite fmap_last. by intros ->. Qed.

Lemma lst_fmap_range nd dl l slot ps q :
  level_ok nd dl l slot ps -> (forall p, p ∈ q -> p ∈ ps) -> lst 0 (slot <$> q) <= NPROC.
Proof.
  intros H Hq. pose proof (lst_in 0 (slot <$> q)) as [?|Hin]%elem_of_cons; [lia|].
  apply list_elem_of_fmap in Hin as (p & -> & Hp). apply (lo_range _ _ _ _ _ H). auto.
Qed.

Lemma lst_fmap_proc nd dl l slot ps q :
  level_ok nd dl l slot ps -> (forall p, p ∈ q -> p ∈ ps) ->
  n_proc (nd (l, lst 0 (slot <$> q))) = last q.
Proof.
  intros H Hq. unfold lst. rewrite fmap_last. destruct (last q) as [p|] eqn:Hlast; simpl.
  - apply (lo_proc _ _ _ _ _ H), Hq. by apply last_Some_elem_of.
  - apply (lo_head _ _ _ _ _ H).
Qed.

(** ** The search *)

Section Search.
Context {E : Type}.
Implicit Types (s : kst E).

Definition deadline s (p : nat) : Z := p_virt_deadline (k_proc s p).

Lemma node_in_range_true l i : l < LEVELS -> i <= NPROC -> node_in_range l i = true.
Proof. intros. unfold node_in_range. rewrite !bool_decide_true by lia. done. Qed.

Lemma load_at l i s :
  l < LEVELS -> i <= NPROC -> load (NAt l i) s = Done (k_level s (l, i)) s.
Proof. intros. unfold load. by rewrite node_in_range_true. Qed.

Lemma store_at l i f s :
  l < LEVELS -> i <= NPROC ->
  store (NAt l i) f s =
    Done tt (set_k_level (<[(l, i) := f (k_level s (l, i))]> (k_level s)) s).
Proof. intros. unfold store. by rewrite node_in_range_true. Qed.

Context (slot : nat -> nat -> nat) (ps : nat -> list nat) (s : kst E).
Context (Hwf : wf (k_level s) (deadline s) slot ps).

(** From the node that ends [pre], the test looks at the next process of the level. *)
Lemma go_forward_spec l pre suf d :
  l < LEVELS -> ps l = pre ++ suf ->
  go_forward (k_level s (l, lst 0 (slot l <$> pre))) d s =
    Done match suf with [] => false | p :: _ => (deadline s p <? d)%Z end s.
Proof.
  intros Hl Hps. pose proof (wf_level _ _ _ _ Hwf l Hl) as Hlev.
  pose proof (lo_dll _ _ _ _ _ Hlev) as Hdll. rewrite Hps, fmap_app in Hdll.
  unfold go_forward. rewrite (dll_next _ _ _ _ _ Hdll). destruct suf as [|p suf]; [done|]. simpl.
  assert (p ∈ ps l) as Hp by (rewrite Hps; set_solver).
  rewrite (bind_done _ _ _ _ _ (load_at l (slot l p) s Hl (proj2 (lo_range _ _ _ _ _ Hlev p Hp)))).
  unfold bind, deadline_of. rewrite (lo_proc _ _ _ _ _ Hlev p Hp). done.
Qed.

(** What the search returns: the placement of every level, and a pointer to no node. *)
Definition search_result (d : Z) (l : nat) (r : (nat -> option nptr) * nptr) : Prop :=
  (forall k, k <= l -> fst r k = Some (NAt k (place (deadline s) slot ps d k))) /\
  (snd r = NNull \/ snd r = NBelow).

Lemma search_stop msg fuel curr d pl : search msg (S fuel) (-1) curr d pl s = Done (pl, curr) s.
Proof. done. Qed.

(** Walking over the processes [mid], all earlier than [d], at one level. *)
Lemma search_walk msg d l pre mid suf pl fuel :
  l < LEVELS -> ps l = pre ++ mid ++ suf -> (forall p, p ∈ mid -> (deadline s p < d)%Z) ->
  search msg (length mid + fuel) (Z.of_nat l) (NAt l (lst 0 (slot l <$> pre))) d pl s =
  search msg fuel (Z.of_nat l) (NAt l (lst 0 (slot l <$> pre ++ mid))) d pl s.
Proof.
  intros Hl. revert pre. induction mid as [|p mid IH]; intros pre Hps Hmid; simpl.
  { by rewrite app_nil_r. }
  pose proof (wf_level _ _ _ _ Hwf l Hl) as Hlev.
  rewrite (proj2 (Z.ltb_ge _ _)) by lia.
  rewrite (bind_done _ _ _ _ _ (load_at l _ s Hl
    (lst_fmap_range _ _ _ _ _ pre Hlev ltac:(rewrite Hps; set_solver)))).
  rewrite (bind_done _ _ _ _ _ (go_forward_spec l pre ((p :: mid) ++ suf) d Hl Hps)). simpl.
  rewrite (proj2 (Z.ltb_lt _ _)) by (apply Hmid; set_solver).
  pose proof (lo_dll _ _ _ _ _ Hlev) as Hdll. rewrite Hps, fmap_app in Hdll.
  rewrite (dll_next _ _ _ _ _ Hdll). simpl.
  specialize (IH (pre ++ [p])). rewrite fmap_app in IH. simpl in IH. rewrite lst_snoc in IH.
  rewrite IH, <- app_assoc; [done|by rewrite Hps, <- app_assoc|set_solver].
Qed.

(** Leaving a level: the pointer the search continues with one level down. *)
Definition down_ptr (l : nat) (q : list nat) : nptr :=
  match l with
  | O => match last q with None => NBelow | Some _ => NNull end
  | S l' => NAt l' (default 0 (slot l' <$> last q))
  end.

Lemma search_descend msg d l pl fuel :
  l < LEVELS ->
  search msg (S fuel) (Z.of_nat l) (NAt l (place (deadline s) slot ps d l)) d pl s =
  search msg fuel (Z.of_nat l - 1) (down_ptr l (earlier (deadline s) d (ps l))) d
    (<[l := Some (NAt l (place (deadline s) slot ps d l))]> pl) s.
Proof.
  intros Hl. pose proof (wf_level _ _ _ _ Hwf l Hl) as Hlev.
  pose proof (sorted_split _ d _ (lo_sorted _ _ _ _ _ Hlev)) as Hsplit.
  set (q := earlier (deadline s) d (ps l)) in *.
  assert (forall p, p ∈ q -> p ∈ ps l) as Hq by (intros p Hp; rewrite Hsplit; set_solver).
  unfold place. fold q. simpl. rewrite (proj2 (Z.ltb_ge _ _)) by lia.
  rewrite (bind_done _ _ _ _ _ (load_at l _ s Hl (lst_fmap_range _ _ _ _ _ q Hlev Hq))).
  rewrite (bind_done _ _ _ _ _ (go_forward_spec l q _ d Hl Hsplit)).
  assert (match not_earlier (deadline s) d (ps l) with
          | [] => false | p :: _ => (deadline s p <? d)%Z end = false) as ->.
  { destruct (not_earlier _ _ _) as [|p r] eqn:Hr; [done|]. apply Z.ltb_ge.
    assert (p ∈ not_earlier (deadline s) d (ps l)) as Hp by (rewrite Hr; set_solver).
    apply list_elem_of_filter in Hp. lia. }
  rewrite Nat2Z.id, (lst_fmap_proc _ _ _ _ _ q Hlev Hq).
  unfold down_ptr. destruct (last q) as [p|] eqn:Hlast; simpl.
  - rewrite (lst_fmap_last _ _ _ _ Hlast). apply last_Some_elem_of, Hq in Hlast.
    destruct l as [|l].
    + by rewrite (wf_bottom _ _ _ _ Hwf p Hlast).
    + rewrite (wf_lower _ _ _ _ Hwf l p Hl Hlast). by rewrite bool_decide_false.
  - unfold head_ptr. destruct l as [|l]; [done|].
    rewrite (proj2 (Z.ltb_ge _ _)) by lia. do 2 f_equal. lia.
Qed.

(** The pointer followed to the next level ends a prefix of the earlier processes there. *)
Lemma down_ptr_prefix d l :
  S l < LEVELS ->
  exists pre, pre `prefix_of` earlier (deadline s) d (ps l) /\
    down_ptr (S l) (earlier (deadline s) d (ps (S l))) = NAt l (lst 0 (slot l <$> pre)).
Proof.
  intros Hl. simpl. destruct (last (earlier (deadline s) d (ps (S l)))) as [p|] eqn:Hlast; simpl.
  - apply last_Some_elem_of, list_elem_of_filter in Hlast as [Hlt Hp].
    assert (p ∈ earlier (deadline s) d (ps l)) as Hin.
    { apply list_elem_of_filter. split; [done|]. eapply elem_of_submseteq; [exact Hp|].
      apply sublist_submseteq, (wf_lanes _ _ _ _ Hwf); lia. }
    apply list_elem_of_split in Hin as (a & b & Heq). exists (a ++ [p]). split.
    + exists b. by rewrite Heq, <- app_assoc.
    + rewrite fmap_app. simpl. by rewrite lst_snoc.
  - exists []. split; [apply prefix_nil|done].
Qed.

Lemma search_level msg d l pre pl fuel :
  l < LEVELS -> pre `prefix_of` earlier (deadline s) d (ps l) ->
  length (ps l) + l * (NPROC + 1) + 2 <= length pre + fuel ->
  exists r, search msg fuel (Z.of_nat l) (NAt l (lst 0 (slot l <$> pre))) d pl s = Done r s /\
    search_result d l r /\ (forall k, l < k -> fst r k = pl k).
Proof.
  revert pre pl fuel. induction l as [|l IH]; intros pre pl fuel Hl [mid Hmid] Hfuel.
  all: pose proof (wf_level _ _ _ _ Hwf _ Hl) as Hlev.
  all: pose proof (sorted_split _ d _ (lo_sorted _ _ _ _ _ Hlev)) as Hsplit.
  all: assert (forall p, p ∈ mid -> (deadline s p < d)%Z) as Hlt
    by (intros p Hp; assert (p ∈ earlier (deadline s) d (ps _)) as Hin
          by (rewrite Hmid; set_solver); apply list_elem_of_filter in Hin; naive_solver).
  all: pose proof (f_equal length Hsplit) as Hlen; rewrite Hmid, !length_app in Hlen.
  all: replace fuel with (length mid + S (fuel - length mid - 1)) by lia.
  all: rewrite (search_walk msg d _ pre mid (not_earlier (deadline s) d (ps _))) by
    (try done; by rewrite app_assoc, <- Hmid).
  all: rewrite <- Hmid.
  all: match goal with |- context [lst 0 (slot ?k <$> _)] =>
         fold (place (deadline s) slot ps d k) end.
  all: rewrite search_descend by done.
  - destruct (fuel - length mid - 1) as [|fuel'] eqn:Hf; [lia|].
    eexists. split; [apply search_stop|]. split; [split|].
    + intros k Hk. assert (k = 0) as -> by lia. cbn [fst]. by rewrite fn_lookup_insert.
    + simpl. destruct (last _); eauto.
    + intros k Hk. cbn [fst]. by rewrite fn_lookup_insert_ne by lia.
  - destruct (down_ptr_prefix d l Hl) as (pre' & Hpre' & ->).
    replace (Z.of_nat (S l) - 1)%Z with (Z.of_nat l) by lia.
    pose proof (level_length _ _ _ _ _ (wf_level _ _ _ _ Hwf l ltac:(lia))).
    edestruct (IH pre') as (r & Hr & [Hr1 Hr2] & Hr3); [lia|exact Hpre'|..].
    2: { exists r. split; [exact Hr|]. split; [split; [|done]|].
      - intros k Hk. destruct (decide (k = S l)) as [->|]; [|apply Hr1; lia].
        rewrite Hr3 by lia. by rewrite fn_lookup_insert.
      - intros k Hk. rewrite Hr3 by lia. by rewrite fn_lookup_insert_ne by lia. }
    lia.
Qed.

(** The whole search: it ends within its fuel, changes nothing, finds the
    place of deadline [d] on every level, and leaves [curr] pointing to no node. *)
Lemma search_spec msg d :
  exists r, search msg search_fuel start_level (head_ptr start_level) d no_placement s = Done r s /\
    (forall k, k < LEVELS -> fst r k = Some (NAt k (place (deadline s) slot ps d k))) /\
    (snd r = NNull \/ snd r = NBelow).
Proof.
  pose proof (level_length _ _ _ _ _ (wf_level _ _ _ _ Hwf (LEVELS - 1) ltac:(rewrite LEVELS_eq; lia))).
  edestruct (search_level msg d (LEVELS - 1) [] no_placement search_fuel) as (r & Hr & [Hr1 Hr2] & _).
  - rewrite LEVELS_eq. lia.
  - apply prefix_nil.
  - unfold search_fuel. rewrite LEVELS_eq in *. change (4 - 1) with 3 in *. cbn [length]. lia.
  - exists r. split; [|split; [|done]].
    + exact Hr.
    + intros k Hk. apply Hr1. lia.
Qed.

End Search.

(** ** Deadlines matter only pointwise *)

Lemma sorted_ext dl dl' q :
  (forall p, dl p = dl' p) -> StronglySorted (by_deadline dl) q -> StronglySorted (by_deadline dl') q.
Proof.
  intros Heq. induction 1 as [|p q Hs IH Hp]; constructor; [done|].
  eapply Forall_impl; [exact Hp|]. intros x. unfold by_deadline. by rewrite !Heq.
Qed.

Lemma wf_ext nd dl dl' slot ps :
  (forall p, dl p = dl' p) -> wf nd dl slot ps -> wf nd dl' slot ps.
Proof.
  intros Heq [H1 H2 H3 H4]. constructor; try done. intros l Hl.
  destruct (H1 l Hl). constructor; try done. by eapply sorted_ext.
Qed.

Lemma wf_ext_lists nd dl slot ps ps' :
  (forall l, l < LEVELS -> ps l = ps' l) -> wf nd dl slot ps -> wf nd dl slot ps'.
Proof.
  intros Heq [H1 H2 H3 H4]. pose proof LEVELS_eq. constructor.
  - intros l Hl. rewrite <- Heq by done. auto.
  - intros p. rewrite <- Heq by lia. auto.
  - intros l p Hl. rewrite <- Heq by done. auto.
  - intros l Hl. rewrite <- !Heq by lia. auto.
Qed.

Lemma enqueue_ext dl dl' p q : (forall p, dl p = dl' p) -> enqueue dl p q = enqueue dl' p q.
Proof.
  intros Heq. unfold enqueue, earlier, not_earlier. f_equal; [|f_equal].
  all: apply list_filter_iff; intros x; by rewrite !Heq.
Qed.

(** ** The skip list of a kernel state

    [ps l] are the processes on level [l]; max_skiplist_level counts the
    levels a process is on. *)
Definition skiplist {E} (s : kst E) (ps : nat -> list nat) : Prop :=
  (exists slot, wf (k_level s) (deadline s) slot ps) /\
  (forall p l, p ∈ ps 0 -> l < LEVELS ->
     (p ∈ ps l <-> (Z.of_nat l < p_max_skiplist_level (k_proc s p))%Z)).
