(* ===== verification/SkipListInsert.v ===== *)
(** * insert keeps the skip list well formed and enqueues by deadline *)

From S2P Require Import Prelude KState SkipList SkipListInv.

Local Open Scope c_scope.

(** ** The node array before and after linking a node into row [l] *)

(** [nd'] is [nd] with node [i] of row [l], for process [p], linked after index [a]. *)
Record linked (nd nd' : nodes) (l a i p : nat) (lower : nptr) : Prop := mkLinked {
  ln_new : nd' (l, i) = mkNode (Some p) (NAt l a) (n_next (nd (l, a))) lower;
  ln_pred : nd' (l, a) = set_n_next (NAt l i) (nd (l, a));
  ln_succ : forall y, n_next (nd (l, a)) = NAt l y -> nd' (l, y) = set_n_prev (NAt l i) (nd (l, y));
  ln_other : forall k, k <> (l, i) -> k <> (l, a) ->
             (forall y, n_next (nd (l, a)) = NAt l y -> k <> (l, y)) -> nd' k = nd k;
}.

Section Linked.
Context (nd nd' : nodes) (l a i p : nat) (lower : nptr).
Context (Hln : linked nd nd' l a i p lower).

(** Away from the new node only [next] of the predecessor and [prev] of the
    successor changed. *)
Lemma linked_cases k :
  k <> (l, i) ->
  nd' k = nd k \/
  (k = (l, a) /\ nd' k = set_n_next (NAt l i) (nd k)) \/
  (exists y, k = (l, y) /\ n_next (nd (l, a)) = NAt l y /\ nd' k = set_n_prev (NAt l i) (nd k)).
Proof.
  intros Hk. destruct (decide (k = (l, a))) as [->|Ha].
  { right; left. split; [done|]. apply Hln. }
  destruct (decide (n_next (nd (l, a)) = NAt l k.2 /\ k.1 = l)) as [[Hn Hl]|Hn].
  - right; right. destruct k as [k1 k2]; simplify_eq/=. exists k2. split_and!; [done..|].
    by apply Hln.
  - left. apply Hln; [done..|]. intros y Hy ->. naive_solver.
Qed.

Lemma linked_proc k : k <> (l, i) -> n_proc (nd' k) = n_proc (nd k).
Proof. intros [->|[[_ ->]|(y & _ & _ & ->)]]%linked_cases; done. Qed.

Lemma linked_lower k : k <> (l, i) -> n_lower (nd' k) = n_lower (nd k).
Proof. intros [->|[[_ ->]|(y & _ & _ & ->)]]%linked_cases; done. Qed.

Lemma linked_next x : x <> i -> x <> a -> n_next (nd' (l, x)) = n_next (nd (l, x)).
Proof.
  intros Hi Ha. assert ((l, x) <> (l, i)) as H by congruence.
  apply linked_cases in H as [->|[[Hx ->]|(y & _ & _ & ->)]]; [done| |done]. congruence.
Qed.

Lemma linked_prev x :
  x <> i -> n_next (nd (l, a)) <> NAt l x -> n_prev (nd' (l, x)) = n_prev (nd (l, x)).
Proof.
  intros Hi Hx. assert ((l, x) <> (l, i)) as H by congruence.
  apply linked_cases in H as [->|[[_ ->]|(y & Hy & Hn & ->)]]; [done..|]. congruence.
Qed.

Lemma linked_row k x : k <> l -> nd' (k, x) = nd (k, x).
Proof.
  intros Hk. assert ((k, x) <> (l, i)) as H by congruence.
  apply linked_cases in H as [->|[[Hx ->]|(y & Hy & Hn & ->)]]; congruence.
Qed.
End Linked.

(** A free index outside a row's list. *)
Lemma free_not_slot nd dl l slot ps i :
  level_ok nd dl l slot ps -> 1 <= i -> n_proc (nd (l, i)) = None ->
  i ∉ 0 :: (slot <$> ps).
Proof.
  intros H Hi Hn [?|(p & -> & Hp)%list_elem_of_fmap]%elem_of_cons; [lia|].
  by rewrite (lo_proc _ _ _ _ _ H p Hp) in Hn.
Qed.

Lemma fmap_insert_ne (f : nat -> nat) (p i : nat) (q : list nat) : p ∉ q -> <[p := i]> f <$> q = f <$> q.
Proof.
  intros Hp. apply list_fmap_ext. intros j x Hx%list_elem_of_lookup_2.
  apply fn_lookup_insert_ne. set_solver.
Qed.

Lemma level_insert nd nd' dl l slot ps p i lower :
  level_ok nd dl l slot ps -> p < NPROC -> p ∉ ps -> 1 <= i <= NPROC ->
  n_proc (nd (l, i)) = None ->
  linked nd nd' l (lst 0 (slot <$> earlier dl (dl p) ps)) i p lower ->
  level_ok nd' dl l (<[p := i]> slot) (enqueue dl p ps).
Proof.
  intros H Hb Hp Hi Hfree Hln.
  pose proof (free_not_slot _ _ _ _ _ _ H (proj1 Hi) Hfree) as Hni.
  pose proof (sorted_split _ (dl p) _ (lo_sorted _ _ _ _ _ H)) as Hsplit.
  set (pre := earlier dl (dl p) ps) in *. set (suf := not_earlier dl (dl p) ps) in *.
  pose proof (lo_dll _ _ _ _ _ H) as Hdll. rewrite Hsplit, fmap_app in Hdll.
  pose proof (slot_NoDup _ _ _ _ _ H) as Hnd. rewrite Hsplit, fmap_app in Hnd.
  assert (lst 0 (slot <$> pre) <> i) as Hai.
  { intros Heq. apply Hni. rewrite <- Heq, Hsplit, fmap_app.
    pose proof (lst_in 0 (slot <$> pre)). set_solver. }
  constructor.
  - apply enqueue_NoDup; [apply H|done].
  - intros q [->|Hq]%elem_of_enqueue; [done|]. by apply (lo_bound _ _ _ _ _ H).
  - apply enqueue_sorted, H.
  - intros q [->|Hq]%elem_of_enqueue; [by rewrite fn_lookup_insert|].
    rewrite fn_lookup_insert_ne by set_solver. by apply (lo_range _ _ _ _ _ H).
  - intros q [->|Hq]%elem_of_enqueue.
    + by rewrite fn_lookup_insert, (ln_new _ _ _ _ _ _ _ Hln).
    + rewrite fn_lookup_insert_ne by set_solver.
      rewrite (linked_proc _ _ _ _ _ _ _ Hln); [by apply (lo_proc _ _ _ _ _ H)|].
      intros [= Heq]. apply Hni. rewrite <- Heq. apply elem_of_cons. right.
      by apply list_elem_of_fmap_2.
  - intros j q Hj Hq. destruct (decide (j = i)) as [->|Hji].
    + rewrite (ln_new _ _ _ _ _ _ _ Hln) in Hq. simplify_eq/=.
      rewrite fn_lookup_insert. split; [|done]. apply elem_of_enqueue. by left.
    + rewrite (linked_proc _ _ _ _ _ _ _ Hln) in Hq by naive_solver.
      apply (lo_used _ _ _ _ _ H) in Hq as [Hq ->]; [|done].
      rewrite fn_lookup_insert_ne by set_solver. split; [|done].
      apply elem_of_enqueue. by right.
  - rewrite (linked_proc _ _ _ _ _ _ _ Hln); [apply H|]. intros [= Heq]. lia.
  - unfold enqueue. fold pre suf. rewrite fmap_app, fmap_cons, fn_lookup_insert.
    assert ((p ∉ pre) /\ (p ∉ suf)) as [Hp1 Hp2] by (rewrite Hsplit in Hp; set_solver).
    rewrite !fmap_insert_ne by done.
    pose proof (dll_next _ _ _ _ _ Hdll) as Hnext.
    apply (dll_link nd); try done.
    + by rewrite <- fmap_app, <- Hsplit.
    + by rewrite (ln_pred _ _ _ _ _ _ _ Hln).
    + by rewrite (ln_new _ _ _ _ _ _ _ Hln).
    + by rewrite (ln_new _ _ _ _ _ _ _ Hln).
    + intros y Hy. destruct (slot <$> suf) as [|z zs]; simplify_eq/=.
      by rewrite (ln_succ _ _ _ _ _ _ _ Hln y).
    + intros x Hx1 Hx2. by apply (linked_next _ _ _ _ _ _ _ Hln).
    + intros x Hx1 Hx2. apply (linked_prev _ _ _ _ _ _ _ Hln); [done|].
      rewrite Hnext. revert Hx2. destruct (slot <$> suf); simpl; [done|congruence].
Qed.

Section Insert.
Context {E : Type}.
Implicit Types (s : kst E).

(** ** Loads and stores on an explicit node array *)

Lemma set_k_level_id s : set_k_level (k_level s) s = s.
Proof. by destruct s. Qed.

Lemma load_lv nd l i s :
  l < LEVELS -> i <= NPROC -> load (NAt l i) (set_k_level nd s) = Done (nd (l, i)) (set_k_level nd s).
Proof. intros. by rewrite load_at. Qed.

Lemma store_lv nd l i f s :
  l < LEVELS -> i <= NPROC ->
  store (NAt l i) f (set_k_level nd s) = Done tt (set_k_level (<[(l, i) := f (nd (l, i))]> nd) s).
Proof. intros. by rewrite store_at. Qed.

(** ** The slot found is free *)

Lemma find_slot_spec l s fuel i j :
  l < LEVELS -> i <= j <= NPROC -> n_proc (k_level s (l, j)) = None -> j - i < fuel ->
  exists i', find_slot fuel l i s = Done i' s /\ i <= i' <= NPROC /\ n_proc (k_level s (l, i')) = None.
Proof.
  intros Hl. revert i. induction fuel as [|fuel IH]; intros i Hij Hj Hf; [lia|]. simpl.
  rewrite (bind_done _ _ _ _ _ (load_at l i s Hl ltac:(lia))).
  destruct (n_proc (k_level s (l, i))) as [p|] eqn:Hi.
  - assert (i <> j) by (intros ->; congruence).
    rewrite bool_decide_false by lia. destruct (IH (S i)) as (i' & ? & ? & ?); [lia|done|lia|].
    exists i'. split_and!; [done|lia..|done].
  - exists i. split_and!; [done|lia..|done].
Qed.

(** A row that does not hold all processes has a free index. *)
Lemma free_slot_exists nd dl l slot ps p :
  level_ok nd dl l slot ps -> p < NPROC -> p ∉ ps ->
  exists j, 1 <= j <= NPROC /\ n_proc (nd (l, j)) = None.
Proof.
  intros H Hb Hp.
  destruct (decide (Exists (fun j => n_proc (nd (l, j)) = None) (seq 1 NPROC))) as [Hex|Hno].
  { apply Exists_exists in Hex as (j & Hj%elem_of_seq & Hn). exists j. split; [lia|done]. }
  exfalso. rewrite Exists_exists in Hno.
  assert (NPROC <= length (slot <$> ps)) as Hlen.
  { rewrite <- (length_seq NPROC 1) at 1.
    apply submseteq_length, NoDup_submseteq; [apply NoDup_seq|].
    intros j Hj. destruct (n_proc (nd (l, j))) as [q|] eqn:Hq; [|naive_solver].
    apply elem_of_seq in Hj. apply (lo_used _ _ _ _ _ H) in Hq as [Hq ->]; [|lia]. by apply list_elem_of_fmap_2. }
  rewrite length_fmap in Hlen.
  pose proof (bounded_length (p :: ps)) as Hlen2. simpl in Hlen2.
  enough (S (length ps) <= NPROC) by lia. apply Hlen2.
  - constructor; [done|apply H].
  - intros q [->|Hq]%elem_of_cons; [done|]. by apply (lo_bound _ _ _ _ _ H).
Qed.

(** ** Linking the new node *)

Lemma insert_at_stores proc pl l a i lower s :
  l < LEVELS -> a <= NPROC -> 1 <= i <= NPROC -> a <> i ->
  find_slot (S NPROC) l 1 s = Done i s -> pl l = Some (NAt l a) ->
  (n_next (k_level s (l, a)) = NNull \/
   exists y, n_next (k_level s (l, a)) = NAt l y /\ y <= NPROC /\ y <> i /\ y <> a) ->
  exists nd', insert_at proc pl l lower s = Done (NAt l i) (set_k_level nd' s) /\
    linked (k_level s) nd' l a i proc lower.
Proof.
  intros Hl Ha Hi Hai Hfind Hpl Hnext. set (nd := k_level s).
  unfold insert_at. mstep Hfind. rewrite <- (set_k_level_id s). fold nd. clear Hfind.
  rewrite (bind_done _ _ _ _ _ (store_lv nd l i _ s Hl (proj2 Hi))).
  erewrite bind_done by (apply store_lv; lia). unfold placement_at. rewrite Hpl.
  erewrite bind_done by reflexivity.
  erewrite bind_done by (apply store_lv; lia).
  erewrite bind_done by (apply load_lv; lia).
  erewrite bind_done by (apply store_lv; lia).
  erewrite bind_done by (apply store_lv; lia).
  erewrite bind_done by (apply load_lv; lia).
  fn_simp. simpl n_next. fold nd in Hnext.
  destruct Hnext as [Hn|(y & Hn & Hy & Hyi & Hya)]; rewrite Hn.
  - rewrite bool_decide_false by naive_solver.
    eexists. split; [reflexivity|]. constructor; fn_simp.
    + by rewrite Hn.
    + done.
    + congruence.
    + intros k Hk1 Hk2 _. by fn_simp.
  - rewrite bool_decide_true by done. cbn [when].
    erewrite bind_done by (apply store_lv; lia).
    eexists. split; [reflexivity|]. constructor; fn_simp.
    + by rewrite Hn.
    + done.
    + intros z [= <-]%(eq_trans (eq_sym Hn)). by fn_simp.
    + intros k Hk1 Hk2 Hk3. specialize (Hk3 y Hn). by fn_simp.
Qed.

(** The pointer a node of level [l] for process [p] keeps in [lower]. *)
Definition lower_ptr (slot : nat -> nat -> nat) (p l : nat) : nptr :=
  match l with O => NNull | S l' => NAt l' (slot l' p) end.

(** ** One level of the insertion loop *)

Lemma wf_insert_level nd nd' dl slot ps p l i :
  wf nd dl slot ps -> l < LEVELS -> p < NPROC ->
  (forall k, l <= k < LEVELS -> p ∉ ps k) ->
  (forall k, l = S k -> enqueue dl p (ps l) `sublist_of` ps k) ->
  1 <= i <= NPROC -> n_proc (nd (l, i)) = None ->
  linked nd nd' l (place dl slot ps (dl p) l) i p (lower_ptr slot p l) ->
  wf nd' dl (<[l := <[p := i]> (slot l)]> slot) (<[l := enqueue dl p (ps l)]> ps).
Proof.
  intros Hwf Hl Hb Hout Hsub Hi Hfree Hln.
  pose proof (wf_level _ _ _ _ Hwf l Hl) as Hlev.
  assert (forall k q, q ∈ ps k -> k < LEVELS -> (k, slot k q) <> (l, i)) as Hne.
  { intros k q Hq Hk [= -> Heq]. rewrite <- Heq in Hfree.
    by rewrite (lo_proc _ _ _ _ _ Hlev q Hq) in Hfree. }
  constructor.
  - intros k Hk. destruct (decide (k = l)) as [->|Hkl]; fn_simp.
    + eapply level_insert; [done..|by apply Hout; lia|done|done|exact Hln].
    + pose proof (wf_level _ _ _ _ Hwf k Hk) as Hk'. destruct Hk'.
      constructor; try done.
      * intros q Hq. rewrite (linked_row _ _ _ _ _ _ _ Hln); auto.
      * intros j q Hj. rewrite (linked_row _ _ _ _ _ _ _ Hln); auto.
      * by rewrite (linked_row _ _ _ _ _ _ _ Hln).
      * eapply dll_frame; [..|done]; intros x _; by rewrite (linked_row _ _ _ _ _ _ _ Hln).
  - intros q. destruct (decide (l = 0)) as [->|Hl0]; fn_simp.
    + intros [->|Hq]%elem_of_enqueue; fn_simp.
      * by rewrite (ln_new _ _ _ _ _ _ _ Hln).
      * destruct (decide (q = p)) as [->|]; [by destruct (Hout 0); auto with lia|]. fn_simp.
        rewrite (linked_lower _ _ _ _ _ _ _ Hln) by (apply Hne; auto).
        by apply (wf_bottom _ _ _ _ Hwf).
    + intros Hq. rewrite (linked_lower _ _ _ _ _ _ _ Hln) by naive_solver.
      by apply (wf_bottom _ _ _ _ Hwf).
  - intros k q Hk Hq. destruct (decide (S k = l)) as [<-|Hkl].
    + revert Hq. fn_simp. intros [->|Hq]%elem_of_enqueue; fn_simp.
      * by rewrite (ln_new _ _ _ _ _ _ _ Hln).
      * destruct (decide (q = p)) as [->|]; [by destruct (Hout (S k)); auto with lia|]. fn_simp.
        rewrite (linked_lower _ _ _ _ _ _ _ Hln) by (apply Hne; auto).
        by apply (wf_lower _ _ _ _ Hwf).
    + revert Hq. rewrite (fn_lookup_insert_ne ps) by done. intros Hq.
      rewrite (fn_lookup_insert_ne slot l (S k)) by done.
      rewrite (linked_lower _ _ _ _ _ _ _ Hln) by (apply Hne; auto).
      rewrite (wf_lower _ _ _ _ Hwf k q Hk Hq). f_equal.
      destruct (decide (k = l)) as [->|]; fn_simp; [|done].
      destruct (decide (q = p)) as [->|]; [by destruct (Hout (S l)); auto with lia|]. by fn_simp.
  - intros k Hk. pose proof (wf_lanes _ _ _ _ Hwf k Hk) as Hlane.
    destruct (decide (S k = l)) as [<-|Hkl]; [|destruct (decide (k = l)) as [->|]]; fn_simp.
    + by apply Hsub.
    + apply enqueue_sublist_skip; [apply Hlev|done].
    + done.
Qed.

Lemma insert_at_spec s slot ps p pl l :
  wf (k_level s) (deadline s) slot ps -> l < LEVELS -> p < NPROC ->
  (forall k, l <= k < LEVELS -> p ∉ ps k) ->
  (forall k, l = S k -> enqueue (deadline s) p (ps l) `sublist_of` ps k) ->
  pl l = Some (NAt l (place (deadline s) slot ps (deadline s p) l)) ->
  exists nd' i, insert_at p pl l (lower_ptr slot p l) s = Done (NAt l i) (set_k_level nd' s) /\
    wf nd' (deadline s) (<[l := <[p := i]> (slot l)]> slot)
      (<[l := enqueue (deadline s) p (ps l)]> ps).
Proof.
  intros Hwf Hl Hb Hout Hsub Hpl. pose proof (wf_level _ _ _ _ Hwf l Hl) as Hlev.
  destruct (free_slot_exists _ _ _ _ _ p Hlev Hb ltac:(by apply Hout)) as (j & Hj & Hjn).
  destruct (find_slot_spec l s (S NPROC) 1 j) as (i & Hfind & Hi & Hfree); [done|lia|done|lia|].
  pose proof (free_not_slot _ _ _ _ _ _ Hlev (proj1 Hi) Hfree) as Hni.
  pose proof (sorted_split _ (deadline s p) _ (lo_sorted _ _ _ _ _ Hlev)) as Hsplit.
  pose proof (slot_NoDup _ _ _ _ _ Hlev) as Hnd.
  pose proof (lo_dll _ _ _ _ _ Hlev) as Hdll.
  rewrite Hsplit, fmap_app in Hni, Hnd, Hdll.
  pose proof (dll_next _ _ _ _ _ Hdll) as Hnext. fold (place (deadline s) slot ps (deadline s p) l) in Hnext.
  pose proof (lst_in 0 (slot l <$> earlier (deadline s) (deadline s p) (ps l))) as Hlst.
  fold (place (deadline s) slot ps (deadline s p) l) in Hlst.
  destruct (insert_at_stores p pl l (place (deadline s) slot ps (deadline s p) l) i
    (lower_ptr slot p l) s) as (nd' & Hat & Hln); try done.
  - eapply lst_fmap_range; [exact Hlev|]. intros q Hq. rewrite Hsplit. set_solver.
  - intros <-. apply Hni. set_solver.
  - destruct (not_earlier _ _ _) as [|q qs] eqn:Hq; [by left|]. right. exists (slot l q).
    simpl in Hnext. split_and!; [done|..].
    + apply (lo_range _ _ _ _ _ Hlev). rewrite Hsplit. set_solver.
    + intros <-. apply Hni. set_solver.
    + intros Heq. rewrite app_comm_cons in Hnd. apply NoDup_app in Hnd as (_ & Hnd & _).
      apply (Hnd _ Hlst). rewrite <- Heq. set_solver.
  - exists nd', i. split; [done|]. by eapply wf_insert_level.
Qed.

(** ** The insertion loop *)

(** The number of levels the dice give a process, and the seed left. *)
Fixpoint roll (k l : nat) (seed : Z) : nat * Z :=
  match k with
  | O => (l, seed)
  | S k' =>
      if bool_decide (l <> 0) then
        let seed' := next_seed seed in
        if (SKIPLIST_P <=? seed' `mod` 10000)%Z then (l, seed') else roll k' (S l) seed'
      else roll k' (S l) seed
  end.

Lemma roll_bounds k l seed :
  l <= fst (roll k l seed) <= k + l /\ (0 < k -> l = 0 -> 1 <= fst (roll k l seed)).
Proof.
  revert l seed. induction k as [|k IH]; intros l seed; simpl; [lia|].
  destruct (decide (l = 0)) as [->|Hl].
  - rewrite bool_decide_false by lia. specialize (IH 1 seed). lia.
  - rewrite bool_decide_true by done. destruct (_ <=? _)%Z; simpl; [lia|].
    specialize (IH (S l) (next_seed seed)). lia.
Qed.

(** The lists after [p] entered the levels below [lvl]. *)
Definition enqueued (dl : nat -> Z) (p lvl : nat) (ps : nat -> list nat) (l : nat) : list nat :=
  if bool_decide (l < lvl) then enqueue dl p (ps l) else ps l.

Lemma insert_levels_spec k s slot ps ps0 p pl l :
  wf (k_level s) (deadline s) slot ps -> k + l = LEVELS -> p < NPROC ->
  (forall j, j < LEVELS -> ps j = enqueued (deadline s) p l ps0 j) ->
  (forall j, j < LEVELS -> p ∉ ps0 j) ->
  (forall j, S j < LEVELS -> ps0 (S j) `sublist_of` ps0 j) ->
  (forall j, l <= j < LEVELS ->
     pl j = Some (NAt j (place (deadline s) slot ps (deadline s p) j))) ->
  exists nd' slot' ps',
    insert_levels k p pl l (lower_ptr slot p l) s =
      Done (fst (roll k l (k_seed s))) (set_k_seed (snd (roll k l (k_seed s))) (set_k_level nd' s)) /\
    wf nd' (deadline s) slot' ps' /\
    (forall j, j < LEVELS -> ps' j = enqueued (deadline s) p (fst (roll k l (k_seed s))) ps0 j).
Proof.
  revert s slot ps l. induction k as [|k IH]; intros s slot ps l Hwf Hkl Hb Hps Hout Hlanes Hpl.
  { simpl. exists (k_level s), slot, ps. split_and!; [|done..]. by destruct s. }
  assert (forall s0 : kst E, k_level s0 = k_level s -> deadline s0 = deadline s ->
    exists nd' slot' ps',
      (node <- insert_at p pl l (lower_ptr slot p l) ;; insert_levels k p pl (S l) node) s0 =
        Done (fst (roll k (S l) (k_seed s0)))
          (set_k_seed (snd (roll k (S l) (k_seed s0))) (set_k_level nd' s0)) /\
      wf nd' (deadline s) slot' ps' /\
      (forall j, j < LEVELS ->
         ps' j = enqueued (deadline s) p (fst (roll k (S l) (k_seed s0))) ps0 j)) as Hgo.
  { intros s0 Hlv Hdl. rewrite <- Hlv, <- Hdl in *.
    assert (ps l = ps0 l) as Hl by (rewrite Hps by lia; unfold enqueued; by rewrite bool_decide_false by lia).
    destruct (insert_at_spec s0 slot ps p pl l) as (nd1 & i & Hat & Hwf1); try done.
    - lia.
    - intros j Hj. rewrite Hps by lia. unfold enqueued. rewrite bool_decide_false by lia.
      apply Hout. lia.
    - intros j ->. rewrite Hl, (Hps j) by lia. unfold enqueued. rewrite bool_decide_true by lia.
      apply enqueue_sublist, Hlanes. lia.
    - apply Hpl. lia.
    - mstep Hat. destruct (IH (set_k_level nd1 s0) _ _ (S l) Hwf1) as (nd2 & slot2 & ps2 & Hlvls & Hwf2 & Hps2).
      + lia.
      + done.
      + intros j Hj. destruct (decide (j = l)) as [->|Hne]; fn_simp.
        * rewrite Hl. unfold enqueued. by rewrite bool_decide_true by lia.
        * rewrite Hps by done. unfold enqueued.
          by rewrite (bool_decide_ext (j < l) (j < S l)) by lia.
      + done.
      + done.
      + intros j Hj. rewrite Hpl by lia. do 2 f_equal.
        unfold place. by rewrite !fn_lookup_insert_ne by lia.
      + exists nd2, slot2, ps2. split; [|done]. revert Hlvls. simpl lower_ptr. fn_simp. done. }
  simpl. destruct (decide (l = 0)) as [->|Hl0].
  - rewrite bool_decide_false by lia. by apply Hgo.
  - rewrite bool_decide_true by done. unfold random.
    set (sd := next_seed (k_seed s)). unfold bind at 1 2 3, modify, gets, ret. simpl. fold sd.
    destruct (SKIPLIST_P <=? sd `mod` 10000)%Z.
    + exists (k_level s), slot, ps. split_and!; [|done..]. by destruct s.
    + destruct (Hgo (set_k_seed sd s)) as (nd' & slot' & ps' & Hgo1 & Hgo2); [done..|].
      exists nd', slot', ps'. split; [exact Hgo1|done].
Qed.

(** ** insert *)

(** The state insert leaves: [p] on [lvl] levels, the seed advanced, a line printed. *)
Definition inserted (p lvl : nat) (seed : Z) (nd : nodes) s : kst E :=
  set_k_out (MsgInserted (p_pid (k_proc s p)) (Z.of_nat lvl) :: k_out s)
    (set_k_proc (<[p := set_p_max_skiplist_level (Z.of_nat lvl) (k_proc s p)]> (k_proc s))
      (set_k_seed seed (set_k_level nd s))).

Lemma inserted_deadline p lvl sd nd s q : deadline (inserted p lvl sd nd s) q = deadline s q.
Proof.
  unfold deadline, inserted. simpl. destruct (decide (p = q)) as [<-|]; by fn_simp.
Qed.

Lemma insert_spec s ps p :
  skiplist s ps -> p < NPROC -> p ∉ ps 0 ->
  let lvl := fst (roll LEVELS 0 (k_seed s)) in
  exists nd, let s' := inserted p lvl (snd (roll LEVELS 0 (k_seed s))) nd s in
    insert p s = Done (Z.of_nat lvl) s' /\
    skiplist s' (enqueued (deadline s) p lvl ps).
Proof.
  intros [[slot Hwf] Hlv] Hb Hp lvl. unfold insert, get_proc.
  erewrite bind_done by reflexivity. cbn beta. unfold insert_search.
  destruct (search_spec slot ps s Hwf "insertion: above level 0 with no lower" (deadline s p))
    as (r & Hr & Hpl & _).
  unfold deadline in Hr at 1. mstep Hr.
  assert (forall j, j < LEVELS -> p ∉ ps j) as Hout.
  { intros j Hj Hin. by eapply Hp, wf_subset. }
  destruct (insert_levels_spec LEVELS s slot ps ps p (fst r) 0) as (nd & slot' & ps' & Hl & Hwf' & Hps').
  - done.
  - lia.
  - done.
  - intros j Hj. unfold enqueued. by rewrite bool_decide_false by lia.
  - done.
  - apply Hwf.
  - intros j Hj. apply Hpl. lia.
  - exists nd. simpl lower_ptr in Hl. mstep Hl. split; [reflexivity|].
    pose proof (roll_bounds LEVELS 0 (k_seed s)) as Hb1. fold lvl in Hb1.
    split.
    + exists slot'. eapply wf_ext; [intros; symmetry; apply inserted_deadline|].
      eapply wf_ext_lists; [exact Hps'|]. exact Hwf'.
    + intros q l Hq Hl'. unfold inserted. simpl. pose proof LEVELS_eq.
      unfold enqueued in *. rewrite bool_decide_true in Hq by lia.
      destruct (decide (q = p)) as [->|Hne]; fn_simp; simpl.
      * destruct (decide (l < lvl)).
        -- rewrite bool_decide_true by done. rewrite elem_of_enqueue. intuition lia.
        -- rewrite bool_decide_false by done. specialize (Hout l Hl'). intuition lia.
      * apply elem_of_enqueue in Hq as [?|Hq]; [done|]. rewrite <- Hlv by done.
        case_bool_decide; [|done]. rewrite elem_of_enqueue. naive_solver.
Qed.
End Insert.
