(* ===== verification/SkipListDelete.v ===== *)
(** * delete finds the topmost node of a process and unlinks it from every level *)

From S2P Require Import Prelude KState SkipList SkipListInv SkipListInsert.

Local Open Scope c_scope.

(** ** The node array before and after unlinking a node of row [l] *)

(** [nd'] is [nd] without node [i] of row [l], whose predecessor is [a]. *)
Record unlinked (nd nd' : nodes) (l a i : nat) : Prop := mkUnlinked {
  un_gone : nd' (l, i) = mkNode None NNull NNull NNull;
  un_pred : nd' (l, a) = set_n_next (n_next (nd (l, i))) (nd (l, a));
  un_succ : forall y, n_next (nd (l, i)) = NAt l y -> nd' (l, y) = set_n_prev (NAt l a) (nd (l, y));
  un_other : forall k, k <> (l, i) -> k <> (l, a) ->
             (forall y, n_next (nd (l, i)) = NAt l y -> k <> (l, y)) -> nd' k = nd k;
}.

Section Unlinked.
Context (nd nd' : nodes) (l a i : nat) (Hun : unlinked nd nd' l a i).

Lemma unlinked_cases k :
  k <> (l, i) ->
  nd' k = nd k \/
  (k = (l, a) /\ nd' k = set_n_next (n_next (nd (l, i))) (nd k)) \/
  (exists y, k = (l, y) /\ n_next (nd (l, i)) = NAt l y /\ nd' k = set_n_prev (NAt l a) (nd k)).
Proof.
  intros Hk. destruct (decide (k = (l, a))) as [->|Ha].
  { right; left. split; [done|]. apply Hun. }
  destruct (decide (n_next (nd (l, i)) = NAt l k.2 /\ k.1 = l)) as [[Hn Hl]|Hn].
  - right; right. destruct k as [k1 k2]; simplify_eq/=. exists k2. split_and!; [done..|].
    by apply Hun.
  - left. apply Hun; [done..|]. intros y Hy ->. naive_solver.
Qed.

Lemma unlinked_proc k : k <> (l, i) -> n_proc (nd' k) = n_proc (nd k).
Proof. intros [->|[[_ ->]|(y & _ & _ & ->)]]%unlinked_cases; done. Qed.

Lemma unlinked_lower k : k <> (l, i) -> n_lower (nd' k) = n_lower (nd k).
Proof. intros [->|[[_ ->]|(y & _ & _ & ->)]]%unlinked_cases; done. Qed.

Lemma unlinked_next x : x <> i -> x <> a -> n_next (nd' (l, x)) = n_next (nd (l, x)).
Proof.
  intros Hi Ha. assert ((l, x) <> (l, i)) as H by congruence.
  apply unlinked_cases in H as [->|[[Hx ->]|(y & _ & _ & ->)]]; [done| |done]. congruence.
Qed.

Lemma unlinked_prev x :
  x <> i -> n_next (nd (l, i)) <> NAt l x -> n_prev (nd' (l, x)) = n_prev (nd (l, x)).
Proof.
  intros Hi Hx. assert ((l, x) <> (l, i)) as H by congruence.
  apply unlinked_cases in H as [->|[[_ ->]|(y & Hy & Hn & ->)]]; [done..|]. congruence.
Qed.

Lemma unlinked_row k x : k <> l -> nd' (k, x) = nd (k, x).
Proof.
  intros Hk. assert ((k, x) <> (l, i)) as H by congruence.
  apply unlinked_cases in H as [->|[[Hx ->]|(y & Hy & Hn & ->)]]; congruence.
Qed.
End Unlinked.

Lemma level_split nd dl l slot ps p :
  level_ok nd dl l slot ps -> p ∈ ps -> exists pre suf, ps = pre ++ p :: suf /\
    dll nd l 0 ((slot <$> pre) ++ slot p :: (slot <$> suf)) /\
    NoDup (0 :: (slot <$> pre) ++ slot p :: (slot <$> suf)).
Proof.
  intros H Hp. apply list_elem_of_split in Hp as (pre & suf & Hps).
  pose proof (lo_dll _ _ _ _ _ H) as Hdll. pose proof (slot_NoDup _ _ _ _ _ H) as Hnd.
  rewrite Hps, fmap_app, fmap_cons in Hdll, Hnd. eauto.
Qed.

Lemma level_delete nd nd' dl l slot ps p a :
  level_ok nd dl l slot ps -> p ∈ ps -> n_prev (nd (l, slot p)) = NAt l a ->
  unlinked nd nd' l a (slot p) ->
  level_ok nd' dl l slot (dequeue p ps).
Proof.
  intros H Hp Ha Hun.
  destruct (level_split _ _ _ _ _ _ H Hp) as (pre & suf & Hps & Hdll & Hnd).
  assert (forall q, q ∈ ps -> q <> p -> (l, slot q) <> (l, slot p)) as Hne.
  { intros q Hq Hqp [= Heq]. pose proof (lo_proc _ _ _ _ _ H q Hq) as H1.
    rewrite Heq, (lo_proc _ _ _ _ _ H p Hp) in H1. congruence. }
  constructor.
  - apply dequeue_NoDup, H.
  - intros q [_ Hq]%elem_of_dequeue. by apply (lo_bound _ _ _ _ _ H).
  - apply dequeue_sorted, H.
  - intros q [_ Hq]%elem_of_dequeue. by apply (lo_range _ _ _ _ _ H).
  - intros q [Hqp Hq]%elem_of_dequeue. rewrite (unlinked_proc _ _ _ _ _ Hun) by auto.
    by apply (lo_proc _ _ _ _ _ H).
  - intros j q Hj Hq. destruct (decide (j = slot p)) as [->|Hji].
    { by rewrite (un_gone _ _ _ _ _ Hun) in Hq. }
    rewrite (unlinked_proc _ _ _ _ _ Hun) in Hq by naive_solver.
    apply (lo_used _ _ _ _ _ H) in Hq as [Hq ->]; [|done]. split; [|done].
    apply elem_of_dequeue. naive_solver.
  - rewrite (unlinked_proc _ _ _ _ _ Hun); [apply H|]. intros [= Heq].
    pose proof (lo_range _ _ _ _ _ H p Hp). lia.
  - pose proof (lo_nodup _ _ _ _ _ H) as Hnd2. rewrite Hps in Hnd2 |- *.
    rewrite dequeue_app by done. rewrite fmap_app.
    rewrite (dll_prev _ _ _ _ _ _ Hdll) in Ha. simplify_eq.
    assert (n_next (nd (l, slot p)) = first_ptr l (slot <$> suf)) as Hnext.
    { pose proof (dll_next nd l 0 ((slot <$> pre) ++ [slot p]) (slot <$> suf)) as Hn.
      rewrite lst_snoc, <- app_assoc in Hn. by apply Hn. }
    eapply dll_unlink; [exact Hdll|exact Hnd|..].
    + by rewrite (un_pred _ _ _ _ _ Hun).
    + intros y Hy. destruct (slot <$> suf) as [|z zs]; simplify_eq/=.
      by rewrite (un_succ _ _ _ _ _ Hun y).
    + intros x Hx1 Hx2. by apply (unlinked_next _ _ _ _ _ Hun).
    + intros x Hx1 Hx2. apply (unlinked_prev _ _ _ _ _ Hun); [done|].
      rewrite Hnext. revert Hx2. destruct (slot <$> suf); simpl; [done|congruence].
Qed.

Lemma wf_delete_level nd nd' dl slot ps p l a :
  wf nd dl slot ps -> l < LEVELS -> p ∈ ps l -> (forall k, l < k < LEVELS -> p ∉ ps k) ->
  n_prev (nd (l, slot l p)) = NAt l a -> unlinked nd nd' l a (slot l p) ->
  wf nd' dl slot (<[l := dequeue p (ps l)]> ps).
Proof.
  intros Hwf Hl Hp Habove Ha Hun. pose proof (wf_level _ _ _ _ Hwf l Hl) as Hlev.
  assert (forall k q, k < LEVELS -> q ∈ <[l := dequeue p (ps l)]> ps k ->
    q ∈ ps k /\ (k, slot k q) <> (l, slot l p)) as Hne.
  { intros k q Hk. destruct (decide (k = l)) as [->|Hkl]; fn_simp; [|naive_solver].
    intros [Hqp Hq]%elem_of_dequeue. split; [done|]. intros [= Heq].
    pose proof (lo_proc _ _ _ _ _ Hlev q Hq) as H1.
    rewrite Heq, (lo_proc _ _ _ _ _ Hlev p Hp) in H1. congruence. }
  constructor.
  - intros k Hk. destruct (decide (k = l)) as [->|Hkl]; fn_simp.
    + by eapply level_delete.
    + pose proof (wf_level _ _ _ _ Hwf k Hk) as Hk'. destruct Hk'.
      constructor; try done.
      * intros q Hq. rewrite (unlinked_row _ _ _ _ _ Hun); auto.
      * intros j q Hj. rewrite (unlinked_row _ _ _ _ _ Hun); auto.
      * by rewrite (unlinked_row _ _ _ _ _ Hun).
      * eapply dll_frame; [..|done]; intros x _; by rewrite (unlinked_row _ _ _ _ _ Hun).
  - intros q Hq. apply Hne in Hq as [Hq Hk]; [|lia]. rewrite (unlinked_lower _ _ _ _ _ Hun) by done.
    by apply (wf_bottom _ _ _ _ Hwf).
  - intros k q Hk Hq. apply Hne in Hq as [Hq Hk']; [|lia].
    rewrite (unlinked_lower _ _ _ _ _ Hun) by done. by apply (wf_lower _ _ _ _ Hwf).
  - intros k Hk. pose proof (wf_lanes _ _ _ _ Hwf k Hk) as Hlane.
    destruct (decide (S k = l)) as [<-|Hkl]; [|destruct (decide (k = l)) as [->|]]; fn_simp.
    + etrans; [apply sublist_filter|done].
    + rewrite <- (dequeue_absent p (ps (S l))) by (apply Habove; lia). by apply dequeue_sublist.
    + done.
Qed.

Section Delete.
Context {E : Type}.
Implicit Types (s : kst E).

(** ** Unlinking one node *)

Lemma unlink_stores l a i lower s :
  l < LEVELS -> a <= NPROC -> i <= NPROC -> a <> i ->
  n_prev (k_level s (l, i)) = NAt l a -> n_lower (k_level s (l, i)) = lower ->
  (n_next (k_level s (l, i)) = NNull \/
   exists y, n_next (k_level s (l, i)) = NAt l y /\ y <= NPROC /\ y <> i /\ y <> a) ->
  exists nd', unlink (NAt l i) s = Done lower (set_k_level nd' s) /\
    unlinked (k_level s) nd' l a i.
Proof.
  intros Hl Ha Hi Hai Hprev Hlow Hnext. set (nd := k_level s) in *.
  unfold unlink. rewrite <- (set_k_level_id s). fold nd.
  rewrite (bind_done _ _ _ _ _ (load_lv nd l i s Hl Hi)). rewrite Hprev.
  rewrite bool_decide_false by done.
  erewrite bind_done by (apply store_lv; lia).
  erewrite bind_done by (apply load_lv; lia). fn_simp. rewrite Hprev.
  destruct Hnext as [Hn|(y & Hn & Hy & Hyi & Hya)]; rewrite Hn.
  - rewrite bool_decide_false by naive_solver. cbn [when].
    erewrite bind_done by reflexivity.
    do 3 erewrite bind_done by (apply store_lv; lia).
    erewrite bind_done by (apply load_lv; lia).
    erewrite bind_done by (apply store_lv; lia).
    fn_simp. simpl. rewrite Hlow. eexists. split; [reflexivity|]. constructor; fn_simp.
    + done.
    + by rewrite Hn.
    + congruence.
    + intros k Hk1 Hk2 _. by fn_simp.
  - rewrite bool_decide_true by done. cbn [when].
    do 4 erewrite bind_done by (apply store_lv; lia).
    erewrite bind_done by (apply load_lv; lia).
    erewrite bind_done by (apply store_lv; lia).
    fn_simp. simpl. rewrite Hlow. eexists. split; [reflexivity|]. constructor; fn_simp.
    + done.
    + by rewrite Hn.
    + intros z [= <-]%(eq_trans (eq_sym Hn)). by fn_simp.
    + intros k Hk1 Hk2 Hk3. specialize (Hk3 y Hn). by fn_simp.
Qed.

Lemma unlink_spec s slot ps p l :
  wf (k_level s) (deadline s) slot ps -> l < LEVELS -> p ∈ ps l ->
  (forall k, l < k < LEVELS -> p ∉ ps k) ->
  exists nd', unlink (NAt l (slot l p)) s = Done (lower_ptr slot p l) (set_k_level nd' s) /\
    wf nd' (deadline s) slot (<[l := dequeue p (ps l)]> ps).
Proof.
  intros Hwf Hl Hp Habove. pose proof (wf_level _ _ _ _ Hwf l Hl) as Hlev.
  destruct (level_split _ _ _ _ _ _ Hlev Hp) as (pre & suf & Hps & Hdll & Hnd).
  pose proof (dll_prev _ _ _ _ _ _ Hdll) as Hprev.
  assert (n_next (k_level s (l, slot l p)) = first_ptr l (slot l <$> suf)) as Hnext.
  { pose proof (dll_next (k_level s) l 0 ((slot l <$> pre) ++ [slot l p]) (slot l <$> suf)) as Hn.
    rewrite lst_snoc, <- app_assoc in Hn. by apply Hn. }
  pose proof (lst_in 0 (slot l <$> pre)) as Hlst.
  rewrite app_comm_cons in Hnd. apply NoDup_app in Hnd as (_ & Hdis & [Hsn _]%NoDup_cons).
  destruct (unlink_stores l (lst 0 (slot l <$> pre)) (slot l p) (lower_ptr slot p l) s)
    as (nd' & Hunl & Hun).
  - done.
  - eapply lst_fmap_range; [exact Hlev|]. intros q Hq. rewrite Hps. set_solver.
  - by apply (lo_range _ _ _ _ _ Hlev).
  - intros Heq. apply (Hdis _ Hlst). set_solver.
  - done.
  - destruct l as [|l]; simpl.
    + by apply (wf_bottom _ _ _ _ Hwf).
    + by apply (wf_lower _ _ _ _ Hwf).
  - rewrite Hnext. destruct suf as [|y suf]; [by left|]. right. exists (slot l y). simpl.
    split_and!; [done|..].
    + apply (lo_range _ _ _ _ _ Hlev). rewrite Hps. set_solver.
    + intros Heq. apply Hsn. rewrite <- Heq. set_solver.
    + intros Heq. apply (Hdis _ Hlst). rewrite <- Heq. set_solver.
  - exists nd'. split; [done|]. by eapply wf_delete_level.
Qed.

(** ** The do-while loop: from the top node of [p] down to level 0 *)

Lemma unlink_down_spec s slot ps p l fuel :
  wf (k_level s) (deadline s) slot ps -> l < LEVELS -> l < fuel -> (forall k, k <= l -> p ∈ ps k) ->
  (forall k, l < k < LEVELS -> p ∉ ps k) ->
  exists nd' ps', unlink_down fuel (NAt l (slot l p)) s = Done tt (set_k_level nd' s) /\
    wf nd' (deadline s) slot ps' /\ (forall k, k < LEVELS -> ps' k = dequeue p (ps k)).
Proof.
  revert s ps fuel. induction l as [|l IH]; intros s ps fuel Hwf Hl Hf Hin Habove.
  all: destruct fuel as [|fuel]; [lia|]; simpl.
  all: edestruct unlink_spec as (nd1 & Hun & Hwf1); [exact Hwf|exact Hl|by apply Hin|exact Habove|].
  all: mstep Hun; simpl lower_ptr.
  - rewrite bool_decide_true by done. exists nd1. eexists. split_and!; [done|exact Hwf1|].
    intros k Hk. destruct (decide (k = 0)) as [->|]; fn_simp; [done|].
    symmetry. apply dequeue_absent, Habove. lia.
  - rewrite bool_decide_false by done.
    destruct (IH (set_k_level nd1 s) _ fuel Hwf1) as (nd2 & ps2 & Hdown & Hwf2 & Hps2);
      [lia|lia|..].
    + intros k Hk. fn_simp. apply Hin. lia.
    + intros k Hk. destruct (decide (k = S l)) as [->|]; fn_simp.
      * rewrite elem_of_dequeue. naive_solver.
      * apply Habove. lia.
    + exists nd2, ps2. split_and!; [exact Hdown|exact Hwf2|]. intros k Hk. rewrite Hps2 by done.
      destruct (decide (k = S l)) as [->|]; fn_simp; [|done].
      apply dequeue_absent. rewrite elem_of_dequeue. naive_solver.
Qed.

(** ** Finding the topmost node *)

Section Find.
Context (slot : nat -> nat -> nat) (ps : nat -> list nat) (s : kst E).
Context (Hwf : wf (k_level s) (deadline s) slot ps).
Context (p : nat) (stray : kst E -> nptr -> option nat).

Lemma delete_scan_spec l pre suf fuel :
  l < LEVELS -> ps l = pre ++ suf -> (forall q, q ∈ suf -> (deadline s p <= deadline s q)%Z) ->
  (p ∉ pre \/ last pre = Some p) -> length suf < fuel ->
  exists x, delete_scan fuel p (deadline s p) (NAt l (lst 0 (slot l <$> pre))) s = Done (NAt l x) s /\
    x <= NPROC /\ (p ∈ ps l -> x = slot l p) /\
    (p ∉ ps l -> n_proc (k_level s (l, x)) <> Some p).
Proof.
  intros Hl. pose proof (wf_level _ _ _ _ Hwf l Hl) as Hlev.
  revert pre suf. induction fuel as [|fuel IH]; intros pre suf Hps Hge Hpre Hf; [lia|]. simpl.
  assert (forall q, q ∈ pre -> q ∈ ps l) as Hsub by (rewrite Hps; set_solver).
  pose proof (lst_fmap_range _ _ _ _ _ pre Hlev Hsub) as Hrange.
  pose proof (lst_fmap_proc _ _ _ _ _ pre Hlev Hsub) as Hproc.
  rewrite (bind_done _ _ _ _ _ (load_at l _ s Hl Hrange)).
  pose proof (lo_dll _ _ _ _ _ Hlev) as Hdll. rewrite Hps, fmap_app in Hdll.
  rewrite (dll_next _ _ _ _ _ Hdll), Hproc.
  assert (last pre = Some p -> (p ∈ ps l -> lst 0 (slot l <$> pre) = slot l p)) as Hfound.
  { intros Hlast _. by apply lst_fmap_last. }
  destruct suf as [|q suf].
  - simpl. erewrite bind_done by reflexivity. exists (lst 0 (slot l <$> pre)).
    split_and!; [done|done|..].
    + intros Hp. apply Hfound; [|done]. destruct Hpre as [Hpre|?]; [|done].
      rewrite Hps, app_nil_r in Hp. done.
    + intros Hp Heq. rewrite Hproc in Heq. apply Hp, Hsub. by apply last_Some_elem_of.
  - simpl. assert (q ∈ ps l) as Hq by (rewrite Hps; set_solver).
    assert ((nn <- load (NAt l (slot l q));; d <- deadline_of nn;;
       ret ((d =? deadline s p)%Z && bool_decide (last pre <> Some p))) s =
       Done ((deadline s q =? deadline s p)%Z && bool_decide (last pre <> Some p)) s) as Hgo.
    { rewrite (bind_done _ _ _ _ _ (load_at l (slot l q) s Hl (proj2 (lo_range _ _ _ _ _ Hlev q Hq)))).
      unfold bind, deadline_of. by rewrite (lo_proc _ _ _ _ _ Hlev q Hq). }
    mstep Hgo. clear Hgo. destruct (decide (last pre = Some p)) as [Hlast|Hlast].
    + rewrite (bool_decide_false (last pre <> Some p)) by naive_solver. rewrite andb_false_r.
      exists (lst 0 (slot l <$> pre)). split_and!; [done|done|auto|].
      intros Hp. destruct Hp. apply Hsub. by apply last_Some_elem_of.
    + rewrite (bool_decide_true (last pre <> Some p)) by done. rewrite andb_true_r.
      destruct Hpre as [Hpre|?]; [|done].
      destruct (Z.eqb_spec (deadline s q) (deadline s p)) as [Heq|Hneq].
      * specialize (IH (pre ++ [q]) suf). rewrite fmap_app in IH. simpl in IH.
        rewrite lst_snoc in IH. apply IH; [by rewrite <- app_assoc|set_solver| |simpl in Hf; lia].
        rewrite last_snoc. destruct (decide (p = q)) as [->|]; [by right|left]. set_solver.
      * assert (p ∉ ps l) as Hp.
        { intros Hin. rewrite Hps in Hin. apply elem_of_app in Hin as [?|Hin]; [done|].
          pose proof (lo_sorted _ _ _ _ _ Hlev) as Hs. rewrite Hps in Hs.
          apply StronglySorted_app in Hs as (_ & _ & Hs). apply StronglySorted_inv in Hs as [_ Hs].
          rewrite Forall_forall in Hs. apply elem_of_cons in Hin as [->|Hin]; [done|].
          specialize (Hs p Hin). specialize (Hge q ltac:(set_solver)).
          unfold by_deadline in Hs. lia. }
        exists (lst 0 (slot l <$> pre)). split_and!; [done|done|done|].
        intros _. by rewrite Hproc.
Qed.

(** From level [k - 1] down, the loop stops at the first level that holds [p]. *)
Lemma delete_find_spec k curr pl top :
  k <= LEVELS -> top < k -> p ∈ ps top -> (forall l, top < l < LEVELS -> p ∉ ps l) ->
  (forall l, l < LEVELS -> pl l = Some (NAt l (place (deadline s) slot ps (deadline s p) l))) ->
  (exists q, proc_field stray curr s = Done q s /\ q <> Some p) ->
  delete_find stray k p (deadline s p) pl curr s = Done (NAt top (slot top p)) s.
Proof.
  intros Hk Htop Hp Habove Hpl. revert curr. induction k as [|k IH]; intros curr (q & Hq & Hne); [lia|].
  simpl. mstep Hq. rewrite bool_decide_false by done.
  unfold placement_at. rewrite Hpl by lia. erewrite bind_done by reflexivity. unfold place.
  pose proof (wf_level _ _ _ _ Hwf k ltac:(lia)) as Hlev.
  pose proof (sorted_split _ (deadline s p) _ (lo_sorted _ _ _ _ _ Hlev)) as Hsplit.
  pose proof (level_length _ _ _ _ _ Hlev) as Hlen. rewrite Hsplit, length_app in Hlen.
  destruct (delete_scan_spec k _ _ (NPROC + 2) ltac:(lia) Hsplit) as (x & Hscan & Hx & Hfound & Hnot).
  - intros q' [Hq' _]%list_elem_of_filter. lia.
  - left. intros [Hlt _]%list_elem_of_filter. lia.
  - lia.
  - mstep Hscan.
    assert (proc_field stray (NAt k x) s = Done (n_proc (k_level s (k, x))) s) as Hpf.
    { unfold proc_field. by rewrite (bind_done _ _ _ _ _ (load_at k x s ltac:(lia) Hx)). }
    destruct (decide (top = k)) as [->|Hne'].
    + rewrite Hfound in * by done. destruct k; simpl; mstep Hpf.
      all: rewrite (lo_proc _ _ _ _ _ Hlev p Hp). all: by rewrite bool_decide_true.
    + apply IH; [lia..|]. eexists. split; [exact Hpf|]. apply Hnot, Habove. lia.
Qed.
End Find.

(** ** delete *)

(** The word read through a pointer to no node is not the address of the process. *)
Definition stray_ok (stray : kst E -> nptr -> option nat) (p : nat) : Prop :=
  forall s q, stray s q <> Some p.

(** The state delete leaves. *)
Definition deleted (p : nat) (nd : nodes) s : kst E :=
  set_k_proc (<[p := set_p_max_skiplist_level (-1) (k_proc s p)]> (k_proc s))
    (set_k_level nd
      (set_k_out (MsgRemoved (p_pid (k_proc s p)) (p_max_skiplist_level (k_proc s p)) :: k_out s) s)).

Lemma deleted_deadline p nd s q : deadline (deleted p nd s) q = deadline s q.
Proof.
  unfold deadline, deleted. simpl. destruct (decide (p = q)) as [<-|]; by fn_simp.
Qed.

(** The topmost level of a process of the list. *)
Lemma skiplist_top s ps p :
  skiplist s ps -> p ∈ ps 0 ->
  exists top, top < LEVELS /\ (forall l, l <= top -> p ∈ ps l) /\
    (forall l, top < l < LEVELS -> p ∉ ps l).
Proof.
  intros [[slot Hwf] Hlv] Hp. pose proof LEVELS_eq.
  set (m := p_max_skiplist_level (k_proc s p)).
  assert (0 < m)%Z as Hm by (apply (Hlv p 0 Hp ltac:(lia)); done).
  exists (Nat.min (LEVELS - 1) (Z.to_nat (m - 1))). split_and!.
  - lia.
  - intros l Hl. apply Hlv; [done|lia|]. fold m. lia.
  - intros l Hl Hin. apply Hlv in Hin; [|done|lia]. fold m in Hin. lia.
Qed.

Lemma delete_spec stray s ps p :
  skiplist s ps -> p ∈ ps 0 -> stray_ok stray p ->
  exists nd, delete stray p s = Done (p_max_skiplist_level (k_proc s p)) (deleted p nd s) /\
    skiplist (deleted p nd s) (fun l => dequeue p (ps l)).
Proof.
  intros Hsk Hp Hst. destruct (skiplist_top s ps p Hsk Hp) as (top & Htop & Hin & Habove).
  destruct Hsk as [[slot Hwf] Hlv]. unfold delete, get_proc.
  erewrite bind_done by reflexivity. cbn beta. unfold ins_del_flag. cbn [when].
  erewrite bind_done by reflexivity. unfold delete_search.
  set (s1 := set_k_out _ s).
  assert (wf (k_level s1) (deadline s1) slot ps) as Hwf1 by exact Hwf.
  destruct (search_spec slot ps s1 Hwf1 "deletion: above level 0 with no lower" (deadline s1 p))
    as (r & Hr & Hpl & Hcurr).
  unfold deadline in Hr at 1. change (k_proc s1 p) with (k_proc s p) in Hr. mstep Hr.
  change (p_virt_deadline (k_proc s p)) with (deadline s1 p).
  rewrite (bind_done _ _ _ _ _ (delete_find_spec slot ps s1 Hwf1 p stray LEVELS (snd r) (fst r) top
    ltac:(lia) Htop ltac:(auto) Habove Hpl
    ltac:(destruct Hcurr as [->| ->]; eexists; split; [reflexivity|apply Hst|reflexivity|apply Hst]))).
  destruct (unlink_down_spec s1 slot ps p top LEVELS Hwf1 Htop Htop Hin Habove)
    as (nd & ps' & Hdown & Hwf' & Hps').
  mstep Hdown. exists nd. split; [reflexivity|]. split.
  - exists slot. eapply wf_ext; [intros; symmetry; apply deleted_deadline|].
    eapply wf_ext_lists; [exact Hps'|]. exact Hwf'.
  - intros q l Hq Hl. apply elem_of_dequeue in Hq as [Hqp Hq]. rewrite elem_of_dequeue.
    unfold deleted. simpl. fn_simp. rewrite <- Hlv by done. naive_solver.
Qed.

(** What the search hands to that loop is always a pointer to no node, so its
    first test reads outside the array; when the word found there is the
    process's own address, the loop is skipped and the unlinking dereferences
    that pointer. *)
Lemma delete_stray_undef stray s ps p :
  skiplist s ps -> (forall s' q, q = NNull \/ q = NBelow -> stray s' q = Some p) ->
  exists s', delete stray p s = Undef s'.
Proof.
  intros [[slot Hwf] Hlv] Hst. unfold delete, get_proc.
  erewrite bind_done by reflexivity. cbn beta. unfold ins_del_flag. cbn [when].
  erewrite bind_done by reflexivity. unfold delete_search.
  set (s1 := set_k_out _ s).
  assert (wf (k_level s1) (deadline s1) slot ps) as Hwf1 by exact Hwf.
  destruct (search_spec slot ps s1 Hwf1 "deletion: above level 0 with no lower" (deadline s1 p))
    as (r & Hr & Hpl & Hcurr).
  unfold deadline in Hr at 1. change (k_proc s1 p) with (k_proc s p) in Hr. mstep Hr.
  assert (delete_find stray LEVELS p (p_virt_deadline (k_proc s p)) (fst r) (snd r) s1 =
    Done (snd r) s1) as Hfind.
  { destruct LEVELS; simpl; destruct Hcurr as [-> | ->]; simpl; unfold bind, gets;
      rewrite Hst by auto; by rewrite bool_decide_true. }
  mstep Hfind. exists s1. rewrite LEVELS_eq. by destruct Hcurr as [-> | ->].
Qed.
End Delete.
