(* ===== verification/Mem.v ===== *)
(** * Memory layout and byte memory

    The constants of the x86 MMU (mmu.h) and of xv6's memory layout
    (memlayout.h), with the address conversions, which check their argument;
    safestrcpy (string.c) on [char] arrays, as the fields of a record hold them;
    and memory as a function from 32-bit addresses to bytes, with little-endian
    32-bit words.  Address arithmetic wraps around as on the machine. *)

From S2P Require Import Prelude.

Local Open Scope c_scope.
Local Open Scope Z_scope.

(** ** memlayout.h *)

Definition EXTMEM : Z := 1048576.          (* 0x100000 *)
Definition PHYSTOP : Z := 234881024.       (* 0xE000000 *)
Definition DEVSPACE : Z := 4261412864.     (* 0xFE000000 *)
Definition KERNBASE : Z := 2147483648.     (* 0x80000000 *)
Definition KERNLINK : Z := KERNBASE + EXTMEM.

Definition V2P {S} (a : Z) : M S Z :=
  if a <? KERNBASE then panic "V2P on address < KERNBASE" else ret (a - KERNBASE).

Definition P2V {S} (a : Z) : M S Z :=
  if KERNBASE <? a then panic "P2V on address > KERNBASE" else ret (u32 (a + KERNBASE)).

(** ** mmu.h *)

Definition FL_IF : Z := 512.
Definition SEG_KCODE : Z := 1.
Definition SEG_KDATA : Z := 2.
Definition SEG_UCODE : Z := 3.
Definition SEG_UDATA : Z := 4.
Definition SEG_TSS : Z := 5.
Definition DPL_USER : Z := 3.

Definition NPDENTRIES : Z := 1024.
Definition NPTENTRIES : Z := 1024.
Definition PGSIZE : Z := 4096.
Definition PTXSHIFT : Z := 12.
Definition PDXSHIFT : Z := 22.

(** Page directory index, page table index, and the address they make. *)
Definition PDX (va : Z) : Z := Z.land (Z.shiftr va PDXSHIFT) 1023.
Definition PTX (va : Z) : Z := Z.land (Z.shiftr va PTXSHIFT) 1023.
Definition PGADDR (d t o : Z) : Z := u32 (Z.lor (Z.lor (Z.shiftl d PDXSHIFT) (Z.shiftl t PTXSHIFT)) o).

Definition PGROUNDUP (sz : Z) : Z := Z.land (u32 (sz + PGSIZE - 1)) (Z.lnot (PGSIZE - 1)).
Definition PGROUNDDOWN (a : Z) : Z := Z.land a (Z.lnot (PGSIZE - 1)).

Definition PTE_P : Z := 1.
Definition PTE_W : Z := 2.
Definition PTE_U : Z := 4.
Definition PTE_PS : Z := 128.

Definition PTE_ADDR (pte : Z) : Z := Z.land pte (Z.lnot 4095).
Definition PTE_FLAGS (pte : Z) : Z := Z.land pte 4095.

(** ** Arithmetic of the bit operations *)

Lemma V2P_ok {S} a (s : S) : KERNBASE <= a -> V2P a s = Done (a - KERNBASE) s.
Proof. intros Ha. unfold V2P. by destruct (Z.ltb_spec a KERNBASE); [lia|]. Qed.

Lemma P2V_ok {S} a (s : S) : 0 <= a < KERNBASE -> P2V a s = Done (a + KERNBASE) s.
Proof.
  intros Ha. unfold P2V. destruct (Z.ltb_spec KERNBASE a); [lia|]. unfold ret. f_equal.
  apply u32_small. unfold is_u32, KERNBASE, u32_mod in *. lia.
Qed.

Lemma land_lnot_low a k : 0 <= k -> 0 <= a -> Z.land a (Z.lnot (Z.ones k)) = a - a `mod` 2 ^ k.
Proof.
  intros Hk Ha. rewrite <- Z.land_ones by done.
  assert (Z.land (Z.land a (Z.lnot (Z.ones k))) (Z.land a (Z.ones k)) = 0) as H0.
  { apply Z.bits_inj'. intros i Hi. rewrite !Z.land_spec, Z.lnot_spec, Z.bits_0 by done.
    by destruct (Z.testbit a i), (Z.testbit (Z.ones k) i). }
  apply Z.add_nocarry_lxor in H0.
  assert (Z.land a (Z.lnot (Z.ones k)) + Z.land a (Z.ones k) = a); [|lia].
  rewrite H0. apply Z.bits_inj'. intros i Hi. rewrite Z.lxor_spec, !Z.land_spec, Z.lnot_spec by done.
  by destruct (Z.testbit a i), (Z.testbit (Z.ones k) i).
Qed.

Lemma PGROUNDDOWN_eq a : 0 <= a -> PGROUNDDOWN a = PGSIZE * (a / PGSIZE).
Proof.
  intros Ha. unfold PGROUNDDOWN, PGSIZE. change (4096 - 1) with (Z.ones 12).
  rewrite land_lnot_low by lia. change (2 ^ 12) with 4096. zlia.
Qed.

Lemma PGROUNDUP_eq a :
  0 <= a -> a + PGSIZE - 1 < u32_mod -> PGROUNDUP a = PGSIZE * ((a + PGSIZE - 1) / PGSIZE).
Proof.
  intros Ha Hw. unfold PGROUNDUP. rewrite u32_small by (unfold is_u32, PGSIZE in *; lia).
  apply (PGROUNDDOWN_eq (a + PGSIZE - 1)). unfold PGSIZE. lia.
Qed.

Lemma PTE_ADDR_eq pte : 0 <= pte -> PTE_ADDR pte = PGSIZE * (pte / PGSIZE).
Proof. apply PGROUNDDOWN_eq. Qed.

Lemma PTE_FLAGS_eq pte : PTE_FLAGS pte = pte `mod` PGSIZE.
Proof. unfold PTE_FLAGS. change 4095 with (Z.ones 12). by rewrite Z.land_ones. Qed.

Lemma PDX_eq va : is_u32 va -> PDX va = va / 4194304.
Proof.
  unfold is_u32, u32_mod. intros Hv. unfold PDX, PDXSHIFT. change 1023 with (Z.ones 10).
  rewrite Z.land_ones, Z.shiftr_div_pow2 by lia. change (2 ^ 22) with 4194304. change (2 ^ 10) with 1024. zlia.
Qed.

Lemma PTX_eq va : is_u32 va -> PTX va = (va / 4096) `mod` 1024.
Proof.
  intros _. unfold PTX, PTXSHIFT. change 1023 with (Z.ones 10).
  rewrite Z.land_ones, Z.shiftr_div_pow2 by lia. done.
Qed.

(** ** safestrcpy on arrays

    [s] and [t] are the bytes from the two pointers on. *)

Definition put_nul (s : list Z) : list Z := match s with [] => [] | _ :: s' => 0 :: s' end.

(** The loop, when [n] more copies are allowed, with the store after it. *)
Fixpoint safestrcpy_loop (n : nat) (s t : list Z) : list Z :=
  match n with
  | O => put_nul s
  | S n' =>
      match s, t with
      | _ :: s', c :: t' => c :: (if c =? 0 then put_nul s' else safestrcpy_loop n' s' t')
      | _, _ => s
      end
  end.

Definition safestrcpy (s t : list Z) (n : Z) : list Z :=
  if n <=? 0 then s else safestrcpy_loop (Z.to_nat (n - 1)) s t.

Lemma safestrcpy_length s t n : length (safestrcpy s t n) = length s.
Proof.
  unfold safestrcpy. destruct (n <=? 0); [done|]. generalize (Z.to_nat (n - 1)) as k. intros k.
  assert (forall s, length (put_nul s) = length s) as Hp by (intros []; done).
  revert s t. induction k as [|k IH]; intros s t; simpl; [apply Hp|].
  destruct s as [|x s], t as [|c t]; simpl; try done. f_equal.
  destruct (c =? 0); [apply Hp|apply IH].
Qed.

(** The bytes of a C string literal, its terminating NUL included. *)
Definition cstr (s : string) : list Z :=
  (fun c => Z.of_nat (Ascii.nat_of_ascii c)) <$> String.list_ascii_of_string s ++ [Ascii.zero].

Abbreviation mem := (Z -> Z).

Definition is_byte (b : Z) : Prop := 0 <= b < 256.

(** [p + i] for a [char *p] *)
Definition padd (p i : Z) : Z := u32 (p + i).

(** The words that [lodsl]-like accesses read and write. *)
Definition word_bytes (w : Z) (i : Z) : Z := u8 (Z.shiftr w (8 * i)).

Definition ld32 (m : mem) (p : Z) : Z :=
  m p + 256 * m (padd p 1) + 65536 * m (padd p 2) + 16777216 * m (padd p 3).

Definition st32 (m : mem) (p w : Z) : mem :=
  <[padd p 3 := word_bytes w 3]> (<[padd p 2 := word_bytes w 2]>
    (<[padd p 1 := word_bytes w 1]> (<[p := word_bytes w 0]> m))).

(** [n] bytes from [p] on lie below the end of the address space. *)
Definition no_wrap (p n : Z) : Prop := 0 <= p /\ p + n <= u32_mod.

Lemma padd_small p i n : no_wrap p n -> 0 <= i < n -> padd p i = p + i.
Proof. unfold no_wrap, padd. intros. apply u32_small. unfold is_u32. lia. Qed.

Lemma u8_byte z : is_byte (u8 z).
Proof. unfold is_byte, u8. zlia. Qed.

(** Two memories that agree outside [p, p + n). *)
Definition same_outside (p n : Z) (m m' : mem) : Prop :=
  forall a, ~ (p <= a < p + n) -> m' a = m a.

(** [n] bytes of memory from [p] on, as a list. *)
Definition bytes_at (m : mem) (p : Z) (n : nat) : list Z :=
  (fun i => m (p + Z.of_nat i)) <$> seq 0 n.

Lemma bytes_at_length m p n : length (bytes_at m p n) = n.
Proof. unfold bytes_at. by rewrite length_fmap, length_seq. Qed.

Lemma bytes_at_S m p n : bytes_at m p (S n) = m p :: bytes_at m (p + 1) n.
Proof.
  unfold bytes_at. simpl. rewrite Z.add_0_r. f_equal. rewrite <- fmap_S_seq, <- list_fmap_compose.
  apply list_fmap_ext. intros i x _. simpl. f_equal. lia.
Qed.

Lemma bytes_at_lookup m p n i : (i < n)%nat -> bytes_at m p n !! i = Some (m (p + Z.of_nat i)).
Proof.
  intros Hi. unfold bytes_at. rewrite list_lookup_fmap, lookup_seq_lt by done. done.
Qed.

Lemma bytes_at_eq m m' p p' n :
  (forall i, (i < n)%nat -> m (p + Z.of_nat i) = m' (p' + Z.of_nat i)) <->
  bytes_at m p n = bytes_at m' p' n.
Proof.
  split.
  - intros Heq. apply list_eq. intros i. destruct (decide (i < n)%nat) as [Hi|Hi].
    + rewrite !bytes_at_lookup by done. f_equal. auto.
    + rewrite !lookup_ge_None_2; [done|rewrite bytes_at_length; lia..].
  - intros Heq i Hi. assert (bytes_at m p n !! i = bytes_at m' p' n !! i) as H by (by rewrite Heq).
    rewrite !bytes_at_lookup in H by done. congruence.
Qed.
