(* ===== verification/KString.v ===== *)
(** * string.c on memory

    Each routine is its loop: [n] counts down, pointers move one byte at a
    time.  The theorems give the effect in closed form: memset's word path
    equals its byte path, memmove copies correctly for every overlap. *)

From S2P Require Import Prelude Mem.

Local Open Scope Z_scope.

(** ** x86.h: rep stosb, rep stosl *)

Fixpoint stosb (m : mem) (p b : Z) (cnt : nat) : mem :=
  match cnt with
  | O => m
  | S k => stosb (<[p := u8 b]> m) (padd p 1) b k
  end.

Fixpoint stosl (m : mem) (p w : Z) (cnt : nat) : mem :=
  match cnt with
  | O => m
  | S k => stosl (st32 m p w) (padd p 4) w k
  end.

(** ** memset *)

Definition memset (m : mem) (dst c n : Z) : mem :=
  if (dst `mod` 4 =? 0) && (n `mod` 4 =? 0) then
    let c := Z.land c 255 in
    stosl m dst (Z.lor (Z.lor (Z.lor (Z.shiftl c 24) (Z.shiftl c 16)) (Z.shiftl c 8)) c)
      (Z.to_nat (n / 4))
  else stosb m dst c (Z.to_nat n).

(** ** memcmp *)

Fixpoint memcmp (m : mem) (s1 s2 : Z) (n : nat) : Z :=
  match n with
  | O => 0
  | S k => if m s1 =? m s2 then memcmp m (padd s1 1) (padd s2 1) k else m s1 - m s2
  end.

(** ** memmove *)

Fixpoint copy_up (m : mem) (d s : Z) (n : nat) : mem :=
  match n with
  | O => m
  | S k => copy_up (<[d := m s]> m) (padd d 1) (padd s 1) k
  end.

(** [*--d = *--s] *)
Fixpoint copy_down (m : mem) (d s : Z) (n : nat) : mem :=
  match n with
  | O => m
  | S k =>
      let d' := padd d (-1) in
      let s' := padd s (-1) in
      copy_down (<[d' := m s']> m) d' s' k
  end.

Definition memmove (m : mem) (dst src n : Z) : mem :=
  if (src <? dst) && (dst <? padd src n)
  then copy_down m (padd dst n) (padd src n) (Z.to_nat n)
  else copy_up m dst src (Z.to_nat n).

Definition memcpy (m : mem) (dst src n : Z) : mem := memmove m dst src n.

(** ** strncmp; [char] is signed, the result is of the unsigned bytes *)

Fixpoint strncmp (m : mem) (p q : Z) (n : nat) : Z :=
  match n with
  | O => 0
  | S k =>
      if negb (m p =? 0) && (m p =? m q) then strncmp m (padd p 1) (padd q 1) k
      else m p - m q
  end.

(** ** strncpy *)

(** [while(n-- > 0) *s++ = 0] *)
Fixpoint fill_nul (m : mem) (s : Z) (n : nat) : mem :=
  match n with
  | O => m
  | S k => fill_nul (<[s := 0]> m) (padd s 1) k
  end.

Fixpoint strncpy_loop (m : mem) (s t : Z) (n : nat) : mem :=
  match n with
  | O => m
  | S k =>
      let c := m t in
      let m' := <[s := c]> m in
      if c =? 0 then fill_nul m' (padd s 1) k
      else strncpy_loop m' (padd s 1) (padd t 1) k
  end.

Definition strncpy (m : mem) (s t n : Z) : mem := strncpy_loop m s t (Z.to_nat n).

(** ** strlen, with fuel for the distance to the NUL *)

Fixpoint strlen (fuel : nat) (m : mem) (s : Z) : option Z :=
  match fuel with
  | O => None
  | S k => if m s =? 0 then Some 0 else (fun n => n + 1) <$> strlen k m (padd s 1)
  end.

(** ** What they compute *)

(** Setting [cnt] bytes from [p] on. *)
Definition filled (m : mem) (p b n : Z) (m' : mem) : Prop :=
  forall a, m' a = if bool_decide (p <= a < p + n) then b else m a.

Lemma stosb_filled m p b cnt :
  no_wrap p (Z.of_nat cnt) -> filled m p (u8 b) (Z.of_nat cnt) (stosb m p b cnt).
Proof.
  revert m p. induction cnt as [|cnt IH]; intros m p Hw a; simpl.
  { rewrite bool_decide_false by lia. done. }
  destruct (Nat.eq_dec cnt 0%nat) as [->|].
  { simpl. destruct (decide (a = p)) as [->|]; fn_simp.
    - by rewrite bool_decide_true by lia.
    - by rewrite bool_decide_false by lia. }
  rewrite (padd_small p 1 (Z.of_nat (S cnt))) by (done || lia).
  rewrite (IH (<[p := u8 b]> m) (p + 1)) by (unfold no_wrap in *; lia).
  destruct (decide (a = p)) as [->|]; fn_simp.
  - by rewrite bool_decide_false, bool_decide_true by lia.
  - destruct (decide (p <= a < p + Z.of_nat (S cnt))).
    + by rewrite !bool_decide_true by lia.
    + by rewrite !bool_decide_false by lia.
Qed.

Lemma st32_filled m p w b :
  no_wrap p 4 -> (forall i, 0 <= i < 4 -> word_bytes w i = b) -> filled m p b 4 (st32 m p w).
Proof.
  intros Hw Hb a. unfold st32. rewrite !(padd_small p _ 4) by (done || lia). rewrite !Hb by lia.
  destruct (decide (p <= a < p + 4)).
  - rewrite bool_decide_true by done.
    destruct (decide (a = p)) as [->|]; [by fn_simp|].
    destruct (decide (a = p + 1)) as [->|]; [by fn_simp|].
    destruct (decide (a = p + 2)) as [->|]; [by fn_simp|].
    destruct (decide (a = p + 3)) as [->|]; [by fn_simp|]. lia.
  - rewrite bool_decide_false by done. by fn_simp.
Qed.

Lemma stosl_filled m p w b cnt :
  no_wrap p (4 * Z.of_nat cnt) -> (forall i, 0 <= i < 4 -> word_bytes w i = b) ->
  filled m p b (4 * Z.of_nat cnt) (stosl m p w cnt).
Proof.
  intros Hw Hb. revert m p Hw. induction cnt as [|cnt IH]; intros m p Hw a; cbn [stosl].
  { rewrite bool_decide_false by lia. done. }
  pose proof (st32_filled m p w b) as H4. specialize (H4 ltac:(unfold no_wrap in *; lia) Hb).
  destruct (Nat.eq_dec cnt 0%nat) as [->|]; [exact (H4 a)|].
  rewrite (padd_small p 4 (4 * Z.of_nat (S cnt))) by (done || lia).
  rewrite (IH (st32 m p w) (p + 4)) by (unfold no_wrap in *; lia). rewrite (H4 a).
  destruct (decide (p + 4 <= a < p + 4 * Z.of_nat (S cnt))).
  { by rewrite !bool_decide_true by lia. }
  rewrite (bool_decide_false (p + 4 <= _ < _)) by lia.
  destruct (decide (p <= a < p + 4)); [by rewrite !bool_decide_true by lia|by rewrite !bool_decide_false by lia].
Qed.

(** The word memset stores repeats one byte. *)
Lemma splat_bytes c i :
  0 <= c < 256 -> 0 <= i < 4 ->
  word_bytes (Z.lor (Z.lor (Z.lor (Z.shiftl c 24) (Z.shiftl c 16)) (Z.shiftl c 8)) c) i = c.
Proof.
  intros Hc Hi. unfold word_bytes, u8. change 256 with (2 ^ 8).
  assert (forall j, 8 <= j -> Z.testbit c j = false) as Hhigh.
  { intros j Hj. apply Z.bits_above_log2; [lia|].
    destruct (Z.eq_dec c 0) as [->|]; [simpl; lia|]. apply Z.log2_lt_pow2; [lia|].
    pose proof (Z.pow_le_mono_r 2 8 j ltac:(lia) Hj). change (2 ^ 8) with 256 in *. lia. }
  apply Z.bits_inj'. intros j Hj. destruct (Z.le_gt_cases 8 j) as [Hge|Hlt].
  { by rewrite Z.mod_pow2_bits_high, Hhigh by lia. }
  rewrite Z.mod_pow2_bits_low, Z.shiftr_spec, !Z.lor_spec, !Z.shiftl_spec by lia.
  assert (i = 0 \/ i = 1 \/ i = 2 \/ i = 3) as [->|[->|[->| ->]]] by lia.
  all: rewrite ?(Hhigh (j + _)) by lia; rewrite ?(Z.testbit_neg_r c) by lia; rewrite ?orb_false_r, ?orb_false_l.
  all: try (f_equal; lia).
  all: rewrite ?(Hhigh (j + 8 * 3 - 16)), ?(Hhigh (j + 8 * 3 - 8)), ?(Hhigh (j + 8 * 2 - 8)) by lia;
       rewrite ?orb_false_r, ?orb_false_l; f_equal; lia.
Qed.

Lemma memset_filled m dst c n :
  no_wrap dst n -> 0 <= n -> filled m dst (u8 c) n (memset m dst c n).
Proof.
  intros Hw Hn. unfold memset.
  destruct (Z.eqb_spec (dst `mod` 4) 0), (Z.eqb_spec (n `mod` 4) 0); cbn [andb].
  - assert (Z.land c 255 = u8 c) as Hc by (unfold u8; change 255 with (Z.ones 8); by rewrite Z.land_ones by lia).
    rewrite Hc. pose proof (u8_byte c) as Hb. assert (4 * (n / 4) = n) as H4 by zlia.
    rewrite <- H4 at 1. rewrite <- (Z2Nat.id (n / 4)) at 1 by zlia.
    apply stosl_filled; [rewrite Z2Nat.id by zlia; by rewrite H4|].
    intros i Hi. by apply splat_bytes.
  - rewrite <- (Z2Nat.id n) at 1 by lia. apply stosb_filled. by rewrite Z2Nat.id.
  - rewrite <- (Z2Nat.id n) at 1 by lia. apply stosb_filled. by rewrite Z2Nat.id.
  - rewrite <- (Z2Nat.id n) at 1 by lia. apply stosb_filled. by rewrite Z2Nat.id.
Qed.

(** [m'] is [m] with the [n] bytes from [s] on, as they were, at [d]. *)
Definition moved (m : mem) (d s n : Z) (m' : mem) : Prop :=
  forall a, m' a = if bool_decide (d <= a < d + n) then m (s + (a - d)) else m a.

Lemma copy_up_moved m d s n :
  no_wrap d (Z.of_nat n) -> no_wrap s (Z.of_nat n) -> d <= s \/ s + Z.of_nat n <= d ->
  moved m d s (Z.of_nat n) (copy_up m d s n).
Proof.
  revert m d s. induction n as [|n IH]; intros m d s Hd Hs Hov a; cbn [copy_up].
  { by rewrite bool_decide_false by lia. }
  destruct (Nat.eq_dec n 0%nat) as [->|].
  { simpl. destruct (decide (a = d)) as [->|]; fn_simp.
    - rewrite bool_decide_true by lia. f_equal. lia.
    - by rewrite bool_decide_false by lia. }
  rewrite (padd_small d 1 (Z.of_nat (S n))), (padd_small s 1 (Z.of_nat (S n))) by (done || lia).
  rewrite (IH (<[d := m s]> m) (d + 1) (s + 1)) by (unfold no_wrap in *; lia).
  destruct (decide (a = d)) as [->|].
  - rewrite bool_decide_false, bool_decide_true by lia. fn_simp. f_equal. lia.
  - destruct (decide (d <= a < d + Z.of_nat (S n))).
    + rewrite !bool_decide_true by lia. fn_simp. f_equal. lia.
    + rewrite !bool_decide_false by lia. by fn_simp.
Qed.

Lemma copy_down_moved m d s n :
  no_wrap d (Z.of_nat n + 1) -> no_wrap s (Z.of_nat n + 1) -> s <= d ->
  moved m d s (Z.of_nat n) (copy_down m (d + Z.of_nat n) (s + Z.of_nat n) n).
Proof.
  revert m. induction n as [|n IH]; intros m Hd Hs Hov a; cbn [copy_down].
  { by rewrite bool_decide_false by lia. }
  assert (forall p, no_wrap p (Z.of_nat (S n) + 1) -> padd (p + Z.of_nat (S n)) (-1) = p + Z.of_nat n) as Hdec.
  { intros p Hp. unfold padd, no_wrap in *. rewrite u32_small by (unfold is_u32; lia). lia. }
  rewrite !Hdec by done. rewrite IH by (unfold no_wrap in *; lia).
  destruct (decide (d <= a < d + Z.of_nat n)).
  - rewrite !bool_decide_true by lia. by fn_simp.
  - rewrite (bool_decide_false (d <= a < d + Z.of_nat n)) by done.
    destruct (decide (a = d + Z.of_nat n)) as [->|]; fn_simp.
    + rewrite bool_decide_true by lia. f_equal. lia.
    + by rewrite bool_decide_false by lia.
Qed.

Lemma memmove_moved m dst src n :
  0 <= n -> no_wrap dst (n + 1) -> no_wrap src (n + 1) -> moved m dst src n (memmove m dst src n).
Proof.
  intros Hn. rewrite <- (Z2Nat.id n) by lia. generalize (Z.to_nat n) as k. clear n Hn. intros k Hd Hs.
  unfold memmove. rewrite Nat2Z.id. rewrite !(padd_small _ (Z.of_nat k) (Z.of_nat k + 1)) by (done || lia).
  destruct (Z.ltb_spec src dst), (Z.ltb_spec dst (src + Z.of_nat k)); cbn [andb].
  2-4: apply copy_up_moved; unfold no_wrap in *; lia.
  apply copy_down_moved; try done; lia.
Qed.

(** ** Comparisons *)

Lemma memcmp_equal m s1 s2 n :
  no_wrap s1 (Z.of_nat n) -> no_wrap s2 (Z.of_nat n) ->
  memcmp m s1 s2 n = 0 <-> bytes_at m s1 n = bytes_at m s2 n.
Proof.
  revert s1 s2. induction n as [|n IH]; intros s1 s2 H1 H2; cbn [memcmp]; [done|].
  rewrite !bytes_at_S. destruct (Z.eqb_spec (m s1) (m s2)) as [He|He].
  - destruct (Nat.eq_dec n 0%nat) as [->|]; [simpl; by rewrite He|].
    rewrite (padd_small s1 1 (Z.of_nat (S n))), (padd_small s2 1 (Z.of_nat (S n))) by (done || lia).
    rewrite IH by (unfold no_wrap in *; lia). rewrite He. split; [by intros ->|by intros [= ->]].
  - split; [lia|congruence].
Qed.

(** A NUL-terminated string in memory. *)
Definition cstring (m : mem) (s : Z) (l : list Z) : Prop :=
  bytes_at m s (length l) = l /\ m (s + Z.of_nat (length l)) = 0 /\ Forall (fun c => c <> 0) l.

Lemma cstring_nil m s : cstring m s [] <-> m s = 0.
Proof. unfold cstring. simpl. rewrite Z.add_0_r. split; [by intros (_ & ? & _)|done]. Qed.

Lemma cstring_cons m s c l : cstring m s (c :: l) <-> m s = c /\ c <> 0 /\ cstring m (s + 1) l.
Proof.
  unfold cstring. cbn [length]. rewrite bytes_at_S, Forall_cons.
  replace (s + Z.of_nat (S (length l))) with (s + 1 + Z.of_nat (length l)) by lia.
  split; [intros ([= -> ->] & ? & ? & ?); done|intros (-> & ? & -> & ? & ?); done].
Qed.

Lemma strlen_length m s l fuel :
  cstring m s l -> no_wrap s (Z.of_nat (length l) + 1) -> (length l < fuel)%nat ->
  strlen fuel m s = Some (Z.of_nat (length l)).
Proof.
  revert s fuel. induction l as [|c l IH]; intros s [|fuel] Hs Hw Hf; try (simpl in Hf; lia); cbn [strlen].
  - apply cstring_nil in Hs. by rewrite Hs.
  - apply cstring_cons in Hs as (Hc & Hne & Hs). rewrite Hc. destruct (Z.eqb_spec c 0); [done|].
    cbn [length] in *. rewrite (padd_small s 1 (Z.of_nat (S (length l)) + 1)) by (done || lia).
    rewrite IH by (try done; unfold no_wrap in *; lia). simpl. f_equal. lia.
Qed.

(** The first [n] bytes of a string, the NUL included when it is among them. *)
Definition prefix_n (n : nat) (l : list Z) : list Z := take n (l ++ [0]).

Lemma strncmp_equal m p q n l k :
  cstring m p l -> cstring m q k ->
  no_wrap p (Z.of_nat (length l) + 2) -> no_wrap q (Z.of_nat (length k) + 2) ->
  strncmp m p q n = 0 <-> prefix_n n l = prefix_n n k.
Proof.
  revert p q l k. induction n as [|n IH]; intros p q l k Hp Hq Hwp Hwq; cbn [strncmp].
  { done. }
  destruct l as [|c l], k as [|d k]; unfold prefix_n; cbn [app take].
  all: first [apply cstring_nil in Hp|apply cstring_cons in Hp].
  all: first [apply cstring_nil in Hq|apply cstring_cons in Hq].
  - rewrite Hp, Hq. simpl. by rewrite !take_nil.
  - destruct Hq as (Hq & Hd & _). rewrite Hp, Hq. simpl. split; [lia|congruence].
  - destruct Hp as (Hp & Hc & _). rewrite Hp, Hq. destruct (Z.eqb_spec c 0); [done|]. simpl.
    split; [lia|congruence].
  - destruct Hp as (Hp & Hc & Hp'), Hq as (Hq & Hd & Hq'). rewrite Hp, Hq.
    destruct (Z.eqb_spec c 0); [done|]. cbn [negb andb].
    destruct (Z.eqb_spec c d) as [->|Hcd]; [|split; [lia|congruence]].
    cbn [length] in *. rewrite (padd_small p 1 (Z.of_nat (S (length l)) + 2)) by (done || lia).
    rewrite (padd_small q 1 (Z.of_nat (S (length k)) + 2)) by (done || lia).
    rewrite (IH _ _ l k Hp' Hq') by (unfold no_wrap in *; lia). unfold prefix_n.
    split; [by intros ->|by intros [= ->]].
Qed.

(** ** strncpy *)

Lemma fill_nul_filled m s n : no_wrap s (Z.of_nat n) -> filled m s 0 (Z.of_nat n) (fill_nul m s n).
Proof.
  intros Hw. replace (fill_nul m s n) with (stosb m s 0 n); [by apply (stosb_filled m s 0)|].
  revert m s Hw. induction n as [|n IH]; intros m s Hw; [done|]. cbn [stosb fill_nul]. change (u8 0) with 0.
  destruct (Nat.eq_dec n 0%nat) as [->|]; [done|].
  rewrite (padd_small s 1 (Z.of_nat (S n))) by (done || lia). apply IH. unfold no_wrap in *. lia.
Qed.

Lemma cstring_ext m m' t l :
  (forall a, t <= a <= t + Z.of_nat (length l) -> m' a = m a) -> cstring m t l -> cstring m' t l.
Proof.
  intros Heq (Hb & H0 & Hn). split; [|split; [rewrite Heq by lia; done|done]].
  rewrite <- Hb at 2. apply bytes_at_eq. intros i Hi. apply Heq. lia.
Qed.

(** [n] bytes: the string, padded with NULs. *)
Definition padded (l : list Z) (i : Z) : Z := default 0 (l !! Z.to_nat i).

Lemma strncpy_loop_spec m s t n l :
  cstring m t l -> no_wrap s (Z.of_nat n) -> no_wrap t (Z.of_nat (length l) + 2) ->
  s + Z.of_nat n <= t \/ t + Z.of_nat (length l) < s ->
  forall a, strncpy_loop m s t n a =
    if bool_decide (s <= a < s + Z.of_nat n) then padded l (a - s) else m a.
Proof.
  revert m s t l. induction n as [|n IH]; intros m s t l Hc Hs Ht Hdis a; cbn [strncpy_loop].
  { by rewrite bool_decide_false by lia. }
  destruct l as [|c l].
  - apply cstring_nil in Hc. rewrite Hc. cbn [Z.eqb]. unfold padded.
    assert (forall a, fill_nul (<[s := 0]> m) (padd s 1) n a =
      if bool_decide (s < a < s + Z.of_nat (S n)) then 0 else (<[s := 0]> m) a) as ->.
    { clear a. intros a. destruct (Nat.eq_dec n 0%nat) as [->|].
      - simpl. by rewrite bool_decide_false by lia.
      - rewrite (padd_small s 1 (Z.of_nat (S n))) by (done || lia).
        rewrite (fill_nul_filled (<[s := 0]> m) (s + 1) n) by (unfold no_wrap in *; lia).
        apply bool_decide_ext_if. lia. }
    rewrite lookup_nil. cbn [default].
    destruct (decide (a = s)) as [->|]; fn_simp.
    + by rewrite bool_decide_false, bool_decide_true by lia.
    + apply bool_decide_ext_if. lia.
  - apply cstring_cons in Hc as (Hc & Hne & Hc'). rewrite Hc. destruct (Z.eqb_spec c 0); [done|].
    cbn [length] in *. destruct (Nat.eq_dec n 0%nat) as [->|].
    { simpl. destruct (decide (a = s)) as [->|]; fn_simp.
      - rewrite bool_decide_true by lia. unfold padded. by replace (s - s) with 0 by lia.
      - by rewrite bool_decide_false by lia. }
    rewrite (padd_small s 1 (Z.of_nat (S n))), (padd_small t 1 (Z.of_nat (S (length l)) + 2)) by (done || lia).
    rewrite (IH (<[s := c]> m) (s + 1) (t + 1) l); cycle 1.
    { eapply cstring_ext; [|exact Hc']. intros b Hb. by fn_simp. }
    { unfold no_wrap in *. lia. }
    { unfold no_wrap in *. lia. }
    { lia. }
    destruct (decide (a = s)) as [->|]; fn_simp.
    + rewrite bool_decide_false, bool_decide_true by lia. unfold padded. by replace (s - s) with 0 by lia.
    + destruct (decide (s <= a < s + Z.of_nat (S n))).
      * rewrite !bool_decide_true by lia. unfold padded.
        replace (Z.to_nat (a - s)) with (S (Z.to_nat (a - (s + 1)))) by lia. done.
      * by rewrite !bool_decide_false by lia.
Qed.
