(* ===== verification/Kalloc.v ===== *)
(** * kalloc.c

    The free pages are a linked list threaded through the first word of each
    page.  [freelist m head pages]: following the words of memory [m] from
    [head] visits the pages [pages], and each is a page the allocator may own.
    kmem.lock is a flag, since the code runs on one processor at a time. *)

From S2P Require Import Prelude Mem KString.

Local Open Scope c_scope.
Local Open Scope Z_scope.

Record kmem := mkKmem {
  km_mem : mem;
  km_locked : bool;
  km_use_lock : bool;
  km_freelist : Z;
}.

Definition set_km_mem (v : mem) (r : kmem) : kmem := mkKmem v (km_locked r) (km_use_lock r) (km_freelist r).
Definition set_km_locked (v : bool) (r : kmem) : kmem := mkKmem (km_mem r) v (km_use_lock r) (km_freelist r).
Definition set_km_use_lock (v : bool) (r : kmem) : kmem := mkKmem (km_mem r) (km_locked r) v (km_freelist r).
Definition set_km_freelist (v : Z) (r : kmem) : kmem := mkKmem (km_mem r) (km_locked r) (km_use_lock r) v.

Section Kalloc.
(** [end]: the first address after the kernel image, set by the linker. *)
Context (kend : Z).

(** [if(kmem.use_lock) acquire(&kmem.lock)] *)
Definition kmem_acquire : M kmem unit :=
  s <- gets (fun s => s) ;;
  when (km_use_lock s)
    (if km_locked s then panic "acquire" else modify (set_km_locked true)).

Definition kmem_release : M kmem unit :=
  s <- gets (fun s => s) ;;
  when (km_use_lock s)
    (if km_locked s then modify (set_km_locked false) else panic "release").

Definition kfree (v : Z) : M kmem unit :=
  bad <- (if negb (v `mod` PGSIZE =? 0) || (v <? kend) then ret true
          else pa <- V2P v ;; ret (PHYSTOP <=? pa)) ;;
  if bad : bool then panic "kfree"
  else
    modify (fun s => set_km_mem (memset (km_mem s) v 1 PGSIZE) s) ;;
    kmem_acquire ;;
    modify (fun s => set_km_mem (st32 (km_mem s) v (km_freelist s)) s) ;;
    modify (set_km_freelist v) ;;
    kmem_release.

Definition kalloc : M kmem Z :=
  kmem_acquire ;;
  r <- gets km_freelist ;;
  when (negb (r =? 0)) (modify (fun s => set_km_freelist (ld32 (km_mem s) r) s)) ;;
  kmem_release ;;
  ret r.

(** [for(; p + PGSIZE <= vend; p += PGSIZE) kfree(p)] *)
Fixpoint freerange_loop (fuel : nat) (p vend : Z) : M kmem unit :=
  match fuel with
  | O => out_of_fuel
  | S fuel' =>
      if u32 (p + PGSIZE) <=? vend
      then kfree p ;; freerange_loop fuel' (u32 (p + PGSIZE)) vend
      else ret tt
  end.

(** One turn per page of the address space is enough. *)
Definition freerange (vstart vend : Z) : M kmem unit :=
  if vend <? vstart then panic "freerange"
  else freerange_loop (Z.to_nat (u32_mod / PGSIZE) + 1) (PGROUNDUP vstart) vend.

Definition kinit1 (vstart vend : Z) : M kmem unit :=
  modify (set_km_locked false) ;;
  modify (set_km_use_lock false) ;;
  freerange vstart vend.

Definition kinit2 (vstart vend : Z) : M kmem unit :=
  freerange vstart vend ;;
  modify (set_km_use_lock true).

(** ** The invariant *)

(** A page that kfree accepts. *)
Definition valid_page (p : Z) : Prop :=
  p `mod` PGSIZE = 0 /\ kend <= p /\ KERNBASE <= p < KERNBASE + PHYSTOP.

Fixpoint freelist (m : mem) (head : Z) (pages : list Z) : Prop :=
  match pages with
  | [] => head = 0
  | p :: rest => head = p /\ valid_page p /\ freelist m (ld32 m p) rest
  end.

Record kmem_ok (pages : list Z) (s : kmem) : Prop := mkKmemOk {
  ko_list : freelist (km_mem s) (km_freelist s) pages;
  ko_nodup : NoDup pages;
  ko_unlocked : km_locked s = false;
}.

Lemma valid_page_nonzero p : valid_page p -> p <> 0.
Proof. unfold valid_page, KERNBASE. lia. Qed.

Lemma valid_page_no_wrap p : valid_page p -> no_wrap p (PGSIZE + 1).
Proof. unfold valid_page, no_wrap, KERNBASE, PHYSTOP, PGSIZE, u32_mod. lia. Qed.

(** Distinct pages do not overlap. *)
Lemma pages_apart p q i j :
  valid_page p -> valid_page q -> p <> q -> 0 <= i < PGSIZE -> 0 <= j < PGSIZE -> p + i <> q + j.
Proof.
  intros (Hp & _) (Hq & _) Hne Hi Hj. unfold PGSIZE in *.
  pose proof (Z.div_mod p 4096 ltac:(lia)). pose proof (Z.div_mod q 4096 ltac:(lia)).
  assert (p / 4096 <> q / 4096) by lia. nia.
Qed.

Lemma ld32_ext m m' p : valid_page p -> (forall i, 0 <= i < PGSIZE -> m' (p + i) = m (p + i)) -> ld32 m' p = ld32 m p.
Proof.
  intros Hp Heq. pose proof (valid_page_no_wrap p Hp) as Hw. unfold ld32. unfold PGSIZE in *.
  rewrite !(padd_small p _ 4097) by (done || lia). rewrite !Heq by lia.
  pose proof (Heq 0 ltac:(lia)) as H0. rewrite Z.add_0_r in H0. by rewrite H0.
Qed.

(** What is written outside the free pages does not disturb the list. *)
Lemma freelist_frame m m' head pages :
  (forall p i, p ∈ pages -> 0 <= i < PGSIZE -> m' (p + i) = m (p + i)) ->
  freelist m head pages -> freelist m' head pages.
Proof.
  revert head. induction pages as [|p pages IH]; intros head Heq; [done|]. intros (-> & Hp & Hl).
  split; [done|]. split; [done|]. rewrite (ld32_ext m m' p Hp) by (intros; apply Heq; set_solver).
  apply IH; [|done]. intros q i Hq. apply Heq. set_solver.
Qed.

Lemma freelist_valid m head pages p : freelist m head pages -> p ∈ pages -> valid_page p.
Proof.
  revert head. induction pages as [|q pages IH]; intros head Hl Hp; [set_solver|].
  destruct Hl as (-> & Hq & Hl). apply elem_of_cons in Hp as [->|Hp]; [done|eauto].
Qed.

(** ** Words *)

Lemma word_bytes_sum w :
  is_u32 w ->
  word_bytes w 0 + 256 * word_bytes w 1 + 65536 * word_bytes w 2 + 16777216 * word_bytes w 3 = w.
Proof.
  unfold is_u32, u32_mod, word_bytes, u8. intros Hw. rewrite !Z.shiftr_div_pow2 by lia.
  change (2 ^ (8 * 0)) with 1. change (2 ^ (8 * 1)) with 256. change (2 ^ (8 * 2)) with 65536.
  change (2 ^ (8 * 3)) with 16777216. zlia.
Qed.

Lemma ld32_st32 m p w : no_wrap p 4 -> is_u32 w -> ld32 (st32 m p w) p = w.
Proof.
  intros Hp Hw. unfold ld32, st32. rewrite !(padd_small p _ 4) by (done || lia). fn_simp.
  by apply word_bytes_sum.
Qed.

Lemma st32_outside m p w a : no_wrap p 4 -> ~ (p <= a < p + 4) -> st32 m p w a = m a.
Proof. intros Hp Ha. unfold st32. rewrite !(padd_small p _ 4) by (done || lia). by fn_simp. Qed.

(** ** kfree and kalloc *)

(** The lock is taken when use_lock is set, and given back. *)
Lemma kmem_acquire_ok s :
  km_locked s = false -> kmem_acquire s = Done tt (set_km_locked (km_use_lock s) s).
Proof.
  intros Hu. unfold kmem_acquire, bind, gets, when. destruct s as [m l u h]. simpl in *. subst. by destruct u.
Qed.

Lemma kmem_release_ok s :
  km_locked s = km_use_lock s -> kmem_release s = Done tt (set_km_locked false s).
Proof.
  intros Hu. unfold kmem_release, bind, gets, when. destruct s as [m l u h]. simpl in *. subst. by destruct u.
Qed.

(** Only the page [p] differs. *)
Definition page_only (p : Z) (m m' : mem) : Prop :=
  forall a, ~ (p <= a < p + PGSIZE) -> m' a = m a.

(** The memory kfree leaves: the page is junk but for its first word. *)
Definition freed_page (m : mem) (p next : Z) (m' : mem) : Prop :=
  page_only p m m' /\ ld32 m' p = next /\ forall i, 4 <= i < PGSIZE -> m' (p + i) = 1.

Lemma freed_page_memory m v next :
  valid_page v -> is_u32 next -> freed_page m v next (st32 (memset m v 1 PGSIZE) v next).
Proof.
  intros Hv Hn. pose proof (valid_page_no_wrap v Hv) as Hw.
  assert (no_wrap v PGSIZE) as Hw1 by (unfold no_wrap in *; lia).
  assert (no_wrap v 4) as Hw4 by (unfold no_wrap, PGSIZE in *; lia).
  pose proof (memset_filled m v 1 PGSIZE Hw1 ltac:(done)) as Hf. split; [|split].
  - intros a Ha. rewrite st32_outside by (unfold PGSIZE in *; lia || done).
    rewrite (Hf a). by rewrite bool_decide_false.
  - by apply ld32_st32.
  - intros i Hi. rewrite st32_outside by (lia || done). rewrite (Hf (v + i)).
    by rewrite bool_decide_true by lia.
Qed.

(** A list head is a word. *)
Lemma freelist_head_u32 m head pages : freelist m head pages -> is_u32 head.
Proof.
  destruct pages as [|p pages]; [intros ->; done|]. intros (-> & (_ & _ & Hp) & _).
  unfold is_u32, u32_mod, KERNBASE, PHYSTOP in *. lia.
Qed.

Lemma kfree_ok pages v s :
  kmem_ok pages s -> valid_page v -> v ∉ pages ->
  wp (kfree v) (fun _ s' => kmem_ok (v :: pages) s' /\ km_use_lock s' = km_use_lock s /\
    freed_page (km_mem s) v (km_freelist s) (km_mem s')) s.
Proof.
  intros [Hl Hnd Hu] Hv Hnew. pose proof Hv as (Hal & Hend & Hr). apply wp_wpf. unfold kfree.
  pose proof (freed_page_memory (km_mem s) v (km_freelist s) Hv (freelist_head_u32 _ _ _ Hl)) as Hfp.
  rewrite Hal, Z.eqb_refl. destruct (Z.ltb_spec v kend); [lia|]. cbn [negb orb].
  apply wpf_bind. wrun (V2P_ok v s (proj1 Hr)). eapply wpf_done; [reflexivity|].
  destruct (Z.leb_spec PHYSTOP (v - KERNBASE)); [lia|].
  wnext. set (m1 := memset (km_mem s) v 1 PGSIZE) in *.
  assert (freelist (st32 m1 v (km_freelist s)) v (v :: pages)) as Hl'.
  { split; [done|]. split; [done|]. destruct Hfp as (Hout & -> & _).
    eapply freelist_frame; [|exact Hl]. intros p i Hp Hi. apply Hout.
    pose proof (freelist_valid _ _ _ _ Hl Hp) as Hpv.
    intros Hin. apply (pages_apart p v i (p + i - v)); try done; [set_solver|lia|lia]. }
  assert (NoDup (v :: pages)) as Hnd' by (by constructor).
  eapply wpf_step; [by apply kmem_acquire_ok|]. wnext. wnext.
  eapply wpf_done; [by apply kmem_release_ok|]. done.
Qed.

Lemma kfree_panics v s :
  ~ valid_page v -> is_u32 v -> KERNBASE <= kend -> exists s', kfree v s = Panic "kfree" s'.
Proof.
  intros Hv Hu Hk. unfold kfree, bind.
  destruct (Z.eqb_spec (v `mod` PGSIZE) 0) as [Hal|]; cbn [negb orb]; [|by eexists].
  destruct (Z.ltb_spec v kend); cbn [orb]; [by eexists|].
  rewrite V2P_ok by lia. destruct (Z.leb_spec PHYSTOP (v - KERNBASE)); [by eexists|].
  exfalso. apply Hv. split; [done|]. lia.
Qed.

Lemma kalloc_ok pages s :
  kmem_ok pages s ->
  wp kalloc (fun r s' => km_mem s' = km_mem s /\ km_use_lock s' = km_use_lock s /\
    match pages with
    | [] => r = 0 /\ kmem_ok [] s'
    | p :: rest => r = p /\ valid_page p /\ (p ∉ rest) /\ kmem_ok rest s'
    end) s.
Proof.
  intros [Hl Hnd Hu]. apply wp_wpf. unfold kalloc. eapply wpf_step; [by apply kmem_acquire_ok|]. wnext. cbn.
  destruct pages as [|p rest].
  - cbn in Hl. rewrite Hl. cbn [negb when Z.eqb]. wnext. eapply wpf_step; [by apply kmem_release_ok|].
    eapply wpf_done; [reflexivity|]. by split_and!.
  - destruct Hl as (Hh & Hp & Hl). apply NoDup_cons in Hnd as [Hnew Hnd]. rewrite Hh.
    destruct (Z.eqb_spec p 0); [by apply valid_page_nonzero in Hp|]. cbn [negb when]. wnext.
    eapply wpf_step; [by apply kmem_release_ok|]. eapply wpf_done; [reflexivity|]. by split_and!.
Qed.

(** ** freerange *)

(** The pages from [p] on, [n] of them, in the order they are freed. *)
Definition page_run (p : Z) (n : nat) : list Z := (fun i => p + PGSIZE * Z.of_nat i) <$> seq 0 n.

Lemma page_run_S p n : page_run p (S n) = p :: page_run (p + PGSIZE) n.
Proof.
  unfold page_run. simpl. f_equal; [lia|]. rewrite <- fmap_S_seq, <- list_fmap_compose.
  apply list_fmap_ext. intros i x _. simpl. lia.
Qed.

Lemma elem_of_page_run p n q : q ∈ page_run p n <-> exists i, (i < n)%nat /\ q = p + PGSIZE * Z.of_nat i.
Proof.
  unfold page_run. rewrite list_elem_of_fmap. split.
  - intros (i & -> & Hi%elem_of_seq). exists i. split; [lia|done].
  - intros (i & Hi & ->). exists i. split; [done|]. apply elem_of_seq. lia.
Qed.

(** Whole pages that fit between [p] and [vend]. *)
Definition fitting (p vend : Z) : nat := Z.to_nat ((vend - p) / PGSIZE).

Lemma freerange_loop_ok n fuel p vend pages s :
  kmem_ok pages s -> n = fitting p vend -> p <= vend + PGSIZE -> (n < fuel)%nat ->
  p `mod` PGSIZE = 0 -> kend <= p -> KERNBASE <= p -> vend <= KERNBASE + PHYSTOP ->
  (forall q, q ∈ pages -> q < p) ->
  wp (freerange_loop fuel p vend) (fun _ s' => km_use_lock s' = km_use_lock s /\
    kmem_ok (reverse (page_run p n) ++ pages) s') s.
Proof.
  revert fuel p pages s. induction n as [|n IH]; intros fuel p pages s Hok Hn Hle Hf Hal Hk Hb Hv Hlt.
  all: destruct fuel as [|fuel]; [lia|]; cbn [freerange_loop].
  all: unfold fitting in Hn; rewrite u32_small
         by (unfold is_u32, u32_mod, PGSIZE, KERNBASE, PHYSTOP in *; lia).
  - destruct (Z.leb_spec (p + PGSIZE) vend); [unfold PGSIZE in *; exfalso; zlia|]. by eapply wp_intro.
  - destruct (Z.leb_spec (p + PGSIZE) vend); [|unfold PGSIZE in *; exfalso; zlia].
    assert (valid_page p) as Hvp by (unfold valid_page, PGSIZE in *; lia).
    apply wp_bind. eapply wp_mono; [apply (kfree_ok pages p s Hok Hvp); intros Hin%Hlt; lia|].
    intros _ s1 (Hok1 & Hul & _). eapply wp_mono; [apply (IH fuel (p + PGSIZE) (p :: pages) s1 Hok1)|].
    + unfold fitting, PGSIZE in *. zlia.
    + unfold PGSIZE in *. lia.
    + lia.
    + unfold PGSIZE in *. zlia.
    + unfold PGSIZE in *. lia.
    + unfold PGSIZE in *. lia.
    + done.
    + intros q [->|Hq%Hlt]%elem_of_cons; unfold PGSIZE; lia.
    + intros _ s2 (Hul2 & Hok2). split; [congruence|].
      by rewrite page_run_S, reverse_cons, <- app_assoc.
Qed.

Lemma freerange_ok vstart vend pages s :
  kmem_ok pages s -> vstart <= vend -> kend <= vstart -> KERNBASE <= vstart ->
  vend <= KERNBASE + PHYSTOP -> (forall q, q ∈ pages -> q < vstart) ->
  wp (freerange vstart vend) (fun _ s' => km_use_lock s' = km_use_lock s /\
    kmem_ok (reverse (page_run (PGROUNDUP vstart) (fitting (PGROUNDUP vstart) vend)) ++ pages) s') s.
Proof.
  intros Hok Hle Hk Hb Hv Hlt. unfold freerange. destruct (Z.ltb_spec vend vstart); [lia|].
  rewrite PGROUNDUP_eq by (unfold PGSIZE, KERNBASE, PHYSTOP, u32_mod in *; lia).
  apply freerange_loop_ok; try done; unfold fitting, PGSIZE, KERNBASE, PHYSTOP, u32_mod in *; try zlia.
  intros q Hq%Hlt. zlia.
Qed.

End Kalloc.
