(* ===== verification/Vm.v ===== *)
(** * vm.c

    Page tables as they lie in memory: a page directory is a page of 1024
    words, each with the physical address of a page table and its flags.  The
    functions run on the allocator's state [kmem], which holds the memory.
    Loops carry as fuel the number of pages they can pass. *)

From S2P Require Import Prelude Mem KString Kalloc.

Local Open Scope c_scope.
Local Open Scope Z_scope.

Section Vm.
(** [end] and [data], set by the linker. *)
Context (kend data : Z).

Definition ldw (a : Z) : M kmem Z := gets (fun s => ld32 (km_mem s) a).
Definition stw (a w : Z) : M kmem unit := modify (fun s => set_km_mem (st32 (km_mem s) a w) s).

Definition has (w flag : Z) : bool := negb (Z.land w flag =? 0).

(** ** walkpgdir: the address of the page-table entry, 0 for none *)

Definition walkpgdir (pgdir va : Z) (alloc : bool) : M kmem Z :=
  let pde := padd pgdir (4 * PDX va) in
  w <- ldw pde ;;
  if has w PTE_P then
    pgtab <- P2V (PTE_ADDR w) ;;
    ret (padd pgtab (4 * PTX va))
  else if negb alloc then ret 0
  else
    pgtab <- kalloc ;;
    if pgtab =? 0 then ret 0
    else
      modify (fun s => set_km_mem (memset (km_mem s) pgtab 0 PGSIZE) s) ;;
      pa <- V2P pgtab ;;
      stw pde (Z.lor (Z.lor (Z.lor pa PTE_P) PTE_W) PTE_U) ;;
      ret (padd pgtab (4 * PTX va)).

(** ** mappages *)

Fixpoint mappages_loop (fuel : nat) (pgdir a last pa perm : Z) : M kmem Z :=
  match fuel with
  | O => out_of_fuel
  | S fuel' =>
      pte <- walkpgdir pgdir a true ;;
      if pte =? 0 then ret (-1)
      else
        w <- ldw pte ;;
        if has w PTE_P then panic "remap"
        else
          stw pte (Z.lor (Z.lor pa perm) PTE_P) ;;
          if a =? last then ret 0
          else mappages_loop fuel' pgdir (u32 (a + PGSIZE)) last (u32 (pa + PGSIZE)) perm
  end.

Definition mappages (pgdir va size pa perm : Z) : M kmem Z :=
  let a := PGROUNDDOWN va in
  let last := PGROUNDDOWN (u32 (va + size - 1)) in
  mappages_loop (Z.to_nat (u32 (last - a) / PGSIZE) + 1) pgdir a last pa perm.

(** ** deallocuvm and freevm *)

Fixpoint deallocuvm_loop (fuel : nat) (pgdir a oldsz : Z) : M kmem unit :=
  match fuel with
  | O => out_of_fuel
  | S fuel' =>
      if a <? oldsz then
        pte <- walkpgdir pgdir a false ;;
        if pte =? 0 then
          let a' := u32 (PGADDR (PDX a + 1) 0 0 - PGSIZE) in
          deallocuvm_loop fuel' pgdir (u32 (a' + PGSIZE)) oldsz
        else
          w <- ldw pte ;;
          (if has w PTE_P then
             let pa := PTE_ADDR w in
             if pa =? 0 then panic "kfree"
             else
               v <- P2V pa ;;
               kfree kend v ;;
               stw pte 0
           else ret tt) ;;
          deallocuvm_loop fuel' pgdir (u32 (a + PGSIZE)) oldsz
      else ret tt
  end.

Definition deallocuvm (pgdir oldsz newsz : Z) : M kmem Z :=
  if oldsz <=? newsz then ret oldsz
  else
    deallocuvm_loop (Z.to_nat (oldsz / PGSIZE) + 2) pgdir (PGROUNDUP newsz) oldsz ;;
    ret newsz.

Definition freevm (pgdir : Z) : M kmem unit :=
  if pgdir =? 0 then panic "freevm: no pgdir"
  else
    deallocuvm pgdir KERNBASE 0 ;;
    for_each (seq 0 (Z.to_nat NPDENTRIES)) (fun i =>
      w <- ldw (padd pgdir (4 * Z.of_nat i)) ;;
      when (has w PTE_P) (v <- P2V (PTE_ADDR w) ;; kfree kend v)) ;;
    kfree kend pgdir.

(** ** setupkvm *)

(** kmap[]: virtual start, physical start and end, permissions. *)
Definition kmap : list (Z * Z * Z * Z) :=
  [(KERNBASE, 0, EXTMEM, PTE_W);
   (KERNLINK, KERNLINK - KERNBASE, data - KERNBASE, 0);
   (data, data - KERNBASE, PHYSTOP, PTE_W);
   (DEVSPACE, DEVSPACE, 0, PTE_W)].

Fixpoint setupkvm_loop (ks : list (Z * Z * Z * Z)) (pgdir : Z) : M kmem Z :=
  match ks with
  | [] => ret pgdir
  | (virt, phys_start, phys_end, perm) :: ks' =>
      r <- mappages pgdir virt (u32 (phys_end - phys_start)) phys_start perm ;;
      if r <? 0 then freevm pgdir ;; ret 0
      else setupkvm_loop ks' pgdir
  end.

Definition setupkvm : M kmem Z :=
  pgdir <- kalloc ;;
  if pgdir =? 0 then ret 0
  else
    modify (fun s => set_km_mem (memset (km_mem s) pgdir 0 PGSIZE) s) ;;
    top <- P2V PHYSTOP ;;
    if DEVSPACE <? top then panic "PHYSTOP too high"
    else setupkvm_loop kmap pgdir.

(** ** inituvm; [init] is where the initcode binary lies *)

Definition inituvm (pgdir init sz : Z) : M kmem unit :=
  if PGSIZE <=? sz then panic "inituvm: more than a page"
  else
    mem <- kalloc ;;
    modify (fun s => set_km_mem (memset (km_mem s) mem 0 PGSIZE) s) ;;
    pa <- V2P mem ;;
    mappages pgdir 0 PGSIZE pa (Z.lor PTE_W PTE_U) ;;
    modify (fun s => set_km_mem (memmove (km_mem s) mem init sz) s).

(** ** allocuvm *)

Fixpoint allocuvm_loop (fuel : nat) (pgdir a oldsz newsz : Z) : M kmem Z :=
  match fuel with
  | O => out_of_fuel
  | S fuel' =>
      if a <? newsz then
        mem <- kalloc ;;
        if mem =? 0 then deallocuvm pgdir newsz oldsz ;; ret 0
        else
          modify (fun s => set_km_mem (memset (km_mem s) mem 0 PGSIZE) s) ;;
          pa <- V2P mem ;;
          r <- mappages pgdir a PGSIZE pa (Z.lor PTE_W PTE_U) ;;
          if r <? 0 then
            deallocuvm pgdir newsz oldsz ;; kfree kend mem ;; ret 0
          else allocuvm_loop fuel' pgdir (u32 (a + PGSIZE)) oldsz newsz
      else ret newsz
  end.

Definition allocuvm (pgdir oldsz newsz : Z) : M kmem Z :=
  if KERNBASE <=? newsz then ret 0
  else if newsz <? oldsz then ret oldsz
  else allocuvm_loop (Z.to_nat (newsz / PGSIZE) + 2) pgdir (PGROUNDUP oldsz) oldsz newsz.

(** ** clearpteu *)

Definition clearpteu (pgdir uva : Z) : M kmem unit :=
  pte <- walkpgdir pgdir uva false ;;
  if pte =? 0 then panic "clearpteu"
  else
    w <- ldw pte ;;
    stw pte (Z.land w (Z.lnot PTE_U)).

(** ** copyuvm *)

Fixpoint copyuvm_loop (fuel : nat) (pgdir d i sz : Z) : M kmem Z :=
  match fuel with
  | O => out_of_fuel
  | S fuel' =>
      if i <? sz then
        pte <- walkpgdir pgdir i false ;;
        if pte =? 0 then panic "copyuvm: pte should exist"
        else
          w <- ldw pte ;;
          if negb (has w PTE_P) then panic "copyuvm: page not present"
          else
            let pa := PTE_ADDR w in
            let flags := PTE_FLAGS w in
            mem <- kalloc ;;
            if mem =? 0 then freevm d ;; ret 0
            else
              src <- P2V pa ;;
              modify (fun s => set_km_mem (memmove (km_mem s) mem src PGSIZE) s) ;;
              mpa <- V2P mem ;;
              r <- mappages d i PGSIZE mpa flags ;;
              if r <? 0 then kfree kend mem ;; freevm d ;; ret 0
              else copyuvm_loop fuel' pgdir d (u32 (i + PGSIZE)) sz
      else ret d
  end.

Definition copyuvm (pgdir sz : Z) : M kmem Z :=
  d <- setupkvm ;;
  if d =? 0 then ret 0
  else copyuvm_loop (Z.to_nat (sz / PGSIZE) + 2) pgdir d 0 sz.

(** ** uva2ka *)

(** uva2ka does not test the pointer walkpgdir returns: a missing page table
    is a read through the null pointer. *)
Definition uva2ka (pgdir uva : Z) : M kmem Z :=
  pte <- walkpgdir pgdir uva false ;;
  if pte =? 0 then undef
  else
    w <- ldw pte ;;
    if negb (has w PTE_P) then ret 0
    else if negb (has w PTE_U) then ret 0
    else P2V (PTE_ADDR w).

End Vm.
