(* ===== verification/VmInv.v ===== *)
(** * Page tables: what the translation of an address space is

    [tab m d i] is the page table that entry [i] of the page directory [d]
    points to, [entry m d va] the page-table entry of an address, and
    [mapping m d va] that entry when it is present.  [space_ok] says that the
    directory and its tables are distinct pages that the allocator does not
    hold.  walkpgdir finds [entry]; mappages changes one [mapping] and, when it
    needs a table, takes one page from the allocator. *)

From S2P Require Import Prelude Mem KString Kalloc Vm.

Local Open Scope c_scope.
Local Open Scope Z_scope.

(** ** Words in pages *)

Lemma ld32_st32_ne m p q w :
  no_wrap p 4 -> no_wrap q 4 -> p + 4 <= q \/ q + 4 <= p -> ld32 (st32 m p w) q = ld32 m q.
Proof.
  intros Hp Hq Hd. unfold ld32. rewrite !(padd_small q _ 4) by (done || lia).
  by rewrite !st32_outside by (done || lia).
Qed.

Lemma ld32_same m m' a : no_wrap a 4 -> (forall k, 0 <= k < 4 -> m' (a + k) = m (a + k)) -> ld32 m' a = ld32 m a.
Proof.
  intros Hw Heq. unfold ld32. rewrite !(padd_small a _ 4) by (done || lia). rewrite !Heq by lia.
  pose proof (Heq 0 ltac:(lia)) as H0. rewrite Z.add_0_r in H0. by rewrite H0.
Qed.

(** A page-aligned address with flags in its low bits. *)
Lemma lor_flags a f : 0 <= a -> a `mod` PGSIZE = 0 -> 0 <= f < PGSIZE -> Z.lor a f = a + f.
Proof. intros _. apply (lor_low a f 12). Qed.

Lemma entry_addr a f :
  0 <= a -> a `mod` PGSIZE = 0 -> 0 <= f < PGSIZE -> PTE_ADDR (Z.lor a f) = a /\ PTE_FLAGS (Z.lor a f) = f.
Proof.
  intros Ha Hal Hf. rewrite lor_flags by done. rewrite PTE_ADDR_eq, PTE_FLAGS_eq by lia.
  unfold PGSIZE in *. split; zlia.
Qed.

Lemma has_P_flags a f : 0 <= a -> a `mod` PGSIZE = 0 -> has (Z.lor a f) PTE_P = has f PTE_P.
Proof.
  intros Ha Hal. unfold has, PTE_P. f_equal. rewrite Z.land_lor_distr_l. f_equal.
  assert (Z.land a 1 = 0) as ->; [|done].
  change 1 with (Z.ones 1). rewrite Z.land_ones by lia. unfold PGSIZE in *. change (2 ^ 1) with 2. zlia.
Qed.

(** Tables of options: the same entries, and one more entry *)
Lemma omap_same {A B} (f f' : A -> option B) (l : list A) : (forall j, j ∈ l -> f' j = f j) -> omap f' l = omap f l.
Proof.
  induction l as [|a l IH]; intros Heq; [done|]. cbn. rewrite (Heq a) by left.
  rewrite IH; [done|]. intros j Hj. apply Heq. by right.
Qed.

Lemma omap_new {A B} (f f' : A -> option B) (l : list A) i b :
  NoDup l -> i ∈ l -> f i = None -> f' i = Some b -> (forall j, j ∈ l -> j <> i -> f' j = f j) ->
  omap f' l ≡ₚ b :: omap f l.
Proof.
  induction l as [|a l IH]; intros Hnd Hi Hf Hf' Heq; [by apply elem_of_nil in Hi|].
  apply NoDup_cons in Hnd as [Hn Hnd]. cbn. apply elem_of_cons in Hi as [->|Hi].
  - rewrite Hf, Hf'. apply Permutation_skip. erewrite omap_same; [done|].
    intros j Hj. apply Heq; [by right|by intros ->].
  - rewrite (Heq a) by (by left || (intros ->; done)).
    assert (omap f' l ≡ₚ b :: omap f l) as H by (apply IH; auto; intros j Hj; apply Heq; by right).
    destruct (f a); rewrite H; [apply Permutation_swap|done].
Qed.

Section Space.
Context (kend : Z).
Local Abbreviation valid := (valid_page kend).

Lemma valid_aligned p : valid p -> (p - KERNBASE) `mod` PGSIZE = 0 /\ 0 <= p - KERNBASE < PHYSTOP.
Proof. intros (Hal & _ & Hr). unfold PGSIZE, KERNBASE in *. split; [zlia|lia]. Qed.

(** The word of index [i] of page [p]. *)
Lemma slot_small p i : valid p -> 0 <= i < 1024 -> padd p (4 * i) = p + 4 * i.
Proof.
  intros Hp Hi. apply (padd_small p _ (PGSIZE + 1)); [by apply (valid_page_no_wrap kend)|unfold PGSIZE; lia].
Qed.

Lemma slot_no_wrap p i : valid p -> 0 <= i < 1024 -> no_wrap (p + 4 * i) 4.
Proof.
  intros Hp Hi. pose proof (valid_page_no_wrap kend p Hp) as Hw. unfold no_wrap, PGSIZE in *. lia.
Qed.

(** Distinct words do not overlap. *)
Lemma slots_apart p i q j :
  valid p -> valid q -> 0 <= i < 1024 -> 0 <= j < 1024 -> p <> q \/ i <> j ->
  p + 4 * i + 4 <= q + 4 * j \/ q + 4 * j + 4 <= p + 4 * i.
Proof.
  intros (Hp & _) (Hq & _) Hi Hj Hne. unfold PGSIZE in *.
  pose proof (Z.div_mod p 4096 ltac:(lia)). pose proof (Z.div_mod q 4096 ltac:(lia)).
  destruct (Z.lt_trichotomy (p / 4096) (q / 4096)) as [|[|]]; [left; lia| |right; lia].
  assert (p = q) by lia. destruct Hne; lia.
Qed.

(** ** The translation *)

Definition tab (m : mem) (d i : Z) : option Z :=
  let w := ld32 m (d + 4 * i) in
  if has w PTE_P then Some (PTE_ADDR w + KERNBASE) else None.

Definition entry (m : mem) (d va : Z) : option Z :=
  t ← tab m d (PDX va); Some (ld32 m (t + 4 * PTX va)).

Definition mapping (m : mem) (d va : Z) : option Z :=
  w ← entry m d va; if has w PTE_P then Some w else None.

Lemma PDX_range va : 0 <= PDX va < 1024.
Proof.
  unfold PDX. change 1023 with (Z.ones 10). rewrite Z.land_ones by lia.
  apply (Z.mod_pos_bound _ (2 ^ 10)). lia.
Qed.

Lemma PTX_range va : 0 <= PTX va < 1024.
Proof.
  unfold PTX. change 1023 with (Z.ones 10). rewrite Z.land_ones by lia.
  apply (Z.mod_pos_bound _ (2 ^ 10)). lia.
Qed.

(** ** A well-formed address space; [pages] is the allocator's free list *)

Record space_ok (pages : list Z) (m : mem) (d : Z) : Prop := mkSpaceOk {
  so_dir : valid d /\ d ∉ pages;
  so_tab : forall i t, 0 <= i < 1024 -> tab m d i = Some t -> valid t /\ (t ∉ pages) /\ t <> d;
  so_inj : forall i j t, 0 <= i < 1024 -> 0 <= j < 1024 ->
    tab m d i = Some t -> tab m d j = Some t -> i = j;
}.

(** The pages that hold the tables of [d] *)
Definition tables (m : mem) (d : Z) : list Z := omap (tab m d) (seqZ 0 1024).

(** Addresses of the directory and of its tables. *)
Definition table_page (m : mem) (d p : Z) : Prop := p = d \/ exists i, 0 <= i < 1024 /\ tab m d i = Some p.

Lemma walk_present s d va alloc t pages :
  space_ok pages (km_mem s) d -> tab (km_mem s) d (PDX va) = Some t ->
  walkpgdir d va alloc s = Done (t + 4 * PTX va) s.
Proof.
  intros Hs Ht. pose proof (PDX_range va). pose proof (PTX_range va).
  destruct (so_tab _ _ _ Hs (PDX va) t ltac:(lia) Ht) as (Hv & _).
  unfold walkpgdir, ldw. rewrite slot_small by (try apply Hs; lia). erewrite bind_done by reflexivity.
  unfold tab in Ht. destruct (has _ PTE_P); [|done]. injection Ht as Ht.
  pose proof (valid_aligned t Hv) as [_ Hr].
  erewrite bind_done; [|apply P2V_ok; unfold KERNBASE, PHYSTOP in *; lia].
  unfold ret. rewrite Ht. by rewrite slot_small by (done || lia).
Qed.

Lemma walk_absent s d va pages :
  space_ok pages (km_mem s) d -> tab (km_mem s) d (PDX va) = None -> walkpgdir d va false s = Done 0 s.
Proof.
  intros Hs Ht. pose proof (PDX_range va). unfold walkpgdir, ldw.
  rewrite slot_small by (try apply Hs; lia). erewrite bind_done by reflexivity.
  unfold tab in Ht. by destruct (has _ PTE_P).
Qed.


(** ** A new page table *)

(** The memory after walkpgdir has put the zeroed page [p] at entry [i]. *)
Definition with_table (m : mem) (d i p : Z) : mem :=
  st32 (memset m p 0 PGSIZE) (d + 4 * i) (Z.lor (p - KERNBASE) 7).

Section WithTable.
Context (m : mem) (d i p : Z) (Hd : valid d) (Hp : valid p) (Hne : p <> d) (Hi : 0 <= i < 1024).

Lemma zeroed_page : filled m p 0 PGSIZE (memset m p 0 PGSIZE).
Proof.
  apply (memset_filled m p 0 PGSIZE); [|done].
  pose proof (valid_page_no_wrap kend p Hp). unfold no_wrap in *. lia.
Qed.

Lemma with_table_zero j : 0 <= j < 1024 -> ld32 (with_table m d i p) (p + 4 * j) = 0.
Proof.
  intros Hj. unfold with_table.
  rewrite ld32_st32_ne; [|by apply slot_no_wrap..|apply slots_apart; auto].
  pose proof (slot_no_wrap p j Hp Hj) as Hw. unfold ld32. rewrite !(padd_small _ _ 4) by (done || lia).
  rewrite !zeroed_page. unfold PGSIZE. by rewrite !bool_decide_true by lia.
Qed.

Lemma with_table_other q j :
  valid q -> q <> p -> 0 <= j < 1024 -> q <> d \/ j <> i ->
  ld32 (with_table m d i p) (q + 4 * j) = ld32 m (q + 4 * j).
Proof.
  intros Hq Hqp Hj Ho. unfold with_table.
  rewrite ld32_st32_ne; [|by apply slot_no_wrap..|apply slots_apart; intuition auto].
  apply ld32_same; [by apply slot_no_wrap|]. intros k Hk. rewrite zeroed_page, bool_decide_false; [done|].
  intros Hin. apply (pages_apart kend q p (4 * j + k) (q + (4 * j + k) - p)); unfold PGSIZE in *; (done || lia).
Qed.

Lemma with_table_tab : tab (with_table m d i p) d i = Some p.
Proof.
  pose proof (valid_aligned p Hp) as [Hal Hr]. unfold tab, with_table.
  rewrite ld32_st32; [|by apply slot_no_wrap|].
  - rewrite has_P_flags by lia. simpl. destruct (entry_addr (p - KERNBASE) 7) as [-> _]; try (done || lia).
    f_equal. lia.
  - rewrite lor_flags by (done || lia). unfold is_u32, u32_mod, PHYSTOP in *. lia.
Qed.

Lemma with_table_tab_ne j : 0 <= j < 1024 -> j <> i -> tab (with_table m d i p) d j = tab m d j.
Proof. intros Hj Hji. unfold tab. by rewrite with_table_other by auto. Qed.

Lemma with_table_frame a : ~ (p <= a < p + PGSIZE) -> ~ (d <= a < d + PGSIZE) -> with_table m d i p a = m a.
Proof.
  intros Hap Had. unfold with_table. rewrite st32_outside; [|by apply slot_no_wrap|unfold PGSIZE in *; lia].
  by rewrite zeroed_page, bool_decide_false.
Qed.
End WithTable.

Lemma with_table_space rest m d i p :
  space_ok (p :: rest) m d -> valid p -> p ∉ rest -> 0 <= i < 1024 -> tab m d i = None ->
  space_ok rest (with_table m d i p) d.
Proof.
  intros [[Hd Hnd] Ht Hinj] Hp Hpr Hi Hnone.
  assert (p <> d) as Hpd by (intros ->; set_solver).
  assert (forall j t, 0 <= j < 1024 -> tab (with_table m d i p) d j = Some t ->
    (j = i /\ t = p) \/ (j <> i /\ t <> p /\ tab m d j = Some t)) as Hcase.
  { intros j t Hj Hjt. destruct (Z.eq_dec j i) as [->|Hji].
    - rewrite with_table_tab in Hjt by done. left. split; [done|congruence].
    - rewrite with_table_tab_ne in Hjt by done. right. split; [done|]. split; [|done].
      destruct (Ht j t Hj Hjt) as (_ & Hn & _). set_solver. }
  split.
  - set_solver.
  - intros j t Hj Hjt. destruct (Hcase j t Hj Hjt) as [(-> & ->)|(_ & _ & Hjt')]; [done|].
    destruct (Ht j t Hj Hjt') as (? & ? & ?). set_solver.
  - intros j k t Hj Hk Hjt Hkt.
    destruct (Hcase j t Hj Hjt) as [(-> & ->)|(? & ? & ?)], (Hcase k _ Hk Hkt) as [(-> & E)|(? & ? & ?)];
      try done. eauto.
Qed.


(** ** Writing an entry *)

Lemma space_ok_ext pages m m' d :
  (forall i, 0 <= i < 1024 -> tab m' d i = tab m d i) -> space_ok pages m d -> space_ok pages m' d.
Proof.
  intros Heq [Hd Ht Hinj]. split; [done|..].
  - intros i t Hi. rewrite Heq by done. by apply Ht.
  - intros i j t Hi Hj. rewrite !Heq by done. by apply Hinj.
Qed.

Lemma kmem_ok_frame pages s m' :
  kmem_ok kend pages s -> (forall p i, p ∈ pages -> 0 <= i < PGSIZE -> m' (p + i) = km_mem s (p + i)) ->
  kmem_ok kend pages (set_km_mem m' s).
Proof. intros [Hl Hnd Hu] Heq. split; [|done..]. by apply (freelist_frame kend (km_mem s)). Qed.

(** Two addresses of the same page. *)
Lemma same_slot va va' :
  is_u32 va -> is_u32 va' -> PDX va = PDX va' /\ PTX va = PTX va' <-> va / PGSIZE = va' / PGSIZE.
Proof. intros H H'. rewrite !PDX_eq, !PTX_eq by done. unfold PGSIZE. zlia. Qed.

Section Store.
Context (pages : list Z) (m : mem) (d va t w : Z).
Context (Hs : space_ok pages m d) (Hva : is_u32 va) (Ht : tab m d (PDX va) = Some t) (Hw : is_u32 w).
Local Abbreviation m' := (st32 m (t + 4 * PTX va) w).

Lemma store_valid : valid t /\ (t ∉ pages) /\ t <> d.
Proof. apply (so_tab _ _ _ Hs (PDX va)); [apply PDX_range|done]. Qed.

Lemma store_tab i : 0 <= i < 1024 -> tab m' d i = tab m d i.
Proof.
  intros Hi. destruct store_valid as (Hv & _ & Hne). pose proof (PTX_range va). unfold tab.
  destruct (so_dir _ _ _ Hs) as [Hd _]. rewrite ld32_st32_ne; [done|by apply slot_no_wrap..|].
  apply slots_apart; auto.
Qed.

Lemma store_space : space_ok pages m' d.
Proof. apply (space_ok_ext pages m); [apply store_tab|done]. Qed.

Lemma store_entry va' :
  is_u32 va' -> entry m' d va' = if decide (va' / PGSIZE = va / PGSIZE) then Some w else entry m d va'.
Proof.
  intros Hva'. destruct store_valid as (Hv & _ & Hne).
  pose proof (PTX_range va). pose proof (PTX_range va'). pose proof (PDX_range va). pose proof (PDX_range va').
  unfold entry. rewrite store_tab by done. destruct (decide (va' / PGSIZE = va / PGSIZE)) as [Heq|Hn].
  - apply same_slot in Heq as [-> ->]; [|done..]. rewrite Ht. simpl. f_equal.
    apply ld32_st32; [by apply slot_no_wrap|done].
  - destruct (tab m d (PDX va')) as [t'|] eqn:Ht'; [|done]. simpl. f_equal.
    destruct (so_tab _ _ _ Hs (PDX va') t' ltac:(done) Ht') as (Hv' & _).
    rewrite ld32_st32_ne; [done|by apply slot_no_wrap..|]. apply slots_apart; try done.
    destruct (Z.eq_dec t t') as [<-|]; [|by left]. right. intros Hptx. apply Hn.
    apply same_slot; [done..|]. split; [|done]. by apply (so_inj _ _ _ Hs (PDX va') (PDX va) t).
Qed.

Lemma store_frame a : ~ (t <= a < t + PGSIZE) -> m' a = m a.
Proof.
  intros Ha. destruct store_valid as (Hv & _). pose proof (PTX_range va).
  apply st32_outside; [by apply slot_no_wrap|unfold PGSIZE in *; lia].
Qed.
End Store.


(** ** walkpgdir with [alloc] *)

#[local] Opaque memset st32.

(** What a routine that works on the address space [d] may write: pages of
    the allocator, the directory and its tables. *)
Definition in_tables (pages : list Z) (m : mem) (d a : Z) : Prop :=
  exists p, (p ∈ pages \/ table_page m d p) /\ p <= a < p + PGSIZE.

(** Between [s] and [s'] the address space took pages of [pages] for tables,
    leaving [rest], and wrote nothing else. *)
Record grown (d : Z) (pages rest : list Z) (s s' : kmem) : Prop := mkGrown {
  gr_suffix : rest `suffix_of` pages;
  gr_kmem : kmem_ok kend rest s';
  gr_space : space_ok rest (km_mem s') d;
  gr_lock : km_use_lock s' = km_use_lock s;
  gr_acct : rest ++ tables (km_mem s') d ≡ₚ pages ++ tables (km_mem s) d;
  gr_tabs : forall p, table_page (km_mem s') d p -> p ∈ pages \/ table_page (km_mem s) d p;
  gr_frame : forall a, ~ in_tables pages (km_mem s) d a -> km_mem s' a = km_mem s a;
}.

Lemma grown_refl d pages s : kmem_ok kend pages s -> space_ok pages (km_mem s) d -> grown d pages pages s s.
Proof. intros Hk Hs. split; auto. Qed.

Lemma grown_trans d p0 p1 p2 s0 s1 s2 : grown d p0 p1 s0 s1 -> grown d p1 p2 s1 s2 -> grown d p0 p2 s0 s2.
Proof.
  intros [Hx1 Hk1 Hs1 Hl1 Ha1 Ht1 Hf1] [Hx2 Hk2 Hs2 Hl2 Ha2 Ht2 Hf2]. split; try done.
  - by trans p1.
  - congruence.
  - by rewrite Ha2.
  - intros p [Hp|Hp]%Ht2; [|auto]. left. destruct Hx1 as [l ->]. set_solver.
  - intros a Ha. rewrite Hf2; [auto|]. intros (p & [Hp|Hp] & Hr); apply Ha.
    + exists p. split; [left|done]. destruct Hx1 as [l ->]. set_solver.
    + apply Ht1 in Hp. by exists p.
Qed.

(** A byte of one page is not a byte of another. *)
Lemma byte_elsewhere q t i : valid q -> valid t -> q <> t -> 0 <= i < PGSIZE -> ~ (t <= q + i < t + PGSIZE).
Proof.
  intros Hq Ht Hne Hi Hin. apply (pages_apart kend q t i (q + i - t)); try done; lia.
Qed.

Lemma walk_alloc_new s d va p rest :
  kmem_ok kend (p :: rest) s -> space_ok (p :: rest) (km_mem s) d -> tab (km_mem s) d (PDX va) = None ->
  wp (walkpgdir d va true) (fun r s' => r = p + 4 * PTX va /\ valid p /\ p <> d /\ kmem_ok kend rest s' /\
    (p ∉ rest) /\ km_use_lock s' = km_use_lock s /\ km_mem s' = with_table (km_mem s) d (PDX va) p) s.
Proof.
  intros Hk Hs Hnone. pose proof (PDX_range va) as Hi. pose proof (PTX_range va) as Hj.
  destruct (so_dir _ _ _ Hs) as [Hd Hdn]. apply wp_wpf. unfold walkpgdir. wnext. cbn [ldw gets].
  rewrite slot_small by done. unfold tab in Hnone. destruct (has _ PTE_P); [done|]. cbn [negb].
  apply wpf_bind. eapply wpf_mono; [apply wpf_wp, (kalloc_ok kend), Hk|].
  intros r s1 (Hm & Hu & -> & Hp & Hpr & Hk1). cbn beta.
  pose proof (valid_page_nonzero kend p Hp) as Hp0. apply Z.eqb_neq in Hp0. rewrite Hp0. wnext.
  assert (KERNBASE <= p) as Hkb by (unfold valid_page in Hp; lia).
  wrun (V2P_ok p (set_km_mem (memset (km_mem s1) p 0 PGSIZE) s1) Hkb).
  wnext. eapply wpf_done; [reflexivity|]. rewrite slot_small by done.
  assert (p <> d) as Hpd by (intros ->; set_solver).
  assert (Z.lor (Z.lor (Z.lor (p - KERNBASE) PTE_P) PTE_W) PTE_U = Z.lor (p - KERNBASE) 7) as Hlor
    by (rewrite <- !Z.lor_assoc; done).
  assert (forall w, set_km_mem (st32 (km_mem (set_km_mem (memset (km_mem s1) p 0 PGSIZE) s1)) (d + 4 * PDX va) w)
    (set_km_mem (memset (km_mem s1) p 0 PGSIZE) s1) =
    set_km_mem (st32 (memset (km_mem s) p 0 PGSIZE) (d + 4 * PDX va) w) s1) as Hst by (intros; by rewrite <- Hm).
  rewrite Hlor, Hst. fold (with_table (km_mem s) d (PDX va) p).
  refine (conj eq_refl (conj Hp (conj Hpd (conj _ (conj Hpr (conj Hu eq_refl)))))).
  apply (kmem_ok_frame rest s1); [done|]. intros q k Hq Hk'. rewrite Hm.
  assert (forall r, r ∈ rest -> valid r) as Hv by (intros r; apply (freelist_valid kend _ _ _ r (ko_list _ _ _ Hk1))).
  assert (q <> d) as Hqd by (intros ->; apply Hdn; by right).
  apply with_table_frame; [done..| |]; apply byte_elsewhere; auto. by intros ->.
Qed.


(** A new table holds no mapping. *)
Lemma with_table_mapping pages m d va p va' :
  space_ok (p :: pages) m d -> valid p -> tab m d (PDX va) = None ->
  mapping (with_table m d (PDX va) p) d va' = mapping m d va'.
Proof.
  intros Hs Hp Hnone. destruct (so_dir _ _ _ Hs) as [Hd Hdn].
  assert (p <> d) as Hpd by (intros ->; apply Hdn; by left).
  pose proof (PDX_range va). pose proof (PDX_range va') as Hi'. pose proof (PTX_range va').
  unfold mapping, entry. destruct (Z.eq_dec (PDX va') (PDX va)) as [->|Hne].
  - rewrite with_table_tab, Hnone by done. simpl. by rewrite with_table_zero by done.
  - rewrite with_table_tab_ne by done. destruct (tab m d (PDX va')) as [t|] eqn:Ht; [|done]. simpl.
    destruct (so_tab _ _ _ Hs _ t Hi' Ht) as (Hv & Hn & Htd).
    rewrite with_table_other; try done; [|by left]. intros ->. apply Hn. by left.
Qed.

Lemma with_table_tables m d i p :
  valid d -> valid p -> p <> d -> 0 <= i < 1024 -> tab m d i = None ->
  tables (with_table m d i p) d ≡ₚ p :: tables m d.
Proof.
  intros Hd Hp Hpd Hi Hn. unfold tables. apply (omap_new _ _ _ i).
  - apply NoDup_seqZ.
  - apply elem_of_seqZ. lia.
  - done.
  - by apply with_table_tab.
  - intros j Hj%elem_of_seqZ Hji. apply with_table_tab_ne; (done || lia).
Qed.

Lemma with_table_grown rest s s' d i p :
  kmem_ok kend rest s' -> space_ok (p :: rest) (km_mem s) d -> valid p -> p ∉ rest -> 0 <= i < 1024 ->
  tab (km_mem s) d i = None -> km_use_lock s' = km_use_lock s -> km_mem s' = with_table (km_mem s) d i p ->
  grown d (p :: rest) rest s s'.
Proof.
  intros Hk Hs Hp Hpr Hi Hnone Hu Hm. destruct (so_dir _ _ _ Hs) as [Hd Hdn].
  assert (p <> d) as Hpd by (intros ->; apply Hdn; by left).
  split; try done.
  - by exists [p].
  - rewrite Hm. by apply with_table_space.
  - rewrite Hm, with_table_tables by done. symmetry. apply Permutation_middle.
  - intros q [->|(j & Hj & Hq)]; [by right; left|]. rewrite Hm in Hq.
    destruct (Z.eq_dec j i) as [->|Hji].
    + rewrite with_table_tab in Hq by done. injection Hq as <-. left. by left.
    + rewrite with_table_tab_ne in Hq by done. right. right. eauto.
  - intros a Ha. rewrite Hm. apply with_table_frame; try done; intros Hin; apply Ha.
    + exists p. split; [by left; left|done].
    + exists d. split; [by right; left|done].
Qed.

(** walkpgdir(d, va, 1): no page left, or the address of the entry, in an
    address space that maps what it mapped before. *)
Lemma walk_alloc_ok pages s d va :
  kmem_ok kend pages s -> space_ok pages (km_mem s) d ->
  wp (walkpgdir d va true) (fun r s' => exists rest,
    grown d pages rest s s' /\ (forall va', mapping (km_mem s') d va' = mapping (km_mem s) d va') /\
    ((r = 0 /\ rest = []) \/
     exists t, tab (km_mem s') d (PDX va) = Some t /\ r = t + 4 * PTX va /\ r <> 0)) s.
Proof.
  intros Hk Hs. pose proof (PDX_range va). pose proof (PTX_range va).
  destruct (tab (km_mem s) d (PDX va)) as [t|] eqn:Ht.
  { destruct (so_tab _ _ _ Hs (PDX va) t ltac:(done) Ht) as (Hv & _). pose proof (valid_page_nonzero kend t Hv).
    apply wp_wpf. eapply wpf_done; [by eapply walk_present|]. exists pages. split; [by apply grown_refl|].
    split; [done|]. right. exists t. unfold valid_page, KERNBASE in Hv. split_and!; [done..|lia]. }
  destruct pages as [|p rest].
  - apply wp_wpf. unfold walkpgdir. wnext. cbn [ldw gets]. rewrite slot_small by (done || apply Hs).
    unfold tab in Ht. destruct (has _ PTE_P); [done|]. cbn [negb].
    apply wpf_bind. eapply wpf_mono; [apply wpf_wp, (kalloc_ok kend), Hk|].
    intros r s1 (Hm & Hu & -> & Hk1). eapply wpf_done; [reflexivity|]. exists []. rewrite Hm.
    split; [|by auto]. split; try done; rewrite ?Hm; auto.
  - eapply wp_mono; [by apply walk_alloc_new|].
    intros r s' (-> & Hv & Hpd & Hk1 & Hpr & Hu & Hm). exists rest. split; [by eapply (with_table_grown _ _ _ _ (PDX va))|].
    rewrite Hm. split; [intros va'; by eapply with_table_mapping|]. right. exists p.
    unfold valid_page, KERNBASE in Hv. split_and!; [by apply with_table_tab; try apply Hs|done|lia].
Qed.


(** ** mappages *)

Definition pte_word (pa perm : Z) : Z := Z.lor (Z.lor pa perm) PTE_P.

Lemma pte_word_present pa perm : has (pte_word pa perm) PTE_P = true.
Proof.
  unfold has, pte_word, PTE_P. rewrite Z.land_lor_distr_l. change (Z.land 1 1) with 1.
  destruct (Z.eqb_spec (Z.lor (Z.land (Z.lor pa perm) 1) 1) 0) as [H0|]; [|done].
  apply Z.lor_eq_0_iff in H0 as [_ H0]. done.
Qed.

Lemma lor_u32 a b : is_u32 a -> is_u32 b -> is_u32 (Z.lor a b).
Proof.
  unfold is_u32. change u32_mod with (2 ^ 32). intros [Ha0 Ha] [Hb0 Hb].
  assert (0 <= Z.lor a b) as H0 by (by apply Z.lor_nonneg). split; [done|].
  destruct (Z.eq_dec (Z.lor a b) 0) as [->|Hne]; [done|].
  apply Z.log2_lt_pow2; [lia|]. rewrite Z.log2_lor by done.
  assert (forall x, 0 <= x < 2 ^ 32 -> Z.log2 x < 32) as Hl.
  { intros x [Hx0 Hx]. destruct (Z.eq_dec x 0) as [->|]; [done|]. apply Z.log2_lt_pow2; lia. }
  apply Z.max_lub_lt; by apply Hl.
Qed.

Lemma pte_word_u32 pa perm : is_u32 pa -> is_u32 perm -> is_u32 (pte_word pa perm).
Proof. intros. apply lor_u32; [by apply lor_u32|done]. Qed.

(** Storing an entry of [d] keeps the rest as it is. *)
Lemma store_grown pages s d va t w :
  kmem_ok kend pages s -> space_ok pages (km_mem s) d -> is_u32 va -> is_u32 w ->
  tab (km_mem s) d (PDX va) = Some t ->
  grown d pages pages s (set_km_mem (st32 (km_mem s) (t + 4 * PTX va) w) s).
Proof.
  intros Hk Hs Hva Hw Ht. pose proof (PDX_range va) as Hi.
  destruct (so_tab _ _ _ Hs (PDX va) t Hi Ht) as (Hv & Hn & _). split; try done.
  - apply kmem_ok_frame; [done|]. intros p i Hp Hr. apply (store_frame pages (km_mem s) d va t w); try done.
    apply byte_elsewhere; try done; [by apply (freelist_valid kend _ _ _ p (ko_list _ _ _ Hk))|]. by intros ->.
  - by eapply store_space.
  - apply Permutation_app_head. unfold tables. cbn [km_mem set_km_mem]. erewrite omap_same; [done|].
    intros j Hj%elem_of_seqZ. eapply store_tab; [done..|lia].
  - intros p [->|(j & Hj & Hp)]; [by right; left|]. cbn [km_mem set_km_mem] in Hp.
    erewrite store_tab in Hp by eauto. right. right. eauto.
  - intros a Ha. apply (store_frame pages (km_mem s) d va t w); try done. intros Hin. apply Ha. exists t.
    split; [|done]. right. right. eauto.
Qed.

Lemma store_mapping pages s d va t w va' :
  space_ok pages (km_mem s) d -> is_u32 va -> is_u32 va' -> is_u32 w -> has w PTE_P = true ->
  tab (km_mem s) d (PDX va) = Some t ->
  mapping (st32 (km_mem s) (t + 4 * PTX va) w) d va' =
    if decide (va' / PGSIZE = va / PGSIZE) then Some w else mapping (km_mem s) d va'.
Proof.
  intros Hs Hva Hva' Hw Hp Ht. unfold mapping. erewrite store_entry by eauto.
  destruct (decide _); [|done]. simpl. by rewrite Hp.
Qed.

(** An address without a mapping has an entry that is not present. *)
Lemma mapping_None m d va t :
  mapping m d va = None -> tab m d (PDX va) = Some t -> has (ld32 m (t + 4 * PTX va)) PTE_P = false.
Proof. unfold mapping, entry. intros Hm Ht. rewrite Ht in Hm. simpl in Hm. by destruct (has _ PTE_P). Qed.


(** The translation with [k] pages from [a] on mapped to the pages from [pa]
    on. *)
Definition mapped_from (old : Z -> option Z) (a pa perm : Z) (k : nat) (va' : Z) : option Z :=
  if decide (a <= va' < a + PGSIZE * Z.of_nat k) then Some (pte_word (pa + PGSIZE * ((va' - a) / PGSIZE)) perm)
  else old va'.

Lemma mapped_from_S old a pa perm k va' :
  is_u32 va' -> a `mod` PGSIZE = 0 ->
  mapped_from (fun v => if decide (v / PGSIZE = a / PGSIZE) then Some (pte_word pa perm) else old v)
    (a + PGSIZE) (pa + PGSIZE) perm k va' = mapped_from old a pa perm (S k) va'.
Proof.
  intros Hva Hal. unfold mapped_from, PGSIZE in *.
  destruct (decide (a + 4096 <= va' < _)).
  - rewrite decide_True by lia. do 2 f_equal. zlia.
  - destruct (decide (va' / 4096 = a / 4096)).
    + rewrite decide_True by zlia. do 2 f_equal. zlia.
    + rewrite decide_False by zlia. done.
Qed.

Lemma mapped_from_ext old old' a pa perm k va' :
  old va' = old' va' -> mapped_from old a pa perm k va' = mapped_from old' a pa perm k va'.
Proof. intros He. unfold mapped_from. by rewrite He. Qed.

Lemma mapped_from_O old a pa perm va' : mapped_from old a pa perm 0 va' = old va'.
Proof. unfold mapped_from. by rewrite decide_False by lia. Qed.

(** One round of the loop: no page left, or the page of [a] is mapped. *)
Lemma mappages_round Q fuel pages s d a last pa perm :
  kmem_ok kend pages s -> space_ok pages (km_mem s) d -> is_u32 a -> is_u32 pa -> is_u32 perm ->
  mapping (km_mem s) d a = None ->
  (forall s1, grown d pages [] s s1 -> (forall va', mapping (km_mem s1) d va' = mapping (km_mem s) d va') ->
     Q (-1) s1) ->
  (forall rest s1, grown d pages rest s s1 ->
     (forall va', is_u32 va' -> mapping (km_mem s1) d va' =
        if decide (va' / PGSIZE = a / PGSIZE) then Some (pte_word pa perm) else mapping (km_mem s) d va') ->
     wp (if a =? last then ret 0
         else mappages_loop fuel d (u32 (a + PGSIZE)) last (u32 (pa + PGSIZE)) perm) Q s1) ->
  wp (mappages_loop (S fuel) d a last pa perm) Q s.
Proof.
  intros Hk Hs Ha Hpa Hperm Hnone Hfail Hgo. cbn [mappages_loop].
  pose proof (pte_word_u32 pa perm Hpa Hperm) as Hw.
  apply wp_bind. eapply wp_mono; [by apply (walk_alloc_ok pages)|].
  intros r s1 (rest & Hg & Hmap & [(-> & ->)|(t & Ht & -> & Hr)]); [by apply Hfail|].
  apply Z.eqb_neq in Hr. rewrite Hr. apply wp_bind, wp_gets.
  rewrite (mapping_None _ d a t) by (done || by rewrite Hmap).
  apply wp_bind, wp_modify. fold (pte_word pa perm).
  pose proof (gr_space _ _ _ _ _ Hg) as Hs1.
  apply (Hgo rest).
  - eapply grown_trans; [done|]. by apply store_grown; try apply Hg.
  - intros va' Hva'. rewrite <- Hmap. apply (store_mapping rest s1); try done. apply pte_word_present.
Qed.

Lemma mappages_loop_ok n : forall fuel pages s d a pa perm,
  kmem_ok kend pages s -> space_ok pages (km_mem s) d ->
  (S n <= fuel)%nat -> 0 <= a -> a `mod` PGSIZE = 0 -> a + PGSIZE * Z.of_nat (S n) <= u32_mod ->
  0 <= pa -> pa + PGSIZE * Z.of_nat (S n) <= u32_mod -> is_u32 perm ->
  (forall va, a <= va < a + PGSIZE * Z.of_nat (S n) -> mapping (km_mem s) d va = None) ->
  wp (mappages_loop fuel d a (a + PGSIZE * Z.of_nat n) pa perm) (fun r s' => exists rest k,
    grown d pages rest s s' /\ ((r = 0 /\ k = S n) \/ (r = -1 /\ (k <= n)%nat /\ rest = [])) /\
    forall va', is_u32 va' ->
      mapping (km_mem s') d va' = mapped_from (mapping (km_mem s) d) a pa perm k va') s.
Proof.
  induction n as [|n IH]; intros fuel pages s d a pa perm Hk Hs Hf Ha Hal Hend Hpa Hpend Hperm Hnone.
  all: destruct fuel as [|fuel]; [lia|].
  all: apply (mappages_round _ fuel pages);
    try done; try (unfold is_u32, PGSIZE in *; lia); [apply Hnone; unfold PGSIZE in *; lia|..].
  1,3: intros s1 Hg Hm; exists [], 0%nat; split; [done|]; split; [right; split_and!; (done || lia)|];
       intros va' _; by rewrite mapped_from_O.
  - intros rest s1 Hg Hm. rewrite Z.mul_0_r, Z.add_0_r, Z.eqb_refl. apply wp_ret.
    exists rest, 1%nat. split; [done|]. split; [by left|]. intros va' Hva'.
    by rewrite Hm, <- mapped_from_S, mapped_from_O by done.
  - intros rest s1 Hg Hm. destruct (Z.eqb_spec a (a + PGSIZE * Z.of_nat (S n))); [unfold PGSIZE in *; lia|].
    rewrite !u32_small by (unfold is_u32, PGSIZE in *; lia).
    replace (a + PGSIZE * Z.of_nat (S n)) with (a + PGSIZE + PGSIZE * Z.of_nat n) by lia.
    eapply wp_mono; [apply (IH fuel rest); try apply Hg; try done; try (unfold PGSIZE in *; zlia)|].
    + intros va Hva. rewrite Hm by (unfold is_u32, PGSIZE in *; lia).
      rewrite decide_False by (unfold PGSIZE in *; zlia). apply Hnone. unfold PGSIZE in *. lia.
    + intros r s2 (rest2 & k & Hg2 & Hr & Hm2). exists rest2, (S k). split; [by eapply grown_trans|].
      split; [destruct Hr as [(-> & ->)|(-> & ? & ->)]; [by left|right; split_and!; (done || lia)]|].
      intros va' Hva'. rewrite Hm2 by done. rewrite <- mapped_from_S by done. apply mapped_from_ext. auto.
Qed.

(** The pages mappages passes. *)
Definition span (va size : Z) : nat := Z.to_nat ((va + size - 1) / PGSIZE - va / PGSIZE + 1).

Lemma mappages_ok pages s d va size pa perm :
  kmem_ok kend pages s -> space_ok pages (km_mem s) d ->
  0 <= va -> 0 < size -> va + size <= u32_mod -> 0 <= pa -> pa + PGSIZE * Z.of_nat (span va size) <= u32_mod ->
  is_u32 perm ->
  (forall v, PGROUNDDOWN va <= v < PGROUNDDOWN va + PGSIZE * Z.of_nat (span va size) ->
     mapping (km_mem s) d v = None) ->
  wp (mappages d va size pa perm) (fun r s' => exists rest k,
    grown d pages rest s s' /\
    ((r = 0 /\ k = span va size) \/ (r = -1 /\ (k < span va size)%nat /\ rest = [])) /\
    forall v, is_u32 v ->
      mapping (km_mem s') d v = mapped_from (mapping (km_mem s) d) (PGROUNDDOWN va) pa perm k v) s.
Proof.
  intros Hk Hs Hva Hsz Hend Hpa Hpend Hperm Hnone.
  assert (exists n, span va size = S n /\
    PGROUNDDOWN (va + size - 1) = PGROUNDDOWN va + PGSIZE * Z.of_nat n) as (n & Hn & Hlast).
  { exists (pred (span va size)). rewrite !PGROUNDDOWN_eq by lia. unfold span, PGSIZE. split; zlia. }
  rewrite Hn in *. unfold mappages. rewrite (u32_small (va + size - 1)) by (unfold is_u32; lia). rewrite Hlast.
  eapply wp_mono; [apply (mappages_loop_ok n _ pages); try done|].
  - rewrite PGROUNDDOWN_eq in * by lia. rewrite u32_small; unfold is_u32, PGSIZE, u32_mod in *; zlia.
  - rewrite PGROUNDDOWN_eq by lia. unfold PGSIZE. zlia.
  - rewrite PGROUNDDOWN_eq by lia. unfold PGSIZE. zlia.
  - rewrite !PGROUNDDOWN_eq in * by lia. unfold PGSIZE, u32_mod in *. zlia.
  - intros r s' (rest & k & Hg & Hr & Hm). exists rest, k. split; [done|]. split; [|done].
    destruct Hr as [?|(? & ? & ?)]; [by left|right; split_and!; (done || lia)].
Qed.


(** ** uva2ka *)

(** What uva2ka answers: the kernel address of a present user page, 0 for an
    entry that is absent or not the user's.  Without a page table it reads
    through the null pointer. *)
Definition uva2ka_spec (m : mem) (d va : Z) : option Z :=
  (fun w => if has w PTE_P && has w PTE_U then PTE_ADDR w + KERNBASE else 0) <$> entry m d va.

Lemma uva2ka_ok pages s d va :
  space_ok pages (km_mem s) d ->
  (forall w, mapping (km_mem s) d va = Some w -> 0 <= PTE_ADDR w < KERNBASE) ->
  uva2ka d va s = match uva2ka_spec (km_mem s) d va with Some a => Done a s | None => Undef s end.
Proof.
  intros Hs Hpa. unfold uva2ka, uva2ka_spec, mapping, entry in *.
  pose proof (PDX_range va). pose proof (PTX_range va).
  destruct (tab (km_mem s) d (PDX va)) as [t|] eqn:Ht.
  - destruct (so_tab _ _ _ Hs (PDX va) t ltac:(done) Ht) as (Hv & _).
    unfold bind. rewrite (walk_present s d va false t pages Hs Ht).
    destruct (Z.eqb_spec (t + 4 * PTX va) 0); [unfold valid_page, KERNBASE in Hv; lia|]. cbn in *.
    destruct (has _ PTE_P) eqn:HP; [|done]. destruct (has _ PTE_U); [|done]. cbn.
    rewrite P2V_ok; [done|]. by apply Hpa.
  - unfold bind. by rewrite (walk_absent s d va pages Hs Ht).
Qed.

End Space.
