(* ===== verification/VmSpace.v ===== *)
(** * Address spaces and the pages they own

    [uframe m d k] is the page behind page number [k] of the user half of the
    address space [d].  [user_ok]: these pages are distinct, and neither free
    nor tables.  deallocuvm and freevm give back exactly the pages that the
    address space owns; allocuvm takes fresh pages; copyuvm makes a copy in
    pages of its own.  Permutations of page lists say that none is lost. *)

From S2P Require Import Prelude Mem KString Kalloc Vm VmInv.

Local Open Scope c_scope.
Local Open Scope Z_scope.

(** Page numbers of the user half *)
Definition NUSER : Z := 524288.

Definition frame (w : Z) : Z := PTE_ADDR w + KERNBASE.

Definition uframe (m : mem) (d k : Z) : option Z := frame <$> mapping m d (PGSIZE * k).

(** The user pages with numbers from [lo] below [hi] *)
Definition frames (m : mem) (d lo hi : Z) : list Z := omap (uframe m d) (seqZ lo (hi - lo)).

(** ** What depends on the tables only *)

Definition same_tables (m m' : mem) (d : Z) : Prop :=
  forall p i, table_page m d p -> 0 <= i < PGSIZE -> m' (p + i) = m (p + i).

Section Space.
Context (kend : Z) (Hkend : KERNBASE < kend).
Local Abbreviation valid := (valid_page kend).

Lemma slot_same m m' p i :
  valid p -> 0 <= i < 1024 -> (forall k, 0 <= k < PGSIZE -> m' (p + k) = m (p + k)) ->
  ld32 m' (p + 4 * i) = ld32 m (p + 4 * i).
Proof.
  intros Hp Hi Heq. apply ld32_same; [by apply (slot_no_wrap kend)|]. intros k Hk.
  rewrite <- Z.add_assoc. apply Heq. unfold PGSIZE. lia.
Qed.

Lemma tab_same pages m m' d i :
  space_ok kend pages m d -> same_tables m m' d -> 0 <= i < 1024 -> tab m' d i = tab m d i.
Proof.
  intros Hs Hsame Hi. unfold tab. rewrite (slot_same m m' d i); [done|apply Hs|done|].
  intros k Hk. apply Hsame; [by left|done].
Qed.

Lemma mapping_same pages m m' d va :
  space_ok kend pages m d -> same_tables m m' d -> mapping m' d va = mapping m d va.
Proof.
  intros Hs Hsame. pose proof (PDX_range va) as Hi. unfold mapping, entry.
  rewrite (tab_same pages m m') by done. destruct (tab m d (PDX va)) as [t|] eqn:Ht; [|done]. simpl.
  rewrite (slot_same m m' t (PTX va)); [done| |apply PTX_range|].
  - by apply (so_tab _ _ _ _ Hs (PDX va) t).
  - intros k Hk. apply Hsame; [right; by exists (PDX va)|done].
Qed.

Lemma table_page_tabs m m' d p :
  (forall i, 0 <= i < 1024 -> tab m' d i = tab m d i) -> table_page m' d p <-> table_page m d p.
Proof.
  intros Heq. unfold table_page. split; (intros [->|(i & Hi & Hp)]; [by left|right; exists i; split; [done|]]).
  - by rewrite <- Heq.
  - by rewrite Heq.
Qed.

Lemma table_page_valid pages m d p : space_ok kend pages m d -> table_page m d p -> valid p /\ p ∉ pages.
Proof.
  intros Hs [->|(i & Hi & Hp)]; [apply Hs|]. by destruct (so_tab _ _ _ _ Hs i p Hi Hp) as (? & ? & _).
Qed.

(** Pages that are no tables may change. *)
Lemma same_tables_page pages m m' d f :
  space_ok kend pages m d -> valid f -> ~ table_page m d f -> page_only f m m' -> same_tables m m' d.
Proof.
  intros Hs Hf Hn Ho p i Hp Hi. apply Ho. apply (byte_elsewhere kend); try done.
  - by eapply table_page_valid.
  - by intros ->.
Qed.

(** ** The invariant of an address space *)

Record user_ok (pages : list Z) (m : mem) (d : Z) : Prop := mkUserOk {
  uo_space : space_ok kend pages m d;
  uo_frame : forall k f, 0 <= k < NUSER -> uframe m d k = Some f -> valid f /\ (f ∉ pages) /\ ~ table_page m d f;
  uo_inj : forall j k f, 0 <= j < NUSER -> 0 <= k < NUSER ->
    uframe m d j = Some f -> uframe m d k = Some f -> j = k;
}.

(** ** Giving pages back *)

(** Between [s] and [s'] the pages with numbers from [lo] below [hi] were
    unmapped and freed, and nothing else. *)
Record unmaps (d lo hi : Z) (pages pages' : list Z) (s s' : kmem) : Prop := mkUnmaps {
  un_kmem : kmem_ok kend pages' s';
  un_user : user_ok pages' (km_mem s') d;
  un_pages : pages' ≡ₚ frames (km_mem s) d lo hi ++ pages;
  un_lock : km_use_lock s' = km_use_lock s;
  un_tabs : forall i, 0 <= i < 1024 -> tab (km_mem s') d i = tab (km_mem s) d i;
  un_map : forall va, is_u32 va -> mapping (km_mem s') d va =
    if decide (lo <= va / PGSIZE < hi) then None else mapping (km_mem s) d va;
  un_frame : forall a, ~ in_tables (frames (km_mem s) d lo hi) (km_mem s) d a -> km_mem s' a = km_mem s a;
}.

Lemma user_page_u32 k : 0 <= k < NUSER -> is_u32 (PGSIZE * k) /\ PGSIZE * k / PGSIZE = k.
Proof. unfold NUSER, is_u32, u32_mod, PGSIZE. intros Hk. split; [lia|zlia]. Qed.

(** Frames depend on the mapping alone. *)
Lemma frames_ext m m' d lo hi :
  0 <= lo -> hi <= NUSER -> (forall va, is_u32 va -> lo <= va / PGSIZE < hi -> mapping m' d va = mapping m d va) ->
  frames m' d lo hi = frames m d lo hi.
Proof.
  intros Hlo Hhi Heq. unfold frames. apply omap_same. intros k Hk%elem_of_seqZ.
  destruct (user_page_u32 k) as [Hu Hk']; [lia|]. unfold uframe. rewrite Heq; [done|done|]. rewrite Hk'. lia.
Qed.

Lemma frames_split m d lo mid hi : lo <= mid <= hi -> frames m d lo hi = frames m d lo mid ++ frames m d mid hi.
Proof.
  intros H. unfold frames. rewrite <- omap_app. f_equal.
  replace (hi - lo) with ((mid - lo) + (hi - mid)) by lia. rewrite seqZ_app by lia. do 3 f_equal. lia.
Qed.

Lemma frames_none m d lo hi : (forall k, lo <= k < hi -> uframe m d k = None) -> frames m d lo hi = [].
Proof.
  intros H. unfold frames. rewrite (omap_same (fun _ => None)); [by induction (seqZ _ _)|].
  intros k Hk%elem_of_seqZ. apply H. lia.
Qed.

Lemma elem_of_frames m d lo hi f : f ∈ frames m d lo hi <-> exists k, lo <= k < hi /\ uframe m d k = Some f.
Proof.
  unfold frames. rewrite list_elem_of_omap. split.
  - intros (k & Hk%elem_of_seqZ & Hf). exists k. split; [lia|done].
  - intros (k & Hk & Hf). exists k. split; [|done]. apply elem_of_seqZ. lia.
Qed.

Lemma unmaps_none d lo hi pages s :
  kmem_ok kend pages s -> user_ok pages (km_mem s) d ->
  (forall va, is_u32 va -> lo <= va / PGSIZE < hi -> mapping (km_mem s) d va = None) -> 0 <= lo -> hi <= NUSER ->
  unmaps d lo hi pages pages s s.
Proof.
  intros Hk Hu Hnone Hlo Hhi. split; try done.
  - rewrite frames_none; [done|]. intros k Hk'. destruct (user_page_u32 k) as [Hu32 Hdiv]; [lia|].
    unfold uframe. rewrite Hnone; [done|done|]. by rewrite Hdiv.
  - intros va Hva. destruct (decide _); [|done]. by apply Hnone.
Qed.

Lemma unmaps_trans d lo mid hi p0 p1 p2 s0 s1 s2 :
  0 <= lo <= mid -> mid <= hi <= NUSER -> unmaps d lo mid p0 p1 s0 s1 -> unmaps d mid hi p1 p2 s1 s2 ->
  unmaps d lo hi p0 p2 s0 s2.
Proof.
  intros Hlo Hhi [K1 U1 P1 L1 T1 M1 F1] [K2 U2 P2 L2 T2 M2 F2].
  assert (frames (km_mem s1) d mid hi = frames (km_mem s0) d mid hi) as Hfr.
  { apply frames_ext; [lia|lia|]. intros va Hva Hr. rewrite M1 by done. by rewrite decide_False by lia. }
  split; try done.
  - rewrite P2, P1, Hfr, (frames_split _ d lo mid hi) by lia. rewrite (assoc_L (++)).
    apply Permutation_app_tail. apply Permutation_app_comm.
  - congruence.
  - intros i Hi. by rewrite T2, T1.
  - intros va Hva. rewrite M2, M1 by done. repeat destruct (decide _); (done || lia).
  - intros a Ha. rewrite F2, F1; [done|..]; intros (p & Hp & Hr); apply Ha; exists p; split; try done.
    + destruct Hp as [Hp|Hp]; [left|by right]. rewrite (frames_split _ d lo mid hi) by lia. set_solver.
    + rewrite Hfr in Hp. destruct Hp as [Hp|Hp]; [left|right].
      * rewrite (frames_split _ d lo mid hi) by lia. set_solver.
      * by apply (table_page_tabs (km_mem s0) (km_mem s1) d p T1).
Qed.

(** One present page *)
Lemma mapping_Some m d va w :
  mapping m d va = Some w -> exists t, tab m d (PDX va) = Some t /\ ld32 m (t + 4 * PTX va) = w /\ has w PTE_P = true.
Proof.
  unfold mapping, entry. destruct (tab m d (PDX va)) as [t|]; [|done]. simpl.
  destruct (has _ PTE_P) eqn:HP; [|done]. intros [= <-]. by exists t.
Qed.

Lemma frames_one m d k f : uframe m d k = Some f -> frames m d k (k + 1) = [f].
Proof. intros Hf. unfold frames. replace (k + 1 - k) with 1 by lia. rewrite seqZ_cons by lia. cbn. by rewrite Hf. Qed.

(** The entry of page [k] cleared, in a memory [m1] that has the tables of [m] *)
Lemma clear_mapping pages m m1 d k t :
  space_ok kend pages m d -> same_tables m m1 d -> 0 <= k < NUSER -> tab m d (PDX (PGSIZE * k)) = Some t ->
  let m2 := st32 m1 (t + 4 * PTX (PGSIZE * k)) 0 in
  (forall i, 0 <= i < 1024 -> tab m2 d i = tab m d i) /\
  (forall va, is_u32 va -> mapping m2 d va =
    if decide (k <= va / PGSIZE < k + 1) then None else mapping m d va) /\
  (forall a, ~ (t <= a < t + PGSIZE) -> m2 a = m1 a).
Proof.
  intros Hs Hsame Hk Ht m2. destruct (user_page_u32 k Hk) as [Hva Hdiv].
  assert (space_ok kend pages m1 d) as Hs1.
  { eapply space_ok_ext; [|exact Hs]. intros i Hi. by eapply tab_same. }
  assert (tab m1 d (PDX (PGSIZE * k)) = Some t) as Ht1 by (rewrite <- Ht; eapply tab_same; try done; apply PDX_range).
  split_and!.
  - intros i Hi. unfold m2. rewrite (store_tab kend pages) by done. by eapply tab_same.
  - intros va Hva'. unfold m2, mapping. rewrite (store_entry kend pages) by done. rewrite Hdiv.
    destruct (decide (va / PGSIZE = k)); [rewrite decide_True by lia; done|].
    rewrite decide_False by lia. by apply (mapping_same pages m m1).
  - intros a Ha. by apply (store_frame kend pages m1 d).
Qed.

(** [uframe] after pages have been unmapped *)
Lemma uframe_unmapped m m' d lo hi k f :
  (forall va, is_u32 va -> mapping m' d va = if decide (lo <= va / PGSIZE < hi) then None else mapping m d va) ->
  0 <= k < NUSER -> uframe m' d k = Some f -> uframe m d k = Some f /\ ~ (lo <= k < hi).
Proof.
  intros Hm Hk. destruct (user_page_u32 k Hk) as [Hu Hdiv]. unfold uframe. rewrite Hm, Hdiv by done.
  by destruct (decide _).
Qed.

Lemma free_one pages s d k w t :
  kmem_ok kend pages s -> user_ok pages (km_mem s) d -> 0 <= k < NUSER ->
  mapping (km_mem s) d (PGSIZE * k) = Some w -> tab (km_mem s) d (PDX (PGSIZE * k)) = Some t ->
  wp (kfree kend (frame w) ;; stw (t + 4 * PTX (PGSIZE * k)) 0)
    (fun _ s' => unmaps d k (k + 1) pages (frame w :: pages) s s') s.
Proof.
  intros Hk Hu Hkr Hw Ht. pose proof (uo_space _ _ _ Hu) as Hs.
  assert (uframe (km_mem s) d k = Some (frame w)) as Hf by (unfold uframe; by rewrite Hw).
  destruct (uo_frame _ _ _ Hu k _ Hkr Hf) as (Hv & Hn & Hnt). apply wp_bind.
  eapply wp_mono; [by apply (kfree_ok kend pages)|]. intros _ s1 (Hk1 & Hl1 & Ho & _).
  pose proof (same_tables_page pages (km_mem s) (km_mem s1) d _ Hs Hv Hnt Ho) as Hsame.
  destruct (clear_mapping pages (km_mem s) (km_mem s1) d k t Hs Hsame Hkr Ht) as (Htab & Hmap & Hfr).
  assert (table_page (km_mem s) d t) as Htp by (right; eexists; split; [apply PDX_range|done]).
  destruct (table_page_valid pages _ _ _ Hs Htp) as [Htv Htn].
  apply wp_modify. split; try done.
  - apply kmem_ok_frame; [done|]. intros p i Hp Hi. apply Hfr. apply (byte_elsewhere kend); try done.
    + by apply (freelist_valid kend _ _ _ p (ko_list _ _ _ Hk1)).
    + intros ->. apply elem_of_cons in Hp as [->|Hp]; done.
  - cbn [km_mem set_km_mem]. split.
    + eapply space_ok_ext; [exact Htab|]. destruct Hs as [[Hd Hdn] Hst Hsi]. split; [split; [done|]|..|done].
      * intros [->|?]%elem_of_cons; [|done]. apply Hnt. by left.
      * intros i q Hi Hq. destruct (Hst i q Hi Hq) as (? & ? & ?). split_and!; try done.
        intros [->|?]%elem_of_cons; [|done]. apply Hnt. right. by exists i.
    + intros j f Hj Hjf. destruct (uframe_unmapped _ _ _ _ _ _ _ Hmap Hj Hjf) as [Hjf' Hjk].
      destruct (uo_frame _ _ _ Hu j f Hj Hjf') as (? & ? & Hjn). split_and!; try done.
      * intros [->|?]%elem_of_cons; [|done]. apply Hjk. rewrite (uo_inj _ _ _ Hu j k _ Hj Hkr Hjf' Hf). lia.
      * by rewrite (table_page_tabs _ _ _ _ Htab).
    + intros j j' f Hj Hj' Hjf Hjf'. destruct (uframe_unmapped _ _ _ _ _ _ _ Hmap Hj Hjf) as [H1 _].
      destruct (uframe_unmapped _ _ _ _ _ _ _ Hmap Hj' Hjf') as [H2 _]. by eapply (uo_inj _ _ _ Hu).
  - by rewrite (frames_one _ _ _ _ Hf).
  - intros a Ha. rewrite (frames_one _ _ _ _ Hf) in Ha. cbn [km_mem set_km_mem]. rewrite Hfr.
    + apply Ho. intros Hr. apply Ha. exists (frame w). split; [left; left|done].
    + intros Hr. apply Ha. exists t. split; [by right|done].
Qed.

(** ** deallocuvm *)

(** The first page of the next page table *)
Lemma next_table k :
  0 <= k < NUSER ->
  u32 (u32 (PGADDR (PDX (PGSIZE * k) + 1) 0 0 - PGSIZE) + PGSIZE) = PGSIZE * ((k / 1024 + 1) * 1024).
Proof.
  intros Hk. destruct (user_page_u32 k Hk) as [Hu _]. rewrite PDX_eq by done.
  replace (PGSIZE * k / 4194304) with (k / 1024) by (unfold PGSIZE; zlia).
  assert (PGADDR (k / 1024 + 1) 0 0 = (k / 1024 + 1) * 4194304) as ->.
  { unfold PGADDR. rewrite Z.shiftl_0_l, !Z.lor_0_r, Z.shiftl_mul_pow2 by (unfold PDXSHIFT; lia).
    change (2 ^ PDXSHIFT) with 4194304. apply u32_small. unfold is_u32, u32_mod, NUSER in *. zlia. }
  unfold PGSIZE, NUSER in *. rewrite (u32_small (_ - 4096)) by (unfold is_u32, u32_mod; zlia).
  rewrite u32_small by (unfold is_u32, u32_mod; zlia). lia.
Qed.

(** No table, no page up to the next one *)
Lemma no_table_no_page m d k va :
  0 <= k < NUSER -> is_u32 va -> tab m d (PDX (PGSIZE * k)) = None -> k <= va / PGSIZE < (k / 1024 + 1) * 1024 ->
  mapping m d va = None.
Proof.
  intros Hk Hva Hn Hr. destruct (user_page_u32 k Hk) as [Hu _]. unfold mapping, entry.
  replace (PDX va) with (PDX (PGSIZE * k)); [by rewrite Hn|]. rewrite !PDX_eq by done. unfold PGSIZE in *. zlia.
Qed.

Lemma unmaps_empty d lo lo' hi pages pages' s s' :
  hi <= lo -> hi <= lo' -> unmaps d lo hi pages pages' s s' -> unmaps d lo' hi pages pages' s s'.
Proof.
  intros H H' [K U P L T M F].
  assert (frames (km_mem s) d lo' hi = frames (km_mem s) d lo hi) as Hfr.
  { unfold frames. by rewrite !(seqZ_nil _ (hi - _)) by lia. }
  split; rewrite ?Hfr; try done. intros va Hva. rewrite M by done. by rewrite !decide_False by lia.
Qed.

Lemma deallocuvm_loop_ok fuel : forall pages s d k hi oldsz,
  kmem_ok kend pages s -> user_ok pages (km_mem s) d -> 0 <= k -> hi <= NUSER ->
  (forall j, 0 <= j -> PGSIZE * j < oldsz <-> j < hi) -> hi - k < Z.of_nat fuel -> (0 < fuel)%nat ->
  wp (deallocuvm_loop kend fuel d (PGSIZE * k) oldsz)
    (fun _ s' => exists pages', unmaps d k hi pages pages' s s') s.
Proof using Hkend.
  induction fuel as [|fuel IH]; [lia|]. intros pages s d k hi oldsz Hk Hu Hk0 Hhi Hsz Hfuel _.
  cbn [deallocuvm_loop]. destruct (Z.ltb_spec (PGSIZE * k) oldsz) as [Hlt|Hge].
  2: { apply wp_ret. exists pages. apply unmaps_none; try done. intros va _ Hr.
       assert (k < hi) as Hlt by lia. apply Hsz in Hlt; lia. }
  assert (k < hi) as Hkhi by (by apply Hsz). pose proof (uo_space _ _ _ Hu) as Hs.
  assert (0 <= k < NUSER) as Hkr by lia. destruct (user_page_u32 k Hkr) as [Hva Hdiv].
  assert (forall pages1 s1 k1, k < k1 -> unmaps d k (k1 `min` hi) pages pages1 s s1 ->
    wp (deallocuvm_loop kend fuel d (PGSIZE * k1) oldsz) (fun _ s' => exists pages', unmaps d k hi pages pages' s s') s1) as Hgo.
  { intros pages1 s1 k1 Hk1 Hun. eapply wp_mono; [apply (IH pages1 s1 d k1 hi); try apply Hun; try done; lia|].
    intros _ s' [pages' Hun']. exists pages'. eapply (unmaps_trans d k (k1 `min` hi)); [lia|lia|done|].
    destruct (Z.min_spec k1 hi) as [[_ ->]|[Hle ->]]; [done|]. by apply (unmaps_empty d k1). }
  destruct (tab (km_mem s) d (PDX (PGSIZE * k))) as [t|] eqn:Ht; apply wp_bind.
  2: { eapply wp_intro; [by eapply walk_absent|]. cbn [Z.eqb]. rewrite next_table by done.
       apply (Hgo pages s); [zlia|]. apply unmaps_none; try done; [|lia].
       intros va Hva' Hr. eapply (no_table_no_page _ d k); [done..|lia]. }
  eapply wp_intro; [by eapply walk_present|]. pose proof (PTX_range (PGSIZE * k)).
  destruct (so_tab _ _ _ _ Hs _ t (PDX_range _) Ht) as (Htv & _ & _).
  destruct (Z.eqb_spec (t + 4 * PTX (PGSIZE * k)) 0); [unfold valid_page, KERNBASE in *; lia|].
  apply wp_bind, wp_gets, wp_bind. replace (u32 (PGSIZE * k + PGSIZE)) with (PGSIZE * (k + 1))
    by (rewrite u32_small; unfold is_u32, u32_mod, NUSER, PGSIZE in *; lia).
  destruct (has (ld32 (km_mem s) (t + 4 * PTX (PGSIZE * k))) PTE_P) eqn:HP.
  - assert (mapping (km_mem s) d (PGSIZE * k) = Some (ld32 (km_mem s) (t + 4 * PTX (PGSIZE * k)))) as Hw
      by (unfold mapping, entry; rewrite Ht; simpl; by rewrite HP).
    set (w := ld32 (km_mem s) (t + 4 * PTX (PGSIZE * k))) in *.
    assert (uframe (km_mem s) d k = Some (frame w)) as Hf by (unfold uframe; by rewrite Hw).
    destruct (uo_frame _ _ _ Hu k _ Hkr Hf) as (Hv & _). unfold frame in Hv.
    pose proof (valid_aligned kend _ Hv) as [_ Hr].
    destruct (Z.eqb_spec (PTE_ADDR w) 0); [unfold valid_page in Hv; lia|]. apply wp_bind.
    eapply wp_intro; [apply P2V_ok; unfold KERNBASE, PHYSTOP in *; lia|].
    eapply wp_mono; [by apply (free_one pages s d k w t)|]. intros [] s1 Hun. eapply Hgo; [lia|].
    by rewrite Z.min_l by lia.
  - apply wp_ret. apply (Hgo pages s); [lia|]. rewrite Z.min_l by lia. apply unmaps_none; try done; [|lia].
    intros va Hva' Hr. unfold mapping, entry. assert (va / PGSIZE = PGSIZE * k / PGSIZE) as Heq by lia.
    apply same_slot in Heq as [-> ->]; [|done..]. rewrite Ht. simpl. by rewrite HP.
Qed.

(** Pages that [sz] bytes need *)
Definition npages (sz : Z) : Z := (sz + PGSIZE - 1) / PGSIZE.

Lemma npages_spec sz j : 0 <= j -> PGSIZE * j < sz <-> j < npages sz.
Proof. intros Hj. unfold npages, PGSIZE. zlia. Qed.

Lemma PGROUNDUP_npages sz : 0 <= sz <= KERNBASE -> PGROUNDUP sz = PGSIZE * npages sz.
Proof. intros H. apply PGROUNDUP_eq; unfold PGSIZE, KERNBASE, u32_mod in *; lia. Qed.

Lemma deallocuvm_ok pages s d oldsz newsz :
  kmem_ok kend pages s -> user_ok pages (km_mem s) d -> 0 <= newsz -> oldsz <= KERNBASE ->
  wp (deallocuvm kend d oldsz newsz) (fun r s' => r = Z.min oldsz newsz /\
    exists pages', unmaps d (npages newsz) (npages oldsz) pages pages' s s') s.
Proof using Hkend.
  intros Hk Hu Hnew Hold. unfold deallocuvm.
  assert (npages oldsz <= NUSER) by (unfold npages, NUSER, PGSIZE, KERNBASE in *; zlia).
  assert (0 <= npages newsz) by (unfold npages, PGSIZE in *; zlia).
  destruct (Z.leb_spec oldsz newsz) as [Hle|Hlt].
  - apply wp_ret. split; [lia|]. exists pages. apply unmaps_none; try done.
    intros va _ Hr. unfold npages, PGSIZE in *. zlia.
  - rewrite PGROUNDUP_npages by lia. apply wp_bind.
    eapply wp_mono; [apply (deallocuvm_loop_ok _ pages s d (npages newsz) (npages oldsz)); try done|].
    + intros j Hj. by apply npages_spec.
    + unfold npages, PGSIZE in *. zlia.
    + lia.
    + intros [] s' Hun. apply wp_ret. split; [lia|done].
Qed.

(** ** freevm *)

(** The tables at the directory entries [l] have been freed. *)
Definition tabs_at (m : mem) (d : Z) (l : list nat) : list Z := omap (tab m d) (Z.of_nat <$> l).

Record tables_freed (pages : list Z) (d : Z) (l : list nat) (s s' : kmem) : Prop := mkTablesFreed {
  tf_kmem : exists pages', kmem_ok kend pages' s' /\ pages' ≡ₚ tabs_at (km_mem s) d l ++ pages;
  tf_lock : km_use_lock s' = km_use_lock s;
  tf_frame : forall a, ~ (exists t, t ∈ tabs_at (km_mem s) d l /\ t <= a < t + PGSIZE) -> km_mem s' a = km_mem s a;
}.

Lemma elem_of_tabs_at m d l t : t ∈ tabs_at m d l <-> exists i, i ∈ l /\ tab m d (Z.of_nat i) = Some t.
Proof.
  unfold tabs_at. rewrite list_elem_of_omap. split.
  - intros (z & (i & -> & Hi)%list_elem_of_fmap & Ht). by exists i.
  - intros (i & Hi & Ht). exists (Z.of_nat i). split; [by apply list_elem_of_fmap_2|done].
Qed.

(** The directory is still there. *)
Lemma tables_freed_tab pages d l s s' i :
  space_ok kend pages (km_mem s) d -> (forall j, j ∈ l -> (j < 1024)%nat) -> tables_freed pages d l s s' ->
  0 <= i < 1024 -> ld32 (km_mem s') (d + 4 * i) = ld32 (km_mem s) (d + 4 * i).
Proof.
  intros Hs Hl Hf Hi. apply slot_same; [apply Hs|done|]. intros k Hk. apply (tf_frame _ _ _ _ _ Hf).
  intros (t & (j & Hj & Ht)%elem_of_tabs_at & Hr). specialize (Hl j Hj).
  destruct (so_tab _ _ _ _ Hs (Z.of_nat j) t ltac:(lia) Ht) as (Hv & _ & Hne).
  eapply (byte_elsewhere kend d t k); [apply Hs|done|congruence|done|done].
Qed.

Lemma free_table_step pages d l i s s1 :
  space_ok kend pages (km_mem s) d -> (forall j, j ∈ l -> (j < 1024)%nat) -> (i ∉ l) -> (i < 1024)%nat ->
  tables_freed pages d l s s1 ->
  wp (w <- ldw (padd d (4 * Z.of_nat i)) ;;
      when (has w PTE_P) (v <- P2V (PTE_ADDR w) ;; kfree kend v))
    (fun _ s2 => tables_freed pages d (l ++ [i]) s s2) s1.
Proof.
  intros Hs Hl Hil Hi Hf. apply wp_bind, wp_gets. rewrite (slot_small kend) by (apply Hs || lia).
  rewrite (tables_freed_tab pages d l s s1) by (done || lia). destruct Hf as [(pages1 & Hk1 & Hp1) Hl1 Hf1].
  assert (tabs_at (km_mem s) d (l ++ [i]) = tabs_at (km_mem s) d l ++ option_list (tab (km_mem s) d (Z.of_nat i))) as Happ.
  { unfold tabs_at. rewrite fmap_app, omap_app. done. }
  destruct (has _ PTE_P) eqn:HP.
  2: { apply wp_ret. unfold tab in Happ. rewrite HP, app_nil_r in Happ.
       split; rewrite ?Happ; try done. by exists pages1. }
  set (w := ld32 (km_mem s) (d + 4 * Z.of_nat i)) in *.
  assert (tab (km_mem s) d (Z.of_nat i) = Some (frame w)) as Ht.
  { unfold tab. fold w. by rewrite HP. }
  destruct (so_tab _ _ _ _ Hs (Z.of_nat i) _ ltac:(lia) Ht) as (Hv & Hn & _).
  pose proof (valid_aligned kend _ Hv) as [_ Hr]. unfold frame in Hr. rewrite Ht in Happ. cbn in Happ.
  apply wp_bind. eapply wp_intro; [apply P2V_ok; unfold KERNBASE, PHYSTOP in *; lia|].
  eapply wp_mono; [apply (kfree_ok kend pages1); try done|].
  - rewrite Hp1. intros [(j & Hj & Hjt)%elem_of_tabs_at|]%elem_of_app; [|done]. apply Hil.
    specialize (Hl j Hj). assert (Z.of_nat j = Z.of_nat i) as Heq by (eapply (so_inj _ _ _ _ Hs); (done || lia)).
    apply Nat2Z.inj in Heq. by subst.
  - intros [] s2 (Hk2 & Hl2 & Ho & _). split.
    + eexists. split; [exact Hk2|]. rewrite Happ, Hp1, <- (assoc_L (++)). cbn. apply Permutation_middle.
    + congruence.
    + intros a Ha. rewrite Happ in Ha. rewrite Ho, Hf1; [done|..].
      * intros (t & Ht' & Hr'). apply Ha. exists t. split; [set_solver|done].
      * intros Hr'. apply Ha. exists (frame w). split; [set_solver|done].
Qed.

Lemma free_tables_ok pages s d :
  kmem_ok kend pages s -> space_ok kend pages (km_mem s) d ->
  wp (for_each (seq 0 (Z.to_nat NPDENTRIES)) (fun i =>
        w <- ldw (padd d (4 * Z.of_nat i)) ;;
        when (has w PTE_P) (v <- P2V (PTE_ADDR w) ;; kfree kend v)))
    (fun _ s' => tables_freed pages d (seq 0 1024) s s') s.
Proof.
  intros Hk Hs. change (Z.to_nat NPDENTRIES) with 1024%nat.
  apply (wp_for_each (fun l s' => tables_freed pages d l s s')); [|intros l i todo s1 Hl Hf|done].
  - split; [by exists pages|done..].
  - assert (forall j, j ∈ l ++ i :: todo -> (j < 1024)%nat) as Hlt by (rewrite <- Hl; intros j [_ Hj]%elem_of_seq; lia).
    pose proof (NoDup_seq 0 1024) as Hnd. rewrite Hl in Hnd. apply NoDup_app in Hnd as (_ & Hnd & _).
    apply free_table_step; try done.
    + intros j Hj. apply Hlt, elem_of_app. by left.
    + intros Hi. apply (Hnd i Hi). left.
    + apply Hlt, elem_of_app. right. left.
Qed.

Lemma tabs_at_all m d : tabs_at m d (seq 0 1024) = tables m d.
Proof. unfold tabs_at, tables, seqZ. f_equal. Qed.

Lemma tables_ext m m' d : (forall i, 0 <= i < 1024 -> tab m' d i = tab m d i) -> tables m' d = tables m d.
Proof. intros H. unfold tables. apply omap_same. intros i Hi%elem_of_seqZ. apply H. lia. Qed.

Lemma elem_of_tables m d t : t ∈ tables m d <-> exists i, 0 <= i < 1024 /\ tab m d i = Some t.
Proof.
  unfold tables. rewrite list_elem_of_omap. split; intros (i & Hi & Ht); exists i; (split; [|done]).
  - apply elem_of_seqZ in Hi. lia.
  - apply elem_of_seqZ. lia.
Qed.

#[local] Opaque frames tables tabs_at seqZ.

(** freevm gives back every page of the address space. *)
Lemma freevm_ok pages s d :
  kmem_ok kend pages s -> user_ok pages (km_mem s) d ->
  wp (freevm kend d) (fun _ s' => exists pages', kmem_ok kend pages' s' /\
    pages' ≡ₚ d :: tables (km_mem s) d ++ frames (km_mem s) d 0 NUSER ++ pages /\ km_use_lock s' = km_use_lock s /\
    forall a, ~ in_tables (frames (km_mem s) d 0 NUSER) (km_mem s) d a -> km_mem s' a = km_mem s a) s.
Proof using Hkend.
  intros Hk Hu. destruct (so_dir _ _ _ _ (uo_space _ _ _ Hu)) as [Hd Hdn]. unfold freevm.
  destruct (Z.eqb_spec d 0); [unfold valid_page, KERNBASE in Hd; lia|]. apply wp_bind.
  eapply wp_mono; [by apply (deallocuvm_ok pages s d KERNBASE 0)|].
  intros r s1 (_ & pages1 & [K1 U1 P1 L1 T1 M1 F1]).
  assert (npages 0 = 0) as E0 by reflexivity. assert (npages KERNBASE = NUSER) as E1 by reflexivity.
  rewrite E0, E1 in *.
  apply wp_bind. eapply wp_mono; [by apply (free_tables_ok pages1 s1 d); [|apply U1]|].
  intros [] s2 [(pages2 & Hk2 & Hp2) Hl2 Hf2]. rewrite tabs_at_all in *.
  pose proof (tables_ext _ _ _ T1) as Htabs.
  assert (d ∉ tables (km_mem s1) d) as Hdt.
  { intros (i & Hi & Ht)%elem_of_tables. by destruct (so_tab _ _ _ _ (uo_space _ _ _ U1) i d Hi Ht) as (_ & _ & ?). }
  destruct (so_dir _ _ _ _ (uo_space _ _ _ U1)) as [_ Hdn1].
  eapply wp_mono; [apply (kfree_ok kend pages2); try done; rewrite Hp2; set_solver|].
  intros [] s3 (Hk3 & Hl3 & Ho3 & _). eexists. split; [exact Hk3|]. split_and!.
  - by rewrite Hp2, P1, Htabs.
  - congruence.
  - intros a Ha. rewrite Ho3, Hf2, F1; [done|done|..].
    + intros (t & Ht & Hr). apply Ha. exists t. split; [right; right|done]. rewrite Htabs in Ht.
      by apply elem_of_tables.
    + intros Hr. apply Ha. exists d. split; [by right; left|done].
Qed.
End Space.
