(* ===== verification/VmAlloc.v ===== *)
(** * Growing an address space

    allocuvm maps fresh zeroed pages, or fails and leaves the mapping as it
    was.  [owned m d]: the tables and user pages of [d]; together with the
    free pages they stay the same pages through success and failure. *)

From S2P Require Import Prelude Mem KString Kalloc Vm VmInv VmSpace.

Local Open Scope c_scope.
Local Open Scope Z_scope.

Definition owned (m : mem) (d : Z) : list Z := tables m d ++ frames m d 0 NUSER.

Lemma frames_new m m' d k p :
  0 <= k < NUSER -> uframe m d k = None -> uframe m' d k = Some p ->
  (forall j, 0 <= j < NUSER -> j <> k -> uframe m' d j = uframe m d j) ->
  frames m' d 0 NUSER ≡ₚ p :: frames m d 0 NUSER.
Proof.
  intros Hk Hn Hs Heq. unfold frames. apply (omap_new _ _ _ k); try done.
  - apply NoDup_seqZ.
  - apply elem_of_seqZ. lia.
  - intros j Hj%elem_of_seqZ. apply Heq. lia.
Qed.

Lemma frames_eq m m' d :
  (forall k, 0 <= k < NUSER -> uframe m' d k = uframe m d k) -> frames m' d 0 NUSER = frames m d 0 NUSER.
Proof. intros H. unfold frames. apply omap_same. intros k Hk%elem_of_seqZ. apply H. lia. Qed.

(** An address whose page number is [k] *)
Lemma uframe_mapping m m' d k :
  0 <= k < NUSER -> (forall va, is_u32 va -> va / PGSIZE = k -> mapping m' d va = mapping m d va) ->
  uframe m' d k = uframe m d k.
Proof. intros Hk H. destruct (user_page_u32 k Hk) as [Hu Hd]. unfold uframe. by rewrite H. Qed.

Lemma frame_pte kend p perm : valid_page kend p -> 0 <= perm < PGSIZE -> frame (pte_word (p - KERNBASE) perm) = p.
Proof.
  intros Hp Hperm. pose proof (valid_aligned kend p Hp) as [Hal Hr]. unfold frame, pte_word.
  rewrite <- Z.lor_assoc. assert (0 <= Z.lor perm PTE_P < PGSIZE) as Hf.
  { unfold PTE_P, PGSIZE in *. change 4096 with (2 ^ 12). split; [apply Z.lor_nonneg; lia|].
    destruct (Z.eq_dec (Z.lor perm 1) 0) as [->|Hne]; [lia|].
    assert (0 <= Z.lor perm 1) by (apply Z.lor_nonneg; lia). apply Z.log2_lt_pow2; [lia|].
    rewrite Z.log2_lor by lia. apply Z.max_lub_lt; [|done]. destruct (Z.eq_dec perm 0) as [->|]; [done|].
    apply Z.log2_lt_pow2; lia. }
  destruct (entry_addr (p - KERNBASE) (Z.lor perm PTE_P)) as [-> _]; [lia|done|done|]. lia.
Qed.

#[local] Opaque frames tables memset.

Section Alloc.
Context (kend : Z) (Hkend : KERNBASE < kend).
Local Abbreviation valid := (valid_page kend).

Lemma user_ok_suffix pages rest m d : rest `suffix_of` pages -> user_ok kend pages m d -> user_ok kend rest m d.
Proof.
  intros [l ->] [[Hd Ht Hi] Hf Hj]. split; [split|..]; try done.
  - set_solver.
  - intros i t Hi' Hit. destruct (Ht i t Hi' Hit) as (? & ? & ?). set_solver.
  - intros k f Hk Hkf. destruct (Hf k f Hk Hkf) as (? & ? & ?). set_solver.
Qed.

(** A page that is neither a table nor a user page may change. *)
Lemma user_ok_same pages m m' d : user_ok kend pages m d -> same_tables m m' d -> user_ok kend pages m' d.
Proof.
  intros [Hs Hf Hi] Hsame.
  assert (forall i, 0 <= i < 1024 -> tab m' d i = tab m d i) as Htab by (intros i Hir; by eapply tab_same).
  assert (forall k, uframe m' d k = uframe m d k) as Hu by (intros k; unfold uframe; by rewrite (mapping_same kend pages m m')).
  split.
  - by eapply space_ok_ext.
  - intros k f Hk. rewrite Hu. intros Hkf. rewrite (table_page_tabs m m') by done. by apply (Hf k f).
  - intros j k f Hj Hk. rewrite !Hu. by apply Hi.
Qed.

(** The new tables of a grown address space are none of its user pages. *)
Lemma grown_user d pages rest s s' :
  user_ok kend pages (km_mem s) d -> grown kend d pages rest s s' ->
  (forall k, 0 <= k < NUSER -> uframe (km_mem s') d k = uframe (km_mem s) d k) ->
  user_ok kend rest (km_mem s') d.
Proof.
  intros Hu Hg Heq. split; [apply Hg|..].
  - intros k f Hk. rewrite Heq by done. intros Hkf. destruct (uo_frame _ _ _ _ Hu k f Hk Hkf) as (Hv & Hn & Ht).
    split_and!; [done|..].
    + destruct (gr_suffix _ _ _ _ _ _ Hg) as [l ->]. set_solver.
    + by intros [?|?]%(gr_tabs _ _ _ _ _ _ Hg).
  - intros j k f Hj Hk. rewrite !Heq by done. by apply (uo_inj _ _ _ _ Hu).
Qed.

Lemma page_mapping m d va k : 0 <= k < NUSER -> is_u32 va -> va / PGSIZE = k -> mapping m d va = mapping m d (PGSIZE * k).
Proof.
  intros Hk Hva Hd. destruct (user_page_u32 k Hk) as [Hu Hdiv]. unfold mapping, entry.
  assert (va / PGSIZE = PGSIZE * k / PGSIZE) as Heq by lia. by apply same_slot in Heq as [-> ->].
Qed.

(** A page of its own for page number [k] *)
Definition fresh_page (rest : list Z) (m : mem) (d p : Z) : Prop :=
  valid p /\ (p ∉ rest) /\ ~ table_page m d p /\ forall j, 0 <= j < NUSER -> uframe m d j <> Some p.

(** [p] is what page number [k] is mapped to. *)
Definition mapped_page (m m' : mem) (d k p perm : Z) : Prop :=
  forall va, is_u32 va -> mapping m' d va =
    if decide (va / PGSIZE = k) then Some (pte_word (p - KERNBASE) perm) else mapping m d va.

Lemma mapped_page_user d rest rest' s s' k p perm :
  user_ok kend rest (km_mem s) d -> grown kend d rest rest' s s' -> fresh_page rest (km_mem s) d p ->
  0 <= k < NUSER -> uframe (km_mem s) d k = None -> 0 <= perm < PGSIZE ->
  mapped_page (km_mem s) (km_mem s') d k p perm ->
  user_ok kend rest' (km_mem s') d /\ rest' ++ owned (km_mem s') d ≡ₚ p :: rest ++ owned (km_mem s) d.
Proof.
  intros Hu Hg (Hv & Hn & Hnt & Hnf) Hk Hnone Hperm Hmap.
  assert (uframe (km_mem s') d k = Some p) as Hnew.
  { destruct (user_page_u32 k Hk) as [Hva Hd]. unfold uframe. rewrite Hmap, decide_True by done. cbn.
    f_equal. by apply (frame_pte kend). }
  assert (forall j, 0 <= j < NUSER -> j <> k -> uframe (km_mem s') d j = uframe (km_mem s) d j) as Hold.
  { intros j Hj Hjk. apply uframe_mapping; [done|]. intros va Hva Hd. by rewrite Hmap, decide_False by (done || lia). }
  assert (forall j f, 0 <= j < NUSER -> uframe (km_mem s') d j = Some f ->
    (j = k /\ f = p) \/ (j <> k /\ uframe (km_mem s) d j = Some f)) as Hcase.
  { intros j f Hj Hjf. destruct (Z.eq_dec j k) as [->|Hjk]; [left; split; [done|congruence]|right].
    rewrite Hold in Hjf by done. done. }
  split.
  - split; [apply Hg|..].
    + intros j f Hj Hjf. destruct (Hcase j f Hj Hjf) as [(-> & ->)|(_ & Hjf')].
      * split_and!; [done| |by intros [?|?]%(gr_tabs _ _ _ _ _ _ Hg)].
        destruct (gr_suffix _ _ _ _ _ _ Hg) as [l ->]. set_solver.
      * destruct (uo_frame _ _ _ _ Hu j f Hj Hjf') as (? & ? & ?).
        split_and!; [done| |by intros [?|?]%(gr_tabs _ _ _ _ _ _ Hg)].
        destruct (gr_suffix _ _ _ _ _ _ Hg) as [l ->]. set_solver.
    + intros i j f Hi Hj Hif Hjf.
      destruct (Hcase i f Hi Hif) as [(-> & ->)|(? & Hif')], (Hcase j _ Hj Hjf) as [(-> & E)|(? & Hjf')]; try done.
      * by apply Hnf in Hjf'.
      * subst. by apply Hnf in Hif'.
      * by eapply (uo_inj _ _ _ _ Hu).
  - unfold owned. rewrite (frames_new (km_mem s) (km_mem s') d k p) by done.
    rewrite (assoc_L (++)), (gr_acct _ _ _ _ _ _ Hg), <- (assoc_L (++)).
    rewrite <- Permutation_middle. rewrite <- Permutation_middle. done.
Qed.

Lemma map_one rest s d k p perm :
  kmem_ok kend rest s -> user_ok kend rest (km_mem s) d -> fresh_page rest (km_mem s) d p ->
  0 <= k < NUSER -> uframe (km_mem s) d k = None -> 0 <= perm < PGSIZE ->
  wp (mappages d (PGSIZE * k) PGSIZE (p - KERNBASE) perm) (fun r s' => exists rest',
    grown kend d rest rest' s s' /\ user_ok kend rest' (km_mem s') d /\
    ((r = 0 /\ mapped_page (km_mem s) (km_mem s') d k p perm /\
        rest' ++ owned (km_mem s') d ≡ₚ p :: rest ++ owned (km_mem s) d) \/
     (r = -1 /\ (forall va, is_u32 va -> mapping (km_mem s') d va = mapping (km_mem s) d va) /\
        rest' ++ owned (km_mem s') d ≡ₚ rest ++ owned (km_mem s) d))) s.
Proof.
  intros Hk Hu Hf Hkr Hnone Hperm. destruct (user_page_u32 k Hkr) as [Hva Hdiv].
  assert (PGROUNDDOWN (PGSIZE * k) = PGSIZE * k) as Hrd by (rewrite PGROUNDDOWN_eq by (unfold PGSIZE; lia); by rewrite Hdiv).
  assert (span (PGSIZE * k) PGSIZE = 1%nat) as Hsp by (unfold span, PGSIZE; zlia).
  assert (valid p) as Hv by apply Hf. pose proof (valid_aligned kend p Hv) as [_ Hr].
  assert (mapping (km_mem s) d (PGSIZE * k) = None) as Hmn by (unfold uframe in Hnone; by destruct (mapping _ _ _)).
  eapply wp_mono; [apply (mappages_ok kend rest); try done; try apply Hu;
    rewrite ?Hrd, ?Hsp; unfold is_u32, u32_mod, NUSER, PGSIZE, PHYSTOP in *; try lia|].
  { intros v Hv'. rewrite (page_mapping _ d v k); [done|done|unfold is_u32, u32_mod; lia|unfold PGSIZE; zlia]. }
  rewrite Hrd, Hsp. intros r s' (rest' & n & Hg & Hres & Hmap). exists rest'. split; [done|].
  destruct Hres as [(-> & ->)|(-> & Hn & ->)].
  - assert (mapped_page (km_mem s) (km_mem s') d k p perm) as Hmp.
    { intros va Hva'. rewrite Hmap by done. unfold mapped_from, PGSIZE in *. destruct (decide (va / 4096 = k)).
      - rewrite decide_True by zlia. do 2 f_equal. zlia.
      - by rewrite decide_False by zlia. }
    destruct (mapped_page_user d rest rest' s s' k p perm) as [H1 H2]; try done. split; [done|]. left. done.
  - assert (n = 0%nat) as -> by lia.
    assert (forall va, is_u32 va -> mapping (km_mem s') d va = mapping (km_mem s) d va) as Hsame
      by (intros va Hva'; by rewrite Hmap, mapped_from_O).
    assert (forall j, 0 <= j < NUSER -> uframe (km_mem s') d j = uframe (km_mem s) d j) as Huf
      by (intros j Hj; apply uframe_mapping; auto).
    split; [by eapply grown_user|]. right. split; [done|]. split; [done|].
    unfold owned. rewrite (frames_eq _ _ d Huf), !(assoc_L (++)). by rewrite (gr_acct _ _ _ _ _ _ Hg).
Qed.

(** ** Accounting *)

(** Between [s] and [s'] pages moved between the free list and the address
    space [d], none was lost, and only free pages and tables were written. *)
Record moves (d : Z) (pages pages' : list Z) (s s' : kmem) : Prop := mkMoves {
  mv_kmem : kmem_ok kend pages' s';
  mv_user : user_ok kend pages' (km_mem s') d;
  mv_acct : pages' ++ owned (km_mem s') d ≡ₚ pages ++ owned (km_mem s) d;
  mv_lock : km_use_lock s' = km_use_lock s;
  mv_sub : pages' ⊆ pages;
  mv_tabs : forall p, table_page (km_mem s') d p -> p ∈ pages \/ table_page (km_mem s) d p;
  mv_frame : forall a, ~ in_tables pages (km_mem s) d a -> km_mem s' a = km_mem s a;
}.

Lemma moves_refl d pages s : kmem_ok kend pages s -> user_ok kend pages (km_mem s) d -> moves d pages pages s s.
Proof. intros Hk Hu. split; auto. Qed.

Lemma moves_trans d p0 p1 p2 s0 s1 s2 : moves d p0 p1 s0 s1 -> moves d p1 p2 s1 s2 -> moves d p0 p2 s0 s2.
Proof.
  intros [K1 U1 A1 L1 S1 T1 F1] [K2 U2 A2 L2 S2 T2 F2]. split; try done.
  - by rewrite A2.
  - congruence.
  - by trans p1.
  - intros p [Hp|Hp]%T2; [left; by apply S1|auto].
  - intros a Ha. rewrite F2; [auto|]. intros (p & [Hp|Hp] & Hr); apply Ha; exists p; (split; [|done]).
    + left. by apply S1.
    + by apply T1.
Qed.

Lemma owned_same m m' d pages :
  space_ok kend pages m d -> same_tables m m' d -> owned m' d = owned m d.
Proof.
  intros Hs Hsame. unfold owned. f_equal.
  - apply tables_ext. intros i Hi. by eapply tab_same.
  - apply frames_eq. intros k Hk. unfold uframe. by rewrite (mapping_same kend pages m m').
Qed.

(** Unmapping keeps the account. *)
Lemma unmaps_acct d lo hi pages pages' s s' :
  0 <= lo -> hi <= NUSER -> unmaps kend d lo hi pages pages' s s' ->
  pages' ++ owned (km_mem s') d ≡ₚ pages ++ owned (km_mem s) d.
Proof.
  intros Hlo Hhi [K U P L T M F]. unfold owned. rewrite (tables_ext _ _ _ T), P.
  assert (frames (km_mem s) d 0 NUSER ≡ₚ frames (km_mem s) d lo hi ++ frames (km_mem s') d 0 NUSER) as ->; [|solve_Permutation].
  destruct (decide (lo <= hi)) as [Hle|Hgt].
  - rewrite (frames_split (km_mem s) d 0 lo NUSER), (frames_split (km_mem s) d lo hi NUSER) by lia.
    rewrite (frames_split (km_mem s') d 0 lo NUSER), (frames_split (km_mem s') d lo hi NUSER) by lia.
    rewrite (frames_none (km_mem s') d lo hi).
    2: { intros k Hk. destruct (user_page_u32 k) as [Hu Hd]; [lia|]. unfold uframe. by rewrite M, decide_True by (done || lia). }
    rewrite (frames_ext (km_mem s) (km_mem s') d 0 lo), (frames_ext (km_mem s) (km_mem s') d hi NUSER);
      [solve_Permutation|lia|lia|..|lia|lia|]; intros va Hva Hr; by rewrite M, decide_False by (done || lia).
  - rewrite (frames_none (km_mem s) d lo hi) by (intros; lia). cbn.
    rewrite (frames_ext (km_mem s) (km_mem s') d 0 NUSER); [done|lia|lia|]. intros va Hva Hr.
    by rewrite M, decide_False by (done || lia).
Qed.

Lemma moves_unmap d lo hi p0 p1 p2 s0 s1 s2 :
  0 <= lo -> hi <= NUSER -> frames (km_mem s1) d lo hi ⊆ p0 ->
  moves d p0 p1 s0 s1 -> unmaps kend d lo hi p1 p2 s1 s2 -> moves d p0 p2 s0 s2.
Proof.
  intros Hlo Hhi Hsub [K1 U1 A1 L1 S1 T1 F1] Hun. pose proof (unmaps_acct _ _ _ _ _ _ _ Hlo Hhi Hun) as Ha.
  destruct Hun as [K U P L T M F]. split; try done.
  - by rewrite Ha.
  - congruence.
  - rewrite P. set_solver.
  - intros p Hp. apply T1. by apply (table_page_tabs _ _ d p T).
  - intros a Hna. rewrite F, F1; [done|done|]. intros (p & [Hp|Hp] & Hr); apply Hna; exists p; (split; [|done]).
    + left. by apply Hsub.
    + by apply T1.
Qed.

(** What happened to a free page before does not matter. *)
Lemma moves_base d pages pages' s s1 s2 p :
  kmem_ok kend pages s -> user_ok kend pages (km_mem s) d -> p ∈ pages -> page_only p (km_mem s) (km_mem s1) ->
  km_use_lock s1 = km_use_lock s -> moves d pages pages' s1 s2 -> moves d pages pages' s s2.
Proof.
  intros Hk Hu Hp Ho Hl [K U A L S T F]. pose proof (uo_space _ _ _ _ Hu) as Hs.
  assert (same_tables (km_mem s) (km_mem s1) d) as Hsame.
  { apply (same_tables_page kend pages _ _ d p Hs); try done.
    - by apply (freelist_valid kend _ _ _ p (ko_list _ _ _ Hk)).
    - intros Ht. by destruct (table_page_valid kend pages _ _ _ Hs Ht). }
  assert (forall i, 0 <= i < 1024 -> tab (km_mem s1) d i = tab (km_mem s) d i) as Htab by (intros i Hi; by eapply tab_same).
  split; try done.
  - by rewrite A, (owned_same (km_mem s) (km_mem s1) d pages).
  - congruence.
  - intros q Hq%T. by rewrite (table_page_tabs _ _ d q Htab) in Hq.
  - intros a Ha. rewrite F, Ho; [done|..].
    + intros Hr. apply Ha. exists p. split; [by left|done].
    + intros (q & Hq & Hr). apply Ha. exists q. split; [|done]. by rewrite (table_page_tabs _ _ d q Htab) in Hq.
Qed.

(** Pages outside are not written. *)
Lemma moves_untouched d pages pages' s s' f i :
  kmem_ok kend pages s -> user_ok kend pages (km_mem s) d -> moves d pages pages' s s' ->
  valid f -> (f ∉ pages) -> ~ table_page (km_mem s) d f -> 0 <= i < PGSIZE -> km_mem s' (f + i) = km_mem s (f + i).
Proof.
  intros Hk Hu Hm Hv Hn Ht Hi. apply (mv_frame _ _ _ _ _ Hm). intros (p & Hp & Hr).
  eapply (byte_elsewhere kend f p i); try done.
  - destruct Hp as [Hp|Hp].
    + by apply (freelist_valid kend _ _ _ p (ko_list _ _ _ Hk)).
    + by eapply table_page_valid; [apply Hu|].
  - intros ->. by destruct Hp.
Qed.

(** A page taken from the free list and set to a content [g], before it is mapped *)
Record took_page (d : Z) (p : Z) (rest : list Z) (g : Z -> Z) (s s' : kmem) : Prop := mkTookPage {
  tp_kmem : kmem_ok kend rest s';
  tp_user : user_ok kend rest (km_mem s') d;
  tp_fresh : fresh_page rest (km_mem s') d p;
  tp_only : page_only p (km_mem s) (km_mem s');
  tp_lock : km_use_lock s' = km_use_lock s;
  tp_data : forall i, 0 <= i < PGSIZE -> km_mem s' (p + i) = g i;
}.

Lemma take_page d p rest g s s1 m' :
  kmem_ok kend (p :: rest) s -> user_ok kend (p :: rest) (km_mem s) d ->
  kmem_ok kend rest s1 -> km_mem s1 = km_mem s -> km_use_lock s1 = km_use_lock s -> valid p -> (p ∉ rest) ->
  page_only p (km_mem s) m' -> (forall i, 0 <= i < PGSIZE -> m' (p + i) = g i) ->
  took_page d p rest g s (set_km_mem m' s1).
Proof.
  intros Hk Hu Hk1 Hm Hl Hv Hn Ho Hg. pose proof (uo_space _ _ _ _ Hu) as Hs.
  assert (~ table_page (km_mem s) d p) as Hnt.
  { intros Ht. destruct (table_page_valid kend _ _ _ _ Hs Ht) as [_ []]. left. }
  pose proof (same_tables_page kend _ _ _ d p Hs Hv Hnt Ho) as Hsame. split; try done.
  - apply kmem_ok_frame; [done|]. intros q i Hq Hi. rewrite Hm. apply Ho. apply (byte_elsewhere kend); try done.
    + by apply (freelist_valid kend _ _ _ q (ko_list _ _ _ Hk1)).
    + by intros ->.
  - cbn. eapply user_ok_same; [|exact Hsame]. eapply user_ok_suffix; [|exact Hu]. by exists [p].
  - cbn. split_and!; try done.
    + rewrite (table_page_tabs (km_mem s) m'); [done|]. intros i Hi. by eapply tab_same.
    + intros j Hj Hjp. unfold uframe in Hjp. rewrite (mapping_same kend _ (km_mem s) m') in Hjp by done.
      destruct (uo_frame _ _ _ _ Hu j p Hj Hjp) as (_ & Hnp & _). apply Hnp. left.
Qed.

Lemma grown_page d rest rest' s s' p i :
  kmem_ok kend rest s -> user_ok kend rest (km_mem s) d -> grown kend d rest rest' s s' -> fresh_page rest (km_mem s) d p ->
  0 <= i < PGSIZE -> km_mem s' (p + i) = km_mem s (p + i).
Proof.
  intros Hk Hu Hg (Hv & Hn & Hnt & _) Hi. apply (gr_frame _ _ _ _ _ _ Hg). intros (q & Hq & Hr).
  eapply (byte_elsewhere kend p q i); try done.
  - destruct Hq as [Hq|Hq].
    + by apply (freelist_valid kend _ _ _ q (ko_list _ _ _ Hk)).
    + by eapply table_page_valid; [apply Hu|].
  - intros ->. by destruct Hq.
Qed.

Lemma map_taken d p rest g s s1 k perm :
  kmem_ok kend (p :: rest) s -> user_ok kend (p :: rest) (km_mem s) d -> took_page d p rest g s s1 ->
  0 <= k < NUSER -> uframe (km_mem s) d k = None -> 0 <= perm < PGSIZE ->
  wp (mappages d (PGSIZE * k) PGSIZE (p - KERNBASE) perm) (fun r s2 => exists rest',
    (r = 0 /\ moves d (p :: rest) rest' s s2 /\ mapped_page (km_mem s) (km_mem s2) d k p perm /\
       forall i, 0 <= i < PGSIZE -> km_mem s2 (p + i) = g i) \/
    (r = -1 /\ moves d rest rest' s1 s2 /\ fresh_page rest' (km_mem s2) d p /\
       forall va, is_u32 va -> mapping (km_mem s2) d va = mapping (km_mem s) d va)) s1.
Proof.
  intros Hk Hu [K1 U1 Hfr Ho L1 Hd] Hkr Hnone Hperm. pose proof (uo_space _ _ _ _ Hu) as Hs.
  assert (~ table_page (km_mem s) d p) as Hnt.
  { intros Ht. destruct (table_page_valid kend _ _ _ _ Hs Ht) as [_ []]. left. }
  assert (same_tables (km_mem s) (km_mem s1) d) as Hsame by (eapply (same_tables_page kend _ _ _ d p Hs); [apply Hfr|done|done]).
  assert (forall va, mapping (km_mem s1) d va = mapping (km_mem s) d va) as Hmap1 by (intros va; by eapply mapping_same).
  eapply wp_mono; [apply (map_one rest s1 d k p perm); try done; unfold uframe; by rewrite Hmap1|].
  intros r s2 (rest' & Hg & U2 & [(-> & Hmp & Hac)|(-> & Hmp & Hac)]); exists rest'; [left|right]; (split; [done|]).
  - split_and!.
    + apply (moves_base d _ _ s s1 s2 p); try done; [left|].
      destruct Hg as [Hx Hgk Hgs Hgl _ Hgt Hgf]. split; try done.
      * destruct Hx as [l ->]. set_solver.
      * intros q [Hq|Hq]%Hgt; [left; by right|by right].
      * intros a Ha. apply Hgf. intros (q & Hq & Hr). apply Ha. exists q. split; [|done]. set_solver.
    + intros va Hva. rewrite Hmp by done. by rewrite Hmap1.
    + intros i Hi. rewrite (grown_page d rest rest' s1 s2); auto.
  - split_and!.
    + destruct Hg as [Hx Hgk Hgs Hgl _ Hgt Hgf]. split; try done. destruct Hx as [l ->]. set_solver.
    + destruct Hfr as (Hv & Hn & Ht & Hf). split_and!; try done.
      * destruct (gr_suffix _ _ _ _ _ _ Hg) as [l ->]. set_solver.
      * by intros [?|?]%(gr_tabs _ _ _ _ _ _ Hg).
      * intros j Hj. rewrite (uframe_mapping (km_mem s1)) by (auto). by apply Hf.
    + intros va Hva. rewrite Hmp by done. by rewrite Hmap1.
Qed.

(** ** A page in hand *)

(** As [moves], with the page [p] taken from the free list and not yet mapped *)
Record in_hand (d p : Z) (pages pages' : list Z) (s s' : kmem) : Prop := mkHolding {
  hd_kmem : kmem_ok kend pages' s';
  hd_user : user_ok kend pages' (km_mem s') d;
  hd_acct : p :: pages' ++ owned (km_mem s') d ≡ₚ pages ++ owned (km_mem s) d;
  hd_lock : km_use_lock s' = km_use_lock s;
  hd_sub : p :: pages' ⊆ pages;
  hd_tabs : forall q, table_page (km_mem s') d q -> q ∈ pages \/ table_page (km_mem s) d q;
  hd_frame : forall a, ~ in_tables pages (km_mem s) d a -> km_mem s' a = km_mem s a;
  hd_fresh : fresh_page pages' (km_mem s') d p;
}.

Lemma moves_take d p rest g p0 s0 s1 s2 :
  moves d p0 (p :: rest) s0 s1 -> took_page d p rest g s1 s2 -> in_hand d p p0 rest s0 s2.
Proof.
  intros [K U A L S T F] [K2 U2 Hfr Ho L2 Hd]. pose proof (uo_space _ _ _ _ U) as Hs.
  assert (~ table_page (km_mem s1) d p) as Hnt.
  { intros Ht. destruct (table_page_valid kend _ _ _ _ Hs Ht) as [_ []]. left. }
  assert (same_tables (km_mem s1) (km_mem s2) d) as Hsame by (eapply (same_tables_page kend _ _ _ d p Hs); [apply Hfr|done|done]).
  split; try done.
  - by rewrite (owned_same (km_mem s1) (km_mem s2) d (p :: rest)).
  - congruence.
  - intros q Hq. apply T. rewrite (table_page_tabs (km_mem s1) (km_mem s2)) in Hq; [done|]. intros i Hi. by eapply tab_same.
  - intros a Ha. rewrite Ho, F; [done|done|]. intros Hr. apply Ha. exists p. split; [left; apply S; left|done].
Qed.

Lemma in_hand_moves d p p0 p1 p2 s0 s1 s2 :
  in_hand d p p0 p1 s0 s1 -> moves d p1 p2 s1 s2 -> fresh_page p2 (km_mem s2) d p -> in_hand d p p0 p2 s0 s2.
Proof.
  intros [K U A L S T F _] [K2 U2 A2 L2 S2 T2 F2] Hf. split; try done.
  - by rewrite A2.
  - congruence.
  - intros q [->|Hq]%elem_of_cons; [apply S; left|]. apply S. right. by apply S2.
  - intros q [Hq|Hq]%T2; [left; apply S; by right|auto].
  - intros a Ha. rewrite F2; [auto|]. intros (q & [Hq|Hq] & Hr); apply Ha; exists q; (split; [|done]).
    + left. apply S. by right.
    + by apply T.
Qed.

Lemma in_hand_unmap d p lo hi p0 p1 p2 s0 s1 s2 :
  0 <= lo -> hi <= NUSER -> frames (km_mem s1) d lo hi ⊆ p0 ->
  in_hand d p p0 p1 s0 s1 -> unmaps kend d lo hi p1 p2 s1 s2 -> in_hand d p p0 p2 s0 s2.
Proof.
  intros Hlo Hhi Hsub [K1 U1 A1 L1 S1 T1 F1 (Hv & Hn & Hnt & Hnf)] Hun.
  pose proof (unmaps_acct _ _ _ _ _ _ _ Hlo Hhi Hun) as Ha. destruct Hun as [K U P L T M F]. split; try done.
  - by rewrite Ha.
  - congruence.
  - intros q [->|Hq]%elem_of_cons; [apply S1; left|]. rewrite P in Hq.
    apply elem_of_app in Hq as [Hq|Hq]; [by apply Hsub|apply S1; by right].
  - intros q Hq. apply T1. by apply (table_page_tabs _ _ d q T).
  - intros a Hna. rewrite F, F1; [done|done|]. intros (q & [Hq|Hq] & Hr); apply Hna; exists q; (split; [|done]).
    + left. by apply Hsub.
    + by apply T1.
  - split_and!; [done|..].
    + rewrite P. intros [(j & Hj & Hjf)%elem_of_frames|?]%elem_of_app; [|done]. apply (Hnf j); [lia|done].
    + by rewrite (table_page_tabs _ _ d p T).
    + intros j Hj Hjp. apply (Hnf j Hj). by eapply uframe_unmapped.
Qed.

Lemma in_hand_free d p p0 p1 s0 s1 :
  in_hand d p p0 p1 s0 s1 -> wp (kfree kend p) (fun _ s2 => moves d p0 (p :: p1) s0 s2 /\
    forall va, mapping (km_mem s2) d va = mapping (km_mem s1) d va) s1.
Proof.
  intros [K U A L S T F (Hv & Hn & Hnt & Hnf)]. eapply wp_mono; [by apply (kfree_ok kend p1)|].
  intros [] s2 (Hk2 & Hl2 & Ho & _). pose proof (uo_space _ _ _ _ U) as Hs.
  pose proof (same_tables_page kend p1 _ _ d p Hs Hv Hnt Ho) as Hsame.
  destruct (user_ok_same p1 _ _ d U Hsame) as [Hs2 Hf2 Hi2].
  assert (forall i, 0 <= i < 1024 -> tab (km_mem s2) d i = tab (km_mem s1) d i) as Htab by (intros i Hi; by eapply tab_same).
  split; [split|]; try done.
  - split; [split|..|done].
    + split; [apply Hs2|]. intros [->|Hd]%elem_of_cons; [apply Hnt; by left|]. by destruct (so_dir _ _ _ _ Hs2).
    + intros i t Hi Ht. destruct (so_tab _ _ _ _ Hs2 i t Hi Ht) as (? & ? & ?). split_and!; try done.
      intros [->|?]%elem_of_cons; [|done]. apply Hnt. right. exists i. by rewrite <- Htab.
    + apply Hs2.
    + intros k f Hk Hkf. destruct (Hf2 k f Hk Hkf) as (? & ? & ?). split_and!; try done.
      intros [->|?]%elem_of_cons; [|done]. apply (Hnf k Hk). unfold uframe in *.
      by rewrite <- (mapping_same kend p1 (km_mem s1) (km_mem s2)).
  - rewrite (owned_same (km_mem s1) (km_mem s2) d p1) by done. exact A.
  - congruence.
  - intros q Hq%(table_page_tabs _ _ d q Htab). by apply T.
  - intros a Ha. rewrite Ho, F; [done|done|]. intros Hr. apply Ha. exists p. split; [left; apply S; left|done].
  - intros va. by eapply mapping_same.
Qed.

(** ** allocuvm *)

(** The pages with numbers from [lo] below [hi] are new and zeroed. *)
Definition zero_page (m : mem) (p : Z) : Prop := forall i, 0 <= i < PGSIZE -> m (p + i) = 0.

Record maps_new (d lo hi : Z) (pages : list Z) (s s' : kmem) : Prop := mkMapsNew {
  mn_old : forall va, is_u32 va -> ~ (lo <= va / PGSIZE < hi) -> mapping (km_mem s') d va = mapping (km_mem s) d va;
  mn_new : forall k, lo <= k < hi -> exists p, p ∈ pages /\ zero_page (km_mem s') p /\
    mapping (km_mem s') d (PGSIZE * k) = Some (pte_word (p - KERNBASE) 6);
}.

Lemma maps_new_frame d pages s s' k p :
  kmem_ok kend pages s -> p ∈ pages -> mapping (km_mem s') d (PGSIZE * k) = Some (pte_word (p - KERNBASE) 6) ->
  uframe (km_mem s') d k = Some p.
Proof.
  intros Hk Hp Hm. unfold uframe. rewrite Hm. cbn. f_equal. apply (frame_pte kend); [|done].
  by apply (freelist_valid kend _ _ _ p (ko_list _ _ _ Hk)).
Qed.

Lemma maps_new_step d lo k p0 p1 p2 s0 s1 s2 p :
  kmem_ok kend p0 s0 -> kmem_ok kend p1 s1 -> user_ok kend p1 (km_mem s1) d -> 0 <= lo <= k -> k < NUSER ->
  maps_new d lo k p0 s0 s1 -> p1 ⊆ p0 -> moves d p1 p2 s1 s2 -> p ∈ p1 ->
  mapped_page (km_mem s1) (km_mem s2) d k p 6 -> zero_page (km_mem s2) p ->
  maps_new d lo (k + 1) p0 s0 s2.
Proof.
  intros K0 K1 U1 Hlo Hk Hmn Hsub Hmv Hp Hmp Hz. pose proof Hmn as [Ho Hn]. split.
  - intros va Hva Hr. rewrite Hmp, decide_False by (done || lia). apply Ho; [done|lia].
  - intros j Hj. destruct (user_page_u32 j) as [Hu Hd]; [lia|]. rewrite Hmp, Hd by done.
    destruct (decide (j = k)) as [->|Hne]; [exists p; split_and!; try done; by apply Hsub|].
    destruct (Hn j ltac:(lia)) as (q & Hq & Hqz & Hqm). exists q. split_and!; try done.
    destruct (uo_frame _ _ _ _ U1 j q) as (? & ? & ?); [lia|by eapply (maps_new_frame d p0 s0)|].
    intros i Hi. rewrite (moves_untouched d p1 p2 s1 s2); try done. by apply Hqz.
Qed.

(** What allocuvm leaves, from [s0] *)
Definition allocuvm_post (d lo hi newsz : Z) (p0 : list Z) (s0 : kmem) (r : Z) (s' : kmem) : Prop :=
  exists pages', moves d p0 pages' s0 s' /\
    ((r = newsz /\ maps_new d lo hi p0 s0 s') \/
     (r = 0 /\ forall va, is_u32 va -> mapping (km_mem s') d va = mapping (km_mem s0) d va)).

(** Undoing what has been mapped so far; [s1'] maps what [s1] maps. *)
Section Undo.
Context (d lo hi k : Z) (p0 : list Z) (s0 s1 s1' : kmem).
Context (K0 : kmem_ok kend p0 s0) (Hlo : 0 <= lo) (Hhi : hi <= NUSER).
Context (Hmn : maps_new d lo k p0 s0 s1).
Context (Heq : forall va, is_u32 va -> mapping (km_mem s1') d va = mapping (km_mem s1) d va).
Context (Hnone : forall va, is_u32 va -> lo <= va / PGSIZE < hi -> mapping (km_mem s0) d va = None).

Lemma new_frames_sub : frames (km_mem s1') d lo hi ⊆ p0.
Proof using K0 Hlo Hhi Hmn Heq Hnone.
  intros f (j & Hj & Hjf)%elem_of_frames. destruct (user_page_u32 j) as [Hu Hd]; [lia|].
  unfold uframe in Hjf. rewrite Heq in Hjf by done. destruct (decide (j < k)).
  - destruct (mn_new _ _ _ _ _ _ Hmn j ltac:(lia)) as (p & Hp & _ & Hm). rewrite Hm in Hjf. cbn in Hjf.
    rewrite (frame_pte kend p 6) in Hjf; [congruence| |done].
    by apply (freelist_valid kend _ _ _ p (ko_list _ _ _ K0)).
  - rewrite (mn_old _ _ _ _ _ _ Hmn), Hnone in Hjf by (done || lia). done.
Qed.

Lemma unmapped_back p1 p2 s2 va :
  k <= hi -> unmaps kend d lo hi p1 p2 s1' s2 -> is_u32 va -> mapping (km_mem s2) d va = mapping (km_mem s0) d va.
Proof using Hmn Heq Hnone.
  intros Hk Hun Hva. rewrite (un_map _ _ _ _ _ _ _ _ Hun) by done.
  destruct (decide (lo <= va / PGSIZE < hi)); [by rewrite Hnone|].
  rewrite Heq by done. apply (mn_old _ _ _ _ _ _ Hmn); [done|lia].
Qed.
End Undo.

(** A page in hand, set to zero *)
Lemma zero_taken d p rest s1 s2 :
  kmem_ok kend (p :: rest) s1 -> user_ok kend (p :: rest) (km_mem s1) d ->
  kmem_ok kend rest s2 -> km_mem s2 = km_mem s1 -> km_use_lock s2 = km_use_lock s1 -> valid p -> (p ∉ rest) ->
  took_page d p rest (fun _ => 0) s1 (set_km_mem (memset (km_mem s2) p 0 PGSIZE) s2).
Proof.
  intros K1 U1 K2 Hm Hl Hv Hn. rewrite Hm.
  assert (filled (km_mem s1) p 0 PGSIZE (memset (km_mem s1) p 0 PGSIZE)) as Hfill by (by apply (zeroed_page kend)).
  apply (take_page d p rest _ s1 s2); try done.
  - intros a Ha. rewrite Hfill. by rewrite bool_decide_false.
  - intros i Hi. rewrite Hfill. by rewrite bool_decide_true by lia.
Qed.

(** The two ways to fail: no page for the user, no page for a table *)
Lemma alloc_no_page p1 d k lo hi oldsz newsz p0 s0 s1 s2 :
  kmem_ok kend p0 s0 -> 0 <= oldsz -> newsz < KERNBASE -> lo = npages oldsz -> hi = npages newsz ->
  (forall va, is_u32 va -> lo <= va / PGSIZE < hi -> mapping (km_mem s0) d va = None) -> k <= hi ->
  moves d p0 p1 s0 s2 -> maps_new d lo k p0 s0 s1 ->
  (forall va, is_u32 va -> mapping (km_mem s2) d va = mapping (km_mem s1) d va) ->
  wp (deallocuvm kend d newsz oldsz ;; ret 0) (allocuvm_post d lo hi newsz p0 s0) s2.
Proof using Hkend.
  intros K0 Hold Hnew Hlo Hhi Hnone Hk Hmv Hmn Heq. apply wp_bind.
  assert (0 <= lo /\ hi <= NUSER) as [Hlo0 HhiN] by (unfold npages, NUSER, PGSIZE, KERNBASE in *; zlia).
  eapply wp_mono; [apply (deallocuvm_ok kend Hkend p1 s2 d newsz oldsz); [by eapply mv_kmem|by eapply mv_user|lia..]|].
  intros r s3 (_ & p3 & Hun). apply wp_ret. rewrite <- Hlo, <- Hhi in Hun. exists p3. split.
  - eapply (moves_unmap d lo hi); [done|done| |exact Hmv|exact Hun]. by apply (new_frames_sub d lo hi k p0 s0 s1).
  - right. split; [done|]. intros va Hva. by eapply (unmapped_back d lo hi k p0 s0 s1 s2).
Qed.

Lemma alloc_no_table p1 d k lo hi oldsz newsz p0 s0 s1 s2 p :
  kmem_ok kend p0 s0 -> 0 <= oldsz -> newsz < KERNBASE -> lo = npages oldsz -> hi = npages newsz ->
  (forall va, is_u32 va -> lo <= va / PGSIZE < hi -> mapping (km_mem s0) d va = None) -> k <= hi ->
  in_hand d p p0 p1 s0 s2 -> maps_new d lo k p0 s0 s1 ->
  (forall va, is_u32 va -> mapping (km_mem s2) d va = mapping (km_mem s1) d va) ->
  wp (deallocuvm kend d newsz oldsz ;; kfree kend p ;; ret 0) (allocuvm_post d lo hi newsz p0 s0) s2.
Proof using Hkend.
  intros K0 Hold Hnew Hlo Hhi Hnone Hk Hh Hmn Heq. apply wp_bind.
  assert (0 <= lo /\ hi <= NUSER) as [Hlo0 HhiN] by (unfold npages, NUSER, PGSIZE, KERNBASE in *; zlia).
  eapply wp_mono; [apply (deallocuvm_ok kend Hkend p1 s2 d newsz oldsz); [by eapply hd_kmem|by eapply hd_user|lia..]|].
  intros r s3 (_ & p3 & Hun). rewrite <- Hlo, <- Hhi in Hun. apply wp_bind.
  eapply wp_mono; [apply (in_hand_free d p p0 p3 s0 s3)|].
  - eapply (in_hand_unmap d p lo hi); [done|done| |exact Hh|exact Hun]. by apply (new_frames_sub d lo hi k p0 s0 s1).
  - intros [] s4 [Hmv Hmap]. apply wp_ret. exists (p :: p3). split; [done|]. right. split; [done|].
    intros va Hva. rewrite Hmap. by eapply (unmapped_back d lo hi k p0 s0 s1 s2).
Qed.

Lemma allocuvm_loop_ok fuel : forall p1 s1 d k lo hi oldsz newsz p0 s0,
  kmem_ok kend p0 s0 -> 0 <= oldsz -> newsz < KERNBASE -> lo = npages oldsz -> hi = npages newsz ->
  (forall va, is_u32 va -> lo <= va / PGSIZE < hi -> mapping (km_mem s0) d va = None) ->
  lo <= k -> k <= hi -> moves d p0 p1 s0 s1 -> maps_new d lo k p0 s0 s1 -> hi - k < Z.of_nat fuel ->
  wp (allocuvm_loop kend fuel d (PGSIZE * k) oldsz newsz) (allocuvm_post d lo hi newsz p0 s0) s1.
Proof using Hkend.
  induction fuel as [|fuel IH]; [lia|]. intros p1 s1 d k lo hi oldsz newsz p0 s0 K0 Hold Hnew Hlo Hhi Hnone Hlk Hkh Hmv Hmn Hfuel.
  assert (0 <= lo /\ hi <= NUSER) as [Hlo0 HhiN] by (unfold npages, NUSER, PGSIZE, KERNBASE in *; zlia).
  cbn [allocuvm_loop]. pose proof (npages_spec newsz k ltac:(lia)) as Hspec. rewrite <- Hhi in Hspec.
  destruct (Z.ltb_spec (PGSIZE * k) newsz) as [Hlt|Hge].
  2: { apply wp_ret. exists p1. split; [done|]. left. split; [done|]. by replace hi with k by lia. }
  assert (k < hi) as Hkhi by (by apply Hspec). pose proof (mv_kmem _ _ _ _ _ Hmv) as K1. pose proof (mv_user _ _ _ _ _ Hmv) as U1.
  apply wp_bind. eapply wp_mono; [by apply (kalloc_ok kend p1)|]. intros r s2 (Hm2 & Hl2 & Hr).
  destruct p1 as [|p rest].
  { destruct Hr as [-> K2]. cbn [Z.eqb]. eapply (alloc_no_page [] d k); try done; [|by rewrite Hm2].
    destruct Hmv as [K U A L S T F]. split; rewrite ?Hm2; try done. congruence. }
  destruct Hr as (-> & Hv & Hpr & K2). pose proof (valid_page_nonzero kend p Hv) as Hp0.
  apply Z.eqb_neq in Hp0. rewrite Hp0. apply wp_bind, wp_modify, wp_bind.
  pose proof (zero_taken d p rest s1 s2 K1 U1 K2 Hm2 Hl2 Hv Hpr) as Htk.
  eapply wp_intro; [apply V2P_ok; unfold valid_page in Hv; lia|]. apply wp_bind. destruct (user_page_u32 k) as [Hva Hdiv]; [lia|].
  assert (uframe (km_mem s1) d k = None) as Huk.
  { unfold uframe. by rewrite (mn_old _ _ _ _ _ _ Hmn), Hnone by (done || lia). }
  eapply wp_mono; [apply (map_taken d p rest _ s1 _ k 6 K1 U1 Htk); (done || lia)|].
  intros r s3 (rest' & [(-> & Hmv3 & Hmp & Hz)|(-> & Hmv3 & Hfr & Hmap)]); cbn [Z.ltb Z.compare].
  - replace (u32 (PGSIZE * k + PGSIZE)) with (PGSIZE * (k + 1))
      by (rewrite u32_small; unfold is_u32, u32_mod, NUSER, PGSIZE in *; lia).
    apply (IH rest' s3 d (k + 1)); try done; try lia; [by eapply moves_trans|].
    eapply (maps_new_step d lo k p0 (p :: rest) rest' s0 s1 s3 p); try done; [lia|by eapply mv_sub|left].
  - eapply (alloc_no_table rest' d k lo hi oldsz newsz p0 s0 s1 s3 p); try done.
    eapply in_hand_moves; [by eapply moves_take|done|done].
Qed.

Lemma allocuvm_ok pages s d oldsz newsz :
  kmem_ok kend pages s -> user_ok kend pages (km_mem s) d -> 0 <= oldsz -> 0 <= newsz ->
  (forall va, is_u32 va -> npages oldsz <= va / PGSIZE < npages newsz -> mapping (km_mem s) d va = None) ->
  wp (allocuvm kend d oldsz newsz) (fun r s' =>
    (KERNBASE <= newsz /\ r = 0 /\ s' = s) \/ (newsz < oldsz /\ r = oldsz /\ s' = s) \/
    (oldsz <= newsz < KERNBASE /\ allocuvm_post d (npages oldsz) (npages newsz) newsz pages s r s')) s.
Proof using Hkend.
  intros Hk Hu Hold Hnew Hnone. unfold allocuvm. destruct (Z.leb_spec KERNBASE newsz); [apply wp_ret; by left|].
  destruct (Z.ltb_spec newsz oldsz); [apply wp_ret; right; by left|].
  rewrite PGROUNDUP_npages by lia.
  assert (0 <= npages oldsz <= npages newsz) as Hnp by (unfold npages, PGSIZE in *; zlia).
  eapply wp_mono; [apply (allocuvm_loop_ok _ pages s d (npages oldsz) (npages oldsz) (npages newsz) oldsz newsz pages s); try done|].
  - lia.
  - by apply moves_refl.
  - split; [done|]. intros k Hr. lia.
  - unfold npages, PGSIZE in *. zlia.
  - intros r s' H1. right. right. split; [lia|done].
Qed.
End Alloc.
