(* ===== verification/VmCopy.v ===== *)
(** * setupkvm and copyuvm

    setupkvm makes an address space that maps the kernel and nothing of the
    user; copyuvm makes one with a copy of the user pages of another.  Both
    either succeed, and then the pages of the new address space are pages
    that were free, or fail and give every page back. *)

From S2P Require Import Prelude Mem KString Kalloc Vm VmInv VmSpace VmAlloc.

Local Open Scope c_scope.
Local Open Scope Z_scope.

(** Nothing but pages of [pages] has been written. *)
Definition only_pages (pages : list Z) (m m' : mem) : Prop :=
  forall a, ~ (exists p, p ∈ pages /\ p <= a < p + PGSIZE) -> m' a = m a.

Lemma only_pages_trans pages m m1 m2 : only_pages pages m m1 -> only_pages pages m1 m2 -> only_pages pages m m2.
Proof. intros H1 H2 a Ha. rewrite H2, H1; done. Qed.

(** ** The kernel part *)

(** The translation after the entries [ks] of kmap, on top of [old] *)
Fixpoint kmapped (ks : list (Z * Z * Z * Z)) (old : Z -> option Z) (va : Z) : option Z :=
  match ks with
  | [] => old va
  | (virt, ps, pe, perm) :: ks' =>
      kmapped ks' (mapped_from old virt ps perm (Z.to_nat (u32 (pe - ps) / PGSIZE))) va
  end.

(** Entries that are aligned, not empty, and above one another from [lo] on *)
Fixpoint kmap_ok (ks : list (Z * Z * Z * Z)) (lo : Z) : Prop :=
  match ks with
  | [] => True
  | (virt, ps, pe, perm) :: ks' =>
      let size := u32 (pe - ps) in
      lo <= virt /\ virt `mod` PGSIZE = 0 /\ 0 <= ps /\ 0 < size /\ size `mod` PGSIZE = 0 /\
      virt + size <= u32_mod /\ ps + size <= u32_mod /\ 0 <= perm < PGSIZE /\ kmap_ok ks' (virt + size)
  end.

(** What the linker script says of the symbol [data] *)
Definition data_ok (data : Z) : Prop :=
  data `mod` PGSIZE = 0 /\ KERNLINK < data < KERNBASE + PHYSTOP.

Lemma kmap_is_ok data : data_ok data -> kmap_ok (kmap data) KERNBASE.
Proof.
  unfold data_ok, kmap, KERNLINK, KERNBASE, PHYSTOP, EXTMEM, DEVSPACE, PGSIZE. intros [Hal Hr]. cbn [kmap_ok].
  rewrite !(u32_small (_ - _)) by (unfold is_u32, u32_mod; lia).
  assert (u32 (0 - 4261412864) = 33554432) as -> by reflexivity.
  unfold PTE_W, u32_mod, PGSIZE. repeat split; try lia; zlia.
Qed.

#[local] Opaque frames tables memset memmove.

Section Copy.
Context (kend : Z) (Hkend : KERNBASE < kend).
Local Abbreviation valid := (valid_page kend).

(** ** An address space under construction

    [d] and what it owns were free in [s], when the free list was [pages];
    [rest] is still free. *)
Record building (d : Z) (pages rest : list Z) (s s' : kmem) : Prop := mkBuilding {
  bd_kmem : kmem_ok kend rest s';
  bd_user : user_ok kend rest (km_mem s') d;
  bd_acct : d :: rest ++ owned (km_mem s') d ≡ₚ pages;
  bd_lock : km_use_lock s' = km_use_lock s;
  bd_only : only_pages pages (km_mem s) (km_mem s');
}.

Lemma building_tables d pages rest s s' q : building d pages rest s s' -> table_page (km_mem s') d q -> q ∈ pages.
Proof.
  intros [_ _ A _ _] [->|(i & Hi & Hq)]; rewrite <- A; [left|]. right. apply elem_of_app. right.
  unfold owned. apply elem_of_app. left. apply elem_of_tables. by exists i.
Qed.

Lemma building_rest d pages rest s s' q : building d pages rest s s' -> q ∈ rest -> q ∈ pages.
Proof. intros [_ _ A _ _] Hq. rewrite <- A. right. apply elem_of_app. by left. Qed.

Lemma building_moves d pages p1 p2 s s1 s2 :
  building d pages p1 s s1 -> moves kend d p1 p2 s1 s2 -> building d pages p2 s s2.
Proof.
  intros Hb [K U A L S T F]. pose proof Hb as [K1 U1 A1 L1 O1]. split; try done.
  - by rewrite A.
  - congruence.
  - eapply only_pages_trans; [done|]. intros a Ha. apply F. intros (q & Hq & Hr). apply Ha. exists q. split; [|done].
    destruct Hq; [by eapply building_rest|by eapply building_tables].
Qed.

(** All pages are back. *)
Definition undone (pages : list Z) (s s' : kmem) : Prop :=
  exists pages', kmem_ok kend pages' s' /\ pages' ≡ₚ pages /\ km_use_lock s' = km_use_lock s /\
    only_pages pages (km_mem s) (km_mem s').

Lemma building_free d pages rest s s1 :
  building d pages rest s s1 -> wp (freevm kend d) (fun _ s' => undone pages s s') s1.
Proof using Hkend.
  intros Hb. pose proof Hb as [K U A L O].
  eapply wp_mono; [by apply (freevm_ok kend Hkend rest s1 d)|]. intros [] s2 (p2 & K2 & P2 & L2 & F2).
  exists p2. split_and!; [done| |congruence|].
  - rewrite P2, <- A. unfold owned. solve_Permutation.
  - eapply only_pages_trans; [done|]. intros a Ha. apply F2. intros (q & Hq & Hr). apply Ha. exists q. split; [|done].
    destruct Hq as [Hq|Hq]; [|by eapply building_tables]. rewrite <- A. right. apply elem_of_app. right.
    unfold owned. apply elem_of_app. by right.
Qed.

Lemma grown_moves d pages rest s s' :
  user_ok kend pages (km_mem s) d -> grown kend d pages rest s s' ->
  (forall k, 0 <= k < NUSER -> uframe (km_mem s') d k = uframe (km_mem s) d k) -> moves kend d pages rest s s'.
Proof.
  intros Hu Hg Heq. pose proof (grown_user kend Hkend d pages rest s s' Hu Hg Heq) as Hu'.
  destruct Hg as [X K S L A T F]. split; try done.
  - unfold owned. by rewrite (frames_eq _ _ d Heq), !(assoc_L (++)), A.
  - destruct X as [l ->]. set_solver.
Qed.

(** Mapping above the user half leaves the user half alone. *)
Lemma mapped_above m m' d virt ps perm n :
  KERNBASE <= virt ->
  (forall va, is_u32 va -> mapping m' d va = mapped_from (mapping m d) virt ps perm n va) ->
  forall k, 0 <= k < NUSER -> uframe m' d k = uframe m d k.
Proof.
  intros Hv Hm k Hk. apply uframe_mapping; [done|]. intros va Hva Hd. rewrite Hm by done. unfold mapped_from.
  rewrite decide_False; [done|]. unfold NUSER, KERNBASE, PGSIZE in *. zlia.
Qed.

Lemma kmapped_ext ks old old' va :
  (forall v, is_u32 v -> old v = old' v) -> is_u32 va -> kmapped ks old va = kmapped ks old' va.
Proof.
  revert old old'. induction ks as [|[[[virt ps] pe] perm] ks IH]; intros old old' H Hva; cbn [kmapped]; [auto|].
  apply IH; [|done]. intros v Hv. apply mapped_from_ext. auto.
Qed.

Lemma setupkvm_loop_ok ks : forall lo d pages rest s s1,
  building d pages rest s s1 -> kmap_ok ks lo -> KERNBASE <= lo ->
  (forall va, is_u32 va -> lo <= va -> mapping (km_mem s1) d va = None) ->
  wp (setupkvm_loop kend ks d) (fun r s' =>
    (r = 0 /\ undone pages s s') \/
    (r = d /\ exists rest', building d pages rest' s s' /\
       forall va, is_u32 va -> mapping (km_mem s') d va = kmapped ks (mapping (km_mem s1) d) va)) s1.
Proof using Hkend.
  induction ks as [|[[[virt ps] pe] perm] ks IH]; intros lo d pages rest s s1 Hb Hks Hlo Hnone; cbn [setupkvm_loop].
  { apply wp_ret. right. split; [done|]. exists rest. done. }
  cbn [kmap_ok] in Hks. destruct Hks as (Hv & Hval & Hps & Hsz & Hszal & Hve & Hpe & Hperm & Hks).
  assert (0 <= virt) as Hv0 by (unfold KERNBASE in *; lia).
  set (size := u32 (pe - ps)) in *. set (n := Z.to_nat (size / PGSIZE)).
  assert (span virt size = n) as Hspan by (unfold span, n, PGSIZE in *; zlia).
  assert (PGROUNDDOWN virt = virt) as Hrd by (rewrite PGROUNDDOWN_eq by lia; unfold PGSIZE in *; zlia).
  assert (PGSIZE * Z.of_nat n = size) as Hn by (unfold n, PGSIZE in *; zlia).
  pose proof Hb as [K U A L O]. apply wp_bind.
  eapply wp_mono; [apply (mappages_ok kend rest); rewrite ?Hspan, ?Hrd, ?Hn; try done; try lia; [apply U|unfold is_u32, u32_mod, PGSIZE in *; lia|]|].
  { intros v Hr. apply Hnone; [unfold is_u32; lia|lia]. }
  rewrite Hspan, Hrd. intros r s2 (rest2 & j & Hg & Hres & Hmap).
  assert (building d pages rest2 s s2) as Hb2.
  { eapply building_moves; [exact Hb|]. apply grown_moves; [done|done|]. eapply mapped_above; [|exact Hmap]. lia. }
  destruct Hres as [(-> & ->)|(-> & _ & _)]; cbn [Z.ltb Z.compare].
  - eapply wp_mono; [apply (IH (virt + size) d pages rest2 s s2); try done; [lia|]|].
    + intros va Hva Hge. rewrite Hmap by done. unfold mapped_from. rewrite decide_False by lia. apply Hnone; [done|lia].
    + intros r s3 [?|(-> & rest3 & Hb3 & Hm3)]; [by left|]. right. split; [done|]. exists rest3. split; [done|].
      intros va Hva. rewrite Hm3 by done. cbn [kmapped]. fold size. fold n. by apply kmapped_ext.
  - apply wp_bind. eapply wp_mono; [by apply (building_free d pages rest2 s s2)|]. intros [] s3 Hu3.
    apply wp_ret. by left.
Qed.

Section Data.
Context (data : Z) (Hdata : data_ok data).

(** What the kernel half of every address space maps *)
Definition kernel_map (va : Z) : option Z := kmapped (kmap data) (fun _ => None) va.

(** The new directory *)
Lemma new_directory d rest s s1 :
  kmem_ok kend (d :: rest) s -> kmem_ok kend rest s1 -> km_mem s1 = km_mem s -> km_use_lock s1 = km_use_lock s ->
  valid d -> (d ∉ rest) ->
  let s2 := set_km_mem (memset (km_mem s1) d 0 PGSIZE) s1 in
  building d (d :: rest) rest s s2 /\ forall va, mapping (km_mem s2) d va = None.
Proof.
  intros K K1 Hm Hl Hv Hn s2. unfold s2. rewrite Hm.
  assert (filled (km_mem s) d 0 PGSIZE (memset (km_mem s) d 0 PGSIZE)) as Hfill by (by apply (zeroed_page kend)).
  set (m2 := memset (km_mem s) d 0 PGSIZE) in *.
  assert (forall i, 0 <= i < 1024 -> tab m2 d i = None) as Htab.
  { intros i Hi. unfold tab. assert (ld32 m2 (d + 4 * i) = 0) as ->; [|done].
    pose proof (slot_no_wrap kend d i Hv Hi) as Hw. unfold ld32. rewrite !(padd_small _ _ 4) by (done || lia).
    rewrite !Hfill. unfold PGSIZE. by rewrite !bool_decide_true by lia. }
  assert (forall va, mapping m2 d va = None) as Hmap.
  { intros va. unfold mapping, entry. by rewrite (Htab _ (PDX_range va)). }
  assert (page_only d (km_mem s) m2) as Ho by (intros a Ha; rewrite Hfill; by rewrite bool_decide_false).
  split; [split|done]; cbn.
  - apply kmem_ok_frame; [done|]. intros q i Hq Hi. rewrite Hm. apply Ho. apply (byte_elsewhere kend); try done.
    + by apply (freelist_valid kend _ _ _ q (ko_list _ _ _ K1)).
    + by intros ->.
  - split; [split; [done|..]|..].
    + intros i t Hi. by rewrite Htab.
    + intros i j t Hi Hj. by rewrite Htab.
    + intros k f Hk. unfold uframe. by rewrite Hmap.
    + intros j k f Hj Hk. unfold uframe. by rewrite Hmap.
  - unfold owned. assert (tables m2 d = []) as ->; [|assert (frames m2 d 0 NUSER = []) as ->].
    + apply elem_of_nil_inv. intros t (i & Hi & Ht)%elem_of_tables. by rewrite Htab in Ht.
    + apply frames_none. intros k _. unfold uframe. by rewrite Hmap.
    + by rewrite !app_nil_r.
  - done.
  - intros a Ha. apply Ho. intros Hr. apply Ha. exists d. split; [left|done].
Qed.

Lemma setupkvm_ok pages s :
  kmem_ok kend pages s ->
  wp (setupkvm kend data) (fun d s' =>
    (d = 0 /\ undone pages s s') \/
    (d <> 0 /\ exists rest, building d pages rest s s' /\
       forall va, is_u32 va -> mapping (km_mem s') d va = kernel_map va)) s.
Proof using Hkend Hdata.
  intros K. unfold setupkvm. apply wp_bind. eapply wp_mono; [by apply (kalloc_ok kend pages)|].
  intros d s1 (Hm & Hl & Hp). destruct pages as [|p rest].
  { destruct Hp as [-> K1]. cbn [Z.eqb]. apply wp_ret. left. split; [done|]. exists []. rewrite Hm. done. }
  destruct Hp as (-> & Hv & Hn & K1). pose proof (valid_page_nonzero kend p Hv) as Hp0.
  pose proof Hp0 as Hp0'. apply Z.eqb_neq in Hp0'. rewrite Hp0'. apply wp_bind, wp_modify, wp_bind.
  eapply wp_intro; [by apply P2V_ok|]. change (DEVSPACE <? PHYSTOP + KERNBASE) with false.
  destruct (new_directory p rest s s1 K K1 Hm Hl Hv Hn) as [Hb Hnone].
  eapply wp_mono; [apply (setupkvm_loop_ok (kmap data) KERNBASE p (p :: rest) rest s); try done; by apply kmap_is_ok|].
  intros r s2 [(-> & Hu)|(-> & rest2 & Hb2 & Hm2)]; [by left|]. right. split; [done|]. exists rest2. split; [done|].
  intros va Hva. rewrite Hm2 by done. unfold kernel_map. apply kmapped_ext; [|done]. intros v _. apply Hnone.
Qed.

(** ** copyuvm *)

Lemma kmapped_below ks : forall lo old va, kmap_ok ks lo -> va < lo -> kmapped ks old va = old va.
Proof.
  induction ks as [|[[[virt ps] pe] perm] ks IH]; intros lo old va Hks Hva; [done|]. cbn [kmap_ok kmapped] in *.
  destruct Hks as (Hv & _ & _ & Hsz & _ & _ & _ & _ & Hks). rewrite (IH (virt + u32 (pe - ps))) by (done || lia).
  unfold mapped_from. by rewrite decide_False by lia.
Qed.

Lemma kernel_map_user va : va < KERNBASE -> kernel_map va = None.
Proof using Hdata. intros Hva. unfold kernel_map. by rewrite (kmapped_below _ KERNBASE) by (done || by apply kmap_is_ok). Qed.

(** Pages that were not free keep their bytes. *)
Lemma only_pages_byte pages s m' f i :
  kmem_ok kend pages s -> only_pages pages (km_mem s) m' -> valid f -> (f ∉ pages) -> 0 <= i < PGSIZE ->
  m' (f + i) = km_mem s (f + i).
Proof.
  intros K Ho Hv Hn Hi. apply Ho. intros (p & Hp & Hr).
  eapply (byte_elsewhere kend f p i); try done; [|by intros ->].
  by apply (freelist_valid kend _ _ _ p (ko_list _ _ _ K)).
Qed.

Lemma only_pages_tables pages s m' d :
  kmem_ok kend pages s -> space_ok kend pages (km_mem s) d -> only_pages pages (km_mem s) m' ->
  same_tables (km_mem s) m' d.
Proof.
  intros K Hs Ho p i Hp Hi. destruct (table_page_valid kend _ _ _ _ Hs Hp).
  by eapply only_pages_byte.
Qed.

(** The first [n] user pages of [P] in [m0] and of [d] in [m1] have the same
    flags and the same content. *)
Definition copied (m0 m1 : mem) (P d n : Z) : Prop :=
  forall j, 0 <= j < n -> exists w p, mapping m0 P (PGSIZE * j) = Some w /\ valid p /\
    mapping m1 d (PGSIZE * j) = Some (pte_word (p - KERNBASE) (PTE_FLAGS w)) /\
    forall i, 0 <= i < PGSIZE -> m1 (p + i) = m0 (frame w + i).

(** A copy under construction, with [k] pages done *)
Record copying (P d k : Z) (pages rest : list Z) (s s' : kmem) : Prop := mkCopying {
  cp_building : building d pages rest s s';
  cp_copied : copied (km_mem s) (km_mem s') P d k;
  cp_other : forall va, is_u32 va -> ~ (0 <= va / PGSIZE < k) -> mapping (km_mem s') d va = kernel_map va;
}.

Lemma flags_range w : 0 <= PTE_FLAGS w < PGSIZE.
Proof. rewrite PTE_FLAGS_eq. unfold PGSIZE. apply Z.mod_pos_bound. lia. Qed.

Lemma copying_step P d k pages p rest rest' s s1 s2 w :
  copying P d k pages (p :: rest) s s1 -> 0 <= k < NUSER -> mapping (km_mem s) P (PGSIZE * k) = Some w ->
  moves kend d (p :: rest) rest' s1 s2 -> mapped_page (km_mem s1) (km_mem s2) d k p (PTE_FLAGS w) ->
  valid p -> (forall i, 0 <= i < PGSIZE -> km_mem s2 (p + i) = km_mem s (frame w + i)) ->
  copying P d (k + 1) pages rest' s s2.
Proof.
  intros [Hb Hc Ho] Hk Hw Hmv Hmp Hv Hd. split; [by eapply building_moves|..].
  - intros j Hj. destruct (user_page_u32 j) as [Hu Hdiv]; [lia|]. destruct (decide (j = k)) as [->|Hne].
    + exists w, p. split_and!; try done. by rewrite Hmp, decide_True.
    + destruct (Hc j ltac:(lia)) as (w' & q & Hw' & Hq & Hmq & Hqd). exists w', q. split_and!; try done.
      * by rewrite Hmp, decide_False by (done || lia).
      * intros i Hi. rewrite <- Hqd by done. pose proof Hb as [K1 U1 _ _ _].
        destruct (uo_frame _ _ _ _ U1 j q) as (? & ? & ?); [lia| |by eapply moves_untouched].
        unfold uframe. rewrite Hmq. cbn. f_equal. apply (frame_pte kend); [done|apply flags_range].
  - intros va Hva Hr. rewrite Hmp, decide_False by (done || lia). apply Ho; [done|lia].
Qed.

(** A page in hand, with the content of the page at [f] *)
Lemma copy_taken d p rest s1 s2 f :
  kmem_ok kend (p :: rest) s1 -> user_ok kend (p :: rest) (km_mem s1) d ->
  kmem_ok kend rest s2 -> km_mem s2 = km_mem s1 -> km_use_lock s2 = km_use_lock s1 -> valid p -> (p ∉ rest) ->
  valid f -> took_page kend d p rest (fun i => km_mem s1 (f + i)) s1 (set_km_mem (memmove (km_mem s2) p f PGSIZE) s2).
Proof using Hkend.
  intros K1 U1 K2 Hm Hl Hv Hn Hf. rewrite Hm.
  assert (moved (km_mem s1) p f PGSIZE (memmove (km_mem s1) p f PGSIZE)) as Hmv.
  { apply memmove_moved; [done|by apply (valid_page_no_wrap kend)..]. }
  apply (take_page kend Hkend d p rest _ s1 s2); try done.
  - intros a Ha. rewrite Hmv. by rewrite bool_decide_false.
  - intros i Hi. rewrite Hmv, bool_decide_true by lia. f_equal. lia.
Qed.

(** The page of the source is where it was. *)
Lemma source_page P d k pages rest s s1 w :
  kmem_ok kend pages s -> user_ok kend pages (km_mem s) P -> 0 <= k < NUSER ->
  mapping (km_mem s) P (PGSIZE * k) = Some w -> building d pages rest s s1 ->
  exists t, walkpgdir P (PGSIZE * k) false s1 = Done t s1 /\ t <> 0 /\ ld32 (km_mem s1) t = w /\ has w PTE_P = true /\
    P2V (PTE_ADDR w) (S := kmem) = ret (frame w) /\ valid (frame w) /\
    forall i, 0 <= i < PGSIZE -> km_mem s1 (frame w + i) = km_mem s (frame w + i).
Proof.
  intros K U Hk Hw Hb. pose proof Hb as [_ _ _ _ Ho]. pose proof (uo_space _ _ _ _ U) as Hs.
  pose proof (only_pages_tables pages s _ P K Hs Ho) as Hsame.
  assert (forall i, 0 <= i < 1024 -> tab (km_mem s1) P i = tab (km_mem s) P i) as Htab by (intros i Hi; by eapply tab_same).
  assert (space_ok kend pages (km_mem s1) P) as Hs1 by (eapply space_ok_ext; [exact Htab|done]).
  assert (mapping (km_mem s1) P (PGSIZE * k) = Some w) as Hw1 by (rewrite <- Hw; by eapply mapping_same).
  destruct (mapping_Some _ _ _ _ Hw1) as (t & Ht & Hld & HP).
  assert (uframe (km_mem s) P k = Some (frame w)) as Hf by (unfold uframe; by rewrite Hw).
  destruct (uo_frame _ _ _ _ U k _ Hk Hf) as (Hv & Hn & _). pose proof (valid_aligned kend _ Hv) as [_ Hr].
  destruct (so_tab _ _ _ _ Hs1 _ t (PDX_range _) Ht) as (Htv & _). pose proof (PTX_range (PGSIZE * k)).
  exists (t + 4 * PTX (PGSIZE * k)). split_and!; try done.
  - by eapply walk_present.
  - unfold valid_page, KERNBASE in Htv. lia.
  - unfold P2V, frame in *. destruct (Z.ltb_spec KERNBASE (PTE_ADDR w)); [unfold KERNBASE, PHYSTOP in *; lia|].
    rewrite u32_small; [done|]. unfold is_u32, u32_mod, KERNBASE, PHYSTOP in *. lia.
  - intros i Hi. by apply (only_pages_byte pages).
Qed.

Definition copy_post (P d n : Z) (pages : list Z) (s : kmem) (r : Z) (s' : kmem) : Prop :=
  (r = 0 /\ undone pages s s') \/ (r = d /\ exists rest, copying P d n pages rest s s').

Lemma copy_no_page P d n pages rest s s1 :
  building d pages rest s s1 -> wp (freevm kend d ;; ret 0) (copy_post P d n pages s) s1.
Proof using Hkend.
  intros Hb. apply wp_bind. eapply wp_mono; [by apply (building_free d pages rest s s1)|].
  intros [] s2 Hu. apply wp_ret. by left.
Qed.

Lemma copy_no_table P d n pages p0 p rest s s0 s1 :
  building d pages p0 s s0 -> in_hand kend d p p0 rest s0 s1 ->
  wp (kfree kend p ;; freevm kend d ;; ret 0) (copy_post P d n pages s) s1.
Proof using Hkend.
  intros Hb Hh. apply wp_bind. eapply wp_mono; [by apply (in_hand_free kend d p p0 rest s0 s1)|].
  intros [] s2 [Hmv _]. eapply copy_no_page. by eapply building_moves.
Qed.

Lemma copyuvm_loop_ok fuel : forall P d k n sz pages rest s s1,
  kmem_ok kend pages s -> user_ok kend pages (km_mem s) P -> n = npages sz -> n <= NUSER ->
  (forall j, 0 <= j < n -> exists w, mapping (km_mem s) P (PGSIZE * j) = Some w) ->
  0 <= k <= n -> copying P d k pages rest s s1 -> n - k < Z.of_nat fuel ->
  wp (copyuvm_loop kend fuel P d (PGSIZE * k) sz) (copy_post P d n pages s) s1.
Proof using Hkend Hdata.
  induction fuel as [|fuel IH]; [lia|]. intros P d k n sz pages rest s s1 K U Hn HnN Hsrc Hk Hcp Hfuel.
  cbn [copyuvm_loop]. pose proof (npages_spec sz k ltac:(lia)) as Hspec. rewrite <- Hn in Hspec.
  destruct (Z.ltb_spec (PGSIZE * k) sz) as [Hlt|Hge].
  2: { apply wp_ret. right. split; [done|]. exists rest. by replace n with k by lia. }
  assert (k < n) as Hkn by (by apply Hspec). destruct (Hsrc k ltac:(lia)) as [w Hw].
  pose proof (cp_building _ _ _ _ _ _ _ Hcp) as Hb. pose proof Hb as [K1 U1 A1 L1 O1].
  destruct (source_page P d k pages rest s s1 w K U ltac:(lia) Hw Hb) as (t & Hwalk & Ht0 & Hld & HP & HP2V & Hfv & Hfd).
  apply wp_bind. eapply wp_intro; [exact Hwalk|]. apply Z.eqb_neq in Ht0. rewrite Ht0.
  apply wp_bind, wp_gets. rewrite Hld, HP. cbn [negb]. apply wp_bind.
  eapply wp_mono; [by apply (kalloc_ok kend rest)|]. intros r s2 (Hm2 & Hl2 & Hr).
  destruct rest as [|p rest].
  { destruct Hr as [-> K2]. cbn [Z.eqb]. apply (copy_no_page P d n pages [] s s2).
    split; rewrite ?Hm2; try done. congruence. }
  destruct Hr as (-> & Hv & Hpr & K2). pose proof (valid_page_nonzero kend p Hv) as Hp0.
  apply Z.eqb_neq in Hp0. rewrite Hp0. rewrite HP2V. apply wp_bind, wp_ret, wp_bind, wp_modify, wp_bind.
  pose proof (copy_taken d p rest s1 s2 (frame w) K1 U1 K2 Hm2 Hl2 Hv Hpr Hfv) as Htk.
  eapply wp_intro; [apply V2P_ok; unfold valid_page in Hv; lia|]. apply wp_bind. destruct (user_page_u32 k) as [Hva Hdiv]; [lia|].
  assert (uframe (km_mem s1) d k = None) as Huk.
  { unfold uframe. rewrite (cp_other _ _ _ _ _ _ _ Hcp) by (done || lia). rewrite kernel_map_user; [done|].
    unfold NUSER, PGSIZE, KERNBASE in *. lia. }
  eapply wp_mono; [apply (map_taken kend Hkend d p rest _ s1 _ k (PTE_FLAGS w) K1 U1 Htk); [lia|done|apply flags_range]|].
  intros r s3 (rest' & [(-> & Hmv3 & Hmp & Hz)|(-> & Hmv3 & Hfr & Hmap)]); cbn [Z.ltb Z.compare].
  - replace (u32 (PGSIZE * k + PGSIZE)) with (PGSIZE * (k + 1))
      by (rewrite u32_small; unfold is_u32, u32_mod, NUSER, PGSIZE in *; lia).
    apply (IH P d (k + 1) n sz pages rest' s s3); try done; try lia.
    eapply (copying_step P d k pages p rest rest' s s1 s3 w); try done; [lia|]. intros i Hi. rewrite Hz by done. auto.
  - eapply (copy_no_table P d n pages (p :: rest) p rest' s s1 s3); [done|].
    eapply in_hand_moves; [|done|done]. eapply moves_take; [by apply moves_refl|exact Htk].
Qed.

Lemma copyuvm_ok P sz pages s :
  kmem_ok kend pages s -> user_ok kend pages (km_mem s) P -> 0 <= sz <= KERNBASE ->
  (forall j, 0 <= j < npages sz -> exists w, mapping (km_mem s) P (PGSIZE * j) = Some w) ->
  wp (copyuvm kend data P sz) (fun d s' =>
    (d = 0 /\ undone pages s s') \/ (d <> 0 /\ exists rest, copying P d (npages sz) pages rest s s')) s.
Proof using Hkend Hdata.
  intros K U Hsz Hsrc. unfold copyuvm. apply wp_bind. eapply wp_mono; [by apply (setupkvm_ok pages)|].
  intros d s1 [(-> & Hu)|(Hd & rest & Hb & Hm)]; [cbn [Z.eqb]; apply wp_ret; by left|].
  pose proof Hd as Hd0. apply Z.eqb_neq in Hd0. rewrite Hd0.
  assert (0 <= npages sz <= NUSER) as Hnp by (unfold npages, NUSER, PGSIZE, KERNBASE in *; zlia).
  eapply wp_mono; [apply (copyuvm_loop_ok _ P d 0 (npages sz) sz pages rest s s1); try done; try lia|].
  - split; [done|..].
    + intros j Hj. lia.
    + intros va Hva _. by apply Hm.
  - unfold npages, PGSIZE in *. zlia.
  - intros r s2 [(-> & Hu)|(-> & rest2 & Hc)]; [by left|]. right. split; [done|]. by exists rest2.
Qed.
End Data.
End Copy.
