(* ===== verification/MemProps.v ===== *)
(** * Properties of memory routines, page allocator, page tables, address spaces *)

From S2P Require Import Prelude Mem KString Kalloc Vm VmInv VmSpace VmAlloc VmCopy.

Local Open Scope c_scope.
Local Open Scope Z_scope.

(** A machine whose kernel image ends at [demo_end]: memory is zero, the free
    list holds one page, and a page directory is empty. *)
Definition demo_end : Z := KERNBASE + 1048576.
Definition demo_dir : Z := demo_end + PGSIZE.
Definition demo_free : Z := demo_end + 2 * PGSIZE.
Definition demo_kmem : kmem := mkKmem (fun _ => 0) false true demo_free.

Lemma demo_kmem_ok : kmem_ok demo_end [demo_free] demo_kmem.
Proof. split; [|apply NoDup_singleton|done]. split; [done|]. by split. Qed.

Lemma demo_space_ok : space_ok demo_end [demo_free] (km_mem demo_kmem) demo_dir.
Proof. split; [split; [done|by intros ?%list_elem_of_singleton]|done..]. Qed.

(** C19: mappages maps a range of pages.  It either succeeds, and then every
    address of the range translates to the physical page at the same distance
    from [pa] with the permissions asked for, or it fails for want of memory,
    having mapped a prefix.  Every other address translates as before, the
    page directory stays well formed, and only free pages and tables of this
    directory are written. *)
Theorem mappages_translates kend pages s d va size pa perm :
  kmem_ok kend pages s -> space_ok kend pages (km_mem s) d ->
  0 <= va -> 0 < size -> va + size <= u32_mod ->
  0 <= pa -> pa + PGSIZE * Z.of_nat (span va size) <= u32_mod -> is_u32 perm ->
  (forall v, PGROUNDDOWN va <= v < PGROUNDDOWN va + PGSIZE * Z.of_nat (span va size) ->
     mapping (km_mem s) d v = None) ->
  wp (mappages d va size pa perm) (fun r s' => exists rest k,
    grown kend d pages rest s s' /\
    ((r = 0 /\ k = span va size) \/ (r = -1 /\ (k < span va size)%nat /\ rest = [])) /\
    forall v, is_u32 v ->
      mapping (km_mem s') d v = mapped_from (mapping (km_mem s) d) (PGROUNDDOWN va) pa perm k v) s.
Proof. apply mappages_ok. Qed.

Lemma mappages_translates_witness :
  wp (mappages demo_dir 4096 4096 8192 6) (fun r s' => exists rest k,
    grown demo_end demo_dir [demo_free] rest demo_kmem s' /\
    ((r = 0 /\ k = span 4096 4096) \/ (r = -1 /\ (k < span 4096 4096)%nat /\ rest = [])) /\
    forall v, is_u32 v ->
      mapping (km_mem s') demo_dir v =
        mapped_from (mapping (km_mem demo_kmem) demo_dir) (PGROUNDDOWN 4096) 8192 6 k v) demo_kmem.
Proof.
  apply (mappages_translates demo_end [demo_free]); [apply demo_kmem_ok|apply demo_space_ok|lia|lia|..].
  - unfold u32_mod. lia.
  - lia.
  - change (span 4096 4096) with 1%nat. unfold PGSIZE, u32_mod. lia.
  - split; [lia|reflexivity].
  - reflexivity.
Defined.

(** Kfree and kalloc are inverse.  A valid page that is not free can be
    freed; the next kalloc returns it, the free list is as before, and no
    byte outside the page has changed. *)
Theorem kfree_kalloc_roundtrip kend pages v s :
  kmem_ok kend pages s -> valid_page kend v -> v ∉ pages ->
  wp (kfree kend v ;; kalloc) (fun r s' => r = v /\ kmem_ok kend pages s' /\
    km_use_lock s' = km_use_lock s /\ page_only v (km_mem s) (km_mem s')) s.
Proof.
  intros Hk Hv Hn. apply wp_bind. eapply wp_mono; [by apply (kfree_ok kend pages)|].
  intros [] s1 (Hk1 & Hu1 & Hout & _). eapply wp_mono; [by apply (kalloc_ok kend (v :: pages))|].
  intros r s2 (Hm & Hu & -> & _ & _ & Hk2). rewrite Hm, Hu. auto.
Qed.

(** kalloc hands out each free page once: it returns 0 exactly when no
    page is free, and otherwise a valid page that is free no longer. *)
Theorem kalloc_exclusive kend pages s :
  kmem_ok kend pages s ->
  wp kalloc (fun r s' => km_mem s' = km_mem s /\ exists rest, kmem_ok kend rest s' /\
    ((r = 0 /\ pages = [] /\ rest = []) \/ (valid_page kend r /\ pages = r :: rest /\ r ∉ rest))) s.
Proof.
  intros Hk. eapply wp_mono; [by apply (kalloc_ok kend pages)|]. intros r s' (Hm & _ & Hr). split; [done|].
  destruct pages as [|p rest]; [destruct Hr as [-> Hr]; exists []; auto|].
  destruct Hr as (-> & Hp & Hn & Hk'). exists rest. auto.
Qed.

(** kinit's freerange frees exactly the whole pages between the two
    addresses, and finishes within its bound. *)
Theorem freerange_frees_whole_pages kend vstart vend pages s :
  kmem_ok kend pages s -> vstart <= vend -> kend <= vstart -> KERNBASE <= vstart ->
  vend <= KERNBASE + PHYSTOP -> (forall q, q ∈ pages -> q < vstart) ->
  wp (freerange kend vstart vend) (fun _ s' => km_use_lock s' = km_use_lock s /\
    kmem_ok kend (reverse (page_run (PGROUNDUP vstart) (fitting (PGROUNDUP vstart) vend)) ++ pages) s') s.
Proof. apply freerange_ok. Qed.

(** memmove copies [n] bytes to the target as they were before the call,
    also when source and target overlap, and changes nothing else. *)
Theorem memmove_copies m dst src n :
  0 <= n -> no_wrap dst (n + 1) -> no_wrap src (n + 1) ->
  forall a, memmove m dst src n a = if bool_decide (dst <= a < dst + n) then m (src + (a - dst)) else m a.
Proof. apply memmove_moved. Qed.

(** uva2ka follows the page table, but does not test for a missing one:
    for an address whose page directory entry is absent it reads the entry
    through the null pointer that walkpgdir returned. *)
Theorem uva2ka_needs_table kend pages s d va :
  space_ok kend pages (km_mem s) d ->
  (forall w, mapping (km_mem s) d va = Some w -> 0 <= PTE_ADDR w < KERNBASE) ->
  uva2ka d va s = match uva2ka_spec (km_mem s) d va with Some a => Done a s | None => Undef s end.
Proof. apply uva2ka_ok. Qed.

(** ** An example: a directory, one table, one user page, one free page *)

Definition ex_end : Z := KERNBASE + 1048576.
Definition ex_dir : Z := ex_end.
Definition ex_table : Z := ex_end + PGSIZE.
Definition ex_page : Z := ex_end + 2 * PGSIZE.
Definition ex_free : Z := ex_end + 3 * PGSIZE.

Definition ex_mem : mem :=
  st32 (st32 (fun _ => 0) ex_dir (Z.lor (ex_table - KERNBASE) 7)) ex_table (Z.lor (ex_page - KERNBASE) 7).

Definition ex_kmem : kmem := mkKmem ex_mem false true ex_free.

Lemma ex_word p i :
  valid_page ex_end p -> 0 <= i < 1024 -> ld32 ex_mem (p + 4 * i) =
    if decide (p = ex_dir /\ i = 0) then Z.lor (ex_table - KERNBASE) 7
    else if decide (p = ex_table /\ i = 0) then Z.lor (ex_page - KERNBASE) 7 else 0.
Proof.
  intros Hp Hi. assert (valid_page ex_end ex_dir /\ valid_page ex_end ex_table) as [Hd Ht] by (by split).
  unfold ex_mem. pose proof (slot_no_wrap ex_end p i Hp Hi) as Hw.
  pose proof (slot_no_wrap ex_end ex_dir 0 Hd ltac:(lia)) as Hwd. pose proof (slot_no_wrap ex_end ex_table 0 Ht ltac:(lia)) as Hwt.
  rewrite Z.mul_0_r, Z.add_0_r in Hwd, Hwt.
  assert (forall q, valid_page ex_end q -> ~ (p = q /\ i = 0) -> q + 4 <= p + 4 * i \/ p + 4 * i + 4 <= q) as Hap.
  { intros q Hq Hne. pose proof (slots_apart ex_end q 0 p i Hq Hp ltac:(lia) Hi) as H. rewrite Z.mul_0_r, Z.add_0_r in H.
    apply H. destruct (Z.eq_dec q p) as [->|]; [right|by left]. intros <-. by apply Hne. }
  destruct (decide (p = ex_table /\ i = 0)) as [[-> ->]|Hn1].
  - rewrite decide_False by (intros [? _]; done). rewrite Z.mul_0_r, Z.add_0_r. by apply ld32_st32.
  - rewrite ld32_st32_ne by auto. destruct (decide (p = ex_dir /\ i = 0)) as [[-> ->]|Hn2].
    + rewrite Z.mul_0_r, Z.add_0_r. by apply ld32_st32.
    + by rewrite ld32_st32_ne by auto.
Qed.

Lemma ex_tab i : 0 <= i < 1024 -> tab ex_mem ex_dir i = if decide (i = 0) then Some ex_table else None.
Proof.
  intros Hi. unfold tab. rewrite ex_word by done. destruct (decide (i = 0)) as [->|Hn].
  - by rewrite decide_True by done.
  - by rewrite !decide_False by (intros [? ?]; done).
Qed.

Lemma ex_mapping k :
  0 <= k < NUSER -> mapping ex_mem ex_dir (PGSIZE * k) = if decide (k = 0) then Some (Z.lor (ex_page - KERNBASE) 7) else None.
Proof.
  intros Hk. destruct (user_page_u32 k Hk) as [Hu _]. unfold mapping, entry. rewrite ex_tab by apply PDX_range.
  destruct (decide (PDX (PGSIZE * k) = 0)) as [Hd|Hd]; cbn.
  - rewrite ex_word by (done || apply PTX_range). rewrite decide_False by (intros [? _]; done).
    rewrite PDX_eq in Hd by done. rewrite PTX_eq by done. destruct (decide (k = 0)) as [->|Hn].
    + by rewrite decide_True by done.
    + rewrite decide_False; [done|]. intros [_ H0]. unfold PGSIZE, NUSER in *. zlia.
  - rewrite decide_False; [done|]. intros ->. by apply Hd.
Qed.

Lemma ex_kmem_ok : kmem_ok ex_end [ex_free] ex_kmem.
Proof. split; [|apply NoDup_singleton|done]. split; [done|]. split; [done|]. reflexivity. Qed.

Lemma ex_user_ok : user_ok ex_end [ex_free] ex_mem ex_dir.
Proof.
  assert (forall k f, 0 <= k < NUSER -> uframe ex_mem ex_dir k = Some f -> k = 0 /\ f = ex_page) as Hf.
  { intros k f Hk. unfold uframe. rewrite ex_mapping by done. destruct (decide (k = 0)) as [->|]; [|done].
    intros [= <-]. done. }
  split; [split|..].
  - split; [done|]. by intros ?%list_elem_of_singleton.
  - intros i t Hi. rewrite ex_tab by done. destruct (decide (i = 0)); [|done]. intros [= <-].
    split_and!; [done| |done]. by intros ?%list_elem_of_singleton.
  - intros i j t Hi Hj. rewrite !ex_tab by done. repeat destruct (decide _); (done || congruence).
  - intros k f Hk Hkf. destruct (Hf k f Hk Hkf) as [-> ->].
    clear Hkf. split; [by split|]. split; [by intros ?%list_elem_of_singleton|].
    intros [?|(i & Hi & Ht)]; [done|]. rewrite ex_tab in Ht by done. by destruct (decide (i = 0)).
  - intros j k f Hj Hk H1%Hf H2%Hf; [|done..]. destruct H1, H2. congruence.
Qed.

(** ** The operations *)

(** C20: copyuvm makes a private copy of the user part of an address space.  It
    either fails, and then every page is free again and no page in use was
    written; or it returns a new address space whose user pages have the
    content and the flags of the original ones, all of them pages that were
    free before, which maps the kernel as every address space does and nothing
    else.  The pages of the new address space and the free pages are together
    the pages that were free. *)
Theorem copyuvm_copies kend data P sz pages s :
  KERNBASE < kend -> data_ok data -> kmem_ok kend pages s -> user_ok kend pages (km_mem s) P -> 0 <= sz <= KERNBASE ->
  (forall j, 0 <= j < npages sz -> exists w, mapping (km_mem s) P (PGSIZE * j) = Some w) ->
  wp (copyuvm kend data P sz) (fun d s' =>
    (d = 0 /\ undone kend pages s s') \/
    (d <> 0 /\ exists rest, building kend d pages rest s s' /\ copied kend (km_mem s) (km_mem s') P d (npages sz) /\
       forall va, is_u32 va -> ~ (va / PGSIZE < npages sz) -> mapping (km_mem s') d va = kernel_map data va)) s.
Proof.
  intros Hk Hd K U Hsz Hsrc. eapply wp_mono; [by apply (copyuvm_ok kend Hk data Hd P sz pages s)|].
  intros d s' [?|(Hd0 & rest & [Hb Hc Ho])]; [by left|]. right. split; [done|]. exists rest.
  split; [done|]. split; [done|]. intros va Hva Hr. apply Ho; [done|lia].
Qed.

Definition ex_data : Z := KERNLINK + PGSIZE.

Lemma copyuvm_copies_witness :
  wp (copyuvm ex_end ex_data ex_dir 100) (fun d s' =>
    (d = 0 /\ undone ex_end [ex_free] ex_kmem s') \/
    (d <> 0 /\ exists rest, building ex_end d [ex_free] rest ex_kmem s' /\ copied ex_end ex_mem (km_mem s') ex_dir d 1 /\
       forall va, is_u32 va -> ~ (va / PGSIZE < 1) -> mapping (km_mem s') d va = kernel_map ex_data va)) ex_kmem.
Proof.
  apply (copyuvm_copies ex_end ex_data ex_dir 100 [ex_free] ex_kmem).
  - reflexivity.
  - split; [reflexivity|split; reflexivity].
  - exact ex_kmem_ok.
  - exact ex_user_ok.
  - split; [discriminate|discriminate].
  - intros j Hj. exists (Z.lor (ex_page - KERNBASE) 7). assert (j = 0) as -> by (change (npages 100) with 1 in Hj; lia).
    exact (ex_mapping 0 ltac:(unfold NUSER; lia)).
Defined.

(** C21: freevm gives back the directory, every page table and every user page
    of an address space, each once, and writes nowhere else. *)
Theorem freevm_frees_all kend d pages s :
  KERNBASE < kend -> kmem_ok kend pages s -> user_ok kend pages (km_mem s) d ->
  wp (freevm kend d) (fun _ s' => exists pages', kmem_ok kend pages' s' /\
    pages' ≡ₚ d :: tables (km_mem s) d ++ frames (km_mem s) d 0 NUSER ++ pages /\ NoDup pages' /\
    forall a, ~ in_tables (frames (km_mem s) d 0 NUSER) (km_mem s) d a -> km_mem s' a = km_mem s a) s.
Proof.
  intros Hk K U. eapply wp_mono; [by apply (freevm_ok kend Hk pages s d)|].
  intros [] s' (pages' & K' & P & _ & F). exists pages'. split; [done|]. split; [done|]. split; [apply K'|done].
Qed.

Lemma freevm_frees_all_witness :
  wp (freevm ex_end ex_dir) (fun _ s' => exists pages', kmem_ok ex_end pages' s' /\
    pages' ≡ₚ ex_dir :: tables ex_mem ex_dir ++ frames ex_mem ex_dir 0 NUSER ++ [ex_free] /\ NoDup pages' /\
    forall a, ~ in_tables (frames ex_mem ex_dir 0 NUSER) ex_mem ex_dir a -> km_mem s' a = ex_mem a) ex_kmem.
Proof. exact (freevm_frees_all ex_end ex_dir [ex_free] ex_kmem eq_refl ex_kmem_ok ex_user_ok). Defined.

(** allocuvm extends the user part.  It refuses a size that reaches into
    the kernel and ignores a smaller one; otherwise it maps zeroed pages that
    were free at every new page and returns the new size, or it returns 0 and
    every address translates as before.  Other addresses are not affected,
    free and owned pages are together what they were, and no page that was in
    use is written, tables apart. *)
Theorem allocuvm_extends kend d pages s oldsz newsz :
  KERNBASE < kend -> kmem_ok kend pages s -> user_ok kend pages (km_mem s) d -> 0 <= oldsz -> 0 <= newsz ->
  (forall va, is_u32 va -> npages oldsz <= va / PGSIZE < npages newsz -> mapping (km_mem s) d va = None) ->
  wp (allocuvm kend d oldsz newsz) (fun r s' =>
    (KERNBASE <= newsz /\ r = 0 /\ s' = s) \/ (newsz < oldsz /\ r = oldsz /\ s' = s) \/
    (oldsz <= newsz < KERNBASE /\ exists pages', moves kend d pages pages' s s' /\
      ((r = newsz /\ maps_new d (npages oldsz) (npages newsz) pages s s') \/
       (r = 0 /\ forall va, is_u32 va -> mapping (km_mem s') d va = mapping (km_mem s) d va)))) s.
Proof. intros Hk K U H0 H1 Hn. by apply (allocuvm_ok kend Hk pages s d oldsz newsz). Qed.
