(* ===== verification/Mp.v ===== *)
(** * mp.c

    The search for the multiprocessor tables of the BIOS and the walk through
    the configuration table.  Memory is the byte memory of Mem.v, which this
    code only reads; the fields of struct mp, mpconf, mpproc and mpioapic are at
    their offsets.

    [entries]: the entries of a table.  The walk ends exactly when it meets no
    entry of an unknown type; it then has the processors, the I/O APIC and the
    end of the table. *)

From S2P Require Import Prelude KState Mem.

Local Open Scope c_scope.
Local Open Scope Z_scope.

Definition MPPROC : Z := 0.
Definition MPBUS : Z := 1.
Definition MPIOAPIC : Z := 2.
Definition MPIOINTR : Z := 3.
Definition MPLINTR : Z := 4.

Definition sizeof_mp : Z := 16.
Definition sizeof_mpconf : Z := 44.
Definition sizeof_mpproc : Z := 20.
Definition sizeof_mpioapic : Z := 8.

Record mpst := mkMpst {
  mp_mem : mem;
  cpus : Z -> Z;             (* apicid of each *)
  ncpu : Z;
  ioapicid : Z;
  lapic : Z;
  imcr : option Z;           (* value written to port 0x23, after 0x70 to port 0x22 *)
}.

Definition set_cpus (v : Z -> Z) (s : mpst) : mpst := mkMpst (mp_mem s) v (ncpu s) (ioapicid s) (lapic s) (imcr s).
Definition set_ncpu (v : Z) (s : mpst) : mpst := mkMpst (mp_mem s) (cpus s) v (ioapicid s) (lapic s) (imcr s).
Definition set_ioapicid (v : Z) (s : mpst) : mpst := mkMpst (mp_mem s) (cpus s) (ncpu s) v (lapic s) (imcr s).
Definition set_lapic (v : Z) (s : mpst) : mpst := mkMpst (mp_mem s) (cpus s) (ncpu s) (ioapicid s) v (imcr s).
Definition set_imcr (v : option Z) (s : mpst) : mpst := mkMpst (mp_mem s) (cpus s) (ncpu s) (ioapicid s) (lapic s) v.

(** p[i] *)
Definition byte (p i : Z) : M mpst Z := gets (fun s => mp_mem s (padd p i)).

(** ** The search *)

Definition bytes_from (m : mem) (a : Z) (n : nat) : list Z := (fun k => m (padd a (Z.of_nat k))) <$> seq 0 n.

(** The sum is an int, of which the low byte is returned. *)
Definition sum (addr len : Z) : M mpst Z :=
  gets (fun s => u8 (foldl Z.add 0 (bytes_from (mp_mem s) addr (Z.to_nat len)))).

(** memcmp with a string of four characters *)
Definition has_signature (p : Z) (sig : list Z) : M mpst bool :=
  gets (fun s => bool_decide (bytes_from (mp_mem s) p (length sig) = sig)).

(** "_MP_" and "PCMP" *)
Definition MP_SIGNATURE : list Z := [95; 77; 80; 95].
Definition PCMP_SIGNATURE : list Z := [80; 67; 77; 80].

Fixpoint mpsearch_loop (fuel : nat) (p e : Z) : M mpst Z :=
  match fuel with
  | O => out_of_fuel
  | S fuel' =>
      if p <? e then
        found <- has_signature p MP_SIGNATURE ;;
        total <- sum p sizeof_mp ;;
        if (found : bool) && (total =? 0) then ret p else mpsearch_loop fuel' (padd p sizeof_mp) e
      else ret 0
  end.

Definition mpsearch1 (a len : Z) : M mpst Z :=
  addr <- P2V a ;;
  let e := padd addr len in
  mpsearch_loop (Z.to_nat (len / sizeof_mp) + 2) addr e.

Definition mpsearch : M mpst Z :=
  bda <- P2V 1024 ;;
  h <- byte bda 15 ;;
  l <- byte bda 14 ;;
  let p := Z.shiftl (Z.lor (Z.shiftl h 8) l) 4 in
  mp <- (if negb (p =? 0) then mpsearch1 p 1024
         else
           h <- byte bda 20 ;;
           l <- byte bda 19 ;;
           let p := Z.lor (Z.shiftl h 8) l * 1024 in
           mpsearch1 (u32 (p - 1024)) 1024) ;;
  if negb (mp =? 0) then ret mp else mpsearch1 983040 65536.

(** ** The configuration table *)

Definition mp_physaddr (mp : Z) : M mpst Z := gets (fun s => ld32 (mp_mem s) (padd mp 4)).
Definition mp_imcrp (mp : Z) : M mpst Z := byte mp 12.
Definition conf_length (conf : Z) : M mpst Z := gets (fun s => mp_mem s (padd conf 4) + 256 * mp_mem s (padd conf 5)).
Definition conf_version (conf : Z) : M mpst Z := byte conf 6.
Definition conf_lapicaddr (conf : Z) : M mpst Z := gets (fun s => ld32 (mp_mem s) (padd conf 36)).

(** Both pointers, or none *)
Definition mpconfig : M mpst (option (Z * Z)) :=
  mp <- mpsearch ;;
  if mp =? 0 then ret None
  else
    phys <- mp_physaddr mp ;;
    if phys =? 0 then ret None
    else
      conf <- P2V phys ;;
      found <- has_signature conf PCMP_SIGNATURE ;;
      if negb found then ret None
      else
        version <- conf_version conf ;;
        if negb (version =? 1) && negb (version =? 4) then ret None
        else
          len <- conf_length conf ;;
          total <- sum conf len ;;
          if negb (total =? 0) then ret None else ret (Some (mp, conf)).

(** The walk: ismp at its end.  The default case of the switch leaves p as it
    is, and the loop goes on. *)
Fixpoint mpinit_loop (fuel : nat) (p e : Z) (ismp : bool) : M mpst bool :=
  match fuel with
  | O => out_of_fuel
  | S fuel' =>
      if p <? e then
        type <- byte p 0 ;;
        if type =? MPPROC then
          n <- gets ncpu ;;
          apicid <- byte p 1 ;;
          when (n <? Z.of_nat NCPU) (modify (fun s => set_ncpu (n + 1) (set_cpus (<[n := apicid]> (cpus s)) s))) ;;
          mpinit_loop fuel' (padd p sizeof_mpproc) e ismp
        else if type =? MPIOAPIC then
          apicno <- byte p 1 ;;
          modify (set_ioapicid apicno) ;;
          mpinit_loop fuel' (padd p sizeof_mpioapic) e ismp
        else if (type =? MPBUS) || (type =? MPIOINTR) || (type =? MPLINTR) then
          mpinit_loop fuel' (padd p 8) e ismp
        else mpinit_loop fuel' p e false
      else ret ismp
  end.

(** [port23] is what inb(0x23) gives. *)
Definition mpinit (fuel : nat) (port23 : Z) : M mpst unit :=
  r <- mpconfig ;;
  match r with
  | None => panic "Expect to run on an SMP"
  | Some (mp, conf) =>
      addr <- conf_lapicaddr conf ;;
      modify (set_lapic addr) ;;
      len <- conf_length conf ;;
      ismp <- mpinit_loop fuel (padd conf sizeof_mpconf) (padd conf len) true ;;
      if negb ismp then panic "Didn't find a suitable machine"
      else
        i <- mp_imcrp mp ;;
        when (negb (i =? 0)) (modify (set_imcr (Some (Z.lor port23 1))))
  end.

(** ** What the search finds *)

Definition is_mp (m : mem) (p : Z) : bool :=
  bool_decide (bytes_from m p 4 = MP_SIGNATURE) && (u8 (foldl Z.add 0 (bytes_from m p 16)) =? 0).

(** The first of [n] places, 16 bytes apart, with a floating pointer structure *)
Definition first_mp (m : mem) (p : Z) (n : Z) (r : Z) : Prop :=
  (exists k, 0 <= k < n /\ r = p + 16 * k /\ is_mp m r = true /\ forall j, 0 <= j < k -> is_mp m (p + 16 * j) = false) \/
  (r = 0 /\ forall j, 0 <= j < n -> is_mp m (p + 16 * j) = false).

Lemma first_mp_next m p n r : is_mp m p = false -> first_mp m (p + 16) n r -> 0 <= n -> first_mp m p (n + 1) r.
Proof.
  intros Hp Hf Hn. assert (forall j l, 0 <= l -> (forall i, 0 <= i < l -> is_mp m (p + 16 + 16 * i) = false) -> 0 <= j < l + 1 -> is_mp m (p + 16 * j) = false) as Haux.
  { intros j l Hl H Hj. destruct (decide (j = 0)) as [->|]; [by rewrite Z.add_0_r|]. specialize (H (j - 1)). replace (p + 16 * j) with (p + 16 + 16 * (j - 1)) by lia. apply H. lia. }
  destruct Hf as [(k & Hk & -> & Hr & Hj)|[-> Hj]].
  - left. exists (k + 1). split_and!; [lia|lia|lia|done|]. intros j Hj'. apply (Haux j k); (done || lia).
  - right. split; [done|]. intros j Hj'. by apply (Haux j n).
Qed.

Lemma mpsearch_loop_ok n s : forall fuel p,
  (n < fuel)%nat -> 0 <= p -> p + 16 * Z.of_nat n < u32_mod ->
  wp (mpsearch_loop fuel p (p + 16 * Z.of_nat n)) (fun r s' => s' = s /\ first_mp (mp_mem s) p (Z.of_nat n) r) s.
Proof.
  induction n as [|n IH]; intros fuel p Hf Hp He; (destruct fuel as [|fuel]; [lia|]); cbn [mpsearch_loop].
  - destruct (Z.ltb_spec p (p + 16 * Z.of_nat 0)); [lia|]. apply wp_ret. split; [done|]. right. split; [done|]. lia.
  - destruct (Z.ltb_spec p (p + 16 * Z.of_nat (S n))); [|lia]. apply wp_bind, wp_gets, wp_bind, wp_gets.
    fold (is_mp (mp_mem s) p). change (Z.to_nat sizeof_mp) with 16%nat. change (length MP_SIGNATURE) with 4%nat. fold (is_mp (mp_mem s) p).
    destruct (is_mp (mp_mem s) p) eqn:Hmp.
    + apply wp_ret. split; [done|]. left. exists 0. split_and!; [lia|lia|lia|done|lia].
    + unfold padd, sizeof_mp. rewrite u32_small by (unfold is_u32; lia). replace (p + 16 * Z.of_nat (S n)) with (p + 16 + 16 * Z.of_nat n) by lia.
      eapply wp_mono; [apply IH; lia|]. intros r s' [-> Hfst]. split; [done|]. replace (Z.of_nat (S n)) with (Z.of_nat n + 1) by lia.
      apply first_mp_next; (done || lia).
Qed.

(** ** The walk *)

Inductive entry := EProc (apicid : Z) | EIoapic (apicno : Z) | EOther (type : Z).

Definition entry_size (x : entry) : Z := match x with EProc _ => sizeof_mpproc | EIoapic _ => sizeof_mpioapic | EOther _ => 8 end.

Definition entry_at (m : mem) (p : Z) (x : entry) : Prop :=
  match x with
  | EProc id => m p = MPPROC /\ m (padd p 1) = id
  | EIoapic no => m p = MPIOAPIC /\ m (padd p 1) = no
  | EOther t => m p = t /\ (t = MPBUS \/ t = MPIOINTR \/ t = MPLINTR)
  end.

Definition unknown (t : Z) : Prop := t <> MPPROC /\ t <> MPIOAPIC /\ t <> MPBUS /\ t <> MPIOINTR /\ t <> MPLINTR.

(** From [p] the walk passes the entries [xs] and comes to [q], which is at or
    beyond the end [e], or has an unknown type. *)
Inductive walk (m : mem) (e : Z) : Z -> list entry -> Z -> Prop :=
| walk_end p : e <= p \/ p < e /\ unknown (m p) -> walk m e p [] p
| walk_entry p x xs q : p < e -> entry_at m p x -> walk m e (p + entry_size x) xs q -> walk m e p (x :: xs) q.

Lemma entry_size_range x : 8 <= entry_size x <= 20.
Proof. destruct x; cbn; unfold sizeof_mpproc, sizeof_mpioapic; lia. Qed.

Lemma known_or_unknown m p : unknown (m p) \/ exists x, entry_at m p x.
Proof.
  destruct (decide (m p = MPPROC)); [right; by exists (EProc (m (padd p 1)))|].
  destruct (decide (m p = MPIOAPIC)); [right; by exists (EIoapic (m (padd p 1)))|].
  destruct (decide (m p = MPBUS \/ m p = MPIOINTR \/ m p = MPLINTR)); [right; by exists (EOther (m p))|].
  left. unfold unknown. tauto.
Qed.

(** Every table is walked, up to its end or to an unknown entry. *)
Lemma walk_exists m e p : exists xs q, walk m e p xs q.
Proof.
  assert (forall n p, e - p < Z.of_nat n -> exists xs q, walk m e p xs q) as Haux.
  { induction n as [|n IH]; intros p' Hn; destruct (decide (e <= p')) as [Hge|Hlt]; try (exists [], p'; constructor; by left); [lia|].
    destruct (known_or_unknown m p') as [Hu|[x Hx]]; [exists [], p'; constructor; right; split; [lia|done]|].
    pose proof (entry_size_range x). destruct (IH (p' + entry_size x)) as (xs & q & Hw); [lia|].
    exists (x :: xs), q. apply walk_entry; (done || lia). }
  apply (Haux (Z.to_nat (e - p + 1))). lia.
Qed.

(** What the entries say *)
Definition cpu_ids (xs : list entry) : list Z := omap (fun x => match x with EProc id => Some id | _ => None end) xs.
Definition last_ioapic (d : Z) (xs : list entry) : Z := foldl (fun d x => match x with EIoapic no => no | _ => d end) d xs.

(** The processors that fit into cpus[] are appended, in the order of the table. *)
Record discovered (xs : list entry) (s s' : mpst) : Prop := mkDiscovered {
  dc_ncpu : ncpu s' = Z.min (Z.of_nat NCPU) (ncpu s + Z.of_nat (length (cpu_ids xs)));
  dc_cpus : forall c, cpus s' c =
    if decide (ncpu s <= c < ncpu s') then default 0 (cpu_ids xs !! Z.to_nat (c - ncpu s)) else cpus s c;
  dc_ioapicid : ioapicid s' = last_ioapic (ioapicid s) xs;
  dc_rest : mp_mem s' = mp_mem s /\ lapic s' = lapic s /\ imcr s' = imcr s;
}.

Definition cpus_ok (s : mpst) : Prop := 0 <= ncpu s <= Z.of_nat NCPU.

Lemma discovered_nil s : cpus_ok s -> discovered [] s s.
Proof. unfold cpus_ok. intros Hn. split; cbn; try done; [lia|]. intros c. by rewrite decide_False by lia. Qed.

(** One processor more *)
Lemma discovered_proc id xs s s' :
  cpus_ok s ->
  discovered xs (if ncpu s <? Z.of_nat NCPU then set_ncpu (ncpu s + 1) (set_cpus (<[ncpu s := id]> (cpus s)) s) else s) s' ->
  discovered (EProc id :: xs) s s'.
Proof.
  unfold cpus_ok. intros Hn. destruct (Z.ltb_spec (ncpu s) (Z.of_nat NCPU)) as [Hlt|Hge]; intros [H1 H2 H3 H4]; cbn [ncpu cpus ioapicid mp_mem lapic imcr set_ncpu set_cpus] in *; split; try done.
  - rewrite H1. change (cpu_ids (EProc id :: xs)) with (id :: cpu_ids xs). cbn [length]. lia.
  - intros c. rewrite H2. change (cpu_ids (EProc id :: xs)) with (id :: cpu_ids xs). destruct (decide (c = ncpu s)) as [->|Hne].
    + rewrite decide_False, decide_True by lia. by rewrite fn_lookup_insert, Z.sub_diag.
    + rewrite fn_lookup_insert_ne by done. repeat case_decide; try lia; try done.
      replace (Z.to_nat (c - ncpu s)) with (S (Z.to_nat (c - (ncpu s + 1)))) by lia. done.
  - rewrite H1. change (cpu_ids (EProc id :: xs)) with (id :: cpu_ids xs). cbn [length]. lia.
  - intros c. rewrite H2. rewrite !decide_False by lia. done.
Qed.

(** The state after one entry *)
Definition seen (x : entry) (s : mpst) : mpst :=
  match x with
  | EProc id => if ncpu s <? Z.of_nat NCPU then set_ncpu (ncpu s + 1) (set_cpus (<[ncpu s := id]> (cpus s)) s) else s
  | EIoapic no => set_ioapicid no s
  | EOther _ => s
  end.

Lemma seen_ok x s : cpus_ok s -> cpus_ok (seen x s) /\ mp_mem (seen x s) = mp_mem s.
Proof. unfold cpus_ok. intros Hn. destruct x; cbn; [|done..]. destruct (Z.ltb_spec (ncpu s) (Z.of_nat NCPU)); cbn; (split; [lia|done]). Qed.

Lemma discovered_cons x xs s s' : cpus_ok s -> discovered xs (seen x s) s' -> discovered (x :: xs) s s'.
Proof. intros Hn Hd. destruct x; [by apply discovered_proc|by destruct Hd; split..]. Qed.

Section Walk.
Context (m : mem) (e : Z) (He : e + 20 <= u32_mod).

Lemma mpinit_turn p x s fuel b :
  0 <= p < e -> entry_at m p x -> mp_mem s = m ->
  mpinit_loop (S fuel) p e b s = mpinit_loop fuel (p + entry_size x) e b (seen x s).
Proof using He.
  intros Hp Hx Hm. pose proof (entry_size_range x) as Hsz. assert (padd p 0 = p) as Hp0 by (unfold padd; rewrite Z.add_0_r; apply u32_small; unfold is_u32; lia).
  assert (padd p (entry_size x) = p + entry_size x) as Hnext by (apply u32_small; unfold is_u32; lia).
  cbn [mpinit_loop]. destruct (Z.ltb_spec p e); [|lia]. unfold byte, bind at 1, gets at 1. rewrite Hp0, Hm, <- Hnext.
  destruct x as [id|no|t]; cbn [entry_at] in Hx; destruct Hx as [-> Hx].
  - cbn [Z.eqb MPPROC seen]. unfold bind, gets, when. rewrite Hm, Hx. by destruct (ncpu s <? Z.of_nat NCPU).
  - cbn. unfold bind, gets, modify. rewrite Hm, Hx. done.
  - destruct Hx as [->|[->| ->]]; done.
Qed.

Lemma mpinit_loop_known p xs q :
  walk m e p xs q -> 0 <= p -> forall s, mp_mem s = m -> cpus_ok s ->
  exists s', discovered xs s s' /\ forall fuel b, mpinit_loop (length xs + fuel) p e b s = mpinit_loop fuel q e b s'.
Proof using He.
  intros Hw. induction Hw as [p _|p x xs q Hlt Hx Hw IH]; intros Hp s Hm Hn; [exists s; split; [by apply discovered_nil|done]|].
  pose proof (entry_size_range x). destruct (seen_ok x s Hn) as [Hn1 Hm1]. destruct (IH ltac:(lia) (seen x s)) as (s' & Hd & Hl); [congruence|done|].
  exists s'. split; [by apply discovered_cons|]. intros fuel b. cbn [length Nat.add]. by rewrite (mpinit_turn p x), Hl.
Qed.

(** From an unknown entry on the loop never ends. *)
Lemma mpinit_loop_stuck p xs q :
  walk m e p xs q -> q < e -> 0 <= p -> forall fuel b s, mp_mem s = m -> cpus_ok s -> exists s', mpinit_loop fuel p e b s = NoFuel s'.
Proof using He.
  intros Hw Hq. induction Hw as [p [Hend|[Hlt Hu]]|p x xs q Hlt Hx Hw IH]; intros Hp fuel b s Hm Hn; [lia| |].
  - exists s. assert (padd p 0 = p) as Hp0 by (unfold padd; rewrite Z.add_0_r; apply u32_small; unfold is_u32; lia).
    revert b. induction fuel as [|fuel IH]; intros b; [done|]. cbn [mpinit_loop]. destruct (Z.ltb_spec p e); [|lia].
    unfold byte, bind at 1, gets at 1. rewrite Hp0, Hm. destruct Hu as (H1 & H2 & H3 & H4 & H5).
    apply Z.eqb_neq in H1, H2, H3, H4, H5. rewrite H1, H2, H3, H4, H5. apply IH.
  - destruct fuel as [|fuel]; [by exists s|]. rewrite (mpinit_turn p x) by (done || lia). pose proof (entry_size_range x).
    destruct (seen_ok x s Hn). apply IH; (done || lia || congruence).
Qed.
End Walk.

(** The search only reads. *)
Definition reads {A} (c : M mpst A) : Prop := forall s a s', c s = Done a s' -> s' = s.

Lemma reads_ret {A} (a : A) : reads (ret a).
Proof. intros s a' s' H. by inversion H. Qed.

Lemma reads_gets {A} (f : mpst -> A) : reads (gets f).
Proof. intros s a s' H. by inversion H. Qed.

Lemma reads_bind {A B} (c : M mpst A) (k : A -> M mpst B) : reads c -> (forall a, reads (k a)) -> reads (bind c k).
Proof. intros Hc Hk s b s' (a & s1 & H1 & H2)%bind_Done_inv. apply Hc in H1 as ->. by apply Hk in H2. Qed.

Lemma reads_P2V a : reads (P2V a).
Proof. intros s r s'. unfold P2V. case_match; intros H'; by inversion H'. Qed.

Lemma reads_search_loop fuel : forall p e, reads (mpsearch_loop fuel p e).
Proof.
  induction fuel as [|fuel IH]; intros p e; cbn [mpsearch_loop]; [done|]. case_match; [|apply reads_ret].
  apply reads_bind; [apply reads_gets|]. intros found. apply reads_bind; [apply reads_gets|]. intros total. case_match; [apply reads_ret|apply IH].
Qed.

Lemma reads_search1 a n : reads (mpsearch1 a n).
Proof. apply reads_bind; [apply reads_P2V|]. intros addr. apply reads_search_loop. Qed.

Ltac reads := repeat (first [apply reads_ret | apply reads_gets | apply reads_P2V | apply reads_search1 | apply reads_bind; [|intros ?] | case_match]).

Lemma mpconfig_reads : reads mpconfig.
Proof. unfold mpconfig, mpsearch. reads. Qed.

(** mpsearch1 finds the first floating pointer structure of its range. *)
Theorem mpsearch1_finds_first a n s :
  0 <= a -> 0 <= n -> a + KERNBASE + 16 * n < u32_mod ->
  wp (mpsearch1 a (16 * n)) (fun r s' => s' = s /\ first_mp (mp_mem s) (a + KERNBASE) n r) s.
Proof.
  intros Ha Hn Hw. destruct (Z_of_nat_complete n Hn) as [k ->]. unfold mpsearch1. apply wp_bind. eapply wp_intro; [apply P2V_ok; unfold KERNBASE, u32_mod in *; lia|].
  unfold padd. rewrite u32_small by (unfold is_u32, KERNBASE in *; lia). unfold sizeof_mp. replace (16 * Z.of_nat k / 16) with (Z.of_nat k) by zlia.
  rewrite Nat2Z.id. apply mpsearch_loop_ok; unfold KERNBASE in *; lia.
Qed.

(** C28: the walk of mpinit through the configuration table ends exactly if the
    table has no entry of an unknown type.  It then has entered the processors
    of the table into cpus[], in order and at most NCPU of them, and the last
    I/O APIC; at an unknown entry, where the code means to give up with a
    panic, the loop stays for ever. *)
Theorem mpinit_terminates port23 s mp conf len xs q :
  mpconfig s = Done (Some (mp, conf)) s -> conf_length conf s = Done len s -> cpus_ok s ->
  0 <= conf -> 0 <= len -> conf + Z.max sizeof_mpconf len + 20 <= u32_mod ->
  walk (mp_mem s) (conf + len) (conf + sizeof_mpconf) xs q ->
  (conf + len <= q -> forall fuel, (length xs < fuel)%nat ->
    wp (mpinit fuel port23) (fun _ s' => exists s1, discovered xs (set_lapic (ld32 (mp_mem s) (padd conf 36)) s) s1 /\
      s' = if mp_mem s (padd mp 12) =? 0 then s1 else set_imcr (Some (Z.lor port23 1)) s1) s) /\
  (q < conf + len -> forall fuel, exists s', mpinit fuel port23 s = NoFuel s').
Proof.
  intros Hc Hlen Hn Hconf Hl0 Hw Hwalk. set (s0 := set_lapic (ld32 (mp_mem s) (padd conf 36)) s).
  assert (forall fuel, mpinit fuel port23 s = (ismp <- mpinit_loop fuel (conf + sizeof_mpconf) (conf + len) true ;;
    if negb ismp then panic "Didn't find a suitable machine"
    else i <- mp_imcrp mp ;; when (negb (i =? 0)) (modify (set_imcr (Some (Z.lor port23 1))))) s0) as Heq.
  { intros fuel. unfold mpinit. rewrite (bind_done _ _ _ _ _ Hc). unfold conf_lapicaddr, bind at 1 2, gets, modify. fold s0.
    assert (conf_length conf s0 = Done len s0) as Hlen0 by (unfold conf_length, gets in *; inversion Hlen; done).
    rewrite (bind_done _ _ _ _ _ Hlen0). unfold padd. rewrite !u32_small by (unfold is_u32, sizeof_mpconf in *; lia). done. }
  assert (conf + len + 20 <= u32_mod) as He by lia. assert (0 <= conf + sizeof_mpconf) as Hp by (unfold sizeof_mpconf; lia). split.
  - intros Hq fuel Hf. destruct (mpinit_loop_known _ _ He _ _ _ Hwalk Hp s0 eq_refl Hn) as (s1 & Hd & Hl).
    specialize (Hl (fuel - length xs)%nat true). replace (length xs + (fuel - length xs))%nat with fuel in Hl by lia.
    replace (fuel - length xs)%nat with (S (fuel - length xs - 1)) in Hl by lia. cbn [mpinit_loop] in Hl.
    destruct (Z.ltb_spec q (conf + len)); [lia|]. unfold wp. rewrite Heq, (bind_done _ _ _ _ _ Hl). cbn [negb].
    unfold mp_imcrp, byte, bind, gets. destruct (dc_rest _ _ _ Hd) as [-> _]. change (mp_mem s0) with (mp_mem s).
    destruct (mp_mem s (padd mp 12) =? 0); by exists s1.
  - intros Hq fuel. destruct (mpinit_loop_stuck _ _ He _ _ _ Hwalk Hq Hp fuel true s0 eq_refl Hn) as (s' & Hs).
    exists s'. rewrite Heq. unfold bind. by rewrite Hs.
Qed.

(** ** Witness: a table with one processor and one I/O APIC, at 0x1000 *)

Definition ex_mp : list Z := [95; 77; 80; 95; 0; 16; 0; 0; 1; 4; 16; 0; 128; 0; 0; 0].
Definition ex_conf : list Z :=
  [80; 67; 77; 80; 72; 0; 4; 154] ++ repeat 0 26 ++ [2; 0; 0; 0; 224; 254; 0; 0; 0; 0] ++ [0; 3] ++ repeat 0 18 ++ [2; 5] ++ repeat 0 6.

Definition ex_mpmem (a : Z) : Z :=
  let a := a - KERNBASE in
  if a =? 1043 then 1
  else if (983040 <=? a) && (a <? 983056) then nth (Z.to_nat (a - 983040)) ex_mp 0
  else if (4096 <=? a) && (a <? 4168) then nth (Z.to_nat (a - 4096)) ex_conf 0
  else 0.

Definition ex_mpst : mpst := mkMpst ex_mpmem (fun _ => 0) 0 0 0 None.

Lemma mpinit_terminates_witness :
  wp (mpinit 3 0) (fun _ s' => exists s1, discovered [EProc 3; EIoapic 5] (set_lapic 4276092928 ex_mpst) s1 /\ s' = set_imcr (Some 1) s1) ex_mpst.
Proof.
  refine (proj1 (mpinit_terminates 0 ex_mpst (983040 + KERNBASE) (4096 + KERNBASE) 72 [EProc 3; EIoapic 5] (4168 + KERNBASE) _ _ _ _ _ _ _) _ 3%nat _).
  - assert (match mpconfig ex_mpst with Done r _ => r | _ => None end = Some (983040 + KERNBASE, 4096 + KERNBASE)) as Hr by (vm_compute; reflexivity).
    destruct (mpconfig ex_mpst) as [r s'| | |] eqn:E; [|discriminate Hr..]. rewrite (mpconfig_reads _ _ _ E), Hr. reflexivity.
  - assert (ex_mpmem (padd (4096 + KERNBASE) 4) + 256 * ex_mpmem (padd (4096 + KERNBASE) 5) = 72) as Hr by (vm_compute; reflexivity).
    unfold conf_length, gets. change (mp_mem ex_mpst) with ex_mpmem. rewrite Hr. reflexivity.
  - unfold cpus_ok. cbn. lia.
  - done.
  - done.
  - done.
  - apply walk_entry; [done|done|]. apply walk_entry; [done|done|]. apply walk_end. left. done.
  - done.
  - cbn. lia.
Defined.
