(* ===== verification/KEnv.v ===== *)
(** * What proc.c, trap.c and sysproc.c call in the rest of the kernel

    The page allocator (kalloc.c), page tables (vm.c), file table (file.c),
    inode cache (fs.c) and log (log.c), as operations on the state [E] of those
    components.  The definitions of proc.c are written against this interface.

    The operations work on [E] alone.  Those that exit calls and that wake
    processes (fileclose of a pipe, iput and end_op) give the channels of their
    wakeups, in order, and proc.c runs these on the process table.  A call that
    would have to sleep does not return: it is one of the faults [F]. *)

From S2P Require Import Prelude Mem KState.

Local Open Scope c_scope.

Class KEnv (E : Type) := {
  ke_kalloc : M E Z;                         (* kalloc: a page, or 0 *)
  ke_kfree : Z -> M E unit;                  (* kfree *)
  ke_frame : Z -> E -> trapframe;            (* the trap frame at the top of a kernel stack *)
  ke_setupkvm : M E Z;                       (* setupkvm: a page directory, or 0 *)
  ke_inituvm : Z -> M E unit;                (* inituvm with the initcode binary *)
  ke_copyuvm : Z -> Z -> M E Z;              (* copyuvm: a page directory, or 0 *)
  ke_allocuvm : Z -> Z -> Z -> M E Z;        (* allocuvm: the new size, or 0 *)
  ke_deallocuvm : Z -> Z -> Z -> M E Z;      (* deallocuvm *)
  ke_freevm : Z -> M E unit;                 (* freevm *)
  ke_kpgdir : E -> Z;                        (* the global kpgdir *)
  ke_filedup : nat -> M E unit;              (* filedup *)
  ke_fileclose : nat -> M E (list chan);     (* fileclose, with the channels it wakes *)
  ke_idup : nat -> M E unit;                 (* idup *)
  ke_iput : nat -> M E (list chan);          (* iput *)
  ke_namei_root : M E (option nat);          (* namei of the root path *)
  ke_begin_op : M E unit;                    (* begin_op *)
  ke_end_op : M E (list chan);               (* end_op *)
  ke_fsinit : M E unit;                      (* iinit(ROOTDEV); initlog(ROOTDEV) *)
}.

(** Running such an operation inside proc.c touches nothing but [k_env]. *)
Definition lift {E A} (m : M E A) : M (kst E) A := fun s =>
  match m (k_env s) with
  | Done a e => Done a (set_k_env e s)
  | Panic msg e => Panic msg (set_k_env e s)
  | Undef e => Undef (set_k_env e s)
  | NoFuel e => NoFuel (set_k_env e s)
  end.

(** What proc.c relies on: an invariant of those components that every
    operation keeps, and page directories that are kernel addresses.  [F] are
    the faults (panics of the allocator, the file system, ...) that the
    operations may stop the machine with. *)
Class KEnvOk (E : Type) `{KEnv E} (F : fault -> Prop) := {
  ke_inv : E -> Prop;
  ke_kpgdir_ok e : ke_inv e -> (KERNBASE <= ke_kpgdir e)%Z;
  ke_kalloc_ok e : ke_inv e -> wpf F ke_kalloc (fun _ e' => ke_inv e') e;
  ke_kfree_ok e a : ke_inv e -> wpf F (ke_kfree a) (fun _ e' => ke_inv e') e;
  ke_setupkvm_ok e : ke_inv e ->
    wpf F ke_setupkvm (fun d e' => ke_inv e' /\ (d = 0 \/ KERNBASE <= d)%Z) e;
  ke_inituvm_ok e d : ke_inv e -> wpf F (ke_inituvm d) (fun _ e' => ke_inv e') e;
  ke_copyuvm_ok e d sz : ke_inv e ->
    wpf F (ke_copyuvm d sz) (fun d' e' => ke_inv e' /\ (d' = 0 \/ KERNBASE <= d')%Z) e;
  ke_allocuvm_ok e d o n : ke_inv e -> wpf F (ke_allocuvm d o n) (fun _ e' => ke_inv e') e;
  ke_deallocuvm_ok e d o n : ke_inv e -> wpf F (ke_deallocuvm d o n) (fun _ e' => ke_inv e') e;
  ke_freevm_ok e d : ke_inv e -> wpf F (ke_freevm d) (fun _ e' => ke_inv e') e;
  ke_filedup_ok e f : ke_inv e -> wpf F (ke_filedup f) (fun _ e' => ke_inv e') e;
  ke_fileclose_ok e f : ke_inv e -> wpf F (ke_fileclose f) (fun _ e' => ke_inv e') e;
  ke_idup_ok e i : ke_inv e -> wpf F (ke_idup i) (fun _ e' => ke_inv e') e;
  ke_iput_ok e i : ke_inv e -> wpf F (ke_iput i) (fun _ e' => ke_inv e') e;
  ke_namei_root_ok e : ke_inv e -> wpf F ke_namei_root (fun _ e' => ke_inv e') e;
  ke_begin_op_ok e : ke_inv e -> wpf F ke_begin_op (fun _ e' => ke_inv e') e;
  ke_end_op_ok e : ke_inv e -> wpf F ke_end_op (fun _ e' => ke_inv e') e;
  ke_fsinit_ok e : ke_inv e -> wpf F ke_fsinit (fun _ e' => ke_inv e') e;
}.

Lemma wpf_lift {E A} (F : fault -> Prop) (m : M E A) (Q : A -> kst E -> Prop) s :
  wpf F m (fun a e => Q a (set_k_env e s)) (k_env s) -> wpf F (lift m) Q s.
Proof. unfold wpf, lift. by destruct (m (k_env s)). Qed.
