(* ===== verification/Proc.v ===== *)
(** * proc.c: processes

    Every function of proc.c below the skip list, as a computation on [kst].

    swtch saves the registers of one kernel thread and resumes another, so a
    function that calls sched is two definitions: what runs up to the swtch
    ([..._enter], which ends in [sched]) and what runs when the thread is
    resumed, which [resume] selects by the saved context.  The scheduler loop
    is [scheduler_pick], up to its swtch, and [scheduler_back], after it. *)

From S2P Require Import Prelude Mem KState Spinlock SkipList KEnv.

Local Open Scope c_scope.
Local Open Scope Z_scope.

Section Proc.
Context {E : Type} `{KEnv E}.
Context (stray : kst E -> nptr -> option nat).

(** ** pinit *)

Definition pinit : M (kst E) unit :=
  initlock PtableLock ;;
  acquire PtableLock ;;
  pinit_levels ;;
  release PtableLock.

(** ** myproc *)

Definition myproc : M (kst E) (option nat) :=
  pushcli ;;
  c <- mycpu ;;
  popcli ;;
  ret (c_proc c).

(** [myproc()] where the code dereferences the result. *)
Definition curproc : M (kst E) nat :=
  p <- myproc ;;
  match p with Some p => ret p | None => undef end.

Definition proc_ids : list nat := seq 0 NPROC.

(** ** allocproc *)

Definition allocproc : M (kst E) (option nat) :=
  acquire PtableLock ;;
  r <- gets (fun s => List.find (fun p => bool_decide (p_state (k_proc s p) = UNUSED)) proc_ids) ;;
  match r with
  | None => release PtableLock ;; ret None
  | Some p =>
      put_proc p (set_p_virt_deadline 0) ;;
      put_proc p (set_p_nice 0) ;;
      put_proc p (set_p_state EMBRYO) ;;
      pid <- gets k_nextpid ;;
      modify (set_k_nextpid (i32 (pid + 1))) ;;
      put_proc p (set_p_pid pid) ;;
      release PtableLock ;;
      kstack <- lift ke_kalloc ;;
      put_proc p (set_p_kstack kstack) ;;
      if kstack =? 0 then
        put_proc p (set_p_state UNUSED) ;; ret None
      else
        tf <- gets (fun s => ke_frame kstack (k_env s)) ;;
        put_proc p (set_p_tf tf) ;;
        put_proc p (set_p_context CtxForkret) ;;
        ret (Some p)
  end.

(** ** switchuvm and switchkvm (vm.c)

    Of the task state segment the field esp0, which depends on the process; the
    descriptor of the segment, which does not, is [set_tss] of X86.v. *)

Definition switchuvm (p : option nat) : M (kst E) unit :=
  match p with
  | None => panic "switchuvm: no process"
  | Some p =>
      pr <- get_proc p ;;
      if p_kstack pr =? 0 then panic "switchuvm: no kstack"
      else if p_pgdir pr =? 0 then panic "switchuvm: no pgdir"
      else
        pushcli ;;
        set_cpu (set_c_esp0 (u32 (p_kstack pr + KSTACKSIZE))) ;;
        pa <- V2P (p_pgdir pr) ;;
        set_cpu (set_c_cr3 pa) ;;
        popcli
  end.

Definition switchkvm : M (kst E) unit :=
  d <- gets (fun s => ke_kpgdir (k_env s)) ;;
  pa <- V2P d ;;
  set_cpu (set_c_cr3 pa).

(** ** userinit *)

(** The trap frame of the first process: zero but for these registers. *)
Definition init_frame : trapframe :=
  let ds := Z.lor (Z.shiftl SEG_UDATA 3) DPL_USER in
  mkTrapframe 0 0 0 0 0 0 0 0 0 0 ds ds 0 0 0
    (Z.lor (Z.shiftl SEG_UCODE 3) DPL_USER) FL_IF PGSIZE ds.

(** [acquire(&ptable.lock); p->state = RUNNABLE; insert(&ptable, p); release(&ptable.lock)],
    the end of userinit and of nicefork. *)
Definition make_runnable (p : nat) : M (kst E) unit :=
  acquire PtableLock ;;
  put_proc p (set_p_state RUNNABLE) ;;
  insert p ;;
  release PtableLock.

Definition userinit : M (kst E) unit :=
  r <- allocproc ;;
  modify (set_k_initproc r) ;;
  match r with
  | None => undef                                   (* p->pgdir = ... with p null *)
  | Some p =>
      d <- lift ke_setupkvm ;;
      put_proc p (set_p_pgdir d) ;;
      if d =? 0 then panic "userinit: out of memory?"
      else
        lift (ke_inituvm d) ;;
        put_proc p (set_p_sz PGSIZE) ;;
        put_proc p (set_p_tf init_frame) ;;
        put_proc p (set_p_nice 0) ;;
        t <- gets k_ticks ;;
        put_proc p (set_p_virt_deadline (computevd 0 (i32 t))) ;;
        put_proc p (fun pr => set_p_name (safestrcpy (p_name pr) (cstr "initcode") 16) pr) ;;
        cwd <- lift ke_namei_root ;;
        put_proc p (set_p_cwd cwd) ;;
        make_runnable p
  end.

(** ** growproc *)

Definition growproc (n : Z) : M (kst E) Z :=
  p <- curproc ;;
  pr <- get_proc p ;;
  let sz := p_sz pr in
  r <- (if 0 <? n then
          sz' <- lift (ke_allocuvm (p_pgdir pr) sz (u32 (sz + n))) ;;
          ret (if sz' =? 0 then None else Some sz')
        else if n <? 0 then
          sz' <- lift (ke_deallocuvm (p_pgdir pr) sz (u32 (sz + n))) ;;
          ret (if sz' =? 0 then None else Some sz')
        else ret (Some sz)) ;;
  match r with
  | None => ret (-1)
  | Some sz' =>
      put_proc p (set_p_sz sz') ;;
      switchuvm (Some p) ;;
      ret 0
  end.

(** ** nicefork and fork *)

(** [for(i = 0; i < NOFILE; i++) if(curproc->ofile[i]) np->ofile[i] = filedup(...)] *)
Definition dup_files (cur np : nat) : M (kst E) unit :=
  for_each (seq 0 NOFILE) (fun i =>
    pr <- get_proc cur ;;
    match p_ofile pr i with
    | Some f =>
        lift (ke_filedup f) ;;
        put_proc np (fun q => set_p_ofile (<[i := Some f]> (p_ofile q)) q)
    | None => ret tt
    end).

(** From [np->sz = curproc->sz] to the copy of the name. *)
Definition fork_copy (cur np : nat) : M (kst E) unit :=
  pr <- get_proc cur ;;
  put_proc np (set_p_sz (p_sz pr)) ;;
  put_proc np (set_p_parent (Some cur)) ;;
  put_proc np (set_p_tf (p_tf pr)) ;;
  put_proc np (fun q => set_p_tf (set_tf_eax 0 (p_tf q)) q) ;;
  dup_files cur np ;;
  cq <- get_proc cur ;;
  match p_cwd cq with
  | None => undef                                           (* idup(0) *)
  | Some ip =>
      lift (ke_idup ip) ;;
      put_proc np (set_p_cwd (Some ip)) ;;
      put_proc np (fun q => set_p_name (safestrcpy (p_name q) (p_name cq) 16) q)
  end.

(** From [pid = np->pid] on. *)
Definition fork_start (np : nat) (nice_value : Z) : M (kst E) Z :=
  nq <- get_proc np ;;
  let pid := p_pid nq in
  put_proc np (set_p_nice nice_value) ;;
  t <- gets k_ticks ;;
  put_proc np (set_p_virt_deadline (computevd nice_value (i32 t))) ;;
  make_runnable np ;;
  ret pid.

Definition nicefork (nice_value : Z) : M (kst E) Z :=
  if (nice_value <? NICE_FIRST_LEVEL) || (NICE_LAST_LEVEL <? nice_value)
  then panic "invalid nice value"
  else
    cur <- curproc ;;
    r <- allocproc ;;
    match r with
    | None => ret (-1)
    | Some np =>
        pr <- get_proc cur ;;
        d <- lift (ke_copyuvm (p_pgdir pr) (p_sz pr)) ;;
        put_proc np (set_p_pgdir d) ;;
        if d =? 0 then
          nq <- get_proc np ;;
          lift (ke_kfree (p_kstack nq)) ;;
          put_proc np (set_p_kstack 0) ;;
          put_proc np (set_p_state UNUSED) ;;
          ret (-1)
        else
          fork_copy cur np ;;
          fork_start np nice_value
    end.

Definition fork : M (kst E) Z := nicefork 0.

(** ** sched: up to its swtch to the scheduler *)

Definition sched (k : sched_caller) : M (kst E) unit :=
  p <- curproc ;;
  h <- holding PtableLock ;;
  if negb h then panic "sched ptable.lock"
  else
    c <- mycpu ;;
    if negb (c_ncli c =? 1) then panic "sched locks"
    else
      pr <- get_proc p ;;
      if bool_decide (p_state pr = RUNNING) then panic "sched running"
      else
        on <- interrupts_on ;;
        if on : bool then panic "sched interruptible"
        else
          c' <- mycpu ;;
          put_proc p (set_p_context (CtxSched (c_intena c') k)).

(** ** yield *)

Definition yield_enter : M (kst E) unit :=
  p <- curproc ;;
  acquire PtableLock ;;
  put_proc p (set_p_state RUNNABLE) ;;
  delete stray p ;;
  pr <- get_proc p ;;
  t <- gets k_ticks ;;
  put_proc p (set_p_virt_deadline (computevd (p_nice pr) (i32 t))) ;;
  insert p ;;
  sched FromYield.

(** ** wakeup1, wakeup *)

Definition wakeup1 (ch : chan) : M (kst E) unit :=
  for_each proc_ids (fun p =>
    pr <- get_proc p ;;
    when (bool_decide (p_state pr = SLEEPING) && bool_decide (p_chan pr = ch))
      (put_proc p (set_p_state RUNNABLE) ;; insert p ;; ret tt)).

Definition wakeup (ch : chan) : M (kst E) unit :=
  acquire PtableLock ;;
  wakeup1 ch ;;
  release PtableLock.

(** An operation of the rest of the kernel, and the wakeups it makes.  They do
    not depend on each other: the operation works on [k_env], the wakeups on the
    process table. *)
Definition waking (m : M E (list chan)) : M (kst E) unit :=
  l <- lift m ;;
  for_each l wakeup.

(** ** sleep *)

(** [p->state == RUNNABLE || p->state == RUNNING], then delete *)
Definition delete_if_queued (p : nat) : M (kst E) unit :=
  pr <- get_proc p ;;
  when (bool_decide (p_state pr = RUNNABLE) || bool_decide (p_state pr = RUNNING))
    (delete stray p ;; ret tt).

Definition sleep_enter (ch : chan) (lk : option lockid) : M (kst E) unit :=
  r <- myproc ;;
  match r, lk with
  | None, _ => panic "sleep"
  | Some _, None => panic "sleep without lk"
  | Some p, Some lk =>
      when (bool_decide (lk <> PtableLock)) (acquire PtableLock ;; release lk) ;;
      put_proc p (set_p_chan ch) ;;
      delete_if_queued p ;;
      put_proc p (set_p_state SLEEPING) ;;
      sched (FromSleep lk)
  end.

(** After the swtch back into the sleeper. *)
Definition sleep_return (p : nat) (lk : lockid) : M (kst E) unit :=
  put_proc p (set_p_chan NoChan) ;;
  when (bool_decide (lk <> PtableLock)) (release PtableLock ;; acquire lk).

(** ** exit *)

Definition close_files (p : nat) : M (kst E) unit :=
  for_each (seq 0 NOFILE) (fun fd =>
    pr <- get_proc p ;;
    match p_ofile pr fd with
    | Some f =>
        waking (ke_fileclose f) ;;
        put_proc p (fun q => set_p_ofile (<[fd := None]> (p_ofile q)) q)
    | None => ret tt
    end).

(** [for(p = ptable.proc; ...) if(p->parent == curproc) ...] *)
Definition reparent (cur : nat) : M (kst E) unit :=
  for_each proc_ids (fun p =>
    pr <- get_proc p ;;
    when (bool_decide (p_parent pr = Some cur))
      (ip <- gets k_initproc ;;
       put_proc p (set_p_parent ip) ;;
       when (bool_decide (p_state pr = ZOMBIE)) (wakeup1 (chan_of_proc ip)))).

(** What exit does before it takes ptable.lock. *)
Definition exit_files (p : nat) : M (kst E) unit :=
  close_files p ;;
  lift ke_begin_op ;;
  pr <- get_proc p ;;
  match p_cwd pr with
  | None => undef                                           (* iput(0) *)
  | Some ip =>
      waking (ke_iput ip) ;;
      waking ke_end_op ;;
      put_proc p (set_p_cwd None)
  end.

(** From the first acquire of ptable.lock to the swtch in sched. *)
Definition exit_locked (p : nat) : M (kst E) unit :=
  acquire PtableLock ;;
  delete_if_queued p ;;
  pr <- get_proc p ;;
  wakeup1 (chan_of_proc (p_parent pr)) ;;
  reparent p ;;
  put_proc p (set_p_state ZOMBIE) ;;
  release PtableLock ;;
  acquire PtableLock ;;
  sched FromExit.

Definition exit_enter : M (kst E) unit :=
  p <- curproc ;;
  ip <- gets k_initproc ;;
  if bool_decide (ip = Some p) then panic "init exiting"
  else exit_files p ;; exit_locked p.

(** ** wait *)

(** The table scan: the pid of a child reaped, or whether there are children. *)
Fixpoint wait_scan (l : list nat) (cur : nat) (havekids : bool) : M (kst E) (bool + Z) :=
  match l with
  | [] => ret (inl havekids)
  | p :: l' =>
      pr <- get_proc p ;;
      if negb (bool_decide (p_parent pr = Some cur)) then wait_scan l' cur havekids
      else if bool_decide (p_state pr = ZOMBIE) then
        let pid := p_pid pr in
        lift (ke_kfree (p_kstack pr)) ;;
        put_proc p (set_p_kstack 0) ;;
        lift (ke_freevm (p_pgdir pr)) ;;
        put_proc p (set_p_pid 0) ;;
        put_proc p (set_p_parent None) ;;
        put_proc p (fun q => set_p_name (<[0%nat := 0]> (p_name q)) q) ;;
        put_proc p (set_p_killed false) ;;
        put_proc p (set_p_state UNUSED) ;;
        release PtableLock ;;
        ret (inr pid)
      else wait_scan l' cur true
  end.

(** One turn of [for(;;)], with ptable.lock held: the value returned, or
    [None] when the process goes to sleep. *)
Definition wait_round (cur : nat) : M (kst E) (option Z) :=
  r <- wait_scan proc_ids cur false ;;
  match r with
  | inr pid => ret (Some pid)
  | inl havekids =>
      pr <- get_proc cur ;;
      if negb havekids || p_killed pr then
        release PtableLock ;; ret (Some (-1))
      else
        sleep_enter (ProcChan cur) (Some PtableLock) ;; ret None
  end.

Definition wait_enter : M (kst E) (option Z) :=
  cur <- curproc ;;
  acquire PtableLock ;;
  wait_round cur.

(** ** kill *)

Fixpoint kill_scan (l : list nat) (pid : Z) : M (kst E) Z :=
  match l with
  | [] => release PtableLock ;; ret (-1)
  | p :: l' =>
      pr <- get_proc p ;;
      if bool_decide (p_pid pr = pid) then
        put_proc p (set_p_killed true) ;;
        when (bool_decide (p_state pr = SLEEPING))
          (put_proc p (set_p_state RUNNABLE) ;; insert p ;; ret tt) ;;
        release PtableLock ;;
        ret 0
      else kill_scan l' pid
  end.

Definition kill (pid : Z) : M (kst E) Z :=
  acquire PtableLock ;;
  kill_scan proc_ids pid.

(** ** schedlog and the line the scheduler prints *)

Definition schedlog (n : Z) : M (kst E) unit :=
  modify (set_k_schedlog_active 1) ;;
  t <- gets k_ticks ;;
  modify (set_k_schedlog_lasttick (i32 (t + n))).

(** The highest index of a slot in use, -1 for none. *)
Definition highest_idx (s : kst E) : Z :=
  fold_left (fun h k => if bool_decide (p_state (k_proc s k) <> UNUSED) then Z.of_nat k else h)
    proc_ids (-1).

Definition schedlog_line : M (kst E) unit :=
  t <- gets k_ticks ;;
  print (MsgTick t) ;;
  h <- gets highest_idx ;;
  for_each (seq 0 (Z.to_nat (h + 1))) (fun k =>
    pr <- get_proc k ;;
    (if bool_decide (p_state pr = UNUSED) then print MsgSlotUnused
     else print (MsgSlot (p_pid pr) (p_name pr) (p_state pr) (p_nice pr)
                   (p_max_skiplist_level pr) (p_virt_deadline pr) (p_ticks_left pr))) ;;
    when (negb (Z.of_nat k =? h)) (print MsgComma)) ;;
  print MsgNewline.

Definition schedlog_step : M (kst E) unit :=
  a <- gets k_schedlog_active ;;
  if a =? 0 then ret tt
  else
    t <- gets k_ticks ;;
    last <- gets k_schedlog_lasttick ;;
    if u32 last <? t                                  (* ticks is unsigned *)
    then modify (set_k_schedlog_active 0)
    else schedlog_line.

(** ** scheduler: one turn of its loop, up to the swtch into a process *)

(** What the loop does with the process [p] it has chosen. *)
Definition scheduler_take (p : nat) : M (kst E) unit :=
  set_cpu (set_c_proc (Some p)) ;;
  switchuvm (Some p) ;;
  put_proc p (set_p_state RUNNING) ;;
  put_proc p (set_p_ticks_left BFS_DEFAULT_QUANTUM) ;;
  schedlog_step.

Definition scheduler_pick : M (kst E) (option nat) :=
  sti ;;
  acquire PtableLock ;;
  head <- load (NAt 0 0) ;;
  match n_next head with
  | NNull => release PtableLock ;; ret None
  | nx =>
      n <- load nx ;;
      match n_proc n with
      | None => panic "selected process is 0"
      | Some p => scheduler_take p ;; ret (Some p)
      end
  end.

(** After the swtch back from a process. *)
Definition scheduler_back : M (kst E) unit :=
  switchkvm ;;
  set_cpu (set_c_proc None) ;;
  release PtableLock.

(** ** forkret *)

Definition forkret : M (kst E) unit :=
  release PtableLock ;;
  first <- gets k_first ;;
  when first
    (modify (set_k_first false) ;;
     lift ke_fsinit).

(** ** Where a process goes on when the scheduler switches to it *)

Definition resume (p : nat) : M (kst E) unit :=
  pr <- get_proc p ;;
  match p_context pr with
  | CtxNone => undef
  | CtxForkret => forkret
  | CtxSched intena k =>
      set_cpu (set_c_intena intena) ;;
      match k with
      | FromYield => release PtableLock
      | FromSleep lk => sleep_return p lk
      | FromExit => panic "zombie exit"
      end
  end.

(** ** procdump *)

Definition procdump : M (kst E) unit :=
  for_each proc_ids (fun p =>
    pr <- get_proc p ;;
    when (bool_decide (p_state pr <> UNUSED))
      (print (MsgProc (p_pid pr) (p_state pr) (p_name pr)) ;; print MsgNewline)).

End Proc.
