(* ===== verification/ProcQueue.v ===== *)
(** * The run queue, as proc.c's functions use it

    [queue_of s q]: the skip list of [s] is well formed and [q] is its bottom
    level, the run queue in deadline order.  [insert] and [delete] in these
    terms, and the frame they leave alone.

    [qinv x s]: the run queue of [s] holds exactly the processes whose state is
    RUNNABLE or RUNNING, the process [x] (if any) left aside.  The steps of
    proc.c that move a process in and out of the queue, in these terms. *)

From S2P Require Import Prelude KState Spinlock SkipList SkipListInv SkipListInsert SkipListDelete Mem KEnv Proc.

Local Open Scope c_scope.

Section Queue.
Context {E : Type}.
Implicit Types (s : kst E) (q : list nat).

(** ** Deadlines matter only for the processes listed *)

Lemma sorted_ext_in dl dl' q :
  (forall p, p ∈ q -> dl p = dl' p) ->
  StronglySorted (by_deadline dl) q -> StronglySorted (by_deadline dl') q.
Proof.
  intros Heq. induction 1 as [|p q Hs IH Hp]; constructor; [apply IH; set_solver|].
  rewrite Forall_forall in Hp |- *. intros x Hx. specialize (Hp x Hx). unfold by_deadline in *.
  rewrite <- !Heq by set_solver. done.
Qed.

Lemma wf_ext_in nd dl dl' slot ps :
  (forall p, p ∈ ps 0 -> dl p = dl' p) -> wf nd dl slot ps -> wf nd dl' slot ps.
Proof.
  intros Heq Hwf. pose proof Hwf as [H1 H2 H3 H4]. constructor; try done. intros l Hl.
  destruct (H1 l Hl). constructor; try done. eapply sorted_ext_in; [|done].
  intros p Hp. by eapply Heq, wf_subset.
Qed.

Lemma skiplist_ext s s' ps :
  k_level s' = k_level s ->
  (forall p, p ∈ ps 0 -> deadline s' p = deadline s p /\
     p_max_skiplist_level (k_proc s' p) = p_max_skiplist_level (k_proc s p)) ->
  skiplist s ps -> skiplist s' ps.
Proof.
  intros Hlev Heq [[slot Hwf] Hmax]. split.
  - exists slot. rewrite Hlev. eapply wf_ext_in; [|done]. intros p Hp. symmetry. by apply Heq.
  - intros p l Hp Hl. rewrite (proj2 (Heq p Hp)). by apply Hmax.
Qed.

(** ** The run queue *)

Definition queue_of s q : Prop := exists ps, skiplist s ps /\ ps 0 = q.

Lemma queue_ext s s' q :
  k_level s' = k_level s ->
  (forall p, p ∈ q -> p_virt_deadline (k_proc s' p) = p_virt_deadline (k_proc s p) /\
     p_max_skiplist_level (k_proc s' p) = p_max_skiplist_level (k_proc s p)) ->
  queue_of s q -> queue_of s' q.
Proof. intros Hl Hp (ps & Hs & <-). exists ps. split; [|done]. by eapply skiplist_ext. Qed.

Lemma queue_wf s q : queue_of s q -> StronglySorted (by_deadline (deadline s)) q /\ NoDup q /\
  (forall p, p ∈ q -> p < NPROC).
Proof.
  intros (ps & [[slot Hwf] _] & <-). pose proof (wf_level _ _ _ _ Hwf 0 ltac:(rewrite LEVELS_eq; lia)) as [].
  done.
Qed.

Lemma queue_insert s q p :
  queue_of s q -> p < NPROC -> p ∉ q ->
  exists lvl sd nd, insert p s = Done (Z.of_nat lvl) (inserted p lvl sd nd s) /\
    1 <= lvl <= LEVELS /\
    queue_of (inserted p lvl sd nd s) (enqueue (deadline s) p q).
Proof.
  intros (ps & Hs & <-) Hp Hnin. destruct (insert_spec s ps p Hs Hp Hnin) as (nd & Hi & Hs').
  pose proof (roll_bounds LEVELS 0 (k_seed s)) as Hb.
  eexists _, _, nd. split; [exact Hi|]. split; [rewrite LEVELS_eq in *; lia|].
  eexists. split; [exact Hs'|]. unfold enqueued. rewrite bool_decide_true; [done|].
  rewrite LEVELS_eq in *. lia.
Qed.

Lemma queue_delete stray s q p :
  queue_of s q -> p ∈ q -> stray_ok stray p ->
  exists nd, delete stray p s = Done (p_max_skiplist_level (k_proc s p)) (deleted p nd s) /\
    queue_of (deleted p nd s) (dequeue p q).
Proof.
  intros (ps & Hs & <-) Hp Hst. destruct (delete_spec stray s ps p Hs Hp Hst) as (nd & Hd & Hs').
  exists nd. split; [done|]. by eexists.
Qed.

(** The word the scheduler tests, and the process it then picks. *)
Lemma queue_head s q :
  queue_of s q ->
  match q with
  | [] => load (NAt 0 0) s = Done (k_level s (0, 0)) s /\ n_next (k_level s (0, 0)) = NNull
  | p :: _ =>
      exists i, load (NAt 0 0) s = Done (k_level s (0, 0)) s /\
        n_next (k_level s (0, 0)) = NAt 0 i /\
        load (NAt 0 i) s = Done (k_level s (0, i)) s /\ n_proc (k_level s (0, i)) = Some p
  end.
Proof.
  intros (ps & [[slot Hwf] _] & <-). assert (0 < LEVELS) as Hl by (rewrite LEVELS_eq; lia).
  pose proof (wf_level _ _ _ _ Hwf 0 Hl) as Hlev. pose proof (lo_dll _ _ _ _ _ Hlev) as Hd.
  pose proof (dll_next _ _ _ [] (slot 0 <$> ps 0) Hd) as Hn. simpl in Hn.
  destruct (ps 0) as [|p q] eqn:Hq; simpl in *; [split; [apply load_at; lia|done]|].
  destruct (lo_range _ _ _ _ _ Hlev p ltac:(set_solver)) as [_ Hr].
  exists (slot 0 p). split; [apply load_at; lia|]. split; [done|]. split; [by apply load_at|].
  apply (lo_proc _ _ _ _ _ Hlev p). set_solver.
Qed.

Lemma sorted_head dl p q x : StronglySorted (by_deadline dl) (p :: q) -> x ∈ p :: q -> (dl p <= dl x)%Z.
Proof.
  intros Hs Hx. inversion_clear Hs as [|? ? Hs' Hall]. apply elem_of_cons in Hx as [->|Hx]; [lia|].
  rewrite Forall_forall in Hall. by apply Hall.
Qed.

End Queue.

Definition queued (st : procstate) : bool :=
  match st with RUNNABLE | RUNNING => true | _ => false end.

(** What insert, delete and wakeup1 leave alone. *)
Record frame {E} (s s' : kst E) : Prop := mkFrame {
  fr_locks : k_locks s' = k_locks s;
  fr_cpu : k_cpu s' = k_cpu s;
  fr_nextpid : k_nextpid s' = k_nextpid s;
  fr_initproc : k_initproc s' = k_initproc s;
  fr_ticks : k_ticks s' = k_ticks s;
  fr_first : k_first s' = k_first s;
  fr_env : k_env s' = k_env s;
}.

#[global] Instance frame_preorder {E} : PreOrder (@frame E).
Proof.
  split; [by constructor|]. intros s1 s2 s3 [] []. constructor; congruence.
Qed.

Section ProcQueue.
Context {E : Type}.
Implicit Types s : kst E.

Definition proc_set (p : nat) (f : proc -> proc) s : kst E :=
  set_k_proc (<[p := f (k_proc s p)]> (k_proc s)) s.

Lemma put_proc_eq p f s : put_proc p f s = Done tt (proc_set p f s).
Proof. done. Qed.

Definition qinv (x : option nat) s : Prop :=
  exists q, queue_of s q /\
    forall p, p ∈ q <-> p < NPROC /\ queued (p_state (k_proc s p)) = true /\ x <> Some p.

(** Writing to a process that is not in the queue. *)
Lemma qinv_put_out x s p f :
  qinv x s -> (queued (p_state (k_proc s p)) = true -> x = Some p) ->
  (queued (p_state (f (k_proc s p))) = true -> x = Some p) ->
  qinv x (proc_set p f s).
Proof.
  intros (q & Hq & Hin) Hold Hnew. exists q. split.
  - eapply (queue_ext s); [done| |exact Hq]. intros y Hy. unfold proc_set. cbn -[insert].
    destruct (decide (y = p)) as [->|]; [apply Hin in Hy; naive_solver|]. by fn_simp.
  - intros y. rewrite Hin. unfold proc_set. cbn -[insert].
    destruct (decide (y = p)) as [->|]; fn_simp; naive_solver.
Qed.

(** Writing fields that the queue does not depend on. *)
Lemma qinv_put_same x s p f :
  qinv x s ->
  queued (p_state (f (k_proc s p))) = queued (p_state (k_proc s p)) ->
  p_virt_deadline (f (k_proc s p)) = p_virt_deadline (k_proc s p) ->
  p_max_skiplist_level (f (k_proc s p)) = p_max_skiplist_level (k_proc s p) ->
  qinv x (proc_set p f s).
Proof.
  intros (q & Hq & Hin) Hst Hd Hm. exists q. split.
  - eapply (queue_ext s); [done| |exact Hq]. intros y Hy. unfold proc_set. cbn -[insert].
    destruct (decide (y = p)) as [->|]; by fn_simp.
  - intros y. rewrite Hin. unfold proc_set. cbn -[insert].
    destruct (decide (y = p)) as [->|]; fn_simp; by rewrite ?Hst.
Qed.

(** The process left aside is not in a queued state any more. *)
Lemma qinv_drop s p : qinv (Some p) s -> queued (p_state (k_proc s p)) = false -> qinv None s.
Proof.
  intros (q & Hq & Hin) Hst. exists q. split; [done|]. intros y. rewrite Hin.
  destruct (decide (y = p)) as [->|]; split; intros (? & ? & ?); split_and!; congruence.
Qed.

Lemma qinv_insert x s p :
  qinv x s -> p < NPROC -> x = Some p -> queued (p_state (k_proc s p)) = true ->
  exists lvl sd nd, insert p s = Done (Z.of_nat lvl) (inserted p lvl sd nd s) /\
    qinv None (inserted p lvl sd nd s).
Proof.
  intros (q & Hq & Hin) Hp -> Hst.
  destruct (queue_insert s q p Hq Hp) as (lvl & sd & nd & Hi & _ & Hq').
  { rewrite Hin. naive_solver. }
  exists lvl, sd, nd. split; [done|]. eexists. split; [exact Hq'|]. intros y.
  rewrite elem_of_enqueue, Hin. unfold inserted. cbn -[insert].
  destruct (decide (y = p)) as [->|]; fn_simp; cbn -[insert]; naive_solver.
Qed.

(** [p->state = RUNNABLE; insert(&ptable, p)] for a process outside the queue. *)
Definition woken (p lvl : nat) (sd : Z) nd s : kst E :=
  inserted p lvl sd nd (proc_set p (set_p_state RUNNABLE) s).

Lemma qinv_wake x s p :
  qinv x s -> p < NPROC -> queued (p_state (k_proc s p)) = false -> x <> Some p ->
  exists lvl sd nd,
    insert p (proc_set p (set_p_state RUNNABLE) s) = Done (Z.of_nat lvl) (woken p lvl sd nd s) /\
    qinv x (woken p lvl sd nd s).
Proof.
  intros (q & Hq & Hin) Hp Hst Hx.
  assert (p ∉ q) as Hnin by (rewrite Hin, Hst; naive_solver).
  destruct (queue_insert (proc_set p (set_p_state RUNNABLE) s) q p) as (lvl & sd & nd & Hi & _ & Hq').
  { eapply (queue_ext s); [done| |exact Hq]. intros y Hy. unfold proc_set. cbn -[insert].
    destruct (decide (y = p)) as [->|]; by fn_simp. }
  1,2: done.
  exists lvl, sd, nd. split; [done|]. eexists. split; [exact Hq'|]. intros y.
  rewrite elem_of_enqueue, Hin. unfold inserted, proc_set. cbn -[insert].
  destruct (decide (y = p)) as [->|]; fn_simp; cbn -[insert]; naive_solver.
Qed.

Lemma qinv_delete stray s p :
  stray_ok stray p -> qinv None s -> p < NPROC -> queued (p_state (k_proc s p)) = true ->
  exists nd, delete stray p s = Done (p_max_skiplist_level (k_proc s p)) (deleted p nd s) /\
    qinv (Some p) (deleted p nd s).
Proof.
  intros Hstray (q & Hq & Hin) Hp Hst.
  destruct (queue_delete stray s q p Hq) as (nd & Hd & Hq'); [naive_solver|auto|].
  exists nd. split; [done|]. eexists. split; [exact Hq'|]. intros y.
  rewrite elem_of_dequeue, Hin. unfold deleted. cbn -[insert].
  destruct (decide (y = p)) as [->|]; fn_simp; cbn -[insert]; naive_solver.
Qed.

(** ** wakeup1 *)

(** A point of a scan of the table. *)
Lemma proc_ids_split visited p todo :
  proc_ids = visited ++ p :: todo ->
  p < NPROC /\ (p ∉ visited) /\ (forall q, q ∈ visited -> q < NPROC).
Proof.
  intros Hl. assert (forall q, q ∈ (visited ++ p :: todo) -> q < NPROC) as Hlt.
  { rewrite <- Hl. intros q Hq%elem_of_seq. lia. }
  pose proof (NoDup_seq 0 NPROC) as Hnd. fold proc_ids in Hnd. rewrite Hl in Hnd.
  apply NoDup_app in Hnd. split_and!; [apply Hlt; set_solver|set_solver|intros; apply Hlt; set_solver].
Qed.

(** What it does to one process. *)
Definition wakes (ch : chan) (a b : proc) : Prop :=
  if bool_decide (p_state a = SLEEPING) && bool_decide (p_chan a = ch)
  then exists lvl, b = set_p_max_skiplist_level lvl (set_p_state RUNNABLE a)
  else b = a.

Lemma wakeup1_spec x ch s :
  qinv x s -> (forall p, x = Some p -> p_state (k_proc s p) <> SLEEPING) ->
  wp (wakeup1 ch) (fun _ s' => qinv x s' /\ frame s s' /\
    (forall p, p < NPROC -> wakes ch (k_proc s p) (k_proc s' p))) s.
Proof.
  intros Hq Hx. unfold wakeup1.
  apply (wp_for_each (fun visited s1 => qinv x s1 /\ frame s s1 /\
    (forall p, p ∈ visited -> wakes ch (k_proc s p) (k_proc s1 p)) /\
    (forall p, p ∉ visited -> k_proc s1 p = k_proc s p))).
  - split_and!; [done|done|set_solver|done].
  - intros visited p todo s1 Hl (Hq1 & Hf & Hdone & Htodo).
    destruct (proc_ids_split _ _ _ Hl) as (Hp & Hnew & _).
    apply wp_bind, wp_gets. rewrite (Htodo p Hnew).
    destruct (bool_decide (p_state (k_proc s p) = SLEEPING)) eqn:Hst; cbn [andb when].
    1: apply bool_decide_eq_true in Hst;
       destruct (bool_decide (p_chan (k_proc s p) = ch)) eqn:Hch; cbn [andb when].
    2,3: apply wp_ret; split_and!; [done|done| |set_solver]; intros y Hy;
         destruct (decide (y = p)) as [->|]; [|set_solver]; rewrite Htodo by done;
         unfold wakes; rewrite ?Hst, ?Hch, ?andb_false_r; rewrite ?bool_decide_true by done; done.
    destruct (qinv_wake x s1 p Hq1 Hp) as (lvl & sd & nd & Hi & Hq2).
    { by rewrite Htodo, Hst. }
    { intros ->. by eapply Hx. }
    apply wp_bind. eapply wp_intro; [apply put_proc_eq|].
    apply wp_bind. eapply wp_intro; [exact Hi|]. apply wp_ret.
    split_and!; [done|etrans; [exact Hf|by constructor]|..].
    all: intros y Hy; unfold woken, inserted, proc_set; cbn -[insert].
    + destruct (decide (y = p)) as [->|]; [|fn_simp; set_solver].
      fn_simp. rewrite Htodo by done. unfold wakes. rewrite Hch, bool_decide_true by done.
      by eexists.
    + assert (y <> p) by set_solver. fn_simp. apply Htodo. set_solver.
  - intros s' (Hq' & Hf & Hdone & _). split_and!; [done|done|].
    intros p Hp. apply Hdone, elem_of_seq. lia.
Qed.

End ProcQueue.
