(* ===== verification/ProcInv.v ===== *)
(** * The invariant of the process table

    [inv]: what holds between two kernel entries, and [mid]: what holds when a
    process has called sched and the scheduler has not yet gone on.  The first
    half is about the process table alone ([procs_ok]); the second about the
    locks and the processor ([unlocked], [locked]). *)

From S2P Require Import Prelude Mem KState Spinlock SkipList SkipListInv SkipListInsert.
From S2P Require Import SkipListDelete Mem KEnv Proc ProcQueue.

Local Open Scope c_scope.

(** ** One process *)

Definition live (st : procstate) : bool :=
  match st with SLEEPING | RUNNABLE | RUNNING => true | _ => false end.

(** Where a process that does not run will go on. *)
Definition ctx_ok (x : proc) : Prop :=
  match p_state x with
  | RUNNABLE => p_context x = CtxForkret \/
      exists ie k, p_context x = CtxSched ie k /\ k <> FromExit
  | SLEEPING => exists ie lk, p_context x = CtxSched ie (FromSleep lk)
  | _ => True
  end.

Definition mem_ok (x : proc) : Prop :=
  live (p_state x) = true -> p_kstack x <> 0%Z /\ (KERNBASE <= p_pgdir x)%Z.

(** A parent is alive: a zombie's children have been passed to init. *)
Definition parent_ok (t : nat -> proc) (x : proc) : Prop :=
  forall q, p_parent x = Some q -> q < NPROC /\ live (p_state (t q)) = true /\ p_state x <> UNUSED.

(** ** The table; [r] is the process in state RUNNING *)

Record procs_ok (r : option nat) (t : nat -> proc) : Prop := mkProcsOk {
  po_range : forall p, r = Some p -> p < NPROC;
  po_run : forall p, p < NPROC -> (p_state (t p) = RUNNING <-> r = Some p);
  po_mem : forall p, p < NPROC -> mem_ok (t p);
  po_ctx : forall p, p < NPROC -> ctx_ok (t p);
  po_parent : forall p, p < NPROC -> parent_ok t (t p);
}.

(** Replacing one entry that stays alive, or that is nobody's parent. *)
Lemma procs_ok_insert r r' t p x :
  procs_ok r t -> p < NPROC ->
  (live (p_state x) = true \/ forall q, q < NPROC -> p_parent (t q) = Some p -> q = p) ->
  (p_state x = RUNNING <-> r' = Some p) ->
  (forall q, q <> p -> r' = Some q <-> r = Some q) ->
  mem_ok x -> ctx_ok x ->
  (forall q, p_parent x = Some q -> q < NPROC /\
     live (p_state (if decide (q = p) then x else t q)) = true /\ p_state x <> UNUSED) ->
  procs_ok r' (<[p := x]> t).
Proof.
  intros [H1 H2 H3 H4 H5] Hp Hlive Hrun Hr Hm Hc Hpar. constructor.
  - intros q Hq. destruct (decide (q = p)) as [->|]; [done|]. apply H1. by apply Hr.
  - intros q Hq. destruct (decide (q = p)) as [->|]; fn_simp; [done|]. rewrite Hr by done. auto.
  - intros q Hq. destruct (decide (q = p)) as [->|]; fn_simp; auto.
  - intros q Hq. destruct (decide (q = p)) as [->|]; fn_simp; auto.
  - intros q Hq y Hy. destruct (decide (q = p)) as [->|].
    + revert Hy. fn_simp. intros Hy. destruct (Hpar y Hy) as (? & Hl & ?). split; [done|].
      split; [|done]. revert Hl. destruct (decide (y = p)) as [->|]; by fn_simp.
    + assert ((<[p := x]> t) q = t q) as Heq by (by fn_simp). rewrite Heq in *. destruct (H5 q Hq y Hy) as (? & Hl & ?).
      split; [done|]. split; [|done]. destruct (decide (y = p)) as [->|]; fn_simp; [|done].
      destruct Hlive as [|Hno]; [done|]. by destruct (Hno q Hq Hy).
Qed.

(** Pointwise changes that keep states alive, contexts, memory and parents. *)
Lemma procs_ok_map r r' t t' :
  procs_ok r t ->
  (forall p, r' = Some p -> p < NPROC) ->
  (forall p, p < NPROC -> (p_state (t' p) = RUNNING <-> r' = Some p)) ->
  (forall p, p < NPROC -> mem_ok (t' p) /\ ctx_ok (t' p)) ->
  (forall p, p < NPROC -> live (p_state (t p)) = true -> live (p_state (t' p)) = true) ->
  (forall p q, p < NPROC -> p_parent (t' p) = Some q ->
     p_state (t' p) <> UNUSED /\
     (p_parent (t p) = Some q \/ q < NPROC /\ live (p_state (t q)) = true)) ->
  procs_ok r' t'.
Proof.
  intros [H1 H2 H3 H4 H5] Hr Hrun Hmc Hl Hpar. constructor; try done; try (intros; by apply Hmc).
  intros p Hp q Hq. destruct (Hpar p q Hp Hq) as [Hu [Hold|[Hlt Hlv]]].
  - destruct (H5 p Hp q Hold) as (? & ? & _). auto.
  - auto.
Qed.

Lemma wakes_state ch a b :
  wakes ch a b ->
  p_state b = p_state a \/ (p_state a = SLEEPING /\ p_state b = RUNNABLE).
Proof.
  unfold wakes. destruct (bool_decide_reflect (p_state a = SLEEPING)), (bool_decide (p_chan a = ch)); simpl.
  2-4: intros ->; auto.
  intros [lvl ->]. auto.
Qed.

Lemma wakes_other ch a b :
  wakes ch a b -> p_parent b = p_parent a /\ p_context b = p_context a /\ p_kstack b = p_kstack a /\
    p_pgdir b = p_pgdir a /\ p_cwd b = p_cwd a /\ p_pid b = p_pid a /\ p_nice b = p_nice a.
Proof.
  unfold wakes. destruct (_ && _); [intros [lvl ->]|intros ->]; done.
Qed.

Lemma wakes_ok ch a b : wakes ch a b -> mem_ok a -> ctx_ok a -> mem_ok b /\ ctx_ok b.
Proof.
  intros Hw Hm Hc. pose proof (wakes_other _ _ _ Hw) as (_ & Hx & Hk & Hd & _).
  unfold mem_ok, ctx_ok in *. rewrite Hx, Hk, Hd.
  destruct (wakes_state _ _ _ Hw) as [->|[Ha ->]]; [done|]. rewrite Ha in *. split; [done|].
  right. destruct Hc as (ie & lk & ->). by eexists _, _.
Qed.

(** wakeup1 keeps the table well formed. *)
Lemma procs_ok_wakes ch r t t' :
  procs_ok r t -> (forall p, p < NPROC -> wakes ch (t p) (t' p)) -> procs_ok r t'.
Proof.
  intros Hok Hw. apply (procs_ok_map r r t t'); [done|by apply Hok|..].
  - intros p Hp. rewrite <- (po_run _ _ Hok p Hp).
    destruct (wakes_state _ _ _ (Hw p Hp)) as [->|[-> ->]]; done.
  - intros p Hp. eapply wakes_ok; [by apply Hw|by apply Hok..].
  - intros p Hp. destruct (wakes_state _ _ _ (Hw p Hp)) as [->|[-> ->]]; done.
  - intros p q Hp Hq. rewrite (proj1 (wakes_other _ _ _ (Hw p Hp))) in Hq.
    destruct (po_parent _ _ Hok p Hp q Hq) as (? & ? & Hu). split; [|by left].
    destruct (wakes_state _ _ _ (Hw p Hp)) as [->|[? ->]]; done.
Qed.

(** ** Locks and the processor *)

Section Inv.
Context {E : Type} `{HE : KEnv E} {F : fault -> Prop} `{HK : !KEnvOk E F}.
Implicit Types s : kst E.

Definition unlocked s : Prop :=
  c_ncli (k_cpu s) = 0%Z /\ forall lk, lk_locked (k_locks s lk) = false.

(** The lock [lk] held, and no other. *)
Definition locked_by (lk : lockid) s : Prop :=
  c_ncli (k_cpu s) = 1%Z /\ c_if (k_cpu s) = false /\ held_here s lk = true /\
  forall lk', lk' <> lk -> lk_locked (k_locks s lk') = false.

Definition locked s : Prop := locked_by PtableLock s.

(** The first process, once there is one, never exits. *)
Definition init_ok (ini : option nat) (t : nat -> proc) : Prop :=
  forall i, ini = Some i -> i < NPROC /\ live (p_state (t i)) = true.

Lemma init_ok_keep ini t t' :
  init_ok ini t ->
  (forall i, ini = Some i -> live (p_state (t i)) = true -> live (p_state (t' i)) = true) ->
  init_ok ini t'.
Proof. intros H H' i Hi. destruct (H i Hi). auto. Qed.

(** The parts of the invariant that hold inside and outside the lock. *)
Record base (r : option nat) s : Prop := mkBase {
  b_procs : procs_ok r (k_proc s);
  b_init : init_ok (k_initproc s) (k_proc s);
  b_env : ke_inv (k_env s);
}.

Lemma base_ext r s s' :
  k_proc s' = k_proc s -> k_initproc s' = k_initproc s -> k_env s' = k_env s -> base r s -> base r s'.
Proof. intros Hp Hi He [H1 H2 H3]. constructor; rewrite ?Hp, ?Hi, ?He; done. Qed.

Definition inv s : Prop :=
  unlocked s /\ qinv None s /\ base (c_proc (k_cpu s)) s.

(** Between sched's swtch and the scheduler. *)
Definition mid s : Prop :=
  locked s /\ qinv None s /\ base None s.

Lemma unlocked_ok s : unlocked s -> cli_ok (k_cpu s).
Proof. intros [H _]. split; lia. Qed.

Lemma locked_cli lk s : locked_by lk s -> in_cli (k_cpu s).
Proof. intros (H & Hif & _). split; [done|lia]. Qed.

Lemma pushed_proc c : c_proc (pushed c) = c_proc c.
Proof. unfold pushed. by destruct (c_ncli c =? 0)%Z. Qed.

Lemma popped_proc c : c_proc (popped c) = c_proc c.
Proof. unfold popped. by destruct (_ && _). Qed.

Lemma popped_ncli c : c_ncli (popped c) = (c_ncli c - 1)%Z.
Proof. unfold popped. by destruct (_ && _). Qed.

Lemma acquired_locked lk s : unlocked s -> locked_by lk (acquired lk s).
Proof.
  intros Hu. pose proof (acquired_in_cli lk s (unlocked_ok s Hu)) as [Hif _].
  destruct Hu as [Hn Hl]. split; [|split; [done|split; [apply acquired_held|]]].
  - unfold acquired, pushed. cbn -[insert]. rewrite Hn. done.
  - intros lk' Hlk. rewrite acquired_other by done. apply Hl.
Qed.

Lemma released_unlocked lk s : locked_by lk s -> unlocked (released lk s).
Proof.
  intros (Hn & _ & _ & Hl). split.
  - unfold released. cbn -[popped insert]. rewrite popped_ncli. lia.
  - intros lk'. destruct (decide (lk' = lk)) as [->|]; [by rewrite released_lock|].
    rewrite released_other by done. auto.
Qed.

Lemma acquire_unlocked lk s : unlocked s -> acquire lk s = Done tt (acquired lk s).
Proof. intros Hu. apply acquire_free; [by apply unlocked_ok|apply Hu]. Qed.

Lemma release_locked lk s : locked_by lk s -> release lk s = Done tt (released lk s).
Proof. intros Hl. apply release_held; [by eapply locked_cli|apply Hl]. Qed.

(** [acquire(lk2); release(lk1)], from holding [lk1] to holding [lk2]. *)
Lemma swap_locks lk1 lk2 s :
  locked_by lk1 s -> lk1 <> lk2 ->
  acquire lk2 s = Done tt (acquired lk2 s) /\
  release lk1 (acquired lk2 s) = Done tt (released lk1 (acquired lk2 s)) /\
  locked_by lk2 (released lk1 (acquired lk2 s)).
Proof.
  intros Hl Hne. pose proof (locked_cli _ _ Hl) as Hin. pose proof (in_cli_ok _ Hin) as Hc.
  destruct Hl as (Hn & Hif & Hh & Hfree). split; [apply acquire_free; auto|].
  assert (held_here (acquired lk2 s) lk1 = true) as Hh1.
  { unfold held_here. rewrite acquired_other by done. cbn -[pushed]. by rewrite pushed_id. }
  split; [by apply release_held; [apply acquired_in_cli|]|].
  assert (popped (pushed (k_cpu s)) = k_cpu s) as Hcpu by (by rewrite popped_pushed, Hn).
  split; [|split; [|split]].
  1,2: unfold released, acquired; cbn -[popped pushed insert]; by rewrite Hcpu.
  - apply held_here_intro. rewrite released_other, acquired_lock by done.
    unfold released, acquired. cbn -[popped pushed insert]. by rewrite Hcpu.
  - intros lk Hlk. destruct (decide (lk = lk1)) as [->|]; [by rewrite released_lock|].
    rewrite released_other, acquired_other by done. auto.
Qed.

(** myproc outside the lock leaves intena at the interrupt flag. *)
Definition my_read s : kst E := set_k_cpu (set_c_intena (c_if (k_cpu s)) (k_cpu s)) s.

Lemma myproc_unlocked s : unlocked s -> myproc s = Done (c_proc (k_cpu s)) (my_read s).
Proof.
  intros Hu. pose proof (unlocked_ok s Hu) as Hc. pose proof (pushed_in_cli _ Hc) as Hin.
  unfold myproc. mstep (pushcli_eq s).
  mstep (mycpu_eq (set_k_cpu (pushed (k_cpu s)) s) (proj1 Hin)).
  mstep (popcli_eq (set_k_cpu (pushed (k_cpu s)) s) Hin).
  cbn -[pushed popped]. unfold ret. rewrite pushed_proc, popped_pushed by done.
  destruct Hu as [-> _]. done.
Qed.

Lemma myproc_locked lk s : locked_by lk s -> myproc s = Done (c_proc (k_cpu s)) s.
Proof.
  intros Hu. pose proof (locked_cli _ s Hu) as Hin. pose proof (in_cli_ok _ Hin) as Hc.
  pose proof (pushed_in_cli _ Hc) as Hin'.
  unfold myproc. mstep (pushcli_eq s).
  mstep (mycpu_eq (set_k_cpu (pushed (k_cpu s)) s) (proj1 Hin')).
  mstep (popcli_eq (set_k_cpu (pushed (k_cpu s)) s) Hin').
  cbn -[pushed popped]. unfold ret. rewrite pushed_proc, popped_pushed by done.
  destruct Hu as (-> & _). by destruct s.
Qed.

Lemma curproc_unlocked s p :
  unlocked s -> c_proc (k_cpu s) = Some p -> curproc s = Done p (my_read s).
Proof. intros Hu Hp. unfold curproc. mstep (myproc_unlocked s Hu). by rewrite Hp. Qed.

Lemma curproc_locked lk s p :
  locked_by lk s -> c_proc (k_cpu s) = Some p -> curproc s = Done p s.
Proof. intros Hu Hp. unfold curproc. mstep (myproc_locked lk s Hu). by rewrite Hp. Qed.

Lemma my_read_unlocked s : unlocked s -> unlocked (my_read s).
Proof. done. Qed.

(** What [locked] depends on. *)
Lemma locked_ext s s' : k_locks s' = k_locks s -> k_cpu s' = k_cpu s -> locked s -> locked s'.
Proof. unfold locked, locked_by, held_here. by intros -> ->. Qed.

Lemma frame_locked s s' : frame s s' -> locked s -> locked s'.
Proof. intros []. by apply locked_ext. Qed.

(** ** sched *)

Definition scheded (p : nat) (k : sched_caller) s : kst E :=
  proc_set p (set_p_context (CtxSched (c_intena (k_cpu s)) k)) s.

Lemma sched_eq s p k :
  locked s -> c_proc (k_cpu s) = Some p -> p_state (k_proc s p) <> RUNNING ->
  sched k s = Done tt (scheded p k s).
Proof.
  intros Hl Hp Hst. unfold sched. mstep (curproc_locked _ s p Hl Hp).
  pose proof (locked_cli _ s Hl) as Hin. destruct Hl as (Hn & Hif & Hh & _).
  mstep (holding_in_cli s PtableLock Hin). rewrite Hh. cbn [negb].
  mstep (mycpu_eq s Hif). rewrite Hn. cbn [negb Z.eqb Pos.eqb].
  erewrite bind_done by reflexivity. rewrite bool_decide_false by done.
  erewrite bind_done by reflexivity. rewrite Hif. by mstep (mycpu_eq s Hif).
Qed.

End Inv.

(** Reading a field of the table after a chain of writes to one process. *)
Ltac table := unfold scheded, inserted, deleted, proc_set, woken; cbn -[insert]; fn_simp; cbn -[insert].
