(* ===== verification/ProcSwitch.v ===== *)
(** * Giving up and taking the processor

    yield, sleep, the scheduler and the resumption of a process keep the
    invariant of the process table and never reach a panic of proc.c. *)

From S2P Require Import Prelude Mem KState Spinlock SkipList SkipListInv SkipListInsert.
From S2P Require Import SkipListDelete Mem KEnv Proc ProcQueue ProcInv.

Local Open Scope c_scope.

Lemma procs_ok_ext r t t' :
  (forall p, p < NPROC -> t' p = t p) -> procs_ok r t -> procs_ok r t'.
Proof.
  intros Heq Hok. apply (procs_ok_map r r t t'); [done|apply Hok|..].
  1,2,3: intros p Hp; rewrite Heq by done; first [done|by apply Hok|split; by apply Hok].
  intros p q Hp Hq. rewrite Heq in Hq |- * by done. split; [|by left].
  by destruct (po_parent _ _ Hok p Hp q Hq) as (_ & _ & ?).
Qed.

(** The running process stops running. *)
Lemma procs_ok_stop p t t' :
  procs_ok (Some p) t -> (forall q, q <> p -> t' q = t q) ->
  p_state (t' p) <> RUNNING -> p_state (t' p) <> UNUSED -> ctx_ok (t' p) ->
  p_kstack (t' p) = p_kstack (t p) -> p_pgdir (t' p) = p_pgdir (t p) ->
  p_parent (t' p) = p_parent (t p) ->
  (live (p_state (t' p)) = true \/ forall q, q < NPROC -> p_parent (t q) <> Some p) ->
  procs_ok None t'.
Proof.
  intros Hok Hoth Hnr Hnu Hc Hk Hd Hpar Hl. pose proof (po_range _ _ Hok p eq_refl) as Hp.
  pose proof (proj2 (po_run _ _ Hok p Hp) eq_refl) as Hst.
  apply (procs_ok_ext None (<[p := t' p]> t)).
  { intros q _. destruct (decide (q = p)) as [->|]; fn_simp; auto. }
  apply (procs_ok_insert (Some p)); try done.
  - destruct Hl as [|Hl]; [by left|right]. intros q Hq Hq'. by destruct (Hl q Hq).
  - intros q Hq. split; [done|congruence].
  - intros _. rewrite Hk, Hd. apply (po_mem _ _ Hok p Hp). by rewrite Hst.
  - intros q Hq. rewrite Hpar in Hq. destruct (po_parent _ _ Hok p Hp q Hq) as (? & ? & _).
    split; [done|]. split; [|done]. destruct (decide (q = p)) as [->|]; [|done].
    destruct Hl as [|Hl]; [done|]. by destruct (Hl p Hp).
Qed.

Section Switch.
Context {E : Type} `{HE : KEnv E} {F : fault -> Prop} `{HK : !KEnvOk E F}.
Implicit Types s : kst E.

Lemma inv_running s p :
  inv s -> c_proc (k_cpu s) = Some p ->
  p < NPROC /\ p_state (k_proc s p) = RUNNING.
Proof.
  intros (_ & _ & Hb) Hp. pose proof (b_procs _ _ Hb) as Hok. rewrite Hp in Hok.
  pose proof (po_range _ _ Hok p eq_refl) as Hlt. split; [done|]. by apply Hok.
Qed.

(** [base] when the running process stops, written against the whole table. *)
Lemma base_stop s s' p :
  base (Some p) s -> (forall q, q <> p -> k_proc s' q = k_proc s q) ->
  p_state (k_proc s' p) <> RUNNING -> live (p_state (k_proc s' p)) = true -> ctx_ok (k_proc s' p) ->
  p_kstack (k_proc s' p) = p_kstack (k_proc s p) -> p_pgdir (k_proc s' p) = p_pgdir (k_proc s p) ->
  p_parent (k_proc s' p) = p_parent (k_proc s p) ->
  k_initproc s' = k_initproc s -> k_env s' = k_env s -> base None s'.
Proof.
  intros [Hok Hini0 He] Hoth Hnr Hl Hc Hk Hd Hpar Hini Henv. constructor.
  - eapply procs_ok_stop; try done; [|by left]. intros Hu. by rewrite Hu in Hl.
  - rewrite Hini. apply (init_ok_keep _ _ _ Hini0). intros i _ Hlv.
    destruct (decide (i = p)) as [->|]; [done|]. by rewrite Hoth.
  - by rewrite Henv.
Qed.

(** [p = myproc(); acquire(&ptable.lock)] from the invariant. *)
Definition entered s : kst E := acquired PtableLock (my_read s).

Lemma acquired_base lk r s : base r s -> base r (acquired lk s).
Proof. by apply base_ext. Qed.

Lemma entered_spec s p :
  inv s -> c_proc (k_cpu s) = Some p ->
  let s1 := entered s in
  acquire PtableLock (my_read s) = Done tt s1 /\
  locked s1 /\ qinv None s1 /\ base (Some p) s1 /\ c_proc (k_cpu s1) = Some p /\
  p < NPROC /\ p_state (k_proc s1 p) = RUNNING.
Proof.
  intros Hinv Hcp. destruct (inv_running s p Hinv Hcp) as [Hp Hrun].
  destruct Hinv as (Hu & Hq & Hb). rewrite Hcp in Hb. pose proof (my_read_unlocked s Hu) as Hu'.
  split; [by apply acquire_unlocked|]. split; [by apply acquired_locked|]. split; [exact Hq|].
  split; [by apply (base_ext _ s)|]. split; [|done].
  unfold entered, acquired. cbn -[pushed insert]. by rewrite pushed_proc.
Qed.

Lemma inv_unlocked s : inv s -> unlocked s.
Proof. by intros []. Qed.

(** ** The scheduler *)

(** Back from a process: the invariant, with no process on the processor. *)
Lemma scheduler_back_inv s :
  mid s -> wp scheduler_back (fun _ s' => inv s' /\ c_proc (k_cpu s') = None /\
    k_proc s' = k_proc s /\ k_ticks s' = k_ticks s) s.
Proof.
  intros (Hl & Hq & Hb). apply wp_wpf. unfold scheduler_back, switchkvm.
  apply wpf_bind. wnext. wrun (V2P_ok _ s (ke_kpgdir_ok _ (b_env _ _ Hb))).
  eapply wpf_done; [reflexivity|]. wnext.
  match goal with |- wpf _ _ _ ?x => set (s1 := x) end.
  assert (locked s1) as Hl1 by exact Hl. eapply wpf_done; [by apply release_locked|].
  assert (c_proc (k_cpu (released PtableLock s1)) = None) as Hcp.
  { unfold released. cbn -[popped insert]. by rewrite popped_proc. }
  split; [|done]. split; [by apply released_unlocked|]. split; [exact Hq|].
  rewrite Hcp. by apply (base_ext _ s).
Qed.

(** switchuvm of a process with memory. *)
Lemma switchuvm_ok s p :
  locked s -> p_kstack (k_proc s p) <> 0%Z -> (KERNBASE <= p_pgdir (k_proc s p))%Z ->
  exists esp0 cr3, switchuvm (Some p) s =
    Done tt (set_k_cpu (set_c_cr3 cr3 (set_c_esp0 esp0 (k_cpu s))) s).
Proof.
  intros Hl Hk Hd. pose proof (locked_cli _ s Hl) as Hin. pose proof (in_cli_ok _ Hin) as Hc.
  unfold switchuvm. erewrite bind_done by reflexivity. unfold KERNBASE in *.
  destruct (Z.eqb_spec (p_kstack (k_proc s p)) 0); [done|].
  destruct (Z.eqb_spec (p_pgdir (k_proc s p)) 0); [lia|].
  mstep (pushcli_eq s). erewrite bind_done by reflexivity.
  erewrite bind_done; [|by apply V2P_ok]. erewrite bind_done by reflexivity.
  exists (u32 (p_kstack (k_proc s p) + KSTACKSIZE)), (p_pgdir (k_proc s p) - 2147483648)%Z.
  rewrite popcli_eq.
  2: { pose proof (pushed_in_cli _ Hc) as []. done. }
  cbn -[popped pushed]. f_equal. destruct Hl as (Hn & Hif & _).
  destruct s as [? ? ? ? ? ? ? ? ? [cid cn cie ci cp cr ce] ? ? ?]. cbn in *. subst cn ci. done.
Qed.

(** Printing the schedule changes the output and nothing the scheduler uses. *)
Definition quiet s s' : Prop := k_level s' = k_level s /\ k_proc s' = k_proc s /\ frame s s'.

Lemma quiet_refl s : quiet s s.
Proof. by split_and!. Qed.

Lemma quiet_trans s1 s2 s3 : quiet s1 s2 -> quiet s2 s3 -> quiet s1 s3.
Proof. intros (H1 & H2 & H3) (H4 & H5 & H6). split_and!; [congruence..|by etrans]. Qed.

Lemma schedlog_step_quiet s : wp schedlog_step (fun _ s' => quiet s s') s.
Proof.
  apply wp_wpf. unfold schedlog_step. wnext.
  destruct (k_schedlog_active s =? 0)%Z; [by eapply wpf_done; [reflexivity|apply quiet_refl]|].
  wnext. wnext. destruct (_ <? _)%Z; [by eapply wpf_done|].
  unfold schedlog_line. wnext. wnext. wnext. apply wpf_bind.
  apply (wpf_for_each _ (fun _ s' => quiet s s')); [done| |].
  - intros _ k _ s1 _ Hs1. wnext. apply wpf_bind.
    apply (wpf_mono _ _ (fun _ s2 => quiet s s2)).
    + destruct (bool_decide _); eapply wpf_done; try reflexivity; by apply (quiet_trans s s1).
    + intros [] s2 Hs2. destruct (negb _); [|by eapply wpf_done].
      eapply wpf_done; [reflexivity|]. by apply (quiet_trans s s2).
  - intros s1 Hs1. eapply wpf_done; [reflexivity|]. by apply (quiet_trans s s1).
Qed.

(** Picking a RUNNABLE process as the running one. *)
Lemma procs_ok_start p t x :
  procs_ok None t -> p < NPROC -> p_state (t p) = RUNNABLE -> p_state x = RUNNING ->
  p_kstack x = p_kstack (t p) -> p_pgdir x = p_pgdir (t p) -> p_parent x = p_parent (t p) ->
  procs_ok (Some p) (<[p := x]> t).
Proof.
  intros Hok Hp Hst Hx Hk Hd Hpar. apply (procs_ok_insert None); try done.
  - left. by rewrite Hx.
  - intros q Hq. split; congruence.
  - intros _. rewrite Hk, Hd. apply (po_mem _ _ Hok p Hp). by rewrite Hst.
  - unfold ctx_ok. by rewrite Hx.
  - intros q Hq. rewrite Hpar in Hq. destruct (po_parent _ _ Hok p Hp q Hq) as (? & ? & _).
    rewrite Hx. split_and!; [done| |done]. destruct (decide (q = p)); [by rewrite Hx|done].
Qed.

(** What the scheduler hands over to the process [p] it switches to; [t] is
    the table it found. *)
Record picked (t : nat -> proc) (p : nat) s' : Prop := mkPicked {
  pk_lock : locked s';
  pk_proc : c_proc (k_cpu s') = Some p;
  pk_queue : qinv None s';
  pk_base : base (Some p) s';
  pk_same : k_proc s' p = set_p_ticks_left BFS_DEFAULT_QUANTUM (set_p_state RUNNING (t p));
  pk_other : forall q, q <> p -> k_proc s' q = t q;
}.

Lemma no_running t p : procs_ok None t -> p < NPROC -> queued (p_state (t p)) = true -> p_state (t p) = RUNNABLE.
Proof.
  intros Hok Hp Hq. destruct (p_state (t p)) eqn:Hst; try done.
  by apply (po_run _ _ Hok p Hp) in Hst.
Qed.

Lemma qinv_ext x s s' :
  k_level s' = k_level s -> (forall p, k_proc s' p = k_proc s p) -> qinv x s -> qinv x s'.
Proof.
  intros Hl Hp (q & Hq & Hin). exists q. split; [|intros p; by rewrite Hp].
  apply (queue_ext s); [done| |done]. intros p _. by rewrite Hp.
Qed.

Lemma scheduler_take_spec s p :
  locked s -> qinv None s -> base None s -> p < NPROC -> p_state (k_proc s p) = RUNNABLE ->
  wp (scheduler_take p) (fun _ s' => picked (k_proc s) p s') s.
Proof.
  intros Hl Hq Hb Hp Hst. pose proof Hb as [Hok Hini0 He].
  destruct (po_mem _ _ Hok p Hp) as [Hk Hd]; [by rewrite Hst|].
  apply wp_wpf. unfold scheduler_take. wnext.
  match goal with |- wpf _ _ _ ?x => set (s2 := x) end. assert (locked s2) as Hl2 by exact Hl.
  destruct (switchuvm_ok s2 p Hl2 Hk Hd) as (esp0 & cr3 & Hsw). wrun Hsw.
  set (s3 := set_k_cpu _ s2). assert (qinv None s3) as Hq3 by exact Hq.
  wrun (put_proc_eq p _ s3). wrun (put_proc_eq p _ (proc_set p _ s3)).
  set (s5 := proc_set p _ (proc_set p _ s3)).
  assert (qinv None s5) as Hq5.
  { apply qinv_put_same; try done. apply qinv_put_same; try done. simpl. by rewrite Hst. }
  eapply wpf_mono; [apply wpf_wp, schedlog_step_quiet|].
  intros [] s6 (Hlv6 & Hpr & Hfr).
  assert (k_proc s6 p = set_p_ticks_left BFS_DEFAULT_QUANTUM (set_p_state RUNNING (k_proc s p))) as Hsame
    by (rewrite Hpr; unfold s5; by table).
  assert (forall q, q <> p -> k_proc s6 q = k_proc s q) as Hoth
    by (intros y Hy; rewrite Hpr; unfold s5; by table).
  constructor; [|by rewrite (fr_cpu _ _ Hfr)|by apply (qinv_ext _ s5); [|intros q; rewrite Hpr|]| |done|done].
  - by apply (frame_locked s5).
  - constructor.
    + apply (procs_ok_ext _ (<[p := k_proc s6 p]> (k_proc s))).
      { intros y _. destruct (decide (y = p)) as [->|]; fn_simp; auto. }
      apply procs_ok_start; rewrite ?Hsame; done.
    + rewrite (fr_initproc _ _ Hfr). apply (init_ok_keep _ _ _ Hini0). intros i _ Hlv.
      destruct (decide (i = p)) as [->|]; [by rewrite Hsame|by rewrite Hoth].
    + by rewrite (fr_env _ _ Hfr).
Qed.

(** One turn of the scheduler: the process it picks has the earliest deadline
    of those that can run, and it finds none only when none can. *)
Lemma scheduler_pick_ok s :
  inv s -> c_proc (k_cpu s) = None ->
  wp scheduler_pick (fun r s' =>
    match r with
    | None => inv s' /\ c_proc (k_cpu s') = None /\ k_proc s' = k_proc s /\
        forall p, p < NPROC -> p_state (k_proc s p) <> RUNNABLE
    | Some p => p < NPROC /\ p_state (k_proc s p) = RUNNABLE /\ picked (k_proc s) p s' /\
        forall q, q < NPROC -> p_state (k_proc s q) = RUNNABLE ->
          (p_virt_deadline (k_proc s p) <= p_virt_deadline (k_proc s q))%Z
    end) s.
Proof.
  intros (Hu & Hq & Hb) Hcp. rewrite Hcp in Hb. apply wp_wpf. unfold scheduler_pick. wnext.
  set (s0 := set_k_cpu _ s). assert (unlocked s0) as Hu0 by exact Hu.
  wrun (acquire_unlocked PtableLock s0 Hu0). pose proof (acquired_locked PtableLock s0 Hu0) as Hl.
  apply (base_ext _ s (acquired PtableLock s0)) in Hb; [|done..].
  change (qinv None (acquired PtableLock s0)) in Hq.
  change (k_proc s) with (k_proc (acquired PtableLock s0)).
  assert (c_proc (k_cpu (acquired PtableLock s0)) = None) as Hcp1
    by (unfold acquired; cbn -[pushed insert]; by rewrite pushed_proc).
  set (s1 := acquired PtableLock s0) in *. clearbody s1. clear s0 Hu0 Hu Hcp s.
  pose proof Hq as (q & Hqo & Hin). pose proof (queue_head s1 q Hqo) as Hhead.
  destruct q as [|p q].
  - destruct Hhead as [Hld Hnx]. wrun Hld. rewrite Hnx.
    wrun (release_locked PtableLock s1 Hl). eapply wpf_done; [reflexivity|].
    assert (c_proc (k_cpu (released PtableLock s1)) = None) as Hcp2
      by (unfold released; cbn -[popped insert]; by rewrite popped_proc).
    split; [|split; [done|split; [done|]]].
    + split; [by apply released_unlocked|]. split; [exact Hq|]. rewrite Hcp2. by apply (base_ext _ s1).
    + intros p Hp Hst. assert (p ∈ []) as Hbad%elem_of_nil; [|done]. apply Hin. by rewrite Hst.
  - destruct Hhead as (i & Hld & Hnx & Hld2 & Hnp).
    destruct (proj1 (Hin p) ltac:(set_solver)) as (Hp & Hqd & _).
    pose proof (no_running _ p (b_procs _ _ Hb) Hp Hqd) as Hst.
    wrun Hld. rewrite Hnx. wrun Hld2. rewrite Hnp. apply wpf_bind.
    eapply wpf_mono; [by apply wpf_wp, scheduler_take_spec|].
    intros [] s6 Hpk. eapply wpf_done; [reflexivity|]. split_and!; [done|done|done|].
    intros y Hy Hsty. apply (sorted_head (deadline s1) p q).
    + by apply queue_wf.
    + apply Hin. by rewrite Hsty.
Qed.

(** ** Resuming the process *)

(** The processor, running [r], holds the lock [lk] and no other. *)
Definition inside (lk : lockid) (r : option nat) s : Prop :=
  locked_by lk s /\ qinv None s /\ base r s /\ c_proc (k_cpu s) = r.

Lemma inside_release lk r s :
  inside lk r s ->
  release lk s = Done tt (released lk s) /\ inv (released lk s) /\
  c_proc (k_cpu (released lk s)) = r.
Proof.
  intros (Hl & Hq & Hb & Hcp). split; [by apply release_locked|].
  assert (c_proc (k_cpu (released lk s)) = r) as Hcp'
    by (unfold released; cbn -[popped insert]; by rewrite popped_proc).
  split; [|done]. split; [by apply released_unlocked|]. split; [exact Hq|].
  rewrite Hcp'. by apply (base_ext _ s).
Qed.

Lemma inside_acquire lk r s :
  inv s -> c_proc (k_cpu s) = r ->
  acquire lk s = Done tt (acquired lk s) /\ inside lk r (acquired lk s).
Proof.
  intros (Hu & Hq & Hb) Hcp. rewrite Hcp in Hb. split; [by apply acquire_unlocked|].
  split; [by apply acquired_locked|]. split; [exact Hq|]. split; [by apply (base_ext _ s)|].
  unfold acquired. cbn -[pushed insert]. by rewrite pushed_proc.
Qed.

(** Writing fields of a process that the invariant does not mention. *)
Definition same_core (a b : proc) : Prop :=
  p_state b = p_state a /\ p_kstack b = p_kstack a /\ p_pgdir b = p_pgdir a /\
  p_parent b = p_parent a /\ (p_state a <> RUNNING -> p_context b = p_context a).

Lemma base_put r s p f : base r s -> same_core (k_proc s p) (f (k_proc s p)) -> base r (proc_set p f s).
Proof.
  intros [Hok Hini0 He] (Hst & Hk & Hd & Hpar & Hcx).
  assert (forall q, p_state (k_proc (proc_set p f s) q) = p_state (k_proc s q)) as Hsts.
  { intros q. table. destruct (decide (q = p)) as [->|]; by fn_simp. }
  constructor; [|apply (init_ok_keep _ _ _ Hini0); intros i _; by rewrite Hsts|done].
  apply (procs_ok_map r r (k_proc s)); [done|apply Hok|..].
  - intros q Hq. rewrite Hsts. by apply Hok.
  - intros q Hq. pose proof (po_mem _ _ Hok q Hq) as Hm. pose proof (po_ctx _ _ Hok q Hq) as Hc. table.
    destruct (decide (q = p)) as [->|]; fn_simp; [|done]. unfold mem_ok, ctx_ok in *.
    rewrite Hst, Hk, Hd. split; [done|]. destruct (p_state (k_proc s p)); try done; by rewrite Hcx.
  - intros q _. by rewrite Hsts.
  - intros y q Hy Hq. rewrite Hsts.
    assert (p_parent (k_proc s y) = Some q) as Hold.
    { revert Hq. table. destruct (decide (y = p)) as [->|]; fn_simp; congruence. }
    split; [|by left]. by destruct (po_parent _ _ Hok y Hy q Hold) as (_ & _ & ?).
Qed.

Lemma inside_put lk r s q f :
  inside lk r s -> same_core (k_proc s q) (f (k_proc s q)) ->
  p_virt_deadline (f (k_proc s q)) = p_virt_deadline (k_proc s q) ->
  p_max_skiplist_level (f (k_proc s q)) = p_max_skiplist_level (k_proc s q) ->
  inside lk r (proc_set q f s).
Proof.
  intros (Hl & Hq & Hb & Hcp) Hc Hv Hm. split; [done|]. split; [|split; [by apply base_put|done]].
  apply qinv_put_same; try done. by destruct Hc as [-> _].
Qed.

(** The process at the point where it gave up the processor: the invariant,
    or, inside sleep, with the lock it slept on taken again. *)
Lemma resume_ok t s p :
  p_state (t p) = RUNNABLE -> ctx_ok (t p) -> picked t p s ->
  wpf F (resume p) (fun _ s' =>
    match p_context (t p) with
    | CtxSched _ (FromSleep lk) => inside lk (Some p) s' /\ p_chan (k_proc s' p) = NoChan
    | _ => inv s' /\ c_proc (k_cpu s') = Some p
    end) s.
Proof.
  intros Hst Hc [Hl Hcp Hq Hb Hsame _]. unfold ctx_ok in Hc. rewrite Hst in Hc.
  assert (inside PtableLock (Some p) s) as Hin by done.
  unfold resume. wnext. rewrite Hsame. cbn [p_context set_p_ticks_left set_p_state].
  destruct Hc as [->|(ie & k & -> & Hk)].
  - unfold forkret. destruct (inside_release _ (Some p) s Hin) as (Hr & Hinv & Hcp'). wrun Hr. wnext.
    destruct (k_first _); [|by eapply wpf_done]. cbn [when]. wnext.
    apply wpf_lift. eapply wpf_mono; [apply ke_fsinit_ok, Hinv|].
    intros [] e He. split; [|done]. destruct Hinv as (Hu & Hq' & Hb').
    split; [exact Hu|]. split; [exact Hq'|]. by destruct Hb'.
  - wnext. match goal with |- wpf _ _ _ ?x => set (s1 := x) end.
    assert (inside PtableLock (Some p) s1) as Hin1.
    { split; [exact Hl|]. split; [exact Hq|]. split; [by apply (base_ext _ s)|done]. }
    destruct k as [|lk|]; [| |done].
    + destruct (inside_release _ (Some p) s1 Hin1) as (Hr & Hinv & Hcp'). by eapply wpf_done.
    + unfold sleep_return. wrun (put_proc_eq p _ s1). set (s2 := proc_set _ _ s1).
      assert (inside PtableLock (Some p) s2) as Hin2 by (by apply inside_put).
      assert (p_chan (k_proc s2 p) = NoChan) as Hch by (unfold s2; by table).
      destruct (bool_decide_reflect (lk <> PtableLock)) as [Hne|Heq]; cbn [when].
      * destruct (inside_release _ (Some p) s2 Hin2) as (Hr & Hinv & Hcp'). wrun Hr.
        destruct (inside_acquire lk (Some p) _ Hinv Hcp') as [Ha Hin3]. by eapply wpf_done.
      * assert (lk = PtableLock) as -> by (destruct (decide (lk = PtableLock)); naive_solver).
        by eapply wpf_done.
Qed.

(** ** Leaving the processor

    [stray], the words at null and below the node array, name no process. *)

Section Leave.
Context (stray : kst E -> nptr -> option nat).
Context (Hstray : forall p, p < NPROC -> stray_ok stray p).

(** *** yield *)

Lemma yield_enter_mid s p :
  inv s -> c_proc (k_cpu s) = Some p ->
  wp (yield_enter stray) (fun _ s' => mid s' /\ c_proc (k_cpu s') = Some p /\
    p_state (k_proc s' p) = RUNNABLE /\
    p_virt_deadline (k_proc s' p) = computevd (p_nice (k_proc s p)) (i32 (k_ticks s))) s.
Proof.
  intros Hinv Hcp. apply wp_wpf. unfold yield_enter.
  wrun (curproc_unlocked s p (inv_unlocked s Hinv) Hcp).
  destruct (entered_spec s p Hinv Hcp) as (Hac & Hl & Hq1 & Hb & Hcp1 & Hp & Hrun).
  wrun Hac. clear Hac. change (k_proc s) with (k_proc (entered s)).
  change (k_ticks s) with (k_ticks (entered s)). set (s1 := entered s) in *. clearbody s1.
  wrun (put_proc_eq p _ s1). set (s2 := proc_set _ _ s1).
  assert (qinv None s2) as Hq2 by (apply qinv_put_same; try done; by rewrite Hrun).
  destruct (qinv_delete stray s2 p (Hstray p Hp) Hq2 Hp) as (nd & Hd & Hq3); [by unfold s2; table|].
  wrun Hd. wnext. wnext. wrun (put_proc_eq p _ (deleted p nd s2)). set (s4 := proc_set _ _ (deleted p nd s2)).
  assert (qinv (Some p) s4) as Hq4 by (by apply qinv_put_out).
  destruct (qinv_insert (Some p) s4 p Hq4 Hp) as (lvl & sd & nd' & Hi & Hq5); [done|by unfold s4, s2; table|].
  wrun Hi. set (s5 := inserted _ _ _ _ s4) in *.
  assert (p_state (k_proc s5 p) = RUNNABLE) as Hst5 by (unfold s5, s4, s2; by table).
  eapply wpf_done; [apply (sched_eq s5 p); [exact Hl|done|by rewrite Hst5]|].
  split; [split; [exact Hl|split]|split; [exact Hcp1|]].
  - apply qinv_put_same; done.
  - apply (base_stop s1 _ p); try done; unfold s5, s4, s2.
    1: intros q Hq'; by table.
    all: table; try done. right. by eexists _, _.
  - unfold s5, s4, s2. split; by table.
Qed.

(** *** sleep *)

Lemma delete_if_queued_running s p :
  qinv None s -> p < NPROC -> queued (p_state (k_proc s p)) = true ->
  exists nd, delete_if_queued stray p s = Done tt (deleted p nd s) /\ qinv (Some p) (deleted p nd s).
Proof.
  intros Hq Hp Hst. destruct (qinv_delete stray s p (Hstray p Hp) Hq Hp Hst) as (nd & Hd & Hq').
  exists nd. split; [|done]. unfold delete_if_queued. erewrite bind_done by reflexivity.
  destruct (p_state (k_proc s p)); try done.
  all: match goal with |- when ?b ?m _ = _ => change (when b m) with m end; by mstep Hd.
Qed.

(** What sleep does once ptable.lock is its only lock. *)
Lemma sleep_locked_mid s p ch lk :
  locked s -> qinv None s -> base (Some p) s -> c_proc (k_cpu s) = Some p ->
  wp (put_proc p (set_p_chan ch) ;; delete_if_queued stray p ;;
      put_proc p (set_p_state SLEEPING) ;; sched (FromSleep lk))
    (fun _ s' => mid s' /\ c_proc (k_cpu s') = Some p /\ k_ticks s' = k_ticks s /\
      p_state (k_proc s' p) = SLEEPING /\ p_chan (k_proc s' p) = ch /\
      (forall q, q <> p -> k_proc s' q = k_proc s q)) s.
Proof.
  intros Hl Hq Hb Hcp. pose proof (po_range _ _ (b_procs _ _ Hb) p eq_refl) as Hp.
  pose proof (proj2 (po_run _ _ (b_procs _ _ Hb) p Hp) eq_refl) as Hrun. apply wp_wpf.
  wrun (put_proc_eq p _ s). set (s2 := proc_set _ _ s).
  assert (qinv None s2) as Hq2 by (by apply qinv_put_same).
  destruct (delete_if_queued_running s2 p Hq2 Hp) as (nd & Hd & Hq3); [unfold s2; table; by rewrite Hrun|].
  wrun Hd. wrun (put_proc_eq p _ (deleted p nd s2)). set (s4 := proc_set _ _ (deleted p nd s2)).
  assert (qinv (Some p) s4) as Hq4 by (by apply qinv_put_out).
  assert (p_state (k_proc s4 p) = SLEEPING) as Hst4 by (unfold s4, s2; by table).
  eapply wpf_done; [apply (sched_eq s4 p); [exact Hl|done|by rewrite Hst4]|].
  split; [split; [exact Hl|split]|].
  - apply qinv_put_same; try done. apply (qinv_drop _ p Hq4). by rewrite Hst4.
  - apply (base_stop s _ p); try done; unfold s4, s2.
    1: intros q Hq'; by table.
    all: table; try done. by eexists _, _.
  - split_and!; [done|done|..]; unfold s4, s2; try by table. intros q Hq'. by table.
Qed.

Lemma sleep_enter_mid s p ch lk :
  locked_by lk s -> qinv None s -> base (Some p) s -> c_proc (k_cpu s) = Some p ->
  wp (sleep_enter stray ch (Some lk)) (fun _ s' => mid s' /\ c_proc (k_cpu s') = Some p /\
    k_ticks s' = k_ticks s /\ p_state (k_proc s' p) = SLEEPING /\ p_chan (k_proc s' p) = ch /\
    (forall q, q <> p -> k_proc s' q = k_proc s q)) s.
Proof.
  intros Hl Hq Hb Hcp. unfold sleep_enter. apply wp_bind.
  eapply wp_intro; [by eapply myproc_locked|]. rewrite Hcp.
  destruct (bool_decide_reflect (lk <> PtableLock)) as [Hne|Heq]; cbn [when]; apply wp_bind.
  - destruct (swap_locks lk PtableLock s Hl Hne) as (Ha & Hr & Hl').
    apply wp_bind. eapply wp_intro; [exact Ha|]. eapply wp_intro; [exact Hr|].
    apply (sleep_locked_mid (released lk (acquired PtableLock s))); [done|exact Hq|by apply (base_ext _ s)|].
    unfold released, acquired. cbn -[popped pushed insert]. by rewrite popped_proc, pushed_proc.
  - apply wp_ret. assert (lk = PtableLock) as -> by (destruct (decide (lk = PtableLock)); naive_solver).
    by apply sleep_locked_mid.
Qed.

End Leave.
End Switch.
