(* ===== verification/ProcLife.v ===== *)
(** * wakeup, kill, fork, exit and wait keep the invariant

    Each with what it does to the process table.  The operations of the other
    kernel components that these functions call may stop the machine only with
    the faults [F] of their interface; proc.c adds no panic of its own. *)

From S2P Require Import Prelude Mem KState Spinlock SkipList SkipListInv SkipListInsert.
From S2P Require Import SkipListDelete Mem KEnv Proc ProcQueue ProcInv ProcSwitch.

Local Open Scope c_scope.

Section Life.
Context {E : Type} `{HE : KEnv E} {F : fault -> Prop} `{HK : !KEnvOk E F}.
Implicit Types s : kst E.

(** ** wakeup *)

Lemma base_wakes r ch s s' :
  base r s -> frame s s' -> (forall p, p < NPROC -> wakes ch (k_proc s p) (k_proc s' p)) -> base r s'.
Proof.
  intros [Hok Hini0 He] Hf Hw. constructor.
  - by eapply procs_ok_wakes.
  - rewrite (fr_initproc _ _ Hf). apply (init_ok_keep _ _ _ Hini0). intros i Hi Hlv.
    destruct (wakes_state _ _ _ (Hw i (proj1 (Hini0 i Hi)))) as [->|[_ ->]]; done.
  - by rewrite (fr_env _ _ Hf).
Qed.

Lemma wakeup_frame ch s :
  inv s -> wp (wakeup ch) (fun _ s' => (inv s' /\ c_proc (k_cpu s') = c_proc (k_cpu s) /\
    forall p, p < NPROC -> wakes ch (k_proc s p) (k_proc s' p)) /\ k_initproc s' = k_initproc s) s.
Proof.
  intros Hinv. destruct (inside_acquire PtableLock _ s Hinv eq_refl) as (Ha & Hl & Hq & Hb & Hcp).
  apply wp_wpf. unfold wakeup. wrun Ha. apply wpf_bind. eapply wpf_mono.
  { apply wpf_wp, (wakeup1_spec None ch _ Hq). done. }
  intros [] s1 (Hq1 & Hf & Hw).
  assert (inside PtableLock (c_proc (k_cpu s)) s1) as Hin.
  { split; [by eapply frame_locked|]. split; [done|]. split; [by eapply base_wakes|].
    by rewrite (fr_cpu _ _ Hf). }
  destruct (inside_release _ _ _ Hin) as (Hr & Hinv' & Hcp'). eapply wpf_done; [done|].
  split; [done|]. exact (fr_initproc _ _ Hf).
Qed.

Lemma wakeup_ok ch s :
  inv s -> wp (wakeup ch) (fun _ s' => inv s' /\ c_proc (k_cpu s') = c_proc (k_cpu s) /\
    forall p, p < NPROC -> wakes ch (k_proc s p) (k_proc s' p)) s.
Proof. intros Hinv. eapply wp_mono; [by apply wakeup_frame|]. by intros _ s' []. Qed.

(** A running process is not woken. *)
Lemma wakes_running ch a b : wakes ch a b -> p_state a = RUNNING -> b = a.
Proof. intros Hw Hr. unfold wakes in Hw. by rewrite Hr in Hw. Qed.

(** ** kill *)

(** A process that was not running becomes RUNNABLE. *)
Lemma base_runnable r s p s' :
  base r s -> p < NPROC -> p_state (k_proc s p) <> RUNNING -> p_state (k_proc s' p) = RUNNABLE ->
  mem_ok (k_proc s' p) -> ctx_ok (k_proc s' p) -> p_parent (k_proc s' p) = p_parent (k_proc s p) ->
  (forall q, q <> p -> k_proc s' q = k_proc s q) ->
  k_initproc s' = k_initproc s -> k_env s' = k_env s -> base r s'.
Proof.
  intros [Hok Hini0 He] Hp Hst Hx Hm Hc Hpar Hoth Hini Henv. constructor.
  - apply (procs_ok_ext _ (<[p := k_proc s' p]> (k_proc s))).
    { intros q _. destruct (decide (q = p)) as [->|]; fn_simp; auto. }
    apply (procs_ok_insert r); try done; rewrite ?Hx; try done.
    + by left.
    + rewrite <- (po_run _ _ Hok p Hp). done.
    + intros q Hq. rewrite Hpar in Hq. destruct (po_parent _ _ Hok p Hp q Hq) as (? & ? & _).
      split_and!; [done| |done]. destruct (decide (q = p)); [by rewrite Hx|done].
  - rewrite Hini. apply (init_ok_keep _ _ _ Hini0). intros i _ Hlv.
    destruct (decide (i = p)) as [->|]; [by rewrite Hx|by rewrite Hoth].
  - by rewrite Henv.
Qed.

Definition find_pid (pid : Z) (t : nat -> proc) (l : list nat) : option nat :=
  List.find (fun p => bool_decide (p_pid (t p) = pid)) l.

(** What kill does to the process it finds. *)
Definition killed_as (a b : proc) : Prop :=
  p_killed b = true /\ p_pid b = p_pid a /\
  p_state b = if bool_decide (p_state a = SLEEPING) then RUNNABLE else p_state a.

Lemma kill_found s r p :
  inside PtableLock r s -> p < NPROC ->
  wp (put_proc p (set_p_killed true) ;;
      when (bool_decide (p_state (k_proc s p) = SLEEPING))
        (put_proc p (set_p_state RUNNABLE) ;; insert p ;; ret tt) ;;
      release PtableLock ;; ret 0%Z)
    (fun v s' => v = 0%Z /\ inv s' /\ c_proc (k_cpu s') = r /\
      killed_as (k_proc s p) (k_proc s' p) /\ forall q, q <> p -> k_proc s' q = k_proc s q) s.
Proof.
  intros Hin Hp. apply wp_wpf. wrun (put_proc_eq p _ s). set (s1 := proc_set p _ s).
  assert (inside PtableLock r s1) as Hin1 by (by apply inside_put).
  unfold killed_as. destruct (bool_decide_reflect (p_state (k_proc s p) = SLEEPING)) as [Hst|Hst]; cbn [when].
  - destruct Hin1 as (Hl1 & Hq1 & Hb1 & Hcp1).
    assert (p_state (k_proc s1 p) = SLEEPING) as Hst1 by (unfold s1; by table).
    destruct (qinv_wake None s1 p Hq1 Hp) as (lvl & sd & nd & Hi & Hq2); [by rewrite Hst1|done|].
    apply wpf_bind. wrun (put_proc_eq p _ s1). wrun Hi. eapply wpf_done; [reflexivity|].
    set (s2 := woken _ _ _ _ s1) in *.
    assert (inside PtableLock r s2) as Hin2.
    { split; [exact Hl1|]. split; [done|]. split; [|exact Hcp1].
      pose proof (b_procs _ _ Hb1) as Hok. pose proof (po_mem _ _ Hok p Hp) as Hm.
      pose proof (po_ctx _ _ Hok p Hp) as Hc. unfold mem_ok, ctx_ok in *. rewrite Hst1 in Hm, Hc.
      destruct Hc as (ie & lk & Hcx).
      apply (base_runnable r s1 p); try done; unfold mem_ok, ctx_ok, s2; try by table.
      - congruence.
      - intros _. revert Hm. unfold s1. table. auto.
      - revert Hcx. unfold s1. table. intros ->. right. by eexists _, _.
      - intros q Hq'. by table. }
    destruct (inside_release _ _ _ Hin2) as (Hr & Hinv & Hcp'). wrun Hr.
    eapply wpf_done; [reflexivity|]. split_and!; try done; unfold s2, s1.
    1-3: by table.
    intros q Hq. by table.
  - wnext. destruct (inside_release _ _ _ Hin1) as (Hr & Hinv & Hcp'). wrun Hr.
    eapply wpf_done; [reflexivity|]. split_and!; try done; unfold s1.
    1-3: by table.
    intros q Hq. by table.
Qed.

Lemma kill_scan_ok pid l s r :
  inside PtableLock r s -> (forall p, p ∈ l -> p < NPROC) ->
  wp (kill_scan l pid) (fun v s' => inv s' /\ c_proc (k_cpu s') = r /\
    match find_pid pid (k_proc s) l with
    | None => v = (-1)%Z /\ k_proc s' = k_proc s
    | Some p => v = 0%Z /\ killed_as (k_proc s p) (k_proc s' p) /\
        forall q, q <> p -> k_proc s' q = k_proc s q
    end) s.
Proof.
  intros Hin. induction l as [|p l IH]; intros Hl; simpl.
  - apply wp_wpf. destruct (inside_release _ _ _ Hin) as (Hr & Hinv & Hcp'). wrun Hr. by eapply wpf_done.
  - apply wp_bind, wp_gets. destruct (bool_decide (p_pid (k_proc s p) = pid)).
    + eapply wp_mono; [apply (kill_found s r p); [done|apply Hl; set_solver]|naive_solver].
    + apply IH. set_solver.
Qed.

Lemma kill_ok pid s :
  inv s ->
  wp (kill pid) (fun v s' => inv s' /\ c_proc (k_cpu s') = c_proc (k_cpu s) /\
    match find_pid pid (k_proc s) proc_ids with
    | None => v = (-1)%Z /\ k_proc s' = k_proc s
    | Some p => v = 0%Z /\ killed_as (k_proc s p) (k_proc s' p) /\
        forall q, q <> p -> k_proc s' q = k_proc s q
    end) s.
Proof.
  intros Hinv. destruct (inside_acquire PtableLock _ s Hinv eq_refl) as (Ha & Hin).
  apply wp_wpf. unfold kill. wrun Ha. apply wpf_wp.
  apply (kill_scan_ok pid proc_ids _ _ Hin). intros p Hp%elem_of_seq. lia.
Qed.

(** ** allocproc *)

Lemma inv_env e s : inv s -> ke_inv e -> inv (set_k_env e s).
Proof. intros (Hu & Hq & [H1 H2 _]) He. split; [exact Hu|]. by split. Qed.

(** An operation of the rest of the kernel, from the invariant. *)
Lemma wpf_env {A} (m : M E A) (R : A -> Prop) (Q : A -> kst E -> Prop) s :
  inv s -> wpf F m (fun a e => R a /\ ke_inv e) (k_env s) ->
  (forall a e, R a -> inv (set_k_env e s) -> Q a (set_k_env e s)) -> wpf F (lift m) Q s.
Proof.
  intros Hinv Hm Hq. apply wpf_lift. eapply wpf_mono; [exact Hm|].
  intros a e [Ha He]. apply Hq; [done|]. by apply inv_env.
Qed.

(** A slot outside the scheduler's view. *)
Definition idle_slot (st : procstate) : bool :=
  match st with UNUSED | EMBRYO | ZOMBIE => true | _ => false end.

(** Writing to a slot that is not yet a process, or not one any more. *)
Lemma idle_slot_put r s p x s' :
  base r s -> qinv None s -> p < NPROC -> idle_slot (p_state (k_proc s p)) = true ->
  idle_slot (p_state x) = true ->
  (forall q, p_parent x = Some q -> q < NPROC /\ live (p_state (k_proc s q)) = true /\ p_state x <> UNUSED) ->
  (forall q, k_proc s' q = (<[p := x]> (k_proc s)) q) -> k_level s' = k_level s ->
  k_initproc s' = k_initproc s -> ke_inv (k_env s') ->
  base r s' /\ qinv None s'.
Proof.
  intros [Hok Hini0 He] Hq Hp Hold Hnew Hpar Ht Hlev Hini Henv. split; [constructor|].
  - apply (procs_ok_ext _ (<[p := x]> (k_proc s))); [auto|]. apply (procs_ok_insert r); try done.
    + right. intros q Hqn Hqp. destruct (po_parent _ _ Hok q Hqn p Hqp) as (_ & Hl & _).
      by destruct (p_state (k_proc s p)).
    + rewrite <- (po_run _ _ Hok p Hp). by destruct (p_state x), (p_state (k_proc s p)).
    + intros Hl. by destruct (p_state x).
    + unfold ctx_ok. by destruct (p_state x).
    + intros q Hqp. destruct (Hpar q Hqp) as (? & Hl & ?). split_and!; [done| |done].
      destruct (decide (q = p)) as [->|]; [|done]. by destruct (p_state (k_proc s p)).
  - rewrite Hini. apply (init_ok_keep _ _ _ Hini0). intros i _ Hlv. rewrite Ht. destruct (decide (i = p)) as [->|]; fn_simp; [|done].
    by destruct (p_state (k_proc s p)).
  - done.
  - apply (qinv_ext _ (proc_set p (fun _ => x) s)); [done|done|].
    apply qinv_put_out; [done|..]; [by destruct (p_state (k_proc s p))|by destruct (p_state x)].
Qed.

(** From the invariant to the invariant, when only such a slot differs. *)
Lemma inv_slot s p s' :
  inv s -> p < NPROC -> idle_slot (p_state (k_proc s p)) = true ->
  idle_slot (p_state (k_proc s' p)) = true ->
  (forall q, q <> p -> k_proc s' q = k_proc s q) ->
  (forall q, p_parent (k_proc s' p) = Some q ->
     q < NPROC /\ live (p_state (k_proc s q)) = true /\ p_state (k_proc s' p) <> UNUSED) ->
  k_level s' = k_level s -> k_initproc s' = k_initproc s -> k_env s' = k_env s ->
  k_cpu s' = k_cpu s -> k_locks s' = k_locks s -> inv s'.
Proof.
  intros (Hu & Hq & Hb) Hp Hold Hnew Hoth Hpar Hlev Hini Henv Hcpu Hlk.
  destruct (idle_slot_put _ s p (k_proc s' p) s' Hb Hq) as [Hb' Hq']; try done.
  - intros q. destruct (decide (q = p)) as [->|]; fn_simp; auto.
  - rewrite Henv. apply Hb.
  - split; [unfold unlocked; by rewrite Hcpu, Hlk|]. split; [done|by rewrite Hcpu].
Qed.

Lemma unused_no_parent r s p :
  base r s -> p < NPROC -> p_state (k_proc s p) = UNUSED -> p_parent (k_proc s p) = None.
Proof.
  intros [Hok _ _] Hp Hst. destruct (p_parent (k_proc s p)) as [q|] eqn:Hq; [|done].
  by destruct (po_parent _ _ Hok p Hp q Hq) as (_ & _ & ?).
Qed.

(** What allocproc returns. *)
Definition allocated s (r : option nat) s' : Prop :=
  match r with
  | None => forall q, p_state (k_proc s q) <> UNUSED -> k_proc s' q = k_proc s q
  | Some p =>
      p < NPROC /\ p_state (k_proc s p) = UNUSED /\ (forall q, q <> p -> k_proc s' q = k_proc s q) /\
      p_state (k_proc s' p) = EMBRYO /\ p_pid (k_proc s' p) = k_nextpid s /\
      k_nextpid s' = i32 (k_nextpid s + 1) /\ p_context (k_proc s' p) = CtxForkret /\
      p_kstack (k_proc s' p) <> 0%Z /\ p_parent (k_proc s' p) = None /\
      p_ofile (k_proc s' p) = p_ofile (k_proc s p)
  end.

(** The part under ptable.lock, once a slot is found. *)
Definition slot_taken (p : nat) s : kst E :=
  let s1 := proc_set p (set_p_state EMBRYO) (proc_set p (set_p_nice 0) (proc_set p (set_p_virt_deadline 0) s)) in
  proc_set p (set_p_pid (k_nextpid s)) (set_k_nextpid (i32 (k_nextpid s + 1)) s1).

Lemma slot_taken_inside r s p :
  inside PtableLock r s -> p < NPROC -> p_state (k_proc s p) = UNUSED ->
  inside PtableLock r (slot_taken p s).
Proof.
  intros Hin Hp Hst. assert (p_parent (k_proc s p) = None) as Hpar.
  { destruct Hin as (_ & _ & Hb & _). by eapply unused_no_parent. }
  destruct Hin as (Hl & Hq & Hb & Hcp).
  destruct (idle_slot_put r s p (k_proc (slot_taken p s) p) (slot_taken p s)) as [Hb' Hq']; try done.
  - by rewrite Hst.
  - unfold slot_taken. by table.
  - unfold slot_taken. table. congruence.
  - intros q. unfold slot_taken. destruct (decide (q = p)) as [->|]; by table.
  - apply Hb.
Qed.

Lemma allocproc_ok s :
  inv s -> wpf F allocproc (fun r s' => inv s' /\ c_proc (k_cpu s') = c_proc (k_cpu s) /\
    k_ticks s' = k_ticks s /\ k_initproc s' = k_initproc s /\ allocated s r s') s.
Proof.
  intros Hinv. destruct (inside_acquire PtableLock _ s Hinv eq_refl) as (Ha & Hin).
  unfold allocproc. wrun Ha. clear Ha. wnext.
  change (k_proc (acquired PtableLock s)) with (k_proc s).
  destruct (List.find _ proc_ids) as [p|] eqn:Hfind.
  2: { destruct (inside_release _ _ _ Hin) as (Hr & Hinv' & Hcp'). wrun Hr. by eapply wpf_done. }
  apply List.find_some in Hfind as [Hpin Hst]. apply bool_decide_eq_true in Hst.
  assert (p < NPROC) as Hp by (apply list_elem_of_In, elem_of_seq in Hpin; lia).
  do 6 wnext. pose proof (slot_taken_inside _ _ p Hin Hp Hst) as Hin2.
  match goal with |- wpf _ _ _ ?x => change x with (slot_taken p (acquired PtableLock s)) end.
  set (s2 := slot_taken p (acquired PtableLock s)) in *.
  destruct (inside_release _ _ _ Hin2) as (Hr & Hinv3 & Hcp3). wrun Hr.
  set (s3 := released PtableLock s2) in *.
  assert (p_parent (k_proc s p) = None) as Hpar
    by (eapply unused_no_parent; [apply Hinv|done..]).
  apply wpf_bind, (wpf_env _ (fun _ => True)); [done|..].
  { eapply wpf_mono; [apply ke_kalloc_ok, Hinv3|done]. }
  intros ks e _ Hinv4. set (s4 := set_k_env e s3) in *.
  assert (k_proc s4 p = set_p_pid (k_nextpid s) (set_p_state EMBRYO (set_p_nice 0
            (set_p_virt_deadline 0 (k_proc s p))))) as Hp4
    by (unfold s4, s3, s2, slot_taken, released; by table).
  assert (forall q, q <> p -> k_proc s4 q = k_proc s q) as Hoth
    by (intros q Hq; unfold s4, s3, s2, slot_taken, released; by table).
  assert (c_proc (k_cpu s4) = c_proc (k_cpu s)) as Hcp4 by done.
  assert (k_ticks s4 = k_ticks s /\ k_initproc s4 = k_initproc s /\
          k_nextpid s4 = i32 (k_nextpid s + 1)) as (Ht4 & Hi4 & Hn4) by done.
  clearbody s4. clear s2 Hin2 s3 Hinv3 Hcp3 Hr Hin.
  wrun (put_proc_eq p _ s4). destruct (Z.eqb_spec ks 0) as [->|Hks].
  - wrun (put_proc_eq p _ (proc_set p _ s4)). eapply wpf_done; [reflexivity|].
    split_and!; try done; [|intros q Hq; rewrite <- Hoth by congruence].
    + apply (inv_slot s4 p); try done; try (rewrite ?Hp4; by table); intros q; table.
      * intros. by table.
      * rewrite Hp4. simpl. congruence.
    + assert (q <> p) by congruence. by table.
  - wnext. wrun (put_proc_eq p _ (proc_set p _ s4)). wrun (put_proc_eq p _ (proc_set p _ (proc_set p _ s4))).
    eapply wpf_done; [reflexivity|]. split_and!; try done.
    apply (inv_slot s4 p); try done; try (table; by rewrite Hp4); intros q; table.
    + intros. by table.
    + rewrite Hp4. simpl. congruence.
    + split_and!; try done; try (table; by rewrite ?Hp4). intros q Hq. rewrite <- Hoth by done. by table.
Qed.

(** ** nicefork *)

(** The slot [np] is being turned into a process; the rest of the table is [t]. *)
Definition building (cur np : nat) (t : nat -> proc) (tk : Z) s : Prop :=
  inv s /\ c_proc (k_cpu s) = Some cur /\ np < NPROC /\ p_state (k_proc s np) = EMBRYO /\
  (forall q, q <> np -> k_proc s q = t q) /\ k_ticks s = tk.

Lemma building_put cur np t tk s f :
  building cur np t tk s ->
  (forall x, p_state (f x) = p_state x) ->
  p_parent (f (k_proc s np)) = p_parent (k_proc s np) \/ p_parent (f (k_proc s np)) = Some cur ->
  building cur np t tk (proc_set np f s).
Proof.
  intros (Hinv & Hcp & Hnp & Hst & Hoth & Htk) Hf Hpar.
  destruct (inv_running s cur Hinv Hcp) as [Hc Hrun].
  split_and!; try done.
  - apply (inv_slot s np); try done; try (by rewrite Hst); table; rewrite ?Hf, ?Hst; try done.
    + intros q Hq. by fn_simp.
    + intros q Hq. destruct Hpar as [Heq|Heq]; rewrite Heq in Hq.
      * destruct (po_parent _ _ (b_procs _ _ (proj2 (proj2 Hinv))) np Hnp q Hq) as (? & ? & _). done.
      * injection Hq as <-. by rewrite Hrun.
  - table. by rewrite Hf.
  - intros q Hq. table. auto.
Qed.

Lemma building_env cur np t tk s e :
  building cur np t tk s -> inv (set_k_env e s) -> building cur np t tk (set_k_env e s).
Proof. by intros (_ & ?) ?. Qed.

(** The child's descriptors: those of the parent, where the parent has one. *)
Definition dup_table (n : nat) (par chd : nat -> option nat) (i : nat) : option nat :=
  if bool_decide (i < n) then match par i with Some f => Some f | None => chd i end else chd i.

Lemma dup_table_S n par chd i :
  dup_table (S n) par chd i =
    if decide (i = n) then match par n with Some f => Some f | None => chd n end
    else dup_table n par chd i.
Proof.
  unfold dup_table. destruct (decide (i = n)) as [->|]; [by rewrite bool_decide_true by lia|].
  destruct (decide (i < n)); [by rewrite !bool_decide_true by lia|by rewrite !bool_decide_false by lia].
Qed.

Lemma dup_files_ok cur np t tk s :
  building cur np t tk s ->
  wpf F (dup_files cur np) (fun _ s' => building cur np t tk s' /\
    exists fs, k_proc s' np = set_p_ofile fs (k_proc s np) /\
      forall i, fs i = dup_table NOFILE (p_ofile (t cur)) (p_ofile (k_proc s np)) i) s.
Proof.
  intros Hbd. unfold dup_files.
  apply (wpf_for_each _ (fun visited s1 => building cur np t tk s1 /\
    exists fs, k_proc s1 np = set_p_ofile fs (k_proc s np) /\
      forall i, fs i = dup_table (length visited) (p_ofile (t cur)) (p_ofile (k_proc s np)) i)).
  - split; [done|]. exists (p_ofile (k_proc s np)). split; [by destruct (k_proc s np)|done].
  - intros visited i todo s1 Hl (Hb1 & fs & Hfs & Hi).
    assert (i = length visited) as ->.
    { assert (seq 0 NOFILE !! length visited = Some i) as Hlk by (rewrite Hl; by apply list_lookup_middle).
      by apply lookup_seq in Hlk as [-> _]. }
    assert (k_proc s1 cur = t cur) as Hcur.
    { destruct Hb1 as (Hinv & Hcp & _ & Hst & Hoth & _). apply Hoth. intros <-.
      destruct (inv_running s1 cur Hinv Hcp) as [_ Hr]. congruence. }
    wnext. rewrite Hcur. destruct (p_ofile (t cur) (length visited)) as [f|] eqn:Hf.
    + apply wpf_bind, (wpf_env _ (fun _ => True)); [apply Hb1|..].
      { eapply wpf_mono; [apply ke_filedup_ok, Hb1|done]. }
      intros _ e _ Hinv'. apply (building_env _ _ _ _ _ e) in Hb1; [|done].
      eapply wpf_done; [apply put_proc_eq|]. split; [by apply building_put; [|done|left]|].
      eexists. split; [table; rewrite Hfs; reflexivity|]. cbn -[insert]. intros i.
      rewrite length_app, Nat.add_1_r, dup_table_S, Hf.
      destruct (decide (i = length visited)) as [->|]; by fn_simp.
    + eapply wpf_done; [reflexivity|]. split; [done|]. exists fs. split; [done|]. intros i.
      rewrite length_app, Nat.add_1_r, dup_table_S, Hf, Hi.
      destruct (decide (i = length visited)) as [->|]; [|done].
      unfold dup_table. by rewrite bool_decide_false by lia.
  - intros s' Hs'. by rewrite length_seq in Hs'.
Qed.

(** The child [c], copied into the slot [old] from the parent [par]. *)
Record copied (cur ip : nat) (par old c : proc) : Prop := mkCopied {
  cp_sz : p_sz c = p_sz par;
  cp_parent : p_parent c = Some cur;
  cp_tf : p_tf c = set_tf_eax 0 (p_tf par);
  cp_ofile : forall i, p_ofile c i = dup_table NOFILE (p_ofile par) (p_ofile old) i;
  cp_cwd : p_cwd c = Some ip;
  cp_name : p_name c = safestrcpy (p_name old) (p_name par) 16;
  cp_pid : p_pid c = p_pid old;
  cp_mem : p_kstack c = p_kstack old /\ p_pgdir c = p_pgdir old;
  cp_context : p_context c = p_context old;
}.

Lemma fork_copy_ok cur np ip t tk s :
  building cur np t tk s -> p_cwd (t cur) = Some ip ->
  wpf F (fork_copy cur np) (fun _ s' => building cur np t tk s' /\
    copied cur ip (t cur) (k_proc s np) (k_proc s' np)) s.
Proof.
  intros Hb Hcwd. unfold fork_copy. wnext.
  assert (forall s1, building cur np t tk s1 -> k_proc s1 cur = t cur) as Hcur.
  { intros s1 (Hinv & Hcp & _ & Hst & Hoth & _). apply Hoth. intros <-.
    destruct (inv_running s1 cur Hinv Hcp) as [_ Hr]. congruence. }
  rewrite (Hcur s Hb).
  do 4 (wrun (put_proc_eq np _ _)). set (s4 := proc_set np _ (proc_set np _ (proc_set np _ (proc_set np _ s)))).
  assert (building cur np t tk s4) as Hb4.
  { repeat (apply building_put; [|done|]); try done; try (by left). by right. }
  apply wpf_bind. eapply wpf_mono; [by apply dup_files_ok|].
  intros _ s5 (Hb5 & fs & Hfs & Hi). wnext. rewrite (Hcur s5 Hb5), Hcwd.
  apply wpf_bind, (wpf_env _ (fun _ => True)); [apply Hb5|..].
  { eapply wpf_mono; [apply ke_idup_ok, Hb5|done]. }
  intros _ e _ Hinv'. apply (building_env _ _ _ _ _ e) in Hb5; [|done].
  wrun (put_proc_eq np _ _). eapply wpf_done; [apply put_proc_eq|].
  split; [repeat (apply building_put; [|done|by left]); done|].
  assert (k_proc s4 np = set_p_tf (set_tf_eax 0 (p_tf (t cur))) (set_p_tf (p_tf (t cur))
     (set_p_parent (Some cur) (set_p_sz (p_sz (t cur)) (k_proc s np))))) as H4 by (unfold s4; by table).
  rewrite H4 in Hfs, Hi. clear H4. constructor; table; rewrite ?Hfs; done.
Qed.

(** The child [c] goes into the run queue. *)
Definition started (nice t : Z) (old c : proc) : Prop :=
  exists lvl, c = set_p_max_skiplist_level lvl (set_p_state RUNNABLE
    (set_p_virt_deadline (computevd nice (i32 t)) (set_p_nice nice old))).

(** A slot made ready goes into the queue, whatever initproc is ([ini] stands for it). *)
Lemma start_ok np r ini s :
  unlocked s -> qinv None s -> base r (set_k_initproc ini s) -> c_proc (k_cpu s) = r -> np < NPROC ->
  p_state (k_proc s np) = EMBRYO -> p_kstack (k_proc s np) <> 0%Z ->
  (KERNBASE <= p_pgdir (k_proc s np))%Z -> p_context (k_proc s np) = CtxForkret ->
  wp (make_runnable np) (fun _ s' => unlocked s' /\ qinv None s' /\ base r (set_k_initproc ini s') /\
      c_proc (k_cpu s') = r /\ k_initproc s' = k_initproc s /\
      (forall q, q <> np -> k_proc s' q = k_proc s q) /\
      exists lvl, k_proc s' np = set_p_max_skiplist_level lvl (set_p_state RUNNABLE (k_proc s np))) s.
Proof.
  intros Hu Hq Hb Hcp Hnp Hst Hk Hd Hc. apply wp_wpf. unfold make_runnable.
  wrun (acquire_unlocked PtableLock s Hu). pose proof (acquired_locked PtableLock s Hu) as Hl.
  destruct (qinv_wake None (acquired PtableLock s) np Hq Hnp) as (lvl & sd & nd & Hi & Hq4);
    [cbn; by rewrite Hst|done|].
  wrun (put_proc_eq np _ (acquired PtableLock s)). wrun Hi.
  set (s4 := woken np lvl sd nd (acquired PtableLock s)) in *.
  assert (k_proc s4 np = set_p_max_skiplist_level (Z.of_nat lvl) (set_p_state RUNNABLE (k_proc s np))) as H4
    by (unfold s4; by table).
  assert (forall q, q <> np -> k_proc s4 q = k_proc s q) as Hoth4 by (intros q Hq'; unfold s4; by table).
  assert (locked s4) as Hl4 by exact Hl. eapply wpf_done; [by apply release_locked|].
  split; [by apply released_unlocked|]. split; [exact Hq4|]. split.
  - apply (base_runnable _ (set_k_initproc ini s) np); cbn -[s4]; try done; rewrite ?Hst, ?H4; try done. by left.
  - split_and!; [|done|done|by exists (Z.of_nat lvl)].
    unfold s4, released, acquired. cbn -[popped pushed insert]. by rewrite popped_proc, pushed_proc.
Qed.

Lemma fork_start_ok cur np nice t tk s :
  building cur np t tk s ->
  p_kstack (k_proc s np) <> 0%Z -> (KERNBASE <= p_pgdir (k_proc s np))%Z ->
  p_context (k_proc s np) = CtxForkret ->
  wp (fork_start np nice) (fun pid s' => pid = p_pid (k_proc s np) /\ inv s' /\
    c_proc (k_cpu s') = Some cur /\ (forall q, q <> np -> k_proc s' q = t q) /\
    started nice tk (k_proc s np) (k_proc s' np)) s.
Proof.
  intros Hb Hk Hd Hc. apply wp_wpf. unfold fork_start. wnext.
  wrun (put_proc_eq np _ s). wnext. wrun (put_proc_eq np _ (proc_set np _ s)).
  set (s2 := proc_set np _ (proc_set np _ s)).
  assert (building cur np t tk s2) as ((Hu & Hq & Hbs) & Hcp2 & Hnp & Hst2 & Hoth2 & _).
  { repeat (apply building_put; [|done|by left]); done. }
  assert (k_proc s2 np = set_p_virt_deadline (computevd nice (i32 tk)) (set_p_nice nice (k_proc s np))) as H2.
  { unfold s2. table. by destruct Hb as (_ & _ & _ & _ & _ & ->). }
  clearbody s2. rewrite Hcp2 in Hbs. rewrite H2 in Hst2.
  apply wpf_bind. eapply wpf_mono.
  { apply wpf_wp, (start_ok np (Some cur) (k_initproc s2)); rewrite ?H2; try done. by destruct s2. }
  intros _ s' (Hu' & Hq' & Hb' & Hcp' & Hini & Hoth & lvl & Hlvl). eapply wpf_done; [reflexivity|].
  split_and!; try done.
  - split; [done|]. split; [done|]. rewrite Hcp'. rewrite <- Hini in Hb'. by destruct s'.
  - intros q Hq''. by rewrite Hoth, Hoth2.
  - exists lvl. by rewrite Hlvl, H2.
Qed.

(** The child that nicefork leaves in the slot that held [old]. *)
Record forked (cur ip : nat) (nice t pid : Z) (par old c : proc) : Prop := mkForked {
  fk_state : p_state c = RUNNABLE;
  fk_pid : p_pid c = pid;
  fk_parent : p_parent c = Some cur;
  fk_nice : p_nice c = nice;
  fk_deadline : p_virt_deadline c = computevd nice (i32 t);
  fk_sz : p_sz c = p_sz par;
  fk_tf : p_tf c = set_tf_eax 0 (p_tf par);
  fk_context : p_context c = CtxForkret;
  fk_cwd : p_cwd c = Some ip;
  fk_ofile : forall i, p_ofile c i = dup_table NOFILE (p_ofile par) (p_ofile old) i;
}.

(** The branch where copyuvm finds no memory: the slot is given back. *)
Lemma fork_fail_ok cur np t tk s :
  building cur np t tk s -> p_parent (k_proc s np) = None ->
  wpf F (nq <- get_proc np ;; lift (ke_kfree (p_kstack nq)) ;; put_proc np (set_p_kstack 0) ;;
         put_proc np (set_p_state UNUSED) ;; ret (-1)%Z)
    (fun r s' => r = (-1)%Z /\ inv s' /\ c_proc (k_cpu s') = Some cur /\
       forall q, q <> np -> k_proc s' q = t q) s.
Proof.
  intros Hb Hpar. wnext. apply wpf_bind, (wpf_env _ (fun _ => True)); [apply Hb|..].
  { eapply wpf_mono; [apply ke_kfree_ok, Hb|done]. }
  intros _ e _ Hinv'. apply (building_env _ _ _ _ _ e) in Hb; [|done].
  change (p_parent (k_proc (set_k_env e s) np) = None) in Hpar.
  set (s1 := set_k_env e s) in *. clearbody s1. clear Hinv' s.
  wrun (put_proc_eq np _ s1). wrun (put_proc_eq np _ (proc_set np _ s1)).
  eapply wpf_done; [reflexivity|]. destruct Hb as (Hinv & Hcp & Hnp & Hst & Hoth & _).
  split_and!; try done.
  - apply (inv_slot s1 np); try done; [by rewrite Hst|by table|intros q Hq; by table|].
    table. congruence.
  - intros q Hq. table. auto.
Qed.

Lemma nicefork_ok cur ip nice s :
  inv s -> c_proc (k_cpu s) = Some cur -> p_cwd (k_proc s cur) = Some ip ->
  (NICE_FIRST_LEVEL <= nice <= NICE_LAST_LEVEL)%Z ->
  wpf F (nicefork nice) (fun r s' => inv s' /\ c_proc (k_cpu s') = Some cur /\
    (r = (-1)%Z /\ (forall q, p_state (k_proc s q) <> UNUSED -> k_proc s' q = k_proc s q) \/
     exists np, r = k_nextpid s /\ np < NPROC /\ p_state (k_proc s np) = UNUSED /\
       (forall q, q <> np -> k_proc s' q = k_proc s q) /\
       forked cur ip nice (k_ticks s) r (k_proc s cur) (k_proc s np) (k_proc s' np))) s.
Proof.
  intros Hinv Hcp Hcwd Hnice. unfold nicefork.
  destruct (Z.ltb_spec nice NICE_FIRST_LEVEL); [lia|].
  destruct (Z.ltb_spec NICE_LAST_LEVEL nice); [lia|]. cbn [orb].
  wrun (curproc_unlocked s cur (inv_unlocked s Hinv) Hcp).
  assert (inv (my_read s)) as Hinv1 by (destruct Hinv as (? & ? & []); done).
  apply wpf_bind. eapply wpf_mono; [by apply allocproc_ok|].
  intros r s1 (Hi1 & Hcp1 & Htk1 & _ & Hal). destruct r as [np|].
  2: { eapply wpf_done; [reflexivity|]. split; [done|]. split; [by rewrite Hcp1|]. by left. }
  destruct Hal as (Hnp & Hun & Hoth & Hst & Hpid & _ & Hctx & Hks & Hpar & Hof).
  change (k_proc (my_read s)) with (k_proc s) in *.
  assert (building cur np (k_proc s) (k_ticks s) s1) as Hb1.
  { split_and!; try done. by rewrite Hcp1. }
  wnext. apply wpf_bind, (wpf_env _ (fun d => d = 0 \/ KERNBASE <= d)%Z); [done|..].
  { eapply wpf_mono; [apply ke_copyuvm_ok, Hb1|]. naive_solver. }
  intros d e Hd Hinv'. apply (building_env _ _ _ _ _ e) in Hb1; [|done].
  change (k_proc s1) with (k_proc (set_k_env e s1)) in *.
  set (s2 := set_k_env e s1) in *. clearbody s2. clear Hinv' Hi1 Hcp1 Htk1 s1.
  wrun (put_proc_eq np _ s2).
  assert (building cur np (k_proc s) (k_ticks s) (proc_set np (set_p_pgdir d) s2)) as Hb2
    by (apply building_put; [done|done|by left]).
  destruct (Z.eqb_spec d 0) as [->|Hd0].
  - eapply wpf_mono; [apply (fork_fail_ok _ _ _ _ _ Hb2); by table|].
    intros v s3 (-> & Hi3 & Hcp3 & Hoth3). split; [done|]. split; [done|]. left. split; [done|].
    intros q Hq. apply Hoth3. congruence.
  - apply wpf_bind. eapply wpf_mono; [by apply fork_copy_ok|]. intros _ s3 (Hb3 & Hcpd).
    assert (p_kstack (k_proc s3 np) <> 0 /\ KERNBASE <= p_pgdir (k_proc s3 np) /\
            p_context (k_proc s3 np) = CtxForkret)%Z as (Hk3 & Hd3 & Hc3).
    { destruct (cp_mem _ _ _ _ _ Hcpd) as [-> ->]. rewrite (cp_context _ _ _ _ _ Hcpd). table.
      split_and!; [done| |done]. destruct Hd; done. }
    eapply wpf_mono; [by apply wpf_wp, (fork_start_ok _ _ _ _ _ _ Hb3)|].
    intros pid s4 (-> & Hi4 & Hcp4 & Hoth4 & lvl & Hc4). split; [done|]. split; [done|]. right.
    assert (p_pid (k_proc s3 np) = k_nextpid s) as Hpid3.
    { rewrite (cp_pid _ _ _ _ _ Hcpd). by table. }
    exists np. split_and!; [done..|].
    destruct Hcpd as [H1 H2 H3 H4 H5 _ _ _ _]. constructor; rewrite Hc4; try done.
    cbn [p_ofile set_p_max_skiplist_level set_p_state set_p_virt_deadline set_p_nice].
    intros i. rewrite H4. table. by rewrite Hof.
Qed.

End Life.
