(* ===== verification/ProcExit.v ===== *)
(** * exit and wait

    exit passes the children to init, leaves the run queue and becomes a
    zombie; wait reaps a zombie child, reports that there are no children, or
    goes to sleep.  Both keep the invariant. *)

From S2P Require Import Prelude Mem KState Spinlock SkipList SkipListInv SkipListInsert.
From S2P Require Import SkipListDelete Mem KEnv Proc ProcQueue ProcInv ProcSwitch.
From S2P Require Import ProcLife.

Local Open Scope c_scope.

Section Exit.
Context {E : Type} `{HE : KEnv E} {F : fault -> Prop} `{HK : !KEnvOk E F}.
Implicit Types s : kst E.

(** ** The files of the process that exits *)

Lemma inv_put s p f :
  inv s -> same_core (k_proc s p) (f (k_proc s p)) ->
  p_virt_deadline (f (k_proc s p)) = p_virt_deadline (k_proc s p) ->
  p_max_skiplist_level (f (k_proc s p)) = p_max_skiplist_level (k_proc s p) ->
  inv (proc_set p f s).
Proof.
  intros (Hu & Hq & Hb) Hc Hv Hm. split; [done|]. split; [|by apply base_put].
  apply qinv_put_same; try done. by destruct Hc as [-> _].
Qed.

(** A process of the table before and while another one runs: it may be woken. *)
Definition kept (a b : proc) : Prop :=
  p_state b = p_state a \/ (p_state a = SLEEPING /\ p_state b = RUNNABLE).

Lemma kept_trans a b c : kept a b -> kept b c -> kept a c.
Proof. unfold kept. intros [H1|[H1 H1']] [H2|[H2 H2']]; rewrite ?H2, ?H1, ?H2', ?H1' in *; auto; congruence. Qed.

Definition still (a b : proc) : Prop := p_parent b = p_parent a /\ kept a b.

Lemma still_refl a : still a a.
Proof. by split; [|left]. Qed.

Lemma still_trans a b c : still a b -> still b c -> still a c.
Proof. intros [? ?] [? ?]. split; [congruence|by eapply kept_trans]. Qed.

Lemma wakes_still ch a b : wakes ch a b -> still a b.
Proof. intros Hw. split; [by rewrite (proj1 (wakes_other _ _ _ Hw))|by eapply wakes_state]. Qed.

Lemma wakeups_ok l : forall s,
  inv s -> wp (for_each l wakeup) (fun _ s' => inv s' /\ c_proc (k_cpu s') = c_proc (k_cpu s) /\
    k_initproc s' = k_initproc s /\ (forall q, q < NPROC -> still (k_proc s q) (k_proc s' q)) /\
    forall p, c_proc (k_cpu s) = Some p -> k_proc s' p = k_proc s p) s.
Proof.
  induction l as [|ch l IH]; intros s Hinv.
  { apply wp_ret. split_and!; try done. intros q _. apply still_refl. }
  cbn [for_each]. apply wp_bind. eapply wp_mono; [by apply wakeup_frame|].
  intros _ s1 ((Hinv1 & Hcp1 & Hw) & Hini1). eapply wp_mono; [by apply IH|].
  intros _ s2 (Hinv2 & Hcp2 & Hini2 & Hs2 & Hp2). split_and!; [done|congruence|congruence|..].
  - intros q Hq. eapply still_trans; [by eapply wakes_still, Hw|by apply Hs2].
  - intros p Hp. destruct (inv_running s p Hinv Hp) as [Hlt Hrun]. rewrite Hp2 by congruence.
    by apply (wakes_running ch); [apply Hw|].
Qed.

(** The process [p] has run on its own since the table was [t]. *)
Definition alone (p : nat) (t : nat -> proc) (ini : option nat) s : Prop :=
  inv s /\ c_proc (k_cpu s) = Some p /\ (forall q, q < NPROC -> q <> p -> still (t q) (k_proc s q)) /\ k_initproc s = ini.

Lemma alone_put p t ini s f :
  alone p t ini s -> same_core (k_proc s p) (f (k_proc s p)) ->
  p_virt_deadline (f (k_proc s p)) = p_virt_deadline (k_proc s p) ->
  p_max_skiplist_level (f (k_proc s p)) = p_max_skiplist_level (k_proc s p) ->
  alone p t ini (proc_set p f s).
Proof.
  intros (Hinv & Hcp & Hoth & Hini) Hc Hv Hm. split_and!; try done; [by apply inv_put|].
  intros q Hqn Hq. table. auto.
Qed.

Lemma alone_env p t ini s e :
  alone p t ini s -> inv (set_k_env e s) -> alone p t ini (set_k_env e s).
Proof. by intros (_ & ?) ?. Qed.

(** An operation of the rest of the kernel that the process waits for. *)
Lemma wpf_alone {A} (m : M E A) (Q : A -> kst E -> Prop) p t ini s :
  alone p t ini s -> wpf F m (fun _ e => ke_inv e) (k_env s) ->
  (forall a e, alone p t ini (set_k_env e s) -> Q a (set_k_env e s)) -> wpf F (lift m) Q s.
Proof.
  intros Ha Hm Hq. apply (wpf_env _ (fun _ => True)); [apply Ha|by eapply wpf_mono|].
  intros a e _ Hinv. apply Hq. by apply alone_env.
Qed.

(** The same with the wakeups of the operation *)
Lemma wpf_waking (m : M E (list chan)) (Q : unit -> kst E -> Prop) p t ini s :
  alone p t ini s -> wpf F m (fun _ e => ke_inv e) (k_env s) ->
  (forall s', alone p t ini s' -> k_proc s' p = k_proc s p -> Q tt s') -> wpf F (waking m) Q s.
Proof.
  intros Ha Hm Hq. unfold waking. apply wpf_bind, (wpf_alone _ _ p t ini); [done|done|]. intros l e Ha1.
  destruct Ha1 as (Hinv & Hcp & Hoth & Hini). eapply wpf_mono; [by apply wpf_wp, wakeups_ok|].
  intros [] s' (Hinv' & Hcp' & Hini' & Hs & Hp). apply Hq; [|by apply Hp]. split_and!; [done|congruence| |congruence].
  intros q Hqn Hqp. eapply still_trans; [by apply Hoth|by apply Hs].
Qed.

Lemma close_files_ok p t ini s :
  alone p t ini s ->
  wpf F (close_files p) (fun _ s' => alone p t ini s' /\
    exists fs, k_proc s' p = set_p_ofile fs (k_proc s p) /\ forall i, i < NOFILE -> fs i = None) s.
Proof.
  intros Ha. unfold close_files.
  apply (wpf_for_each _ (fun visited s1 => alone p t ini s1 /\
    exists fs, k_proc s1 p = set_p_ofile fs (k_proc s p) /\ forall i, i ∈ visited -> fs i = None)).
  - split; [done|]. exists (p_ofile (k_proc s p)). split; [by destruct (k_proc s p)|set_solver].
  - intros visited i todo s1 _ (Ha1 & fs & Hfs & Hi). wnext.
    destruct (p_ofile (k_proc s1 p) i) as [f|] eqn:Hf.
    + apply wpf_bind, (wpf_waking _ _ p t ini); [done|apply ke_fileclose_ok, Ha1|].
      intros s2 Ha2 Hsame. eapply wpf_done; [apply put_proc_eq|]. split; [by apply alone_put|].
      eexists. split; [table; rewrite Hsame, Hfs; reflexivity|]. cbn -[insert]. intros j Hj.
      destruct (decide (j = i)) as [->|]; fn_simp; [done|]. apply Hi. set_solver.
    + eapply wpf_done; [reflexivity|]. split; [done|]. exists fs. split; [done|]. intros j Hj.
      rewrite Hfs in Hf. simpl in Hf. destruct (decide (j = i)) as [->|]; [done|]. apply Hi. set_solver.
  - intros s' (Ha' & fs & Hfs & Hi). split; [done|]. exists fs. split; [done|].
    intros i Hn. apply Hi, elem_of_seq. lia.
Qed.

Lemma exit_files_ok p ip t ini s :
  alone p t ini s -> p_cwd (k_proc s p) = Some ip ->
  wpf F (exit_files p) (fun _ s' => alone p t ini s' /\
    exists fs, k_proc s' p = set_p_cwd None (set_p_ofile fs (k_proc s p)) /\
      forall i, i < NOFILE -> fs i = None) s.
Proof.
  intros Ha Hcwd. unfold exit_files. apply wpf_bind. eapply wpf_mono; [by apply close_files_ok|].
  intros _ s1 (Ha1 & fs & Hfs & Hi).
  apply wpf_bind, (wpf_alone _ _ p t ini); [done|apply ke_begin_op_ok, Ha1|]. intros _ e2 Ha2.
  wnext. change (k_proc (set_k_env e2 s1)) with (k_proc s1). rewrite Hfs. cbn [p_cwd set_p_ofile]. rewrite Hcwd.
  apply wpf_bind, (wpf_waking _ _ p t ini); [done|apply ke_iput_ok, Ha2|]. intros s3 Ha3 H3.
  apply wpf_bind, (wpf_waking _ _ p t ini); [done|apply ke_end_op_ok, Ha3|]. intros s4 Ha4 H4.
  eapply wpf_done; [apply put_proc_eq|]. split; [by apply alone_put|].
  exists fs. split; [|done]. table. by rewrite H4, H3, <- Hfs.
Qed.

(** ** Passing the children to init *)

(** [p] runs under ptable.lock, and has left the run queue. *)
Definition leaving (p i : nat) s : Prop :=
  locked s /\ qinv (Some p) s /\ base (Some p) s /\ c_proc (k_cpu s) = Some p /\ k_initproc s = Some i.

Lemma leaving_running p i s : leaving p i s -> p < NPROC /\ p_state (k_proc s p) = RUNNING.
Proof.
  intros (_ & _ & [Hok _ _] & _). pose proof (po_range _ _ Hok p eq_refl) as Hp.
  split; [done|]. by apply (po_run _ _ Hok p Hp).
Qed.

Lemma leaving_wake p i ch s :
  leaving p i s ->
  wp (wakeup1 ch) (fun _ s' => leaving p i s' /\ k_proc s' p = k_proc s p /\
    forall q, q < NPROC -> wakes ch (k_proc s q) (k_proc s' q)) s.
Proof.
  intros Hlv. destruct (leaving_running p i s Hlv) as [Hp Hrun].
  destruct Hlv as (Hl & Hq & Hb & Hcp & Hi).
  eapply wp_mono; [apply (wakeup1_spec (Some p) ch s Hq); intros q [= <-]; by rewrite Hrun|].
  intros _ s' (Hq' & Hf & Hw). split_and!; [split_and!|..]; try done.
  - by eapply frame_locked.
  - by eapply base_wakes.
  - by rewrite (fr_cpu _ _ Hf).
  - by rewrite (fr_initproc _ _ Hf).
  - specialize (Hw p Hp). unfold wakes in Hw. by rewrite Hrun in Hw.
Qed.

Lemma leaving_pass p i s q :
  leaving p i s -> q < NPROC -> p_parent (k_proc s q) = Some p ->
  leaving p i (proc_set q (set_p_parent (Some i)) s).
Proof.
  intros (Hl & Hq & Hb & Hcp & Hi) Hqn Hpar. split_and!; try done; [by apply qinv_put_same|].
  destruct Hb as [Hok Hini0 He]. destruct (Hini0 i Hi) as [Hlt Hlv].
  assert (forall y, p_state (k_proc (proc_set q (set_p_parent (Some i)) s) y) = p_state (k_proc s y)) as Hsts.
  { intros y. table. destruct (decide (y = q)) as [->|]; by fn_simp. }
  constructor; [|apply (init_ok_keep _ _ _ Hini0); intros y _; by rewrite Hsts|done].
  apply (procs_ok_map (Some p) (Some p) (k_proc s)); [done|apply Hok|..].
  - intros y Hy. rewrite Hsts. by apply Hok.
  - intros y Hy. pose proof (po_mem _ _ Hok y Hy). pose proof (po_ctx _ _ Hok y Hy). table.
    destruct (decide (y = q)) as [->|]; by fn_simp.
  - intros y _. by rewrite Hsts.
  - intros y z Hy Hz. rewrite Hsts. revert Hz. table. destruct (decide (y = q)) as [->|]; fn_simp; intros Hz.
    + destruct (po_parent _ _ Hok q Hqn p Hpar) as (_ & _ & ?). simpl in Hz. split; [done|].
      right. by injection Hz as <-.
    + split; [|by left]. by destruct (po_parent _ _ Hok y Hy z Hz) as (_ & _ & ?).
Qed.

(** The parent of a process after [p] has passed its children to [i]. *)
Definition passed (p i : nat) (par : option nat) : option nat :=
  if bool_decide (par = Some p) then Some i else par.

Lemma passed_ne p i par : p <> i -> passed p i par <> Some p.
Proof. intros Hne. unfold passed. case_bool_decide; congruence. Qed.

Lemma reparent_one p i s q :
  leaving p i s -> q < NPROC ->
  wp (pr <- get_proc q ;;
      when (bool_decide (p_parent pr = Some p))
        (ip <- gets k_initproc ;; put_proc q (set_p_parent ip) ;;
         when (bool_decide (p_state pr = ZOMBIE)) (wakeup1 (chan_of_proc ip))))
    (fun _ s' => leaving p i s' /\ forall y, y < NPROC -> kept (k_proc s y) (k_proc s' y) /\
       p_parent (k_proc s' y) =
         if decide (y = q) then passed p i (p_parent (k_proc s q)) else p_parent (k_proc s y)) s.
Proof.
  intros Hlv Hq. apply wp_bind, wp_gets. unfold passed.
  destruct (bool_decide_reflect (p_parent (k_proc s q) = Some p)) as [Hpar|Hpar]; cbn [when].
  2: { apply wp_ret. split; [done|]. intros y Hy. split; [by left|]. by destruct (decide (y = q)) as [->|]. }
  apply wp_bind, wp_gets, wp_bind. eapply wp_intro; [apply put_proc_eq|].
  assert (k_initproc s = Some i) as -> by apply Hlv. pose proof (leaving_pass p i s q Hlv Hq Hpar) as Hlv1.
  set (s1 := proc_set q _ s) in *.
  assert (forall y, kept (k_proc s y) (k_proc s1 y) /\
     p_parent (k_proc s1 y) = if decide (y = q) then Some i else p_parent (k_proc s y)) as H1.
  { intros y. unfold s1. table. destruct (decide (y = q)) as [->|]; fn_simp; (split; [by left|done]). }
  clearbody s1. destruct (bool_decide _); cbn [when]; [|by apply wp_ret].
  eapply wp_mono; [by apply leaving_wake|]. intros _ s2 (Hlv2 & _ & Hw). split; [done|]. intros y Hy.
  destruct (H1 y) as [Hk Hp1]. split.
  - eapply kept_trans; [exact Hk|]. by eapply wakes_state, Hw.
  - by rewrite (proj1 (wakes_other _ _ _ (Hw y Hy))).
Qed.

Lemma reparent_ok p i s :
  leaving p i s ->
  wp (reparent p) (fun _ s' => leaving p i s' /\ forall q, q < NPROC ->
    p_parent (k_proc s' q) = passed p i (p_parent (k_proc s q)) /\ kept (k_proc s q) (k_proc s' q)) s.
Proof.
  intros Hlv. unfold reparent.
  apply (wp_for_each (fun visited s1 => leaving p i s1 /\
    (forall q, q < NPROC -> kept (k_proc s q) (k_proc s1 q) /\
       p_parent (k_proc s1 q) =
         if decide (q ∈ visited) then passed p i (p_parent (k_proc s q)) else p_parent (k_proc s q)))).
  - split; [done|]. intros q Hq. split; [by left|done].
  - intros visited q todo s1 Hl (Hlv1 & H1). destruct (proc_ids_split _ _ _ Hl) as (Hq & Hnew & _).
    eapply wp_mono; [by apply reparent_one|]. intros _ s2 (Hlv2 & H2). split; [done|]. intros y Hy.
    destruct (H1 y Hy) as [Hk1 Hp1], (H2 y Hy) as [Hk2 Hp2]. split; [by eapply kept_trans|].
    rewrite Hp2. destruct (decide (y = q)) as [->|].
    + rewrite decide_True by set_solver. by rewrite Hp1, decide_False.
    + rewrite Hp1. by destruct (decide (y ∈ visited)); [rewrite decide_True|rewrite decide_False]; set_solver.
  - intros s' (Hlv' & H'). split; [done|]. intros q Hq. destruct (H' q Hq) as [Hk Hp].
    rewrite decide_True in Hp by (apply elem_of_seq; lia). done.
Qed.

(** ** wait *)

(** A slot after its zombie has been reaped. *)
Definition reaped (x : proc) : Prop :=
  p_state x = UNUSED /\ p_pid x = 0%Z /\ p_parent x = None /\ p_kstack x = 0%Z /\ p_killed x = false.

Lemma reap_ok cur s p :
  inside PtableLock (Some cur) s -> p < NPROC -> p_state (k_proc s p) = ZOMBIE ->
  wpf F (lift (ke_kfree (p_kstack (k_proc s p))) ;;
         put_proc p (set_p_kstack 0) ;;
         lift (ke_freevm (p_pgdir (k_proc s p))) ;;
         put_proc p (set_p_pid 0) ;;
         put_proc p (set_p_parent None) ;;
         put_proc p (fun q => set_p_name (<[0%nat := 0%Z]> (p_name q)) q) ;;
         put_proc p (set_p_killed false) ;;
         put_proc p (set_p_state UNUSED) ;;
         release PtableLock ;;
         ret (inr (p_pid (k_proc s p)) : bool + Z))
    (fun r s' => r = inr (p_pid (k_proc s p)) /\ inv s' /\ c_proc (k_cpu s') = Some cur /\
       reaped (k_proc s' p) /\ forall q, q <> p -> k_proc s' q = k_proc s q) s.
Proof.
  intros (Hl & Hq & Hb & Hcp) Hp Hst. apply wpf_bind, wpf_lift.
  eapply wpf_mono; [apply ke_kfree_ok, Hb|]. intros ? e1 He1.
  wrun (put_proc_eq p _ _). apply wpf_bind, wpf_lift.
  eapply wpf_mono; [by apply ke_freevm_ok|]. intros ? e2 He2.
  do 5 (wrun (put_proc_eq p _ _)). match goal with |- wpf _ _ _ ?x => set (s1 := x) end.
  assert (reaped (k_proc s1 p)) as Hre by (unfold s1, reaped; by table).
  assert (forall q, q <> p -> k_proc s1 q = k_proc s q) as Hoth by (intros q Hqp; unfold s1; by table).
  destruct (idle_slot_put (Some cur) s p (k_proc s1 p) s1) as [Hb1 Hq1]; try done.
  - by rewrite Hst.
  - by destruct Hre as [-> _].
  - destruct Hre as (_ & _ & -> & _). done.
  - intros q. destruct (decide (q = p)) as [->|]; fn_simp; auto.
  - assert (inside PtableLock (Some cur) s1) as Hin1 by (split_and!; done).
    destruct (inside_release _ _ _ Hin1) as (Hr & Hinv & Hcp'). wrun Hr. eapply wpf_done; [reflexivity|].
    done.
Qed.

Definition is_child (t : nat -> proc) (cur p : nat) : bool := bool_decide (p_parent (t p) = Some cur).

(** The scan of the table, over the slots [l] that are left. *)
Lemma wait_scan_ok l cur hk s :
  inside PtableLock (Some cur) s -> (forall p, p ∈ l -> p < NPROC) ->
  wpf F (wait_scan l cur hk) (fun r s' =>
    match r with
    | inl hk' => s' = s /\ hk' = hk || existsb (is_child (k_proc s) cur) l /\
        forall p, p ∈ l -> p_parent (k_proc s p) = Some cur -> p_state (k_proc s p) <> ZOMBIE
    | inr pid => inv s' /\ c_proc (k_cpu s') = Some cur /\
        exists p, p ∈ l /\ p_parent (k_proc s p) = Some cur /\ p_state (k_proc s p) = ZOMBIE /\
          pid = p_pid (k_proc s p) /\ reaped (k_proc s' p) /\
          forall q, q <> p -> k_proc s' q = k_proc s q
    end) s.
Proof.
  intros Hin. revert hk. induction l as [|p l IH]; intros hk Hlt; simpl.
  { eapply wpf_done; [reflexivity|]. rewrite orb_false_r. split_and!; try done. set_solver. }
  wnext. unfold is_child at 1.
  destruct (bool_decide_reflect (p_parent (k_proc s p) = Some cur)) as [Hpar|Hpar]; cbn [negb].
  - destruct (bool_decide_reflect (p_state (k_proc s p) = ZOMBIE)) as [Hst|Hst].
    + eapply wpf_mono; [apply reap_ok; try done; apply Hlt; set_solver|].
      intros r s' (-> & Hinv & Hcp & Hre & Hoth). split_and!; try done. exists p. split_and!; try done. set_solver.
    + eapply wpf_mono; [apply IH; set_solver|]. intros [hk'|pid] s'.
      * intros (-> & -> & Hz). split_and!; [done|by rewrite orb_true_r|set_solver].
      * intros (? & ? & q & Hq & Hrest). split_and!; try done. exists q. split; [set_solver|done].
  - eapply wpf_mono; [apply IH; set_solver|]. intros [hk'|pid] s'.
    + intros (-> & -> & Hz). split_and!; [done|done|set_solver].
    + intros (? & ? & q & Hq & Hrest). split_and!; try done. exists q. split; [set_solver|done].
Qed.

(** ** exit *)

Section Stray.
Context (stray : kst E -> nptr -> option nat).
Context (Hstray : forall p, p < NPROC -> stray_ok stray p).

(** The table that exit leaves when [p] exits. *)
Definition exited (p i : nat) (t t' : nat -> proc) : Prop :=
  p_state (t' p) = ZOMBIE /\
  forall q, q < NPROC -> q <> p ->
    p_parent (t' q) = passed p i (p_parent (t q)) /\ kept (t q) (t' q).

Lemma base_zombie p i s s' :
  base (Some p) s -> p <> i -> k_initproc s = Some i ->
  (forall q, q < NPROC -> p_parent (k_proc s q) <> Some p) ->
  p_state (k_proc s' p) = ZOMBIE -> p_kstack (k_proc s' p) = p_kstack (k_proc s p) ->
  p_pgdir (k_proc s' p) = p_pgdir (k_proc s p) -> p_parent (k_proc s' p) = p_parent (k_proc s p) ->
  (forall q, q <> p -> k_proc s' q = k_proc s q) ->
  k_initproc s' = k_initproc s -> k_env s' = k_env s -> base None s'.
Proof.
  intros [Hok Hini0 He] Hne Hi Hno Hst Hk Hd Hpar Hoth Hini Henv. constructor.
  - eapply (procs_ok_stop p (k_proc s)); rewrite ?Hst; try done; [|by right]. unfold ctx_ok. by rewrite Hst.
  - rewrite Hini. apply (init_ok_keep _ _ _ Hini0). intros j Hj Hlv. rewrite Hoth; [done|congruence].
  - by rewrite Henv.
Qed.

(** From [curproc->state = ZOMBIE] to the swtch. *)
Lemma exit_last p i s :
  leaving p i s -> p <> i -> (forall q, q < NPROC -> p_parent (k_proc s q) <> Some p) ->
  wp (put_proc p (set_p_state ZOMBIE) ;; release PtableLock ;; acquire PtableLock ;; sched FromExit)
    (fun _ s' => mid s' /\ c_proc (k_cpu s') = Some p /\ p_state (k_proc s' p) = ZOMBIE /\
       forall q, q <> p -> k_proc s' q = k_proc s q) s.
Proof.
  intros (Hl & Hq & Hb & Hcp & Hi) Hne Hno. apply wp_wpf. wrun (put_proc_eq p _ s).
  set (s1 := proc_set p _ s).
  assert (qinv None s1) as Hq1.
  { apply (qinv_drop _ p); [by apply qinv_put_out|]. unfold s1. by table. }
  wrun (release_locked PtableLock s1 Hl). pose proof (released_unlocked PtableLock s1 Hl) as Hu2.
  set (s2 := released PtableLock s1) in *. wrun (acquire_unlocked PtableLock s2 Hu2).
  pose proof (acquired_locked PtableLock s2 Hu2) as Hl3. set (s3 := acquired PtableLock s2) in *.
  assert (c_proc (k_cpu s3) = Some p) as Hcp3.
  { unfold s3, acquired, s2, released. cbn -[pushed popped insert]. by rewrite pushed_proc, popped_proc. }
  assert (k_proc s3 = k_proc s1) as H31 by done.
  assert (p_state (k_proc s3 p) = ZOMBIE) as Hst3 by (rewrite H31; unfold s1; by table).
  eapply wpf_done; [apply (sched_eq s3 p); [done|done|by rewrite Hst3]|].
  split; [split; [exact Hl3|split]|].
  - apply qinv_put_same; [exact Hq1|done..].
  - apply (base_zombie p i s); try done; rewrite ?H31; unfold s1; try by table.
    intros q Hq'. by table.
  - split_and!; [done|by table|]. intros q Hq'. by table.
Qed.

Lemma exit_locked_ok p i s :
  inv s -> c_proc (k_cpu s) = Some p -> k_initproc s = Some i -> p <> i ->
  wp (exit_locked stray p) (fun _ s' => mid s' /\ c_proc (k_cpu s') = Some p /\
    exited p i (k_proc s) (k_proc s')) s.
Proof.
  intros Hinv Hcp Hi Hne. apply wp_wpf. unfold exit_locked.
  destruct (inv_running s p Hinv Hcp) as [Hp Hrun].
  destruct (inside_acquire PtableLock _ s Hinv Hcp) as (Ha & Hl & Hq & Hb & Hcp1). wrun Ha.
  change (k_proc s) with (k_proc (acquired PtableLock s)) in *.
  change (k_initproc s) with (k_initproc (acquired PtableLock s)) in Hi.
  set (s1 := acquired PtableLock s) in *. clearbody s1. clear Ha Hinv Hcp s.
  destruct (delete_if_queued_running stray Hstray s1 p Hq Hp) as (nd & Hd & Hq2); [by rewrite Hrun|].
  wrun Hd. wnext. set (s2 := deleted p nd s1) in *.
  assert (leaving p i s2) as Hlv2.
  { split_and!; try done. apply (base_ext _ (proc_set p (set_p_max_skiplist_level (-1)) s1)); try done.
    by apply base_put. }
  assert (forall q, p_parent (k_proc s2 q) = p_parent (k_proc s1 q) /\
            p_state (k_proc s2 q) = p_state (k_proc s1 q)) as H2.
  { intros q. unfold s2. table. destruct (decide (q = p)) as [->|]; by fn_simp. }
  clearbody s2. apply wpf_bind. eapply wpf_mono; [by apply wpf_wp, leaving_wake|].
  intros _ s3 (Hlv3 & _ & Hw). apply wpf_bind. eapply wpf_mono; [by apply wpf_wp, reparent_ok|].
  intros _ s4 (Hlv4 & H4).
  assert (forall q, q < NPROC -> p_parent (k_proc s4 q) = passed p i (p_parent (k_proc s1 q)) /\
            kept (k_proc s1 q) (k_proc s4 q)) as H14.
  { intros q Hqn. destruct (H4 q Hqn) as [-> Hk]. destruct (H2 q) as [Hp2 Hs2].
    rewrite (proj1 (wakes_other _ _ _ (Hw q Hqn))), Hp2. split; [done|].
    eapply kept_trans; [left; exact Hs2|]. eapply kept_trans; [by eapply wakes_state, Hw|done]. }
  eapply wpf_mono; [apply wpf_wp, (exit_last p i s4); try done|].
  { intros q Hqn. rewrite (proj1 (H14 q Hqn)). by apply passed_ne. }
  intros _ s5 (Hmid & Hcp5 & Hz & Hoth). split_and!; try done. split; [done|].
  intros q Hqn Hqp. rewrite Hoth by done. auto.
Qed.

(** exit of a process other than init: its files are closed, it becomes a
    zombie outside the run queue, and its children become init's. *)
Lemma exit_enter_ok p i ip s :
  inv s -> c_proc (k_cpu s) = Some p -> k_initproc s = Some i -> p <> i ->
  p_cwd (k_proc s p) = Some ip ->
  wpf F (exit_enter stray) (fun _ s' => mid s' /\ c_proc (k_cpu s') = Some p /\
    exited p i (k_proc s) (k_proc s')) s.
Proof.
  intros Hinv Hcp Hi Hne Hcwd. unfold exit_enter.
  wrun (curproc_unlocked s p (inv_unlocked s Hinv) Hcp). wnext.
  change (k_initproc (my_read s)) with (k_initproc s). rewrite Hi, bool_decide_false by congruence.
  assert (alone p (k_proc s) (Some i) (my_read s)) as Ha.
  { split; [destruct Hinv as (? & ? & []); done|]. split_and!; try done. intros q _ _. apply still_refl. }
  apply wpf_bind. eapply wpf_mono; [by eapply exit_files_ok|].
  intros _ s1 ((Hinv1 & Hcp1 & Hoth & Hi1) & _).
  eapply wpf_mono; [by apply wpf_wp, exit_locked_ok|]. intros _ s2 (Hm & Hcp2 & Hz & Hx).
  split_and!; [done|done|]. split; [done|]. intros q Hq Hqp. destruct (Hoth q Hq Hqp) as [<- Hk], (Hx q Hq Hqp) as [Hpar Hk'].
  split; [done|]. by eapply kept_trans.
Qed.

Lemma exit_init_panics s p :
  inv s -> c_proc (k_cpu s) = Some p -> k_initproc s = Some p ->
  exists s', exit_enter stray s = Panic "init exiting" s'.
Proof.
  intros Hinv Hcp Hi. unfold exit_enter. mstep (curproc_unlocked s p (inv_unlocked s Hinv) Hcp).
  erewrite bind_done by reflexivity. change (k_initproc (my_read s)) with (k_initproc s).
  rewrite Hi, bool_decide_true by done. by eexists.
Qed.

(** One turn of wait's loop. *)
Definition waited (cur : nat) (t : nat -> proc) (r : option Z) s' : Prop :=
  match r with
  | None =>          (* asleep, because it has children and none is a zombie *)
      mid s' /\ c_proc (k_cpu s') = Some cur /\ p_state (k_proc s' cur) = SLEEPING /\
      p_chan (k_proc s' cur) = ProcChan cur /\ p_killed (t cur) = false /\
      (exists p, p < NPROC /\ p_parent (t p) = Some cur) /\
      (forall p, p < NPROC -> p_parent (t p) = Some cur -> p_state (t p) <> ZOMBIE)
  | Some v => inv s' /\ c_proc (k_cpu s') = Some cur /\
      (v = (-1)%Z /\ k_proc s' = t /\
         (p_killed (t cur) = true \/ forall p, p < NPROC -> p_parent (t p) <> Some cur) \/
       exists p, p < NPROC /\ p_parent (t p) = Some cur /\ p_state (t p) = ZOMBIE /\
         v = p_pid (t p) /\ reaped (k_proc s' p) /\ forall q, q <> p -> k_proc s' q = t q)
  end.

Lemma wait_round_ok cur s :
  inside PtableLock (Some cur) s ->
  wpf F (wait_round stray cur) (fun r s' => waited cur (k_proc s) r s') s.
Proof.
  intros Hin. assert (forall p, p ∈ proc_ids <-> p < NPROC) as Hids.
  { intros p. unfold proc_ids. rewrite elem_of_seq. lia. }
  unfold wait_round. apply wpf_bind. eapply wpf_mono; [by apply wait_scan_ok; [|intros p; rewrite Hids]|].
  intros [hk|pid] s1.
  2: { intros (Hinv & Hcp & p & Hp & Hrest). eapply wpf_done; [reflexivity|]. split; [done|]. split; [done|].
       right. exists p. by rewrite <- Hids. }
  intros (-> & Hhk & Hnz). cbn [orb] in Hhk. wnext. destruct (negb hk || p_killed (k_proc s cur)) eqn:Hc.
  - destruct (inside_release _ _ _ Hin) as (Hr & Hinv & Hcp). wrun Hr. eapply wpf_done; [reflexivity|].
    split; [done|]. split; [done|]. left. split; [done|]. split; [done|].
    destruct (p_killed (k_proc s cur)); [by left|right]. rewrite orb_false_r in Hc.
    intros p Hp Hpar. apply negb_true_iff in Hc. rewrite Hc in Hhk. symmetry in Hhk.
    assert (existsb (is_child (k_proc s) cur) proc_ids = true); [|congruence].
    apply existsb_exists. exists p. split; [by apply list_elem_of_In, Hids|]. by apply bool_decide_eq_true.
  - apply orb_false_iff in Hc as [Hhk' Hkl]. apply negb_false_iff in Hhk'. subst hk.
    apply existsb_exists in Hhk' as (p & Hp & Hpar). apply list_elem_of_In, Hids in Hp.
    apply bool_decide_eq_true in Hpar. destruct Hin as (Hl & Hq & Hb & Hcp).
    apply wpf_bind. eapply wpf_mono; [by apply wpf_wp, (sleep_enter_mid stray Hstray s cur (ProcChan cur))|].
    intros _ s' (Hmid & Hcp' & _ & Hst & Hch & _). eapply wpf_done; [reflexivity|].
    split_and!; try done; [by exists p|]. intros q Hqn. apply Hnz. by apply Hids.
Qed.

Lemma wait_enter_ok cur s :
  inv s -> c_proc (k_cpu s) = Some cur ->
  wpf F (wait_enter stray) (fun r s' => waited cur (k_proc s) r s') s.
Proof.
  intros Hinv Hcp. unfold wait_enter. wrun (curproc_unlocked s cur (inv_unlocked s Hinv) Hcp).
  assert (inv (my_read s)) as Hinv1 by (destruct Hinv as (? & ? & []); done).
  destruct (inside_acquire PtableLock _ _ Hinv1 Hcp) as (Ha & Hin). wrun Ha.
  apply (wait_round_ok cur _ Hin).
Qed.

End Stray.
End Exit.
