(* ===== verification/Boot.v ===== *)
(** * From boot to the first process

    The globals of proc.c, trap.c and spinlock.c as the loader leaves them,
    pinit and userinit: they establish the invariant of the process table. *)

From S2P Require Import Prelude Mem KState Spinlock SkipList SkipListInv SkipListInsert.
From S2P Require Import SkipListDelete Mem KEnv Proc ProcQueue ProcInv ProcSwitch.
From S2P Require Import ProcLife.

Local Open Scope c_scope.

Definition zero_frame : trapframe := mkTrapframe 0 0 0 0 0 0 0 0 0 0 0 0 0 0 0 0 0 0 0.

(** A [struct proc] of zero bytes. *)
Definition zero_proc : proc :=
  mkProc 0 0 0 UNUSED 0 None zero_frame CtxNone NoChan false (fun _ => None) None
    (replicate 16 0%Z) 0 0 0 0.

Definition zero_node : node := mkNode None NNull NNull NNull.

(** The globals at the start of main: zero but for the initialised ones. *)
Definition boot {E} (e : E) : kst E :=
  mkKst (fun _ => zero_node) (fun _ => zero_proc) (fun _ => mkSpinlock false None)
    SEED 1 None 0 0 0 (mkCpu 0 0 false false None 0 0) true [] e.

Section Boot.
Context {E : Type} `{HE : KEnv E} {F : fault -> Prop} `{HK : !KEnvOk E F}.
Implicit Types s : kst E.

(** ** pinit *)

(** Row [l] of the node array after pinit has been over it. *)
Definition row_free (nd : nat * nat -> node) (l : nat) : Prop :=
  n_next (nd (l, 0)) = NNull /\ forall j, j <= NPROC -> n_proc (nd (l, j)) = None.

Definition level_only s s' : Prop := exists nd, s' = set_k_level nd s.

Lemma level_only_store s s1 nd : level_only s s1 -> level_only s (set_k_level nd s1).
Proof. intros [nd' ->]. by exists nd. Qed.

(** The inner loop: every [proc] of the row is cleared, and no pointer changes. *)
Lemma pinit_row s l :
  l < LEVELS ->
  wp (for_each (seq 0 (NPROC + 1)) (fun j => store (NAt l j) (set_n_proc None)))
    (fun _ s' => level_only s s' /\ (forall j, j <= NPROC -> n_proc (k_level s' (l, j)) = None) /\
       (forall k, n_next (k_level s' k) = n_next (k_level s k)) /\
       (forall l' j, l' <> l -> k_level s' (l', j) = k_level s (l', j))) s.
Proof.
  intros Hl. apply (wp_for_each (fun visited s1 => level_only s s1 /\
    (forall j, j ∈ visited -> n_proc (k_level s1 (l, j)) = None) /\
    (forall k, n_next (k_level s1 k) = n_next (k_level s k)) /\
    (forall l' j, l' <> l -> k_level s1 (l', j) = k_level s (l', j)))).
  - split_and!; [by exists (k_level s); destruct s|set_solver|done|done].
  - intros visited j todo s1 Hseq (Hlo & Hp & Hn & Ho).
    assert (j ∈ seq 0 (NPROC + 1)) as Hj by (rewrite Hseq; set_solver). apply elem_of_seq in Hj.
    eapply wp_intro; [apply store_at; [done|lia]|]. cbn -[insert].
    split_and!; [by apply level_only_store|..].
    + intros i Hi. destruct (decide (i = j)) as [->|]; fn_simp; [done|]. apply Hp. set_solver.
    + intros k. destruct (decide (k = (l, j))) as [->|]; fn_simp; [|done]. by rewrite <- Hn.
    + intros l' i Hl'. fn_simp. auto.
  - intros s' (Hlo & Hp & Hn & Ho). split_and!; try done. intros j Hj. apply Hp, elem_of_seq. lia.
Qed.

Lemma pinit_levels_ok s :
  wp pinit_levels (fun _ s' => level_only s s' /\ forall l, l < LEVELS -> row_free (k_level s') l) s.
Proof.
  unfold pinit_levels. apply (wp_for_each (fun visited s1 => level_only s s1 /\
    forall l, l ∈ visited -> row_free (k_level s1) l)).
  - split; [by exists (k_level s); destruct s|set_solver].
  - intros visited l todo s1 Hseq (Hlo & Hp).
    assert (l ∈ seq 0 LEVELS) as Hin by (rewrite Hseq; set_solver). apply elem_of_seq in Hin.
    assert (l ∉ visited) as Hnew.
    { pose proof (NoDup_seq 0 LEVELS) as Hnd. rewrite Hseq in Hnd. apply NoDup_app in Hnd. set_solver. }
    do 3 (apply wp_bind; eapply wp_intro; [apply store_at; lia|]). cbn -[insert].
    eapply wp_mono; [apply pinit_row; lia|]. intros _ s2 (Hlo2 & Hpr & Hnx & Hoth). split.
    + destruct Hlo2 as [nd ->]. destruct Hlo as [nd' ->]. by exists nd.
    + intros k Hk. destruct (decide (k = l)) as [->|].
      * split; [|done]. rewrite Hnx. cbn -[insert]. fn_simp. done.
      * destruct (Hp k ltac:(set_solver)) as [H1 H2]. split.
        { rewrite Hoth by done. cbn -[insert]. by fn_simp. }
        { intros j Hj. rewrite Hoth by done. cbn -[insert]. fn_simp. auto. }
  - intros s' [Hlo Hp]. split; [done|]. intros l Hl. apply Hp, elem_of_seq. lia.
Qed.

Lemma rows_free_skiplist s :
  (forall l, l < LEVELS -> row_free (k_level s) l) -> skiplist s (fun _ => []).
Proof.
  intros Hrow. split.
  - exists (fun _ _ => 0). constructor; try set_solver. intros l Hl. destruct (Hrow l Hl) as [Hn Hp].
    constructor; [constructor|set_solver|constructor|set_solver|set_solver| | |done].
    + intros i p Hi Hip. by rewrite Hp in Hip by lia.
    + apply Hp. lia.
  - set_solver.
Qed.

Lemma rows_free_empty s :
  (forall l, l < LEVELS -> row_free (k_level s) l) -> queue_of s [].
Proof. intros Hrow. exists (fun _ => []). split; [by apply rows_free_skiplist|done]. Qed.

(** Before userinit: an empty table, and no first process. *)
Definition empty_table s : Prop :=
  inv s /\ c_proc (k_cpu s) = None /\ k_initproc s = None /\ k_nextpid s = 1%Z /\
  forall p, p_state (k_proc s p) = UNUSED.

Lemma procs_ok_unused t :
  (forall p, p_state (t p) = UNUSED /\ p_parent (t p) = None) -> procs_ok None t.
Proof.
  intros Ht. constructor.
  - done.
  - intros p _. by rewrite (proj1 (Ht p)).
  - intros p _ Hl. by rewrite (proj1 (Ht p)) in Hl.
  - intros p _. unfold ctx_ok. by rewrite (proj1 (Ht p)).
  - intros p _ q Hq. by rewrite (proj2 (Ht p)) in Hq.
Qed.

Lemma pinit_ok e : ke_inv e -> wp pinit (fun _ s' => empty_table s' /\ k_env s' = e) (boot e).
Proof.
  intros He. apply wp_wpf. unfold pinit. wnext. match goal with |- wpf _ _ _ ?x => set (s0 := x) end.
  assert (unlocked s0) as Hu.
  { split; [done|]. intros lk. unfold s0. cbn -[insert].
    destruct (decide (lk = PtableLock)) as [->|]; by fn_simp. }
  wrun (acquire_unlocked PtableLock s0 Hu). pose proof (acquired_locked PtableLock s0 Hu) as Hl.
  apply wpf_bind. eapply wpf_mono; [apply wpf_wp, pinit_levels_ok|].
  intros _ s2 [[nd ->] Hrows]. assert (locked (set_k_level nd (acquired PtableLock s0))) as Hl2 by exact Hl.
  eapply wpf_done; [by apply release_locked|].
  assert (c_proc (k_cpu (released PtableLock (set_k_level nd (acquired PtableLock s0)))) = None) as Hcp.
  { unfold released, acquired. cbn -[popped pushed insert]. by rewrite popped_proc, pushed_proc. }
  split; [|done]. split_and!; try done. split; [by apply released_unlocked|]. split.
  - exists []. split; [by apply rows_free_empty|]. intros p. split; [set_solver|]. by intros (_ & ? & _).
  - rewrite Hcp. constructor; [by apply procs_ok_unused|done|done].
Qed.

(** ** userinit *)

(** What userinit can stop with besides the faults of its callees: no memory
    for the first kernel stack (a null dereference) or for the page directory. *)
Definition userinit_faults (f : fault) : Prop :=
  F f \/ f = FUndef \/ f = FPanic "userinit: out of memory?".

Record first_process (p : nat) s : Prop := mkFirst {
  fp_range : p < NPROC;
  fp_init : k_initproc s = Some p;
  fp_state : p_state (k_proc s p) = RUNNABLE;
  fp_parent : p_parent (k_proc s p) = None;
  fp_pid : p_pid (k_proc s p) = 1%Z;
  fp_nice : p_nice (k_proc s p) = 0%Z;
  fp_tf : p_tf (k_proc s p) = init_frame;
  fp_only : forall q, q <> p -> p_state (k_proc s q) = UNUSED;
}.

(** The first process under construction: initproc already names it. *)
Definition first_slot (p : nat) (t : nat -> proc) s : Prop :=
  inv (set_k_initproc None s) /\ c_proc (k_cpu s) = None /\ k_initproc s = Some p /\ p < NPROC /\
  p_state (k_proc s p) = EMBRYO /\ p_parent (k_proc s p) = None /\
  (forall q, q <> p -> k_proc s q = t q).

Lemma first_slot_put p t s f :
  first_slot p t s -> (forall x, p_state (f x) = p_state x) -> (forall x, p_parent (f x) = p_parent x) ->
  first_slot p t (proc_set p f s).
Proof.
  intros (Hinv & Hcp & Hi & Hp & Hst & Hpar & Hoth) Hf Hfp. split_and!; try done.
  - apply (inv_slot (set_k_initproc None s) p); cbn -[insert]; try done; fn_simp; try by rewrite ?Hf, ?Hst.
    + intros q Hq. by fn_simp.
    + rewrite Hfp, Hpar. done.
  - table. by rewrite Hf.
  - table. by rewrite Hfp.
  - intros q Hq. table. auto.
Qed.

Lemma wpf_first {A} (m : M E A) (R : A -> Prop) (Q : A -> kst E -> Prop) p t s :
  first_slot p t s -> wpf F m (fun a e => R a /\ ke_inv e) (k_env s) ->
  (forall a e, R a -> first_slot p t (set_k_env e s) -> Q a (set_k_env e s)) ->
  wpf userinit_faults (lift m) Q s.
Proof.
  intros Hf Hm Hq. apply (wpf_weaken F); [by left|]. apply wpf_lift. eapply wpf_mono; [exact Hm|].
  intros a e [Ha He]. apply Hq; [done|]. destruct Hf as (Hinv & ?). split; [|done].
  by apply (inv_env e) in Hinv.
Qed.

Lemma userinit_ok s :
  empty_table s ->
  wpf userinit_faults userinit (fun _ s' => inv s' /\ c_proc (k_cpu s') = None /\
    exists p, first_process p s') s.
Proof.
  intros (Hinv & Hcp & Hini & Hnp1 & Hun). unfold userinit. apply wpf_bind. eapply wpf_mono.
  { eapply (wpf_weaken F); [by left|]. by apply allocproc_ok. }
  intros r s1 (Hi1 & Hcp1 & _ & Hini1 & Hal). wnext. destruct r as [p|]; [|by right; left].
  destruct Hal as (Hp & _ & Hoth & Hst & Hpid & _ & Hctx & Hks & Hpar & _).
  assert (first_slot p (k_proc s) (set_k_initproc (Some p) s1)) as Hf1.
  { split_and!; try done; [|by cbn; rewrite Hcp1]. rewrite Hini in Hini1. rewrite <- Hini1.
    by destruct s1. }
  change (k_proc s1) with (k_proc (set_k_initproc (Some p) s1)) in *.
  set (s2 := set_k_initproc (Some p) s1) in *. clearbody s2. clear Hi1 Hcp1 Hini1 s1.
  rewrite Hnp1 in Hpid.
  apply wpf_bind, (wpf_first _ (fun d => d = 0 \/ KERNBASE <= d)%Z _ p (k_proc s)); [done|..].
  { eapply wpf_mono; [apply ke_setupkvm_ok, Hf1|]. naive_solver. }
  intros d e Hd Hf2. wrun (put_proc_eq p _ _). destruct (Z.eqb_spec d 0) as [|Hd0]; [by right; right|].
  apply (first_slot_put p _ _ (set_p_pgdir d)) in Hf2; [|done..].
  apply wpf_bind, (wpf_first _ (fun _ => True) _ p (k_proc s)); [done|..].
  { eapply wpf_mono; [apply ke_inituvm_ok, Hf2|done]. }
  intros _ e2 _ Hf3. do 3 wrun (put_proc_eq p _ _). wnext. do 2 wrun (put_proc_eq p _ _).
  match goal with |- wpf _ _ _ ?x => set (s4 := x) end.
  assert (first_slot p (k_proc s) s4) as Hf4 by (repeat (apply first_slot_put; [|done|done]); exact Hf3).
  assert (p_kstack (k_proc s4 p) <> 0 /\ KERNBASE <= p_pgdir (k_proc s4 p) /\ p_pid (k_proc s4 p) = 1 /\
          p_nice (k_proc s4 p) = 0)%Z as (Hk4 & Hd4 & Hpid4 & Hni4).
  { unfold s4. table. split_and!; try done. destruct Hd; done. }
  assert (p_tf (k_proc s4 p) = init_frame /\ p_context (k_proc s4 p) = CtxForkret) as [Htf4 Hc4]
    by (unfold s4; by table).
  clearbody s4. apply wpf_bind, (wpf_first _ (fun _ => True) _ p (k_proc s)); [done|..].
  { eapply wpf_mono; [apply ke_namei_root_ok, Hf4|done]. }
  intros cwd e5 _ Hf5. wrun (put_proc_eq p _ _). apply (first_slot_put p _ _ (set_p_cwd cwd)) in Hf5; [|done..].
  match goal with |- wpf _ _ _ ?x => set (s6 := x) in * end.
  assert (k_proc s6 p = set_p_cwd cwd (k_proc s4 p)) as H6 by (unfold s6; by table).
  clearbody s6. destruct Hf5 as ((Hu & Hq & Hb) & Hcp6 & Hini6 & _ & Hst6 & Hpar6 & Hoth6).
  change (c_proc (k_cpu (set_k_initproc None s6))) with (c_proc (k_cpu s6)) in Hb. rewrite Hcp6 in Hb.
  eapply wpf_mono.
  { apply wpf_wp, (start_ok p None None); try done; by rewrite H6. }
  intros _ s7 (Hu7 & Hq7 & [Hok7 _ He7] & Hcp7 & Hini7 & Hoth7 & lvl & Hl7).
  split; [split; [done|split; [done|]]|split; [done|]].
  - rewrite Hcp7. constructor; [done| |done]. intros i Hi. rewrite Hini7, Hini6 in Hi. injection Hi as <-.
    by rewrite Hl7.
  - exists p. constructor; rewrite ?Hl7, ?H6; try done; [congruence|by rewrite H6 in Hpar6|].
    intros q Hqp. by rewrite Hoth7, Hoth6.
Qed.

End Boot.
