(* ===== verification/Trap.v ===== *)
(** * trap.c

    The trap dispatcher, up to the point where it returns to the interrupted
    code or gives up the processor.  The handlers of the devices (ideintr,
    kbdintr, uartintr) and syscall are parameters. *)

From S2P Require Import Prelude Mem KState Spinlock SkipList KEnv Proc.

Local Open Scope c_scope.
Local Open Scope Z_scope.

(** ** traps.h *)

Definition T_SYSCALL : Z := 64.
Definition T_IRQ0 : Z := 32.
Definition IRQ_TIMER : Z := 0.
Definition IRQ_KBD : Z := 1.
Definition IRQ_COM1 : Z := 4.
Definition IRQ_IDE : Z := 14.
Definition IRQ_SPURIOUS : Z := 31.

(** How a kernel entry ends: back where it came from, or in the scheduler. *)
Inductive ending := Returns | Switches.

#[global] Instance ending_eq_dec : EqDecision ending.
Proof. solve_decision. Defined.

Section Trap.
Context {E : Type} `{KEnv E}.
Context (stray : kst E -> nptr -> option nat).
Context (ideintr kbdintr uartintr : M (kst E) unit).
Context (syscall : M (kst E) ending).

(** [cpuid()] *)
Definition cpuid : M (kst E) nat := c <- mycpu ;; ret (c_id c).

(** [case T_IRQ0 + IRQ_TIMER] *)
Definition timer : M (kst E) unit :=
  id <- cpuid ;;
  when (bool_decide (id = 0%nat))
    (acquire TicksLock ;;
     modify (fun s => set_k_ticks (u32 (k_ticks s + 1)) s) ;;
     wakeup TicksChan ;;
     release TicksLock).

(** [myproc() && myproc()->killed && (tf->cs&3) == DPL_USER] *)
Definition killed_in_user (tf : trapframe) : M (kst E) bool :=
  r <- myproc ;;
  match r with
  | None => ret false
  | Some p => pr <- get_proc p ;; ret (p_killed pr && (Z.land (tf_cs tf) 3 =? DPL_USER))
  end.

(** The switch over the trap number. *)
Definition trap_handle (tf : trapframe) : M (kst E) unit :=
  let no := tf_trapno tf in
  if no =? T_IRQ0 + IRQ_TIMER then timer
  else if no =? T_IRQ0 + IRQ_IDE then ideintr
  else if no =? T_IRQ0 + IRQ_IDE + 1 then ret tt
  else if no =? T_IRQ0 + IRQ_KBD then kbdintr
  else if no =? T_IRQ0 + IRQ_COM1 then uartintr
  else if (no =? T_IRQ0 + 7) || (no =? T_IRQ0 + IRQ_SPURIOUS) then
    cpuid ;; print (MsgText "spurious interrupt")
  else
    r <- myproc ;;
    match r with
    | None => cpuid ;; print (MsgText "unexpected trap") ;; panic "trap"
    | Some p =>
        if Z.land (tf_cs tf) 3 =? 0 then cpuid ;; print (MsgText "unexpected trap") ;; panic "trap"
        else
          cpuid ;; print (MsgText "trap: kill proc") ;;
          put_proc p (set_p_killed true)
    end.

(** The end of trap, also run when a yield inside trap comes back. *)
Definition trap_end (tf : trapframe) : M (kst E) ending :=
  k <- killed_in_user tf ;;
  if k : bool then exit_enter stray ;; ret Switches else ret Returns.

(** [if(--myproc()->ticks_left == 0) yield();] *)
Definition clock_tick (tf : trapframe) : M (kst E) ending :=
  r <- myproc ;;
  match r with
  | None => ret Returns
  | Some p =>
      pr <- get_proc p ;;
      if bool_decide (p_state pr = RUNNING) && (tf_trapno tf =? T_IRQ0 + IRQ_TIMER) then
        put_proc p (fun q => set_p_ticks_left (i32 (p_ticks_left q - 1)) q) ;;
        pr' <- get_proc p ;;
        if p_ticks_left pr' =? 0 then yield_enter stray ;; ret Switches
        else ret Returns
      else ret Returns
  end.

Definition trap_interrupt (tf : trapframe) : M (kst E) ending :=
  trap_handle tf ;;
  k <- killed_in_user tf ;;
  if k : bool then exit_enter stray ;; ret Switches
  else
    e <- clock_tick tf ;;
    match e with
    | Switches => ret Switches
    | Returns => trap_end tf
    end.

(** [trapno == T_SYSCALL]; the part after syscall() is [syscall_end]. *)
Definition syscall_end : M (kst E) ending :=
  p <- curproc ;;
  pr <- get_proc p ;;
  if p_killed pr then exit_enter stray ;; ret Switches else ret Returns.

Definition trap_syscall (tf : trapframe) : M (kst E) ending :=
  p <- curproc ;;
  pr <- get_proc p ;;
  if p_killed pr then exit_enter stray ;; ret Switches
  else
    p' <- curproc ;;
    put_proc p' (set_p_tf tf) ;;
    e <- syscall ;;
    match e with
    | Switches => ret Switches
    | Returns => syscall_end
    end.

Definition trap (tf : trapframe) : M (kst E) ending :=
  if tf_trapno tf =? T_SYSCALL then trap_syscall tf else trap_interrupt tf.

End Trap.
