(* ===== verification/X86.v ===== *)
(** * Segments, gates, trap entry and context switch

    The descriptors of mmu.h with the tables that seginit (vm.c) and tvinit
    (trap.c) fill, and the assembly that runs under the C code: the vectors that
    vectors.pl generates, trapasm.S and swtch.S, as lists of instructions of a
    machine with registers and a memory of words.  All accesses of this code
    are to aligned words.

    The descriptors mean to the processor what they should; the code between an
    interrupt and trap() builds a struct trapframe, from which trapret resumes;
    swtch saves and restores a struct context. *)

From S2P Require Import Prelude KState Mem KEnv Proc Trap.

Local Open Scope Z_scope.

(** ** mmu.h: segment descriptors *)

Definition NSEGS : Z := 6.
Definition STA_X : Z := 8.
Definition STA_W : Z := 2.
Definition STA_R : Z := 2.
Definition STS_T32A : Z := 9.
Definition STS_IG32 : Z := 14.
Definition STS_TG32 : Z := 15.

Record segdesc := mkSegdesc {
  sg_lim_15_0 : Z;
  sg_base_15_0 : Z;
  sg_base_23_16 : Z;
  sg_type : Z;
  sg_s : Z;
  sg_dpl : Z;
  sg_p : Z;
  sg_lim_19_16 : Z;
  sg_avl : Z;
  sg_rsv1 : Z;
  sg_db : Z;
  sg_g : Z;
  sg_base_31_24 : Z;
}.

(** A value stored in a bit field of [n] bits *)
Definition field (n v : Z) : Z := Z.land v (Z.ones n).

Definition SEG (type base lim dpl : Z) : segdesc :=
  mkSegdesc (field 16 (Z.land (Z.shiftr lim 12) 65535)) (field 16 (Z.land base 65535))
    (field 8 (Z.land (Z.shiftr base 16) 255)) (field 4 type) (field 1 1) (field 2 dpl) (field 1 1)
    (field 4 (Z.shiftr lim 28)) (field 1 0) (field 1 0) (field 1 1) (field 1 1) (field 8 (Z.shiftr base 24)).

Definition SEG16 (type base lim dpl : Z) : segdesc :=
  mkSegdesc (field 16 (Z.land lim 65535)) (field 16 (Z.land base 65535))
    (field 8 (Z.land (Z.shiftr base 16) 255)) (field 4 type) (field 1 1) (field 2 dpl) (field 1 1)
    (field 4 (Z.shiftr lim 16)) (field 1 0) (field 1 0) (field 1 1) (field 1 0) (field 8 (Z.shiftr base 24)).

(** The eight bytes of a descriptor, fields in their order *)
Definition seg_bits (d : segdesc) : Z :=
  sg_lim_15_0 d + Z.shiftl (sg_base_15_0 d) 16 + Z.shiftl (sg_base_23_16 d) 32 + Z.shiftl (sg_type d) 40 +
  Z.shiftl (sg_s d) 44 + Z.shiftl (sg_dpl d) 45 + Z.shiftl (sg_p d) 47 + Z.shiftl (sg_lim_19_16 d) 48 +
  Z.shiftl (sg_avl d) 52 + Z.shiftl (sg_rsv1 d) 53 + Z.shiftl (sg_db d) 54 + Z.shiftl (sg_g d) 55 +
  Z.shiftl (sg_base_31_24 d) 56.

(** The bits of a descriptor from [k] on, [n] of them *)
Definition bits (w k n : Z) : Z := Z.land (Z.shiftr w k) (Z.ones n).

(** What the processor reads from a segment descriptor: base and last offset *)
Definition hw_base (w : Z) : Z := bits w 16 16 + Z.shiftl (bits w 32 8) 16 + Z.shiftl (bits w 56 8) 24.
Definition hw_limit (w : Z) : Z :=
  let l := bits w 0 16 + Z.shiftl (bits w 48 4) 16 in
  if bits w 55 1 =? 1 then Z.shiftl l 12 + 4095 else l.
Definition hw_type (w : Z) : Z := bits w 40 4.
Definition hw_system (w : Z) : bool := bits w 44 1 =? 0.
Definition hw_dpl (w : Z) : Z := bits w 45 2.
Definition hw_present (w : Z) : bool := bits w 47 1 =? 1.

(** ** mmu.h: gates *)

Record gatedesc := mkGatedesc {
  gt_off_15_0 : Z;
  gt_cs : Z;
  gt_args : Z;
  gt_rsv1 : Z;
  gt_type : Z;
  gt_s : Z;
  gt_dpl : Z;
  gt_p : Z;
  gt_off_31_16 : Z;
}.

Definition SETGATE (istrap : bool) (sel off d : Z) : gatedesc :=
  mkGatedesc (field 16 (Z.land off 65535)) (field 16 sel) (field 5 0) (field 3 0)
    (field 4 (if istrap then STS_TG32 else STS_IG32)) (field 1 0) (field 2 d) (field 1 1) (field 16 (Z.shiftr off 16)).

Definition gate_bits (g : gatedesc) : Z :=
  gt_off_15_0 g + Z.shiftl (gt_cs g) 16 + Z.shiftl (gt_args g) 32 + Z.shiftl (gt_rsv1 g) 37 + Z.shiftl (gt_type g) 40 +
  Z.shiftl (gt_s g) 44 + Z.shiftl (gt_dpl g) 45 + Z.shiftl (gt_p g) 47 + Z.shiftl (gt_off_31_16 g) 48.

(** What the processor reads from a gate *)
Definition hw_offset (w : Z) : Z := bits w 0 16 + Z.shiftl (bits w 48 16) 16.
Definition hw_selector (w : Z) : Z := bits w 16 16.

(** int n by a program with privilege level [cpl] passes the gate. *)
Definition hw_int_allowed (cpl w : Z) : bool := hw_present w && (cpl <=? hw_dpl w).
(** An interrupt gate turns interrupts off. *)
Definition hw_masks_interrupts (w : Z) : bool := hw_type w =? STS_IG32.

(** ** vm.c, trap.c: the tables of a processor, and what lgdt and lidt load *)

Record tables := mkTables {
  gdt : Z -> segdesc;
  idt : Z -> gatedesc;
  gdtr : Z * Z;              (* size - 1, address *)
  idtr : Z * Z;
}.

Definition set_gdt (k : Z) (d : segdesc) (t : tables) : tables := mkTables (<[k := d]> (gdt t)) (idt t) (gdtr t) (idtr t).
Definition set_idt (k : Z) (g : gatedesc) (t : tables) : tables := mkTables (gdt t) (<[k := g]> (idt t)) (gdtr t) (idtr t).

Definition lgdt (p size : Z) (t : tables) : tables := mkTables (gdt t) (idt t) (size - 1, p) (idtr t).
Definition lidt (p size : Z) (t : tables) : tables := mkTables (gdt t) (idt t) (gdtr t) (size - 1, p).

(** [p]: the address of the table in struct cpu *)
Definition seginit (p : Z) (t : tables) : tables :=
  let t := set_gdt SEG_KCODE (SEG (Z.lor STA_X STA_R) 0 4294967295 0) t in
  let t := set_gdt SEG_KDATA (SEG STA_W 0 4294967295 0) t in
  let t := set_gdt SEG_UCODE (SEG (Z.lor STA_X STA_R) 0 4294967295 DPL_USER) t in
  let t := set_gdt SEG_UDATA (SEG STA_W 0 4294967295 DPL_USER) t in
  lgdt p (NSEGS * 8) t.

(** The task state segment in switchuvm: [ts] is &mycpu()->ts, of 104 bytes *)
Definition clear_s (d : segdesc) : segdesc :=
  mkSegdesc (sg_lim_15_0 d) (sg_base_15_0 d) (sg_base_23_16 d) (sg_type d) 0 (sg_dpl d) (sg_p d) (sg_lim_19_16 d)
    (sg_avl d) (sg_rsv1 d) (sg_db d) (sg_g d) (sg_base_31_24 d).
Definition set_tss (ts : Z) (t : tables) : tables := set_gdt SEG_TSS (clear_s (SEG16 STS_T32A ts (104 - 1) 0)) t.

(** initlock(&tickslock) apart *)
Definition tvinit (vectors : Z -> Z) (t : tables) : tables :=
  let t := foldl (fun t i => set_idt i (SETGATE false (Z.shiftl SEG_KCODE 3) (vectors i) 0) t) t (seqZ 0 256) in
  set_idt T_SYSCALL (SETGATE true (Z.shiftl SEG_KCODE 3) (vectors T_SYSCALL) DPL_USER) t.

Definition idtinit (p : Z) (t : tables) : tables := lidt p (256 * 8) t.

(** ** The machine under the assembly *)

Inductive reg := EAX | ECX | EDX | EBX | ESP | EBP | ESI | EDI | DS | ES | FS | GS | CS | SS | EIP | EFLAGS.

#[global] Instance reg_eq_dec : EqDecision reg.
Proof. solve_decision. Defined.

Record mach := mkMach {
  m_reg : reg -> Z;
  m_word : Z -> Z;           (* the word at an address *)
}.

Definition set_reg (r : reg) (v : Z) (m : mach) : mach := mkMach (<[r := v]> (m_reg m)) (m_word m).
Definition set_word (a v : Z) (m : mach) : mach := mkMach (m_reg m) (<[a := v]> (m_word m)).

Inductive instr :=
| PUSH (r : reg)
| PUSHI (v : Z)
| POP (r : reg)
| PUSHAL
| POPAL
| MOVW (v : Z) (r : reg)             (* movw $v, the low half of r *)
| MOV (r r' : reg)                   (* movl or movw %r, %r' *)
| LOAD (off : Z) (b r : reg)         (* movl off(%b), %r *)
| STORE (r b : reg)                  (* movl %r, (%b) *)
| ADDL (v : Z) (r : reg)
| RET
| IRET.

Definition is_segment (r : reg) : bool := bool_decide (r ∈ [DS; ES; FS; GS; CS; SS]).

Definition push (v : Z) (m : mach) : mach :=
  let sp := u32 (m_reg m ESP - 4) in set_word sp v (set_reg ESP sp m).

(** A segment register takes the low half of the word. *)
Definition pop (r : reg) (m : mach) : mach :=
  let sp := m_reg m ESP in
  let v := m_word m sp in
  set_reg r (if is_segment r then u16 v else v) (set_reg ESP (u32 (sp + 4)) m).

Definition exec (c : instr) (m : mach) : mach :=
  match c with
  | PUSH r => push (m_reg m r) m
  | PUSHI v => push v m
  | POP r => pop r m
  | PUSHAL =>
      let sp := m_reg m ESP in
      foldl (fun m' v => push v m') m
        [m_reg m EAX; m_reg m ECX; m_reg m EDX; m_reg m EBX; sp; m_reg m EBP; m_reg m ESI; m_reg m EDI]
  | POPAL =>
      let m := pop EBP (pop ESI (pop EDI m)) in
      let m := set_reg ESP (u32 (m_reg m ESP + 4)) m in
      pop EAX (pop ECX (pop EDX (pop EBX m)))
  | MOVW v r => set_reg r (m_reg m r - u16 (m_reg m r) + v) m
  | MOV r r' => set_reg r' (if is_segment r' then u16 (m_reg m r) else m_reg m r) m
  | LOAD off b r => set_reg r (m_word m (u32 (m_reg m b + off))) m
  | STORE r b => set_word (m_reg m b) (m_reg m r) m
  | ADDL v r => set_reg r (u32 (m_reg m r + v)) m
  | RET => pop EIP m
  | IRET =>
      let m := pop EFLAGS (pop CS (pop EIP m)) in
      (* to user mode: also the stack *)
      if Z.land (m_reg m CS) 3 =? DPL_USER then
        let sp := m_reg m ESP in
        set_reg SS (u16 (m_word m (u32 (sp + 4)))) (set_reg ESP (m_word m sp) m)
      else m
  end.

Definition run (l : list instr) (m : mach) : mach := foldl (fun m c => exec c m) m l.

(** An interrupt or exception through the gate [w], with the error code [err]
    for the exceptions that have one; [esp0] and [ss0] of the task state are the
    kernel stack, to which the processor changes from the user's. *)
Definition interrupt (w esp0 ss0 : Z) (err : option Z) (m : mach) : mach :=
  let user := Z.land (m_reg m CS) 3 =? DPL_USER in
  let m1 := if user then push (m_reg m ESP) (push (m_reg m SS) (set_reg SS ss0 (set_reg ESP esp0 m))) else m in
  let m2 := push (m_reg m EIP) (push (m_reg m CS) (push (m_reg m EFLAGS) m1)) in
  let m3 := match err with Some e => push e m2 | None => m2 end in
  let eflags := m_reg m EFLAGS in
  set_reg EFLAGS (if hw_masks_interrupts w then Z.land eflags (Z.lnot FL_IF) else eflags)
    (set_reg EIP (hw_offset w) (set_reg CS (hw_selector w) m3)).

(** ** vectors.pl, trapasm.S, swtch.S *)

(** The exceptions for which the processor pushes an error code *)
Definition has_error_code (i : Z) : bool := (i =? 8) || ((10 <=? i) && (i <=? 14)) || (i =? 17).

(** vector$i, up to the jump to alltraps *)
Definition vector (i : Z) : list instr :=
  (if negb ((i =? 8) || ((10 <=? i) && (i <=? 14)) || (i =? 17)) then [PUSHI 0] else []) ++ [PUSHI i].

(** alltraps up to the call of trap, whose argument is on the stack *)
Definition alltraps : list instr :=
  [PUSH DS; PUSH ES; PUSH FS; PUSH GS; PUSHAL; MOVW (Z.shiftl SEG_KDATA 3) EAX; MOV EAX DS; MOV EAX ES; PUSH ESP].

Definition trapret : list instr := [POPAL; POP GS; POP FS; POP ES; POP DS; ADDL 8 ESP; IRET].

(** alltraps after trap has returned *)
Definition alltraps_end : list instr := ADDL 4 ESP :: trapret.

Definition swtch : list instr :=
  [LOAD 4 ESP EAX; LOAD 8 ESP EDX; PUSH EBP; PUSH EBX; PUSH ESI; PUSH EDI; STORE ESP EAX; MOV EDX ESP;
   POP EDI; POP ESI; POP EBX; POP EBP; RET].

(** ** The descriptors as the processor reads them *)

Lemma field_mod n v : 0 <= n -> field n v = v `mod` 2 ^ n.
Proof. intros Hn. unfold field. by rewrite Z.land_ones. Qed.

Lemma bits_div w k n : 0 <= k -> 0 <= n -> bits w k n = (w / 2 ^ k) `mod` 2 ^ n.
Proof. intros Hk Hn. unfold bits. by rewrite Z.land_ones, Z.shiftr_div_pow2. Qed.

Ltac pow2 := repeat match goal with |- context [2 ^ ?k] => let v := eval vm_compute in (2 ^ k) in change (2 ^ k) with v end.

(** Reads of a descriptor word, as divisions *)
Ltac hw_read :=
  unfold hw_base, hw_limit, hw_type, hw_system, hw_dpl, hw_present, hw_offset, hw_selector;
  rewrite ?bits_div, ?Z.shiftl_mul_pow2 by lia; pow2.

Lemma gate_word istrap lo hi d :
  0 <= lo < 65536 -> 0 <= hi < 65536 -> 0 <= d < 4 ->
  gate_bits (SETGATE istrap 8 (lo + 65536 * hi) d) =
    lo + 8 * 2 ^ 16 + (if istrap then STS_TG32 else STS_IG32) * 2 ^ 40 + d * 2 ^ 45 + 2 ^ 47 + hi * 2 ^ 48.
Proof.
  intros Hlo Hhi Hd. unfold gate_bits, SETGATE. cbn [gt_off_15_0 gt_cs gt_args gt_rsv1 gt_type gt_s gt_dpl gt_p gt_off_31_16].
  change 65535 with (Z.ones 16). rewrite !field_mod, !Z.land_ones, Z.shiftr_div_pow2, !Z.shiftl_mul_pow2 by lia. pow2.
  unfold STS_TG32, STS_IG32. destruct istrap; zlia.
Qed.

Lemma halves off : 0 <= off < 4294967296 -> exists lo hi, off = lo + 65536 * hi /\ 0 <= lo < 65536 /\ 0 <= hi < 65536.
Proof. intros Ho. exists (off `mod` 65536), (off / 65536). zlia. Qed.

(** A gate as SETGATE makes it *)
Lemma gate_read istrap off d :
  is_u32 off -> 0 <= d < 4 ->
  let w := gate_bits (SETGATE istrap 8 off d) in
  hw_offset w = off /\ hw_selector w = 8 /\ hw_present w = true /\ hw_dpl w = d /\ hw_type w = if istrap then STS_TG32 else STS_IG32.
Proof.
  intros Ho Hd. cbv zeta. unfold is_u32, u32_mod in Ho.
  destruct (halves off Ho) as (lo & hi & -> & Hlo & Hhi).
  rewrite gate_word by done. clear Ho. pow2. unfold STS_TG32, STS_IG32.
  destruct istrap; split_and!; hw_read; try apply Z.eqb_eq; zlia.
Qed.

Lemma tss_read ts :
  is_u32 ts -> let w := seg_bits (clear_s (SEG16 STS_T32A ts 103 0)) in
  hw_base w = ts /\ hw_limit w = 103 /\ hw_system w = true /\ hw_type w = STS_T32A /\ hw_present w = true.
Proof.
  intros Hts. cbv zeta. unfold is_u32, u32_mod in Hts.
  assert (exists a b c, ts = a + 65536 * b + 16777216 * c /\ 0 <= a < 65536 /\ 0 <= b < 256 /\ 0 <= c < 256) as (a & b & c & -> & Ha & Hb & Hc).
  { destruct (halves ts Hts) as (r & q & -> & Hr & Hq). exists r, (q `mod` 256), (q / 256). zlia. }
  assert (seg_bits (clear_s (SEG16 STS_T32A (a + 65536 * b + 16777216 * c) 103 0)) =
    103 + a * 2 ^ 16 + b * 2 ^ 32 + 9 * 2 ^ 40 + 2 ^ 47 + 2 ^ 54 + c * 2 ^ 56) as ->.
  { unfold seg_bits, SEG16, clear_s.
    cbn [sg_lim_15_0 sg_base_15_0 sg_base_23_16 sg_type sg_s sg_dpl sg_p sg_lim_19_16 sg_avl sg_rsv1 sg_db sg_g sg_base_31_24].
    change 65535 with (Z.ones 16). change 255 with (Z.ones 8). rewrite !field_mod, !Z.land_ones, !Z.shiftr_div_pow2, !Z.shiftl_mul_pow2 by lia. pow2.
    unfold STS_T32A. zlia. }
  clear Hts. pow2. unfold STS_T32A. split_and!; hw_read; [zlia| |apply Z.eqb_eq; zlia|zlia|apply Z.eqb_eq; zlia].
  case_match eqn:Hg; [apply Z.eqb_eq in Hg; zlia|zlia].
Qed.

(** Flat segments: the whole address space, with the given type and privilege *)
Definition flat (type dpl w : Z) : Prop :=
  hw_base w = 0 /\ hw_limit w = 4294967295 /\ hw_type w = type /\ hw_dpl w = dpl /\ hw_present w = true /\ hw_system w = false.

Lemma seginit_flat p t :
  flat 10 0 (seg_bits (gdt (seginit p t) SEG_KCODE)) /\ flat 2 0 (seg_bits (gdt (seginit p t) SEG_KDATA)) /\
  flat 10 3 (seg_bits (gdt (seginit p t) SEG_UCODE)) /\ flat 2 3 (seg_bits (gdt (seginit p t) SEG_UDATA)) /\ gdtr (seginit p t) = (47, p).
Proof. unfold flat. split_and!; vm_compute; reflexivity. Qed.

Lemma tvinit_loop_idt vectors n i : forall t,
  0 <= n -> idt (foldl (fun t i => set_idt i (SETGATE false 8 (vectors i) 0) t) t (seqZ 0 n)) i =
    if decide (0 <= i < n) then SETGATE false 8 (vectors i) 0 else idt t i.
Proof.
  intros t Hn. revert t. pattern n. apply natlike_ind; [|clear n Hn|done].
  - intros t. by rewrite decide_False by lia.
  - intros n Hn IH t. unfold Z.succ. rewrite seqZ_app, (seqZ_cons (0 + n)), (seqZ_nil (Z.succ (0 + n))), foldl_app by lia. cbn [foldl idt set_idt].
    rewrite Z.add_0_l. destruct (decide (i = n)) as [->|Hne].
    + rewrite fn_lookup_insert, decide_True by lia. done.
    + rewrite fn_lookup_insert_ne, IH by done. repeat case_decide; (done || lia).
Qed.

(** ** The stack *)

Definition words_at (w : Z -> Z) (a : Z) (l : list Z) : Prop := forall k v, l !! k = Some v -> w (a + 4 * Z.of_nat k) = v.

Definition stack (m : mach) (a : Z) (l : list Z) : Prop := m_reg m ESP = a /\ words_at (m_word m) a l.

(** All registers but the stack pointer *)
Definition same_regs (m m' : mach) : Prop := forall r, r <> ESP -> m_reg m' r = m_reg m r.

Lemma words_at_cons w a v l : words_at w a (v :: l) <-> w a = v /\ words_at w (a + 4) l.
Proof.
  split.
  - intros H. split; [pose proof (H 0%nat v eq_refl) as H0; by rewrite Z.add_0_r in H0|].
    intros k x Hk. replace (a + 4 + 4 * Z.of_nat k) with (a + 4 * Z.of_nat (S k)) by lia. by apply H.
  - intros [<- H] [|k] x Hk; [inversion Hk; f_equal; lia|]. replace (a + 4 * Z.of_nat (S k)) with (a + 4 + 4 * Z.of_nat k) by lia. by apply H.
Qed.

Lemma words_at_same w w' a l : (forall b, a <= b -> w' b = w b) -> words_at w a l -> words_at w' a l.
Proof. intros He H k v Hk. rewrite He by lia. by apply H. Qed.

Lemma push_ok v m a l :
  stack m a l -> 4 <= a < u32_mod ->
  stack (push v m) (a - 4) (v :: l) /\ same_regs m (push v m) /\ (forall b, b <> a - 4 -> m_word (push v m) b = m_word m b).
Proof.
  intros [Hsp Hw] Ha. unfold push. rewrite Hsp, u32_small by (unfold is_u32; lia). split_and!.
  - split; [cbn; by rewrite fn_lookup_insert|]. apply words_at_cons. cbn. rewrite fn_lookup_insert. split; [done|].
    replace (a - 4 + 4) with a by lia. eapply words_at_same; [|exact Hw]. intros b Hb. by rewrite fn_lookup_insert_ne by lia.
  - intros r Hr. cbn. by rewrite fn_lookup_insert_ne.
  - intros b Hb. cbn. by rewrite fn_lookup_insert_ne.
Qed.

Definition pushes (vs : list Z) (m : mach) : mach := foldl (fun m v => push v m) m vs.

Lemma pushes_ok vs : forall m a l,
  stack m a l -> 4 * Z.of_nat (length vs) <= a < u32_mod ->
  stack (pushes vs m) (a - 4 * Z.of_nat (length vs)) (rev vs ++ l) /\ same_regs m (pushes vs m) /\
  (forall b, b < a - 4 * Z.of_nat (length vs) \/ a <= b -> m_word (pushes vs m) b = m_word m b).
Proof.
  induction vs as [|v vs IH]; intros m a l Hs Ha; cbn [length] in *; [cbn; rewrite Z.sub_0_r; done|].
  destruct (push_ok v m a l Hs ltac:(lia)) as (Hs1 & Hr1 & Hw1).
  destruct (IH (push v m) (a - 4) (v :: l) Hs1 ltac:(lia)) as (Hs2 & Hr2 & Hw2). cbn [pushes foldl]. fold (pushes vs (push v m)). split_and!.
  - cbn [rev]. rewrite <- app_assoc. replace (a - 4 * Z.of_nat (S (length vs))) with (a - 4 - 4 * Z.of_nat (length vs)) by lia. done.
  - intros r Hr. by rewrite Hr2, Hr1.
  - intros b Hb. rewrite Hw2, Hw1 by lia. done.
Qed.

(** The value that a register takes *)
Definition taken (r : reg) (v : Z) : Z := if is_segment r then u16 v else v.

Lemma pop_ok r m a v l :
  stack m a (v :: l) -> 0 <= a -> a + 4 < u32_mod -> r <> ESP ->
  stack (pop r m) (a + 4) l /\ m_reg (pop r m) r = taken r v /\ (forall r', r' <> ESP -> r' <> r -> m_reg (pop r m) r' = m_reg m r') /\
  m_word (pop r m) = m_word m.
Proof.
  intros [Hsp [Hv Hw]%words_at_cons] Ha Ha' Hr. unfold pop. rewrite Hsp, Hv, u32_small by (unfold is_u32; lia). split_and!.
  - split; [cbn; by rewrite fn_lookup_insert_ne, fn_lookup_insert|done].
  - cbn. by rewrite fn_lookup_insert.
  - intros r' H1 H2. cbn. by rewrite !fn_lookup_insert_ne.
  - done.
Qed.

Definition pops (rs : list reg) (m : mach) : mach := foldl (fun m r => pop r m) m rs.

Lemma pops_ok rs : forall vs m a l,
  stack m a (vs ++ l) -> length vs = length rs -> 0 <= a -> a + 4 * Z.of_nat (length rs) < u32_mod -> NoDup rs -> ESP ∉ rs ->
  stack (pops rs m) (a + 4 * Z.of_nat (length rs)) l /\ m_word (pops rs m) = m_word m /\
  (forall r, r <> ESP -> r ∉ rs -> m_reg (pops rs m) r = m_reg m r) /\ (m_reg (pops rs m) <$> rs = zip_with taken rs vs).
Proof.
  induction rs as [|r rs IH]; intros vs m a l Hs Hl Ha Hw Hnd Hesp.
  - destruct vs; [|done]. cbn. rewrite Z.add_0_r. done.
  - destruct vs as [|v vs]; [done|]. cbn [app length] in *. apply NoDup_cons in Hnd as [Hr Hnd]. apply not_elem_of_cons in Hesp as [Hne Hesp].
    destruct (pop_ok r m a v (vs ++ l) Hs Ha ltac:(lia) ltac:(done)) as (Hs1 & Hv1 & Ho1 & Hw1).
    destruct (IH vs (pop r m) (a + 4) l Hs1 ltac:(lia) ltac:(lia) ltac:(lia) Hnd Hesp) as (Hs2 & Hw2 & Ho2 & Hv2).
    change (pops (r :: rs) m) with (pops rs (pop r m)). split_and!.
    + replace (a + 4 * Z.of_nat (S (length rs))) with (a + 4 + 4 * Z.of_nat (length rs)) by lia. done.
    + congruence.
    + intros r' H1 [H2 H3]%not_elem_of_cons. rewrite Ho2, Ho1 by done. done.
    + cbn [fmap list_fmap zip_with]. rewrite Ho2, Hv1 by done. f_equal. exact Hv2.
Qed.

Lemma skip_ok v m a l : stack m a (v :: l) -> 0 <= a -> a + 4 < u32_mod -> stack (set_reg ESP (u32 (m_reg m ESP + 4)) m) (a + 4) l.
Proof. intros [Hsp [_ Hw]%words_at_cons] Ha Hb. rewrite Hsp, u32_small by (unfold is_u32; lia). split; [cbn; by rewrite fn_lookup_insert|done]. Qed.

Lemma stack_set_reg r v m a l : r <> ESP -> stack m a l -> stack (set_reg r v m) a l.
Proof. intros Hr [Hsp Hw]. split; [cbn; by rewrite fn_lookup_insert_ne|done]. Qed.

(** ** Trap entry and return *)

(** The words of a struct trapframe *)
Definition tf_words (tf : trapframe) : list Z :=
  [tf_edi tf; tf_esi tf; tf_ebp tf; tf_oesp tf; tf_ebx tf; tf_edx tf; tf_ecx tf; tf_eax tf; tf_gs tf; tf_fs tf; tf_es tf; tf_ds tf;
   tf_trapno tf; tf_err tf; tf_eip tf; tf_cs tf; tf_eflags tf; tf_esp tf; tf_ss tf].

(** The frame of vector [i] for the registers of [m] *)
Definition frame_of (i err oesp : Z) (m : mach) : trapframe :=
  mkTrapframe (m_reg m EDI) (m_reg m ESI) (m_reg m EBP) oesp (m_reg m EBX) (m_reg m EDX) (m_reg m ECX) (m_reg m EAX)
    (m_reg m GS) (m_reg m FS) (m_reg m ES) (m_reg m DS) i err (m_reg m EIP) (m_reg m CS) (m_reg m EFLAGS) (m_reg m ESP) (m_reg m SS).

(** The registers that neither the processor nor the vector changes *)
Definition general : list reg := [EAX; ECX; EDX; EBX; EBP; ESI; EDI; DS; ES; FS; GS].

Definition keeps (m m' : mach) : Prop := forall r, r ∈ general -> m_reg m' r = m_reg m r.

Lemma general_not r : bool_decide (r ∈ general) = false -> r ∉ general.
Proof. apply bool_decide_eq_false. Qed.

Lemma general_in r : bool_decide (r ∈ general) = true -> r ∈ general.
Proof. apply bool_decide_eq_true. Qed.

Lemma same_keeps m m' : same_regs m m' -> keeps m m'.
Proof. intros H r Hr. apply H. intros ->. revert Hr. by apply general_not. Qed.

Lemma keeps_trans m m1 m2 : keeps m m1 -> keeps m1 m2 -> keeps m m2.
Proof. intros H1 H2 r Hr. rewrite H2, H1 by done. done. Qed.

Lemma keeps_set r v m m' : bool_decide (r ∈ general) = false -> keeps m m' -> keeps m (set_reg r v m').
Proof. intros Hr%general_not K r' Hr'. cbn. rewrite fn_lookup_insert_ne; [by apply K|]. intros ->. done. Qed.

(** The processor and the vector *)
Lemma vector_ok w esp0 ss0 i err m :
  Z.land (m_reg m CS) 3 = DPL_USER -> (err = None <-> has_error_code i = false) -> 28 <= esp0 < u32_mod ->
  let m' := run (vector i) (interrupt w esp0 ss0 err m) in
  stack m' (esp0 - 28) [i; default 0 err; m_reg m EIP; m_reg m CS; m_reg m EFLAGS; m_reg m ESP; m_reg m SS] /\ keeps m m' /\
  (forall b, esp0 <= b -> m_word m' b = m_word m b).
Proof.
  intros Hcs Herr Hsp. cbv zeta. unfold interrupt. rewrite Hcs. change (DPL_USER =? DPL_USER) with true. cbv iota.
  set (m0 := set_reg SS ss0 (set_reg ESP esp0 m)). assert (stack m0 esp0 []) as H0 by (split; [done|intros k v Hk; done]).
  assert (keeps m m0) as K0 by (by do 2 (apply keeps_set; [done|])).
  set (rest := [m_reg m EIP; m_reg m CS; m_reg m EFLAGS; m_reg m ESP; m_reg m SS]).
  set (m1 := push (m_reg m EIP) _). set (f := set_reg EFLAGS _).
  destruct (pushes_ok [m_reg m SS; m_reg m ESP; m_reg m EFLAGS; m_reg m CS; m_reg m EIP] m0 esp0 [] H0 ltac:(cbn [length]; lia)) as (H1 & R1 & W1).
  change (pushes _ m0) with m1 in H1, R1, W1. change (rev _ ++ []) with rest in H1. cbn [length] in *. change (4 * Z.of_nat 5) with 20 in *.
  assert (keeps m m1) as K1 by (eapply keeps_trans; [exact K0|by apply same_keeps]).
  assert (forall m2 a l, stack m2 a l -> stack (f (set_reg EIP (hw_offset w) (set_reg CS (hw_selector w) m2))) a l) as Hf.
  { intros m2 a l H. by do 3 (apply stack_set_reg; [done|]). }
  assert (forall m2, keeps m m2 -> keeps m (f (set_reg EIP (hw_offset w) (set_reg CS (hw_selector w) m2)))) as Kf.
  { intros m2 K. by do 3 (apply keeps_set; [done|]). }
  assert (forall m2, m_word (f (set_reg EIP (hw_offset w) (set_reg CS (hw_selector w) m2))) = m_word m2) as Wf by done.
  clearbody f m1. unfold vector. fold (has_error_code i). destruct err as [e|], (has_error_code i);
    try (by discriminate (proj2 Herr eq_refl)); try (by discriminate (proj1 Herr eq_refl)); cbn [negb app default run foldl exec]; unfold id.
  - destruct (push_ok e m1 _ _ H1 ltac:(lia)) as (H2 & R2 & W2).
    destruct (push_ok i _ _ _ (Hf _ _ _ H2) ltac:(lia)) as (H3 & R3 & W3). replace (esp0 - 20 - 4 - 4) with (esp0 - 28) in H3 by lia. split_and!; [exact H3| |].
    + eapply keeps_trans; [apply Kf; eapply keeps_trans; [exact K1|by apply same_keeps]|by apply same_keeps].
    + intros b Hb. rewrite W3, Wf, W2, W1 by lia. done.
  - destruct (push_ok 0 _ _ _ (Hf _ _ _ H1) ltac:(lia)) as (H2 & R2 & W2).
    destruct (push_ok i _ _ _ H2 ltac:(lia)) as (H3 & R3 & W3). replace (esp0 - 20 - 4 - 4) with (esp0 - 28) in H3 by lia. split_and!; [exact H3| |].
    + eapply keeps_trans; [apply Kf, K1|]. eapply keeps_trans; by apply same_keeps.
    + intros b Hb. rewrite W3, W2, Wf, W1 by lia. done.
Qed.

(** Steps of alltraps, for the registers of [m0] *)
Lemma push_reg r m0 m a l :
  bool_decide (r ∈ general) = true -> keeps m0 m -> stack m a l -> 4 <= a < u32_mod ->
  exists m', exec (PUSH r) m = m' /\ keeps m0 m' /\ stack m' (a - 4) (m_reg m0 r :: l) /\ (forall b, a <= b -> m_word m' b = m_word m b).
Proof.
  intros Hr%general_in K Hs Ha. destruct (push_ok (m_reg m r) m a l Hs Ha) as (H1 & R1 & W1).
  exists (push (m_reg m r) m). split_and!; [done|eapply keeps_trans; [exact K|by apply same_keeps]|by rewrite <- (K r Hr)|intros b Hb; apply W1; lia].
Qed.

Lemma pushal_ok m0 m a l :
  keeps m0 m -> stack m a l -> 32 <= a < u32_mod ->
  exists m', exec PUSHAL m = m' /\ keeps m0 m' /\
    stack m' (a - 32) ([m_reg m0 EDI; m_reg m0 ESI; m_reg m0 EBP; a; m_reg m0 EBX; m_reg m0 EDX; m_reg m0 ECX; m_reg m0 EAX] ++ l) /\
    (forall b, a <= b -> m_word m' b = m_word m b).
Proof.
  intros K Hs Ha. set (vs := [m_reg m EAX; m_reg m ECX; m_reg m EDX; m_reg m EBX; m_reg m ESP; m_reg m EBP; m_reg m ESI; m_reg m EDI]).
  destruct (pushes_ok vs m a l Hs ltac:(cbn [length vs]; lia)) as (H1 & R1 & W1). change (4 * Z.of_nat (length vs)) with 32 in *.
  assert (exec PUSHAL m = pushes vs m) as E by reflexivity. set (m' := pushes vs m) in *. clearbody m'.
  exists m'. split_and!; [done|eapply keeps_trans; [exact K|by apply same_keeps]| |intros b Hb; apply W1; lia].
  unfold vs in H1. cbn [rev app] in H1. rewrite (proj1 Hs), !K in H1 by (by apply general_in). exact H1.
Qed.

(** Data segments of the kernel, and the argument of trap *)
Lemma kernel_segments m a l :
  stack m a l -> 4 <= a < u32_mod ->
  exists m', run [MOVW (Z.shiftl SEG_KDATA 3) EAX; MOV EAX DS; MOV EAX ES; PUSH ESP] m = m' /\ stack m' (a - 4) (a :: l) /\
    m_reg m' DS = Z.shiftl SEG_KDATA 3 /\ m_reg m' ES = Z.shiftl SEG_KDATA 3 /\ (forall b, a <= b -> m_word m' b = m_word m b).
Proof.
  intros Hs Ha. cbn [run foldl]. set (v := u16 (m_reg m EAX - u16 (m_reg m EAX) + 16)). assert (v = 16) as Hv by (unfold v, u16; zlia).
  set (m3 := set_reg ES v (set_reg DS v (set_reg EAX (m_reg m EAX - u16 (m_reg m EAX) + 16) m))).
  assert (stack m3 a l) as H3 by (by do 3 (apply stack_set_reg; [done|])). destruct (push_ok a m3 a l H3 Ha) as (H4 & R4 & W4).
  exists (push a m3). split_and!; [|done|by rewrite R4|by rewrite R4|intros b Hb; by rewrite W4 by lia].
  transitivity (push (m_reg m3 ESP) m3); [reflexivity|]. by rewrite (proj1 H3).
Qed.

(** alltraps up to the call of trap(tf) *)
Lemma alltraps_ok m a l :
  stack m a l -> 52 <= a < u32_mod ->
  let m' := run alltraps m in
  stack m' (a - 52) ((a - 48) :: [m_reg m EDI; m_reg m ESI; m_reg m EBP; a - 16; m_reg m EBX; m_reg m EDX; m_reg m ECX; m_reg m EAX;
    m_reg m GS; m_reg m FS; m_reg m ES; m_reg m DS] ++ l) /\
  m_reg m' DS = Z.shiftl SEG_KDATA 3 /\ m_reg m' ES = Z.shiftl SEG_KDATA 3 /\ (forall b, a <= b -> m_word m' b = m_word m b).
Proof.
  intros H0 Ha. cbv zeta. unfold alltraps.
  destruct (push_reg DS m m a l eq_refl (fun _ _ => eq_refl) H0 ltac:(lia)) as (m1 & E1 & K1 & H1 & W1).
  destruct (push_reg ES m m1 _ _ eq_refl K1 H1 ltac:(lia)) as (m2 & E2 & K2 & H2 & W2).
  destruct (push_reg FS m m2 _ _ eq_refl K2 H2 ltac:(lia)) as (m3 & E3 & K3 & H3 & W3).
  destruct (push_reg GS m m3 _ _ eq_refl K3 H3 ltac:(lia)) as (m4 & E4 & K4 & H4 & W4).
  destruct (pushal_ok m m4 _ _ K4 H4 ltac:(lia)) as (m5 & E5 & K5 & H5 & W5).
  destruct (kernel_segments m5 _ _ H5 ltac:(lia)) as (m6 & E6 & H6 & D6 & S6 & W6).
  assert (run (PUSH DS :: PUSH ES :: PUSH FS :: PUSH GS :: PUSHAL :: [MOVW (Z.shiftl SEG_KDATA 3) EAX; MOV EAX DS; MOV EAX ES; PUSH ESP]) m = m6) as ->.
  { unfold run. cbn [foldl]. rewrite E1, E2, E3, E4, E5. exact E6. }
  replace (a - 4 - 4 - 4 - 4) with (a - 16) in * by lia. replace (a - 16 - 32 - 4) with (a - 52) in * by lia. replace (a - 16 - 32) with (a - 48) in * by lia.
  split_and!; [exact H6|done|done|]. intros b Hb. rewrite W6, W5, W4, W3, W2, W1 by lia. done.
Qed.

(** Pops into distinct registers, with the values spelled out *)
Lemma pops_list rs vs m a l :
  stack m a (vs ++ l) -> length vs = length rs -> 0 <= a -> a + 4 * Z.of_nat (length rs) < u32_mod ->
  bool_decide (NoDup rs /\ ESP ∉ rs) = true ->
  exists m', pops rs m = m' /\ stack m' (a + 4 * Z.of_nat (length rs)) l /\ m_word m' = m_word m /\
    (forall r, bool_decide (r ∉ ESP :: rs) = true -> m_reg m' r = m_reg m r) /\ m_reg m' <$> rs = zip_with taken rs vs.
Proof.
  intros Hs Hl Ha Hw [Hnd He]%bool_decide_eq_true. destruct (pops_ok rs vs m a l Hs Hl Ha Hw Hnd He) as (H1 & W1 & O1 & V1).
  exists (pops rs m). split_and!; try done. intros r Hr%bool_decide_eq_true. apply not_elem_of_cons in Hr as [H2 H3]. auto.
Qed.

Lemma popal_ok m a edi esi ebp oesp ebx edx ecx eax l :
  stack m a ([edi; esi; ebp; oesp; ebx; edx; ecx; eax] ++ l) -> 0 <= a -> a + 32 < u32_mod ->
  exists m', exec POPAL m = m' /\ stack m' (a + 32) l /\ m_word m' = m_word m /\
    m_reg m' <$> [EDI; ESI; EBP; EBX; EDX; ECX; EAX] = [edi; esi; ebp; ebx; edx; ecx; eax].
Proof.
  intros Hs Ha Hw.
  destruct (pops_list [EDI; ESI; EBP] [edi; esi; ebp] m a ([oesp; ebx; edx; ecx; eax] ++ l) Hs eq_refl Ha ltac:(cbn [length]; lia) eq_refl) as (m1 & E1 & H1 & W1 & O1 & V1).
  cbn [length] in H1. change (4 * Z.of_nat 3) with 12 in H1. pose proof (skip_ok oesp m1 _ _ H1 ltac:(lia) ltac:(lia)) as H2. set (m2 := set_reg ESP _ m1) in *.
  destruct (pops_list [EBX; EDX; ECX; EAX] [ebx; edx; ecx; eax] m2 _ l H2 eq_refl ltac:(lia) ltac:(cbn [length]; lia) eq_refl) as (m3 & E3 & H3 & W3 & O3 & V3).
  cbn [length] in H3. change (4 * Z.of_nat 4) with 16 in H3. exists m3. split_and!.
  - rewrite <- E3. unfold m2. rewrite <- E1. reflexivity.
  - by replace (a + 32) with (a + 12 + 4 + 16) by lia.
  - rewrite W3. exact W1.
  - change (zip_with _ _ _) with [edi; esi; ebp] in V1. change (zip_with _ _ _) with [ebx; edx; ecx; eax] in V3. cbn [fmap list_fmap] in *.
    rewrite !O3 by done. change (m_reg m2 EDI) with (m_reg m1 EDI). change (m_reg m2 ESI) with (m_reg m1 ESI). change (m_reg m2 EBP) with (m_reg m1 EBP).
    injection V1 as -> -> ->. by rewrite V3.
Qed.

(** The registers of a frame for user mode *)
Record resumed (tf : trapframe) (m : mach) : Prop := mkResumed {
  rs_general : m_reg m <$> [EDI; ESI; EBP; EBX; EDX; ECX; EAX] =
    [tf_edi tf; tf_esi tf; tf_ebp tf; tf_ebx tf; tf_edx tf; tf_ecx tf; tf_eax tf];
  rs_data : m_reg m <$> [GS; FS; ES; DS] = [u16 (tf_gs tf); u16 (tf_fs tf); u16 (tf_es tf); u16 (tf_ds tf)];
  rs_code : m_reg m <$> [EIP; CS; EFLAGS] = [tf_eip tf; u16 (tf_cs tf); tf_eflags tf];
  rs_stack : m_reg m <$> [ESP; SS] = [tf_esp tf; u16 (tf_ss tf)];
}.

Lemma trapret_ok tf m a l :
  stack m a (tf_words tf ++ l) -> 0 <= a -> a + 76 < u32_mod -> Z.land (u16 (tf_cs tf)) 3 = DPL_USER ->
  resumed tf (run trapret m) /\ m_word (run trapret m) = m_word m.
Proof.
  intros Hs Ha Hw Hcs. unfold tf_words in Hs.
  destruct (popal_ok m a _ _ _ _ _ _ _ _ _ Hs Ha ltac:(lia)) as (m1 & E1 & H1 & W1 & V1).
  destruct (pops_list [GS; FS; ES; DS] [tf_gs tf; tf_fs tf; tf_es tf; tf_ds tf] m1 _ _ H1 eq_refl ltac:(lia) ltac:(cbn [length]; lia) eq_refl) as (m2 & E2 & H2 & W2 & O2 & V2).
  cbn [length] in H2. change (4 * Z.of_nat 4) with 16 in H2.
  assert (stack (exec (ADDL 8 ESP) m2) (a + 32 + 16 + 8) ([tf_eip tf; tf_cs tf; tf_eflags tf] ++ [tf_esp tf; tf_ss tf] ++ l)) as H3.
  { destruct H2 as [Hsp Hw2]. apply words_at_cons in Hw2 as [_ Hw2]. apply words_at_cons in Hw2 as [_ Hw2]. split.
    - cbn. rewrite fn_lookup_insert, Hsp, u32_small by (unfold is_u32; lia). done.
    - replace (a + 32 + 16 + 8) with (a + 32 + 16 + 4 + 4) by lia. exact Hw2. }
  set (m3 := exec (ADDL 8 ESP) m2) in *.
  destruct (pops_list [EIP; CS; EFLAGS] [tf_eip tf; tf_cs tf; tf_eflags tf] m3 _ _ H3 eq_refl ltac:(lia) ltac:(cbn [length]; lia) eq_refl) as (m4 & E4 & H4 & W4 & O4 & V4).
  cbn [length] in H4. change (4 * Z.of_nat 3) with 12 in H4. destruct H4 as [Hsp4 Hw4].
  apply words_at_cons in Hw4 as [Hv1 [Hv2 _]%words_at_cons]. change (zip_with _ _ _) with [tf_eip tf; u16 (tf_cs tf); tf_eflags tf] in V4.
  set (m5 := set_reg SS (u16 (tf_ss tf)) (set_reg ESP (tf_esp tf) m4)).
  assert (run trapret m = m5) as ->.
  { change (run trapret m) with (exec IRET (exec (ADDL 8 ESP) (pops [GS; FS; ES; DS] (exec POPAL m)))). rewrite E1, E2. fold m3.
    change (exec IRET m3) with (if Z.land (m_reg (pops [EIP; CS; EFLAGS] m3) CS) 3 =? DPL_USER then
      set_reg SS (u16 (m_word (pops [EIP; CS; EFLAGS] m3) (u32 (m_reg (pops [EIP; CS; EFLAGS] m3) ESP + 4))))
        (set_reg ESP (m_word (pops [EIP; CS; EFLAGS] m3) (m_reg (pops [EIP; CS; EFLAGS] m3) ESP)) (pops [EIP; CS; EFLAGS] m3))
      else pops [EIP; CS; EFLAGS] m3).
    rewrite E4. cbn [fmap list_fmap] in V4. injection V4 as _ Hcs4 _. rewrite Hcs4, Hcs. change (DPL_USER =? DPL_USER) with true. cbv iota.
    rewrite Hsp4, u32_small by (unfold is_u32; lia). rewrite Hv1, Hv2. reflexivity. }
  change (zip_with _ _ _) with [u16 (tf_gs tf); u16 (tf_fs tf); u16 (tf_es tf); u16 (tf_ds tf)] in V2.
  assert (forall r, bool_decide (r ∈ [ESP; SS; EIP; CS; EFLAGS]) = false -> m_reg m5 r = m_reg m2 r) as Hlow.
  { intros r Hr%bool_decide_eq_false. cbn. rewrite !not_elem_of_cons in Hr. destruct Hr as (N1 & N2 & N3 & N4 & N5 & _).
    rewrite !fn_lookup_insert_ne, O4; [cbn; by rewrite fn_lookup_insert_ne|apply bool_decide_eq_true; rewrite !not_elem_of_cons; split_and!; (done || apply not_elem_of_nil)|done..]. }
  split; [|change (m_word m5) with (m_word m4); rewrite W4; change (m_word m3) with (m_word m2); congruence].
  split.
  - rewrite <- V1. cbn [fmap list_fmap]. rewrite !Hlow by done. rewrite !O2 by done. done.
  - rewrite <- V2. cbn [fmap list_fmap]. rewrite !Hlow by done. done.
  - rewrite <- V4. done.
  - done.
Qed.

(** ** The context switch *)

(** A call swtch(old, new): the stack pointer [sp] at entry, with the return
    address and the arguments; [c] is the context at [new]. *)
Record swtch_call (m : mach) (sp ret old new : Z) (c : list Z) : Prop := mkSwtchCall {
  sc_stack : stack m sp [ret; old; new];
  sc_range : 16 <= sp /\ sp + 12 < u32_mod;
  sc_new : words_at (m_word m) new c /\ 0 <= new /\ new + 20 < u32_mod;
  sc_apart : new + 20 <= sp - 16 \/ sp <= new;
  sc_old : (old < new \/ new + 20 <= old) /\ (old < sp - 16 \/ sp + 4 <= old);
}.

(** struct context, as swtch leaves it on the stack of the caller *)
Definition saved (m : mach) (ret : Z) : list Z := [m_reg m EDI; m_reg m ESI; m_reg m EBX; m_reg m EBP; ret].

Record switched (m m' : mach) (sp ret old new : Z) (c : list Z) : Prop := mkSwitched {
  sd_regs : m_reg m' <$> [EDI; ESI; EBX; EBP; EIP] = c;
  sd_esp : m_reg m' ESP = new + 20;
  sd_saved : words_at (m_word m') (sp - 16) (saved m ret);
  sd_old : m_word m' old = sp - 16;
  sd_rest : forall b, b <> old -> b < sp - 16 \/ sp <= b -> m_word m' b = m_word m b;
}.

Lemma words_at_range w w' a l : (forall b, a <= b < a + 4 * Z.of_nat (length l) -> w' b = w b) -> words_at w a l -> words_at w' a l.
Proof. intros He H k v Hk. rewrite He; [by apply H|]. apply lookup_lt_Some in Hk. lia. Qed.

Lemma swtch_ok m sp ret old new c :
  swtch_call m sp ret old new c -> length c = 5%nat -> switched m (run swtch m) sp ret old new c.
Proof.
  intros [Hs [Hsp Hsp'] (Hc & Hn & Hn') Hap [Ho1 Ho2]] Hlen. pose proof Hs as [Hesp Hw].
  apply words_at_cons in Hw as [Hret Hw]. apply words_at_cons in Hw as [Hold Hw]. apply words_at_cons in Hw as [Hnew _].
  set (m1 := set_reg EDX new (set_reg EAX old m)).
  assert (exec (LOAD 8 ESP EDX) (exec (LOAD 4 ESP EAX) m) = m1) as E1.
  { unfold m1. cbn [exec]. change (m_reg (set_reg EAX _ m) ESP) with (m_reg m ESP). change (m_word (set_reg EAX _ m)) with (m_word m).
    rewrite Hesp, !u32_small by (unfold is_u32; lia). replace (sp + 8) with (sp + 4 + 4) by lia. by rewrite Hold, Hnew. }
  assert (stack m1 sp [ret; old; new]) as H1 by (by do 2 (apply stack_set_reg; [done|])).
  destruct (pushes_ok [m_reg m EBP; m_reg m EBX; m_reg m ESI; m_reg m EDI] m1 sp _ H1 ltac:(cbn [length]; lia)) as (H2 & R2 & W2).
  assert (run [PUSH EBP; PUSH EBX; PUSH ESI; PUSH EDI] m1 = pushes [m_reg m EBP; m_reg m EBX; m_reg m ESI; m_reg m EDI] m1) as E2 by reflexivity.
  set (m2 := pushes _ m1) in *. cbn [length rev app] in *. change (4 * Z.of_nat 4) with 16 in *.
  set (m3 := set_reg ESP new (set_word old (sp - 16) m2)).
  assert (exec (MOV EDX ESP) (exec (STORE ESP EAX) m2) = m3) as E3.
  { unfold m3. cbn [exec]. rewrite (proj1 H2), (R2 EAX) by done. change (m_reg m1 EAX) with old. f_equal. }
  clearbody m2. assert (stack m3 new (c ++ [])) as H3.
  { split; [done|]. rewrite app_nil_r. eapply words_at_range; [|exact Hc]. rewrite Hlen. intros b Hb. cbn. rewrite fn_lookup_insert_ne by lia. apply W2. lia. }
  destruct (pops_list [EDI; ESI; EBX; EBP; EIP] c m3 new [] H3 Hlen Hn ltac:(cbn [length]; lia) eq_refl) as (m4 & E4 & H4 & W4 & O4 & V4).
  assert (run swtch m = m4) as ->.
  { transitivity (pops [EDI; ESI; EBX; EBP; EIP] (exec (MOV EDX ESP) (exec (STORE ESP EAX) (run [PUSH EBP; PUSH EBX; PUSH ESI; PUSH EDI]
      (exec (LOAD 8 ESP EDX) (exec (LOAD 4 ESP EAX) m)))))); [reflexivity|]. by rewrite E1, E2, E3, E4. }
  assert (forall b, m_word m4 b = if decide (b = old) then sp - 16 else m_word m2 b) as Hm4.
  { intros b. rewrite W4. unfold m3. cbn. case_decide; [subst; by rewrite fn_lookup_insert|by rewrite fn_lookup_insert_ne]. }
  split.
  - rewrite V4. destruct c as [|c1 [|c2 [|c3 [|c4 [|c5 [|]]]]]]; done.
  - rewrite (proj1 H4). done.
  - eapply words_at_range; [intros b Hb; rewrite Hm4, decide_False by (cbn [length saved] in Hb; lia); reflexivity|].
    destruct H2 as [_ H2]. intros k v Hk. apply H2. unfold saved in Hk. do 5 (destruct k as [|k]; [exact Hk|]). done.
  - by rewrite Hm4, decide_True.
  - intros b Hb Hb'. rewrite Hm4, decide_False, W2 by (done || lia). done.
Qed.

(** ** The theorems *)

Lemma run_cons c l m : run (c :: l) m = run l (exec c m).
Proof. reflexivity. Qed.

Lemma run_app l l' m : run (l ++ l') m = run l' (run l m).
Proof. apply foldl_app. Qed.

Lemma tvinit_idt vectors t i :
  0 <= i < 256 -> idt (tvinit vectors t) i = SETGATE (i =? T_SYSCALL) 8 (vectors i) (if i =? T_SYSCALL then DPL_USER else 0).
Proof.
  intros Hi. unfold tvinit. change (Z.shiftl SEG_KCODE 3) with 8. cbn [idt set_idt]. destruct (Z.eqb_spec i T_SYSCALL) as [->|Hne].
  - by rewrite fn_lookup_insert.
  - rewrite fn_lookup_insert_ne, tvinit_loop_idt, decide_True by (done || lia). done.
Qed.

Lemma tvinit_gdt vectors t : gdt (tvinit vectors t) = gdt t.
Proof.
  unfold tvinit. cbn [gdt set_idt]. generalize (seqZ 0 256) as l. intros l. revert t. induction l as [|k l IH]; intros t; cbn [foldl]; [done|]. by rewrite IH.
Qed.

(** C16: a user program gets into the kernel only where it should.  After
    seginit and tvinit the processor finds flat segments, the kernel's with
    privilege 0 and the user's with 3, and in the gate of every vector the
    address of its handler, in the kernel's code segment; an int instruction of
    a user program passes the gate of T_SYSCALL and no other, and this is the
    only gate that leaves interrupts on. *)
Theorem gates_protect_kernel vectors p t i :
  (forall k, is_u32 (vectors k)) -> 0 <= i < 256 ->
  let t' := tvinit vectors (seginit p t) in
  let w := gate_bits (idt t' i) in
  flat 10 0 (seg_bits (gdt t' SEG_KCODE)) /\ flat 2 0 (seg_bits (gdt t' SEG_KDATA)) /\
  flat 10 3 (seg_bits (gdt t' SEG_UCODE)) /\ flat 2 3 (seg_bits (gdt t' SEG_UDATA)) /\
  hw_offset w = vectors i /\ hw_selector w = Z.shiftl SEG_KCODE 3 /\ hw_present w = true /\
  hw_int_allowed 3 w = (i =? T_SYSCALL) /\ hw_masks_interrupts w = negb (i =? T_SYSCALL).
Proof.
  intros Hv Hi. cbv zeta. rewrite tvinit_gdt, tvinit_idt by done. destruct (seginit_flat p t) as (F1 & F2 & F3 & F4 & _).
  destruct (gate_read (i =? T_SYSCALL) (vectors i) (if i =? T_SYSCALL then DPL_USER else 0) (Hv i)) as (G1 & G2 & G3 & G4 & G5);
    [unfold DPL_USER; case_match; lia|].
  refine (conj F1 (conj F2 (conj F3 (conj F4 (conj G1 (conj G2 (conj G3 (conj _ _)))))))).
  - unfold hw_int_allowed. rewrite G3, G4. by destruct (i =? T_SYSCALL).
  - unfold hw_masks_interrupts. rewrite G5. by destruct (i =? T_SYSCALL).
Qed.

(** C18: an interrupt of a user program loses nothing.  The processor, the vector
    and alltraps leave on the kernel stack the argument of trap(), the address
    of a struct trapframe, and there the registers of the program, the number
    of the vector and the error code (0 where the processor has none), with the
    data segments of the kernel loaded.  When trap() returns, the program goes
    on with the registers of the frame; if trap() left the frame as it was, with
    exactly the registers it had. *)
Theorem trap_saves_and_resumes w esp0 ss0 i err m :
  Z.land (m_reg m CS) 3 = DPL_USER -> (err = None <-> has_error_code i = false) -> 80 <= esp0 < u32_mod ->
  (forall r, is_segment r = true -> 0 <= m_reg m r < 65536) ->
  let m1 := run (vector i ++ alltraps) (interrupt w esp0 ss0 err m) in
  let frame := frame_of i (default 0 err) (esp0 - 44) m in
  (stack m1 (esp0 - 80) ((esp0 - 76) :: tf_words frame) /\ m_reg m1 DS = Z.shiftl SEG_KDATA 3 /\ m_reg m1 ES = Z.shiftl SEG_KDATA 3) /\
  (forall m2 tf, stack m2 (esp0 - 80) ((esp0 - 76) :: tf_words tf) -> Z.land (u16 (tf_cs tf)) 3 = DPL_USER -> resumed tf (run alltraps_end m2)) /\
  (forall m2, stack m2 (esp0 - 80) ((esp0 - 76) :: tf_words frame) -> forall r, m_reg (run alltraps_end m2) r = m_reg m r).
Proof.
  intros Hcs Herr Hsp Hseg. cbv zeta.
  assert (forall m2 tf, stack m2 (esp0 - 80) ((esp0 - 76) :: tf_words tf) -> Z.land (u16 (tf_cs tf)) 3 = DPL_USER -> resumed tf (run alltraps_end m2)) as Hret.
  { intros m2 tf Hs Htf. pose proof (skip_ok _ _ _ _ Hs ltac:(lia) ltac:(lia)) as H1. unfold alltraps_end. rewrite run_cons. cbn [exec].
    apply (trapret_ok tf _ (esp0 - 80 + 4) []); [by rewrite app_nil_r|lia|lia|done]. }
  split; [|split; [exact Hret|]].
  - destruct (vector_ok w esp0 ss0 i err m Hcs Herr ltac:(lia)) as (H1 & K1 & _). rewrite run_app.
    set (m1 := run (vector i) _) in *. clearbody m1.
    destruct (alltraps_ok m1 _ _ H1 ltac:(lia)) as (H2 & D2 & E2 & _). split; [|exact (conj D2 E2)]. set (m3 := run alltraps m1) in *. clearbody m3.
    rewrite !K1 in H2 by (by apply general_in). replace (esp0 - 28 - 52) with (esp0 - 80) in H2 by lia.
    replace (esp0 - 28 - 48) with (esp0 - 76) in H2 by lia. replace (esp0 - 28 - 16) with (esp0 - 44) in H2 by lia. exact H2.
  - intros m2 Hs. assert (forall r, is_segment r = true -> u16 (m_reg m r) = m_reg m r) as Hu.
    { intros r Hr. apply Z.mod_small. by apply Hseg. }
    destruct (Hret m2 _ Hs) as [V1 V2 V3 V4]; [cbn [tf_cs frame_of]; by rewrite Hu|]. cbn [tf_gs tf_fs tf_es tf_ds tf_cs tf_ss frame_of] in *. rewrite !Hu in * by done.
    cbn [fmap list_fmap] in *. set (m3 := run alltraps_end m2) in *. clearbody m3. intros r. simplify_eq. by destruct r.
Qed.

(** C17: swtch returns.  Called with its arguments, it saves the callee-saved
    registers and the return address on the stack of the caller, stores the
    address of this context in *old, and goes on with the registers of the
    context at new.  When later, on whatever stack, swtch is called with that
    address as new and the context is untouched, it returns to the first
    caller with the registers that a call must preserve, and with the stack
    pointer after the return address. *)
Theorem swtch_returns m sp ret old new c m2 sp2 ret2 old2 :
  swtch_call m sp ret old new c -> length c = 5%nat ->
  let m1 := run swtch m in
  switched m m1 sp ret old new c /\
  (swtch_call m2 sp2 ret2 old2 (m_word m1 old) (saved m ret) ->
   let m3 := run swtch m2 in
   m_reg m3 EIP = ret /\ m_reg m3 ESP = sp + 4 /\ forall r, r ∈ [EBX; ESI; EDI; EBP] -> m_reg m3 r = m_reg m r).
Proof.
  intros Hc Hl. cbv zeta. pose proof (swtch_ok m sp ret old new c Hc Hl) as Hs. split; [done|]. rewrite (sd_old _ _ _ _ _ _ _ Hs). intros Hc2.
  destruct (swtch_ok m2 sp2 ret2 old2 _ _ Hc2 eq_refl) as [V1 V2 _ _ _]. set (m3 := run swtch m2) in *. clearbody m3. cbn [fmap list_fmap] in V1. unfold saved in V1.
  injection V1 as H1 H2 H3 H4 H5. split_and!; [done|lia|]. intros r Hr. rewrite !elem_of_cons in Hr. destruct Hr as [->|[->|[->|[->|Hr]]]]; try done.
  by apply not_elem_of_nil in Hr.
Qed.

(** ** Witnesses *)

Definition ex_tables : tables := mkTables (fun _ => SEG 0 0 0 0) (fun _ => SETGATE false 0 0 0) (0, 0) (0, 0).
Definition ex_vectors (i : Z) : Z := if decide (0 <= i < 256) then 2148532224 + 10 * i else 0.

Lemma gates_protect_kernel_witness :
  hw_int_allowed 3 (gate_bits (idt (tvinit ex_vectors (seginit 4096 ex_tables)) 64)) = true /\
  hw_int_allowed 3 (gate_bits (idt (tvinit ex_vectors (seginit 4096 ex_tables)) 32)) = false.
Proof.
  assert (forall k, is_u32 (ex_vectors k)) as Hv by (intros k; unfold ex_vectors, is_u32, u32_mod; case_decide; lia).
  destruct (gates_protect_kernel ex_vectors 4096 ex_tables 64 Hv ltac:(lia)) as (_ & _ & _ & _ & _ & _ & _ & H1 & _).
  destruct (gates_protect_kernel ex_vectors 4096 ex_tables 32 Hv ltac:(lia)) as (_ & _ & _ & _ & _ & _ & _ & H2 & _).
  exact (conj H1 H2).
Defined.

(** A user program that causes a page fault *)
Definition ex_user : mach := mkMach (fun r => if is_segment r then 27 else 1000) (fun _ => 0).

Lemma trap_saves_and_resumes_witness :
  stack (run (vector 14 ++ alltraps) (interrupt 0 4096 16 (Some 4) ex_user)) 4016 (4020 :: tf_words (frame_of 14 4 4052 ex_user)).
Proof.
  refine (proj1 (proj1 (trap_saves_and_resumes 0 4096 16 14 (Some 4) ex_user _ _ _ _))).
  - reflexivity.
  - split; discriminate.
  - unfold u32_mod. lia.
  - intros r Hr. cbn. rewrite Hr. lia.
Defined.

(** Two contexts that switch to each other *)
Definition ex_first : mach :=
  mkMach (fun r => if decide (r = ESP) then 1000 else 7)
    (fun a => default 0 (list_to_map (M := gmap Z Z) [(1000, 11); (1004, 2000); (1008, 3000); (3000, 1); (3004, 2); (3008, 3); (3012, 4); (3016, 5)] !! a)).
Definition ex_second : mach :=
  mkMach (fun r => if decide (r = ESP) then 5000 else 8)
    (fun a => default 0 (list_to_map (M := gmap Z Z) [(5000, 12); (5004, 2004); (5008, 984); (984, 7); (988, 7); (992, 7); (996, 7); (1000, 11)] !! a)).

Lemma ex_words w a l : forallb (fun k => bool_decide (Some (w (a + 4 * Z.of_nat k)) = l !! k)) (seq 0 (length l)) = true -> words_at w a l.
Proof.
  intros H k v Hk. rewrite forallb_forall in H. specialize (H k). rewrite in_seq in H. pose proof (lookup_lt_Some _ _ _ Hk).
  specialize (H ltac:(lia)). apply bool_decide_eq_true in H. rewrite Hk in H. by injection H.
Qed.

Lemma swtch_returns_witness :
  m_reg (run swtch ex_second) EIP = 11 /\ m_reg (run swtch ex_second) ESP = 1004 /\ m_reg (run swtch ex_second) EBX = 7.
Proof.
  assert (m_word (run swtch ex_first) 2000 = 984) as He by (vm_compute; reflexivity).
  assert (swtch_call ex_first 1000 11 2000 3000 [1; 2; 3; 4; 5]) as H1.
  { split; [split; [reflexivity|apply ex_words; reflexivity]|unfold u32_mod; lia|split; [apply ex_words; reflexivity|unfold u32_mod; lia]|lia|lia]. }
  destruct (swtch_returns ex_first 1000 11 2000 3000 [1; 2; 3; 4; 5] ex_second 5000 12 2004 H1 eq_refl) as [_ H2]. rewrite He in H2.
  destruct H2 as (H3 & H4 & H5).
  { split; [split; [reflexivity|apply ex_words; reflexivity]|unfold u32_mod; lia|split; [apply ex_words; reflexivity|unfold u32_mod; lia]|lia|lia]. }
  exact (conj H3 (conj H4 (H5 EBX (list_elem_of_here _ _)))).
Defined.
