(* ===== verification/TrapInv.v ===== *)
(** * Traps keep the invariant

    The timer interrupt advances the clock and wakes the sleepers on it, a
    process whose quantum is used up yields, and a killed process exits before
    it returns to user mode.  [trap_panic] are the two panics that a trap can
    reach, and when. *)

From S2P Require Import Prelude Mem KState Spinlock SkipList SkipListInv SkipListInsert.
From S2P Require Import SkipListDelete Mem KEnv Proc ProcQueue ProcInv ProcSwitch.
From S2P Require Import ProcLife ProcExit Trap.

Local Open Scope c_scope.

Section TrapInv.
Context {E : Type} `{HE : KEnv E} {F : fault -> Prop} `{HK : !KEnvOk E F}.
Implicit Types s : kst E.

(** wakeup by code that holds another lock. *)
Lemma wakeup_inside lk ch r s :
  inside lk r s -> lk <> PtableLock ->
  wp (wakeup ch) (fun _ s' => inside lk r s' /\ k_ticks s' = k_ticks s /\ k_initproc s' = k_initproc s /\
    forall p, p < NPROC -> wakes ch (k_proc s p) (k_proc s' p)) s.
Proof.
  intros (Hl & Hq & Hb & Hcp) Hne. pose proof (locked_cli _ _ Hl) as Hin.
  pose proof (in_cli_ok _ Hin) as Hc. destruct Hl as (Hn & Hif & Hh & Hfree).
  apply wp_wpf. unfold wakeup. eapply wpf_step; [by apply acquire_free; auto|]. apply wpf_bind.
  eapply wpf_mono; [by apply wpf_wp, (wakeup1_spec None ch (acquired PtableLock s))|].
  intros _ s2 (Hq2 & Hf & Hw). pose proof (acquired_in_cli PtableLock s Hc) as Hin1.
  pose proof (acquired_held PtableLock s) as Hh1.
  eapply wpf_done; [apply release_held|].
  { by rewrite (fr_cpu _ _ Hf). }
  { unfold held_here. by rewrite (fr_cpu _ _ Hf), (fr_locks _ _ Hf). }
  assert (k_cpu (released PtableLock s2) = k_cpu s) as Hcpu.
  { unfold released. cbn -[popped pushed insert]. rewrite (fr_cpu _ _ Hf).
    unfold acquired. cbn -[popped pushed insert]. by rewrite popped_pushed, Hn. }
  assert (forall lk', lk' <> PtableLock -> k_locks (released PtableLock s2) lk' = k_locks s lk') as Hlk.
  { intros lk' Hne'. by rewrite released_other, (fr_locks _ _ Hf), acquired_other. }
  split; [split; [|split; [exact Hq2|split]]|].
  - split; [by rewrite Hcpu|]. split; [by rewrite Hcpu|]. split.
    + unfold held_here. by rewrite Hcpu, Hlk.
    + intros lk' Hne'. destruct (decide (lk' = PtableLock)) as [->|]; [by rewrite released_lock|].
      rewrite Hlk by done. auto.
  - apply (base_ext _ s2); try done. eapply base_wakes; [|exact Hf|exact Hw]. by apply (base_ext _ s).
  - by rewrite Hcpu.
  - split; [exact (fr_ticks _ _ Hf)|]. split; [exact (fr_initproc _ _ Hf)|done].
Qed.

(** The clock interrupt; only processor 0 counts it. *)
Lemma timer_ok s :
  inv s -> c_if (k_cpu s) = false -> c_id (k_cpu s) = 0 ->
  wp timer (fun _ s' => inv s' /\ c_proc (k_cpu s') = c_proc (k_cpu s) /\
    k_ticks s' = u32 (k_ticks s + 1) /\ k_initproc s' = k_initproc s /\
    forall p, p < NPROC -> wakes TicksChan (k_proc s p) (k_proc s' p)) s.
Proof.
  intros Hinv Hif Hid. apply wp_wpf. unfold timer, cpuid. apply wpf_bind. wrun (mycpu_eq s Hif).
  eapply wpf_done; [reflexivity|]. rewrite bool_decide_true by done. cbn [when].
  destruct (inside_acquire TicksLock _ s Hinv eq_refl) as [Ha (Hl & Hq & Hb & Hcp)]. wrun Ha. wnext.
  match goal with |- wpf _ _ _ ?x => set (s1 := x) end.
  assert (inside TicksLock (c_proc (k_cpu s)) s1) as Hin1.
  { split; [exact Hl|]. split; [exact Hq|]. split; [by apply (base_ext _ (acquired TicksLock s))|exact Hcp]. }
  apply wpf_bind. eapply wpf_mono; [by apply wpf_wp, wakeup_inside|].
  intros _ s2 (Hin2 & Htk & Hini & Hw). destruct (inside_release _ _ _ Hin2) as (Hr & Hinv' & Hcp').
  eapply wpf_done; [exact Hr|]. split_and!; try done.
Qed.

(** ** The rest of trap *)

Lemma my_read_inv s : inv s -> inv (my_read s).
Proof. by intros (? & ? & []). Qed.

(** A process that runs has a current directory, and init exists: so it is from
    userinit on. *)
Definition settled s : Prop :=
  (forall p, c_proc (k_cpu s) = Some p -> p_cwd (k_proc s p) <> None) /\ exists i, k_initproc s = Some i.

(** How a kernel entry by the process (or idle loop) [r] ends. *)
Definition ended (r : option nat) (e : ending) s' : Prop :=
  match e with
  | Returns => inv s' /\ c_proc (k_cpu s') = r
  | Switches => mid s' /\ c_proc (k_cpu s') = r
  end.

Definition in_user (tf : trapframe) : bool := (Z.land (tf_cs tf) 3 =? DPL_USER)%Z.

Lemma killed_in_user_eq tf s :
  unlocked s ->
  killed_in_user tf s =
    Done (match c_proc (k_cpu s) with
          | None => false
          | Some p => p_killed (k_proc s p) && in_user tf
          end) (my_read s).
Proof.
  intros Hu. unfold killed_in_user. mstep (myproc_unlocked s Hu). by destruct (c_proc (k_cpu s)).
Qed.

Section Stray.
Context (stray : kst E -> nptr -> option nat).
Context (Hstray : forall p, p < NPROC -> stray_ok stray p).

Lemma exit_switches s p :
  inv s -> c_proc (k_cpu s) = Some p -> settled s -> k_initproc s <> Some p ->
  wpf F (exit_enter stray ;; ret Switches) (ended (Some p)) s.
Proof.
  intros Hinv Hcp [Hcwd (i & Hi)] Hne. specialize (Hcwd p Hcp).
  destruct (p_cwd (k_proc s p)) as [ip|] eqn:Hip; [|done]. apply wpf_bind.
  eapply wpf_mono; [eapply (exit_enter_ok stray Hstray p i ip); congruence|].
  intros _ s' (Hm & Hcp' & _). by eapply wpf_done.
Qed.

(** Is the process on the processor killed?  Is it init? *)
Definition cur_killed s : bool :=
  match c_proc (k_cpu s) with Some p => p_killed (k_proc s p) | None => false end.
Definition cur_init s : bool :=
  match c_proc (k_cpu s) with Some p => bool_decide (k_initproc s = Some p) | None => false end.

Lemma killed_in_user_cur tf s : unlocked s -> killed_in_user tf s = Done (cur_killed s && in_user tf) (my_read s).
Proof. intros Hu. rewrite killed_in_user_eq by done. unfold cur_killed. by destruct (c_proc (k_cpu s)). Qed.

Lemma trap_end_ok tf s r :
  inv s -> c_proc (k_cpu s) = r -> cur_killed s && in_user tf = false -> wpf F (trap_end stray tf) (ended r) s.
Proof.
  intros Hinv Hcp Hk. unfold trap_end. wrun (killed_in_user_cur tf s (inv_unlocked s Hinv)). rewrite Hk.
  eapply wpf_done; [reflexivity|]. split; [by apply my_read_inv|done].
Qed.

(** The clock tick of a running process: one less in its quantum, and yield at zero. *)
Lemma clock_tick_ok tf s r :
  inv s -> c_proc (k_cpu s) = r ->
  wp (clock_tick stray tf) (fun e s' => ended r e s' /\
    (e = Returns -> k_initproc s' = k_initproc s /\ forall p, p_killed (k_proc s' p) = p_killed (k_proc s p) /\
       p_cwd (k_proc s' p) = p_cwd (k_proc s p)) /\
    (e = Switches <-> exists p, r = Some p /\ tf_trapno tf = (T_IRQ0 + IRQ_TIMER)%Z /\
       i32 (p_ticks_left (k_proc s p) - 1) = 0%Z)) s.
Proof.
  intros Hinv Hcp. apply wp_wpf. unfold clock_tick. wrun (myproc_unlocked s (inv_unlocked s Hinv)).
  rewrite Hcp. pose proof (my_read_inv s Hinv) as Hinv1. destruct r as [p|].
  2: { eapply wpf_done; [reflexivity|]. split_and!; try done. split; [done|]. by intros (? & ? & _). }
  destruct (inv_running s p Hinv Hcp) as [Hp Hrun]. wnext. change (k_proc (my_read s)) with (k_proc s).
  rewrite bool_decide_true by done. cbn [andb].
  destruct (Z.eqb_spec (tf_trapno tf) (T_IRQ0 + IRQ_TIMER)) as [Hno|Hno].
  2: { eapply wpf_done; [reflexivity|]. split_and!; try done. split; [done|]. by intros (? & _ & ? & _). }
  wrun (put_proc_eq p _ (my_read s)). set (s1 := proc_set p _ (my_read s)).
  assert (inv s1) as Hi1 by (by apply inv_put). wnext.
  assert (p_ticks_left (k_proc s1 p) = i32 (p_ticks_left (k_proc s p) - 1)) as -> by (unfold s1; by table).
  destruct (Z.eqb_spec (i32 (p_ticks_left (k_proc s p) - 1)) 0) as [Hz|Hz].
  - apply wpf_bind. eapply wpf_mono; [by apply wpf_wp, (yield_enter_mid stray Hstray s1 p)|].
    intros _ s2 (Hm & Hcp2 & _). eapply wpf_done; [reflexivity|]. split_and!; try done.
    split; [|done]. intros _. by exists p.
  - eapply wpf_done; [reflexivity|]. split_and!; try done.
    + intros _. split; [done|]. intros q. unfold s1. table. destruct (decide (q = p)) as [->|]; by fn_simp.
    + split; [done|]. intros (? & [= <-] & _ & ?). done.
Qed.

(** A device handler, as trap.c uses it: it may wake processes, and leaves alone
    the one that it interrupts. *)
Definition handler_ok (m : M (kst E) unit) : Prop :=
  forall s, inv s -> c_if (k_cpu s) = false ->
    wpf F m (fun _ s' => inv s' /\ c_proc (k_cpu s') = c_proc (k_cpu s) /\ k_initproc s' = k_initproc s /\
      forall p, c_proc (k_cpu s) = Some p -> k_proc s' p = k_proc s p) s.

(** The handlers of the kernel are of this form: they work on the state of their
    device, and wake processes. *)
Lemma waking_handler (m : M E (list chan)) :
  (forall e, ke_inv e -> wpf F m (fun _ e' => ke_inv e') e) -> handler_ok (waking m).
Proof.
  intros Hm s Hinv _. unfold waking. apply wpf_bind, (wpf_env m (fun _ => True)); [done|..].
  { eapply wpf_mono; [apply Hm|done]. by destruct Hinv as (_ & _ & []). }
  intros l e _ Hinv'. eapply wpf_mono; [by apply wpf_wp, wakeups_ok|]. intros _ s' (? & ? & ? & _ & ?). done.
Qed.

Lemma timer_handler : handler_ok timer.
Proof.
  intros s Hinv Hif. destruct (decide (c_id (k_cpu s) = 0)) as [Hid|Hid].
  - eapply wpf_mono; [by apply wpf_wp, timer_ok|]. intros _ s' (Hinv' & Hcp & _ & Hini & Hw). split_and!; try done.
    intros p Hp. destruct (inv_running s p Hinv Hp) as [Hlt Hrun]. by apply (wakes_running TicksChan); [apply Hw|].
  - unfold timer, cpuid. apply wpf_bind. wrun (mycpu_eq s Hif). eapply wpf_done; [reflexivity|].
    rewrite bool_decide_false by done. by eapply wpf_done.
Qed.

(** The trap numbers that trap.c names. *)
Definition is_irq (no : Z) : bool :=
  bool_decide (no ∈ [T_IRQ0 + IRQ_TIMER; T_IRQ0 + IRQ_IDE; T_IRQ0 + IRQ_IDE + 1; T_IRQ0 + IRQ_KBD;
                     T_IRQ0 + IRQ_COM1; T_IRQ0 + 7; T_IRQ0 + IRQ_SPURIOUS]%Z).

(** Any other trap is a fault of user code, or one of the kernel. *)
Definition kernel_fault (tf : trapframe) s : bool :=
  negb (is_irq (tf_trapno tf)) &&
  match c_proc (k_cpu s) with None => true | Some _ => (Z.land (tf_cs tf) 3 =? 0)%Z end.

(** The panics of a trap: a fault of the kernel, and the end of init, because
    it was killed or has committed a fault. *)
Definition trap_panic (tf : trapframe) s : option string :=
  if kernel_fault tf s then Some "trap"
  else if cur_init s && in_user tf && (cur_killed s || negb (is_irq (tf_trapno tf))) then Some "init exiting"
  else None.

Context (ideintr kbdintr uartintr : M (kst E) unit).
Context (Hide : handler_ok ideintr) (Hkbd : handler_ok kbdintr) (Huart : handler_ok uartintr).

Lemma cpuid_eq s : c_if (k_cpu s) = false -> cpuid s = Done (c_id (k_cpu s)) s.
Proof. intros Hif. unfold cpuid. by mstep (mycpu_eq s Hif). Qed.

(** A trap number that trap.c does not name goes to the default of the switch. *)
Lemma trap_handle_default tf s :
  is_irq (tf_trapno tf) = false -> inv s -> c_if (k_cpu s) = false ->
  trap_handle ideintr kbdintr uartintr tf s =
    (match c_proc (k_cpu s) with
     | None => cpuid ;; print (MsgText "unexpected trap") ;; panic "trap"
     | Some p =>
         if (Z.land (tf_cs tf) 3 =? 0)%Z then cpuid ;; print (MsgText "unexpected trap") ;; panic "trap"
         else cpuid ;; print (MsgText "trap: kill proc") ;; put_proc p (set_p_killed true)
     end) (my_read s).
Proof.
  unfold is_irq. rewrite bool_decide_eq_false, !elem_of_cons, elem_of_nil. intros Hno Hinv Hif. unfold trap_handle.
  repeat (rewrite (proj2 (Z.eqb_neq _ _)) by tauto). cbn [orb].
  by rewrite (bind_done _ _ _ _ _ (myproc_unlocked s (inv_unlocked s Hinv))).
Qed.

Lemma trap_handle_irq tf : is_irq (tf_trapno tf) = true -> handler_ok (trap_handle ideintr kbdintr uartintr tf).
Proof.
  intros Hirq s Hinv Hif. unfold trap_handle.
  destruct (Z.eqb_spec (tf_trapno tf) (T_IRQ0 + IRQ_TIMER)); [by apply timer_handler|].
  destruct (Z.eqb_spec (tf_trapno tf) (T_IRQ0 + IRQ_IDE)); [by apply Hide|].
  destruct (Z.eqb_spec (tf_trapno tf) (T_IRQ0 + IRQ_IDE + 1)); [by eapply wpf_done|].
  destruct (Z.eqb_spec (tf_trapno tf) (T_IRQ0 + IRQ_KBD)); [by apply Hkbd|].
  destruct (Z.eqb_spec (tf_trapno tf) (T_IRQ0 + IRQ_COM1)); [by apply Huart|].
  destruct (Z.eqb_spec (tf_trapno tf) (T_IRQ0 + 7)), (Z.eqb_spec (tf_trapno tf) (T_IRQ0 + IRQ_SPURIOUS)); cbn [orb].
  1-3: wrun (cpuid_eq s Hif); eapply wpf_done; [reflexivity|]; split_and!; try done;
       destruct Hinv as (? & ? & []); done.
  exfalso. apply bool_decide_eq_true in Hirq. rewrite !elem_of_cons, elem_of_nil in Hirq. tauto.
Qed.

(** The process after trap_handle: killed if it has committed a fault *)
Definition after_handle (tf : trapframe) (x : proc) : proc :=
  if is_irq (tf_trapno tf) then x else set_p_killed true x.

Lemma trap_handle_ok tf s :
  inv s -> c_if (k_cpu s) = false -> kernel_fault tf s = false ->
  wpf F (trap_handle ideintr kbdintr uartintr tf) (fun _ s' => inv s' /\
    c_proc (k_cpu s') = c_proc (k_cpu s) /\ k_initproc s' = k_initproc s /\
    forall p, c_proc (k_cpu s) = Some p -> k_proc s' p = after_handle tf (k_proc s p)) s.
Proof.
  intros Hinv Hif Hk. unfold after_handle, kernel_fault in *. destruct (is_irq (tf_trapno tf)) eqn:Hirq.
  { by apply trap_handle_irq. }
  unfold wpf. rewrite trap_handle_default by done. cbn [negb andb] in Hk.
  destruct (c_proc (k_cpu s)) as [p|] eqn:Hcp; [|done]. rewrite Hk.
  change (wpf F (cpuid ;; print (MsgText "trap: kill proc") ;; put_proc p (set_p_killed true)) (fun _ s' => inv s' /\
    c_proc (k_cpu s') = Some p /\ k_initproc s' = k_initproc s /\
    forall q, Some p = Some q -> k_proc s' q = set_p_killed true (k_proc s q)) (my_read s)).
  wrun (cpuid_eq (my_read s) Hif). wnext. eapply wpf_done; [apply put_proc_eq|].
  match goal with |- context [proc_set p _ ?x] => assert (inv x) as Hinv1 by (destruct Hinv as (? & ? & []); done) end.
  split_and!; [by apply inv_put|done|done|]. intros q [= <-]. by table.
Qed.

Lemma trap_handle_panics tf s :
  inv s -> c_if (k_cpu s) = false -> kernel_fault tf s = true ->
  exists s', trap_handle ideintr kbdintr uartintr tf s = Panic "trap" s'.
Proof.
  intros Hinv Hif Hk. apply andb_true_iff in Hk as [Hirq%negb_true_iff Hk]. rewrite trap_handle_default by done.
  assert (exists s', (cpuid ;; print (MsgText "unexpected trap") ;; panic "trap" : M (kst E) unit) (my_read s) = Panic "trap" s') as Hp.
  { mstep (cpuid_eq (my_read s) Hif). by eexists. }
  destruct (c_proc (k_cpu s)); [by rewrite Hk|done].
Qed.

(** A computation that stops with the panic [msg], or a fault of the rest of the
    kernel before *)
Definition stops_with (msg : string) (f : fault) : Prop := F f \/ f = FPanic msg.
Definition stops {A} (msg : string) (m : M (kst E) A) s : Prop := wpf (stops_with msg) m (fun _ _ => False) s.

(** What trap does after the switch over the trap number *)
Lemma trap_rest_ok tf s :
  inv s -> settled s ->
  let m := k <- killed_in_user tf ;;
    if k : bool then exit_enter stray ;; ret Switches
    else e <- clock_tick stray tf ;; match e with Switches => ret Switches | Returns => trap_end stray tf end in
  if cur_init s && (cur_killed s && in_user tf) then stops "init exiting" m s else wpf F m (ended (c_proc (k_cpu s))) s.
Proof.
  intros Hinv Hset m. unfold m. pose proof (killed_in_user_cur tf s (inv_unlocked s Hinv)) as Hku.
  pose proof (my_read_inv s Hinv) as Hinv1. destruct (cur_killed s && in_user tf) eqn:Hk.
  - unfold cur_killed in Hk. destruct (c_proc (k_cpu s)) as [p|] eqn:Hcp; [|done]. unfold cur_init. rewrite Hcp, andb_true_r.
    case_bool_decide as Hi.
    + unfold stops. wrun Hku. destruct (exit_init_panics stray (my_read s) p Hinv1 Hcp Hi) as [s' Hp].
      unfold wpf, bind. rewrite Hp. by right.
    + wrun Hku. by apply (exit_switches (my_read s) p).
  - rewrite andb_false_r. wrun Hku. apply wpf_bind. eapply wpf_mono; [by apply wpf_wp, (clock_tick_ok tf (my_read s))|].
    intros [] s3 (Hend & Hsame & _); [|by eapply wpf_done]. destruct (Hsame eq_refl) as [_ Hkc]. destruct Hend as [Hinv3 Hcp3].
    apply trap_end_ok; [done|done|]. unfold cur_killed in *. rewrite Hcp3. change (c_proc (k_cpu (my_read s))) with (c_proc (k_cpu s)) in *.
    destruct (c_proc (k_cpu s)) as [p|]; [|done]. by rewrite (proj1 (Hkc p)).
Qed.

(** Every interrupt and every fault ends with the invariant, the interrupted
    code going on or the process having left the processor, or in the panic
    that [trap_panic] gives. *)
Lemma trap_interrupt_ok tf s :
  inv s -> c_if (k_cpu s) = false -> settled s ->
  match trap_panic tf s with
  | Some msg => stops msg (trap_interrupt stray ideintr kbdintr uartintr tf) s
  | None => wpf F (trap_interrupt stray ideintr kbdintr uartintr tf) (ended (c_proc (k_cpu s))) s
  end.
Proof.
  intros Hinv Hif Hset. unfold trap_panic. destruct (kernel_fault tf s) eqn:Hkf.
  { destruct (trap_handle_panics tf s Hinv Hif Hkf) as [s' Hp]. unfold stops, wpf, trap_interrupt, bind. rewrite Hp. by right. }
  pose proof (trap_handle_ok tf s Hinv Hif Hkf) as Hh. unfold trap_interrupt.
  assert (forall s1, c_proc (k_cpu s1) = c_proc (k_cpu s) -> k_initproc s1 = k_initproc s ->
    (forall p, c_proc (k_cpu s) = Some p -> k_proc s1 p = after_handle tf (k_proc s p)) ->
    settled s1 /\ cur_init s1 && (cur_killed s1 && in_user tf) = cur_init s && in_user tf && (cur_killed s || negb (is_irq (tf_trapno tf)))) as Hcur.
  { intros s1 Hcp Hini Hp. unfold cur_init, cur_killed, settled, after_handle in *. rewrite Hcp, Hini.
    destruct Hset as [Hcwd Hi]. destruct (c_proc (k_cpu s)) as [p|]; [|done]. rewrite (Hp p eq_refl). split; [split; [|done]|].
    - intros q [= <-]. rewrite (Hp p eq_refl). specialize (Hcwd p eq_refl). by destruct (is_irq _).
    - by destruct (is_irq _), (in_user tf), (p_killed (k_proc s p)), (bool_decide _). }
  destruct (cur_init s && in_user tf && _).
  - unfold stops. apply wpf_bind, (wpf_weaken F); [by left|]. eapply wpf_mono; [exact Hh|].
    intros _ s1 (Hinv1 & Hcp1 & Hini1 & Hp1). destruct (Hcur s1 Hcp1 Hini1 Hp1) as [Hset1 Hc].
    pose proof (trap_rest_ok tf s1 Hinv1 Hset1) as Hr. cbv zeta in Hr. rewrite Hc in Hr. exact Hr.
  - apply wpf_bind. eapply wpf_mono; [exact Hh|].
    intros _ s1 (Hinv1 & Hcp1 & Hini1 & Hp1). destruct (Hcur s1 Hcp1 Hini1 Hp1) as [Hset1 Hc].
    pose proof (trap_rest_ok tf s1 Hinv1 Hset1) as Hr. cbv zeta in Hr. rewrite Hc, Hcp1 in Hr. exact Hr.
Qed.
End Stray.
End TrapInv.
