(* ===== verification/System.v ===== *)
(** * The single-processor system

    What happens to the process table between two points where no lock is
    held, one [event] at a time: a turn of the scheduler, an interrupt, and the
    calls that a process makes into proc.c.  The events are composed from the
    functions of proc.c and trap.c as the code composes them; after a swtch to
    the scheduler the scheduler's own code ([scheduler_back]) follows. *)

From S2P Require Import Prelude Mem KState Spinlock SkipList SkipListInv SkipListInsert.
From S2P Require Import SkipListDelete Mem KEnv Proc ProcQueue ProcInv ProcSwitch.
From S2P Require Import ProcLife ProcExit Boot Trap TrapInv.

Local Open Scope c_scope.

Inductive event :=
| EvSchedule                          (* one turn of the scheduler loop *)
| EvTrap (tf : trapframe)             (* an interrupt or a fault *)
| EvYield                             (* sys_yield *)
| EvSleep (ch : chan) (lk : lockid)   (* acquire(lk); ...; sleep(chan, lk) *)
| EvWakeup (ch : chan)
| EvFork (nice : Z)
| EvExit
| EvWait
| EvKill (pid : Z).

Section System.
Context {E : Type} `{HE : KEnv E} {F : fault -> Prop} `{HK : !KEnvOk E F}.
Context (stray : kst E -> nptr -> option nat).
Context (ideintr kbdintr uartintr : M (kst E) unit).
Implicit Types s : kst E.

(** The process goes on where sched suspended it: in wait, whose loop starts
    over; after the sleep of another component, which releases its lock; or
    back in user mode. *)
Definition go_on (p : nat) (ctx : kctx) : M (kst E) unit :=
  match ctx with
  | CtxSched _ (FromSleep lk) =>
      if bool_decide (lk = PtableLock) then
        r <- wait_round stray p ;;
        match r with None => scheduler_back | Some _ => ret tt end
      else release lk
  | _ => ret tt
  end.

Definition schedule_turn : M (kst E) unit :=
  r <- scheduler_pick ;;
  match r with
  | None => ret tt
  | Some p =>
      ctx <- gets (fun s => p_context (k_proc s p)) ;;
      resume p ;;
      go_on p ctx
  end.

(** Through an interrupt gate the processor clears FL_IF; iret restores it. *)
Definition interrupt (tf : trapframe) : M (kst E) unit :=
  on <- interrupts_on ;;
  cli ;;
  e <- trap_interrupt stray ideintr kbdintr uartintr tf ;;
  match e with
  | Returns => set_cpu (set_c_if on)
  | Switches => scheduler_back
  end.

Definition exec (ev : event) : M (kst E) unit :=
  match ev with
  | EvSchedule => schedule_turn
  | EvTrap tf => interrupt tf
  | EvYield => yield_enter stray ;; scheduler_back
  | EvSleep ch lk => acquire lk ;; sleep_enter stray ch (Some lk) ;; scheduler_back
  | EvWakeup ch => wakeup ch
  | EvFork nice => nicefork nice ;; ret tt
  | EvExit => exit_enter stray ;; scheduler_back
  | EvWait =>
      r <- wait_enter stray ;;
      match r with None => scheduler_back | Some _ => ret tt end
  | EvKill pid => kill pid ;; ret tt
  end.

(** When an event can happen: the scheduler runs when no process does, and the
    calls are those of a process that runs.  Traps other than system calls come
    at any time from boot on; system calls are the other events.  sleep takes
    another lock than ptable.lock, which only wait sleeps on. *)
Definition enabled (ev : event) s : Prop :=
  match ev with
  | EvSchedule => c_proc (k_cpu s) = None
  | EvTrap tf => tf_trapno tf <> T_SYSCALL /\ settled s
  | EvYield | EvWait => exists p, c_proc (k_cpu s) = Some p
  | EvSleep ch lk => lk <> PtableLock /\ exists p, c_proc (k_cpu s) = Some p
  | EvFork _ | EvExit => (exists p, c_proc (k_cpu s) = Some p) /\ settled s
  | EvWakeup _ | EvKill _ => True
  end.

(** The events that stop the machine, and with which message *)
Definition event_panic (ev : event) s : option string :=
  match ev with
  | EvTrap tf => trap_panic tf s
  | EvFork nice => if ((nice <? NICE_FIRST_LEVEL) || (NICE_LAST_LEVEL <? nice))%Z then Some "invalid nice value" else None
  | EvExit => if cur_init s then Some "init exiting" else None
  | _ => None
  end.

(** ** Every event keeps the invariant *)

Context (Hstray : forall p, p < NPROC -> stray_ok stray p).
Context (Hide : handler_ok (F := F) ideintr) (Hkbd : handler_ok (F := F) kbdintr)
  (Huart : handler_ok (F := F) uartintr).

Lemma back_inv (m : M (kst E) unit) s :
  wpf F m (fun _ s' => mid s') s -> wpf F (m ;; scheduler_back) (fun _ s' => inv s') s.
Proof.
  intros Hm. apply wpf_bind. eapply wpf_mono; [exact Hm|]. intros ? s' Hmid.
  eapply wpf_mono; [by apply wpf_wp, scheduler_back_inv|]. by intros _ s2 [? _].
Qed.

Lemma waited_inv cur t r s :
  waited cur t r s ->
  wpf F (match r with None => scheduler_back | Some _ => ret tt end) (fun _ s' => inv s') s.
Proof.
  intros Hw. destruct r as [v|]; [by destruct Hw; eapply wpf_done|]. destruct Hw as [Hmid _].
  eapply wpf_mono; [by apply wpf_wp, scheduler_back_inv|]. by intros _ s2 [? _].
Qed.

Lemma schedule_turn_ok s :
  inv s -> c_proc (k_cpu s) = None -> wpf F schedule_turn (fun _ s' => inv s') s.
Proof.
  intros Hinv Hcp. unfold schedule_turn. apply wpf_bind.
  eapply wpf_mono; [by apply wpf_wp, scheduler_pick_ok|]. intros [p|] s1; cbn beta iota.
  2: { intros [Hinv1 _]. by eapply wpf_done. }
  intros (Hp & Hst & Hpk & _). wnext.
  assert (p_context (k_proc s1 p) = p_context (k_proc s p)) as -> by (by rewrite (pk_same _ _ _ Hpk)).
  assert (ctx_ok (k_proc s p)) as Hctx by (by apply (po_ctx _ _ (b_procs _ _ (proj2 (proj2 Hinv))))).
  apply wpf_bind. eapply wpf_mono; [by apply (resume_ok (k_proc s))|]. intros ? s2. cbn beta.
  destruct (p_context (k_proc s p)) as [| |ie [|lk|]]; cbn [go_on].
  1,2,3,5: by intros [? _]; eapply wpf_done.
  intros [Hin _]. case_bool_decide as Hlk.
  - subst lk. apply wpf_bind. eapply wpf_mono; [by apply (wait_round_ok stray Hstray)|].
    intros r s3 Hw. by eapply waited_inv.
  - destruct (inside_release _ _ _ Hin) as (Hr & Hinv' & _). by eapply wpf_done.
Qed.

Lemma interrupt_ok tf s :
  inv s -> settled s ->
  match trap_panic tf s with
  | Some msg => stops (F := F) msg (interrupt tf) s
  | None => wpf F (interrupt tf) (fun _ s' => inv s') s
  end.
Proof.
  intros Hinv Hset. set (s1 := set_k_cpu (set_c_if false (k_cpu s)) s).
  assert (inv s1) as Hinv1 by (destruct Hinv as (? & ? & []); done).
  pose proof (trap_interrupt_ok stray Hstray ideintr kbdintr uartintr Hide Hkbd Huart tf s1 Hinv1 eq_refl Hset) as Ht.
  change (trap_panic tf s1) with (trap_panic tf s) in Ht.
  destruct (trap_panic tf s); unfold stops in *; unfold interrupt; wnext; wnext; apply wpf_bind.
  - eapply wpf_mono; [exact Ht|]. done.
  - eapply wpf_mono; [exact Ht|]. intros [] s2 [H2 Hcp2].
    + eapply wpf_done; [reflexivity|]. destruct H2 as (? & ? & []). done.
    + eapply wpf_mono; [by apply wpf_wp, scheduler_back_inv|]. by intros _ s3 [? _].
Qed.

Lemma fork_event_ok nice s :
  inv s -> enabled (EvFork nice) s ->
  match event_panic (EvFork nice) s with
  | Some msg => stops (F := F) msg (exec (EvFork nice)) s
  | None => wpf F (exec (EvFork nice)) (fun _ s' => inv s') s
  end.
Proof.
  intros Hinv ([p Hcp] & Hcwd & _). specialize (Hcwd p Hcp). cbn [event_panic exec].
  destruct ((nice <? NICE_FIRST_LEVEL) || (NICE_LAST_LEVEL <? nice))%Z eqn:Hn.
  - unfold stops, wpf, bind, nicefork. rewrite Hn. by right.
  - apply orb_false_iff in Hn as [H1%Z.ltb_ge H2%Z.ltb_ge]. destruct (p_cwd (k_proc s p)) as [ip|] eqn:Hip; [|done].
    apply wpf_bind. eapply wpf_mono; [by eapply nicefork_ok|]. intros r s' [? _]. by eapply wpf_done.
Qed.

Lemma exit_event_ok s :
  inv s -> enabled EvExit s ->
  match event_panic EvExit s with
  | Some msg => stops (F := F) msg (exec EvExit) s
  | None => wpf F (exec EvExit) (fun _ s' => inv s') s
  end.
Proof.
  intros Hinv ([p Hcp] & Hcwd & [i Hi]). specialize (Hcwd p Hcp). cbn [event_panic exec]. unfold cur_init. rewrite Hcp.
  case_bool_decide as Hini.
  - destruct (exit_init_panics stray s p Hinv Hcp Hini) as [s' Hp]. unfold stops, wpf, bind. rewrite Hp. by right.
  - destruct (p_cwd (k_proc s p)) as [ip|] eqn:Hip; [|done]. apply back_inv.
    eapply wpf_mono; [eapply (exit_enter_ok stray Hstray p i ip); congruence|]. by intros _ s' [? _].
Qed.

(** An event ends in its panic, if it has one, and else with the invariant. *)
Lemma exec_ok ev s :
  inv s -> enabled ev s ->
  match event_panic ev s with
  | Some msg => stops (F := F) msg (exec ev) s
  | None => wpf F (exec ev) (fun _ s' => inv s') s
  end.
Proof.
  intros Hinv Hen. destruct ev as [|tf| |ch lk|ch|nice| | |pid]; [| | | | |by apply fork_event_ok|by apply exit_event_ok|..].
  - by apply schedule_turn_ok.
  - by apply interrupt_ok; destruct Hen.
  - destruct Hen as [p Hcp]. apply back_inv. eapply wpf_mono; [by apply wpf_wp, (yield_enter_mid stray Hstray s p)|].
    by intros _ s' [? _].
  - destruct Hen as (Hlk & p & Hcp). destruct (inside_acquire lk _ s Hinv Hcp) as [Ha (Hl & Hq & Hb & Hcp1)].
    cbn [event_panic exec]. eapply wpf_step; [exact Ha|]. apply back_inv.
    eapply wpf_mono; [by apply wpf_wp, (sleep_enter_mid stray Hstray _ p)|]. by intros _ s' [? _].
  - eapply wpf_mono; [by apply wpf_wp, wakeup_ok|]. by intros _ s' [? _].
  - destruct Hen as [p Hcp]. cbn [event_panic exec]. apply wpf_bind.
    eapply wpf_mono; [by apply (wait_enter_ok stray Hstray p)|]. intros r s' Hw. by eapply waited_inv.
  - cbn [event_panic exec]. apply wpf_bind. eapply wpf_mono; [by apply wpf_wp, kill_ok|]. intros r s' [? _]. by eapply wpf_done.
Qed.

Lemma exec_done_inv ev s s' : inv s -> enabled ev s -> exec ev s = Done tt s' -> inv s'.
Proof.
  intros Hinv Hen Hx. pose proof (exec_ok ev s Hinv Hen) as Hok. unfold stops, wpf in Hok. rewrite Hx in Hok.
  by destruct (event_panic ev s).
Qed.

(** ** Reachable states *)

Inductive reachable (e : E) : kst E -> Prop :=
| reach_boot s : (pinit ;; userinit) (boot e) = Done tt s -> reachable e s
| reach_step s ev s' : reachable e s -> enabled ev s -> exec ev s = Done tt s' -> reachable e s'
| reach_env s e' : reachable e s -> ke_inv e' -> reachable e (set_k_env e' s).

Lemma reachable_inv_lemma e s : ke_inv e -> reachable e s -> inv s.
Proof.
  intros He. induction 1 as [s Hs|s ev s' _ IH Hen Hx|s e' _ IH He'].
  - pose proof (pinit_ok e He) as Hp. apply wp_done in Hp as ([] & s1 & Hp & He1 & Henv).
    rewrite (bind_done _ _ _ _ _ Hp) in Hs.
    pose proof (userinit_ok s1 He1) as Hu. unfold wpf in Hu. rewrite Hs in Hu. by destruct Hu.
  - by apply (exec_done_inv ev s).
  - by apply inv_env.
Qed.

End System.
