(* ===== verification/BumpEnv.v ===== *)
(** * A small instance of the interface of KEnv

    An allocator that hands out one page after the other, page directories
    that are such pages, and a file system without effects.  It shows that the
    assumptions of the process-table theorems can be met, and it lets the
    kernel run: [booted] is the state after pinit and userinit. *)

From S2P Require Import Prelude Mem KState Spinlock SkipList SkipListInv SkipListInsert.
From S2P Require Import SkipListDelete Mem KEnv Proc ProcQueue ProcInv ProcSwitch.
From S2P Require Import ProcLife ProcExit Boot Trap TrapInv System.

Local Open Scope c_scope.

Definition bump : M Z Z := fun e => Done e (e + 4096)%Z.

#[global] Instance bump_env : KEnv Z := {|
  ke_kalloc := bump;
  ke_kfree _ := ret tt;
  ke_frame _ _ := zero_frame;
  ke_setupkvm := bump;
  ke_inituvm _ := ret tt;
  ke_copyuvm _ _ := bump;
  ke_allocuvm _ _ n := ret n;
  ke_deallocuvm _ _ n := ret n;
  ke_freevm _ := ret tt;
  ke_kpgdir _ := (KERNBASE + 4096)%Z;
  ke_filedup _ := ret tt;
  ke_fileclose _ := ret [ObjChan 1];
  ke_idup _ := ret tt;
  ke_iput _ := ret [ObjChan 2];
  ke_namei_root := ret (Some 0);
  ke_begin_op := ret tt;
  ke_end_op := ret [ObjChan 3];
  ke_fsinit := ret tt;
|}.

Definition no_fault (f : fault) : Prop := False.

#[global] Instance bump_env_ok : KEnvOk Z no_fault.
Proof.
  refine {| ke_inv e := (KERNBASE <= e)%Z |}; intros; unfold wpf; simpl; unfold KERNBASE in *; try lia;
    split; lia.
Defined.

(** No word at null or below the array names a process. *)
Definition no_stray (s : kst Z) (q : nptr) : option nat := None.

Lemma no_stray_ok p : p < NPROC -> stray_ok no_stray p.
Proof. done. Qed.

Definition no_handler : M (kst Z) unit := ret tt.

Lemma no_handler_ok : handler_ok (F := no_fault) no_handler.
Proof. intros s Hinv _. by eapply wpf_done. Qed.

(** The state a computation ends in. *)
Definition final {S A} (m : M S A) (s : S) : S :=
  match m s with Done _ s' | Panic _ s' | Undef s' | NoFuel s' => s' end.

Definition is_done {S A} (o : outcome S A) : bool :=
  match o with Done _ _ => true | _ => false end.

(** A run that ends normally, seen by evaluation. *)
Lemma done_final {S} (m : M S unit) (s : S) : is_done (m s) = true -> m s = Done tt (final m s).
Proof. unfold final. by destruct (m s) as [[]| | |]. Qed.

Lemma wpf_final {S A} (m : M S A) (Q : A -> S -> Prop) s :
  wpf no_fault m Q s -> exists a, m s = Done a (final m s) /\ Q a (final m s).
Proof. unfold wpf, final, no_fault. destruct (m s); naive_solver. Qed.

Definition page0 : Z := (KERNBASE + 65536)%Z.

Definition booted : kst Z := final (pinit ;; userinit) (boot page0).

(** ** Concrete states *)

Abbreviation run ev := (exec no_stray no_handler no_handler no_handler ev).

Lemma page0_ok : ke_inv page0.
Proof. unfold ke_inv, page0. simpl. lia. Qed.

Lemma booted_eq : (pinit ;; userinit) (boot page0) = Done tt booted.
Proof. apply (done_final (pinit ;; userinit) (boot page0)). vm_compute. reflexivity. Qed.

Lemma booted_reachable : reachable no_stray no_handler no_handler no_handler page0 booted.
Proof. apply reach_boot. exact booted_eq. Qed.

Lemma final_inv ev s :
  inv s -> enabled ev s -> event_panic ev s = None -> inv (final (run ev) s).
Proof.
  intros Hinv Hen Hno. pose proof (exec_ok no_stray no_handler no_handler no_handler no_stray_ok
    no_handler_ok no_handler_ok no_handler_ok ev s Hinv Hen) as Hok. rewrite Hno in Hok.
  destruct (wpf_final _ _ _ Hok) as (a & _ & Hi). done.
Qed.

Lemma booted_inv : inv booted.
Proof.
  eapply (reachable_inv_lemma no_stray no_handler no_handler no_handler); [..|exact booted_reachable].
  - exact no_stray_ok.
  - exact no_handler_ok.
  - exact no_handler_ok.
  - exact no_handler_ok.
  - exact page0_ok.
Qed.

(** init runs, and has forked a child of nice -5. *)
Definition running : kst Z := final (run EvSchedule) booted.
Definition with_child : kst Z := final (run (EvFork (-5))) running.

Lemma running_inv : inv running.
Proof. apply final_inv; [apply booted_inv|vm_compute; reflexivity|reflexivity]. Qed.

Lemma settled_at (s : kst Z) p i ip :
  c_proc (k_cpu s) = Some p -> p_cwd (k_proc s p) = Some ip -> k_initproc s = Some i -> settled s.
Proof. intros Hcp Hcwd Hi. split; [|by exists i]. intros q Hq. rewrite Hcp in Hq. injection Hq as <-. by rewrite Hcwd. Qed.

Lemma running_settled : settled running.
Proof. apply (settled_at running 0 0 0); vm_compute; reflexivity. Qed.

Lemma with_child_inv : inv with_child.
Proof.
  apply final_inv; [apply running_inv| |reflexivity]. split; [|exact running_settled].
  exists 0. vm_compute. reflexivity.
Qed.
