(* ===== verification/Random.v ===== *)
(** * The random numbers and the deadlines of proc.c

    [next_seed], the update of the 32-bit seed in random(), is an invertible
    map of the 32-bit words, so the seed never falls into the fixed point 0.
    [computevd] stays within a window above the clock, so a process enqueued
    later than the deadline of another cannot overtake it. *)

From S2P Require Import Prelude KState SkipList SkipListInv.

Local Open Scope Z_scope.

(** ** Bits of 32-bit words *)

Lemma u32_testbit x i : Z.testbit (u32 x) i = Z.testbit x i && (i <? 32).
Proof.
  unfold u32, u32_mod. change 4294967296 with (2 ^ 32).
  destruct (Z.ltb_spec i 32).
  - by rewrite Z.mod_pow2_bits_low, andb_true_r by lia.
  - by rewrite Z.mod_pow2_bits_high, andb_false_r by lia.
Qed.

Lemma is_u32_high x i : is_u32 x -> 32 <= i -> Z.testbit x i = false.
Proof.
  intros Hx Hi. rewrite <- (u32_small x Hx), u32_testbit.
  destruct (Z.ltb_spec i 32); [lia|]. apply andb_false_r.
Qed.

Lemma is_u32_bits x : 0 <= x -> (forall i, 32 <= i -> Z.testbit x i = false) -> is_u32 x.
Proof.
  intros H0 Hb. assert (u32 x = x) as <-; [|apply u32_range]. apply Z.bits_inj'. intros i Hi.
  rewrite u32_testbit. destruct (Z.ltb_spec i 32); [apply andb_true_r|]. by rewrite Hb, andb_false_r by lia.
Qed.

Lemma lxor_u32 x y : is_u32 x -> is_u32 y -> is_u32 (Z.lxor x y).
Proof.
  intros Hx Hy. apply is_u32_bits.
  - apply Z.lxor_nonneg. unfold is_u32 in *. lia.
  - intros i Hi. by rewrite Z.lxor_spec, !is_u32_high.
Qed.

Lemma shiftr_u32 x k : 0 <= k -> is_u32 x -> is_u32 (Z.shiftr x k).
Proof.
  intros Hk Hx. apply is_u32_bits; [apply Z.shiftr_nonneg; unfold is_u32 in *; lia|].
  intros i Hi. rewrite Z.shiftr_spec by lia. apply is_u32_high; [done|lia].
Qed.

(** ** The three steps of the update *)

Definition mix_left (k x : Z) : Z := Z.lxor x (u32 (Z.shiftl x k)).
Definition mix_right (k x : Z) : Z := Z.lxor x (Z.shiftr x k).

Lemma next_seed_mix x : next_seed x = mix_left 5 (mix_right 7 (mix_left 17 x)).
Proof. done. Qed.

Lemma mix_left_u32 k x : is_u32 x -> is_u32 (mix_left k x).
Proof. intros Hx. apply lxor_u32; [done|apply u32_range]. Qed.

Lemma mix_right_u32 k x : 0 <= k -> is_u32 x -> is_u32 (mix_right k x).
Proof. intros Hk Hx. apply lxor_u32; [done|by apply shiftr_u32]. Qed.

(** Equal results have equal low bits, one block of [k] after the other. *)
Lemma mix_left_inj k x y :
  0 < k -> is_u32 x -> is_u32 y -> mix_left k x = mix_left k y -> x = y.
Proof.
  intros Hk Hx Hy Heq. apply Z.bits_inj'. intros i Hi. revert i Hi.
  apply (Zlt_0_ind (fun i => Z.testbit x i = Z.testbit y i)). intros i IH Hi.
  destruct (Z.le_gt_cases 32 i) as [Hge|Hlt]; [by rewrite !is_u32_high|].
  pose proof (f_equal (fun z => Z.testbit z i) Heq) as Hb. cbv beta in Hb. unfold mix_left in Hb.
  rewrite !Z.lxor_spec, !u32_testbit in Hb. destruct (Z.ltb_spec i 32); [|lia].
  rewrite !andb_true_r, !Z.shiftl_spec in Hb by lia.
  destruct (Z.le_gt_cases k i).
  - rewrite (IH (i - k)) in Hb by lia. by destruct (Z.testbit x i), (Z.testbit y i), (Z.testbit y (i - k)).
  - rewrite !(Z.testbit_neg_r _ (i - k)) in Hb by lia. by rewrite !xorb_false_r in Hb.
Qed.

(** For a right shift, from the high bits down. *)
Lemma mix_right_inj k x y :
  0 < k -> is_u32 x -> is_u32 y -> mix_right k x = mix_right k y -> x = y.
Proof.
  intros Hk Hx Hy Heq. apply Z.bits_inj'.
  assert (forall j, 0 <= j -> forall i, 32 - j <= i -> 0 <= i -> Z.testbit x i = Z.testbit y i) as Hall.
  { apply (natlike_ind (fun j => forall i, 32 - j <= i -> 0 <= i -> Z.testbit x i = Z.testbit y i)).
    - intros i Hi Hi0. by rewrite !is_u32_high by lia || done.
    - intros j Hj IH i Hi Hi0.
      pose proof (f_equal (fun z => Z.testbit z i) Heq) as Hb. cbv beta in Hb. unfold mix_right in Hb.
      rewrite !Z.lxor_spec, !Z.shiftr_spec, (IH (i + k)) in Hb by lia.
      by destruct (Z.testbit x i), (Z.testbit y i), (Z.testbit y (i + k)). }
  intros i Hi. apply (Hall 32); lia.
Qed.

Lemma next_seed_u32 x : is_u32 x -> is_u32 (next_seed x).
Proof. intros Hx. rewrite next_seed_mix. by apply mix_left_u32, mix_right_u32, mix_left_u32. Qed.

Lemma next_seed_inj x y : is_u32 x -> is_u32 y -> next_seed x = next_seed y -> x = y.
Proof.
  intros Hx Hy. rewrite !next_seed_mix. intros H1%mix_left_inj; [|lia|by apply mix_right_u32, mix_left_u32..].
  apply mix_right_inj in H1; [|lia|by apply mix_left_u32..]. by apply mix_left_inj in H1.
Qed.

(** ** Virtual deadlines *)

Lemma computevd_exact nice t :
  NICE_FIRST_LEVEL <= nice <= NICE_LAST_LEVEL -> 0 <= t <= 2147483647 - 40 * BFS_DEFAULT_QUANTUM ->
  computevd nice t = t + (nice + 21) * BFS_DEFAULT_QUANTUM.
Proof.
  unfold computevd, NICE_FIRST_LEVEL, NICE_LAST_LEVEL, BFS_DEFAULT_QUANTUM. intros Hn Ht.
  rewrite (i32_small (nice - -20 + 1)) by (unfold is_i32; lia).
  rewrite (i32_small (_ * 50)) by (unfold is_i32; lia). rewrite i32_small by (unfold is_i32; lia). lia.
Qed.

(** Enqueuing behind: what is earlier than the newcomer keeps its place. *)
Lemma enqueue_behind dl p q l r :
  StronglySorted (by_deadline dl) (l ++ q :: r) -> dl q < dl p ->
  exists r', enqueue dl p (l ++ q :: r) = l ++ q :: r' /\ p ∈ r' /\ (forall x, x ∈ r -> x ∈ r').
Proof.
  intros Hs Hlt. assert (forall x, x ∈ l ++ [q] -> dl x < dl p) as Hl.
  { intros x Hx. apply elem_of_app in Hx as [Hx| ->%list_elem_of_singleton]; [|done].
    apply StronglySorted_app in Hs as (Hord & _ & _). assert (by_deadline dl x q) as Hxq; [|unfold by_deadline in Hxq; lia].
    apply Hord; set_solver. }
  replace (l ++ q :: r) with ((l ++ [q]) ++ r) by (by rewrite <- app_assoc).
  unfold enqueue, earlier, not_earlier. rewrite !(filter_app _ (l ++ [q]) r), (filter_all _ (l ++ [q])), (filter_none _ (l ++ [q])).
  - exists (filter (fun x => dl x < dl p) r ++ p :: filter (fun x => ~ dl x < dl p) r). split.
    + rewrite <- !app_assoc. done.
    + split; [set_solver|]. intros x Hx. rewrite elem_of_app, elem_of_cons, !list_elem_of_filter.
      destruct (decide (dl x < dl p)); auto.
  - intros x Hx. specialize (Hl x Hx). lia.
  - done.
Qed.
