(* ===== verification/FsState.v ===== *)
(** * Blocks, and the state of the file system

    buf.h, fs.h, file.h and log.c: the disk, the buffer cache, the log and the
    inode cache.  A block is the list of its BSIZE bytes; a [struct buf *] is
    an index into bcache.buf, with NBUF for bcache.head, and the links of the
    cache's list are two arrays.  An inode pointer is an index into
    icache.inode.

    First the data of a buffer as C code reads and writes it through casts: bytes,
    shorts and words at a byte offset, and memmove of a run of bytes.

    The spin locks of these components (bcache.lock, log.lock, icache.lock,
    the lock inside a sleep lock) are held for a stretch without sleep, so each
    stretch is one step and they have no field here. *)

From S2P Require Import Prelude.

Local Open Scope Z_scope.

Definition get8 (b : list Z) (i : Z) : Z := nth (Z.to_nat i) b 0.
Definition get16 (b : list Z) (i : Z) : Z := get8 b i + 256 * get8 b (i + 1).
Definition get32 (b : list Z) (i : Z) : Z :=
  get8 b i + 256 * get8 b (i + 1) + 65536 * get8 b (i + 2) + 16777216 * get8 b (i + 3).

(** [n] bytes from offset [off] on. *)
Definition slice (off n : Z) (b : list Z) : list Z := take (Z.to_nat n) (drop (Z.to_nat off) b).

(** memmove of [src] to offset [off] *)
Definition put (off : Z) (src b : list Z) : list Z :=
  take (Z.to_nat off) b ++ src ++ drop (Z.to_nat off + length src) b.

Definition bytes16 (w : Z) : list Z := [u8 w; u8 (w / 256)].
Definition bytes32 (w : Z) : list Z := [u8 w; u8 (w / 256); u8 (w / 65536); u8 (w / 16777216)].

Definition put16 (off w : Z) (b : list Z) : list Z := put off (bytes16 w) b.
Definition put32 (off w : Z) (b : list Z) : list Z := put off (bytes32 w) b.

(** The source fits at [off]. *)
Definition fits (off : Z) (src b : list Z) : Prop := 0 <= off /\ off + Z.of_nat (length src) <= Z.of_nat (length b).

Lemma length_put off src b : fits off src b -> length (put off src b) = length b.
Proof. unfold fits, put. intros. rewrite !length_app, length_take, length_drop. lia. Qed.

Lemma put_lookup off src b i :
  fits off src b ->
  put off src b !! i =
    if decide (Z.to_nat off <= i < Z.to_nat off + length src)%nat then src !! (i - Z.to_nat off)%nat else b !! i.
Proof.
  unfold fits, put. intros Hf. assert (length (take (Z.to_nat off) b) = Z.to_nat off) as Hl by (rewrite length_take; lia).
  destruct (decide _) as [Hin|Hout].
  - rewrite lookup_app_r, Hl by lia. by rewrite lookup_app_l by lia.
  - destruct (decide (i < Z.to_nat off)%nat).
    + rewrite lookup_app_l by lia. by rewrite lookup_take_lt.
    + rewrite lookup_app_r, Hl by lia. rewrite lookup_app_r by lia. rewrite lookup_drop. f_equal. lia.
Qed.

Lemma get8_lookup b i : get8 b i = default 0 (b !! Z.to_nat i).
Proof. unfold get8. by rewrite nth_lookup. Qed.

Lemma get8_put off src b i :
  fits off src b -> 0 <= i ->
  get8 (put off src b) i = if decide (off <= i < off + Z.of_nat (length src)) then get8 src (i - off) else get8 b i.
Proof.
  intros Hf Hi. pose proof Hf as [? ?]. rewrite !get8_lookup, put_lookup by done.
  destruct (decide (off <= i < off + Z.of_nat (length src))).
  - rewrite decide_True by lia. do 2 f_equal. lia.
  - by rewrite decide_False by lia.
Qed.

Lemma get32_bytes32 w : is_u32 w -> get32 (bytes32 w) 0 = w.
Proof. unfold is_u32, u32_mod, get32, bytes32, get8, u8. simpl. intros. zlia. Qed.

Lemma get16_bytes16 w : 0 <= w < 65536 -> get16 (bytes16 w) 0 = w.
Proof. unfold get16, bytes16, get8, u8. simpl. intros. zlia. Qed.

Lemma get32_put_outside off src b i :
  fits off src b -> 0 <= i -> i + 4 <= off \/ off + Z.of_nat (length src) <= i -> get32 (put off src b) i = get32 b i.
Proof. intros. unfold get32. rewrite !get8_put by (done || lia). by rewrite !decide_False by lia. Qed.

Lemma get16_put_outside off src b i :
  fits off src b -> 0 <= i -> i + 2 <= off \/ off + Z.of_nat (length src) <= i -> get16 (put off src b) i = get16 b i.
Proof. intros. unfold get16. rewrite !get8_put by (done || lia). by rewrite !decide_False by lia. Qed.

Lemma get32_put_inside off src b i :
  fits off src b -> off <= i -> i + 4 <= off + Z.of_nat (length src) -> get32 (put off src b) i = get32 src (i - off).
Proof.
  intros Hf Hi He. pose proof Hf as [? ?]. unfold get32. rewrite !get8_put by (done || lia).
  rewrite !decide_True by lia. repeat f_equal; lia.
Qed.

Lemma get16_put_inside off src b i :
  fits off src b -> off <= i -> i + 2 <= off + Z.of_nat (length src) -> get16 (put off src b) i = get16 src (i - off).
Proof.
  intros Hf Hi He. pose proof Hf as [? ?]. unfold get16. rewrite !get8_put by (done || lia).
  rewrite !decide_True by lia. repeat f_equal; lia.
Qed.

Lemma get32_put32 off w b : fits off (bytes32 w) b -> is_u32 w -> get32 (put32 off w b) off = w.
Proof.
  intros Hf Hw. unfold put32. rewrite get32_put_inside by (done || simpl; lia). rewrite Z.sub_diag. by apply get32_bytes32.
Qed.

Lemma length_put32 off w b : fits off (bytes32 w) b -> length (put32 off w b) = length b.
Proof. apply length_put. Qed.

Lemma get32_put32_ne off w b i :
  fits off (bytes32 w) b -> 0 <= i -> i + 4 <= off \/ off + 4 <= i -> get32 (put32 off w b) i = get32 b i.
Proof. intros Hf Hi Ho. by apply get32_put_outside. Qed.

Lemma length_slice off n b :
  0 <= off -> 0 <= n -> off + n <= Z.of_nat (length b) -> Z.of_nat (length (slice off n b)) = n.
Proof. intros. unfold slice. rewrite length_take, length_drop. lia. Qed.

Lemma put_whole src b : length src = length b -> put 0 src b = src.
Proof. intros Hl. unfold put. rewrite take_0, drop_ge by (simpl; lia). by rewrite app_nil_r. Qed.

(** ** param.h, fs.h, stat.h *)

Definition MAXOPBLOCKS : Z := 10.
Definition LOGSIZE : Z := MAXOPBLOCKS * 3.
Definition NBUF : nat := 30.          (* MAXOPBLOCKS*3 *)
Definition NINODE : nat := 50.
Definition ROOTDEV : Z := 1.
Definition ROOTINO : Z := 1.
Definition BSIZE : Z := 512.
Definition NDIRECT : Z := 12.
Definition NINDIRECT : Z := BSIZE / 4.
Definition MAXFILE : Z := NDIRECT + NINDIRECT.
Definition IPB : Z := BSIZE / 64.     (* sizeof(struct dinode) is 64 *)
Definition BPB : Z := BSIZE * 8.
Definition DIRSIZ : nat := 14.
Definition T_DIR : Z := 1.
Definition T_FILE : Z := 2.
Definition T_DEV : Z := 3.

Abbreviation block := (list Z).

Record sleeplock := mkSleeplock {
  sl_locked : bool;
  sl_pid : Z;  (* process holding the lock *)
}.

Definition set_sl_locked (v : bool) (r : sleeplock) : sleeplock :=
  mkSleeplock v (sl_pid r).
Definition set_sl_pid (v : Z) (r : sleeplock) : sleeplock :=
  mkSleeplock (sl_locked r) v.

Record buf := mkBuf {
  bf_valid : bool;  (* flags & B_VALID *)
  bf_dirty : bool;  (* flags & B_DIRTY *)
  bf_dev : Z;
  bf_blockno : Z;
  bf_lock : sleeplock;
  bf_refcnt : Z;
  bf_data : block;
}.

Definition set_bf_valid (v : bool) (r : buf) : buf :=
  mkBuf v (bf_dirty r) (bf_dev r) (bf_blockno r) (bf_lock r) (bf_refcnt r) (bf_data r).
Definition set_bf_dirty (v : bool) (r : buf) : buf :=
  mkBuf (bf_valid r) v (bf_dev r) (bf_blockno r) (bf_lock r) (bf_refcnt r) (bf_data r).
Definition set_bf_dev (v : Z) (r : buf) : buf :=
  mkBuf (bf_valid r) (bf_dirty r) v (bf_blockno r) (bf_lock r) (bf_refcnt r) (bf_data r).
Definition set_bf_blockno (v : Z) (r : buf) : buf :=
  mkBuf (bf_valid r) (bf_dirty r) (bf_dev r) v (bf_lock r) (bf_refcnt r) (bf_data r).
Definition set_bf_lock (v : sleeplock) (r : buf) : buf :=
  mkBuf (bf_valid r) (bf_dirty r) (bf_dev r) (bf_blockno r) v (bf_refcnt r) (bf_data r).
Definition set_bf_refcnt (v : Z) (r : buf) : buf :=
  mkBuf (bf_valid r) (bf_dirty r) (bf_dev r) (bf_blockno r) (bf_lock r) v (bf_data r).
Definition set_bf_data (v : block) (r : buf) : buf :=
  mkBuf (bf_valid r) (bf_dirty r) (bf_dev r) (bf_blockno r) (bf_lock r) (bf_refcnt r) v.

Record superblock := mkSuperblock {
  sb_size : Z;  (* size of the image (blocks) *)
  sb_nblocks : Z;  (* number of data blocks *)
  sb_ninodes : Z;
  sb_nlog : Z;
  sb_logstart : Z;
  sb_inodestart : Z;
  sb_bmapstart : Z;
}.

Definition set_sb_size (v : Z) (r : superblock) : superblock :=
  mkSuperblock v (sb_nblocks r) (sb_ninodes r) (sb_nlog r) (sb_logstart r)
    (sb_inodestart r) (sb_bmapstart r).
Definition set_sb_nblocks (v : Z) (r : superblock) : superblock :=
  mkSuperblock (sb_size r) v (sb_ninodes r) (sb_nlog r) (sb_logstart r)
    (sb_inodestart r) (sb_bmapstart r).
Definition set_sb_ninodes (v : Z) (r : superblock) : superblock :=
  mkSuperblock (sb_size r) (sb_nblocks r) v (sb_nlog r) (sb_logstart r)
    (sb_inodestart r) (sb_bmapstart r).
Definition set_sb_nlog (v : Z) (r : superblock) : superblock :=
  mkSuperblock (sb_size r) (sb_nblocks r) (sb_ninodes r) v (sb_logstart r)
    (sb_inodestart r) (sb_bmapstart r).
Definition set_sb_logstart (v : Z) (r : superblock) : superblock :=
  mkSuperblock (sb_size r) (sb_nblocks r) (sb_ninodes r) (sb_nlog r) v (sb_inodestart r)
    (sb_bmapstart r).
Definition set_sb_inodestart (v : Z) (r : superblock) : superblock :=
  mkSuperblock (sb_size r) (sb_nblocks r) (sb_ninodes r) (sb_nlog r) (sb_logstart r) v
    (sb_bmapstart r).
Definition set_sb_bmapstart (v : Z) (r : superblock) : superblock :=
  mkSuperblock (sb_size r) (sb_nblocks r) (sb_ninodes r) (sb_nlog r) (sb_logstart r)
    (sb_inodestart r) v.

Record log := mkLog {
  lg_start : Z;
  lg_size : Z;
  lg_outstanding : Z;  (* FS system calls executing *)
  lg_committing : bool;
  lg_dev : Z;
  lg_n : Z;  (* lh.n *)
  lg_block : nat -> Z;  (* lh.block *)
}.

Definition set_lg_start (v : Z) (r : log) : log :=
  mkLog v (lg_size r) (lg_outstanding r) (lg_committing r) (lg_dev r) (lg_n r)
    (lg_block r).
Definition set_lg_size (v : Z) (r : log) : log :=
  mkLog (lg_start r) v (lg_outstanding r) (lg_committing r) (lg_dev r) (lg_n r)
    (lg_block r).
Definition set_lg_outstanding (v : Z) (r : log) : log :=
  mkLog (lg_start r) (lg_size r) v (lg_committing r) (lg_dev r) (lg_n r) (lg_block r).
Definition set_lg_committing (v : bool) (r : log) : log :=
  mkLog (lg_start r) (lg_size r) (lg_outstanding r) v (lg_dev r) (lg_n r) (lg_block r).
Definition set_lg_dev (v : Z) (r : log) : log :=
  mkLog (lg_start r) (lg_size r) (lg_outstanding r) (lg_committing r) v (lg_n r)
    (lg_block r).
Definition set_lg_n (v : Z) (r : log) : log :=
  mkLog (lg_start r) (lg_size r) (lg_outstanding r) (lg_committing r) (lg_dev r) v
    (lg_block r).
Definition set_lg_block (v : nat -> Z) (r : log) : log :=
  mkLog (lg_start r) (lg_size r) (lg_outstanding r) (lg_committing r) (lg_dev r)
    (lg_n r) v.

Record inode := mkInode {
  i_dev : Z;
  i_inum : Z;
  i_ref : Z;
  i_lock : sleeplock;
  i_valid : bool;  (* inode has been read from disk? *)
  i_type : Z;  (* short *)
  i_major : Z;  (* short *)
  i_minor : Z;  (* short *)
  i_nlink : Z;  (* short *)
  i_size : Z;
  i_addrs : list Z;  (* addrs[NDIRECT+1] *)
}.

Definition set_i_dev (v : Z) (r : inode) : inode :=
  mkInode v (i_inum r) (i_ref r) (i_lock r) (i_valid r) (i_type r) (i_major r)
    (i_minor r) (i_nlink r) (i_size r) (i_addrs r).
Definition set_i_inum (v : Z) (r : inode) : inode :=
  mkInode (i_dev r) v (i_ref r) (i_lock r) (i_valid r) (i_type r) (i_major r)
    (i_minor r) (i_nlink r) (i_size r) (i_addrs r).
Definition set_i_ref (v : Z) (r : inode) : inode :=
  mkInode (i_dev r) (i_inum r) v (i_lock r) (i_valid r) (i_type r) (i_major r)
    (i_minor r) (i_nlink r) (i_size r) (i_addrs r).
Definition set_i_lock (v : sleeplock) (r : inode) : inode :=
  mkInode (i_dev r) (i_inum r) (i_ref r) v (i_valid r) (i_type r) (i_major r)
    (i_minor r) (i_nlink r) (i_size r) (i_addrs r).
Definition set_i_valid (v : bool) (r : inode) : inode :=
  mkInode (i_dev r) (i_inum r) (i_ref r) (i_lock r) v (i_type r) (i_major r) (i_minor r)
    (i_nlink r) (i_size r) (i_addrs r).
Definition set_i_type (v : Z) (r : inode) : inode :=
  mkInode (i_dev r) (i_inum r) (i_ref r) (i_lock r) (i_valid r) v (i_major r)
    (i_minor r) (i_nlink r) (i_size r) (i_addrs r).
Definition set_i_major (v : Z) (r : inode) : inode :=
  mkInode (i_dev r) (i_inum r) (i_ref r) (i_lock r) (i_valid r) (i_type r) v (i_minor r)
    (i_nlink r) (i_size r) (i_addrs r).
Definition set_i_minor (v : Z) (r : inode) : inode :=
  mkInode (i_dev r) (i_inum r) (i_ref r) (i_lock r) (i_valid r) (i_type r) (i_major r) v
    (i_nlink r) (i_size r) (i_addrs r).
Definition set_i_nlink (v : Z) (r : inode) : inode :=
  mkInode (i_dev r) (i_inum r) (i_ref r) (i_lock r) (i_valid r) (i_type r) (i_major r)
    (i_minor r) v (i_size r) (i_addrs r).
Definition set_i_size (v : Z) (r : inode) : inode :=
  mkInode (i_dev r) (i_inum r) (i_ref r) (i_lock r) (i_valid r) (i_type r) (i_major r)
    (i_minor r) (i_nlink r) v (i_addrs r).
Definition set_i_addrs (v : list Z) (r : inode) : inode :=
  mkInode (i_dev r) (i_inum r) (i_ref r) (i_lock r) (i_valid r) (i_type r) (i_major r)
    (i_minor r) (i_nlink r) (i_size r) v.

Record fsys := mkFsys {
  fs_disk : Z -> block;  (* memdisk *)
  fs_disksize : Z;
  fs_writes : list (Z * block);  (* every block write so far, oldest first *)
  fs_buf : nat -> buf;  (* bcache.buf *)
  fs_bprev : nat -> nat;  (* prev links; NBUF is bcache.head *)
  fs_bnext : nat -> nat;  (* next links *)
  fs_log : log;
  fs_sb : superblock;
  fs_inode : nat -> inode;  (* icache.inode *)
  fs_pid : Z;  (* myproc()->pid *)
  fs_cwd : nat;  (* myproc()->cwd *)
}.

Definition set_fs_disk (v : Z -> block) (r : fsys) : fsys :=
  mkFsys v (fs_disksize r) (fs_writes r) (fs_buf r) (fs_bprev r) (fs_bnext r) (fs_log r)
    (fs_sb r) (fs_inode r) (fs_pid r) (fs_cwd r).
Definition set_fs_disksize (v : Z) (r : fsys) : fsys :=
  mkFsys (fs_disk r) v (fs_writes r) (fs_buf r) (fs_bprev r) (fs_bnext r) (fs_log r)
    (fs_sb r) (fs_inode r) (fs_pid r) (fs_cwd r).
Definition set_fs_writes (v : list (Z * block)) (r : fsys) : fsys :=
  mkFsys (fs_disk r) (fs_disksize r) v (fs_buf r) (fs_bprev r) (fs_bnext r) (fs_log r)
    (fs_sb r) (fs_inode r) (fs_pid r) (fs_cwd r).
Definition set_fs_buf (v : nat -> buf) (r : fsys) : fsys :=
  mkFsys (fs_disk r) (fs_disksize r) (fs_writes r) v (fs_bprev r) (fs_bnext r)
    (fs_log r) (fs_sb r) (fs_inode r) (fs_pid r) (fs_cwd r).
Definition set_fs_bprev (v : nat -> nat) (r : fsys) : fsys :=
  mkFsys (fs_disk r) (fs_disksize r) (fs_writes r) (fs_buf r) v (fs_bnext r) (fs_log r)
    (fs_sb r) (fs_inode r) (fs_pid r) (fs_cwd r).
Definition set_fs_bnext (v : nat -> nat) (r : fsys) : fsys :=
  mkFsys (fs_disk r) (fs_disksize r) (fs_writes r) (fs_buf r) (fs_bprev r) v (fs_log r)
    (fs_sb r) (fs_inode r) (fs_pid r) (fs_cwd r).
Definition set_fs_log (v : log) (r : fsys) : fsys :=
  mkFsys (fs_disk r) (fs_disksize r) (fs_writes r) (fs_buf r) (fs_bprev r) (fs_bnext r)
    v (fs_sb r) (fs_inode r) (fs_pid r) (fs_cwd r).
Definition set_fs_sb (v : superblock) (r : fsys) : fsys :=
  mkFsys (fs_disk r) (fs_disksize r) (fs_writes r) (fs_buf r) (fs_bprev r) (fs_bnext r)
    (fs_log r) v (fs_inode r) (fs_pid r) (fs_cwd r).
Definition set_fs_inode (v : nat -> inode) (r : fsys) : fsys :=
  mkFsys (fs_disk r) (fs_disksize r) (fs_writes r) (fs_buf r) (fs_bprev r) (fs_bnext r)
    (fs_log r) (fs_sb r) v (fs_pid r) (fs_cwd r).
Definition set_fs_pid (v : Z) (r : fsys) : fsys :=
  mkFsys (fs_disk r) (fs_disksize r) (fs_writes r) (fs_buf r) (fs_bprev r) (fs_bnext r)
    (fs_log r) (fs_sb r) (fs_inode r) v (fs_cwd r).
Definition set_fs_cwd (v : nat) (r : fsys) : fsys :=
  mkFsys (fs_disk r) (fs_disksize r) (fs_writes r) (fs_buf r) (fs_bprev r) (fs_bnext r)
    (fs_log r) (fs_sb r) (fs_inode r) (fs_pid r) v.

(** Updates of one buffer, one inode, the log. *)
Definition upd_buf (i : nat) (f : buf -> buf) (s : fsys) : fsys := set_fs_buf (<[i := f (fs_buf s i)]> (fs_buf s)) s.
Definition upd_inode (i : nat) (f : inode -> inode) (s : fsys) : fsys := set_fs_inode (<[i := f (fs_inode s i)]> (fs_inode s)) s.
Definition upd_log (f : log -> log) (s : fsys) : fsys := set_fs_log (f (fs_log s)) s.
