(* ===== verification/Ide.v ===== *)
(** * ide.c

    The disk driver that the kernel is built with: requests wait in a queue
    linked through qnext, the first one is at the disk, and the interrupt at its
    end starts the next.  The disk is reached through ports; [IdeDev] are these
    accesses, [IdeLaws] what the ATA interface promises of them in terms of a
    [phase], and [phase_dev] a disk that keeps the promises.

    iderw, which sleeps until its request is done, is cut at the sleep. *)

From S2P Require Import Prelude FsState.

Local Open Scope c_scope.
Local Open Scope Z_scope.

Definition FSSIZE : Z := 2000.
Definition SECTOR_SIZE : Z := 512.
Definition IDE_BSY : Z := 128.
Definition IDE_DRDY : Z := 64.
Definition IDE_DF : Z := 32.
Definition IDE_ERR : Z := 1.
Definition IDE_CMD_READ : Z := 32.
Definition IDE_CMD_WRITE : Z := 48.
Definition IDE_CMD_RDMUL : Z := 196.
Definition IDE_CMD_WRMUL : Z := 197.

(** ** The ports *)

Class IdeDev (D : Type) := {
  inb_status : D -> Z * D;           (* inb(0x1f7) *)
  outb : Z -> Z -> D -> D;
  outsl : list Z -> D -> D;          (* outsl(0x1f0, data, BSIZE/4) *)
  insl : D -> list Z * D;            (* insl(0x1f0, data, BSIZE/4) *)
}.

Record idest (D : Type) := mkIdest {
  id_buf : nat -> buf;               (* bcache.buf *)
  id_qnext : nat -> option nat;      (* qnext of each *)
  idequeue : option nat;
  havedisk1 : bool;
  idelock : bool;
  id_asleep : nat -> bool;           (* is a process asleep on the buffer? *)
  id_dev : D;
}.
Arguments mkIdest {D} _ _ _ _ _ _ _.
Arguments id_buf {D} _ _.
Arguments id_qnext {D} _ _.
Arguments idequeue {D} _.
Arguments havedisk1 {D} _.
Arguments idelock {D} _.
Arguments id_asleep {D} _ _.
Arguments id_dev {D} _.

Section Driver.
Context {D : Type} `{!IdeDev D}.
Implicit Types (s : idest D).

Definition set_id_buf (v : nat -> buf) s : idest D :=
  mkIdest v (id_qnext s) (idequeue s) (havedisk1 s) (idelock s) (id_asleep s) (id_dev s).
Definition set_id_qnext (v : nat -> option nat) s : idest D :=
  mkIdest (id_buf s) v (idequeue s) (havedisk1 s) (idelock s) (id_asleep s) (id_dev s).
Definition set_idequeue (v : option nat) s : idest D :=
  mkIdest (id_buf s) (id_qnext s) v (havedisk1 s) (idelock s) (id_asleep s) (id_dev s).
Definition set_havedisk1 (v : bool) s : idest D :=
  mkIdest (id_buf s) (id_qnext s) (idequeue s) v (idelock s) (id_asleep s) (id_dev s).
Definition set_idelock (v : bool) s : idest D :=
  mkIdest (id_buf s) (id_qnext s) (idequeue s) (havedisk1 s) v (id_asleep s) (id_dev s).
Definition set_id_asleep (v : nat -> bool) s : idest D :=
  mkIdest (id_buf s) (id_qnext s) (idequeue s) (havedisk1 s) (idelock s) v (id_dev s).
Definition set_id_dev (v : D) s : idest D :=
  mkIdest (id_buf s) (id_qnext s) (idequeue s) (havedisk1 s) (idelock s) (id_asleep s) v.

Definition put_buf (b : nat) (f : buf -> buf) : M (idest D) unit :=
  modify (fun s => set_id_buf (<[b := f (id_buf s b)]> (id_buf s)) s).

Definition out (port v : Z) : M (idest D) unit := modify (fun s => set_id_dev (outb port v (id_dev s)) s).

Definition status : M (idest D) Z :=
  fun s => let '(r, d) := inb_status (id_dev s) in Done r (set_id_dev d s).

(** acquire spins while the lock is held; release as in spinlock.c. *)
Definition acquire_ide : M (idest D) unit :=
  h <- gets idelock ;;
  if (h : bool) then out_of_fuel else modify (set_idelock true).
Definition release_ide : M (idest D) unit := modify (set_idelock false).

(** ** The driver; the polls have fuel, of which one round is enough when the
    disk is ready *)

Fixpoint idewait_loop (fuel : nat) : M (idest D) Z :=
  match fuel with
  | O => out_of_fuel
  | S fuel' =>
      r <- status ;;
      if Z.land r (Z.lor IDE_BSY IDE_DRDY) =? IDE_DRDY then ret r else idewait_loop fuel'
  end.

Definition idewait (fuel : nat) (checkerr : bool) : M (idest D) Z :=
  r <- idewait_loop fuel ;;
  if checkerr && negb (Z.land r (Z.lor IDE_DF IDE_ERR) =? 0) then ret (-1) else ret 0.

(** Is disk 1 there?  [n] more reads of the status *)
Fixpoint find_disk1 (n : nat) : M (idest D) unit :=
  match n with
  | O => ret tt
  | S n' =>
      r <- status ;;
      if negb (r =? 0) then modify (set_havedisk1 true) else find_disk1 n'
  end.

(** initlock and ioapicenable apart *)
Definition ideinit (fuel : nat) : M (idest D) unit :=
  modify (set_idelock false) ;;
  idewait fuel false ;;
  out 502 (Z.lor 224 (Z.shiftl 1 4)) ;;
  find_disk1 1000 ;;
  out 502 (Z.lor 224 (Z.shiftl 0 4)).

Definition idestart (fuel : nat) (b : option nat) : M (idest D) unit :=
  match b with
  | None => panic "idestart"
  | Some b =>
      bf <- gets (fun s => id_buf s b) ;;
      if FSSIZE <=? bf_blockno bf then panic "incorrect blockno"
      else
        let sector_per_block := BSIZE / SECTOR_SIZE in
        let sector := bf_blockno bf * sector_per_block in
        let read_cmd := if sector_per_block =? 1 then IDE_CMD_READ else IDE_CMD_RDMUL in
        let write_cmd := if sector_per_block =? 1 then IDE_CMD_WRITE else IDE_CMD_WRMUL in
        if 7 <? sector_per_block then panic "idestart"
        else
          idewait fuel false ;;
          out 1014 0 ;;
          out 498 sector_per_block ;;
          out 499 (Z.land sector 255) ;;
          out 500 (Z.land (Z.shiftr sector 8) 255) ;;
          out 501 (Z.land (Z.shiftr sector 16) 255) ;;
          out 502 (Z.lor (Z.lor 224 (Z.shiftl (Z.land (bf_dev bf) 1) 4)) (Z.land (Z.shiftr sector 24) 15)) ;;
          if bf_dirty bf then
            out 503 write_cmd ;;
            modify (fun s => set_id_dev (outsl (bf_data bf) (id_dev s)) s)
          else out 503 read_cmd
  end.

(** wakeup(b) *)
Definition wake (b : nat) : M (idest D) unit := modify (fun s => set_id_asleep (<[b := false]> (id_asleep s)) s).

Definition ideintr (fuel : nat) : M (idest D) unit :=
  acquire_ide ;;
  q <- gets idequeue ;;
  match q with
  | None => release_ide
  | Some b =>
      next <- gets (fun s => id_qnext s b) ;;
      modify (set_idequeue next) ;;
      bf <- gets (fun s => id_buf s b) ;;
      (if negb (bf_dirty bf) then
         r <- idewait fuel true ;;
         when (0 <=? r) (fun s =>
           let '(l, d) := insl (id_dev s) in
           Done tt (set_id_buf (<[b := set_bf_data l (id_buf s b)]> (id_buf s)) (set_id_dev d s)))
       else ret tt) ;;
      put_buf b (set_bf_valid true) ;;
      put_buf b (set_bf_dirty false) ;;
      wake b ;;
      q <- gets idequeue ;;
      match q with
      | None => ret tt
      | Some b' => idestart fuel (Some b')
      end ;;
      release_ide
  end.

(** The loop to the end of the queue: [pp] is &idequeue (None) or the qnext of
    a buffer *)
Fixpoint append_loop (fuel : nat) (pp : option nat) (b : nat) : M (idest D) unit :=
  match fuel with
  | O => out_of_fuel
  | S fuel' =>
      p <- gets (fun s => match pp with None => idequeue s | Some i => id_qnext s i end) ;;
      match p with
      | Some i => append_loop fuel' (Some i) b
      | None =>
          match pp with
          | None => modify (set_idequeue (Some b))
          | Some i => modify (fun s => set_id_qnext (<[i := Some b]> (id_qnext s)) s)
          end
      end
  end.

Definition needs_io (bf : buf) : bool := negb (bf_valid bf && negb (bf_dirty bf)).

(** The loop of iderw, from its test to the sleep or to the return: is the
    request done? *)
Definition iderw_wait (b : nat) : M (idest D) bool :=
  bf <- gets (fun s => id_buf s b) ;;
  if needs_io bf then
    modify (fun s => set_id_asleep (<[b := true]> (id_asleep s)) s) ;;
    release_ide ;;
    ret false
  else release_ide ;; ret true.

(** iderw by the process [pid], up to the first sleep *)
Definition iderw_begin (fuel : nat) (pid : Z) (b : nat) : M (idest D) bool :=
  bf <- gets (fun s => id_buf s b) ;;
  if negb (sl_locked (bf_lock bf) && (sl_pid (bf_lock bf) =? pid)) then panic "iderw: buf not locked"
  else if negb (needs_io bf) then panic "iderw: nothing to do"
  else
    have1 <- gets havedisk1 ;;
    if negb (bf_dev bf =? 0) && negb have1 then panic "iderw: ide disk 1 not present"
    else
      acquire_ide ;;
      modify (fun s => set_id_qnext (<[b := None]> (id_qnext s)) s) ;;
      append_loop (S NBUF) None b ;;
      q <- gets idequeue ;;
      when (bool_decide (q = Some b)) (idestart fuel (Some b)) ;;
      iderw_wait b.

(** iderw after a wakeup: sleep has taken the lock again. *)
Definition iderw_resume (b : nat) : M (idest D) bool :=
  acquire_ide ;;
  iderw_wait b.
End Driver.
