(* ===== verification/IdeProps.v ===== *)
(** * The disk driver implements a disk

    [phase]: what the disk is doing, as the ATA interface has it.  [aide]: a
    disk that serves its pending requests one after the other, each in one
    step, as memide.c does.  The driver with its queue, its interrupts and its
    sleeping processes is related to it by [sim]. *)

From S2P Require Import Prelude FsState Ide.

Local Open Scope c_scope.
Local Open Scope Z_scope.

(** ** What the disk promises *)

Abbreviation disk := (Z -> Z -> list Z).

Inductive command := CRead (unit lba : Z) | CWrite (unit lba : Z) (data : list Z).

Definition run_command (c : command) (k : disk) : disk :=
  match c with
  | CRead _ _ => k
  | CWrite u l data => fun u' l' => if decide (u' = u /\ l' = l) then data else k u' l'
  end.

Inductive phase :=
| Idle (regs : Z -> Z) (k : disk)
| WaitData (unit lba : Z) (k : disk)
| Busy (c : command) (k : disk)
| Finished (c : command) (err : bool) (k : disk).

Definition disk_of (p : phase) : disk :=
  match p with Idle _ k | WaitData _ _ k | Busy _ k | Finished _ _ k => k end.

Definition ready (p : phase) : bool :=
  match p with Idle _ _ | Finished _ _ _ => true | _ => false end.
Definition failed (p : phase) : bool := match p with Finished _ e _ => e | _ => false end.
Definition finished (p : phase) : bool := match p with Finished _ _ _ => true | _ => false end.

(** No data waits to be read: a command can be given. *)
Definition accepting (p : phase) : bool :=
  match p with Idle _ _ | Finished (CWrite _ _ _) _ _ | Finished (CRead _ _) true _ => true | _ => false end.

(** The unit and the sector number in the registers *)
Definition reg_unit (r : Z -> Z) : Z := (r 502 / 16) `mod` 2.
Definition reg_lba (r : Z -> Z) : Z := r 499 + 256 * r 500 + 65536 * r 501 + 16777216 * (r 502 `mod` 16).

Class IdeLaws (D : Type) `{!IdeDev D} := {
  phase_of : D -> phase;
  dev_step : D -> D -> Prop;    (* what the disk does by itself *)
  status_ready : forall d, ready (phase_of d) = true ->
    phase_of (inb_status d).2 = phase_of d /\ Z.land (inb_status d).1 (Z.lor IDE_BSY IDE_DRDY) = IDE_DRDY /\
    (Z.land (inb_status d).1 (Z.lor IDE_DF IDE_ERR) =? 0) = negb (failed (phase_of d));
  out_control : forall d, accepting (phase_of d) = true -> exists r, phase_of (outb 1014 0 d) = Idle r (disk_of (phase_of d));
  out_register : forall d r k port v, phase_of d = Idle r k -> 498 <= port <= 502 ->
    phase_of (outb port v d) = Idle (<[port := v]> r) k;
  out_read : forall d r k, phase_of d = Idle r k -> r 498 = 1 ->
    phase_of (outb 503 IDE_CMD_READ d) = Busy (CRead (reg_unit r) (reg_lba r)) k;
  out_write : forall d r k, phase_of d = Idle r k -> r 498 = 1 ->
    phase_of (outb 503 IDE_CMD_WRITE d) = WaitData (reg_unit r) (reg_lba r) k;
  out_data : forall d u l k data, phase_of d = WaitData u l k -> Z.of_nat (length data) = BSIZE ->
    phase_of (outsl data d) = Busy (CWrite u l data) k;
  in_data : forall d u l k, phase_of d = Finished (CRead u l) false k ->
    (insl d).1 = k u l /\ exists r, phase_of (insl d).2 = Idle r k;
  step_finishes : forall d d', dev_step d d' -> exists c k err, phase_of d = Busy c k /\
    phase_of d' = Finished c err (if (err : bool) then k else run_command c k);
  step_possible : forall d c k, phase_of d = Busy c k -> exists d', dev_step d d' /\ failed (phase_of d') = false;
}.

(** ** The abstract disk *)

Record aide := mkAide {
  a_disk : disk;
  a_buf : nat -> buf;
  a_pending : list nat;
}.

(** What memide.c's iderw does to a buffer and the disk *)
Definition cmd_of (bf : buf) : command :=
  if bf_dirty bf then CWrite (bf_dev bf) (bf_blockno bf) (bf_data bf) else CRead (bf_dev bf) (bf_blockno bf).

Definition serve (b : nat) (q : list nat) (a : aide) : aide :=
  let bf := a_buf a b in
  let data := if bf_dirty bf then bf_data bf else a_disk a (bf_dev bf) (bf_blockno bf) in
  mkAide (run_command (cmd_of bf) (a_disk a))
    (<[b := set_bf_dirty false (set_bf_valid true (set_bf_data data bf))]> (a_buf a)) q.

(** ** The driver *)

Inductive ievent := IRequest (pid : Z) (b : nat) | IInterrupt | IResume (b : nat).

(** The answer of the abstract disk: a request joins the end of the line, an
    interrupt serves its head. *)
Definition areact (e : ievent) (a : aide) : aide :=
  match e with
  | IRequest _ b => mkAide (a_disk a) (a_buf a) (a_pending a ++ [b])
  | IInterrupt => match a_pending a with [] => a | b :: q => serve b q a end
  | IResume _ => a
  end.

Section Sim.
Context {D : Type} `{!IdeDev D} `{!IdeLaws D}.
Implicit Types (s : idest D).

Definition run_event (fuel : nat) (e : ievent) : M (idest D) bool :=
  match e with
  | IRequest pid b => iderw_begin fuel pid b
  | IInterrupt => ideintr fuel ;; ret true
  | IResume b => iderw_resume b
  end.

(** A buffer that may be handed to iderw *)
Record request_ok (have1 : bool) (bf : buf) : Prop := mkRequestOk {
  rq_needs : needs_io bf = true;
  rq_block : 0 <= bf_blockno bf < FSSIZE;
  rq_dev : bf_dev bf = 0 \/ (bf_dev bf = 1 /\ have1 = true);
  rq_data : Z.of_nat (length (bf_data bf)) = BSIZE;
}.

(** When an event can happen: a request comes from the process that has the
    buffer, an interrupt from the disk (or by mistake, when nobody waits), and
    a process goes on when it has been woken. *)
Definition enabled s (e : ievent) : Prop :=
  match e with
  | IRequest pid b => (b < NBUF)%nat /\ id_asleep s b = false /\ bf_lock (id_buf s b) = mkSleeplock true pid /\
      request_ok (havedisk1 s) (id_buf s b)
  | IInterrupt => idequeue s = None \/ (finished (phase_of (id_dev s)) = true /\ failed (phase_of (id_dev s)) = false)
  | IResume b => id_asleep s b = false /\ needs_io (id_buf s b) = false
  end.

Fixpoint is_queue (next : nat -> option nat) (h : option nat) (q : list nat) : Prop :=
  match q with
  | [] => h = None
  | b :: q' => h = Some b /\ is_queue next (next b) q'
  end.

(** The disk works for the first request. *)
Definition at_work (p : phase) (bufs : nat -> buf) (q : list nat) (k : disk) : Prop :=
  match q with
  | [] => accepting p = true /\ disk_of p = k
  | b :: _ => p = Busy (cmd_of (bufs b)) k \/
      exists err, p = Finished (cmd_of (bufs b)) err (if (err : bool) then k else run_command (cmd_of (bufs b)) k)
  end.

Record sim s (a : aide) : Prop := mkSim {
  sm_buf : forall b, a_buf a b = id_buf s b;
  sm_queue : is_queue (id_qnext s) (idequeue s) (a_pending a);
  sm_nodup : NoDup (a_pending a);
  sm_ok : forall b, b ∈ a_pending a -> (b < NBUF)%nat /\ request_ok (havedisk1 s) (id_buf s b);
  sm_lock : idelock s = false;
  sm_asleep : forall b, id_asleep s b = true <-> b ∈ a_pending a;
  sm_work : at_work (phase_of (id_dev s)) (id_buf s) (a_pending a) (a_disk a);
}.

(** ** Polling and starting *)

Lemma idewait_ready fuel check s :
  ready (phase_of (id_dev s)) = true -> exists d,
    idewait (S fuel) check s = Done (if check && failed (phase_of (id_dev s)) then -1 else 0) (set_id_dev d s) /\
    phase_of d = phase_of (id_dev s).
Proof.
  intros Hr. destruct (status_ready _ Hr) as (Hp & Hst & Herr). exists (inb_status (id_dev s)).2. split; [|done].
  unfold idewait, idewait_loop, status, bind. destruct (inb_status (id_dev s)) as [r d]. cbn [fst snd] in *.
  rewrite Hst. cbn [Z.eqb]. unfold ret. rewrite Z.eqb_refl, Herr, negb_involutive. by destruct check, (failed _).
Qed.

Lemma sector_registers sector dev (r : Z -> Z) :
  0 <= sector < 268435456 -> (dev = 0 \/ dev = 1) ->
  r 499 = Z.land sector 255 -> r 500 = Z.land (Z.shiftr sector 8) 255 -> r 501 = Z.land (Z.shiftr sector 16) 255 ->
  r 502 = Z.lor (Z.lor 224 (Z.shiftl (Z.land dev 1) 4)) (Z.land (Z.shiftr sector 24) 15) ->
  reg_unit r = dev /\ reg_lba r = sector.
Proof.
  intros Hs Hdev H3 H4 H5 H6. unfold reg_unit, reg_lba. rewrite H3, H4, H5, H6.
  change 255 with (Z.ones 8). change 15 with (Z.ones 4). rewrite !Z.land_ones, !Z.shiftr_div_pow2 by lia.
  set (hi := (sector / 2 ^ 24) `mod` 2 ^ 4). assert (0 <= hi < 16) as Hhi by (unfold hi; apply Z.mod_pos_bound; lia).
  assert (exists e, (dev = 0 /\ e = 224 \/ dev = 1 /\ e = 240) /\ Z.lor (Z.lor 224 (Z.shiftl (Z.land dev 1) 4)) hi = e + hi) as (e & He & ->).
  { clearbody hi. destruct Hdev as [-> | ->]; [exists 224|exists 240]; (split; [auto|]);
      [change (Z.lor 224 (Z.shiftl (Z.land 0 1) 4)) with 224|change (Z.lor 224 (Z.shiftl (Z.land 1 1) 4)) with 240];
      by apply (lor_low _ hi 4). }
  change (2 ^ 8) with 256. change (2 ^ 16) with 65536. unfold hi. change (2 ^ 24) with 16777216. change (2 ^ 4) with 16.
  destruct He as [[-> ->]|[-> ->]]; split; zlia.
Qed.

Lemma accepting_ready p : accepting p = true -> ready p = true.
Proof. by destruct p as [| | |[] []]. Qed.

(** The registers as idestart leaves them *)
Definition start_regs (bf : buf) (r : Z -> Z) : Z -> Z :=
  let sector := bf_blockno bf * 1 in
  <[502 := Z.lor (Z.lor 224 (Z.shiftl (Z.land (bf_dev bf) 1) 4)) (Z.land (Z.shiftr sector 24) 15)]>
  (<[501 := Z.land (Z.shiftr sector 16) 255]> (<[500 := Z.land (Z.shiftr sector 8) 255]>
  (<[499 := Z.land sector 255]> (<[498 := 1]> r)))).

Lemma start_regs_ok have1 bf r :
  request_ok have1 bf -> start_regs bf r 498 = 1 /\ reg_unit (start_regs bf r) = bf_dev bf /\ reg_lba (start_regs bf r) = bf_blockno bf.
Proof.
  intros [_ Hb Hd _]. split; [reflexivity|]. replace (bf_blockno bf) with (bf_blockno bf * 1) by lia.
  apply sector_registers; try reflexivity; [unfold FSSIZE in *; lia|tauto].
Qed.

Lemma idestart_ok fuel b s :
  accepting (phase_of (id_dev s)) = true -> request_ok (havedisk1 s) (id_buf s b) ->
  wp (idestart (S fuel) (Some b)) (fun _ s' => exists d, s' = set_id_dev d s /\
    phase_of d = Busy (cmd_of (id_buf s b)) (disk_of (phase_of (id_dev s)))) s.
Proof.
  intros Ha Hrq. pose proof Hrq as [_ Hb _ Hdata]. set (bf := id_buf s b) in *. unfold idestart. apply wp_bind, wp_gets. fold bf.
  destruct (Z.leb_spec FSSIZE (bf_blockno bf)); [lia|]. change (BSIZE / SECTOR_SIZE) with 1. cbn [Z.eqb Pos.eqb Z.ltb Z.compare].
  destruct (idewait_ready fuel false s (accepting_ready _ Ha)) as (d0 & Hw & Hp0). rewrite <- Hp0 in Ha.
  apply wp_bind. eapply wp_intro; [exact Hw|]. destruct (out_control d0 Ha) as [r Hr]. rewrite Hp0 in Hr.
  set (k := disk_of (phase_of (id_dev s))) in *. unfold out. do 6 apply wp_bind, wp_modify. cbn [id_dev set_id_dev].
  set (d1 := outb 502 _ _). assert (phase_of d1 = Idle (start_regs bf r) k) as H1.
  { unfold d1, start_regs. repeat (apply out_register; [|lia]). exact Hr. }
  destruct (start_regs_ok _ _ r Hrq) as (H498 & Hun & Hlba). clearbody d1. unfold cmd_of. destruct (bf_dirty bf).
  - apply wp_bind, wp_modify, wp_modify. eexists. split; [reflexivity|]. cbn [id_dev set_id_dev].
    rewrite (out_data _ _ _ _ _ (out_write _ _ _ H1 H498) Hdata). by rewrite Hun, Hlba.
  - apply wp_modify. eexists. split; [reflexivity|]. cbn [id_dev set_id_dev].
    rewrite (out_read _ _ _ H1 H498). by rewrite Hun, Hlba.
Qed.

(** ** The queue *)

Lemma is_queue_ext next next' h q : (forall b, b ∈ q -> next' b = next b) -> is_queue next h q -> is_queue next' h q.
Proof.
  revert h. induction q as [|b q IH]; intros h Heq; [done|]. intros [-> Hq]. split; [done|].
  rewrite Heq by set_solver. apply IH; [set_solver|done].
Qed.

Lemma queue_length (q : list nat) : NoDup q -> (forall b, b ∈ q -> (b < NBUF)%nat) -> (length q <= NBUF)%nat.
Proof.
  intros Hn Hb. rewrite <- (length_seq NBUF 0). apply submseteq_length, NoDup_submseteq; [done|].
  intros b Hbq. apply elem_of_seq. specialize (Hb b Hbq). lia.
Qed.

(** The slot behind the last request *)
Definition end_of (pp : option nat) (q : list nat) : option nat := match last q with Some i => Some i | None => pp end.

Lemma append_loop_ok b q : forall fuel pp s,
  (length q < fuel)%nat -> is_queue (id_qnext s) (match pp with None => idequeue s | Some i => id_qnext s i end) q ->
  append_loop fuel pp b s = Done tt (match end_of pp q with
    | None => set_idequeue (Some b) s
    | Some i => set_id_qnext (<[i := Some b]> (id_qnext s)) s end).
Proof.
  induction q as [|i q IH]; intros fuel pp s Hf Hq; (destruct fuel as [|fuel]; [cbn in Hf; lia|]); cbn [append_loop];
    unfold bind, gets; cbn [is_queue] in Hq.
  - rewrite Hq. by destruct pp.
  - destruct Hq as [-> Hq]. cbn [length] in Hf. rewrite (IH fuel (Some i) s) by (done || lia).
    unfold end_of. rewrite last_cons. by destruct (last q).
Qed.

Lemma is_queue_snoc next h q b i :
  is_queue next h q -> last q = Some i -> NoDup q -> (b ∉ q) -> next b = None -> is_queue (<[i := Some b]> next) h (q ++ [b]).
Proof.
  revert h. induction q as [|c q IH]; intros h Hq Hl Hn Hb Hnb; [done|]. destruct Hq as [-> Hq]. rewrite last_cons in Hl.
  apply NoDup_cons in Hn as [Hc Hn]. cbn [app is_queue]. split; [done|]. destruct (last q) as [j|] eqn:Hj.
  - injection Hl as ->. rewrite fn_lookup_insert_ne; [apply IH; try done; set_solver|].
    intros ->. apply Hc. by apply last_Some_elem_of.
  - injection Hl as ->. apply last_None in Hj as ->. cbn [is_queue app] in *. rewrite fn_lookup_insert. split; [done|].
    rewrite fn_lookup_insert_ne by set_solver. done.
Qed.

(** ** Requests *)

Lemma iderw_begin_ok fuel pid b s a :
  sim s a -> enabled s (IRequest pid b) ->
  wp (iderw_begin (S fuel) pid b) (fun r s' => r = false /\ sim s' (areact (IRequest pid b) a)) s.
Proof.
  intros [Hbuf Hq Hnd Hok Hlk Has Hwk] (Hbn & Hna & Hlock & Hrq). pose proof Hrq as [Hneed _ Hdev _].
  assert (b ∉ a_pending a) as Hb by (rewrite <- Has; congruence).
  unfold iderw_begin. apply wp_bind, wp_gets. rewrite Hlock, Hneed. cbn [sl_locked sl_pid andb]. rewrite Z.eqb_refl. cbn [negb].
  apply wp_bind, wp_gets. assert (negb (bf_dev (id_buf s b) =? 0) && negb (havedisk1 s) = false) as ->.
  { destruct Hdev as [->|[_ ->]]; [done|by rewrite andb_false_r]. }
  apply wp_bind. unfold acquire_ide. apply wp_bind, wp_gets. rewrite Hlk. apply wp_modify, wp_bind, wp_modify, wp_bind.
  set (s1 := set_id_qnext _ _). assert (is_queue (id_qnext s1) (idequeue s1) (a_pending a)) as Hq1.
  { eapply is_queue_ext; [|exact Hq]. intros c Hc. subst s1. cbn. rewrite fn_lookup_insert_ne; [done|]. by intros ->. }
  assert (id_qnext s1 b = None) as Hb1 by (subst s1; cbn; by rewrite fn_lookup_insert).
  eapply wp_intro; [apply (append_loop_ok b (a_pending a) (S NBUF) None s1); [|exact Hq1]|].
  { pose proof (queue_length (a_pending a) Hnd ltac:(intros c Hc; by apply Hok)). lia. }
  apply wp_bind, wp_gets. destruct (a_pending a) as [|h q] eqn:Hp.
  - cbn [end_of last idequeue set_idequeue]. rewrite bool_decide_true by done. cbn [when]. destruct Hwk as [Hacc Hdisk].
    apply wp_bind. eapply wp_mono; [by apply (idestart_ok fuel b)|]. intros [] s2 (d & -> & Hph).
    unfold iderw_wait. apply wp_bind, wp_gets. cbn [id_buf set_id_dev set_idequeue]. change (id_buf s1) with (id_buf s). rewrite Hneed.
    apply wp_bind, wp_modify, wp_bind, wp_modify, wp_ret. split; [done|]. cbn [areact]. rewrite Hp. cbn [app].
    split; cbn; try done.
    + apply NoDup_singleton.
    + intros c ->%list_elem_of_singleton. done.
    + intros c. rewrite list_elem_of_singleton. destruct (decide (b = c)) as [->|Hne].
      * by rewrite fn_lookup_insert.
      * rewrite fn_lookup_insert_ne by done. rewrite Has. set_solver.
    + left. by rewrite Hph, <- Hdisk.
  - destruct (last (h :: q)) as [i|] eqn:Hl; [|by apply last_None in Hl]. unfold end_of. rewrite Hl.
    assert (idequeue s1 = Some h) as Hh by apply Hq1.
    cbn [idequeue set_id_qnext]. change (idequeue s) with (idequeue s1). rewrite Hh, bool_decide_false by (intros [= ->]; set_solver).
    cbn [when]. apply wp_bind, wp_ret. unfold iderw_wait. apply wp_bind, wp_gets. cbn [id_buf set_id_qnext].
    change (id_buf s1) with (id_buf s). rewrite Hneed. apply wp_bind, wp_modify, wp_bind, wp_modify, wp_ret. split; [done|].
    cbn [areact]. rewrite Hp. split; cbn [a_buf a_pending a_disk id_buf id_qnext idequeue havedisk1 idelock id_asleep id_dev set_id_asleep set_idelock set_id_qnext]; try done.
    + by apply is_queue_snoc.
    + apply NoDup_app. split_and!; [done|set_solver|apply NoDup_singleton].
    + intros c [Hc| ->%list_elem_of_singleton]%elem_of_app; [by apply Hok|done].
    + intros c. rewrite elem_of_app, list_elem_of_singleton. destruct (decide (b = c)) as [->|Hne].
      * rewrite fn_lookup_insert. set_solver.
      * rewrite fn_lookup_insert_ne by done. change (id_asleep s1 c) with (id_asleep s c). rewrite Has. set_solver.
Qed.

(** ** Interrupts *)

(** What ideintr does once the data of the first request is in place: [s] has
    the buffers [bufs] and the disk accepts commands. *)
Definition finish (fuel : nat) (b : nat) : M (idest D) unit :=
  put_buf b (set_bf_valid true) ;;
  put_buf b (set_bf_dirty false) ;;
  wake b ;;
  q <- gets idequeue ;;
  match q with
  | None => ret tt
  | Some b' => idestart fuel (Some b')
  end ;;
  release_ide.

Lemma finish_ok fuel b q s a k data :
  a_pending a = b :: q -> NoDup (b :: q) -> is_queue (id_qnext s) (idequeue s) q ->
  (forall c, c ∈ b :: q -> (c < NBUF)%nat /\ request_ok (havedisk1 s) (a_buf a c)) ->
  (forall c, id_asleep s c = true <-> c ∈ b :: q) ->
  (forall c, id_buf s c = if decide (c = b) then set_bf_data data (a_buf a b) else a_buf a c) ->
  data = (if bf_dirty (a_buf a b) then bf_data (a_buf a b) else a_disk a (bf_dev (a_buf a b)) (bf_blockno (a_buf a b))) ->
  accepting (phase_of (id_dev s)) = true -> disk_of (phase_of (id_dev s)) = k -> k = run_command (cmd_of (a_buf a b)) (a_disk a) ->
  failed (phase_of (id_dev s)) = false ->
  wp (finish (S fuel) b) (fun _ s' => sim s' (serve b q a) /\
    (b :: q <> [] -> failed (phase_of (id_dev s')) = false)) s.
Proof.
  intros Hp Hnd Hq Hok Has Hbuf Hdata Hacc Hdk Hk Hnf. unfold finish, put_buf, wake. do 3 apply wp_bind, wp_modify. apply wp_bind, wp_gets.
  set (s1 := set_id_asleep _ _). apply NoDup_cons in Hnd as [Hb Hnd].
  assert (forall c, id_buf s1 c = a_buf (serve b q a) c) as Hbuf1.
  { intros c. subst s1. cbn -[decide]. rewrite Hbuf, decide_True by done. destruct (decide (b = c)) as [<-|Hne].
    - rewrite !fn_lookup_insert. by rewrite <- Hdata.
    - rewrite !fn_lookup_insert_ne by done. rewrite Hbuf, decide_False by congruence. done. }
  assert (forall c, id_asleep s1 c = true <-> c ∈ q) as Has1.
  { intros c. subst s1. cbn -[decide]. destruct (decide (b = c)) as [<-|Hne]; [by rewrite fn_lookup_insert|].
    rewrite fn_lookup_insert_ne by done. rewrite Has. set_solver. }
  assert (forall c, c ∈ q -> (c < NBUF)%nat /\ request_ok (havedisk1 s1) (id_buf s1 c)) as Hok1.
  { intros c Hc. destruct (Hok c) as [Hcn Hcr]; [set_solver|]. split; [done|]. rewrite Hbuf1. cbn.
    rewrite fn_lookup_insert_ne by set_solver. done. }
  change (idequeue s1) with (idequeue s). change (id_dev s) with (id_dev s1) in Hacc, Hdk, Hnf.
  assert (is_queue (id_qnext s1) (idequeue s1) q) as Hq1 by exact Hq. clearbody s1.
  destruct q as [|b' q]; cbn [is_queue] in Hq.
  - rewrite Hq. apply wp_bind, wp_ret, wp_modify. split; [|done]. split; cbn -[serve disk_of accepting]; try done.
    split; [done|]. by rewrite Hdk, Hk.
  - destruct Hq as [-> Hq]. apply wp_bind. destruct (Hok1 b') as [_ Hrq]; [left|].
    eapply wp_mono; [by apply (idestart_ok fuel b')|]. intros [] s2 (d & -> & Hph). apply wp_modify.
    split; [|cbn; by rewrite Hph]. split; cbn -[serve is_queue]; try done. left. rewrite Hph, Hdk, Hk. done.
Qed.

Lemma ideintr_ok fuel s a :
  sim s a -> enabled s IInterrupt -> wp (ideintr (S fuel)) (fun _ s' => sim s' (areact IInterrupt a) /\
    (a_pending a <> [] -> failed (phase_of (id_dev s')) = false)) s.
Proof.
  intros [Hbuf Hq Hnd Hok Hlk Has Hwk] Hen. unfold ideintr. apply wp_bind. unfold acquire_ide. apply wp_bind, wp_gets.
  rewrite Hlk. apply wp_modify, wp_bind, wp_gets. cbn [idequeue set_idelock areact]. destruct (a_pending a) as [|b q] eqn:Hp.
  { cbn [is_queue] in Hq. rewrite Hq. apply wp_modify. split; [|done]. split; rewrite ?Hp; cbn; try done. }
  destruct Hq as [Hh Hq]. rewrite Hh. apply wp_bind, wp_gets, wp_bind, wp_modify, wp_bind, wp_gets.
  cbn [id_qnext id_buf idequeue set_idelock set_idequeue]. cbn [enabled] in Hen.
  destruct Hen as [Hen|[Hfin Hnf]]; [congruence|]. cbn [at_work] in Hwk. destruct Hwk as [Hw|[err Hw]]; [by rewrite Hw in Hfin|].
  rewrite Hw in Hnf. cbn [failed] in Hnf. subst err. set (s1 := set_idequeue _ _).
  assert (phase_of (id_dev s1) = Finished (cmd_of (id_buf s b)) false (run_command (cmd_of (id_buf s b)) (a_disk a))) as Hw1 by exact Hw.
  assert (forall c, c ∈ b :: q -> (c < NBUF)%nat /\ request_ok (havedisk1 s) (a_buf a c)) as Hok1.
  { intros c Hc. rewrite Hbuf. by apply Hok. }
  fold (finish (S fuel) b). apply wp_bind. pose proof (Hbuf b) as Hbb. destruct (bf_dirty (id_buf s b)) eqn:Hdirty; cbn [negb].
  - apply wp_ret. eapply (finish_ok fuel b q s1 a _ (bf_data (a_buf a b))); try done.
    + intros c. change (id_buf s1 c) with (id_buf s c). rewrite <- Hbuf. case_decide as Hc; [|done]. subst c. by destruct (a_buf a b).
    + by rewrite Hbb, Hdirty.
    + rewrite Hw1. unfold cmd_of. by rewrite Hdirty.
    + rewrite Hw1, Hbb. done.
    + by rewrite Hw1.
  - destruct (idewait_ready fuel true s1) as (d & Hwait & Hpd); [by rewrite Hw1|]. rewrite Hw1 in Hpd, Hwait. cbn [failed andb] in Hwait.
    apply wp_bind. eapply wp_intro; [exact Hwait|]. cbn [Z.leb Z.compare when].
    unfold cmd_of in Hpd. rewrite Hdirty in Hpd. cbn [run_command] in Hpd. destruct (in_data _ _ _ _ Hpd) as [Hl [r Hr]].
    cbn [id_dev set_id_dev]. destruct (insl d) as [l d'] eqn:Hin. cbn [fst snd] in Hl, Hr.
    eapply wp_intro; [cbv beta; cbn [id_dev set_id_dev]; rewrite Hin; reflexivity|].
    eapply (finish_ok fuel b q _ a _ l); try done; cbn [id_buf id_dev set_id_buf set_id_dev].
    + intros c. case_decide as Hc; [subst c; rewrite fn_lookup_insert|rewrite fn_lookup_insert_ne by done; by rewrite Hbuf].
      change (id_buf s1 b) with (id_buf s b). by rewrite <- Hbuf.
    + by rewrite Hbb, Hdirty.
    + by rewrite Hr.
    + rewrite Hr. cbn [disk_of]. unfold cmd_of. by rewrite Hbb, Hdirty.
    + by rewrite Hr.
Qed.

Lemma iderw_resume_ok b s a :
  sim s a -> enabled s (IResume b) -> wp (iderw_resume b) (fun r s' => r = true /\ sim s' a) s.
Proof.
  intros [Hbuf Hq Hnd Hok Hlk Has Hwk] [_ Hdone]. unfold iderw_resume, acquire_ide. apply wp_bind, wp_bind, wp_gets.
  rewrite Hlk. apply wp_modify. unfold iderw_wait. apply wp_bind, wp_gets. cbn [id_buf set_idelock]. rewrite Hdone.
  apply wp_bind, wp_modify, wp_ret. split; [done|]. by split.
Qed.

(** The disk at work *)
Lemma ide_driver_step s a d : sim s a -> dev_step (id_dev s) d -> sim (set_id_dev d s) a.
Proof.
  intros [Hbuf Hq Hnd Hok Hlk Has Hwk] Hd. destruct (step_finishes _ _ Hd) as (c & k & err & Hb & Hf).
  split; cbn; try done. destruct (a_pending a) as [|b q]; cbn [at_work] in *.
  - rewrite Hb in Hwk. by destruct Hwk.
  - rewrite Hb in Hwk. destruct Hwk as [[= -> ->]|[e' Hw]]; [|done]. right. by exists err.
Qed.

(** C23: the disk driver implements a disk that serves one request after the
    other.  Whatever the driver is called for, a request, an interrupt or a
    process that goes on, the call ends and does what the abstract disk does: a
    request joins the end of the line, an interrupt serves the first one, and
    serving means that the block is written, or its content is in the buffer,
    and the buffer is valid and clean.  What the disk does meanwhile, and what
    processes do with buffers that do not wait, keeps the relation.  One status
    read suffices when the disk is ready, so any positive fuel does. *)
Theorem ide_driver_refines s a :
  sim s a ->
  (forall fuel e, enabled s e -> wp (run_event (S fuel) e) (fun r s' =>
     sim s' (areact e a) /\ r = match e with IRequest _ _ => false | _ => true end) s) /\
  (forall d, dev_step (id_dev s) d -> sim (set_id_dev d s) a) /\
  (forall b bf, id_asleep s b = false ->
     sim (set_id_buf (<[b := bf]> (id_buf s)) s) (mkAide (a_disk a) (<[b := bf]> (a_buf a)) (a_pending a))).
Proof.
  intros Hs. split_and!.
  - intros fuel [pid b| |b] He; cbn [run_event].
    + eapply wp_mono; [by apply iderw_begin_ok|]. by intros r s' [-> ?].
    + apply wp_bind. eapply wp_mono; [by apply ideintr_ok|]. intros [] s' [? _]. by apply wp_ret.
    + eapply wp_mono; [by apply iderw_resume_ok|]. by intros r s' [-> ?].
  - intros d. by apply ide_driver_step.
  - intros b bf Hna. destruct Hs as [Hbuf Hq Hnd Hok Hlk Has Hwk].
    assert (b ∉ a_pending a) as Hb by (rewrite <- Has; congruence). split; cbn -[decide]; try done.
    + intros c. destruct (decide (b = c)) as [->|]; [by rewrite !fn_lookup_insert|by rewrite !fn_lookup_insert_ne].
    + intros c Hc. rewrite fn_lookup_insert_ne by (by intros ->). by apply Hok.
    + destruct (a_pending a) as [|c q]; [done|]. cbn [at_work]. rewrite fn_lookup_insert_ne by set_solver. exact Hwk.
Qed.

(** ** Every request is served *)

(** The disk ends its work, if it has not, and the interrupt comes. *)
Inductive round (fuel : nat) s s' : Prop :=
| round_now : failed (phase_of (id_dev s)) = false -> finished (phase_of (id_dev s)) = true ->
    ideintr (S fuel) s = Done tt s' -> round fuel s s'
| round_wait d : dev_step (id_dev s) d -> failed (phase_of d) = false ->
    ideintr (S fuel) (set_id_dev d s) = Done tt s' -> round fuel s s'.

Lemma round_serves fuel s a b q :
  sim s a -> failed (phase_of (id_dev s)) = false -> a_pending a = b :: q ->
  exists s', round fuel s s' /\ sim s' (serve b q a) /\ failed (phase_of (id_dev s')) = false.
Proof.
  intros Hs Hnf Hp. assert (forall t, sim t a -> failed (phase_of (id_dev t)) = false -> finished (phase_of (id_dev t)) = true ->
    exists t', ideintr (S fuel) t = Done tt t' /\ sim t' (serve b q a) /\ failed (phase_of (id_dev t')) = false) as Hrun.
  { intros t Ht Htf Hfin. pose proof (ideintr_ok fuel t a Ht (or_intror (conj Hfin Htf))) as H.
    apply wp_done in H as ([] & t' & Hi & Hst & Hf). exists t'. cbn [areact] in Hst. rewrite Hp in Hst, Hf. auto. }
  pose proof (sm_work _ _ Hs) as Hwk. rewrite Hp in Hwk. cbn [at_work] in Hwk. destruct Hwk as [Hw|[err Hw]].
  - destruct (step_possible _ _ _ Hw) as (d & Hd & Hdf). destruct (step_finishes _ _ Hd) as (c & k & err & _ & Hf).
    destruct (Hrun (set_id_dev d s)) as (t' & Hi & Hst & Hnf'); [by apply ide_driver_step|done|cbn; by rewrite Hf|].
    exists t'. split; [by eapply round_wait|done].
  - destruct (Hrun s) as (t' & Hi & Hst & Hnf'); [done|done|by rewrite Hw|]. exists t'. split; [|done]. apply round_now; [done|by rewrite Hw|done].
Qed.

Lemma served_clean b q a : needs_io (a_buf (serve b q a) b) = false.
Proof. cbn -[needs_io]. by rewrite fn_lookup_insert. Qed.

(** C24: no request waits for ever: as long as the disk reports no error, the
    request at place [i] of the line is served after [i + 1] interrupts; then
    the buffer is valid and clean, and the process that asked is awake. *)
Theorem ide_serves_requests fuel s a i b :
  sim s a -> failed (phase_of (id_dev s)) = false -> a_pending a !! i = Some b ->
  exists s', nsteps (round fuel) (S i) s s' /\ id_asleep s' b = false /\ needs_io (id_buf s' b) = false.
Proof.
  revert s a. induction i as [|i IH]; intros s a Hs Hnf Hi; (destruct (a_pending a) as [|c q] eqn:Hp; [done|]); cbn in Hi.
  - injection Hi as ->. destruct (round_serves fuel s a b q Hs Hnf Hp) as (s' & Hr & Hs' & _). exists s'.
    split; [by eapply nsteps_l, nsteps_O|]. pose proof (sm_nodup _ _ Hs) as Hnd. rewrite Hp in Hnd.
    apply NoDup_cons in Hnd as [Hb _]. split; [|rewrite <- (sm_buf _ _ Hs'); apply served_clean].
    apply not_true_is_false. by rewrite (sm_asleep _ _ Hs').
  - destruct (round_serves fuel s a c q Hs Hnf Hp) as (s1 & Hr & Hs1 & Hnf1).
    destruct (IH s1 (serve c q a) Hs1 Hnf1 Hi) as (s' & Hn & Hrest). exists s'. split; [by eapply nsteps_l|done].
Qed.

(** ** Errors *)

(** An error of the disk while it reads is not reported: ideintr sees it,
    leaves the data of the buffer as it was, marks the buffer valid and wakes
    the process, which takes the old bytes for the content of the block. *)
Theorem ide_read_error_ignored fuel s a b q k :
  sim s a -> a_pending a = b :: q -> bf_dirty (id_buf s b) = false ->
  phase_of (id_dev s) = Finished (cmd_of (id_buf s b)) true k ->
  wp (ideintr (S fuel)) (fun _ s' => id_asleep s' b = false /\ bf_valid (id_buf s' b) = true /\
    bf_data (id_buf s' b) = bf_data (id_buf s b)) s.
Proof.
  intros [Hbuf Hq Hnd Hok Hlk Has Hwk] Hp Hdirty Hph. rewrite Hp in *. destruct Hq as [Hh Hq]. apply NoDup_cons in Hnd as [Hb _].
  unfold ideintr. apply wp_bind. unfold acquire_ide. apply wp_bind, wp_gets. rewrite Hlk. apply wp_modify, wp_bind, wp_gets.
  cbn [idequeue set_idelock]. rewrite Hh. apply wp_bind, wp_gets, wp_bind, wp_modify, wp_bind, wp_gets.
  cbn [id_qnext id_buf idequeue set_idelock set_idequeue]. rewrite Hdirty. cbn [negb]. set (s1 := set_idequeue _ _).
  destruct (idewait_ready fuel true s1) as (d & Hwait & Hpd); [change (id_dev s1) with (id_dev s); by rewrite Hph|].
  change (id_dev s1) with (id_dev s) in *. rewrite Hph in Hpd, Hwait. cbn [failed andb] in Hwait.
  apply wp_bind, wp_bind. eapply wp_intro; [exact Hwait|]. cbn [Z.leb Z.compare when]. apply wp_ret.
  unfold put_buf, wake. do 3 apply wp_bind, wp_modify. apply wp_bind, wp_gets. cbn [idequeue set_id_asleep set_id_buf set_id_dev].
  set (s2 := set_id_asleep _ _).
  assert (id_asleep s2 b = false /\ bf_valid (id_buf s2 b) = true /\ bf_data (id_buf s2 b) = bf_data (id_buf s b)) as Hdone.
  { subst s2. cbn -[decide]. by rewrite !fn_lookup_insert. }
  change (idequeue s1) with (id_qnext s b). destruct q as [|b' q]; cbn [is_queue] in Hq.
  - rewrite Hq. apply wp_bind, wp_ret, wp_modify. exact Hdone.
  - destruct Hq as [-> _]. apply wp_bind. destruct (Hok b') as [_ Hrq]; [set_solver|].
    eapply wp_mono; [apply (idestart_ok fuel b')|].
    + change (id_dev s2) with d. rewrite Hpd. unfold cmd_of. by rewrite Hdirty.
    + subst s2. cbn -[decide]. rewrite !fn_lookup_insert_ne by set_solver. exact Hrq.
    + intros [] s3 (d' & -> & _). apply wp_modify. exact Hdone.
Qed.
End Sim.

(** ** A disk that keeps the promises *)

(** The phase itself is the state of the disk. *)
#[export] Instance phase_dev : IdeDev phase := {|
  inb_status p := (match p with
    | Idle _ _ | Finished _ false _ => IDE_DRDY
    | Finished _ true _ => Z.lor IDE_DRDY IDE_ERR
    | _ => IDE_BSY end, p);
  outb port v p :=
    if port =? 1014 then if accepting p then Idle (fun _ => 0) (disk_of p) else p
    else match p with
         | Idle r k =>
             if port =? 503 then
               if v =? IDE_CMD_READ then Busy (CRead (reg_unit r) (reg_lba r)) k
               else if v =? IDE_CMD_WRITE then WaitData (reg_unit r) (reg_lba r) k else p
             else Idle (<[port := v]> r) k
         | _ => p
         end;
  outsl data p := match p with WaitData u l k => Busy (CWrite u l data) k | _ => p end;
  insl p := match p with Finished (CRead u l) false k => (k u l, Idle (fun _ => 0) k) | _ => ([], p) end;
|}.

Inductive phase_step : phase -> phase -> Prop :=
| phase_done c k : phase_step (Busy c k) (Finished c false (run_command c k))
| phase_error c k : phase_step (Busy c k) (Finished c true k).

#[export] Instance phase_laws : IdeLaws phase.
Proof.
  refine {| phase_of := fun p => p; dev_step := phase_step |}.
  - by intros [| | |c [] k].
  - intros p Hp. exists (fun _ => 0). cbn. by rewrite Hp.
  - intros p r k port v -> Hport. cbn. destruct (Z.eqb_spec port 1014); [lia|]. destruct (Z.eqb_spec port 503); [lia|done].
  - by intros p r k -> _.
  - by intros p r k -> _.
  - by intros p u l k data -> _.
  - intros p u l k ->. split; [done|]. by exists (fun _ => 0).
  - intros p p' [c k|c k]; exists c, k; [exists false|exists true]; done.
  - intros p c k ->. exists (Finished c false (run_command c k)). split; [constructor|done].
Defined.

(** A disk without requests; the buffer 0 is held by process 7, to be read. *)
Definition ex_disk : disk := fun _ b => repeat (b `mod` 256) 512.
Definition ex_ide : idest phase :=
  mkIdest (fun b => mkBuf false false 0 (Z.of_nat b) (mkSleeplock true 7) 1 (repeat 0 512)) (fun _ => None) None false false
    (fun _ => false) (Idle (fun _ => 0) ex_disk).
Definition ex_aide : aide := mkAide ex_disk (id_buf ex_ide) [].

Lemma ex_ide_sim : sim ex_ide ex_aide.
Proof. by split; try done; [apply NoDup_nil_2|set_solver|set_solver]. Qed.

(** The same after process 7 has asked for buffer 3 *)
Definition ex_asked : idest phase :=
  match iderw_begin 1 7 3 ex_ide with Done _ s => s | _ => ex_ide end.
Definition ex_aasked : aide := areact (IRequest 7 3) ex_aide.

Lemma ex_request_enabled : enabled ex_ide (IRequest 7 3).
Proof. split_and!; try done; [unfold NBUF; lia|]. split; try done. by left. Qed.

Lemma ex_asked_sim : sim ex_asked ex_aasked.
Proof.
  pose proof (iderw_begin_ok 0 7 3 ex_ide ex_aide ex_ide_sim ex_request_enabled) as H.
  apply wp_done in H as (r & s' & Hr & _ & Hs). unfold ex_asked. by rewrite Hr.
Qed.

Lemma ide_driver_refines_witness :
  wp (run_event 1 (IRequest 7 3)) (fun r s' => sim s' ex_aasked /\ r = false) ex_ide.
Proof. apply (ide_driver_refines ex_ide ex_aide ex_ide_sim). exact ex_request_enabled. Defined.

Lemma ide_serves_requests_witness :
  id_asleep ex_asked 3 = true /\
  exists s', nsteps (round 0) 1 ex_asked s' /\ id_asleep s' 3 = false /\ needs_io (id_buf s' 3) = false.
Proof.
  split; [vm_compute; reflexivity|]. exact (ide_serves_requests 0 ex_asked ex_aasked 0 3 ex_asked_sim eq_refl eq_refl).
Defined.

Lemma ide_read_error_ignored_witness :
  wp (ideintr 1) (fun _ s' => id_asleep s' 3 = false /\ bf_valid (id_buf s' 3) = true /\ bf_data (id_buf s' 3) = repeat 0 512)
    (set_id_dev (Finished (CRead 0 3) true ex_disk) ex_asked).
Proof.
  refine (ide_read_error_ignored 0 (set_id_dev (Finished (CRead 0 3) true ex_disk) ex_asked) ex_aasked 3 [] ex_disk _ eq_refl eq_refl eq_refl).
  exact (ide_driver_step ex_asked ex_aasked _ ex_asked_sim (phase_error (CRead 0 3) ex_disk)).
Defined.
