(* ===== verification/Bio.v ===== *)
(** * sleeplock.c, memide.c and bio.c

    Sleep locks, the in-memory disk driver, and the buffer cache with its
    least-recently-used list.  A process that meets a sleep lock held by
    another sleeps in a loop until the lock is free; in a run of one process
    by itself that loop has no end, and is [NoFuel]. *)

From S2P Require Import Prelude FsState.

Local Open Scope c_scope.
Local Open Scope Z_scope.

(** ** sleeplock.c; [get] and [put] reach the lock in the state *)

Definition initsleeplock (put : sleeplock -> fsys -> fsys) : M fsys unit :=
  modify (put (mkSleeplock false 0)).

Definition acquiresleep (get : fsys -> sleeplock) (put : sleeplock -> fsys -> fsys) : M fsys unit :=
  lk <- gets get ;;
  if sl_locked lk then out_of_fuel
  else
    pid <- gets fs_pid ;;
    modify (put (mkSleeplock true pid)).

Definition releasesleep (put : sleeplock -> fsys -> fsys) : M fsys unit :=
  modify (put (mkSleeplock false 0)).

Definition holdingsleep (get : fsys -> sleeplock) : M fsys bool :=
  gets (fun s => sl_locked (get s) && (sl_pid (get s) =? fs_pid s)).

Definition buf_lock (b : nat) (s : fsys) : sleeplock := bf_lock (fs_buf s b).
Definition put_buf_lock (b : nat) (l : sleeplock) : fsys -> fsys := upd_buf b (set_bf_lock l).

(** ** memide.c: iderw *)

Definition iderw (b : nat) : M fsys unit :=
  h <- holdingsleep (buf_lock b) ;;
  if negb h then panic "iderw: buf not locked"
  else
    bf <- gets (fun s => fs_buf s b) ;;
    if bf_valid bf && negb (bf_dirty bf) then panic "iderw: nothing to do"
    else if negb (bf_dev bf =? 1) then panic "iderw: request not for disk 1"
    else
      size <- gets fs_disksize ;;
      if size <=? bf_blockno bf then panic "iderw: block out of range"
      else
        (if bf_dirty bf then
           modify (upd_buf b (set_bf_dirty false)) ;;
           modify (fun s => set_fs_disk (<[bf_blockno bf := bf_data bf]> (fs_disk s)) s) ;;
           modify (fun s => set_fs_writes (fs_writes s ++ [(bf_blockno bf, bf_data bf)]) s)
         else modify (fun s => upd_buf b (set_bf_data (fs_disk s (bf_blockno bf))) s)) ;;
        modify (upd_buf b (set_bf_valid true)).

(** ** bio.c *)

(** Put [b] in front of the list; it is in no list before. *)
Definition link_front (b : nat) : M fsys unit :=
  first <- gets (fun s => fs_bnext s NBUF) ;;
  modify (fun s => set_fs_bnext (<[b := first]> (fs_bnext s)) s) ;;
  modify (fun s => set_fs_bprev (<[b := NBUF]> (fs_bprev s)) s) ;;
  first <- gets (fun s => fs_bnext s NBUF) ;;
  modify (fun s => set_fs_bprev (<[first := b]> (fs_bprev s)) s) ;;
  modify (fun s => set_fs_bnext (<[NBUF := b]> (fs_bnext s)) s).

Definition binit : M fsys unit :=
  modify (fun s => set_fs_bprev (<[NBUF := NBUF]> (fs_bprev s)) s) ;;
  modify (fun s => set_fs_bnext (<[NBUF := NBUF]> (fs_bnext s)) s) ;;
  for_each (seq 0 NBUF) (fun b =>
    link_front b ;;
    initsleeplock (put_buf_lock b)).

(** The first loop of bget: the block if it is cached. *)
Fixpoint bget_cached (fuel b : nat) (dev blockno : Z) : M fsys (option nat) :=
  match fuel with
  | O => out_of_fuel
  | S fuel' =>
      if (b =? NBUF)%nat then ret None
      else
        bf <- gets (fun s => fs_buf s b) ;;
        if (bf_dev bf =? dev) && (bf_blockno bf =? blockno) then ret (Some b)
        else
          next <- gets (fun s => fs_bnext s b) ;;
          bget_cached fuel' next dev blockno
  end.

(** The second loop: an unused buffer, from the least recently used on. *)
Fixpoint bget_unused (fuel b : nat) : M fsys (option nat) :=
  match fuel with
  | O => out_of_fuel
  | S fuel' =>
      if (b =? NBUF)%nat then ret None
      else
        bf <- gets (fun s => fs_buf s b) ;;
        if (bf_refcnt bf =? 0) && negb (bf_dirty bf) then ret (Some b)
        else
          prev <- gets (fun s => fs_bprev s b) ;;
          bget_unused fuel' prev
  end.

Definition bget (dev blockno : Z) : M fsys nat :=
  first <- gets (fun s => fs_bnext s NBUF) ;;
  found <- bget_cached (S NBUF) first dev blockno ;;
  match found with
  | Some b =>
      modify (upd_buf b (fun bf => set_bf_refcnt (u32 (bf_refcnt bf + 1)) bf)) ;;
      acquiresleep (buf_lock b) (put_buf_lock b) ;;
      ret b
  | None =>
      last <- gets (fun s => fs_bprev s NBUF) ;;
      found <- bget_unused (S NBUF) last ;;
      match found with
      | Some b =>
          modify (upd_buf b (fun bf =>
            set_bf_refcnt 1 (set_bf_dirty false (set_bf_valid false (set_bf_blockno blockno (set_bf_dev dev bf)))))) ;;
          acquiresleep (buf_lock b) (put_buf_lock b) ;;
          ret b
      | None => panic "bget: no buffers"
      end
  end.

Definition bread (dev blockno : Z) : M fsys nat :=
  b <- bget dev blockno ;;
  bf <- gets (fun s => fs_buf s b) ;;
  when (negb (bf_valid bf)) (iderw b) ;;
  ret b.

Definition bwrite (b : nat) : M fsys unit :=
  h <- holdingsleep (buf_lock b) ;;
  if negb h then panic "bwrite"
  else
    modify (upd_buf b (set_bf_dirty true)) ;;
    iderw b.

Definition brelse (b : nat) : M fsys unit :=
  h <- holdingsleep (buf_lock b) ;;
  if negb h then panic "brelse"
  else
    releasesleep (put_buf_lock b) ;;
    modify (upd_buf b (fun bf => set_bf_refcnt (u32 (bf_refcnt bf - 1)) bf)) ;;
    bf <- gets (fun s => fs_buf s b) ;;
    when (bf_refcnt bf =? 0)
      (prev <- gets (fun s => fs_bprev s b) ;;
       next <- gets (fun s => fs_bnext s b) ;;
       modify (fun s => set_fs_bprev (<[next := prev]> (fs_bprev s)) s) ;;
       modify (fun s => set_fs_bnext (<[prev := next]> (fs_bnext s)) s) ;;
       link_front b).

(** The data of a locked buffer, and its change by the holder. *)
Definition bdata (b : nat) : M fsys block := gets (fun s => bf_data (fs_buf s b)).
Definition set_bdata (b : nat) (d : block) : M fsys unit := modify (upd_buf b (set_bf_data d)).
