(* ===== verification/BioInv.v ===== *)
(** * The buffer cache keeps its promises

    [ring]: the links make one cyclic list through all buffers.  [bio_ok]: the
    invariant of the cache.  [view]: the content of a block as the kernel sees
    it, in the cache or on the disk.  bread returns the view of a block, bwrite
    makes the disk agree with it, brelse gives the buffer back. *)

From S2P Require Import Prelude FsState Bio.

Local Open Scope c_scope.
Local Open Scope Z_scope.

(** ** The list of buffers *)

(** A path from [a] through [l] to [z], linked both ways. *)
Fixpoint chain (next prev : nat -> nat) (a : nat) (l : list nat) (z : nat) : Prop :=
  match l with
  | [] => next a = z /\ prev z = a
  | x :: l' => next a = x /\ prev x = a /\ chain next prev x l' z
  end.

Lemma chain_app next prev a l1 x l2 z :
  chain next prev a (l1 ++ x :: l2) z <-> chain next prev a l1 x /\ chain next prev x l2 z.
Proof.
  revert a. induction l1 as [|y l1 IH]; intros a; simpl; [tauto|]. rewrite IH. tauto.
Qed.

(** Links of other nodes do not matter. *)
Lemma chain_ext next prev next' prev' a l z :
  (forall x, x ∈ a :: l -> next' x = next x) -> (forall x, x ∈ z :: l -> prev' x = prev x) ->
  chain next prev a l z -> chain next' prev' a l z.
Proof.
  revert a. induction l as [|x l IH]; intros a Hn Hp; simpl.
  - intros [H1 H2]. rewrite Hn, Hp by set_solver. done.
  - intros (H1 & H2 & Hc). rewrite Hn, Hp by set_solver. split; [done|]. split; [done|].
    apply IH; [set_solver..|done].
Qed.

Lemma chain_first next prev a l z : chain next prev a l z -> next a = hd z l.
Proof. destruct l; simpl; [by intros [? _]|by intros [? _]]. Qed.

Lemma chain_last next prev a l z : chain next prev a l z -> prev z = List.last l a.
Proof.
  revert a. induction l as [|x l IH]; intros a; [by intros [_ ?]|]. intros (_ & _ & Hc).
  rewrite (IH _ Hc). destruct l as [|y l]; [done|]. clear. revert y. by induction l as [|w l IH]; intros y; [|apply IH].
Qed.

Lemma last_in (l : list nat) a : List.last l a ∈ a :: l.
Proof.
  revert a. induction l as [|x l IH]; intros a; [set_solver|]. destruct l as [|y l]; [set_solver|].
  specialize (IH a). change (List.last (x :: y :: l) a) with (List.last (y :: l) a).
  apply elem_of_cons in IH as [->|IH]; [by left|by right; right].
Qed.

Definition ring (s : fsys) (l : list nat) : Prop :=
  chain (fs_bnext s) (fs_bprev s) NBUF l NBUF /\ Permutation l (seq 0 NBUF).

Lemma ring_elem s l b : ring s l -> b ∈ l <-> (b < NBUF)%nat.
Proof. intros [_ Hp]. rewrite Hp, elem_of_seq. lia. Qed.

Lemma ring_nodup s l : ring s l -> NoDup (NBUF :: l).
Proof.
  intros Hr. constructor; [rewrite (ring_elem s l NBUF Hr); lia|]. destruct Hr as [_ Hp]. rewrite Hp. apply NoDup_seq.
Qed.

(** ** The two loops of bget *)

Definition is_block (dev blockno : Z) (bf : buf) : bool := (bf_dev bf =? dev) && (bf_blockno bf =? blockno).
Definition is_unused (bf : buf) : bool := (bf_refcnt bf =? 0) && negb (bf_dirty bf).

Lemma bget_cached_find s dev bno a l fuel :
  chain (fs_bnext s) (fs_bprev s) a l NBUF -> NBUF ∉ l -> (length l < fuel)%nat ->
  bget_cached fuel (fs_bnext s a) dev bno s = Done (find (fun b => is_block dev bno (fs_buf s b)) l) s.
Proof.
  revert a fuel. induction l as [|x l IH]; intros a fuel Hc Hn Hf; destruct fuel as [|fuel]; try (simpl in *; lia).
  - destruct Hc as [-> _]. cbn [bget_cached]. by rewrite Nat.eqb_refl.
  - destruct Hc as (-> & _ & Hc). cbn [bget_cached find].
    destruct (Nat.eqb_spec x NBUF) as [->|Hx]; [set_solver|]. unfold bind, gets. fold (is_block dev bno (fs_buf s x)).
    destruct (is_block dev bno (fs_buf s x)); [done|]. apply IH; [done|set_solver|simpl in *; lia].
Qed.

Lemma bget_unused_find s z l fuel :
  chain (fs_bnext s) (fs_bprev s) NBUF l z -> NBUF ∉ l -> (length l < fuel)%nat ->
  bget_unused fuel (fs_bprev s z) s = Done (find (fun b => is_unused (fs_buf s b)) (rev l)) s.
Proof.
  revert z fuel. induction l as [|x l IH] using rev_ind; intros z fuel Hc Hn Hf; destruct fuel as [|fuel];
    try (rewrite ?length_app in *; simpl in *; lia).
  - destruct Hc as [_ ->]. cbn [bget_unused]. by rewrite Nat.eqb_refl.
  - apply chain_app in Hc as [Hc [_ ->]]. rewrite rev_app_distr. cbn [bget_unused rev app find].
    destruct (Nat.eqb_spec x NBUF) as [->|Hx]; [set_solver|]. unfold bind, gets. fold (is_unused (fs_buf s x)).
    destruct (is_unused (fs_buf s x)); [done|]. apply IH; [done|set_solver|].
    rewrite length_app in Hf. simpl in Hf. lia.
Qed.

(** ** Moving a buffer to the front *)

Definition unlinked (s : fsys) (b : nat) : fsys :=
  set_fs_bnext (<[fs_bprev s b := fs_bnext s b]> (fs_bnext s))
    (set_fs_bprev (<[fs_bnext s b := fs_bprev s b]> (fs_bprev s)) s).

Definition linked_front (s : fsys) (b : nat) : fsys :=
  let first := fs_bnext s NBUF in
  set_fs_bnext (<[NBUF := b]> (<[b := first]> (fs_bnext s)))
    (set_fs_bprev (<[first := b]> (<[b := NBUF]> (fs_bprev s))) s).

Lemma link_front_run s b : b <> NBUF -> link_front b s = Done tt (linked_front s b).
Proof. intros Hb. unfold link_front, bind, gets, modify, linked_front. cbn. by rewrite fn_lookup_insert_ne. Qed.

(** Any path loses an inner node. *)
Lemma chain_remove next prev a l1 x l2 z :
  NoDup (a :: l1 ++ x :: l2) -> z ∉ l1 ++ x :: l2 ->
  chain next prev a (l1 ++ x :: l2) z ->
  chain (<[prev x := next x]> next) (<[next x := prev x]> prev) a (l1 ++ l2) z.
Proof.
  revert a. induction l1 as [|b l1 IH]; intros a Hnd Hz Hc.
  - destruct Hc as (Ha & -> & Hc). destruct l2 as [|y l2]; simpl in Hc |- *.
    + destruct Hc as [-> Hzx]. by rewrite !fn_lookup_insert.
    + destruct Hc as (-> & Hyx & Hc). rewrite !fn_lookup_insert. split; [done|]. split; [done|].
      apply NoDup_cons in Hnd as [Ha1 Hnd]. simpl in Hnd. rewrite !NoDup_cons in Hnd.
      eapply chain_ext; [..|exact Hc]; intros v Hv; apply fn_lookup_insert_ne; set_solver.
  - destruct Hc as (Ha & Hb & Hc). simpl. apply NoDup_cons in Hnd as [Han Hnd].
    assert (next x ∈ z :: l2 /\ prev x ∈ b :: l1) as [Hnx Hpx].
    { apply chain_app in Hc as [Hc1 Hc2].
      rewrite (chain_first _ _ _ _ _ Hc2), (chain_last _ _ _ _ _ Hc1). split; [destruct l2; set_solver|apply last_in]. }
    pose proof Hnd as Hnd'. simpl in Hnd'. apply NoDup_cons in Hnd' as [Hbn _].
    assert (prev x <> a) as Hpa by (clear -Han Hpx; set_solver).
    assert (next x <> b) as Hnb by (clear -Hbn Hnx Hz; set_solver).
    rewrite !fn_lookup_insert_ne by done. split; [done|]. split; [done|].
    apply IH; [done|clear -Hz; set_solver|done].
Qed.

(** A node that is in no path goes behind [a]. *)
Lemma chain_push next prev a l z x :
  NoDup (a :: l) -> x ∉ a :: l -> x <> z -> z ∉ l -> chain next prev a l z ->
  chain (<[a := x]> (<[x := next a]> next)) (<[next a := x]> (<[x := a]> prev)) a (x :: l) z.
Proof.
  intros Hnd Hx Hxz Hz Hc. simpl. apply NoDup_cons in Hnd as [Han Hnd].
  assert (next a ∈ z :: l) as Hna by (rewrite (chain_first _ _ _ _ _ Hc); destruct l; set_solver).
  rewrite fn_lookup_insert, fn_lookup_insert_ne by set_solver. rewrite fn_lookup_insert.
  split; [done|]. split; [done|].
  destruct l as [|y l]; simpl in Hc |- *.
  - destruct Hc as [-> Hp]. rewrite fn_lookup_insert, fn_lookup_insert_ne by set_solver. by rewrite fn_lookup_insert.
  - destruct Hc as (-> & Hp & Hc). rewrite fn_lookup_insert, fn_lookup_insert_ne by set_solver.
    rewrite fn_lookup_insert. split; [done|]. split; [done|]. apply NoDup_cons in Hnd as [Hyn Hnd].
    eapply chain_ext; [..|exact Hc]; intros v Hv; rewrite !fn_lookup_insert_ne; set_solver.
Qed.

Lemma ring_to_front s l b :
  ring s l -> (b < NBUF)%nat -> exists l', ring (linked_front (unlinked s b) b) l'.
Proof.
  intros Hr Hb. pose proof (ring_nodup s l Hr) as Hnd. apply (ring_elem s l b Hr) in Hb as Hin.
  destruct Hr as [Hc Hp]. apply list_elem_of_split in Hin as (l1 & l2 & ->).
  assert (NBUF ∉ l1 ++ b :: l2) as Hz by (by apply NoDup_cons in Hnd as [? _]).
  pose proof (chain_remove _ _ _ _ _ _ _ Hnd Hz Hc) as Hrm.
  assert (NoDup (b :: NBUF :: l1 ++ l2)) as Hnd2.
  { eapply (NoDup_Permutation_proper _ (NBUF :: l1 ++ b :: l2)); [|done]. solve_Permutation. }
  rewrite !NoDup_cons in Hnd2. destruct Hnd2 as (Hb1 & Hb2 & Hnd2).
  exists (b :: l1 ++ l2). split.
  - apply (chain_push _ _ NBUF (l1 ++ l2) NBUF b) in Hrm; [done|by constructor|set_solver|lia|set_solver].
  - rewrite <- Hp. solve_Permutation.
Qed.

(** ** The invariant and the view *)

(** A buffer is referenced exactly while it is locked; one that belongs to
    the disk holds a whole block, the same as on the disk unless it is dirty or
    its holder is changing it. *)
Record buf_ok (disk : Z -> block) (size : Z) (bf : buf) : Prop := mkBufOk {
  bk_ref : bf_refcnt bf = if sl_locked (bf_lock bf) then 1 else 0;
  bk_valid : bf_dev bf = 1 -> bf_valid bf = true;
  bk_range : bf_dev bf = 1 -> 0 <= bf_blockno bf < size;
  bk_len : bf_dev bf = 1 -> Z.of_nat (length (bf_data bf)) = BSIZE;
  bk_clean : bf_dev bf = 1 -> bf_dirty bf = false -> sl_locked (bf_lock bf) = false ->
    bf_data bf = disk (bf_blockno bf);
  bk_dirty : bf_dirty bf = true -> bf_dev bf = 1;
}.

Record bio_ok (s : fsys) : Prop := mkBioOk {
  bo_ring : exists l, ring s l;
  bo_buf : forall i, (i < NBUF)%nat -> buf_ok (fs_disk s) (fs_disksize s) (fs_buf s i);
  bo_unique : forall i j, (i < NBUF)%nat -> (j < NBUF)%nat -> bf_dev (fs_buf s i) = 1 -> bf_dev (fs_buf s j) = 1 ->
    bf_blockno (fs_buf s i) = bf_blockno (fs_buf s j) -> i = j;
  bo_disk : forall b, 0 <= b < fs_disksize s -> Z.of_nat (length (fs_disk s b)) = BSIZE;
}.

Definition cached (s : fsys) (b : Z) : option nat := find (fun i => is_block 1 b (fs_buf s i)) (seq 0 NBUF).

Definition view (s : fsys) (b : Z) : block :=
  match cached s b with Some i => bf_data (fs_buf s i) | None => fs_disk s b end.

Definition locked_at (s : fsys) (b : Z) : Prop :=
  exists i, (i < NBUF)%nat /\ is_block 1 b (fs_buf s i) = true /\ sl_locked (bf_lock (fs_buf s i)) = true.

Lemma is_block_true dev b bf : is_block dev b bf = true <-> bf_dev bf = dev /\ bf_blockno bf = b.
Proof. unfold is_block. rewrite andb_true_iff, !Z.eqb_eq. done. Qed.

Lemma cached_Some s b i : cached s b = Some i -> (i < NBUF)%nat /\ is_block 1 b (fs_buf s i) = true.
Proof. intros [Hi Hb]%find_some. apply in_seq in Hi. split; [lia|done]. Qed.

Lemma cached_None s b i : cached s b = None -> (i < NBUF)%nat -> is_block 1 b (fs_buf s i) = false.
Proof. intros Hn Hi. apply (find_none _ _ Hn i). apply in_seq. lia. Qed.

Lemma cached_at s b i : bio_ok s -> (i < NBUF)%nat -> is_block 1 b (fs_buf s i) = true -> cached s b = Some i.
Proof.
  intros Hok Hi Hb. destruct (cached s b) as [j|] eqn:Hc.
  - apply cached_Some in Hc as [Hj Hjb]. apply is_block_true in Hb as [? ?], Hjb as [? ?]. f_equal.
    apply (bo_unique s Hok); congruence.
  - rewrite (cached_None s b i Hc Hi) in Hb. done.
Qed.

Lemma view_at s b i : bio_ok s -> (i < NBUF)%nat -> is_block 1 b (fs_buf s i) = true -> view s b = bf_data (fs_buf s i).
Proof. intros. unfold view. by rewrite (cached_at s b i). Qed.

Lemma view_none s b : (forall i, (i < NBUF)%nat -> is_block 1 b (fs_buf s i) = false) -> view s b = fs_disk s b.
Proof.
  intros Hn. unfold view. destruct (cached s b) as [i|] eqn:Hc; [|done]. apply cached_Some in Hc as [Hi Hb].
  rewrite Hn in Hb by done. done.
Qed.

Lemma view_length s b : bio_ok s -> 0 <= b < fs_disksize s -> Z.of_nat (length (view s b)) = BSIZE.
Proof.
  intros Hok Hb. unfold view. destruct (cached s b) as [i|] eqn:Hc; [|by apply bo_disk].
  apply cached_Some in Hc as [Hi [Hd _]%is_block_true]. by apply (bk_len _ _ _ (bo_buf s Hok i Hi)).
Qed.

(** ** Changes of one buffer *)

(** [s'] is [s] but for buffer [i], which is [bf']. *)
Record buf_step (i : nat) (bf' : buf) (s s' : fsys) : Prop := mkBufStep {
  bs_at : fs_buf s' i = bf';
  bs_ne : forall j, j <> i -> fs_buf s' j = fs_buf s j;
  bs_rest : s' = set_fs_buf (fs_buf s') s;
}.

Lemma upd_buf_step i f s : buf_step i (f (fs_buf s i)) s (upd_buf i f s).
Proof.
  split; cbn; [by rewrite fn_lookup_insert| |done]. intros j Hj. by rewrite fn_lookup_insert_ne.
Qed.

Lemma buf_step_upd i f s bf : bf = f (fs_buf s i) -> buf_step i bf s (upd_buf i f s).
Proof. intros ->. apply upd_buf_step. Qed.

Lemma buf_step_trans i bf1 bf2 s s1 s2 : buf_step i bf1 s s1 -> buf_step i bf2 s1 s2 -> buf_step i bf2 s s2.
Proof.
  intros [H1 Hn1 Hr1] [H2 Hn2 Hr2]. split; [done| |].
  - intros j Hj. by rewrite Hn2, Hn1.
  - rewrite Hr2, Hr1. done.
Qed.

Lemma buf_step_ok i bf' s s' :
  bio_ok s -> buf_step i bf' s s' -> (i < NBUF)%nat -> buf_ok (fs_disk s) (fs_disksize s) bf' ->
  (bf_dev bf' = 1 -> forall j, (j < NBUF)%nat -> j <> i -> is_block 1 (bf_blockno bf') (fs_buf s j) = false) ->
  bio_ok s'.
Proof.
  intros [[l Hl] Hb Hu Hd] [Hat Hne Hr] Hi Hbf Huniq. rewrite Hr in *. split; cbn in *.
  - by exists l.
  - intros j Hj. destruct (decide (j = i)) as [->|]; [by rewrite Hat|]. rewrite Hne by done. auto.
  - intros j k Hj Hk. destruct (decide (j = i)) as [->|], (decide (k = i)) as [->|]; rewrite ?Hat, ?Hne by done; auto.
    + intros H1 H2 He. specialize (Huniq H1 k Hk ltac:(done)). rewrite He in Huniq.
      assert (is_block 1 (bf_blockno (fs_buf s k)) (fs_buf s k) = true) by (by apply is_block_true). congruence.
    + intros H1 H2 He. specialize (Huniq H2 j Hj ltac:(done)). rewrite <- He in Huniq.
      assert (is_block 1 (bf_blockno (fs_buf s j)) (fs_buf s j) = true) by (by apply is_block_true). congruence.
  - done.
Qed.

(** ** bread *)

(** The buffer bread returns for block [b]. *)
Definition held_buf (s : fsys) (dirty : bool) (b : Z) (d : block) : buf :=
  mkBuf true dirty 1 b (mkSleeplock true (fs_pid s)) 1 d.

(** bread will find a buffer: the block is cached, or one is unused. *)
Definition avail (s : fsys) (b : Z) : Prop :=
  cached s b <> None \/ exists i, (i < NBUF)%nat /\ is_unused (fs_buf s i) = true.

Lemma find_ring s l f : ring s l -> (NBUF ∉ l) /\ (length l < S NBUF)%nat /\
  (forall i, find f l = Some i -> (i < NBUF)%nat /\ f i = true) /\
  (forall i, find f (rev l) = Some i -> (i < NBUF)%nat /\ f i = true) /\
  (find f l = None -> forall i, (i < NBUF)%nat -> f i = false) /\
  (find f (rev l) = None -> forall i, (i < NBUF)%nat -> f i = false).
Proof.
  intros Hr. pose proof (ring_nodup s l Hr) as [Hn _]%NoDup_cons.
  assert (length l < S NBUF)%nat by (destruct Hr as [_ ->]; rewrite length_seq; lia).
  pose proof (fun i => ring_elem s l i Hr) as Hel. split_and!; try done.
  - intros i [Hi Hf]%find_some. split; [|done]. by apply Hel, list_elem_of_In.
  - intros i [Hi Hf]%find_some. split; [|done]. apply Hel, list_elem_of_In. by apply in_rev.
  - intros Hf i Hi. apply (find_none _ _ Hf). by apply list_elem_of_In, Hel.
  - intros Hf i Hi. apply (find_none _ _ Hf), in_rev. rewrite rev_involutive. by apply list_elem_of_In, Hel.
Qed.

Lemma acquire_buf_run s i :
  sl_locked (bf_lock (fs_buf s i)) = false ->
  acquiresleep (buf_lock i) (put_buf_lock i) s = Done tt (put_buf_lock i (mkSleeplock true (fs_pid s)) s).
Proof. intros Hl. unfold acquiresleep, bind, gets, buf_lock. by rewrite Hl. Qed.

Lemma holding_buf s i :
  bf_lock (fs_buf s i) = mkSleeplock true (fs_pid s) -> holdingsleep (buf_lock i) s = Done true s.
Proof. intros Hl. unfold holdingsleep, gets, buf_lock. rewrite Hl. cbn. by rewrite Z.eqb_refl. Qed.

(** iderw reads a buffer that is not valid. *)
Lemma iderw_read s i bf :
  fs_buf s i = bf -> bf_lock bf = mkSleeplock true (fs_pid s) -> bf_valid bf = false -> bf_dirty bf = false ->
  bf_dev bf = 1 -> bf_blockno bf < fs_disksize s ->
  wp (iderw i) (fun _ s' => buf_step i (set_bf_valid true (set_bf_data (fs_disk s (bf_blockno bf)) bf)) s s') s.
Proof.
  intros Hbf Hl Hv Hd Hdev Hb. apply wp_wpf. unfold iderw.
  eapply wpf_step; [apply holding_buf; by rewrite Hbf|]. cbn [negb]. wnext. rewrite Hbf, Hv, Hdev. cbn [andb negb Z.eqb Pos.eqb].
  wnext. destruct (Z.leb_spec (fs_disksize s) (bf_blockno bf)); [lia|]. rewrite Hd. wnext.
  eapply wpf_done; [reflexivity|]. set (s1 := upd_buf i _ s).
  pose proof (upd_buf_step i (set_bf_data (fs_disk s (bf_blockno bf))) s) as H1. rewrite Hbf in H1. fold s1 in H1.
  eapply buf_step_trans; [exact H1|]. rewrite <- (bs_at _ _ _ _ H1). apply upd_buf_step.
Qed.

Lemma bread_cached s i b :
  bio_ok s -> cached s b = Some i -> ~ locked_at s b ->
  wp (bread 1 b) (fun j s' => j = i /\ buf_step i (held_buf s (bf_dirty (fs_buf s i)) b (view s b)) s s') s.
Proof.
  intros Hok Hc Hnl. pose proof (cached_Some s b i Hc) as [Hi Hb].
  assert (sl_locked (bf_lock (fs_buf s i)) = false) as Hl.
  { destruct (sl_locked _) eqn:E; [|done]. exfalso. apply Hnl. by exists i. }
  destruct (bo_ring s Hok) as [l Hr]. destruct (find_ring s l (fun i => is_block 1 b (fs_buf s i)) Hr) as (Hn & Hlen & Hs & _ & Hno & _).
  assert (find (fun i => is_block 1 b (fs_buf s i)) l = Some i) as Hf.
  { destruct (find _ l) as [j|] eqn:Hf; [|rewrite (Hno eq_refl i Hi) in Hb; done].
    destruct (Hs j eq_refl) as [Hj Hjb]. pose proof (cached_at s b j Hok Hj Hjb). congruence. }
  pose proof (bget_cached_find s 1 b NBUF l (S NBUF) (proj1 Hr) Hn Hlen) as Hrun. rewrite Hf in Hrun.
  pose proof Hb as [Hdev Hbno]%is_block_true. pose proof (bo_buf s Hok i Hi) as Hbk.
  apply wp_wpf. unfold bread, bget. apply wpf_bind. wnext. eapply wpf_step; [exact Hrun|]. cbn match. wnext.
  eapply wpf_step; [apply acquire_buf_run; cbn; by rewrite fn_lookup_insert|].
  eapply wpf_done; [reflexivity|]. wnext. set (s1 := put_buf_lock i _ _).
  assert (buf_step i (held_buf s (bf_dirty (fs_buf s i)) b (view s b)) s s1) as Hst.
  { eapply buf_step_trans; [apply (upd_buf_step i)|]. unfold s1. unfold put_buf_lock.
    apply buf_step_upd.
    cbn. rewrite fn_lookup_insert, (view_at s b i) by done. unfold held_buf.
    pose proof (bk_ref _ _ _ Hbk) as H1. rewrite Hl in H1. pose proof (bk_valid _ _ _ Hbk Hdev) as H2.
    destruct (fs_buf s i). cbn in *. by subst. }
  rewrite (bs_at _ _ _ _ Hst). cbn [held_buf bf_valid negb when]. wnext. by eapply wpf_done.
Qed.

Lemma bget_misses s b :
  bio_ok s -> cached s b = None -> exists l, ring s l /\
    bget_cached (S NBUF) (fs_bnext s NBUF) 1 b s = Done None s /\
    bget_unused (S NBUF) (fs_bprev s NBUF) s = Done (find (fun i => is_unused (fs_buf s i)) (rev l)) s.
Proof.
  intros Hok Hc. destruct (bo_ring s Hok) as [l Hr]. exists l. split; [done|].
  destruct (find_ring s l (fun i => is_block 1 b (fs_buf s i)) Hr) as (Hn & Hlen & Hs & _).
  rewrite (bget_cached_find s 1 b NBUF l), (bget_unused_find s NBUF l) by (done || apply Hr). split; [|done]. f_equal.
  destruct (find _ l) as [j|] eqn:Hf; [|done]. destruct (Hs j eq_refl) as [Hj Hjb].
  rewrite (cached_None s b j Hc Hj) in Hjb. done.
Qed.

Lemma bread_recycles s b :
  bio_ok s -> 0 <= b < fs_disksize s -> cached s b = None -> (exists i, (i < NBUF)%nat /\ is_unused (fs_buf s i) = true) ->
  wp (bread 1 b) (fun i s' => (i < NBUF)%nat /\ is_unused (fs_buf s i) = true /\
    buf_step i (held_buf s false b (fs_disk s b)) s s') s.
Proof.
  intros Hok Hb Hc (k & Hk & Hku). destruct (bget_misses s b Hok Hc) as (l & Hr & Hrun1 & Hrun2).
  destruct (find_ring s l (fun i => is_unused (fs_buf s i)) Hr) as (_ & _ & _ & Hs & _ & Hno).
  destruct (find _ (rev l)) as [i|] eqn:Hf; [|by rewrite (Hno eq_refl k Hk) in Hku].
  destruct (Hs i eq_refl) as [Hi Hu]. pose proof Hu as [Href Hdirty]%andb_true_iff. apply Z.eqb_eq in Href.
  pose proof (bo_buf s Hok i Hi) as Hbk.
  assert (sl_locked (bf_lock (fs_buf s i)) = false) as Hl.
  { rewrite (bk_ref _ _ _ Hbk) in Href. by destruct (sl_locked _). }
  apply wp_wpf. unfold bread, bget. apply wpf_bind. wnext. eapply wpf_step; [exact Hrun1|]. cbn match. wnext.
  eapply wpf_step; [exact Hrun2|]. cbn match. wnext.
  eapply wpf_step; [apply acquire_buf_run; cbn; by rewrite fn_lookup_insert|].
  eapply wpf_done; [reflexivity|]. wnext. set (s1 := put_buf_lock i _ _).
  assert (buf_step i (mkBuf false false 1 b (mkSleeplock true (fs_pid s)) 1 (bf_data (fs_buf s i))) s s1) as Hst.
  { eapply buf_step_trans; [apply (upd_buf_step i)|]. unfold s1, put_buf_lock.
    apply buf_step_upd.
    cbn. by rewrite fn_lookup_insert. }
  rewrite (bs_at _ _ _ _ Hst). cbn [bf_valid negb when]. apply wpf_bind.
  assert (fs_pid s1 = fs_pid s /\ fs_disksize s1 = fs_disksize s /\ fs_disk s1 = fs_disk s) as (Hp & Hsz & Hdk)
    by (rewrite (bs_rest _ _ _ _ Hst); done).
  eapply wpf_mono; [apply wpf_wp, (iderw_read s1 i _ (bs_at _ _ _ _ Hst)); cbn; rewrite ?Hp, ?Hsz; done || lia|].
  intros [] s2 Hst2. eapply wpf_done; [reflexivity|]. split_and!; [done..|]. rewrite Hdk in Hst2.
  by eapply buf_step_trans.
Qed.

Lemma bread_panics s b :
  bio_ok s -> cached s b = None -> (forall i, (i < NBUF)%nat -> is_unused (fs_buf s i) = false) ->
  bread 1 b s = Panic "bget: no buffers" s.
Proof.
  intros Hok Hc Hno. destruct (bget_misses s b Hok Hc) as (l & Hr & Hrun1 & Hrun2).
  destruct (find_ring s l (fun i => is_unused (fs_buf s i)) Hr) as (_ & _ & _ & Hs & _).
  destruct (find _ (rev l)) as [i|] eqn:Hf.
  { destruct (Hs i eq_refl) as [Hi Hu]. by rewrite Hno in Hu. }
  unfold bread, bget, bind, gets in *. rewrite Hrun1, Hrun2. done.
Qed.

(** What bread leaves: the invariant, the view, and the caller's buffer. *)
Record bread_post (b : Z) (s : fsys) (i : nat) (s' : fsys) : Prop := mkBreadPost {
  bp_range : (i < NBUF)%nat;
  bp_step : buf_step i (held_buf s (bf_dirty (fs_buf s' i)) b (view s b)) s s';
  bp_ok : bio_ok s';
  bp_view : forall c, view s' c = view s c;
  bp_was : (cached s b = Some i /\ bf_dirty (fs_buf s' i) = bf_dirty (fs_buf s i)) \/
           (cached s b = None /\ is_unused (fs_buf s i) = true /\ bf_dirty (fs_buf s' i) = false);
}.

(** The view after a change of one buffer. *)
Lemma view_step i bf' s s' c :
  bio_ok s -> bio_ok s' -> (i < NBUF)%nat -> buf_step i bf' s s' -> is_block 1 c (fs_buf s i) = false ->
  view s' c = if is_block 1 c bf' then bf_data bf' else view s c.
Proof.
  intros Hok Hok' Hi [Hat Hne Hr] Hnb. destruct (is_block 1 c bf') eqn:Hb.
  - rewrite <- Hat in Hb |- *. by apply view_at.
  - destruct (cached s c) as [j|] eqn:Hc.
    + pose proof (cached_Some s c j Hc) as [Hj Hjb]. assert (j <> i) as Hji by (intros ->; congruence).
      rewrite (view_at s c j) by done. rewrite <- Hne in Hjb |- * by done. by apply view_at.
    + unfold view at 2. rewrite Hc. rewrite view_none; [rewrite Hr; done|]. intros j Hj.
      destruct (decide (j = i)) as [->|]; [by rewrite Hat|]. rewrite Hne by done. by apply cached_None.
Qed.

Lemma held_buf_ok s d b dt :
  0 <= b < fs_disksize s -> Z.of_nat (length dt) = BSIZE -> buf_ok (fs_disk s) (fs_disksize s) (held_buf s d b dt).
Proof. intros Hb Hl. by split. Qed.

Lemma bread_ok s b :
  bio_ok s -> 0 <= b < fs_disksize s -> ~ locked_at s b -> avail s b ->
  wp (bread 1 b) (bread_post b s) s.
Proof.
  intros Hok Hb Hnl Hav. destruct (cached s b) as [i|] eqn:Hc.
  - eapply wp_mono; [by apply (bread_cached s i)|]. intros j s' (-> & Hst).
    pose proof (cached_Some s b i Hc) as [Hi Hib].
    assert (bio_ok s') as Hok'.
    { eapply buf_step_ok; [done..|by apply held_buf_ok, view_length|]. cbn. intros _ j Hj Hji.
      destruct (is_block 1 b (fs_buf s j)) eqn:E; [|done]. rewrite (cached_at s b j) in Hc by done. congruence. }
    pose proof (bs_at _ _ _ _ Hst) as Hat. split; try done; [by rewrite Hat|..]; [|left; by rewrite Hat].
    intros c. destruct (is_block 1 c (fs_buf s i)) eqn:Hci.
    + rewrite (view_at s c i) by done. apply is_block_true in Hci as [_ <-]. pose proof Hib as [_ Hbb]%is_block_true.
      rewrite (view_at s' _ i); [|done|done|rewrite Hat; by apply is_block_true]. rewrite Hat. cbn. by apply view_at.
    + rewrite (view_step i _ s s' c) by done. destruct (is_block 1 c (held_buf _ _ _ _)) eqn:E; [|done].
      apply is_block_true in E as [_ <-]. done.
  - destruct Hav as [?|Hun]; [done|].
    eapply wp_mono; [by apply bread_recycles|]. intros i s' (Hi & Hu & Hst).
    pose proof (bo_buf s Hok i Hi) as Hbk. pose proof Hu as [Href Hdirty]%andb_true_iff.
    assert (view s b = fs_disk s b) as Hv by (unfold view; by rewrite Hc).
    assert (bio_ok s') as Hok'.
    { eapply buf_step_ok; [done..|by apply held_buf_ok, bo_disk|]. cbn. intros _ j Hj _. by apply cached_None. }
    pose proof (bs_at _ _ _ _ Hst) as Hat. split; try done; [by rewrite Hat, Hv|..]; [|right; by rewrite Hat].
    intros c. destruct (is_block 1 c (fs_buf s i)) eqn:Hci.
    + rewrite (view_at s c i) by done. pose proof Hci as [Hdev Hbno]%is_block_true.
      apply Z.eqb_eq in Href. rewrite (bk_ref _ _ _ Hbk) in Href.
      assert (bf_data (fs_buf s i) = fs_disk s c) as ->.
      { rewrite <- Hbno. apply (bk_clean _ _ _ Hbk); [done|by destruct (bf_dirty _)|by destruct (sl_locked _)]. }
      rewrite view_none; [by rewrite (bs_rest _ _ _ _ Hst)|]. intros j Hj. destruct (decide (j = i)) as [->|Hji].
      * rewrite Hat. destruct (is_block 1 c (held_buf _ _ _ _)) eqn:E; [|done]. apply is_block_true in E as [_ E]. cbn in E. rewrite <- E in Hci.
        pose proof (cached_None s b i Hc Hi). congruence.
      * rewrite (bs_ne _ _ _ _ Hst) by done. destruct (is_block 1 c (fs_buf s j)) eqn:E; [|done].
        pose proof (cached_at s c j Hok Hj E). pose proof (cached_at s c i Hok Hi Hci). congruence.
    + rewrite (view_step i _ s s' c) by done. destruct (is_block 1 c (held_buf _ _ _ _)) eqn:E; [|done].
      apply is_block_true in E as [_ <-]. done.
Qed.

(** ** brelse *)

(** Buffer [i] is locked by the running process and belongs to the disk. *)
Definition holds_buf (s : fsys) (i : nat) : Prop :=
  (i < NBUF)%nat /\ bf_dev (fs_buf s i) = 1 /\ bf_lock (fs_buf s i) = mkSleeplock true (fs_pid s).

Record brelse_post (i : nat) (s s' : fsys) : Prop := mkBrelsePost {
  br_at : fs_buf s' i = set_bf_refcnt 0 (set_bf_lock (mkSleeplock false 0) (fs_buf s i));
  br_ne : forall j, j <> i -> fs_buf s' j = fs_buf s j;
  br_rest : s' = set_fs_bnext (fs_bnext s') (set_fs_bprev (fs_bprev s') (set_fs_buf (fs_buf s') s));
  br_ok : bio_ok s';
  br_view : forall c, view s' c = view s c;
}.

(** The view depends on the buffers and the disk only. *)
Lemma view_ext s s' c :
  (forall i, (i < NBUF)%nat -> is_block 1 c (fs_buf s' i) = is_block 1 c (fs_buf s i) /\
     bf_data (fs_buf s' i) = bf_data (fs_buf s i)) ->
  fs_disk s' c = fs_disk s c -> view s' c = view s c.
Proof.
  intros Heq Hd. unfold view. assert (cached s' c = cached s c) as Hc.
  { unfold cached. assert (forall l, (forall i, i ∈ l -> (i < NBUF)%nat) ->
      find (fun i => is_block 1 c (fs_buf s' i)) l = find (fun i => is_block 1 c (fs_buf s i)) l) as Hl.
    { induction l as [|i l IH]; intros Hin; [done|]. simpl. destruct (Heq i) as [-> _]; [apply Hin; set_solver|].
      destruct (is_block 1 c (fs_buf s i)); [done|]. apply IH. set_solver. }
    apply Hl. intros i. rewrite elem_of_seq. lia. }
  rewrite Hc. destruct (cached s c) as [i|] eqn:E; [|done]. apply cached_Some in E as [Hi _]. by apply Heq.
Qed.

Lemma brelse_ok s i :
  bio_ok s -> holds_buf s i ->
  (bf_dirty (fs_buf s i) = false -> bf_data (fs_buf s i) = fs_disk s (bf_blockno (fs_buf s i))) ->
  wp (brelse i) (fun _ s' => brelse_post i s s') s.
Proof.
  intros Hok (Hi & Hdev & Hl) Hclean. pose proof (bo_buf s Hok i Hi) as Hbk. apply wp_wpf. unfold brelse.
  eapply wpf_step; [by apply holding_buf|]. cbn [negb]. wnext. wnext. wnext.
  set (s1 := upd_buf i _ (put_buf_lock i _ s)).
  set (bf1 := set_bf_refcnt 0 (set_bf_lock (mkSleeplock false 0) (fs_buf s i))).
  assert (buf_step i bf1 s s1) as Hst.
  { eapply buf_step_trans; [apply (upd_buf_step i)|]. unfold s1, put_buf_lock.
    apply buf_step_upd.
    cbn. rewrite fn_lookup_insert. cbn. rewrite (bk_ref _ _ _ Hbk), Hl. done. }
  assert (bio_ok s1) as Hok1.
  { eapply buf_step_ok; [done..| |].
    - destruct Hbk. split; cbn; try done. auto.
    - cbn. intros _ j Hj Hji. destruct (is_block _ _ (fs_buf s j)) eqn:E; [|done].
      apply is_block_true in E as [? ?]. exfalso. apply Hji. by apply (bo_unique s Hok). }
  rewrite (bs_at _ _ _ _ Hst). cbn [bf1 set_bf_refcnt bf_refcnt Z.eqb when]. clearbody s1.
  wnext. wnext. wnext. wnext. eapply wpf_done; [apply link_front_run; lia|].
  change (set_fs_bnext _ (set_fs_bprev _ s1)) with (unlinked s1 i). set (s2 := linked_front (unlinked s1 i) i).
  destruct (bo_ring s1 Hok1) as [l Hr]. destruct (ring_to_front s1 l i Hr Hi) as [l' Hr'].
  pose proof (bs_rest _ _ _ _ Hst) as Hrest.
  assert (forall c, view s1 c = view s c) as Hv.
  { intros c. apply view_ext; [|by rewrite Hrest]. intros j Hj. destruct (decide (j = i)) as [->|].
    - by rewrite (bs_at _ _ _ _ Hst).
    - by rewrite (bs_ne _ _ _ _ Hst). }
  split.
  - apply Hst.
  - apply Hst.
  - unfold s2. rewrite Hrest. done.
  - destruct Hok1 as [_ Hb Hu Hd]. split; [by exists l'|exact Hb|exact Hu|exact Hd].
  - intros c. rewrite <- Hv. by apply view_ext.
Qed.

(** ** bwrite *)

Record bwrite_post (i : nat) (s s' : fsys) : Prop := mkBwritePost {
  bw_at : fs_buf s' i = set_bf_dirty false (fs_buf s i);
  bw_ne : forall j, j <> i -> fs_buf s' j = fs_buf s j;
  bw_disk : forall b, fs_disk s' b = if decide (b = bf_blockno (fs_buf s i)) then bf_data (fs_buf s i) else fs_disk s b;
  bw_writes : fs_writes s' = fs_writes s ++ [(bf_blockno (fs_buf s i), bf_data (fs_buf s i))];
  bw_rest : s' = set_fs_writes (fs_writes s') (set_fs_disk (fs_disk s') (set_fs_buf (fs_buf s') s));
  bw_ok : bio_ok s';
  bw_view : forall c, view s' c = view s c;
}.

Lemma bwrite_run s i :
  bio_ok s -> holds_buf s i ->
  wp (bwrite i) (fun _ s' => fs_buf s' i = set_bf_dirty false (fs_buf s i) /\
    (forall j, j <> i -> fs_buf s' j = fs_buf s j) /\
    fs_disk s' = <[bf_blockno (fs_buf s i) := bf_data (fs_buf s i)]> (fs_disk s) /\
    fs_writes s' = fs_writes s ++ [(bf_blockno (fs_buf s i), bf_data (fs_buf s i))] /\
    s' = set_fs_writes (fs_writes s') (set_fs_disk (fs_disk s') (set_fs_buf (fs_buf s') s))) s.
Proof.
  intros Hok (Hi & Hdev & Hl). pose proof (bo_buf s Hok i Hi) as Hbk.
  pose proof (bk_range _ _ _ Hbk Hdev) as Hrange. apply wp_wpf. unfold bwrite.
  eapply wpf_step; [by apply holding_buf|]. cbn [negb]. wnext. unfold iderw.
  eapply wpf_step; [apply holding_buf; cbn; rewrite fn_lookup_insert; done|]. cbn [negb]. wnext. cbn.
  rewrite fn_lookup_insert. cbn. rewrite andb_false_r, Hdev. cbn. wnext. cbn.
  destruct (Z.leb_spec (fs_disksize s) (bf_blockno (fs_buf s i))); [lia|].
  apply wpf_bind. wnext. wnext. eapply wpf_done; [reflexivity|]. eapply wpf_done; [reflexivity|]. cbn.
  rewrite !fn_lookup_insert. split_and!; try done.
  - pose proof (bk_valid _ _ _ Hbk Hdev) as Hv. destruct (fs_buf s i). cbn in *. by subst.
  - intros j Hj. by rewrite !fn_lookup_insert_ne.
  - unfold upd_buf. cbn. by rewrite !fn_lookup_insert.
Qed.

Lemma bwrite_ok s i :
  bio_ok s -> holds_buf s i -> wp (bwrite i) (fun _ s' => bwrite_post i s s') s.
Proof.
  intros Hok Hh. pose proof Hh as (Hi & Hdev & Hl). pose proof (bo_buf s Hok i Hi) as Hbk.
  eapply wp_mono; [by apply bwrite_run|]. intros [] s' (Hat & Hne & Hd & Hw & Hr).
  assert (forall b, fs_disk s' b = if decide (b = bf_blockno (fs_buf s i)) then bf_data (fs_buf s i) else fs_disk s b) as Hdk.
  { intros b. rewrite Hd. destruct (decide _) as [->|]; [by rewrite fn_lookup_insert|by rewrite fn_lookup_insert_ne]. }
  assert (forall j, (j < NBUF)%nat -> j <> i -> bf_dev (fs_buf s j) = 1 ->
    bf_blockno (fs_buf s j) <> bf_blockno (fs_buf s i)) as Huq.
  { intros j Hj Hji Hjd He. apply Hji. by apply (bo_unique s Hok). }
  assert (fs_disksize s' = fs_disksize s) as Hsz by (rewrite Hr; done).
  assert (bio_ok s') as Hok'.
  { split.
    - destruct (bo_ring s Hok) as [l Hl']. exists l. by rewrite Hr.
    - intros j Hj. rewrite Hsz. destruct (decide (j = i)) as [->|Hji].
      + rewrite Hat. destruct Hbk. split; cbn; try done. intros _ _ _. by rewrite Hdk, decide_True.
      + rewrite Hne by done. destruct (bo_buf s Hok j Hj). split; try done. intros H1 H2 H3.
        rewrite Hdk, decide_False by auto. auto.
    - intros j k Hj Hk. destruct (decide (j = i)) as [->|], (decide (k = i)) as [->|]; rewrite ?Hat, ?Hne by done;
        intros; by apply (bo_unique s Hok).
    - intros b Hb. rewrite Hsz in Hb. rewrite Hdk. destruct (decide _); [by apply (bk_len _ _ _ Hbk)|by apply bo_disk]. }
  split; try done. intros c. destruct (decide (c = bf_blockno (fs_buf s i))) as [->|Hc].
  - rewrite (view_at s _ i), (view_at s' _ i); rewrite ?Hat; try done; by apply is_block_true.
  - apply view_ext; [|by rewrite Hdk, decide_False]. intros j Hj.
    destruct (decide (j = i)) as [->|]; [by rewrite Hat|by rewrite Hne].
Qed.

(** ** binit *)

(** The buffers as the loader leaves them: zero, so in no use. *)
Definition fresh_bufs (s : fsys) : Prop :=
  forall i, (i < NBUF)%nat -> bf_dev (fs_buf s i) = 0 /\ bf_dirty (fs_buf s i) = false /\ bf_refcnt (fs_buf s i) = 0.

Lemma chain_link_front s l b :
  chain (fs_bnext s) (fs_bprev s) NBUF l NBUF -> NoDup (NBUF :: l) -> b ∉ NBUF :: l ->
  chain (fs_bnext (linked_front s b)) (fs_bprev (linked_front s b)) NBUF (b :: l) NBUF.
Proof.
  intros Hc Hnd Hb. pose proof Hnd as [Hn _]%NoDup_cons. apply (chain_push _ _ NBUF l NBUF b); try done. set_solver.
Qed.

Lemma binit_ok s :
  fresh_bufs s -> (forall b, 0 <= b < fs_disksize s -> Z.of_nat (length (fs_disk s b)) = BSIZE) ->
  wp binit (fun _ s' => bio_ok s' /\ fresh_bufs s' /\
    s' = set_fs_bnext (fs_bnext s') (set_fs_bprev (fs_bprev s') (set_fs_buf (fs_buf s') s))) s.
Proof.
  intros Hf Hd. apply wp_wpf. unfold binit. wnext. wnext.
  apply (wpf_for_each _ (fun done_ s' => chain (fs_bnext s') (fs_bprev s') NBUF (reverse done_) NBUF /\
    (forall i, i ∈ done_ -> sl_locked (bf_lock (fs_buf s' i)) = false) /\ fresh_bufs s' /\
    s' = set_fs_bnext (fs_bnext s') (set_fs_bprev (fs_bprev s') (set_fs_buf (fs_buf s') s)))).
  - cbn. rewrite !fn_lookup_insert. split; [done|]. split; [set_solver|]. done.
  - intros pre b todo s1 Hl (Hc & Hu & Hf1 & Hr).
    assert (NoDup (pre ++ b :: todo)) as Hnd by (rewrite <- Hl; apply NoDup_seq).
    assert (forall x, x ∈ pre ++ b :: todo -> (x < NBUF)%nat) as Hlt by (intros x; rewrite <- Hl, elem_of_seq; lia).
    assert (b < NBUF)%nat as Hb by (apply Hlt; set_solver).
    apply NoDup_app in Hnd as (Hnd & Hpb & _).
    assert (NBUF ∉ reverse pre) as Hn1.
    { rewrite elem_of_reverse. intros Hin. specialize (Hlt NBUF ltac:(set_solver)). lia. }
    eapply wpf_step; [apply link_front_run; lia|]. eapply wpf_done; [reflexivity|].
    rewrite reverse_snoc. split; [|split; [|split]].
    + apply (chain_link_front s1 (reverse pre) b Hc); [constructor; [done|by rewrite reverse_Permutation]|].
      rewrite elem_of_cons, elem_of_reverse. intros [->|Hin]; [lia|]. apply (Hpb b Hin). set_solver.
    + intros i Hi. cbn. destruct (decide (i = b)) as [->|]; [by rewrite fn_lookup_insert|].
      rewrite fn_lookup_insert_ne by done. apply Hu. set_solver.
    + intros i Hi. cbn. destruct (decide (i = b)) as [->|]; [rewrite fn_lookup_insert|rewrite fn_lookup_insert_ne by done]; by apply Hf1.
    + rewrite Hr. done.
  - intros s' (Hc & Hu & Hf1 & Hr). split; [|done]. split.
    + exists (reverse (seq 0 NBUF)). split; [done|]. apply reverse_Permutation.
    + intros i Hi. destruct (Hf1 i Hi) as (Hdev & Hdirty & Href).
      split; rewrite ?Hdev, ?Hdirty; try done. rewrite Hu by (apply elem_of_seq; lia). done.
    + intros i j Hi Hj Hdev. destruct (Hf1 i Hi) as [H0 _]. congruence.
    + by rewrite Hr.
Qed.

(** A locked block: bread counts itself in and sleeps. *)
Lemma bread_waits s b : bio_ok s -> locked_at s b -> exists s', bread 1 b s = NoFuel s'.
Proof.
  intros Hok (i & Hi & Hb & Hl). destruct (bo_ring s Hok) as [l Hr].
  destruct (find_ring s l (fun i => is_block 1 b (fs_buf s i)) Hr) as (Hn & Hlen & Hs & _ & Hno & _).
  pose proof (bget_cached_find s 1 b NBUF l (S NBUF) (proj1 Hr) Hn Hlen) as Hrun.
  destruct (find _ l) as [j|] eqn:Hf; [|rewrite (Hno eq_refl i Hi) in Hb; done].
  destruct (Hs j eq_refl) as [Hj Hjb]. apply is_block_true in Hb as [? ?], Hjb as [? ?].
  assert (j = i) as -> by (apply (bo_unique s Hok); congruence).
  unfold bread, bget, bind, gets, modify in *. rewrite Hrun. unfold acquiresleep, bind, gets, buf_lock. cbn.
  rewrite fn_lookup_insert. cbn. rewrite Hl. by eexists.
Qed.
