(* ===== verification/Log.v ===== *)
(** * log.c

    The redo log.  A transaction is the set of blocks that log_write has
    pinned in the cache; commit copies them to the log, writes the header
    (which commits), copies them home, and clears the header.  Recovery at
    boot repeats the copy home.  A wait for space or for a commit in progress
    is a sleep in a loop, [NoFuel] in a run of one process by itself. *)

From S2P Require Import Prelude FsState Bio.

Local Open Scope c_scope.
Local Open Scope Z_scope.

(** ** The header block: n, then block[LOGSIZE] *)

Definition head_n (b : block) : Z := i32 (get32 b 0).
Definition head_block (b : block) (i : nat) : Z := i32 (get32 b (4 + 4 * Z.of_nat i)).

Definition sizeof_logheader : Z := 4 + 4 * LOGSIZE.

(** readsb (fs.c) *)
Definition decode_sb (b : block) : superblock :=
  mkSuperblock (get32 b 0) (get32 b 4) (get32 b 8) (get32 b 12) (get32 b 16) (get32 b 20) (get32 b 24).

Definition readsb (dev : Z) : M fsys superblock :=
  bp <- bread dev 1 ;;
  d <- bdata bp ;;
  brelse bp ;;
  ret (decode_sb d).

Definition get_log : M fsys log := gets fs_log.

(** Copy committed blocks from log to their home location *)
Definition install_one (tail : nat) : M fsys unit :=
  lg <- get_log ;;
  lbuf <- bread (lg_dev lg) (lg_start lg + Z.of_nat tail + 1) ;;
  dbuf <- bread (lg_dev lg) (lg_block lg tail) ;;
  d <- bdata lbuf ;;
  set_bdata dbuf d ;;
  bwrite dbuf ;;
  brelse lbuf ;;
  brelse dbuf.

Definition install_trans : M fsys unit :=
  lg <- get_log ;;
  for_each (seq 0 (Z.to_nat (lg_n lg))) install_one.

(** Read the log header from disk; a count above LOGSIZE writes beyond
    log.lh.block. *)
Definition read_head : M fsys unit :=
  lg <- get_log ;;
  bp <- bread (lg_dev lg) (lg_start lg) ;;
  d <- bdata bp ;;
  modify (upd_log (set_lg_n (head_n d))) ;;
  (if LOGSIZE <? head_n d then undef
   else for_each (seq 0 (Z.to_nat (head_n d))) (fun i =>
     modify (upd_log (fun l => set_lg_block (<[i := head_block d i]> (lg_block l)) l)))) ;;
  brelse bp.

(** Write the in-memory header to disk: the commit point. *)
Definition write_head : M fsys unit :=
  lg <- get_log ;;
  bp <- bread (lg_dev lg) (lg_start lg) ;;
  d <- bdata bp ;;
  set_bdata bp (put32 0 (u32 (lg_n lg)) d) ;;
  for_each (seq 0 (Z.to_nat (lg_n lg))) (fun i =>
    d <- bdata bp ;;
    set_bdata bp (put32 (4 + 4 * Z.of_nat i) (u32 (lg_block lg i)) d)) ;;
  bwrite bp ;;
  brelse bp.

Definition recover_from_log : M fsys unit :=
  read_head ;;
  install_trans ;;
  modify (upd_log (set_lg_n 0)) ;;
  write_head.

Definition initlog (dev : Z) : M fsys unit :=
  if BSIZE <=? sizeof_logheader then panic "initlog: too big logheader"
  else
    sb <- readsb dev ;;
    modify (upd_log (fun l => set_lg_dev dev (set_lg_size (sb_nlog sb) (set_lg_start (sb_logstart sb) l)))) ;;
    recover_from_log.

(** ** Transactions *)

(** begin_op may go ahead. *)
Definition op_fits (lg : log) : bool :=
  negb (lg_committing lg) && (lg_n lg + (lg_outstanding lg + 1) * MAXOPBLOCKS <=? LOGSIZE).

Definition begin_op : M fsys unit :=
  lg <- get_log ;;
  if op_fits lg then modify (upd_log (fun l => set_lg_outstanding (lg_outstanding l + 1) l))
  else out_of_fuel.

(** Copy modified blocks from cache to log. *)
Definition log_one (tail : nat) : M fsys unit :=
  lg <- get_log ;;
  to <- bread (lg_dev lg) (lg_start lg + Z.of_nat tail + 1) ;;
  from <- bread (lg_dev lg) (lg_block lg tail) ;;
  d <- bdata from ;;
  set_bdata to d ;;
  bwrite to ;;
  brelse from ;;
  brelse to.

Definition write_log : M fsys unit :=
  lg <- get_log ;;
  for_each (seq 0 (Z.to_nat (lg_n lg))) log_one.

Definition commit : M fsys unit :=
  lg <- get_log ;;
  when (0 <? lg_n lg)
    (write_log ;;
     write_head ;;
     install_trans ;;
     modify (upd_log (set_lg_n 0)) ;;
     write_head).

Definition end_op : M fsys unit :=
  modify (upd_log (fun l => set_lg_outstanding (lg_outstanding l - 1) l)) ;;
  lg <- get_log ;;
  if lg_committing lg then panic "log.committing"
  else if lg_outstanding lg =? 0 then
    modify (upd_log (set_lg_committing true)) ;;
    commit ;;
    modify (upd_log (set_lg_committing false))
  else ret tt.

(** The index log_write uses: of the block if it is there, else n. *)
Fixpoint log_slot (lg : log) (bno : Z) (i : nat) (left : nat) : nat :=
  match left with
  | O => i
  | S left' => if lg_block lg i =? bno then i else log_slot lg bno (S i) left'
  end.

Definition log_add (bno : Z) (lg : log) : log :=
  let i := log_slot lg bno 0 (Z.to_nat (lg_n lg)) in
  let lg := set_lg_block (<[i := bno]> (lg_block lg)) lg in
  if Z.of_nat i =? lg_n lg then set_lg_n (lg_n lg + 1) lg else lg.

Definition log_write (b : nat) : M fsys unit :=
  lg <- get_log ;;
  if (LOGSIZE <=? lg_n lg) || (lg_size lg - 1 <=? lg_n lg) then panic "too big a transaction"
  else if lg_outstanding lg <? 1 then panic "log_write outside of trans"
  else
    bno <- gets (fun s => bf_blockno (fs_buf s b)) ;;
    modify (upd_log (log_add bno)) ;;
    modify (upd_buf b (set_bf_dirty true)).
