(* ===== verification/LogInv.v ===== *)
(** * The log commits atomically

    [io W s s']: between [s] and [s'] the blocks [W] were written, in that
    order, and no buffer stays locked.  Each step of commit and of recovery is
    such a transition, so the disk a crash leaves is the effect of a prefix of
    the writes.  [logical] is the content that recovery restores from a disk. *)

From S2P Require Import Prelude FsState Bio BioInv Log.

Local Open Scope c_scope.
Local Open Scope Z_scope.

(** ** Sequences of block writes *)

Fixpoint apply_writes (W : list (Z * block)) (d : Z -> block) : Z -> block :=
  match W with
  | [] => d
  | (b, x) :: W' => apply_writes W' (<[b := x]> d)
  end.

Lemma apply_writes_app W1 W2 d : apply_writes (W1 ++ W2) d = apply_writes W2 (apply_writes W1 d).
Proof. revert d. induction W1 as [|[b x] W1 IH]; intros d; simpl; [done|apply IH]. Qed.

Lemma apply_writes_ext W d d' c : d c = d' c -> apply_writes W d c = apply_writes W d' c.
Proof.
  revert d d'. induction W as [|[b x] W IH]; intros d d' He; simpl; [done|]. apply IH.
  destruct (decide (b = c)) as [->|]; [by rewrite !fn_lookup_insert|by rewrite !fn_lookup_insert_ne].
Qed.

Lemma apply_writes_out W d c : c ∉ W.*1 -> apply_writes W d c = d c.
Proof.
  revert d. induction W as [|[b x] W IH]; intros d Hc; simpl; [done|]. simpl in Hc.
  rewrite IH by set_solver. apply fn_lookup_insert_ne. set_solver.
Qed.

(** What is written at [c] does not depend on what was there. *)
Lemma apply_writes_in W d d' c : c ∈ W.*1 -> apply_writes W d c = apply_writes W d' c.
Proof.
  revert d d'. induction W as [|[b x] W IH]; intros d d' Hc; simpl; [set_solver|].
  destruct (decide (c ∈ W.*1)) as [Hin|Hout]; [by apply IH|].
  assert (c = b) as -> by set_solver. by rewrite !apply_writes_out, !fn_lookup_insert by done.
Qed.

Lemma apply_writes_nodup W d b x : NoDup W.*1 -> (b, x) ∈ W -> apply_writes W d b = x.
Proof.
  revert d. induction W as [|[c y] W IH]; intros d Hnd Hin; [set_solver|]. simpl in *.
  apply NoDup_cons in Hnd as [Hc Hnd]. apply elem_of_cons in Hin as [[= -> ->]|Hin]; [|by apply IH].
  by rewrite apply_writes_out, fn_lookup_insert.
Qed.

(** ** Transitions that write blocks *)

Definition dirty_at (s : fsys) (b : Z) : Prop :=
  exists i, (i < NBUF)%nat /\ is_block 1 b (fs_buf s i) = true /\ bf_dirty (fs_buf s i) = true.

Definition unlocked (s : fsys) : Prop := forall i, (i < NBUF)%nat -> sl_locked (bf_lock (fs_buf s i)) = false.

(** Everything but the cache and the disk. *)
Record same_rest (s s' : fsys) : Prop := mkSameRest {
  sr_size : fs_disksize s' = fs_disksize s;
  sr_log : fs_log s' = fs_log s;
  sr_sb : fs_sb s' = fs_sb s;
  sr_inode : fs_inode s' = fs_inode s;
  sr_pid : fs_pid s' = fs_pid s;
  sr_cwd : fs_cwd s' = fs_cwd s;
}.

Lemma same_rest_refl s : same_rest s s.
Proof. by split. Qed.

Lemma same_rest_trans s1 s2 s3 : same_rest s1 s2 -> same_rest s2 s3 -> same_rest s1 s3.
Proof. intros [] []. split; congruence. Qed.

Record io (W : list (Z * block)) (s s' : fsys) : Prop := mkIo {
  io_ok : bio_ok s';
  io_unlocked : unlocked s';
  io_writes : fs_writes s' = fs_writes s ++ W;
  io_disk : forall b, fs_disk s' b = apply_writes W (fs_disk s) b;
  io_view : forall b, view s' b = apply_writes W (view s) b;
  io_dirty : forall b, dirty_at s' b <-> dirty_at s b /\ b ∉ W.*1;
  io_rest : same_rest s s';
}.

Lemma io_refl s : bio_ok s -> unlocked s -> io [] s s.
Proof. intros Hok Hu. split; auto using same_rest_refl; [by rewrite app_nil_r|set_solver]. Qed.

Lemma io_trans W1 W2 s s1 s2 : io W1 s s1 -> io W2 s1 s2 -> io (W1 ++ W2) s s2.
Proof.
  intros [? ? Hw1 Hd1 Hv1 Hdi1 Hr1] [? ? Hw2 Hd2 Hv2 Hdi2 Hr2]. split; try done.
  - by rewrite Hw2, Hw1, app_assoc.
  - intros b. rewrite Hd2, apply_writes_app. by apply apply_writes_ext.
  - intros b. rewrite Hv2, apply_writes_app. by apply apply_writes_ext.
  - intros b. rewrite Hdi2, Hdi1, fmap_app, elem_of_app. tauto.
  - by eapply same_rest_trans.
Qed.

(** A run of steps, one for each element of a list. *)
Lemma io_for_each {A} (l : list A) body (W : A -> Z * block) s (P : list A -> fsys -> Prop) :
  bio_ok s -> unlocked s -> P [] s ->
  (forall pre x todo s1, l = pre ++ x :: todo -> io (W <$> pre) s s1 -> P pre s1 ->
     wp (body x) (fun _ s2 => io [W x] s1 s2 /\ P (pre ++ [x]) s2) s1) ->
  wp (for_each l body) (fun _ s' => io (W <$> l) s s' /\ P l s') s.
Proof.
  intros Hok Hu HP Hstep. apply (wp_for_each (fun pre s1 => io (W <$> pre) s s1 /\ P pre s1)).
  - split; [by apply io_refl|done].
  - intros pre x todo s1 Hl [Hio HP1]. eapply wp_mono; [by eapply Hstep|]. intros [] s2 [Hio2 HP2].
    split; [|done]. rewrite fmap_app. by eapply io_trans.
  - done.
Qed.

(** ** Space in the cache *)

Lemma unlocked_at s b : unlocked s -> ~ locked_at s b.
Proof. intros Hu (i & Hi & _ & Hl). rewrite Hu in Hl by done. done. Qed.

Lemma unused_clean s i : bio_ok s -> unlocked s -> (i < NBUF)%nat -> is_unused (fs_buf s i) = negb (bf_dirty (fs_buf s i)).
Proof. intros Hok Hu Hi. unfold is_unused. by rewrite (bk_ref _ _ _ (bo_buf s Hok i Hi)), Hu. Qed.

(** With fewer than NBUF dirty blocks some buffer is unused. *)
Lemma room s L :
  bio_ok s -> unlocked s -> (forall b, dirty_at s b -> b ∈ L) -> (length L < NBUF)%nat ->
  exists i, (i < NBUF)%nat /\ is_unused (fs_buf s i) = true.
Proof.
  intros Hok Hu HL Hlen. destruct (List.find (fun i => is_unused (fs_buf s i)) (seq 0 NBUF)) as [i|] eqn:Hf.
  { apply find_some in Hf as [Hi%in_seq Hun]. exists i. split; [lia|done]. }
  exfalso. assert (forall i, (i < NBUF)%nat -> bf_dirty (fs_buf s i) = true) as Hall.
  { intros i Hi. assert (is_unused (fs_buf s i) = false) as Hn by (apply (find_none _ _ Hf i), in_seq; lia).
    rewrite unused_clean in Hn by done. by destruct (bf_dirty _). }
  assert (forall i, (i < NBUF)%nat -> bf_dev (fs_buf s i) = 1) as Hdev.
  { intros i Hi. apply (bk_dirty _ _ _ (bo_buf s Hok i Hi)), Hall. done. }
  assert (NoDup ((fun i => bf_blockno (fs_buf s i)) <$> seq 0 NBUF)) as Hnd.
  { apply NoDup_fmap_2_strong; [|apply NoDup_seq]. intros i j Hi Hj He.
    apply elem_of_seq in Hi, Hj. apply (bo_unique s Hok); try apply Hdev; (done || lia). }
  assert (((fun i => bf_blockno (fs_buf s i)) <$> seq 0 NBUF) ⊆+ L) as Hsub.
  { apply NoDup_submseteq; [done|]. intros b (i & -> & Hi)%list_elem_of_fmap. apply elem_of_seq in Hi. apply HL.
    exists i. split_and!; [lia| |apply Hall; lia]. apply is_block_true. split; [|done].
    apply Hdev. lia. }
  apply submseteq_length in Hsub. rewrite length_fmap, length_seq in Hsub. lia.
Qed.

(** ** The same with buffers held

    [H]: the buffers the running process has locked, with their blocks. *)

Record tr (W : list (Z * block)) (H : list (nat * Z)) (s s' : fsys) : Prop := mkTr {
  tr_ok : bio_ok s';
  tr_held : forall i b, (i, b) ∈ H -> holds_buf s' i /\ is_block 1 b (fs_buf s' i) = true;
  tr_free : forall i, (i < NBUF)%nat -> i ∉ H.*1 -> sl_locked (bf_lock (fs_buf s' i)) = false;
  tr_clean : forall i b, (i, b) ∈ H -> bf_dirty (fs_buf s' i) = false -> bf_data (fs_buf s' i) = fs_disk s' b;
  tr_writes : fs_writes s' = fs_writes s ++ W;
  tr_disk : forall b, fs_disk s' b = apply_writes W (fs_disk s) b;
  tr_view : forall b, view s' b = apply_writes W (view s) b;
  tr_dirty : forall b, dirty_at s' b <-> dirty_at s b /\ b ∉ W.*1;
  tr_rest : same_rest s s';
}.

Lemma io_tr W s s' : io W s s' <-> tr W [] s s'.
Proof.
  split; intros [].
  - split; try done; [set_solver|auto|set_solver].
  - split; try done. intros i Hi. apply tr_free0; [done|set_solver].
Qed.

Lemma tr_not_locked W H s s' b : tr W H s s' -> b ∉ H.*2 -> ~ locked_at s' b.
Proof.
  intros Ht Hb (i & Hi & Hib & Hl). destruct (decide (i ∈ H.*1)) as [Hin|Hout].
  - apply list_elem_of_fmap in Hin as ([i' c] & -> & Hin). destruct (tr_held _ _ _ _ Ht _ _ Hin) as [_ Hc].
    apply is_block_true in Hc as [_ Hc], Hib as [_ Hib]. simpl in *. apply Hb, list_elem_of_fmap.
    exists (i', c). split; [simpl; congruence|done].
  - rewrite (tr_free _ _ _ _ Ht) in Hl by done. done.
Qed.

(** The same dirty blocks, when one buffer changes. *)
Lemma dirty_at_step s s' i b0 :
  (forall j, j <> i -> fs_buf s' j = fs_buf s j) ->
  is_block 1 b0 (fs_buf s' i) = true ->
  (is_block 1 b0 (fs_buf s i) = true /\ bf_dirty (fs_buf s' i) = bf_dirty (fs_buf s i)) \/
  (bf_dirty (fs_buf s i) = false /\ bf_dirty (fs_buf s' i) = false) ->
  forall b, dirty_at s' b <-> dirty_at s b.
Proof.
  intros Hne Hb' Hcase b. split; intros (j & Hj & Hjb & Hd).
  - destruct (decide (j = i)) as [->|Hji]; [|rewrite Hne in Hjb, Hd by done; by exists j].
    destruct Hcase as [[Hb He]|[_ He]]; [|congruence]. exists i. split; [done|]. rewrite <- He. split; [|done].
    apply is_block_true in Hb as [? ?], Hb' as [? ?], Hjb as [? ?]. apply is_block_true. split; congruence.
  - destruct (decide (j = i)) as [->|Hji]; [|exists j; rewrite Hne by done; done].
    destruct Hcase as [[Hb He]|[He _]]; [|congruence]. exists i. split; [done|]. rewrite He. split; [|done].
    apply is_block_true in Hb as [? ?], Hb' as [? ?], Hjb as [? ?]. apply is_block_true. split; congruence.
Qed.

Lemma bread_tr W H s s1 b :
  tr W H s s1 -> 0 <= b < fs_disksize s1 -> b ∉ H.*2 -> avail s1 b ->
  wp (bread 1 b) (fun i s2 => tr W ((i, b) :: H) s s2 /\ (i ∉ H.*1) /\ bf_data (fs_buf s2 i) = view s1 b /\
    fs_buf s2 i = held_buf s1 (bf_dirty (fs_buf s2 i)) b (view s1 b) /\
    (forall j, j <> i -> fs_buf s2 j = fs_buf s1 j)) s1.
Proof.
  intros Ht Hb HbH Hav. eapply wp_mono; [apply bread_ok; [apply Ht|done|by eapply tr_not_locked|done]|].
  intros i s2 [Hi Hst Hok Hv Hwas]. pose proof (bs_at _ _ _ _ Hst) as Hat. pose proof (bs_ne _ _ _ _ Hst) as Hne.
  pose proof (bs_rest _ _ _ _ Hst) as Hr.
  assert (i ∉ H.*1) as HiH.
  { intros ([i' c] & -> & Hin)%list_elem_of_fmap. simpl in *.
    destruct (tr_held _ _ _ _ Ht _ _ Hin) as [(_ & Hdev & Hl) Hc].
    destruct Hwas as [[Hca _]|(_ & Hun & _)].
    - apply cached_Some in Hca as [_ Hca]. apply is_block_true in Hc as [_ Hc], Hca as [_ Hca]. apply HbH.
      apply list_elem_of_fmap. exists (i', c). split; [simpl; congruence|done].
    - apply andb_true_iff in Hun as [Hun _]. apply Z.eqb_eq in Hun.
      rewrite (bk_ref _ _ _ (bo_buf _ (tr_ok _ _ _ _ Ht) i' Hi)), Hl in Hun. done. }
  split; [|by rewrite Hat; auto]. split.
  - done.
  - intros j c [[= -> ->]|Hin]%elem_of_cons.
    + unfold holds_buf. rewrite Hat, Hr. cbn. rewrite !Z.eqb_refl. done.
    + assert (j <> i) by (intros ->; apply HiH, list_elem_of_fmap; by exists (i, c)).
      unfold holds_buf. rewrite Hne by done. rewrite Hr. by apply (tr_held _ _ _ _ Ht).
  - intros j Hj Hn. simpl in Hn. rewrite Hne by set_solver. apply (tr_free _ _ _ _ Ht); [done|set_solver].
  - intros j c [[= -> ->]|Hin]%elem_of_cons Hd.
    + rewrite Hat. cbn. rewrite Hr. cbn. destruct Hwas as [[Hca Hdd]|(Hca & _)].
      * unfold view. rewrite Hca. apply cached_Some in Hca as [_ Hca]. apply is_block_true in Hca as [Hdev <-].
        apply (bk_clean _ _ _ (bo_buf _ (tr_ok _ _ _ _ Ht) i Hi)); [done|congruence|by apply (tr_free _ _ _ _ Ht)].
      * unfold view. by rewrite Hca.
    + assert (j <> i) by (intros ->; apply HiH, list_elem_of_fmap; by exists (i, c)).
      rewrite Hne in Hd |- * by done. rewrite Hr. by apply (tr_clean _ _ _ _ Ht).
  - rewrite Hr. apply Ht.
  - intros c. rewrite Hr. apply Ht.
  - intros c. rewrite Hv. apply Ht.
  - intros c. rewrite <- (tr_dirty _ _ _ _ Ht). apply (dirty_at_step s1 s2 i b); [done|rewrite Hat; by apply is_block_true|].
    destruct Hwas as [[Hca Hdd]|(Hca & Hun & Hdd)]; [left|right].
    + apply cached_Some in Hca as [_ Hca]. done.
    + apply andb_true_iff in Hun as [_ Hun]. split; [by destruct (bf_dirty (fs_buf s1 i))|done].
  - eapply same_rest_trans; [apply Ht|]. rewrite Hr. by split.
Qed.

Lemma tr_perm W H H' s s' : Permutation H H' -> tr W H s s' -> tr W H' s s'.
Proof.
  intros Hp [? Hh Hf Hc]. split; try done.
  - intros i b. rewrite <- Hp. apply Hh.
  - intros i Hi. rewrite <- Hp. by apply Hf.
  - intros i b. rewrite <- Hp. apply Hc.
Qed.

Lemma brelse_tr W H s s1 i b :
  tr W ((i, b) :: H) s s1 -> i ∉ H.*1 -> wp (brelse i) (fun _ s2 => tr W H s s2) s1.
Proof.
  intros Ht HiH. destruct (tr_held _ _ _ _ Ht i b) as [Hh Hb]; [set_solver|].
  pose proof Hb as [Hdev Hbno]%is_block_true.
  eapply wp_mono; [apply brelse_ok; [apply Ht|done|]|].
  { intros Hd. rewrite Hbno. apply (tr_clean _ _ _ _ Ht); [set_solver|done]. }
  intros [] s2 [Hat Hne Hr Hok Hv]. split; try done.
  - intros j c Hin. assert (j <> i) by (intros ->; apply HiH, list_elem_of_fmap; by exists (i, c)).
    unfold holds_buf. rewrite Hne by done. rewrite Hr. apply (tr_held _ _ _ _ Ht). set_solver.
  - intros j Hj Hn. destruct (decide (j = i)) as [->|]; [by rewrite Hat|]. rewrite Hne by done.
    apply (tr_free _ _ _ _ Ht); [done|set_solver].
  - intros j c Hin. assert (j <> i) by (intros ->; apply HiH, list_elem_of_fmap; by exists (i, c)).
    rewrite Hne by done. rewrite Hr. apply (tr_clean _ _ _ _ Ht). set_solver.
  - rewrite Hr. apply Ht.
  - intros c. rewrite Hr. apply Ht.
  - intros c. rewrite Hv. apply Ht.
  - intros c. rewrite <- (tr_dirty _ _ _ _ Ht). apply (dirty_at_step s1 s2 i b); [done|by rewrite Hat|].
    left. rewrite Hat. done.
  - eapply same_rest_trans; [apply Ht|]. rewrite Hr. by split.
Qed.

(** bwrite of a held buffer whose data became [d]. *)
Lemma bwrite_tr W H s s1 s2 i b d :
  tr W H s s1 -> (i, b) ∈ H -> NoDup H.*1 -> Z.of_nat (length d) = BSIZE ->
  buf_step i (set_bf_data d (fs_buf s1 i)) s1 s2 ->
  wp (bwrite i) (fun _ s3 => tr (W ++ [(b, d)]) H s s3) s2.
Proof.
  intros Ht Hin Hnd Hlen Hst. destruct (tr_held _ _ _ _ Ht i b Hin) as [Hh Hb].
  pose proof Hb as [Hdev Hbno]%is_block_true. pose proof Hh as (Hi & _ & Hl).
  pose proof (bs_at _ _ _ _ Hst) as Hat. pose proof (bs_ne _ _ _ _ Hst) as Hne. pose proof (bs_rest _ _ _ _ Hst) as Hr.
  pose proof (tr_ok _ _ _ _ Ht) as Hok1.
  assert (bio_ok s2) as Hok2.
  { eapply buf_step_ok; [done..| |].
    - destruct (bo_buf s1 Hok1 i Hi). split; cbn; try done. rewrite Hl. done.
    - cbn. intros _ j Hj Hji. destruct (is_block _ _ (fs_buf s1 j)) eqn:E; [|done].
      apply is_block_true in E as [? ?]. exfalso. apply Hji. by apply (bo_unique s1 Hok1). }
  assert (holds_buf s2 i) as Hh2 by (unfold holds_buf; rewrite Hat, Hr; done).
  eapply wp_mono; [by apply bwrite_ok|]. intros [] s3 [Hat3 Hne3 Hd3 Hw3 Hr3 Hok3 Hv3].
  assert (bf_blockno (fs_buf s2 i) = b) as Hb2 by (rewrite Hat; done).
  assert (bf_data (fs_buf s2 i) = d) as Hd2 by (rewrite Hat; done).
  assert (forall j, j <> i -> fs_buf s3 j = fs_buf s1 j) as Hne13 by (intros j Hj; by rewrite Hne3, Hne).
  assert (fs_buf s3 i = set_bf_dirty false (set_bf_data d (fs_buf s1 i))) as Hat13 by (by rewrite Hat3, Hat).
  rewrite Hb2, Hd2 in *.
  assert (forall c, fs_disk s3 c = apply_writes [(b, d)] (fs_disk s1) c) as Hdisk.
  { intros c. rewrite Hd3, Hr. cbn. destruct (decide (c = b)) as [->|]; [by rewrite fn_lookup_insert|by rewrite fn_lookup_insert_ne]. }
  split; try done.
  - intros j c Hj. destruct (tr_held _ _ _ _ Ht j c Hj) as [(? & ? & ?) ?]. unfold holds_buf.
    destruct (decide (j = i)) as [->|]; [rewrite Hat13|rewrite Hne13 by done]; rewrite Hr3, Hr; done.
  - intros j Hj Hn. assert (j <> i) by (intros ->; apply Hn, list_elem_of_fmap; by exists (i, b)).
    rewrite Hne13 by done. by apply (tr_free _ _ _ _ Ht).
  - intros j c Hj Hd. rewrite Hdisk. simpl. destruct (decide (j = i)) as [->|Hji].
    + assert (c = b) as -> by (destruct (tr_held _ _ _ _ Ht i c Hj) as [_ [_ ?]%is_block_true]; congruence).
      by rewrite Hat13, fn_lookup_insert.
    + rewrite Hne13 in Hd |- * by done. rewrite fn_lookup_insert_ne; [by apply (tr_clean _ _ _ _ Ht)|].
      intros <-. apply Hji. destruct (tr_held _ _ _ _ Ht j b Hj) as [(? & ? & _) [_ ?]%is_block_true].
      apply (bo_unique s1 Hok1); congruence.
  - rewrite Hw3, Hr. cbn. by rewrite (tr_writes _ _ _ _ Ht), app_assoc.
  - intros c. rewrite Hdisk, apply_writes_app. apply apply_writes_ext, Ht.
  - intros c. rewrite Hv3, apply_writes_app. simpl. destruct (decide (b = c)) as [->|Hbc].
    + rewrite fn_lookup_insert. rewrite <- Hd2. apply view_at; [done|done|]. rewrite Hat. done.
    + assert (forall bf, bf_blockno bf = b -> is_block 1 c bf = false) as Hnb.
      { intros bf He. destruct (is_block 1 c bf) eqn:E; [|done]. apply is_block_true in E as [_ ?]. congruence. }
      rewrite fn_lookup_insert_ne by done. rewrite <- (tr_view _ _ _ _ Ht).
      rewrite (view_step i _ s1 s2 c Hok1 Hok2 Hi Hst) by (by apply Hnb). by rewrite Hnb.
  - intros c. rewrite fmap_app, not_elem_of_app. simpl.
    rewrite list_elem_of_singleton. pose proof (tr_dirty _ _ _ _ Ht c) as Hdc.
    assert (dirty_at s3 c <-> dirty_at s1 c /\ c <> b) as Hd13; [|tauto]. split.
    + intros (j & Hj & Hjb & Hd). destruct (decide (j = i)) as [->|Hji]; [by rewrite Hat13 in Hd|].
      rewrite Hne13 in Hjb, Hd by done. split; [by exists j|]. intros ->. apply Hji.
      apply is_block_true in Hjb as [? ?]. apply (bo_unique s1 Hok1); congruence.
    + intros [(j & Hj & Hjb & Hd) Hcb]. exists j. rewrite Hne13; [done|]. intros ->. apply Hcb.
      apply is_block_true in Hjb as [_ ?]. congruence.
  - eapply same_rest_trans; [apply Ht|]. rewrite Hr3, Hr. by split.
Qed.

(** ** Copying one block *)

(** bread finds a second buffer: its block is pinned, or nothing is. *)
Definition second_ok (s : fsys) (b : Z) : Prop := dirty_at s b \/ forall c, ~ dirty_at s c.

Definition has_room (s : fsys) : Prop := exists i, (i < NBUF)%nat /\ is_unused (fs_buf s i) = true.

Lemma dirty_cached s b : dirty_at s b -> cached s b <> None.
Proof. intros (i & Hi & Hb & _) Hc. rewrite (cached_None s b i Hc Hi) in Hb. done. Qed.

Lemma none_dirty s i : bio_ok s -> (forall c, ~ dirty_at s c) -> (i < NBUF)%nat -> bf_dirty (fs_buf s i) = false.
Proof.
  intros Hok Hnd Hi. destruct (bf_dirty (fs_buf s i)) eqn:E; [|done]. exfalso.
  apply (Hnd (bf_blockno (fs_buf s i))). exists i. split; [done|]. split; [|done]. apply is_block_true. split; [|done].
  by apply (bk_dirty _ _ _ (bo_buf s Hok i Hi)).
Qed.

Lemma open_two s a b :
  bio_ok s -> unlocked s -> a <> b -> 0 <= a < fs_disksize s -> 0 <= b < fs_disksize s ->
  has_room s -> second_ok s b ->
  wp (bread 1 a) (fun i s1 => fs_log s1 = fs_log s /\ wp (bread 1 b) (fun j s2 =>
    tr [] [(j, b); (i, a)] s s2 /\ i <> j /\ bf_data (fs_buf s2 i) = view s a /\ bf_data (fs_buf s2 j) = view s b) s1) s.
Proof.
  intros Hok Hu Hab Ha Hb Hroom Hsec. pose proof (io_refl s Hok Hu) as Ht. apply io_tr in Ht.
  eapply wp_mono; [apply (bread_tr [] [] s s a Ht); [done|set_solver|by right]|].
  intros i s1 (Ht1 & _ & Hd1 & Hat1 & Hne1). split; [apply (sr_log _ _ (tr_rest _ _ _ _ Ht1))|].
  assert (avail s1 b) as Hav.
  { destruct Hsec as [Hdb|Hnd].
    - left. apply dirty_cached. apply (tr_dirty _ _ _ _ Ht1). set_solver.
    - right. exists (if (i =? 0)%nat then 1%nat else 0%nat). destruct (Nat.eqb_spec i 0) as [->|Hi0]; rewrite Hne1 by done.
      all: split; [unfold NBUF; lia|]; rewrite unused_clean, none_dirty by (done || unfold NBUF; lia); done. }
  eapply wp_mono; [apply (bread_tr [] _ s s1 b Ht1); [|simpl; set_solver|done]|].
  { by rewrite (sr_size _ _ (tr_rest _ _ _ _ Ht1)). }
  intros j s2 (Ht2 & Hj & Hd2 & _ & Hne2). simpl in Hj. assert (i <> j) as Hij by set_solver.
  split; [done|]. split; [done|]. rewrite Hd2, Hne2 by done. rewrite Hd1. split; [done|]. apply (tr_view _ _ _ _ Ht1).
Qed.

Lemma set_bdata_step i d s : set_bdata i d s = Done tt (upd_buf i (set_bf_data d) s).
Proof. done. Qed.

(** Write [d] into the held buffer [i], and release both. *)
Lemma copy_tail s s2 i j a b d :
  tr [] [(j, b); (i, a)] s s2 -> i <> j -> Z.of_nat (length d) = BSIZE ->
  wp (set_bdata i d ;; bwrite i ;; brelse j ;; brelse i) (fun _ s' => io [(a, d)] s s') s2 /\
  wp (set_bdata j d ;; bwrite j ;; brelse i ;; brelse j) (fun _ s' => io [(b, d)] s s') s2.
Proof.
  intros Ht Hij Hlen. assert (NoDup [(j, b); (i, a)].*1) as Hnd by (simpl; repeat constructor; set_solver).
  split; apply wp_bind, wp_modify, wp_bind.
  - eapply wp_mono; [apply (bwrite_tr [] _ s s2 _ i a d Ht); [set_solver|done|done|apply upd_buf_step]|].
    intros [] s3 Ht3. apply wp_bind. eapply wp_mono; [apply (brelse_tr _ _ _ _ _ _ Ht3); set_solver|].
    intros [] s4 Ht4. eapply wp_mono; [apply (brelse_tr _ _ _ _ _ _ Ht4); set_solver|]. intros [] s5 Ht5. by apply io_tr.
  - eapply wp_mono; [apply (bwrite_tr [] _ s s2 _ j b d Ht); [set_solver|done|done|apply upd_buf_step]|].
    intros [] s3 Ht3. apply wp_bind. apply (tr_perm _ _ [(i, a); (j, b)]) in Ht3; [|by constructor].
    eapply wp_mono; [apply (brelse_tr _ _ _ _ _ _ Ht3); set_solver|].
    intros [] s4 Ht4. eapply wp_mono; [apply (brelse_tr _ _ _ _ _ _ Ht4); set_solver|]. intros [] s5 Ht5. by apply io_tr.
Qed.

(** The places of a transaction: log blocks and home blocks. *)
Record log_shape (s : fsys) : Prop := mkLogShape {
  ls_dev : lg_dev (fs_log s) = 1;
  ls_n : 0 <= lg_n (fs_log s) <= LOGSIZE /\ lg_n (fs_log s) < lg_size (fs_log s);
  ls_area : 0 <= lg_start (fs_log s) /\ lg_start (fs_log s) + lg_size (fs_log s) <= fs_disksize s;
  ls_home : forall i, (i < Z.to_nat (lg_n (fs_log s)))%nat -> 0 <= lg_block (fs_log s) i < fs_disksize s;
  ls_outside : forall i, (i < Z.to_nat (lg_n (fs_log s)))%nat ->
    ~ (lg_start (fs_log s) <= lg_block (fs_log s) i < lg_start (fs_log s) + lg_size (fs_log s));
}.

Definition log_place (lg : log) (tail : nat) : Z := lg_start lg + Z.of_nat tail + 1.

Lemma log_one_io s tail :
  bio_ok s -> unlocked s -> log_shape s -> (tail < Z.to_nat (lg_n (fs_log s)))%nat ->
  has_room s -> second_ok s (lg_block (fs_log s) tail) ->
  wp (log_one tail) (fun _ s' => io [(log_place (fs_log s) tail, view s (lg_block (fs_log s) tail))] s s') s.
Proof.
  intros Hok Hu [Hdev Hn Harea Hhome Hout] Ht Hroom Hsec. specialize (Hhome tail Ht). specialize (Hout tail Ht).
  unfold log_one. apply wp_bind, wp_gets, wp_bind. rewrite Hdev.
  eapply wp_mono; [apply (open_two s (log_place (fs_log s) tail) (lg_block (fs_log s) tail)); try done; unfold log_place; lia|].
  intros i s1 [_ Hw]. apply wp_bind. eapply wp_mono; [exact Hw|]. intros j s2 (Ht2 & Hij & Hdi & Hdj).
  apply wp_bind, wp_gets. rewrite Hdj.
  apply (copy_tail s s2 i j _ _ (view s (lg_block (fs_log s) tail)) Ht2 Hij). by apply view_length.
Qed.

Lemma install_one_io s tail :
  bio_ok s -> unlocked s -> log_shape s -> (tail < Z.to_nat (lg_n (fs_log s)))%nat ->
  has_room s -> second_ok s (lg_block (fs_log s) tail) ->
  wp (install_one tail) (fun _ s' => io [(lg_block (fs_log s) tail, view s (log_place (fs_log s) tail))] s s') s.
Proof.
  intros Hok Hu [Hdev Hn Harea Hhome Hout] Ht Hroom Hsec. specialize (Hhome tail Ht). specialize (Hout tail Ht).
  unfold install_one. apply wp_bind, wp_gets, wp_bind. rewrite Hdev.
  assert (0 <= log_place (fs_log s) tail < fs_disksize s) as Hp by (unfold log_place; lia).
  eapply wp_mono; [apply (open_two s (log_place (fs_log s) tail) (lg_block (fs_log s) tail)); try done; unfold log_place; lia|].
  intros i s1 [_ Hw]. apply wp_bind. eapply wp_mono; [exact Hw|]. intros j s2 (Ht2 & Hij & Hdi & Hdj).
  apply wp_bind, wp_gets. rewrite Hdi.
  apply (copy_tail s s2 i j _ _ (view s (log_place (fs_log s) tail)) Ht2 Hij). by apply view_length.
Qed.
