(* ===== verification/LogCommit.v ===== *)
(** * commit and recovery as sequences of block writes *)

From S2P Require Import Prelude FsState Bio BioInv Log LogInv.

Local Open Scope c_scope.
Local Open Scope Z_scope.

(** ** The header block *)

Definition fill_head (lg : log) (n : nat) (d : block) : block :=
  foldl (fun d i => put32 (4 + 4 * Z.of_nat i) (u32 (lg_block lg i)) d) d (seq 0 n).

(** What write_head makes of the header block. *)
Definition new_head (lg : log) (d : block) : block :=
  fill_head lg (Z.to_nat (lg_n lg)) (put32 0 (u32 (lg_n lg)) d).

Lemma fill_head_S lg n d :
  fill_head lg (S n) d = put32 (4 + 4 * Z.of_nat n) (u32 (lg_block lg n)) (fill_head lg n d).
Proof. unfold fill_head. by rewrite seq_S, foldl_app. Qed.

Lemma head_slot_fits (n : nat) w (d : block) :
  Z.of_nat n < LOGSIZE -> Z.of_nat (length d) = BSIZE -> fits (4 + 4 * Z.of_nat n) (bytes32 w) d.
Proof. unfold fits, LOGSIZE, MAXOPBLOCKS, BSIZE. simpl. lia. Qed.

Lemma fill_head_length lg n d :
  Z.of_nat n <= LOGSIZE -> Z.of_nat (length d) = BSIZE -> Z.of_nat (length (fill_head lg n d)) = BSIZE.
Proof.
  intros Hn Hd. induction n as [|n IH]; [done|]. rewrite fill_head_S, length_put32 by (apply head_slot_fits; [lia|apply IH; lia]).
  apply IH. lia.
Qed.

Lemma fill_head_n lg n d :
  Z.of_nat n <= LOGSIZE -> Z.of_nat (length d) = BSIZE -> get32 (fill_head lg n d) 0 = get32 d 0.
Proof.
  intros Hn Hd. induction n as [|n IH]; [done|]. rewrite fill_head_S, get32_put32_ne; [apply IH; lia| |lia|lia].
  apply head_slot_fits; [lia|]. apply fill_head_length; lia.
Qed.

Lemma fill_head_block lg n d i :
  Z.of_nat n <= LOGSIZE -> Z.of_nat (length d) = BSIZE -> (i < n)%nat ->
  get32 (fill_head lg n d) (4 + 4 * Z.of_nat i) = u32 (lg_block lg i).
Proof.
  intros Hn Hd Hi. induction n as [|n IH]; [lia|]. rewrite fill_head_S.
  assert (fits (4 + 4 * Z.of_nat n) (bytes32 (u32 (lg_block lg n))) (fill_head lg n d)) as Hf
    by (apply head_slot_fits; [lia|apply fill_head_length; lia]).
  destruct (decide (i = n)) as [->|]; [rewrite get32_put32 by (done || apply u32_range); done|].
  rewrite get32_put32_ne by (done || lia). apply IH; lia.
Qed.

Lemma put_n_fits w (d : block) : Z.of_nat (length d) = BSIZE -> fits 0 (bytes32 w) d.
Proof. unfold fits, BSIZE. simpl. lia. Qed.

Lemma new_head_length lg d :
  0 <= lg_n lg <= LOGSIZE -> Z.of_nat (length d) = BSIZE -> Z.of_nat (length (new_head lg d)) = BSIZE.
Proof. intros Hn Hd. apply fill_head_length; [lia|]. rewrite length_put32; [done|by apply put_n_fits]. Qed.

Lemma new_head_n lg d : 0 <= lg_n lg <= LOGSIZE -> Z.of_nat (length d) = BSIZE -> head_n (new_head lg d) = lg_n lg.
Proof.
  intros Hn Hd. unfold head_n, new_head. rewrite fill_head_n; [|lia|rewrite length_put32; [done|by apply put_n_fits]].
  rewrite get32_put32 by (apply u32_range || by apply put_n_fits). rewrite i32_u32. apply i32_small.
  unfold is_i32, LOGSIZE, MAXOPBLOCKS in *. lia.
Qed.

Lemma new_head_block lg d i :
  0 <= lg_n lg <= LOGSIZE -> Z.of_nat (length d) = BSIZE -> (i < Z.to_nat (lg_n lg))%nat -> is_i32 (lg_block lg i) ->
  head_block (new_head lg d) i = lg_block lg i.
Proof.
  intros Hn Hd Hi Hb. unfold head_block, new_head. rewrite fill_head_block; [|lia|rewrite length_put32; [done|by apply put_n_fits]|done].
  rewrite i32_u32. by apply i32_small.
Qed.

(** ** write_head *)

(** The loop changes the data of the held buffer only. *)
Lemma write_head_loop lg i s :
  wp (for_each (seq 0 (Z.to_nat (lg_n lg))) (fun k =>
    d <- bdata i ;; set_bdata i (put32 (4 + 4 * Z.of_nat k) (u32 (lg_block lg k)) d)))
    (fun _ s' => buf_step i (set_bf_data (fill_head lg (Z.to_nat (lg_n lg)) (bf_data (fs_buf s i))) (fs_buf s i)) s s') s.
Proof.
  apply (wp_for_each (fun pre s' => pre = seq 0 (length pre) /\
    buf_step i (set_bf_data (fill_head lg (length pre) (bf_data (fs_buf s i))) (fs_buf s i)) s s')).
  - split; [done|]. split; [by destruct (fs_buf s i)|done|by destruct s].
  - intros pre k todo s1 Hl [Hpre Hst].
    assert (k = length pre) as ->.
    { assert (seq 0 (Z.to_nat (lg_n lg)) !! length pre = Some k) as Hk by (rewrite Hl; apply list_lookup_middle; done).
      apply lookup_seq in Hk as [-> _]. lia. }
    apply wp_bind, wp_gets, wp_modify. rewrite length_app. simpl. rewrite Nat.add_1_r. split.
    + rewrite Hpre at 1. by rewrite seq_S.
    + eapply buf_step_trans; [exact Hst|]. apply buf_step_upd. rewrite (bs_at _ _ _ _ Hst), fill_head_S. done.
  - intros s' [Hl Hst]. rewrite Hl, length_seq in Hst at 1. by rewrite length_seq in Hst.
Qed.

Lemma write_head_io s :
  bio_ok s -> unlocked s -> log_shape s -> has_room s ->
  wp write_head (fun _ s' => io [(lg_start (fs_log s), new_head (fs_log s) (view s (lg_start (fs_log s))))] s s') s.
Proof.
  intros Hok Hu [Hdev Hn Harea _ _] Hroom. set (lg := fs_log s) in *. set (st := lg_start lg) in *.
  assert (0 <= st < fs_disksize s) as Hst by (unfold LOGSIZE, MAXOPBLOCKS in *; lia).
  pose proof (io_refl s Hok Hu) as Ht. apply io_tr in Ht.
  unfold write_head. apply wp_bind, wp_gets. fold lg. apply wp_bind. rewrite Hdev. fold st.
  eapply wp_mono; [apply (bread_tr [] [] s s st Ht); [done|set_solver|by right]|].
  intros i s1 (Ht1 & _ & Hd1 & _). apply wp_bind, wp_gets, wp_bind, wp_modify, wp_bind.
  set (s2 := upd_buf i _ s1). pose proof (write_head_loop lg i s2) as Hloop. eapply wp_mono; [exact Hloop|].
  intros [] s3 Hst3. apply wp_bind.
  assert (buf_step i (set_bf_data (new_head lg (view s st)) (fs_buf s1 i)) s1 s3) as Hst13.
  { eapply buf_step_trans; [apply upd_buf_step|]. unfold s2 in *. cbn in *. rewrite fn_lookup_insert in Hst3. cbn in Hst3.
    rewrite Hd1 in Hst3. exact Hst3. }
  eapply wp_mono; [apply (bwrite_tr [] _ s s1 s3 i st (new_head lg (view s st)) Ht1); try done|].
  - set_solver.
  - simpl. apply NoDup_singleton.
  - apply new_head_length; [apply Hn|]. by apply view_length.
  - intros [] s4 Ht4. eapply wp_mono; [apply (brelse_tr _ _ _ _ _ _ Ht4); set_solver|]. intros [] s5 Ht5. by apply io_tr.
Qed.

(** ** The loops *)

Abbreviation lgn s := (Z.to_nat (lg_n (fs_log s))).

(** The home blocks of the transaction. *)
Definition homes (lg : log) : list Z := lg_block lg <$> seq 0 (Z.to_nat (lg_n lg)).

Lemma elem_of_homes lg b : b ∈ homes lg <-> exists i, (i < Z.to_nat (lg_n lg))%nat /\ lg_block lg i = b.
Proof.
  unfold homes. rewrite list_elem_of_fmap. split.
  - intros (i & -> & Hi%elem_of_seq). exists i. split; [lia|done].
  - intros (i & Hi & <-). exists i. split; [done|]. apply elem_of_seq. lia.
Qed.

Definition log_writes (s : fsys) (src : Z -> block) : list (Z * block) :=
  (fun t => (log_place (fs_log s) t, src (lg_block (fs_log s) t))) <$> seq 0 (lgn s).

Definition home_writes (lg : log) (src : Z -> block) : list (Z * block) :=
  (fun t => (lg_block lg t, src (log_place lg t))) <$> seq 0 (Z.to_nat (lg_n lg)).

Lemma log_shape_rest s s' : same_rest s s' -> log_shape s -> log_shape s'.
Proof. intros [Hsz Hlg _ _ _ _] [? ? ? ? ?]. split; rewrite ?Hlg, ?Hsz; done. Qed.

Lemma log_shape_cleared s s' : same_rest s s' -> log_shape s -> log_shape (upd_log (set_lg_n 0) s').
Proof.
  intros [Hsz Hlg _ _ _ _] [Hdev [Hn Hns] Harea _ _].
  split; cbn; rewrite ?Hlg, ?Hsz; try done; try (intros i Hi; lia). unfold LOGSIZE, MAXOPBLOCKS. lia.
Qed.

(** Fewer blocks are pinned than there are buffers. *)
Definition pinned (s : fsys) : Prop := exists L, (forall b, dirty_at s b -> b ∈ L) /\ (length L < NBUF)%nat.

Lemma pinned_room s : bio_ok s -> unlocked s -> pinned s -> has_room s.
Proof. intros Hok Hu (L & HL & Hn). by apply (room s L). Qed.

Lemma pinned_io W s s' : pinned s -> io W s s' -> pinned s'.
Proof. intros (L & HL & Hn) Hio. exists L. split; [|done]. intros b [Hb _]%(io_dirty _ _ _ Hio). auto. Qed.

Lemma second_io W s s' b : second_ok s b -> b ∉ W.*1 -> io W s s' -> second_ok s' b.
Proof.
  intros [Hd|Hn] Hb Hio; [left|right].
  - by apply (io_dirty _ _ _ Hio).
  - intros c [Hc _]%(io_dirty _ _ _ Hio). by apply (Hn c).
Qed.

Lemma seq_middle n pre x todo : seq 0 n = pre ++ x :: todo -> pre = seq 0 x /\ (x < n)%nat.
Proof.
  intros Hl. assert (seq 0 n !! length pre = Some x) as Hk by (rewrite Hl; by apply list_lookup_middle).
  apply lookup_seq in Hk as [Hx Hlt]. simpl in Hx. subst x. split; [|done].
  assert (take (length pre) (seq 0 n) = pre) as <- by (rewrite Hl; apply take_app_length). rewrite length_take, length_seq.
  rewrite take_seq. f_equal; lia.
Qed.

Lemma write_log_io s :
  bio_ok s -> unlocked s -> log_shape s -> pinned s -> (forall i, (i < lgn s)%nat -> second_ok s (lg_block (fs_log s) i)) ->
  wp write_log (fun _ s' => io (log_writes s (view s)) s s') s.
Proof.
  intros Hok Hu Hs Hp Hsec. unfold write_log. apply wp_bind, wp_gets.
  eapply wp_mono; [apply (io_for_each _ _ (fun t => (log_place (fs_log s) t, view s (lg_block (fs_log s) t))) s (fun _ _ => True)); try done|].
  2: by intros [] s' [? _].
  intros pre x todo s1 Hl Hio _. apply seq_middle in Hl as [-> Hx].
  pose proof (io_rest _ _ _ Hio) as Hr. pose proof (sr_log _ _ Hr) as Hlg.
  pose proof (log_shape_rest _ _ Hr Hs) as Hs1. pose proof (pinned_io _ _ _ Hp Hio) as Hp1.
  pose proof (ls_outside s Hs x Hx) as Hout. pose proof (ls_n s Hs) as Hn.
  assert (lg_block (fs_log s) x ∉ ((fun t => (log_place (fs_log s) t, view s (lg_block (fs_log s) t))) <$> seq 0 x).*1) as Hni.
  { rewrite <- list_fmap_compose. intros (t & Ht & Hin%elem_of_seq)%list_elem_of_fmap. cbn in Ht. unfold log_place in Ht. lia. }
  eapply wp_mono; [apply (log_one_io s1 x); try apply Hio; try done|].
  - by rewrite Hlg.
  - apply pinned_room; try apply Hio; done.
  - rewrite Hlg. eapply second_io; [by apply Hsec|done|done].
  - intros [] s2 Hio2. split; [|done]. rewrite Hlg, (io_view _ _ _ Hio), apply_writes_out in Hio2 by done. exact Hio2.
Qed.

Lemma install_trans_io s :
  bio_ok s -> unlocked s -> log_shape s -> pinned s -> NoDup (homes (fs_log s)) ->
  (forall i, (i < lgn s)%nat -> second_ok s (lg_block (fs_log s) i)) ->
  wp install_trans (fun _ s' => io (home_writes (fs_log s) (view s)) s s') s.
Proof.
  intros Hok Hu Hs Hp Hnd Hsec. unfold install_trans. apply wp_bind, wp_gets.
  eapply wp_mono; [apply (io_for_each _ _ (fun t => (lg_block (fs_log s) t, view s (log_place (fs_log s) t))) s (fun _ _ => True)); try done|].
  2: by intros [] s' [? _].
  intros pre x todo s1 Hl Hio _. pose proof Hl as Hl'. apply seq_middle in Hl as [-> Hx].
  pose proof (io_rest _ _ _ Hio) as Hr. pose proof (sr_log _ _ Hr) as Hlg.
  pose proof (log_shape_rest _ _ Hr Hs) as Hs1. pose proof (pinned_io _ _ _ Hp Hio) as Hp1.
  pose proof (ls_n s Hs) as Hn.
  assert (forall b, b ∈ ((fun t => (lg_block (fs_log s) t, view s (log_place (fs_log s) t))) <$> seq 0 x).*1 ->
    exists t, (t < x)%nat /\ b = lg_block (fs_log s) t) as Hin.
  { intros b Hb. rewrite <- list_fmap_compose in Hb. apply list_elem_of_fmap in Hb as (t & -> & Ht%elem_of_seq).
    exists t. split; [lia|done]. }
  eapply wp_mono; [apply (install_one_io s1 x); try apply Hio; try done|].
  - by rewrite Hlg.
  - apply pinned_room; try apply Hio; done.
  - rewrite Hlg. eapply second_io; [by apply Hsec| |done]. intros (t & Ht & He)%Hin.
    unfold homes in Hnd. rewrite Hl', fmap_app, NoDup_app in Hnd. destruct Hnd as (_ & Hnd & _).
    apply (Hnd (lg_block (fs_log s) x)); [|simpl; set_solver]. rewrite He. apply list_elem_of_fmap.
    exists t. split; [done|]. apply elem_of_seq. lia.
  - intros [] s2 Hio2. split; [|done]. rewrite Hlg, (io_view _ _ _ Hio), apply_writes_out in Hio2; [exact Hio2|].
    intros (t & Ht & He)%Hin. pose proof (ls_outside s Hs t ltac:(lia)). unfold log_place in He. lia.
Qed.

(** ** commit *)

(** A state in which end_op may commit. *)
Record commit_ready (s : fsys) : Prop := mkCommitReady {
  cr_ok : bio_ok s;
  cr_unlocked : unlocked s;
  cr_shape : log_shape s;
  cr_room : lg_n (fs_log s) < Z.of_nat NBUF;
  cr_nodup : NoDup (homes (fs_log s));
  cr_dirty : forall b, dirty_at s b <-> b ∈ homes (fs_log s);
}.

Definition cleared (lg : log) : log := set_lg_n 0 lg.

Definition head1 (s : fsys) : block := new_head (fs_log s) (view s (lg_start (fs_log s))).
Definition head2 (s : fsys) : block := new_head (cleared (fs_log s)) (head1 s).

(** The home blocks with their new content. *)
Definition new_blocks (s : fsys) : list (Z * block) := (fun b => (b, view s b)) <$> homes (fs_log s).

(** The block writes of a commit, in order. *)
Definition commit_writes (s : fsys) : list (Z * block) :=
  log_writes s (view s) ++ [(lg_start (fs_log s), head1 s)] ++ new_blocks s ++ [(lg_start (fs_log s), head2 s)].

Lemma bio_ok_log f s : bio_ok s -> bio_ok (upd_log f s).
Proof. intros [Hr Hb Hu Hd]. by split. Qed.

(** What the log holds after write_log. *)
Lemma log_writes_at s d t :
  (t < lgn s)%nat -> apply_writes (log_writes s (view s)) d (log_place (fs_log s) t) = view s (lg_block (fs_log s) t).
Proof.
  intros Ht. apply apply_writes_nodup.
  - unfold log_writes. rewrite <- list_fmap_compose. apply NoDup_fmap_2_strong; [|apply NoDup_seq].
    intros i j _ _. cbn. unfold log_place. lia.
  - unfold log_writes. apply list_elem_of_fmap. exists t. split; [done|]. apply elem_of_seq. lia.
Qed.

Lemma log_writes_out s src b :
  ~ (lg_start (fs_log s) < b <= lg_start (fs_log s) + lg_n (fs_log s)) -> b ∉ (log_writes s src).*1.
Proof.
  intros Hb. unfold log_writes. rewrite <- list_fmap_compose. intros (t & Ht & Hin%elem_of_seq)%list_elem_of_fmap.
  cbn in Ht. unfold log_place in Ht. lia.
Qed.

Lemma new_blocks_fst s : (new_blocks s).*1 = homes (fs_log s).
Proof. unfold new_blocks. rewrite <- list_fmap_compose. apply list_fmap_id. Qed.

Lemma homes_outside s b : log_shape s -> b ∈ homes (fs_log s) ->
  ~ (lg_start (fs_log s) <= b < lg_start (fs_log s) + lg_size (fs_log s)) /\ 0 <= b < fs_disksize s.
Proof. intros Hs (i & Hi & <-)%elem_of_homes. split; [by apply ls_outside|by apply ls_home]. Qed.

Lemma install_is_new_blocks s src :
  (forall t, (t < lgn s)%nat -> src (log_place (fs_log s) t) = view s (lg_block (fs_log s) t)) ->
  home_writes (fs_log s) src = new_blocks s.
Proof.
  intros Hsrc. unfold home_writes, new_blocks, homes. rewrite <- list_fmap_compose. apply list_fmap_ext.
  intros i t Ht. apply lookup_seq in Ht as [-> Ht]. cbn. by rewrite Hsrc.
Qed.

(** Everything but the log's counter is as before. *)
Record committed (s s' : fsys) : Prop := mkCommitted {
  cm_ok : bio_ok s';
  cm_unlocked : unlocked s';
  cm_writes : fs_writes s' = fs_writes s ++ commit_writes s;
  cm_disk : forall b, fs_disk s' b = apply_writes (commit_writes s) (fs_disk s) b;
  cm_view : forall b, view s' b = apply_writes (commit_writes s) (view s) b;
  cm_dirty : forall b, ~ dirty_at s' b;
  cm_rest : same_rest (upd_log cleared s) s';
}.

(** The first part of commit: log and home writes. *)
Lemma commit_install s :
  commit_ready s ->
  wp (write_log ;; write_head ;; install_trans) (fun _ s' =>
    io (log_writes s (view s) ++ [(lg_start (fs_log s), head1 s)] ++ new_blocks s) s s') s.
Proof.
  intros [Hok Hu Hs Hn Hnd Hdirty]. pose proof (ls_n s Hs) as Hn0.
  assert (pinned s) as Hp.
  { exists (homes (fs_log s)). split; [intros b; apply Hdirty|]. unfold homes. rewrite length_fmap, length_seq. lia. }
  assert (forall i, (i < lgn s)%nat -> second_ok s (lg_block (fs_log s) i)) as Hsec.
  { intros i Hi. left. apply Hdirty, elem_of_homes. eauto. }
  apply wp_bind. eapply wp_mono; [by apply write_log_io|]. intros [] s1 Hio1.
  pose proof (io_rest _ _ _ Hio1) as Hr1. pose proof (sr_log _ _ Hr1) as Hlg1.
  pose proof (log_shape_rest _ _ Hr1 Hs) as Hs1. pose proof (pinned_io _ _ _ Hp Hio1) as Hp1.
  apply wp_bind. eapply wp_mono; [apply write_head_io; try apply Hio1; try done; apply pinned_room; try apply Hio1; done|].
  intros [] s2 Hio2. rewrite Hlg1, (io_view _ _ _ Hio1), apply_writes_out in Hio2 by (apply log_writes_out; lia).
  fold (head1 s) in Hio2. pose proof (io_trans _ _ _ _ _ Hio1 Hio2) as Hio12.
  pose proof (io_rest _ _ _ Hio12) as Hr2. pose proof (sr_log _ _ Hr2) as Hlg2.
  assert (forall b, b ∈ homes (fs_log s) -> b ∉ (log_writes s (view s) ++ [(lg_start (fs_log s), head1 s)]).*1) as Hhome.
  { intros b Hb. destruct (homes_outside s b Hs Hb) as [Ho _]. rewrite fmap_app, not_elem_of_app. simpl.
    split; [apply log_writes_out; lia|]. rewrite list_elem_of_singleton. lia. }
  eapply wp_mono; [apply install_trans_io; try apply Hio12|].
  - by apply (log_shape_rest s).
  - by eapply pinned_io.
  - by rewrite Hlg2.
  - rewrite Hlg2. intros i Hi. eapply second_io; [by apply Hsec| |exact Hio12]. apply Hhome, elem_of_homes. eauto.
  - intros [] s3 Hio3. rewrite Hlg2, (install_is_new_blocks s) in Hio3.
    { pose proof (io_trans _ _ _ _ _ Hio12 Hio3) as Hio. by rewrite <- app_assoc in Hio. }
    intros t Ht. rewrite (io_view _ _ _ Hio12), apply_writes_app. simpl. rewrite fn_lookup_insert_ne by (unfold log_place; lia).
    by apply log_writes_at.
Qed.

Lemma commit_ok s : commit_ready s -> 0 < lg_n (fs_log s) -> wp commit (fun _ s' => committed s s') s.
Proof.
  intros Hc Hpos. pose proof Hc as [Hok Hu Hs Hn Hnd Hdirty]. unfold commit. apply wp_bind, wp_gets.
  destruct (Z.ltb_spec 0 (lg_n (fs_log s))); [|lia]. cbn [when].
  pose proof (commit_install s Hc) as Hinst. apply wp_done in Hinst as ([] & s3 & Hrun & Hio).
  assert (forall m : M fsys unit, (write_log ;; write_head ;; install_trans ;; m) s = m s3) as Hseq.
  { intros m. revert Hrun. unfold bind. destruct (write_log s) as [[] t1|? ?|?|?]; try done.
    destruct (write_head t1) as [[] t2|? ?|?|?]; try done. by intros ->. }
  unfold wp. rewrite Hseq. fold (wp (modify (upd_log (set_lg_n 0)) ;; write_head) (fun _ s' => committed s s') s3).
  apply wp_bind, wp_modify. set (s4 := upd_log _ s3).
  pose proof (io_rest _ _ _ Hio) as Hr. pose proof (sr_log _ _ Hr) as Hlg.
  set (W := log_writes s (view s) ++ [(lg_start (fs_log s), head1 s)] ++ new_blocks s) in *.
  assert (forall b, ~ dirty_at s3 b) as Hnone.
  { intros b [Hb Hout]%(io_dirty _ _ _ Hio). apply Hout. apply Hdirty in Hb. unfold W.
    rewrite !fmap_app, new_blocks_fst. set_solver. }
  assert (fs_log s4 = cleared (fs_log s)) as Hlg4 by (unfold s4; cbn; by rewrite Hlg).
  assert (log_shape s4) as Hs4 by (by apply (log_shape_cleared s)).
  assert (has_room s4) as Hroom.
  { apply (room s4 []); [apply bio_ok_log, Hio|apply Hio| |unfold NBUF; simpl; lia]. intros b Hb. by apply Hnone in Hb. }
  assert (view s4 (lg_start (fs_log s)) = head1 s) as Hv4.
  { change (view s4) with (view s3). rewrite (io_view _ _ _ Hio). unfold W. rewrite app_assoc, apply_writes_app.
    rewrite apply_writes_out, apply_writes_app; [simpl; by rewrite fn_lookup_insert|].
    rewrite new_blocks_fst. intros [Ho _]%homes_outside; [|done]. pose proof (ls_n s Hs). lia. }
  eapply wp_mono; [apply (write_head_io s4); [apply bio_ok_log, Hio|apply Hio|done|done]|].
  intros [] s5 Hio5. rewrite Hlg4 in Hio5. cbn [cleared lg_start set_lg_n] in Hio5. rewrite Hv4 in Hio5. fold (head2 s) in Hio5.
  assert (commit_writes s = W ++ [(lg_start (fs_log s), head2 s)]) as HW by (unfold commit_writes, W; by rewrite <- !app_assoc).
  split; rewrite ?HW; try apply Hio5.
  - rewrite (io_writes _ _ _ Hio5). change (fs_writes s4) with (fs_writes s3). by rewrite (io_writes _ _ _ Hio), app_assoc.
  - intros b. rewrite (io_disk _ _ _ Hio5), apply_writes_app. apply apply_writes_ext, (io_disk _ _ _ Hio).
  - intros b. rewrite (io_view _ _ _ Hio5), apply_writes_app. apply apply_writes_ext, (io_view _ _ _ Hio).
  - intros b [Hb _]%(io_dirty _ _ _ Hio5). by apply (Hnone b).
  - destruct Hr. eapply same_rest_trans; [|apply Hio5]. split; try done.
Qed.
