(* ===== verification/LogCrash.v ===== *)
(** * Crashes

    The disk after a crash is the effect of a prefix of the block writes.
    [logical st d] is what recovery will make of the disk [d]; it changes at
    one write of a commit, that of the header, and at no write of recovery. *)

From S2P Require Import Prelude FsState Bio BioInv Log LogInv LogCommit.

Local Open Scope c_scope.
Local Open Scope Z_scope.

(** ** Recovery of a disk, as a function *)

(** The blocks recovery copies home, [st] being the start of the log. *)
Definition recover_home (st : Z) (d : Z -> block) : list (Z * block) :=
  (fun i => (head_block (d st) i, d (st + Z.of_nat i + 1))) <$> seq 0 (Z.to_nat (head_n (d st))).

Definition recover_writes (st : Z) (d : Z -> block) : list (Z * block) :=
  recover_home st d ++ [(st, put32 0 0 (d st))].

Definition logical (st : Z) (d : Z -> block) (c : Z) : block := apply_writes (recover_home st d) d c.

(** Not in the log, which has [sz] blocks from [st] on. *)
Definition outside (st sz c : Z) : Prop := ~ (st <= c < st + sz).

Definition head_homes (b : block) : list Z := head_block b <$> seq 0 (Z.to_nat (head_n b)).

(** A header that recovery can follow. *)
Record valid_head (st sz size : Z) (b : block) : Prop := mkValidHead {
  vh_len : Z.of_nat (length b) = BSIZE;
  vh_n : 0 <= head_n b <= LOGSIZE /\ head_n b < sz;
  vh_home : forall c, c ∈ head_homes b -> 0 <= c < size /\ outside st sz c;
  vh_nodup : NoDup (head_homes b);
}.

Lemma recover_home_fst st d : (recover_home st d).*1 = head_homes (d st).
Proof. unfold recover_home, head_homes. by rewrite <- list_fmap_compose. Qed.

(** ** recover_from_log writes them *)

(** A machine that has just booted: no block is locked or dirty. *)
Record booted (st sz : Z) (r : fsys) : Prop := mkBooted {
  bt_ok : bio_ok r;
  bt_unlocked : unlocked r;
  bt_clean : forall b, ~ dirty_at r b;
  bt_dev : lg_dev (fs_log r) = 1;
  bt_start : lg_start (fs_log r) = st;
  bt_size : lg_size (fs_log r) = sz;
  bt_area : 0 <= st /\ st + sz <= fs_disksize r;
}.

Lemma view_clean s b : bio_ok s -> unlocked s -> ~ dirty_at s b -> view s b = fs_disk s b.
Proof.
  intros Hok Hu Hd. unfold view. destruct (cached s b) as [i|] eqn:Hc; [|done].
  apply cached_Some in Hc as [Hi Hb]. pose proof Hb as [Hdev <-]%is_block_true.
  apply (bk_clean _ _ _ (bo_buf s Hok i Hi)); [done| |by apply Hu].
  destruct (bf_dirty (fs_buf s i)) eqn:E; [|done]. exfalso. apply Hd. by exists i.
Qed.

(** read_head fills the in-memory header. *)
Lemma read_head_loop (d : block) n lg s :
  fs_log s = lg ->
  wp (for_each (seq 0 n) (fun i => modify (upd_log (fun l => set_lg_block (<[i := head_block d i]> (lg_block l)) l))))
    (fun _ s' => s' = set_fs_log (fs_log s') s /\ fs_log s' = set_lg_block (lg_block (fs_log s')) lg /\
       forall i, (i < n)%nat -> lg_block (fs_log s') i = head_block d i) s.
Proof.
  intros Hlg. apply (wp_for_each (fun pre s' => s' = set_fs_log (fs_log s') s /\
    fs_log s' = set_lg_block (lg_block (fs_log s')) lg /\ forall i, i ∈ pre -> lg_block (fs_log s') i = head_block d i)).
  - split; [by destruct s|]. split; [rewrite Hlg; by destruct lg|set_solver].
  - intros pre k todo s1 Hl (Hs1 & Hlg1 & Hb1). apply wp_modify. cbn. split; [by rewrite Hs1|]. split; [by rewrite Hlg1|].
    intros i Hi. destruct (decide (i = k)) as [->|]; [by rewrite fn_lookup_insert|].
    rewrite fn_lookup_insert_ne by done. apply Hb1. set_solver.
  - intros s' (H1 & H2 & H3). split; [done|]. split; [done|]. intros i Hi. apply H3, elem_of_seq. lia.
Qed.

Record head_read (st : Z) (r r' : fsys) : Prop := mkHeadRead {
  hr_ok : bio_ok r';
  hr_unlocked : unlocked r';
  hr_clean : forall b, ~ dirty_at r' b;
  hr_disk : forall b, fs_disk r' b = fs_disk r b;
  hr_writes : fs_writes r' = fs_writes r;
  hr_size : fs_disksize r' = fs_disksize r;
  hr_dev : lg_dev (fs_log r') = 1;
  hr_start : lg_start (fs_log r') = st;
  hr_lsize : lg_size (fs_log r') = lg_size (fs_log r);
  hr_n : lg_n (fs_log r') = head_n (fs_disk r st);
  hr_block : forall i, (i < Z.to_nat (head_n (fs_disk r st)))%nat -> lg_block (fs_log r') i = head_block (fs_disk r st) i;
}.

(** A state that differs in the log only. *)
Lemma tr_log H r s s' : tr [] H r s -> s' = set_fs_log (fs_log s') s -> tr [] H s' s'.
Proof.
  intros Ht He. assert (bio_ok s') as Hok by (rewrite He; by apply (bio_ok_log (fun _ => fs_log s')), Ht).
  destruct Ht as [_ Hh Hf Hc _ _ _ _ _]. split; try done.
  - rewrite He. exact Hh.
  - rewrite He. exact Hf.
  - rewrite He. exact Hc.
  - by rewrite app_nil_r.
  - set_solver.
Qed.

Lemma read_head_ok st sz r :
  booted st sz r -> valid_head st sz (fs_disksize r) (fs_disk r st) -> wp read_head (fun _ r' => head_read st r r') r.
Proof.
  intros [Hok Hu Hcl Hdev Hst Hlsz Harea] Hvh. pose proof (vh_n _ _ _ _ Hvh) as Hvn. unfold read_head. apply wp_bind, wp_gets. rewrite Hdev, Hst.
  assert (0 <= st < fs_disksize r) as Hrange by lia.
  pose proof (io_refl r Hok Hu) as Ht. apply io_tr in Ht. apply wp_bind.
  eapply wp_mono; [apply (bread_tr [] [] r r st Ht); [done|set_solver|]|].
  { right. apply (room r []); [done|done| |unfold NBUF; simpl; lia]. intros b Hb. by apply Hcl in Hb. }
  intros i r1 (Ht1 & _ & Hd1 & _). rewrite view_clean in Hd1 by done.
  apply wp_bind, wp_gets, wp_bind, wp_modify. rewrite Hd1. apply wp_bind.
  destruct (Z.ltb_spec LOGSIZE (head_n (fs_disk r st))); [pose proof (vh_n _ _ _ _ Hvh); lia|].
  eapply wp_mono; [by apply read_head_loop|]. intros [] r2 (H1 & H2 & H3).
  assert (r2 = set_fs_log (fs_log r2) r1) as Hr2 by (rewrite H1; done).
  eapply wp_mono; [apply (brelse_tr [] [] r2 r2 i st); [by eapply tr_log|set_solver]|].
  intros [] r3 Ht3. pose proof (sr_log _ _ (tr_rest _ _ _ _ Ht3)) as Hlg3.
  pose proof (sr_log _ _ (tr_rest _ _ _ _ Ht1)) as Hlg1.
  assert (forall b, dirty_at r2 b <-> dirty_at r1 b) as Hdd by (intros b; rewrite Hr2; done).
  split.
  - apply Ht3.
  - apply io_tr in Ht3. apply Ht3.
  - intros b [Hb _]%(tr_dirty _ _ _ _ Ht3). apply Hdd, (tr_dirty _ _ _ _ Ht1) in Hb as [Hb _]. by apply (Hcl b).
  - intros b. rewrite (tr_disk _ _ _ _ Ht3), Hr2. apply (tr_disk _ _ _ _ Ht1).
  - rewrite (tr_writes _ _ _ _ Ht3), Hr2. cbn. rewrite (tr_writes _ _ _ _ Ht1). by rewrite !app_nil_r.
  - rewrite (sr_size _ _ (tr_rest _ _ _ _ Ht3)), Hr2. apply (sr_size _ _ (tr_rest _ _ _ _ Ht1)).
  - rewrite Hlg3, H2. cbn. by rewrite Hlg1.
  - rewrite Hlg3, H2. cbn. by rewrite Hlg1.
  - rewrite Hlg3, H2. cbn. by rewrite Hlg1.
  - rewrite Hlg3, H2. done.
  - by rewrite Hlg3.
Qed.

(** The in-memory header after read_head. *)
Lemma head_read_shape st sz r r' :
  booted st sz r -> valid_head st sz (fs_disksize r) (fs_disk r st) -> head_read st r r' ->
  log_shape r' /\ homes (fs_log r') = head_homes (fs_disk r st).
Proof.
  intros Hbt Hvh Hhr. pose proof (hr_n _ _ _ Hhr) as Hn. pose proof (vh_n _ _ _ _ Hvh) as Hvn.
  assert (homes (fs_log r') = head_homes (fs_disk r st)) as Hh.
  { unfold homes, head_homes. rewrite Hn. apply list_fmap_ext. intros i x Hx. apply lookup_seq in Hx as [-> Hx].
    by apply (hr_block _ _ _ Hhr). }
  split; [|done]. split; rewrite ?(hr_dev _ _ _ Hhr), ?(hr_start _ _ _ Hhr), ?(hr_size _ _ _ Hhr), ?(hr_lsize _ _ _ Hhr),
    ?(bt_size _ _ _ Hbt), ?Hn; try done.
  - apply Hbt.
  - intros i Hi. apply (vh_home _ _ _ _ Hvh). rewrite <- Hh. apply elem_of_homes. rewrite Hn. eauto.
  - intros i Hi. apply (vh_home _ _ _ _ Hvh). rewrite <- Hh. apply elem_of_homes. rewrite Hn. eauto.
Qed.

Lemma new_head_cleared lg b : new_head (cleared lg) b = put32 0 0 b.
Proof. done. Qed.

Record recovered (st : Z) (r r' : fsys) : Prop := mkRecovered {
  rc_ok : bio_ok r';
  rc_unlocked : unlocked r';
  rc_clean : forall b, ~ dirty_at r' b;
  rc_writes : fs_writes r' = fs_writes r ++ recover_writes st (fs_disk r);
  rc_disk : forall b, fs_disk r' b = apply_writes (recover_writes st (fs_disk r)) (fs_disk r) b;
  rc_n : lg_n (fs_log r') = 0;
}.

Lemma recover_ok st sz r :
  booted st sz r -> valid_head st sz (fs_disksize r) (fs_disk r st) ->
  wp recover_from_log (fun _ r' => recovered st r r') r.
Proof.
  intros Hbt Hvh. unfold recover_from_log. apply wp_bind. eapply wp_mono; [by eapply read_head_ok|].
  intros [] r1 Hhr. destruct (head_read_shape st sz r r1 Hbt Hvh Hhr) as [Hs1 Hh1].
  pose proof (vh_n _ _ _ _ Hvh) as Hvn. pose proof Hhr as [Hok1 Hu1 Hcl1 Hd1 Hw1 Hsz1 Hdev1 Hst1 Hls1 Hn1 Hb1].
  assert (forall b, view r1 b = fs_disk r b) as Hv1 by (intros b; by rewrite view_clean, Hd1).
  assert (home_writes (fs_log r1) (view r1) = recover_home st (fs_disk r)) as Hhw.
  { unfold home_writes, recover_home. rewrite Hn1. apply list_fmap_ext. intros i x Hx. apply lookup_seq in Hx as [-> Hx].
    rewrite Hv1, Hb1 by done. unfold log_place. by rewrite Hst1. }
  apply wp_bind. eapply wp_mono; [apply install_trans_io; try done|].
  - exists []. split; [intros b Hb; by apply Hcl1 in Hb|unfold NBUF; simpl; lia].
  - rewrite Hh1. apply Hvh.
  - intros i Hi. by right.
  - intros [] r2 Hio2. rewrite Hhw in Hio2. apply wp_bind, wp_modify. set (r3 := upd_log _ r2).
    pose proof (io_rest _ _ _ Hio2) as Hr2. pose proof (sr_log _ _ Hr2) as Hlg2.
    assert (forall b, ~ dirty_at r2 b) as Hcl2 by (intros b [Hb _]%(io_dirty _ _ _ Hio2); by apply (Hcl1 b)).
    assert (log_shape r3) as Hs3 by (by apply (log_shape_cleared r1)).
    assert (has_room r3) as Hroom.
    { apply (room r3 []); [apply bio_ok_log, Hio2|apply Hio2| |unfold NBUF; simpl; lia]. intros b Hb. by apply Hcl2 in Hb. }
    assert (view r3 st = fs_disk r st) as Hv3.
    { change (view r3) with (view r2). rewrite (io_view _ _ _ Hio2), apply_writes_out; [done|]. rewrite recover_home_fst.
      intros Hin. destruct (vh_home _ _ _ _ Hvh st Hin) as [_ Ho]. apply Ho. lia. }
    eapply wp_mono; [apply (write_head_io r3); [apply bio_ok_log, Hio2|apply Hio2|done|done]|].
    intros [] r4 Hio4. change (fs_log r3) with (cleared (fs_log r2)) in Hio4. rewrite new_head_cleared, Hlg2 in Hio4.
    cbn [cleared lg_start set_lg_n] in Hio4. rewrite Hst1, Hv3 in Hio4.
    split; try apply Hio4.
    + intros b [Hb _]%(io_dirty _ _ _ Hio4). by apply (Hcl2 b).
    + unfold recover_writes. rewrite (io_writes _ _ _ Hio4). change (fs_writes r3) with (fs_writes r2). by rewrite (io_writes _ _ _ Hio2), Hw1, app_assoc.
    + intros b. unfold recover_writes. rewrite (io_disk _ _ _ Hio4), apply_writes_app. apply apply_writes_ext.
      change (fs_disk r3 b) with (fs_disk r2 b). rewrite (io_disk _ _ _ Hio2). by apply apply_writes_ext.
    + by rewrite (sr_log _ _ (io_rest _ _ _ Hio4)).
Qed.

(** ** What a crash leaves *)

Lemma head_n_cleared b : Z.of_nat (length b) = BSIZE -> head_n (put32 0 0 b) = 0.
Proof. intros Hl. unfold head_n. rewrite get32_put32; [done|by apply put_n_fits|done]. Qed.

Lemma recover_home_nil st d : head_n (d st) = 0 -> recover_home st d = [].
Proof. unfold recover_home. by intros ->. Qed.

Lemma valid_head_zero st sz size b : 0 < sz -> Z.of_nat (length b) = BSIZE -> head_n b = 0 -> valid_head st sz size b.
Proof.
  intros Hsz Hl Hn. split; try done; unfold head_homes; rewrite ?Hn; [|set_solver|constructor].
  unfold LOGSIZE, MAXOPBLOCKS. lia.
Qed.

(** Disks that a crash and any number of interrupted recoveries leave. *)
Inductive survives (st : Z) (d : Z -> block) : (Z -> block) -> Prop :=
| survives_crash : survives st d d
| survives_again d' R : survives st d d' -> R `prefix_of` recover_writes st d' -> survives st d (apply_writes R d').

Lemma prefix_cases {A} (R l1 l2 : list A) :
  R `prefix_of` l1 ++ l2 -> R `prefix_of` l1 \/ exists R2, R = l1 ++ R2 /\ R2 `prefix_of` l2.
Proof.
  revert l1. induction R as [|x R IH]; intros l1 Hp; [left; apply prefix_nil|].
  destruct l1 as [|y l1]; [right; by exists (x :: R)|]. simpl in Hp.
  pose proof (prefix_cons_inv_1 _ _ _ _ Hp) as ->. apply prefix_cons_inv_2 in Hp.
  destruct (IH l1 Hp) as [H|(R2 & -> & H)]; [left; by apply prefix_cons|right; by exists R2].
Qed.

Lemma prefix_fst {A B} (R W : list (A * B)) b : R `prefix_of` W -> b ∈ R.*1 -> b ∈ W.*1.
Proof. intros [k ->]. rewrite fmap_app. set_solver. Qed.

(** A write of recovery does not change what recovery restores. *)
Lemma logical_recovery st sz size d R :
  valid_head st sz size (d st) -> R `prefix_of` recover_writes st d ->
  valid_head st sz size (apply_writes R d st) /\
  forall c, outside st sz c -> logical st (apply_writes R d) c = logical st d c.
Proof.
  intros Hvh HR. assert (forall c, ~ outside st sz c -> c ∉ (recover_home st d).*1) as Harea.
  { intros c Hc Hin. rewrite recover_home_fst in Hin. apply Hc. by apply (vh_home _ _ _ _ Hvh). }
  pose proof (vh_n _ _ _ _ Hvh) as Hvn. assert (0 < sz) as Hsz by lia.
  assert (~ outside st sz st) as Hst by (unfold outside; lia).
  destruct (prefix_cases _ _ _ HR) as [HR1|(R2 & -> & HR2)].
  - assert (forall c, ~ outside st sz c -> apply_writes R d c = d c) as Hsame.
    { intros c Hc. apply apply_writes_out. intros Hin. apply (Harea c Hc). by eapply prefix_fst. }
    rewrite (Hsame st Hst). split; [done|]. intros c Hc.
    assert (recover_home st (apply_writes R d) = recover_home st d) as Hrh.
    { unfold recover_home. rewrite (Hsame st Hst). apply list_fmap_ext. intros i x Hx. apply lookup_seq in Hx as [-> Hx].
      f_equal. apply Hsame. pose proof (vh_n _ _ _ _ Hvh). unfold outside. lia. }
    unfold logical. rewrite Hrh. destruct (decide (c ∈ (recover_home st d).*1)) as [Hin|Hout].
    + by apply apply_writes_in.
    + assert (c ∉ R.*1) by (intros Hin; apply Hout; by eapply prefix_fst). by rewrite !apply_writes_out.
  - assert (R2 = [] \/ R2 = [(st, put32 0 0 (d st))]) as [->| ->].
    { destruct HR2 as [k Hk]. destruct R2 as [|x [|y R2]]; [by left|right; by simplify_eq/=|by simplify_eq/=]. }
    + rewrite app_nil_r. assert (apply_writes (recover_home st d) d st = d st) as Hs by (by apply apply_writes_out, Harea).
      rewrite Hs. split; [done|]. intros c Hc.
      assert (recover_home st (apply_writes (recover_home st d) d) = recover_home st d) as Hrh.
      { unfold recover_home at 1. rewrite Hs. apply list_fmap_ext. intros i x Hx. apply lookup_seq in Hx as [-> Hx].
        f_equal. apply apply_writes_out, Harea. pose proof (vh_n _ _ _ _ Hvh). unfold outside. lia. }
      unfold logical at 1. rewrite Hrh. unfold logical.
      destruct (decide (c ∈ (recover_home st d).*1)); [by apply apply_writes_in|by rewrite !apply_writes_out].
    + rewrite apply_writes_app. simpl. rewrite fn_lookup_insert.
      pose proof (head_n_cleared _ (vh_len _ _ _ _ Hvh)) as H0. split.
      { apply valid_head_zero; [done| |done]. rewrite length_put32; [apply Hvh|apply put_n_fits, Hvh]. }
      intros c Hc. unfold logical at 1. rewrite recover_home_nil by (by rewrite fn_lookup_insert). simpl.
      rewrite fn_lookup_insert_ne; [done|]. intros <-. done.
Qed.

Lemma survives_logical st sz size d d' :
  valid_head st sz size (d st) -> survives st d d' ->
  valid_head st sz size (d' st) /\ forall c, outside st sz c -> logical st d' c = logical st d c.
Proof.
  intros Hvh. induction 1 as [|d' R _ [Hvh' IH] HR]; [done|].
  destruct (logical_recovery st sz size d' R Hvh' HR) as [Hv Hl]. split; [done|]. intros c Hc. rewrite Hl by done. auto.
Qed.

Section Commit.
Context (s : fsys) (Hc : commit_ready s) (Hsize : fs_disksize s <= 2147483648).
Local Abbreviation st := (lg_start (fs_log s)).
Local Abbreviation sz := (lg_size (fs_log s)).
Context (H0 : head_n (fs_disk s st) = 0).

Lemma log_size_pos : 0 < sz /\ 0 <= st < fs_disksize s.
Proof. pose proof (ls_area s (cr_shape s Hc)). pose proof (ls_n s (cr_shape s Hc)). lia. Qed.

Lemma head1_len : Z.of_nat (length (head1 s)) = BSIZE.
Proof. apply new_head_length; [apply Hc|]. apply view_length; [apply Hc|apply log_size_pos]. Qed.

Lemma head1_n : head_n (head1 s) = lg_n (fs_log s).
Proof. apply new_head_n; [apply Hc|]. apply view_length; [apply Hc|apply log_size_pos]. Qed.

Lemma head1_block i : (i < lgn s)%nat -> head_block (head1 s) i = lg_block (fs_log s) i.
Proof.
  intros Hi. apply new_head_block; [apply Hc|apply view_length; [apply Hc|apply log_size_pos]|done|].
  pose proof (ls_home s (cr_shape s Hc) i Hi). unfold is_i32. lia.
Qed.

Lemma head1_homes : head_homes (head1 s) = homes (fs_log s).
Proof.
  unfold head_homes, homes. rewrite head1_n. apply list_fmap_ext. intros i x Hx. apply lookup_seq in Hx as [-> Hx].
  by apply head1_block.
Qed.

Lemma head1_valid : valid_head st sz (fs_disksize s) (head1 s).
Proof.
  split; [apply head1_len|rewrite head1_n; apply Hc| |].
  - intros c Hin. rewrite head1_homes in Hin. destruct (homes_outside s c (cr_shape s Hc) Hin). done.
  - rewrite head1_homes. apply Hc.
Qed.

(** Outside the log, the cache differs from the disk in the home blocks only. *)
Lemma view_not_home c : c ∉ homes (fs_log s) -> view s c = fs_disk s c.
Proof. intros Hn. apply view_clean; try apply Hc. by rewrite (cr_dirty s Hc). Qed.

Lemma log_writes_area c : outside st sz c -> (c ∉ (log_writes s (view s)).*1) /\ c <> st.
Proof.
  intros Ho. unfold outside in Ho. pose proof (ls_n s (cr_shape s Hc)). split; [apply log_writes_out; lia|lia].
Qed.

(** Before the header is written the old content is restored. *)
Lemma crash_before W1 :
  W1 `prefix_of` log_writes s (view s) ->
  head_n (apply_writes W1 (fs_disk s) st) = 0 /\
  forall c, outside st sz c -> logical st (apply_writes W1 (fs_disk s)) c = fs_disk s c.
Proof.
  intros HW. assert (head_n (apply_writes W1 (fs_disk s) st) = 0) as Hn.
  { rewrite apply_writes_out; [done|]. intros Hin. apply (prefix_fst _ _ _ HW) in Hin. revert Hin. apply log_writes_out. lia. }
  split; [done|]. intros c Ho. unfold logical. rewrite recover_home_nil by done. simpl. apply apply_writes_out.
  intros Hin. apply (prefix_fst _ _ _ HW) in Hin. by apply log_writes_area in Ho as [? _].
Qed.

(** Once the header is written the new content is restored. *)
Lemma crash_after W1 :
  W1 `prefix_of` new_blocks s ->
  let d := apply_writes (log_writes s (view s) ++ [(st, head1 s)] ++ W1) (fs_disk s) in
  d st = head1 s /\ forall c, outside st sz c -> logical st d c = view s c.
Proof.
  intros HW d. assert (forall c, ~ outside st sz c -> c ∉ W1.*1) as Harea.
  { intros c Hn Hin. apply (prefix_fst _ _ _ HW) in Hin. rewrite new_blocks_fst in Hin. apply Hn.
    by destruct (homes_outside s c (cr_shape s Hc) Hin). }
  assert (d st = head1 s) as Hst.
  { unfold d. rewrite app_assoc, !apply_writes_app, apply_writes_out; [simpl; by rewrite fn_lookup_insert|].
    apply Harea. unfold outside. pose proof log_size_pos. lia. }
  split; [done|]. intros c Ho. pose proof (ls_n s (cr_shape s Hc)) as Hn.
  assert (recover_home st d = new_blocks s) as Hrh.
  { unfold recover_home, new_blocks, homes. rewrite Hst, head1_n, <- list_fmap_compose. apply list_fmap_ext. intros i x Hx.
    apply lookup_seq in Hx as [-> Hx]. rewrite Nat.add_0_l, head1_block by done. unfold compose. f_equal. unfold d.
    rewrite app_assoc, !apply_writes_app, apply_writes_out by (apply Harea; unfold outside; lia). cbn [apply_writes].
    rewrite fn_lookup_insert_ne by lia. by apply (log_writes_at s). }
  unfold logical. rewrite Hrh. destruct (decide (c ∈ homes (fs_log s))) as [Hin|Hout].
  - apply apply_writes_nodup; [rewrite new_blocks_fst; apply Hc|]. unfold new_blocks. apply list_elem_of_fmap. by exists c.
  - rewrite apply_writes_out by (by rewrite new_blocks_fst). rewrite view_not_home by done.
    destruct (log_writes_area c Ho) as [Hlw Hcs]. unfold d. apply apply_writes_out. rewrite !fmap_app. simpl.
    assert (c ∉ W1.*1) as HcW by (intros Hin; apply Hout; rewrite <- new_blocks_fst; by eapply prefix_fst).
    rewrite not_elem_of_app, not_elem_of_cons. done.
Qed.

Lemma installed c :
  outside st sz c -> apply_writes (log_writes s (view s) ++ (st, head1 s) :: new_blocks s) (fs_disk s) c = view s c.
Proof.
  intros Ho. destruct (log_writes_area c Ho) as [Hlw Hcs]. rewrite apply_writes_app. simpl.
  destruct (decide (c ∈ homes (fs_log s))) as [Hin|Hout].
  - apply apply_writes_nodup; [rewrite new_blocks_fst; apply Hc|]. unfold new_blocks. apply list_elem_of_fmap. by exists c.
  - rewrite apply_writes_out by (by rewrite new_blocks_fst). rewrite fn_lookup_insert_ne by done.
    by rewrite apply_writes_out, view_not_home.
Qed.

(** All or nothing. *)
Lemma crash_atomic W1 :
  W1 `prefix_of` commit_writes s ->
  let d := apply_writes W1 (fs_disk s) in
  valid_head st sz (fs_disksize s) (d st) /\
  ((forall c, outside st sz c -> logical st d c = fs_disk s c) \/ (forall c, outside st sz c -> logical st d c = view s c)).
Proof.
  intros HW d. unfold commit_writes in HW. pose proof (ls_area s (cr_shape s Hc)) as Harea.
  destruct log_size_pos as [Hsz Hr].
  assert (Z.of_nat (length (fs_disk s st)) = BSIZE) as Hl0 by (by apply (bo_disk s (cr_ok s Hc))).
  destruct (prefix_cases _ _ _ HW) as [HW1|(R & -> & HR)].
  { destruct (crash_before W1 HW1) as [Hn Hl]. split; [|by left]. apply valid_head_zero; [done| |done].
    unfold d. rewrite apply_writes_out; [done|]. intros Hin. apply (prefix_fst _ _ _ HW1) in Hin. revert Hin.
    apply log_writes_out. lia. }
  destruct R as [|x R].
  { unfold d. rewrite app_nil_r. destruct (crash_before _ (PreOrder_Reflexive (log_writes s (view s)))) as [Hn Hl].
    split; [|by left]. apply valid_head_zero; [done| |done]. rewrite apply_writes_out; [done|]. apply log_writes_out. lia. }
  simpl in HR. pose proof (prefix_cons_inv_1 _ _ _ _ HR) as ->. apply prefix_cons_inv_2 in HR. simpl in HR.
  destruct (prefix_cases _ _ _ HR) as [HR1|(R2 & -> & HR2)].
  { destruct (crash_after R HR1) as [Hst Hl]. simpl in Hst, Hl. fold d in Hst, Hl. split; [rewrite Hst; apply head1_valid|by right]. }
  destruct (crash_after (new_blocks s) (PreOrder_Reflexive _)) as [Hst Hl]. simpl in Hst, Hl.
  assert (R2 = [] \/ R2 = [(st, head2 s)]) as [->| ->].
  { destruct HR2 as [k Hk]. destruct R2 as [|x [|y R2]]; [by left|right; by simplify_eq/=|by simplify_eq/=]. }
  - assert (d = apply_writes (log_writes s (view s) ++ (st, head1 s) :: new_blocks s) (fs_disk s)) as Hd
      by (unfold d; by rewrite app_nil_r).
    rewrite Hd. split; [rewrite Hst; apply head1_valid|by right].
  - assert (d = apply_writes [(st, head2 s)] (apply_writes (log_writes s (view s) ++ (st, head1 s) :: new_blocks s) (fs_disk s))) as Hd.
    { unfold d. rewrite <- apply_writes_app. f_equal. by rewrite <- app_assoc. }
    assert (head_n (head2 s) = 0) as Hz by (unfold head2; rewrite new_head_cleared; apply head_n_cleared, head1_len).
    assert (d st = head2 s) as Hds by (rewrite Hd; simpl; by rewrite fn_lookup_insert).
    split; [rewrite Hds; apply valid_head_zero; [done| |done]; unfold head2; rewrite new_head_cleared, length_put32;
      [apply head1_len|apply put_n_fits, head1_len]|].
    right. intros c Ho. unfold logical. rewrite recover_home_nil by (by rewrite Hds). simpl. rewrite Hd. simpl.
    destruct (log_writes_area c Ho) as [Hlw Hcs]. rewrite fn_lookup_insert_ne by done.
    by apply installed.
Qed.
End Commit.

(** ** Recovery restores the logical disk *)

Lemma logical_ext st d d' c : (forall b, d b = d' b) -> logical st d c = logical st d' c.
Proof.
  intros He. unfold logical, recover_home. rewrite He. rewrite (apply_writes_ext _ d d') by done. f_equal.
  apply list_fmap_ext. intros i x _. by rewrite He.
Qed.

Lemma recover_logical st sz r d :
  booted st sz r -> valid_head st sz (fs_disksize r) (d st) -> (forall c, fs_disk r c = d c) ->
  wp recover_from_log (fun _ r' => forall c, outside st sz c -> fs_disk r' c = logical st d c) r.
Proof.
  intros Hbt Hvh Hd. pose proof (vh_n _ _ _ _ Hvh) as Hn. eapply wp_mono; [apply (recover_ok st sz); [done|by rewrite Hd]|].
  intros [] r' Hrc c Ho. rewrite (rc_disk _ _ _ Hrc), <- (logical_ext st (fs_disk r) d c Hd).
  unfold recover_writes. rewrite apply_writes_app. simpl. apply fn_lookup_insert_ne. unfold outside in Ho. lia.
Qed.

(** The block writes [W], made from [s] on, take the disk from its content to
    the view, and a crash leaves the one or the other. *)
Record atomic_writes (W : list (Z * block)) (s : fsys) : Prop := mkAtomicWrites {
  aw_done : forall c, outside (lg_start (fs_log s)) (lg_size (fs_log s)) c -> apply_writes W (fs_disk s) c = view s c;
  aw_crash : forall W1 d r, W1 `prefix_of` W -> survives (lg_start (fs_log s)) (apply_writes W1 (fs_disk s)) d ->
    booted (lg_start (fs_log s)) (lg_size (fs_log s)) r -> fs_disksize r = fs_disksize s -> (forall c, fs_disk r c = d c) ->
    wp recover_from_log (fun _ r' =>
      (forall c, outside (lg_start (fs_log s)) (lg_size (fs_log s)) c -> fs_disk r' c = fs_disk s c) \/
      (forall c, outside (lg_start (fs_log s)) (lg_size (fs_log s)) c -> fs_disk r' c = view s c)) r;
}.

Lemma commit_atomic s :
  commit_ready s -> fs_disksize s <= 2147483648 -> head_n (fs_disk s (lg_start (fs_log s))) = 0 ->
  wp commit (fun _ s' => exists W, atomic_writes W s /\ fs_writes s' = fs_writes s ++ W /\
    forall c, fs_disk s' c = apply_writes W (fs_disk s) c) s.
Proof.
  intros Hc Hsize H0. destruct (log_size_pos s Hc) as [Hsz Hst].
  assert (forall W, (forall c, outside (lg_start (fs_log s)) (lg_size (fs_log s)) c -> apply_writes W (fs_disk s) c = view s c) ->
    W `prefix_of` commit_writes s -> atomic_writes W s) as Haw.
  { intros W Hend HW. split; [done|]. intros W1 d r HW1 Hsv Hbt Hds Hd.
    destruct (crash_atomic s Hc Hsize H0 W1 ltac:(by etrans)) as [Hvh Hor].
    destruct (survives_logical _ _ _ _ _ Hvh Hsv) as [Hvd Hld].
    eapply wp_mono; [eapply (recover_logical _ _ r d); [done|by rewrite Hds|done]|]. intros [] r' Hr'. simpl in Hr'.
    destruct Hor as [Ho|Ho]; [left|right]; intros c Hco; rewrite Hr', Hld by done; by apply Ho. }
  destruct (Z.ltb_spec 0 (lg_n (fs_log s))) as [Hn|Hn].
  - eapply wp_mono; [by apply commit_ok|]. intros [] s' Hcm. exists (commit_writes s). split; [|split; apply Hcm].
    apply Haw; [|done]. intros c Ho. unfold commit_writes.
    replace (log_writes s (view s) ++ [(lg_start (fs_log s), head1 s)] ++ new_blocks s ++ [(lg_start (fs_log s), head2 s)])
      with ((log_writes s (view s) ++ (lg_start (fs_log s), head1 s) :: new_blocks s) ++ [(lg_start (fs_log s), head2 s)])
      by (by rewrite <- app_assoc).
    rewrite apply_writes_app. simpl. rewrite fn_lookup_insert_ne by (unfold outside in Ho; lia). by apply installed.
  - unfold commit. apply wp_bind, wp_gets. destruct (Z.ltb_spec 0 (lg_n (fs_log s))); [lia|]. cbn [when].
    apply wp_done. exists tt, s. split; [done|]. exists []. rewrite app_nil_r. split; [|done].
    apply Haw; [|apply prefix_nil]. intros c Ho. symmetry. apply view_not_home; [done|]. unfold homes.
    replace (Z.to_nat (lg_n (fs_log s))) with 0%nat by lia. set_solver.
Qed.
