(* ===== verification/Fs.v ===== *)
(** * fs.c

    Block allocation, inodes, file content, directories and path names, on
    top of the buffer cache and the log.  An inode pointer is an index into
    icache.inode; data that the C code moves to or from a caller's memory is a
    list of bytes.  The device switch is a parameter: it holds functions of
    other drivers. *)

From S2P Require Import Prelude FsState Bio Log.

Local Open Scope c_scope.
Local Open Scope Z_scope.

Definition NDEV : Z := 10.

Definition IBLOCK (i : Z) (sb : superblock) : Z := i / IPB + sb_inodestart sb.
Definition BBLOCK (b : Z) (sb : superblock) : Z := b / BPB + sb_bmapstart sb.

Definition get_sb : M fsys superblock := gets fs_sb.
Definition get_inode (ip : nat) : M fsys inode := gets (fun s => fs_inode s ip).
Definition mod_inode (ip : nat) (f : inode -> inode) : M fsys unit := modify (upd_inode ip f).

(** ** Blocks *)

Definition bzero (dev bno : Z) : M fsys unit :=
  bp <- bread dev bno ;;
  set_bdata bp (repeat 0 (Z.to_nat BSIZE)) ;;
  log_write bp ;;
  brelse bp.

(** [bp->data[bi/8] & (1 << (bi % 8))] *)
Definition bit_set (d : block) (bi : Z) : bool := Z.testbit (get8 d (bi / 8)) (bi `mod` 8).

Definition mark_bit (bi : Z) (d : block) : block :=
  put (bi / 8) [Z.lor (get8 d (bi / 8)) (Z.shiftl 1 (bi `mod` 8))] d.

Definition clear_bit (bi : Z) (d : block) : block :=
  put (bi / 8) [Z.land (get8 d (bi / 8)) (Z.lnot (Z.shiftl 1 (bi `mod` 8)))] d.

(** The inner loop of balloc: the first free bit from [bi] on. *)
Fixpoint free_bit (left : nat) (d : block) (b bi size : Z) : option Z :=
  match left with
  | O => None
  | S left' =>
      if b + bi <? size then
        if bit_set d bi then free_bit left' d b (bi + 1) size else Some bi
      else None
  end.

Fixpoint balloc_loop (fuel : nat) (dev b : Z) : M fsys Z :=
  match fuel with
  | O => out_of_fuel
  | S fuel' =>
      sb <- get_sb ;;
      if b <? sb_size sb then
        bp <- bread dev (BBLOCK b sb) ;;
        d <- bdata bp ;;
        match free_bit (Z.to_nat BPB) d b 0 (sb_size sb) with
        | Some bi =>
            set_bdata bp (mark_bit bi d) ;;
            log_write bp ;;
            brelse bp ;;
            bzero dev (b + bi) ;;
            ret (b + bi)
        | None => brelse bp ;; balloc_loop fuel' dev (b + BPB)
        end
      else panic "balloc: out of blocks"
  end.

Definition balloc (dev : Z) : M fsys Z :=
  sb <- get_sb ;;
  balloc_loop (Z.to_nat (sb_size sb / BPB) + 2) dev 0.

Definition bfree (dev b : Z) : M fsys unit :=
  sb <- get_sb ;;
  bp <- bread dev (BBLOCK b sb) ;;
  let bi := b `mod` BPB in
  d <- bdata bp ;;
  if negb (bit_set d bi) then panic "freeing free block"
  else
    set_bdata bp (clear_bit bi d) ;;
    log_write bp ;;
    brelse bp.

(** ** Inodes *)

Definition inode_lock (ip : nat) (s : fsys) : sleeplock := i_lock (fs_inode s ip).
Definition put_inode_lock (ip : nat) (l : sleeplock) : fsys -> fsys := upd_inode ip (set_i_lock l).

Definition iinit (dev : Z) : M fsys unit :=
  for_each (seq 0 NINODE) (fun i => initsleeplock (put_inode_lock i)) ;;
  sb <- readsb dev ;;
  modify (set_fs_sb sb).

(** struct dinode at index [inum % IPB] of a block: type, major, minor,
    nlink (shorts), size and addrs (words). *)
Definition dinode_off (inum : Z) : Z := inum `mod` IPB * 64.

Definition dinode_type (d : block) (o : Z) : Z := i16 (get16 d o).

Fixpoint get_addrs (d : block) (o : Z) (n : nat) : list Z :=
  match n with O => [] | S n' => get32 d o :: get_addrs d (o + 4) n' end.

(** The bytes of an inode as it lies on disk. *)
Definition dinode_bytes (ip : inode) : list Z :=
  bytes16 (u16 (i_type ip)) ++ bytes16 (u16 (i_major ip)) ++ bytes16 (u16 (i_minor ip)) ++
  bytes16 (u16 (i_nlink ip)) ++ bytes32 (i_size ip) ++ concat (bytes32 <$> i_addrs ip).

(** The fields ilock copies from disk. *)
Definition load_dinode (d : block) (o : Z) (ip : inode) : inode :=
  set_i_addrs (get_addrs d (o + 12) 13)
    (set_i_size (get32 d (o + 8))
      (set_i_nlink (i16 (get16 d (o + 6)))
        (set_i_minor (i16 (get16 d (o + 4)))
          (set_i_major (i16 (get16 d (o + 2)))
            (set_i_type (dinode_type d o) ip))))).

Definition iupdate (ip : nat) : M fsys unit :=
  i <- get_inode ip ;;
  sb <- get_sb ;;
  bp <- bread (i_dev i) (IBLOCK (i_inum i) sb) ;;
  d <- bdata bp ;;
  set_bdata bp (put (dinode_off (i_inum i)) (dinode_bytes i) d) ;;
  log_write bp ;;
  brelse bp.

(** The loop of iget: the entry for (dev, inum), or else the first free one. *)
Fixpoint iget_loop (l : list nat) (dev inum : Z) (empty : option nat) : M fsys (nat + option nat) :=
  match l with
  | [] => ret (inr empty)
  | ip :: l' =>
      i <- get_inode ip ;;
      if (0 <? i_ref i) && (i_dev i =? dev) && (i_inum i =? inum) then
        mod_inode ip (fun i => set_i_ref (i_ref i + 1) i) ;;
        ret (inl ip)
      else
        iget_loop l' dev inum
          (match empty with None => if i_ref i =? 0 then Some ip else None | Some _ => empty end)
  end.

Definition iget (dev inum : Z) : M fsys nat :=
  r <- iget_loop (seq 0 NINODE) dev inum None ;;
  match r with
  | inl ip => ret ip
  | inr None => panic "iget: no inodes"
  | inr (Some ip) =>
      mod_inode ip (fun i => set_i_valid false (set_i_ref 1 (set_i_inum inum (set_i_dev dev i)))) ;;
      ret ip
  end.

Fixpoint ialloc_loop (left : nat) (dev type inum : Z) : M fsys nat :=
  match left with
  | O => panic "ialloc: no inodes"
  | S left' =>
      sb <- get_sb ;;
      bp <- bread dev (IBLOCK inum sb) ;;
      d <- bdata bp ;;
      if dinode_type d (dinode_off inum) =? 0 then
        set_bdata bp (put (dinode_off inum) (bytes16 (u16 type) ++ repeat 0 62) d) ;;
        log_write bp ;;
        brelse bp ;;
        iget dev inum
      else
        brelse bp ;;
        ialloc_loop left' dev type (inum + 1)
  end.

(** [for(inum = 1; inum < sb.ninodes; inum++)] *)
Definition ialloc (dev type : Z) : M fsys nat :=
  sb <- get_sb ;;
  ialloc_loop (Z.to_nat (sb_ninodes sb - 1)) dev type 1.

Definition idup (ip : nat) : M fsys nat :=
  mod_inode ip (fun i => set_i_ref (i_ref i + 1) i) ;;
  ret ip.

Definition ilock (ip : nat) : M fsys unit :=
  i <- get_inode ip ;;
  if i_ref i <? 1 then panic "ilock"
  else
    acquiresleep (inode_lock ip) (put_inode_lock ip) ;;
    i <- get_inode ip ;;
    when (negb (i_valid i))
      (sb <- get_sb ;;
       bp <- bread (i_dev i) (IBLOCK (i_inum i) sb) ;;
       d <- bdata bp ;;
       mod_inode ip (load_dinode d (dinode_off (i_inum i))) ;;
       brelse bp ;;
       mod_inode ip (set_i_valid true) ;;
       i <- get_inode ip ;;
       if i_type i =? 0 then panic "ilock: no type" else ret tt).

Definition iunlock (ip : nat) : M fsys unit :=
  h <- holdingsleep (inode_lock ip) ;;
  i <- get_inode ip ;;
  if negb h || (i_ref i <? 1) then panic "iunlock"
  else releasesleep (put_inode_lock ip).

(** ** Inode content *)

Definition addr_of (i : inode) (bn : Z) : Z := nth (Z.to_nat bn) (i_addrs i) 0.
Definition set_addr (bn a : Z) (i : inode) : inode := set_i_addrs (<[Z.to_nat bn := a]> (i_addrs i)) i.

(** [if((addr = ip->addrs[bn]) == 0) ip->addrs[bn] = addr = balloc(ip->dev)] *)
Definition addr_or_alloc (ip : nat) (bn : Z) : M fsys Z :=
  i <- get_inode ip ;;
  if addr_of i bn =? 0 then
    a <- balloc (i_dev i) ;;
    mod_inode ip (set_addr bn a) ;;
    ret a
  else ret (addr_of i bn).

Definition bmap (ip : nat) (bn : Z) : M fsys Z :=
  if bn <? NDIRECT then addr_or_alloc ip bn
  else
    let bn := bn - NDIRECT in
    if bn <? NINDIRECT then
      ind <- addr_or_alloc ip NDIRECT ;;
      i <- get_inode ip ;;
      bp <- bread (i_dev i) ind ;;
      d <- bdata bp ;;
      let addr := get32 d (4 * bn) in
      a <- (if addr =? 0 then
              a <- balloc (i_dev i) ;;
              d <- bdata bp ;;
              set_bdata bp (put32 (4 * bn) a d) ;;
              log_write bp ;;
              ret a
            else ret addr) ;;
      brelse bp ;;
      ret a
    else panic "bmap: out of range".

Definition itrunc (ip : nat) : M fsys unit :=
  for_each (seq 0 (Z.to_nat NDIRECT)) (fun k =>
    i <- get_inode ip ;;
    when (negb (addr_of i (Z.of_nat k) =? 0))
      (bfree (i_dev i) (addr_of i (Z.of_nat k)) ;;
       mod_inode ip (set_addr (Z.of_nat k) 0))) ;;
  i <- get_inode ip ;;
  when (negb (addr_of i NDIRECT =? 0))
    (bp <- bread (i_dev i) (addr_of i NDIRECT) ;;
     for_each (seq 0 (Z.to_nat NINDIRECT)) (fun j =>
       d <- bdata bp ;;
       when (negb (get32 d (4 * Z.of_nat j) =? 0)) (bfree (i_dev i) (get32 d (4 * Z.of_nat j)))) ;;
     brelse bp ;;
     bfree (i_dev i) (addr_of i NDIRECT) ;;
     mod_inode ip (set_addr NDIRECT 0)) ;;
  mod_inode ip (set_i_size 0) ;;
  iupdate ip.

Definition iput (ip : nat) : M fsys unit :=
  acquiresleep (inode_lock ip) (put_inode_lock ip) ;;
  i <- get_inode ip ;;
  when (i_valid i && (i_nlink i =? 0))
    (when (i_ref i =? 1)
      (itrunc ip ;;
       mod_inode ip (set_i_type 0) ;;
       iupdate ip ;;
       mod_inode ip (set_i_valid false))) ;;
  releasesleep (put_inode_lock ip) ;;
  mod_inode ip (fun i => set_i_ref (i_ref i - 1) i).

Definition iunlockput (ip : nat) : M fsys unit :=
  iunlock ip ;;
  iput ip.

Record stat := mkStat { st_type : Z; st_dev : Z; st_ino : Z; st_nlink : Z; st_size : Z }.

Definition stati (ip : nat) : M fsys stat :=
  i <- get_inode ip ;;
  ret (mkStat (i_type i) (i_dev i) (i_inum i) (i_nlink i) (i_size i)).

Section Content.
(** The read and write functions of devsw, by major number. *)
Context (devread : Z -> option (nat -> Z -> M fsys (Z * list Z))).
Context (devwrite : Z -> option (nat -> list Z -> M fsys Z)).

Definition dev_op {A} (table : Z -> option A) (major : Z) : option A :=
  if (major <? 0) || (NDEV <=? major) then None else table major.

(** Bytes left to move in the block at [off]. *)
Definition chunk (left off : Z) : Z := Z.min left (BSIZE - off `mod` BSIZE).

Fixpoint readi_loop (fuel : nat) (ip : nat) (off left : Z) : M fsys (list Z) :=
  match fuel with
  | O => out_of_fuel
  | S fuel' =>
      if 0 <? left then
        b <- bmap ip (off / BSIZE) ;;
        i <- get_inode ip ;;
        bp <- bread (i_dev i) b ;;
        let m := chunk left off in
        d <- bdata bp ;;
        brelse bp ;;
        rest <- readi_loop fuel' ip (off + m) (left - m) ;;
        ret (slice (off `mod` BSIZE) m d ++ rest)
      else ret []
  end.

(** The count readi returns, and the bytes it stores. *)
Definition readi (ip : nat) (off n : Z) : M fsys (Z * list Z) :=
  i <- get_inode ip ;;
  if i_type i =? T_DEV then
    match dev_op devread (i_major i) with
    | None => ret (-1, [])
    | Some f => f ip n
    end
  else if (i_size i <? off) || (u32 (off + n) <? off) then ret (-1, [])
  else
    let n := if i_size i <? off + n then i_size i - off else n in
    l <- readi_loop (Z.to_nat n + 1) ip off n ;;
    ret (n, l).

Fixpoint writei_loop (fuel : nat) (ip : nat) (src : list Z) (off : Z) : M fsys Z :=
  match fuel with
  | O => out_of_fuel
  | S fuel' =>
      let left := Z.of_nat (length src) in
      if 0 <? left then
        b <- bmap ip (off / BSIZE) ;;
        i <- get_inode ip ;;
        bp <- bread (i_dev i) b ;;
        let m := chunk left off in
        d <- bdata bp ;;
        set_bdata bp (put (off `mod` BSIZE) (take (Z.to_nat m) src) d) ;;
        log_write bp ;;
        brelse bp ;;
        writei_loop fuel' ip (drop (Z.to_nat m) src) (off + m)
      else ret off
  end.

Definition writei (ip : nat) (src : list Z) (off : Z) : M fsys Z :=
  let n := Z.of_nat (length src) in
  i <- get_inode ip ;;
  if i_type i =? T_DEV then
    match dev_op devwrite (i_major i) with
    | None => ret (-1)
    | Some f => f ip src
    end
  else if (i_size i <? off) || (u32 (off + n) <? off) then ret (-1)
  else if MAXFILE * BSIZE <? off + n then ret (-1)
  else
    off <- writei_loop (length src + 1) ip src off ;;
    i <- get_inode ip ;;
    when ((0 <? n) && (i_size i <? off))
      (mod_inode ip (set_i_size off) ;;
       iupdate ip) ;;
    ret n.

(** ** Directories

    struct dirent: a short inum and DIRSIZ bytes of name; a name shorter than
    DIRSIZ ends with a NUL. *)

Definition sizeof_dirent : Z := 16.

(** strncmp and strncpy of string.c, on the bytes from a pointer on. *)
Fixpoint strncmp_bytes (n : nat) (p q : list Z) : Z :=
  match n with
  | O => 0
  | S n' =>
      if negb (hd 0 p =? 0) && (hd 0 p =? hd 0 q) then strncmp_bytes n' (tl p) (tl q)
      else hd 0 p - hd 0 q
  end.

Fixpoint strncpy_bytes (n : nat) (t : list Z) : list Z :=
  match n with
  | O => []
  | S n' => if hd 0 t =? 0 then repeat 0 n else hd 0 t :: strncpy_bytes n' (tl t)
  end.

Definition namecmp (s t : list Z) : Z := strncmp_bytes DIRSIZ s t.

Definition de_inum (de : list Z) : Z := get16 de 0.
Definition de_name (de : list Z) : list Z := drop 2 de.

(** Returns the inode and the offset of the entry (the out parameter poff). *)
Fixpoint dirlookup_loop (fuel : nat) (dp : nat) (name : list Z) (off : Z) : M fsys (option (nat * Z)) :=
  match fuel with
  | O => out_of_fuel
  | S fuel' =>
      i <- get_inode dp ;;
      if off <? i_size i then
        r <- readi dp off sizeof_dirent ;;
        if negb (r.1 =? sizeof_dirent) then panic "dirlookup read"
        else if de_inum r.2 =? 0 then dirlookup_loop fuel' dp name (off + sizeof_dirent)
        else if namecmp name (de_name r.2) =? 0 then
          ip <- iget (i_dev i) (de_inum r.2) ;;
          ret (Some (ip, off))
        else dirlookup_loop fuel' dp name (off + sizeof_dirent)
      else ret None
  end.

Definition dirlookup (dp : nat) (name : list Z) : M fsys (option (nat * Z)) :=
  i <- get_inode dp ;;
  if negb (i_type i =? T_DIR) then panic "dirlookup not DIR"
  else dirlookup_loop (Z.to_nat (i_size i / sizeof_dirent) + 2) dp name 0.

(** The offset of the first empty entry, or the end. *)
Fixpoint dirlink_loop (fuel : nat) (dp : nat) (off : Z) : M fsys Z :=
  match fuel with
  | O => out_of_fuel
  | S fuel' =>
      i <- get_inode dp ;;
      if off <? i_size i then
        r <- readi dp off sizeof_dirent ;;
        if negb (r.1 =? sizeof_dirent) then panic "dirlink read"
        else if de_inum r.2 =? 0 then ret off
        else dirlink_loop fuel' dp (off + sizeof_dirent)
      else ret off
  end.

Definition dirlink (dp : nat) (name : list Z) (inum : Z) : M fsys Z :=
  found <- dirlookup dp name ;;
  match found with
  | Some (ip, _) => iput ip ;; ret (-1)
  | None =>
      i <- get_inode dp ;;
      off <- dirlink_loop (Z.to_nat (i_size i / sizeof_dirent) + 2) dp 0 ;;
      let de := bytes16 (u16 inum) ++ strncpy_bytes DIRSIZ name in
      w <- writei dp de off ;;
      if negb (w =? sizeof_dirent) then panic "dirlink" else ret 0
  end.

(** ** Paths; a path is the list of its characters before the NUL *)

Definition ch_slash : Z := 47.

Fixpoint skip_slashes (path : list Z) : list Z :=
  match path with
  | c :: path' => if c =? ch_slash then skip_slashes path' else path
  | [] => []
  end.

(** The element at the front, and what follows it. *)
Fixpoint span_elem (path : list Z) : list Z * list Z :=
  match path with
  | c :: path' => if c =? ch_slash then ([], path) else let '(s, rest) := span_elem path' in (c :: s, rest)
  | [] => ([], [])
  end.

(** skipelem(path, name): the rest of the path, and name[] *)
Definition skipelem (path name : list Z) : option (list Z * list Z) :=
  match skip_slashes path with
  | [] => None
  | path =>
      let '(s, rest) := span_elem path in
      let name' := if (DIRSIZ <=? length s)%nat then put 0 (take DIRSIZ s) name else put 0 (s ++ [0]) name in
      Some (skip_slashes rest, name')
  end.

Fixpoint namex_loop (fuel : nat) (ip : nat) (path : list Z) (nameiparent : bool) (name : list Z) :
    M fsys (option nat * list Z) :=
  match fuel with
  | O => out_of_fuel
  | S fuel' =>
      match skipelem path name with
      | None => if nameiparent then iput ip ;; ret (None, name) else ret (Some ip, name)
      | Some (path, name) =>
          ilock ip ;;
          i <- get_inode ip ;;
          if negb (i_type i =? T_DIR) then iunlockput ip ;; ret (None, name)
          else if nameiparent && bool_decide (path = []) then iunlock ip ;; ret (Some ip, name)
          else
            next <- dirlookup ip name ;;
            match next with
            | None => iunlockput ip ;; ret (None, name)
            | Some (next, _) =>
                iunlockput ip ;;
                namex_loop fuel' next path nameiparent name
            end
      end
  end.

Definition namex (path : list Z) (nameiparent : bool) (name : list Z) : M fsys (option nat * list Z) :=
  ip <- (if hd 0 path =? ch_slash then iget ROOTDEV ROOTINO
         else cwd <- gets fs_cwd ;; idup cwd) ;;
  namex_loop (S (length path)) ip path nameiparent name.

Definition namei (path : list Z) : M fsys (option nat) :=
  r <- namex path false (repeat 0 DIRSIZ) ;;
  ret r.1.

(** The inode of the parent directory, and the last element in name[]. *)
Definition nameiparent (path name : list Z) : M fsys (option nat * list Z) := namex path true name.

End Content.
