(* ===== verification/FsTxn.v ===== *)
(** * Blocks inside a transaction

    [txn_ok]: the state of cache and log while a system call is between
    begin_op and end_op.  [ftr V H s s']: a stretch of file-system code that
    changed the view of the blocks by [V], holds the buffers [H], and left
    disk, superblock and inodes alone.  bread and log_write can stop the
    machine for want of buffers or of log space; [fs_fault] are those panics. *)

From S2P Require Import Prelude FsState Bio BioInv Log LogInv LogCommit LogCrash.

Local Open Scope c_scope.
Local Open Scope Z_scope.

Definition fs_fault (f : fault) : Prop :=
  f = FPanic "bget: no buffers" \/ f = FPanic "too big a transaction".

(** The part of the log that only begin_op and end_op change. *)
Definition lg_frame (lg : log) : Z * Z * Z * bool * Z :=
  (lg_start lg, lg_size lg, lg_outstanding lg, lg_committing lg, lg_dev lg).

Record txn_ok (s : fsys) : Prop := mkTxnOk {
  tx_ok : bio_ok s;
  tx_shape : log_shape s;
  tx_nodup : NoDup (homes (fs_log s));
  tx_dirty : forall b, dirty_at s b <-> b ∈ homes (fs_log s);
  tx_open : 1 <= lg_outstanding (fs_log s);
}.

Record ftr (V : list (Z * block)) (H : list (nat * Z)) (s s' : fsys) : Prop := mkFtr {
  ft_txn : txn_ok s';
  ft_held : forall i b, (i, b) ∈ H -> holds_buf s' i /\ is_block 1 b (fs_buf s' i) = true;
  ft_free : forall i, (i < NBUF)%nat -> i ∉ H.*1 -> sl_locked (bf_lock (fs_buf s' i)) = false;
  ft_clean : forall i b, (i, b) ∈ H -> bf_dirty (fs_buf s' i) = false -> bf_data (fs_buf s' i) = fs_disk s' b;
  ft_view : forall b, view s' b = apply_writes V (view s) b;
  ft_disk : (forall b, fs_disk s' b = fs_disk s b) /\ fs_writes s' = fs_writes s;
  ft_size : fs_disksize s' = fs_disksize s;
  ft_log : lg_frame (fs_log s') = lg_frame (fs_log s);
  ft_sb : fs_sb s' = fs_sb s;
  ft_inode : fs_inode s' = fs_inode s;
  ft_proc : fs_pid s' = fs_pid s /\ fs_cwd s' = fs_cwd s;
}.

Lemma ftr_refl s : txn_ok s -> unlocked s -> ftr [] [] s s.
Proof. intros Ht Hu. split; try done; [set_solver|auto|set_solver]. Qed.

Lemma ftr_trans V1 V2 H s s1 s2 : ftr V1 [] s s1 -> ftr V2 H s1 s2 -> ftr (V1 ++ V2) H s s2.
Proof.
  intros [? ? ? ? Hv1 [Hd1 ?] ? ? ? ? [? ?]] [? ? ? ? Hv2 [Hd2 ?] ? ? ? ? [? ?]].
  split; try done; try (split; congruence); try congruence.
  intros b. rewrite Hv2, apply_writes_app. apply apply_writes_ext, Hv1.
Qed.

Lemma ftr_perm V H H' s s' : Permutation H H' -> ftr V H s s' -> ftr V H' s s'.
Proof.
  intros Hp [? Hh Hf Hc]. split; try done.
  - intros i b. rewrite <- Hp. apply Hh.
  - intros i Hi. rewrite <- Hp. by apply Hf.
  - intros i b. rewrite <- Hp. apply Hc.
Qed.

Lemma ftr_unlocked V s s' : ftr V [] s s' -> unlocked s'.
Proof. intros Ht i Hi. apply (ft_free _ _ _ _ Ht); [done|set_solver]. Qed.

(** A held buffer shows the view of its block. *)
Lemma ftr_data V H s s' i b : ftr V H s s' -> (i, b) ∈ H -> bf_data (fs_buf s' i) = view s' b.
Proof.
  intros Ht Hin. destruct (ft_held _ _ _ _ Ht i b Hin) as [(Hi & _) Hb]. symmetry. apply view_at; [apply Ht|done..].
Qed.

(** Changing inodes does not touch the blocks. *)
Lemma bio_ok_inode I s : bio_ok s -> bio_ok (set_fs_inode I s).
Proof. intros [? ? ? ?]. by split. Qed.

Lemma txn_ok_inode I s : txn_ok s -> txn_ok (set_fs_inode I s).
Proof. intros [? [? ? ? ? ?] ? ? ?]. split; [by apply bio_ok_inode|by split|done..]. Qed.

Lemma ftr_inode I V H s s' : ftr V H s s' -> ftr V H (set_fs_inode I s) (set_fs_inode I s').
Proof. intros []. split; try done. by apply txn_ok_inode. Qed.

(** ** bread, brelse *)

(** bread_tr with the panic when nothing is available. *)
Lemma tr_of_ftr V H s s' : ftr V H s s' -> tr [] H s' s'.
Proof.
  intros Ht. pose proof (ft_txn _ _ _ _ Ht) as Htx. destruct Ht. split; try done; [apply Htx|by rewrite app_nil_r|set_solver].
Qed.

Lemma ftr_of_tr V H H' s s1 s2 : ftr V H s s1 -> tr [] H' s1 s2 -> ftr V H' s s2.
Proof.
  intros Hf Ht. pose proof (tr_rest _ _ _ _ Ht) as [Hsz Hlg Hsb Hin Hpid Hcwd].
  pose proof (ft_txn _ _ _ _ Hf) as [_ Hsh Hnd Hdi Hop]. destruct Ht as [Hok Hh Hfr Hc Hw Hd Hv Hdd Hr].
  destruct Hf as [_ _ _ _ Hv1 [Hd1 Hw1] Hsz1 Hlg1 Hsb1 Hin1 [? ?]]. split; try done; try congruence.
  - split; rewrite ?Hlg; try done; [by eapply log_shape_rest|]. intros b. rewrite Hdd, <- Hdi. set_solver.
  - intros b. rewrite Hv. apply Hv1.
  - split; [intros b; rewrite Hd; apply Hd1|]. by rewrite Hw, app_nil_r.
  - split; congruence.
Qed.

Lemma avail_dec s b : bio_ok s -> avail s b \/ bread 1 b s = Panic "bget: no buffers" s.
Proof.
  intros Hok. destruct (cached s b) as [i|] eqn:Hc; [left; left; congruence|].
  destruct (find (fun i => is_unused (fs_buf s i)) (seq 0 NBUF)) as [i|] eqn:Hf.
  - left. right. apply find_some in Hf as [Hi%in_seq Hu]. exists i. split; [lia|done].
  - right. apply bread_panics; [done..|]. intros i Hi. apply (find_none _ _ Hf), in_seq. lia.
Qed.

Lemma bread_f V H s s1 b :
  ftr V H s s1 -> 0 <= b < fs_disksize s -> b ∉ H.*2 ->
  wpf fs_fault (bread 1 b) (fun i s2 => ftr V ((i, b) :: H) s s2 /\ (i ∉ H.*1) /\
    (forall c, view s2 c = view s1 c) /\ (forall j, j <> i -> fs_buf s2 j = fs_buf s1 j)) s1.
Proof.
  intros Hf Hb HbH. pose proof (tr_of_ftr _ _ _ _ Hf) as Ht.
  destruct (avail_dec s1 b (tr_ok _ _ _ _ Ht)) as [Hav|Hp].
  - apply wpf_wp. eapply wp_mono; [apply (bread_tr [] H s1 s1 b Ht); [by rewrite (ft_size _ _ _ _ Hf)|done|done]|].
    intros i s2 (Ht2 & Hi & _ & _ & Hne). split; [by eapply ftr_of_tr|]. split; [done|]. split; [|done]. apply Ht2.
  - unfold wpf. rewrite Hp. by left.
Qed.

Lemma brelse_f V H s s1 i b :
  ftr V ((i, b) :: H) s s1 -> i ∉ H.*1 ->
  wpf fs_fault (brelse i) (fun _ s2 => ftr V H s s2 /\ (forall c, view s2 c = view s1 c)) s1.
Proof.
  intros Hf HiH. pose proof (tr_of_ftr _ _ _ _ Hf) as Ht. apply wpf_wp.
  eapply wp_mono; [apply (brelse_tr [] H s1 s1 i b Ht HiH)|]. intros [] s2 Ht2.
  split; [by eapply ftr_of_tr|apply Ht2].
Qed.

(** ** log_write *)

Lemma log_slot_spec lg bno i left :
  let j := log_slot lg bno i left in
  (i <= j <= i + left)%nat /\ (forall k, (i <= k < j)%nat -> lg_block lg k <> bno) /\
  ((j < i + left)%nat -> lg_block lg j = bno).
Proof.
  revert i. induction left as [|left IH]; intros i; cbn [log_slot].
  { split; [lia|]. split; intros; lia. }
  destruct (Z.eqb_spec (lg_block lg i) bno) as [He|Hne].
  - split; [lia|]. split; [intros; lia|done].
  - destruct (IH (S i)) as (H1 & H2 & H3). split; [lia|]. split; [|intros; apply H3; lia].
    intros k Hk. destruct (decide (k = i)) as [->|]; [done|]. apply H2. lia.
Qed.

Lemma log_add_homes lg bno :
  0 <= lg_n lg -> homes (log_add bno lg) = if decide (bno ∈ homes lg) then homes lg else homes lg ++ [bno].
Proof.
  intros Hn. unfold log_add. destruct (log_slot_spec lg bno 0 (Z.to_nat (lg_n lg))) as (H1 & H2 & H3).
  set (j := log_slot lg bno 0 (Z.to_nat (lg_n lg))) in *. cbn [lg_n set_lg_block].
  destruct (Z.eqb_spec (Z.of_nat j) (lg_n lg)) as [Hj|Hj].
  - rewrite decide_False.
    2: { intros (k & Hk & He)%elem_of_homes. apply (H2 k); [lia|done]. }
    unfold homes. cbn [lg_n set_lg_n lg_block set_lg_block]. replace (Z.to_nat (lg_n lg + 1)) with (S j) by lia.
    replace (Z.to_nat (lg_n lg)) with j by lia. rewrite seq_S, fmap_app. cbn. rewrite fn_lookup_insert. f_equal.
    apply list_fmap_ext. intros i x Hx. apply lookup_seq in Hx as [-> Hx]. rewrite fn_lookup_insert_ne by lia. done.
  - rewrite decide_True by (apply elem_of_homes; exists j; split; [lia|apply H3; lia]).
    unfold homes. cbn [lg_n lg_block set_lg_block]. apply list_fmap_ext. intros i x Hx.
    apply lookup_seq in Hx as [-> Hx]. simpl. destruct (decide (j = i)) as [->|]; [|by rewrite fn_lookup_insert_ne].
    rewrite fn_lookup_insert. symmetry. apply H3. lia.
Qed.

Lemma log_add_n lg bno : 0 <= lg_n lg -> lg_n lg <= lg_n (log_add bno lg) <= lg_n lg + 1 /\ lg_frame (log_add bno lg) = lg_frame lg.
Proof. intros Hn. unfold log_add. cbn. case_match; split; try done; cbn; lia. Qed.

Lemma log_shape_add s bno :
  log_shape s -> 0 <= bno < fs_disksize s -> outside (lg_start (fs_log s)) (lg_size (fs_log s)) bno -> lg_n (fs_log s) < LOGSIZE ->
  lg_n (fs_log s) < lg_size (fs_log s) - 1 -> log_shape (upd_log (log_add bno) s).
Proof.
  intros [Hdev Hn Harea Hhome Hout] Hb Ho Hlt Hlt2. destruct (log_add_n (fs_log s) bno ltac:(lia)) as [Hna Hfr].
  assert (forall b, b ∈ homes (log_add bno (fs_log s)) -> (0 <= b < fs_disksize s) /\ outside (lg_start (fs_log s)) (lg_size (fs_log s)) b) as Hall.
  { intros b Hin. rewrite log_add_homes in Hin by lia.
    assert (b ∈ homes (fs_log s) \/ b = bno) as [(i & Hi & <-)%elem_of_homes| ->]; [case_decide; set_solver|split; [by apply Hhome|by apply Hout]|done]. }
  injection Hfr as H1 H2 H3 H4 H5. split; cbn; rewrite ?H1, ?H2, ?H5; try done; [lia|..].
  - intros i Hi. apply Hall, elem_of_homes. eauto.
  - intros i Hi. apply Hall, elem_of_homes. eauto.
Qed.

(** One buffer changes its data and becomes dirty; the log may change. *)
Section Write.
Context (s1 s3 : fsys) (i : nat) (bf' : buf) (b : Z) (d : block).
Context (Hok : bio_ok s1) (Hi : (i < NBUF)%nat) (Hb : is_block 1 b (fs_buf s1 i) = true).
Context (Hbf : bf' = set_bf_dirty true (set_bf_data d (fs_buf s1 i))) (Hlen : Z.of_nat (length d) = BSIZE).
Context (Hat : fs_buf s3 i = bf') (Hne : forall j, j <> i -> fs_buf s3 j = fs_buf s1 j).
Context (Hr : s3 = set_fs_log (fs_log s3) (set_fs_buf (fs_buf s3) s1)).

Lemma write_bio_ok : bio_ok s3.
Proof.
  assert (buf_step i bf' s1 (set_fs_buf (fs_buf s3) s1)) as Hst by (split; done).
  rewrite Hr. apply (bio_ok_log (fun _ => fs_log s3)). eapply buf_step_ok; [done|exact Hst|done|..].
  - rewrite Hbf. destruct (bo_buf s1 Hok i Hi). split; cbn; try done. intros _. by apply is_block_true in Hb as [? _].
  - rewrite Hbf. cbn. intros _ j Hj Hji. destruct (is_block _ _ (fs_buf s1 j)) eqn:E; [|done].
    apply is_block_true in E as [? ?], Hb as [? ?]. exfalso. apply Hji. by apply (bo_unique s1 Hok).
Qed.

Lemma write_dirty c : dirty_at s3 c <-> dirty_at s1 c \/ c = b.
Proof.
  pose proof Hb as [Hdev Hbno]%is_block_true. split.
  - intros (j & Hj & Hjb & Hd). destruct (decide (j = i)) as [->|Hji].
    + right. rewrite Hat, Hbf in Hjb. apply is_block_true in Hjb as [_ Hjb]. cbn in Hjb. congruence.
    + left. rewrite Hne in Hjb, Hd by done. by exists j.
  - intros [(j & Hj & Hjb & Hd)| ->].
    + exists j. destruct (decide (j = i)) as [->|Hji]; [rewrite Hat, Hbf; done|rewrite Hne by done; done].
    + exists i. rewrite Hat, Hbf. done.
Qed.

Lemma write_view_ne c : b <> c -> view s3 c = view s1 c.
Proof.
  intros Hbc. assert (forall bf, bf_blockno bf = b -> is_block 1 c bf = false) as Hnb.
  { intros bf He. destruct (is_block 1 c bf) eqn:E; [|done]. apply is_block_true in E as [_ ?]. congruence. }
  pose proof Hb as [_ Hbno]%is_block_true.
  pose proof write_bio_ok as Hok3. rewrite Hr. change (view (set_fs_log _ ?t) c) with (view t c).
  rewrite (view_step i bf' s1 (set_fs_buf (fs_buf s3) s1) c Hok); [by rewrite Hnb by (by rewrite Hbf)| |done|by split|by apply Hnb].
  destruct Hok3. split; try done; rewrite Hr in *; done.
Qed.
End Write.

(** The held buffer [i] got the data [d]; log_write makes that the view. *)
Lemma log_write_f V H s s1 i b d :
  ftr V H s s1 -> (i, b) ∈ H -> Z.of_nat (length d) = BSIZE -> outside (lg_start (fs_log s)) (lg_size (fs_log s)) b ->
  wpf fs_fault (log_write i) (fun _ s3 => ftr (V ++ [(b, d)]) H s s3 /\
    (forall j, j <> i -> fs_buf s3 j = fs_buf s1 j)) (upd_buf i (set_bf_data d) s1).
Proof.
  intros Hf Hin Hlen Ho. destruct (ft_held _ _ _ _ Hf i b Hin) as [Hh Hb]. pose proof Hb as [Hdev Hbno]%is_block_true.
  pose proof Hh as (Hi & _ & Hl). pose proof (ft_txn _ _ _ _ Hf) as [Hok Hsh Hnd Hdi Hop].
  pose proof (ls_n s1 Hsh) as Hn. unfold log_write. wnext. cbn [upd_buf fs_log set_fs_buf].
  destruct ((LOGSIZE <=? lg_n (fs_log s1)) || (lg_size (fs_log s1) - 1 <=? lg_n (fs_log s1))) eqn:Hbig; [by right|].
  apply orb_false_iff in Hbig as [Hbig Hbig2]. apply Z.leb_gt in Hbig, Hbig2.
  destruct (Z.ltb_spec (lg_outstanding (fs_log s1)) 1); [lia|]. wnext.
  assert (bf_blockno (fs_buf (upd_buf i (set_bf_data d) s1) i) = b) as -> by (cbn; by rewrite fn_lookup_insert).
  wnext. eapply wpf_done; [reflexivity|].
  set (bf' := set_bf_dirty true (set_bf_data d (fs_buf s1 i))).
  set (s3 := upd_buf i (set_bf_dirty true) _).
  assert (forall j, j <> i -> fs_buf s3 j = fs_buf s1 j) as Hne by (intros j Hj; cbn; by rewrite !fn_lookup_insert_ne).
  assert (fs_buf s3 i = bf') as Hat by (cbn; by rewrite !fn_lookup_insert).
  split; [|done].
  assert (s3 = set_fs_log (fs_log s3) (set_fs_buf (fs_buf s3) s1)) as Hr3 by done.
  pose proof (write_bio_ok s1 s3 i bf' b d Hok Hi Hb eq_refl Hlen Hat Hne Hr3) as Hok3.
  pose proof (write_dirty s1 s3 i bf' b d Hi Hb eq_refl Hat Hne) as Hdd.
  assert (0 <= b < fs_disksize s1) as Hrange by (rewrite <- Hbno; by apply (bk_range _ _ _ (bo_buf s1 Hok i Hi))).
  destruct (log_add_n (fs_log s1) b ltac:(lia)) as [_ Hfr].
  destruct Hf as [_ Hheld Hfree Hclean Hv [Hd Hw] Hsz Hlg Hsb Hino [Hpid Hcwd]].
  assert (lg_start (fs_log s1) = lg_start (fs_log s)) as Hst by (by injection Hlg).
  assert (lg_size (fs_log s1) = lg_size (fs_log s)) as Hsz' by (by injection Hlg).
  split; try done; [| | | | |by rewrite <- Hlg].
  - split; try done.
    + pose proof (log_shape_add s1 b Hsh Hrange ltac:(by rewrite Hst, Hsz') Hbig Hbig2) as [? ? ? ? ?]. by split.
    + cbn. rewrite log_add_homes by lia. case_decide as Hin'; [done|]. apply NoDup_app. split_and!; [done| |apply NoDup_singleton].
      intros c Hc ->%list_elem_of_singleton. done.
    + intros c. rewrite Hdd, Hdi. cbn. rewrite log_add_homes by lia. case_decide; set_solver.
    + cbn. injection Hfr as _ _ -> _ _. done.
  - intros j c Hj. destruct (Hheld j c Hj) as [(? & ? & ?) ?]. unfold holds_buf.
    destruct (decide (j = i)) as [->|]; [rewrite Hat; done|rewrite Hne by done; done].
  - intros j Hj Hn'. assert (j <> i) by (intros ->; apply Hn', list_elem_of_fmap; by exists (i, b)). rewrite Hne by done. auto.
  - intros j c Hj Hcl. destruct (decide (j = i)) as [->|]; [by rewrite Hat in Hcl|]. rewrite Hne in Hcl |- * by done.
    by apply (Hclean j c).
  - intros c. rewrite apply_writes_app. cbn [apply_writes]. destruct (decide (b = c)) as [->|Hbc].
    + rewrite fn_lookup_insert, (view_at s3 c i); [by rewrite Hat|done|done|by rewrite Hat].
    + rewrite fn_lookup_insert_ne by done. rewrite <- Hv. by apply (write_view_ne s1 s3 i bf' b d Hok Hi Hb eq_refl Hlen Hat Hne Hr3).
Qed.
