(* ===== verification/FsAlloc.v ===== *)
(** * Block allocation

    The free map as a predicate [used] on block numbers.  balloc returns the
    first free block, zeroed; bfree makes a block free; nothing else changes. *)

From S2P Require Import Prelude FsState Bio BioInv Log LogInv LogCommit LogCrash Fs FsTxn.

Local Open Scope c_scope.
Local Open Scope Z_scope.

(** ** The layout that mkfs gives a disk *)

(** The first data block. *)
Definition data_start (sb : superblock) : Z := sb_bmapstart sb + sb_size sb / BPB + 1.

Record layout (s : fsys) : Prop := mkLayout {
  ly_size : 0 <= sb_size (fs_sb s) <= fs_disksize s;
  ly_log : lg_start (fs_log s) = sb_logstart (fs_sb s) /\ lg_size (fs_log s) = sb_nlog (fs_sb s);
  ly_logend : 0 <= sb_logstart (fs_sb s) /\ sb_logstart (fs_sb s) + sb_nlog (fs_sb s) <= sb_inodestart (fs_sb s);
  ly_inodes : 0 <= sb_inodestart (fs_sb s) /\ 0 <= sb_ninodes (fs_sb s) /\
    sb_inodestart (fs_sb s) + sb_ninodes (fs_sb s) / IPB + 1 <= sb_bmapstart (fs_sb s);
  ly_data : data_start (fs_sb s) <= sb_size (fs_sb s);
}.

Definition used (s : fsys) (b : Z) : bool := bit_set (view s (BBLOCK b (fs_sb s))) (b `mod` BPB).

(** The blocks before the data blocks are marked used. *)
Definition meta_used (s : fsys) : Prop := forall b, 0 <= b < data_start (fs_sb s) -> used s b = true.

Lemma BBLOCK_range s b :
  layout s -> 0 <= b < sb_size (fs_sb s) ->
  0 <= BBLOCK b (fs_sb s) < data_start (fs_sb s) /\ BBLOCK b (fs_sb s) < fs_disksize s /\
  outside (lg_start (fs_log s)) (lg_size (fs_log s)) (BBLOCK b (fs_sb s)).
Proof.
  intros [Hsz [Hl1 Hl2] Hle (Hi0 & Hn0 & Hi) Hd] Hb. unfold BBLOCK, data_start, outside in *. rewrite Hl1, Hl2.
  assert (0 <= b / BPB <= sb_size (fs_sb s) / BPB) by (unfold BPB, BSIZE; split; zlia).
  assert (0 <= sb_ninodes (fs_sb s) / IPB) by (unfold IPB, BSIZE; zlia). lia.
Qed.

Lemma data_outside s b :
  layout s -> data_start (fs_sb s) <= b < sb_size (fs_sb s) ->
  0 <= b < fs_disksize s /\ outside (lg_start (fs_log s)) (lg_size (fs_log s)) b.
Proof.
  intros [Hsz [Hl1 Hl2] Hle (Hi0 & Hn0 & Hi) Hd] Hb. unfold data_start, outside in *. rewrite Hl1, Hl2.
  assert (0 <= sb_ninodes (fs_sb s) / IPB) by (unfold IPB, BSIZE; zlia).
  assert (0 <= sb_size (fs_sb s) / BPB) by (unfold BPB, BSIZE; zlia). lia.
Qed.

(** ** Bits *)

Lemma testbit_one k j : 0 <= k -> 0 <= j -> Z.testbit (Z.shiftl 1 k) j = (j =? k).
Proof. intros Hk Hj. rewrite Z.shiftl_1_l, Z.pow2_bits_eqb by done. apply Z.eqb_sym. Qed.

Lemma bit_fits bi x (d : block) : 0 <= bi < BPB -> Z.of_nat (length d) = BSIZE -> fits (bi / 8) [x] d.
Proof. unfold fits, BPB, BSIZE. simpl. intros. zlia. Qed.

Lemma same_bit bi bj : 0 <= bi -> 0 <= bj -> bi / 8 = bj / 8 -> (bj `mod` 8 =? bi `mod` 8) = (bj =? bi).
Proof. intros. destruct (Z.eqb_spec (bj `mod` 8) (bi `mod` 8)), (Z.eqb_spec bj bi); zlia. Qed.

Lemma get8_one x : get8 [x] 0 = x.
Proof. done. Qed.

Lemma bit_set_mark d bi bj :
  Z.of_nat (length d) = BSIZE -> 0 <= bi < BPB -> 0 <= bj < BPB ->
  bit_set (mark_bit bi d) bj = (bj =? bi) || bit_set d bj.
Proof.
  intros Hl Hi Hj. unfold bit_set, mark_bit. rewrite get8_put by (by apply bit_fits || zlia).
  change (Z.of_nat (length [_])) with 1.
  destruct (decide (bi / 8 <= bj / 8 < bi / 8 + 1)).
  - assert (bi / 8 = bj / 8) as He by lia. rewrite He, Z.sub_diag, get8_one.
    rewrite Z.lor_spec, testbit_one by zlia. rewrite same_bit by lia. apply orb_comm.
  - destruct (Z.eqb_spec bj bi) as [->|]; [lia|done].
Qed.

Lemma bit_set_clear d bi bj :
  Z.of_nat (length d) = BSIZE -> 0 <= bi < BPB -> 0 <= bj < BPB ->
  bit_set (clear_bit bi d) bj = negb (bj =? bi) && bit_set d bj.
Proof.
  intros Hl Hi Hj. unfold bit_set, clear_bit. rewrite get8_put by (by apply bit_fits || zlia).
  change (Z.of_nat (length [_])) with 1.
  destruct (decide (bi / 8 <= bj / 8 < bi / 8 + 1)).
  - assert (bi / 8 = bj / 8) as He by lia. rewrite He, Z.sub_diag, get8_one.
    rewrite Z.land_spec, Z.lnot_spec, testbit_one by zlia. rewrite same_bit by lia. apply andb_comm.
  - destruct (Z.eqb_spec bj bi) as [->|]; [lia|done].
Qed.

Lemma length_mark d bi : Z.of_nat (length d) = BSIZE -> 0 <= bi < BPB -> Z.of_nat (length (mark_bit bi d)) = BSIZE.
Proof. intros Hl Hi. unfold mark_bit. by rewrite length_put by (by apply bit_fits). Qed.

Lemma length_clear d bi : Z.of_nat (length d) = BSIZE -> 0 <= bi < BPB -> Z.of_nat (length (clear_bit bi d)) = BSIZE.
Proof. intros Hl Hi. unfold clear_bit. by rewrite length_put by (by apply bit_fits). Qed.

Lemma free_bit_spec left d b bi size :
  match free_bit left d b bi size with
  | Some k => bi <= k < bi + Z.of_nat left /\ b + k < size /\ bit_set d k = false /\
      (forall j, bi <= j < k -> bit_set d j = true)
  | None => forall j, bi <= j < bi + Z.of_nat left -> b + j < size -> bit_set d j = true
  end.
Proof.
  revert bi. induction left as [|left IH]; intros bi; cbn [free_bit]; [intros; lia|].
  destruct (Z.ltb_spec (b + bi) size); [|intros; lia].
  destruct (bit_set d bi) eqn:Hb; [|split_and!; (done || lia || (intros; lia))].
  specialize (IH (bi + 1)). destruct (free_bit left d b (bi + 1) size) as [k|].
  - destruct IH as (H1 & H2 & H3 & H4). split_and!; try (done || lia). intros j Hj.
    destruct (decide (j = bi)) as [->|]; [done|]. apply H4. lia.
  - intros j Hj1 Hj2. destruct (decide (j = bi)) as [->|]; [done|]. apply IH; lia.
Qed.

(** ** bzero, balloc, bfree *)

Definition zeros : block := repeat 0 (Z.to_nat BSIZE).

Lemma zeros_length : Z.of_nat (length zeros) = BSIZE.
Proof. unfold zeros. rewrite repeat_length. done. Qed.

(** Replace the data of the held buffer, log it and release it. *)
Lemma update_f V H s s1 i b d :
  ftr V ((i, b) :: H) s s1 -> i ∉ H.*1 -> Z.of_nat (length d) = BSIZE ->
  outside (lg_start (fs_log s)) (lg_size (fs_log s)) b ->
  forall {A} (k : M fsys A) (F : fault -> Prop) Q, (forall f, fs_fault f -> F f) ->
  (forall s2, ftr (V ++ [(b, d)]) H s s2 -> wpf F k Q s2) ->
  wpf F (set_bdata i d ;; log_write i ;; brelse i ;; k) Q s1.
Proof.
  intros Hf Hi Hl Ho A k F Q HF Hk. wnext. apply wpf_bind. eapply wpf_call; [apply (log_write_f _ _ _ _ i b d Hf); [set_solver|done|done]|done|].
  intros [] s2 [Hf2 _]. apply wpf_bind. eapply wpf_call; [by eapply brelse_f|done|].
  intros [] s3 [Hf3 _]. by apply Hk.
Qed.

Lemma update_f_end V H s s1 i b d :
  ftr V ((i, b) :: H) s s1 -> i ∉ H.*1 -> Z.of_nat (length d) = BSIZE ->
  outside (lg_start (fs_log s)) (lg_size (fs_log s)) b ->
  wpf fs_fault (set_bdata i d ;; log_write i ;; brelse i) (fun _ s2 => ftr (V ++ [(b, d)]) H s s2) s1.
Proof.
  intros Hf Hi Hl Ho. wnext. apply wpf_bind. eapply wpf_mono; [apply (log_write_f _ _ _ _ i b d Hf); [set_solver|done|done]|].
  intros [] s2 [Hf2 _]. eapply wpf_mono; [by eapply brelse_f|]. intros [] s3 [Hf3 _]. done.
Qed.

Lemma bzero_f V H s s1 b :
  ftr V H s s1 -> 0 <= b < fs_disksize s -> b ∉ H.*2 -> outside (lg_start (fs_log s)) (lg_size (fs_log s)) b ->
  wpf fs_fault (bzero 1 b) (fun _ s2 => ftr (V ++ [(b, zeros)]) H s s2) s1.
Proof.
  intros Hf Hb HbH Ho. unfold bzero. apply wpf_bind. eapply wpf_mono; [by apply bread_f|].
  intros i s2 (Hf2 & Hi & _). eapply update_f_end; try done.
Qed.

(** [used] of a state reached by block changes. *)
Lemma used_view s s' b : (forall c, view s' c = view s c) -> fs_sb s' = fs_sb s -> used s' b = used s b.
Proof. intros Hv Hsb. unfold used. by rewrite Hsb, Hv. Qed.

(** The block changes of an allocation of [b] in [s]. *)
Definition alloc_writes (s : fsys) (b : Z) : list (Z * block) :=
  [(BBLOCK b (fs_sb s), mark_bit (b `mod` BPB) (view s (BBLOCK b (fs_sb s)))); (b, zeros)].

(** [b] is the first free block. *)
Definition first_free (s : fsys) (b : Z) : Prop :=
  0 <= b < sb_size (fs_sb s) /\ used s b = false /\ forall c, 0 <= c < b -> used s c = true.

(** Held buffers are of data blocks in use. *)
Definition held_data (s : fsys) (H : list (nat * Z)) : Prop :=
  forall c, c ∈ H.*2 -> data_start (fs_sb s) <= c /\ used s c = true.

(** The panics of balloc: those of the blocks below, and a full disk. *)
Definition alloc_fault (s : fsys) (f : fault) : Prop :=
  fs_fault f \/ (f = FPanic "balloc: out of blocks" /\ forall b, 0 <= b < sb_size (fs_sb s) -> used s b = true).

Lemma balloc_loop_ok fuel V H s s1 m :
  ftr V H s s1 -> layout s -> meta_used s1 -> held_data s1 H ->
  0 <= m -> (forall c, 0 <= c < BPB * m -> c < sb_size (fs_sb s) -> used s1 c = true) ->
  (Z.to_nat (sb_size (fs_sb s) / BPB + 1 - m) < fuel)%nat ->
  wpf (alloc_fault s1) (balloc_loop fuel 1 (BPB * m)) (fun b s2 => first_free s1 b /\ ftr (V ++ alloc_writes s1 b) H s s2) s1.
Proof.
  revert V s1 m. induction fuel as [|fuel IH]; intros V s1 m Hf Hly Hmeta Hheld Hm Hlow Hfuel; [lia|].
  cbn [balloc_loop]. wnext. pose proof (ft_sb _ _ _ _ Hf) as Hsb. rewrite Hsb.
  destruct (Z.ltb_spec (BPB * m) (sb_size (fs_sb s))); [|right; split; [done|]; intros c Hc; rewrite Hsb in Hc; apply Hlow; lia].
  assert (BBLOCK (BPB * m) (fs_sb s) = BBLOCK (BPB * m) (fs_sb s1)) as Hbb by (by rewrite Hsb).
  destruct (BBLOCK_range s (BPB * m) Hly ltac:(unfold BPB, BSIZE in *; lia)) as (Hr1 & Hr2 & Hr3).
  assert (BBLOCK (BPB * m) (fs_sb s) ∉ H.*2) as HbH.
  { intros Hin. destruct (Hheld _ Hin) as [Hd _]. rewrite Hsb in Hd. lia. }
  apply wpf_bind. eapply wpf_call; [apply (bread_f V H s s1 _ Hf); [lia|done]|by left|].
  intros i s2 (Hf2 & Hi & Hv2 & _). wnext.
  assert (bf_data (fs_buf s2 i) = view s1 (BBLOCK (BPB * m) (fs_sb s))) as Hd2.
  { rewrite (ftr_data _ _ _ _ i (BBLOCK (BPB * m) (fs_sb s)) Hf2) by set_solver. apply Hv2. }
  rewrite Hd2. set (d := view s1 (BBLOCK (BPB * m) (fs_sb s))) in *.
  assert (forall bi, 0 <= bi < BPB -> used s1 (BPB * m + bi) = bit_set d bi /\
    BBLOCK (BPB * m + bi) (fs_sb s1) = BBLOCK (BPB * m) (fs_sb s) /\ (BPB * m + bi) `mod` BPB = bi) as Hbits.
  { intros bi Hbi. assert ((BPB * m + bi) / BPB = m /\ (BPB * m + bi) `mod` BPB = bi) as [E1 E2] by (unfold BPB, BSIZE in *; split; zlia).
    assert (BPB * m / BPB = m) as E3 by (unfold BPB, BSIZE in *; zlia).
    unfold used, BBLOCK, d. rewrite Hsb, E1, E2. unfold BBLOCK. rewrite E3. done. }
  pose proof (free_bit_spec (Z.to_nat BPB) d (BPB * m) 0 (sb_size (fs_sb s))) as Hspec.
  rewrite Z.add_0_l, Z2Nat.id in Hspec by done.
  destruct (free_bit _ d (BPB * m) 0 _) as [k|].
  - destruct Hspec as (Hk & Hks & Hkf & Hkl). destruct (Hbits k Hk) as (Hu & HB & Hmod).
    assert (first_free s1 (BPB * m + k)) as Hff.
    { split; [rewrite Hsb; unfold BPB, BSIZE in *; lia|]. split; [congruence|]. intros c Hc.
      destruct (Z.lt_ge_cases c (BPB * m)) as [Hcm|Hcm]; [apply Hlow; lia|]. replace c with (BPB * m + (c - BPB * m)) by lia.
      destruct (Hbits (c - BPB * m)) as (-> & _ & _); [lia|]. apply Hkl. lia. }
    destruct (data_outside s (BPB * m + k) Hly) as [Hdr Hdo].
    { split; [|lia]. destruct (Z.le_gt_cases (data_start (fs_sb s)) (BPB * m + k)) as [|Hds]; [done|].
      rewrite <- Hsb in Hds. rewrite Hmeta in Hu by (unfold BPB, BSIZE in *; lia). congruence. }
    eapply update_f; [exact Hf2|done|apply length_mark; [apply view_length; [apply Hf|rewrite (ft_size _ _ _ _ Hf); lia]|done]|done|by left|].
    intros s3 Hf3. apply wpf_bind. eapply wpf_call; [apply (bzero_f _ _ _ _ _ Hf3 Hdr); [|done]|by left|].
    + intros Hin. destruct (Hheld _ Hin). congruence.
    + intros [] s4 Hf4. eapply wpf_done; [done|]. split; [done|]. unfold alloc_writes. rewrite HB, Hmod.
      rewrite <- app_assoc in Hf4. exact Hf4.
  - apply wpf_bind. eapply wpf_call; [by eapply brelse_f|by left|]. intros [] s3 [Hf3 Hv3].
    replace (BPB * m + BPB) with (BPB * (m + 1)) by lia.
    assert (forall c, view s3 c = view s1 c) as Hv13 by (intros c; by rewrite Hv3, Hv2).
    pose proof (ft_sb _ _ _ _ Hf3) as Hsb3.
    assert (forall c, used s3 c = used s1 c) as Hus by (intros c; apply used_view; [done|congruence]).
    assert (forall bi, 0 <= bi < BPB -> BPB * m + bi < sb_size (fs_sb s) -> used s1 (BPB * m + bi) = true) as Hfull.
    { intros bi Hbi Hlt. destruct (Hbits bi Hbi) as (-> & _ & _). by apply Hspec. }
    assert (m <= sb_size (fs_sb s) / BPB) by (unfold BPB, BSIZE in *; zlia).
    eapply wpf_call; [apply (IH V s3 (m + 1) Hf3 Hly)| |].
    + intros c Hc. rewrite Hus. apply Hmeta. congruence.
    + intros c Hc. rewrite Hus, Hsb3, <- Hsb. by apply Hheld.
    + lia.
    + intros c Hc Hcs. rewrite Hus. destruct (Z.lt_ge_cases c (BPB * m)) as [Hcm|Hcm]; [apply Hlow; lia|].
      replace c with (BPB * m + (c - BPB * m)) by lia. apply Hfull; lia.
    + lia.
    + intros f [?|[-> Hall]]; [by left|]. right. split; [done|]. intros b Hb. rewrite <- Hus. apply Hall. congruence.
    + intros b s4 [(Hb1 & Hb2 & Hb3) Hf4]. rewrite Hsb3, <- Hsb in Hb1. rewrite Hus in Hb2. split.
      * split; [done|]. split; [done|]. intros c Hc. rewrite <- Hus. by apply Hb3.
      * unfold alloc_writes in *. by rewrite Hv13, Hsb3, <- Hsb in Hf4.
Qed.

Lemma balloc_f V H s s1 :
  ftr V H s s1 -> layout s -> meta_used s1 -> held_data s1 H ->
  wpf (alloc_fault s1) (balloc 1) (fun b s2 => first_free s1 b /\ ftr (V ++ alloc_writes s1 b) H s s2) s1.
Proof.
  intros Hf Hly Hm Hh. unfold balloc. wnext. rewrite (ft_sb _ _ _ _ Hf).
  apply (balloc_loop_ok _ V H s s1 0); try done; [intros; lia|]. destruct (ly_size s Hly).
  assert (0 <= sb_size (fs_sb s) / BPB) by (unfold BPB, BSIZE; zlia). lia.
Qed.

(** The view after more block changes, from the view before them. *)
Lemma ftr_view_more V W H H' s s1 s2 c :
  ftr V H s s1 -> ftr (V ++ W) H' s s2 -> view s2 c = apply_writes W (view s1) c.
Proof.
  intros H1 H2. rewrite (ft_view _ _ _ _ H2), apply_writes_app. apply apply_writes_ext.
  by rewrite (ft_view _ _ _ _ H1).
Qed.

Lemma layout_ftr V H s s1 : ftr V H s s1 -> layout s -> layout s1.
Proof.
  intros Hf []. pose proof (ft_size _ _ _ _ Hf). pose proof (ft_log _ _ _ _ Hf) as Hlg. injection Hlg as Hl1 Hl2 _ _ _.
  split; rewrite ?(ft_sb _ _ _ _ Hf), ?Hl1, ?Hl2; try done. lia.
Qed.

Lemma first_free_data s b : meta_used s -> first_free s b -> data_start (fs_sb s) <= b < sb_size (fs_sb s).
Proof.
  intros Hm ([? ?] & Hu & _). split; [|done]. destruct (Z.le_gt_cases (data_start (fs_sb s)) b); [done|].
  rewrite Hm in Hu by done. done.
Qed.

(** Changing the bitmap block of [b] by [f], a function on its bit alone,
    changes [used] at [b] alone. *)
Lemma used_change s s' b c (f : Z -> block -> block) (g : bool -> bool) :
  bio_ok s -> layout s -> fs_sb s' = fs_sb s ->
  0 <= b < sb_size (fs_sb s) -> 0 <= c < sb_size (fs_sb s) ->
  (forall d bi bj, Z.of_nat (length d) = BSIZE -> 0 <= bi < BPB -> 0 <= bj < BPB ->
     bit_set (f bi d) bj = if bj =? bi then g (bit_set d bj) else bit_set d bj) ->
  (forall x, 0 <= x < data_start (fs_sb s) -> view s' x =
     if decide (x = BBLOCK b (fs_sb s)) then f (b `mod` BPB) (view s (BBLOCK b (fs_sb s))) else view s x) ->
  used s' c = if c =? b then g (used s c) else used s c.
Proof.
  intros Hok Hly Hsb Hb Hc Hfg Hv. unfold used. rewrite Hsb.
  destruct (BBLOCK_range s b Hly Hb) as (? & ? & _), (BBLOCK_range s c Hly Hc) as (? & ? & _).
  rewrite Hv by done. assert (0 < BPB) by done. case_decide as He.
  - rewrite Hfg, He; [|apply view_length; [done|lia]|by apply Z.mod_pos_bound..].
    assert (c / BPB = b / BPB) by (unfold BBLOCK in He; lia). unfold BPB, BSIZE in *.
    destruct (Z.eqb_spec c b) as [->|]; [by rewrite Z.eqb_refl|].
    destruct (Z.eqb_spec (c `mod` (512 * 8)) (b `mod` (512 * 8))); [zlia|done].
  - destruct (Z.eqb_spec c b) as [->|]; done.
Qed.

Lemma used_alloc V H H' s s1 s2 b c :
  ftr V H s s1 -> layout s -> meta_used s1 -> first_free s1 b -> ftr (V ++ alloc_writes s1 b) H' s s2 ->
  0 <= c < sb_size (fs_sb s) -> used s2 c = (c =? b) || used s1 c.
Proof.
  intros Hf Hly Hm Hff Hf2 Hc. pose proof (first_free_data _ _ Hm Hff) as Hbd.
  pose proof (ft_sb _ _ _ _ Hf) as Hsb. rewrite Hsb in Hbd.
  assert (used s2 c = if c =? b then true else used s1 c) as ->; [|by destruct (c =? b)].
  pose proof (layout_ftr _ _ _ _ Hf Hly) as Hly1.
  assert (0 <= b < sb_size (fs_sb s)) as Hbr by (destruct Hff as (? & _); congruence).
  apply (used_change s1 s2 b c mark_bit (fun _ => true)); rewrite ?Hsb; try done; [apply Hf|by rewrite (ft_sb _ _ _ _ Hf2)|..].
  - intros d bi bj Hl Hbi Hbj. rewrite bit_set_mark by done. by destruct (bj =? bi).
  - intros x Hx. rewrite (ftr_view_more _ _ _ _ _ _ _ x Hf Hf2). unfold alloc_writes. cbn [apply_writes].
    rewrite Hsb. rewrite fn_lookup_insert_ne by lia. case_decide as He; [rewrite He; by rewrite fn_lookup_insert|].
    by rewrite fn_lookup_insert_ne.
Qed.

(** The block change of freeing [b]. *)
Definition free_write (s : fsys) (b : Z) : Z * block :=
  (BBLOCK b (fs_sb s), clear_bit (b `mod` BPB) (view s (BBLOCK b (fs_sb s)))).

Definition free_fault (s : fsys) (b : Z) (f : fault) : Prop :=
  fs_fault f \/ (f = FPanic "freeing free block" /\ used s b = false).

Lemma bfree_f V H s s1 b :
  ftr V H s s1 -> layout s -> 0 <= b < sb_size (fs_sb s) -> BBLOCK b (fs_sb s) ∉ H.*2 ->
  wpf (free_fault s1 b) (bfree 1 b) (fun _ s2 => used s1 b = true /\ ftr (V ++ [free_write s1 b]) H s s2) s1.
Proof.
  intros Hf Hly Hb HbH. pose proof (ft_sb _ _ _ _ Hf) as Hsb. destruct (BBLOCK_range s b Hly Hb) as (Hr1 & Hr2 & Hr3).
  unfold bfree. wnext. rewrite Hsb. apply wpf_bind.
  eapply wpf_call; [apply (bread_f V H s s1 _ Hf); [lia|done]|by left|].
  intros i s2 (Hf2 & Hi & Hv2 & _). cbv zeta. wnext.
  assert (bf_data (fs_buf s2 i) = view s1 (BBLOCK b (fs_sb s))) as ->.
  { rewrite (ftr_data _ _ _ _ i (BBLOCK b (fs_sb s)) Hf2) by set_solver. apply Hv2. }
  assert (bit_set (view s1 (BBLOCK b (fs_sb s))) (b `mod` BPB) = used s1 b) as Hu by (unfold used; by rewrite Hsb).
  rewrite Hu. destruct (used s1 b) eqn:Hus; cbn [negb]; [|right; done].
  eapply wpf_call; [eapply update_f_end; [exact Hf2|done| |done]|by left|].
  - apply length_clear; [apply view_length; [apply Hf|rewrite (ft_size _ _ _ _ Hf); lia]|by apply Z.mod_pos_bound].
  - intros [] s3 Hf3. split; [done|]. unfold free_write. by rewrite Hsb.
Qed.

Lemma used_free V H H' s s1 s2 b c :
  ftr V H s s1 -> layout s -> 0 <= b < sb_size (fs_sb s) -> ftr (V ++ [free_write s1 b]) H' s s2 ->
  0 <= c < sb_size (fs_sb s) -> used s2 c = negb (c =? b) && used s1 c.
Proof.
  intros Hf Hly Hb Hf2 Hc. pose proof (ft_sb _ _ _ _ Hf) as Hsb.
  assert (used s2 c = if c =? b then false else used s1 c) as ->; [|by destruct (c =? b)].
  pose proof (layout_ftr _ _ _ _ Hf Hly) as Hly1.
  apply (used_change s1 s2 b c clear_bit (fun _ => false)); rewrite ?Hsb; try done; [apply Hf|by rewrite (ft_sb _ _ _ _ Hf2)|..].
  - intros d bi bj Hl Hbi Hbj. rewrite bit_set_clear by done. by destruct (bj =? bi).
  - intros x Hx. rewrite (ftr_view_more _ _ _ _ _ _ _ x Hf Hf2). unfold free_write. cbn [apply_writes].
    rewrite Hsb. case_decide as He; [rewrite He; by rewrite fn_lookup_insert|]. by rewrite fn_lookup_insert_ne.
Qed.
