(* ===== verification/FsContent.v ===== *)
(** * File content

    The bytes of a file as a function of its inode and the view of the blocks:
    [faddr] is the block of each index, through the indirect block, and
    [content] the byte at each offset, 0 where no block is allocated.  [grown]:
    bmap allocates blocks without a change of content. *)

From S2P Require Import Prelude FsState Bio BioInv Log LogInv LogCommit LogCrash Fs FsTxn FsAlloc.

Local Open Scope c_scope.
Local Open Scope Z_scope.

Definition indirect (i : inode) : Z := addr_of i NDIRECT.

Definition faddr (v : Z -> block) (i : inode) (bn : Z) : Z :=
  if bn <? NDIRECT then addr_of i bn
  else if indirect i =? 0 then 0 else get32 (v (indirect i)) (4 * (bn - NDIRECT)).

Definition content (v : Z -> block) (i : inode) (o : Z) : Z :=
  let a := faddr v i (o / BSIZE) in if a =? 0 then 0 else get8 (v a) (o `mod` BSIZE).

(** The blocks of a file are blocks in use ([U]), each of them once. *)
Record file_ok (U : Z -> Prop) (v : Z -> block) (i : inode) : Prop := mkFileOk {
  fo_len : length (i_addrs i) = 13%nat;
  fo_dev : i_dev i = 1;
  fo_addr : forall bn, 0 <= bn < MAXFILE -> faddr v i bn <> 0 -> U (faddr v i bn);
  fo_ind : indirect i <> 0 -> U (indirect i);
  fo_inj : forall b1 b2, 0 <= b1 < MAXFILE -> 0 <= b2 < MAXFILE -> faddr v i b1 <> 0 -> faddr v i b1 = faddr v i b2 -> b1 = b2;
  fo_ne : forall bn, 0 <= bn < MAXFILE -> faddr v i bn <> 0 -> faddr v i bn <> indirect i;
}.

(** From (v, i) to (v', i'): block index [bn] has the block [a]; the content is
    the same, and so are the blocks of other files. *)
Record grown (U U' : Z -> Prop) (v v' : Z -> block) (i i' : inode) : Prop := mkGrown {
  gr_ok : file_ok U' v' i';
  gr_content : forall o, 0 <= o < MAXFILE * BSIZE -> content v' i' o = content v i o;
  gr_addr : forall bn, 0 <= bn < MAXFILE -> faddr v i bn <> 0 -> faddr v' i' bn = faddr v i bn;
  gr_ind : indirect i <> 0 -> indirect i' = indirect i;
  gr_keep : forall c, U c -> c <> indirect i -> v' c = v c;
  gr_used : forall c, U c -> U' c;
  gr_new : forall bn, 0 <= bn < MAXFILE -> faddr v i bn = 0 -> faddr v' i' bn <> 0 -> ~ U (faddr v' i' bn);
  gr_newind : indirect i = 0 -> indirect i' <> 0 -> ~ U (indirect i');
  gr_rest : i' = set_i_addrs (i_addrs i') i;
}.

Lemma get8_zeros k : get8 zeros k = 0.
Proof. unfold get8, zeros. apply nth_repeat. Qed.

Lemma get32_zeros k : get32 zeros k = 0.
Proof. unfold get32. by rewrite !get8_zeros. Qed.

Lemma fgrow_refl U U' v v' i :
  file_ok U v i -> (forall c, U c -> v' c = v c) -> (forall c, U c -> U' c) -> grown U U' v v' i i.
Proof.
  intros [H1 H2 H3 H4 H5 H6] Hv HU.
  assert (forall bn, 0 <= bn < MAXFILE -> faddr v' i bn = faddr v i bn) as Ha.
  { intros bn Hbn. unfold faddr. case_match; [done|]. destruct (Z.eqb_spec (indirect i) 0); [done|]. by rewrite Hv by auto. }
  assert (forall o, 0 <= o < MAXFILE * BSIZE -> 0 <= o / BSIZE < MAXFILE) as Hdiv.
  { intros o Ho. unfold MAXFILE, NDIRECT, NINDIRECT, BSIZE in *. zlia. }
  split; try done.
  - split; try done; intros; rewrite ?Ha in * by done; eauto.
  - intros o Ho. unfold content. rewrite Ha by auto. destruct (Z.eqb_spec (faddr v i (o / BSIZE)) 0); [done|]. rewrite Hv by auto. done.
  - intros bn Hbn _. auto.
  - auto.
  - intros bn Hbn H0 Hn. rewrite Ha in Hn by done. done.
  - by destruct i.
Qed.

Lemma fgrow_trans U U1 U2 v v1 v2 i i1 i2 :
  grown U U1 v v1 i i1 -> grown U1 U2 v1 v2 i1 i2 -> grown U U2 v v2 i i2.
Proof.
  intros [? Hc1 Ha1 Hi1 Hk1 Hu1 Hn1 Hni1 Hr1] [? Hc2 Ha2 Hi2 Hk2 Hu2 Hn2 Hni2 Hr2]. split; try done; auto.
  - intros o Ho. by rewrite Hc2, Hc1.
  - intros bn Hbn Hn. rewrite Ha2; [by apply Ha1|done|by rewrite Ha1].
  - intros Hn. rewrite Hi2; [by apply Hi1|by rewrite Hi1].
  - intros c HU Hc. rewrite Hk2; [by apply Hk1|by apply Hu1|]. intros ->.
    destruct (decide (indirect i = 0)) as [H0|H0]; [|by rewrite Hi1 in Hc].
    destruct (decide (indirect i1 = 0)) as [H1|H1]; [congruence|by apply (Hni1 H0 H1)].
  - intros bn Hbn H0 Hn. destruct (decide (faddr v1 i1 bn = 0)) as [H1|H1].
    + intros HU. by apply (Hn2 bn Hbn H1 Hn), Hu1.
    + rewrite Ha2 by done. by apply Hn1.
  - intros H0 Hn. destruct (decide (indirect i1 = 0)) as [H1|H1]; [intros HU; by apply (Hni2 H1 Hn), Hu1|].
    rewrite Hi2 by done. by apply Hni1.
  - rewrite Hr2, Hr1. done.
Qed.

(** ** Changes of one entry *)

Lemma off_range o : 0 <= o < MAXFILE * BSIZE -> 0 <= o / BSIZE < MAXFILE.
Proof. unfold MAXFILE, NDIRECT, NINDIRECT, BSIZE. intros. zlia. Qed.

Lemma entry_fits k x (d : block) : NDIRECT <= k < MAXFILE -> Z.of_nat (length d) = BSIZE -> fits (4 * (k - NDIRECT)) (bytes32 x) d.
Proof.
  intros Hk Hl. unfold fits. rewrite Hl. change (length (bytes32 x)) with 4%nat. unfold MAXFILE, NINDIRECT, BSIZE, NDIRECT in *. zlia.
Qed.

Section Change.
Context (U U' : Z -> Prop) (v v' : Z -> block) (i i' : inode) (a : Z).
Context (Hok : file_ok U v i) (Hi' : i' = set_i_addrs (i_addrs i') i) (Hlen : length (i_addrs i') = 13%nat).
Context (Ha : ~ U a) (Ha0 : a <> 0) (Hz : v' a = zeros) (HUa : U' a) (HU : forall c, U c -> U' c).
Context (Hkeep : forall c, U c -> c <> indirect i -> v' c = v c).

(** One index [k], free before, gets the fresh block [a]. *)
Lemma grown_one k :
  0 <= k < MAXFILE -> faddr v i k = 0 -> indirect i' = indirect i ->
  (forall bn, 0 <= bn < MAXFILE -> faddr v' i' bn = if decide (bn = k) then a else faddr v i bn) -> grown U U' v v' i i'.
Proof.
  intros Hk Hk0 Hind Hf. pose proof Hok as [H1 H2 H3 H4 H5 H6].
  assert (forall bn, 0 <= bn < MAXFILE -> faddr v i bn <> 0 -> faddr v i bn <> a) as Hne by (intros bn Hbn Hn He; apply Ha; rewrite <- He; auto).
  split; try done.
  - split; try done.
    + by rewrite Hi'.
    + intros bn Hbn. rewrite Hf by done. case_decide; [done|]. auto.
    + rewrite Hind. auto.
    + intros b1 b2 Hb1 Hb2. rewrite !Hf by done. repeat case_decide; subst; try done.
      * intros _ He. exfalso. apply (Hne b2 Hb2); congruence.
      * intros Hn He. exfalso. by apply (Hne b1 Hb1).
      * by apply H5.
    + intros bn Hbn. rewrite Hf, Hind by done. case_decide; [|by apply H6].
      intros _ ->. apply Ha. apply H4. done.
  - intros o Ho. unfold content. pose proof (off_range o Ho). rewrite Hf by done. case_decide as He.
    + rewrite He, Hk0. cbn. destruct (Z.eqb_spec a 0); [done|]. by rewrite Hz, get8_zeros.
    + destruct (Z.eqb_spec (faddr v i (o / BSIZE)) 0); [done|]. rewrite Hkeep; [done|auto|auto].
  - intros bn Hbn Hn. rewrite Hf by done. case_decide; [subst; done|done].
  - intros bn Hbn H0 Hn. rewrite Hf in * by done. case_decide; [done|]. done.
  - rewrite Hind. congruence.
Qed.

(** The indirect block, absent before, is [a]. *)
Lemma grown_indirect :
  indirect i = 0 -> indirect i' = a -> (forall bn, 0 <= bn < NDIRECT -> addr_of i' bn = addr_of i bn) -> grown U U' v v' i i'.
Proof.
  intros Hi0 Hia Hd. pose proof Hok as [H1 H2 H3 H4 H5 H6].
  assert (forall bn, 0 <= bn < MAXFILE -> faddr v' i' bn = faddr v i bn) as Hf.
  { intros bn Hbn. unfold faddr. destruct (Z.ltb_spec bn NDIRECT); [apply Hd; lia|]. rewrite Hia, Hi0, Hz, get32_zeros. by destruct (a =? 0). }
  split; try done.
  - split; try done.
    + by rewrite Hi'.
    + intros bn Hbn. rewrite Hf by done. auto.
    + by rewrite Hia.
    + intros b1 b2 Hb1 Hb2. rewrite !Hf by done. by apply H5.
    + intros bn Hbn. rewrite Hf, Hia by done. intros Hn He. apply Ha. rewrite <- He. auto.
  - intros o Ho. unfold content. pose proof (off_range o Ho). rewrite Hf by done.
    destruct (Z.eqb_spec (faddr v i (o / BSIZE)) 0); [done|]. rewrite Hkeep; [done|auto|auto].
  - intros bn Hbn Hn. by rewrite Hf.
  - intros bn Hbn H0 Hn. rewrite Hf in Hn by done. done.
  - by rewrite Hia.
Qed.

(** Index [k] gets the block [a] in the indirect block. *)
Lemma grown_entry k :
  i' = i -> NDIRECT <= k < MAXFILE -> faddr v i k = 0 -> indirect i <> 0 -> is_u32 a -> Z.of_nat (length (v (indirect i))) = BSIZE ->
  v' (indirect i) = put32 (4 * (k - NDIRECT)) a (v (indirect i)) -> grown U U' v v' i i'.
Proof using All.
  intros He Hk Hk0 Hin Hw Hl Hv. apply (grown_one k); try done; [unfold NDIRECT in *; lia|by rewrite He|].
  pose proof (entry_fits k a _ Hk Hl) as Hfit.
  intros bn Hbn. rewrite He. unfold faddr in *. destruct (Z.ltb_spec bn NDIRECT); [by rewrite decide_False by lia|].
  destruct (Z.ltb_spec k NDIRECT); [lia|]. destruct (Z.eqb_spec (indirect i) 0); [done|]. rewrite Hv.
  case_decide; [subst; by rewrite get32_put32|]. rewrite get32_put32_ne by (done || lia). done.
Qed.
End Change.

(** ** Allocation inside a transaction *)

(** Between the operations of a system call: no buffer held, the bitmap and
    the layout in order. *)
Record fok (s : fsys) : Prop := mkFok {
  fk_txn : txn_ok s;
  fk_unlocked : unlocked s;
  fk_layout : layout s;
  fk_meta : meta_used s;
  fk_size : fs_disksize s <= u32_mod;
}.

(** A data block in use *)
Definition in_use (s : fsys) (c : Z) : Prop := data_start (fs_sb s) <= c < sb_size (fs_sb s) /\ used s c = true.

Definition file_fault (f : fault) : Prop := fs_fault f \/ f = FPanic "balloc: out of blocks".

(** [s'] comes from [s] by logged block writes and changes of inodes. *)
(** The blocks before the bitmap, among them those of the inodes, are as they were. *)
Definition low_same (s s' : fsys) : Prop := forall c, c < sb_bmapstart (fs_sb s) -> view s' c = view s c.

Definition fstep (s s' : fsys) : Prop := (exists V, ftr V [] (set_fs_inode (fs_inode s') s) s') /\ low_same s s'.

Lemma fstep_refl s : fok s -> fstep s s.
Proof. intros Hf. split; [|done]. exists []. destruct s. apply ftr_refl; apply Hf. Qed.

Lemma fstep_trans s s1 s2 : fstep s s1 -> fstep s1 s2 -> fstep s s2.
Proof.
  intros [[V1 H1] L1] [[V2 H2] L2]. split.
  - exists (V1 ++ V2). eapply ftr_trans; [|exact H2]. exact (ftr_inode (fs_inode s2) _ _ _ _ H1).
  - intros c Hc. rewrite L2, L1; [done..|]. by rewrite (ft_sb _ _ _ _ H1).
Qed.

(** What balloc does to a state in which the buffers [H] are held *)
Record allocated (b : Z) (s s' : fsys) : Prop := mkAllocated {
  al_fresh : ~ in_use s b;
  al_used : in_use s' b;
  al_zero : view s' b = zeros;
  al_keep : forall c, in_use s c -> view s' c = view s c;
  al_more : forall c, in_use s c -> in_use s' c;
  al_meta : meta_used s';
  al_low : low_same s s';
  al_inode : fs_inode s' = fs_inode s;
}.

Lemma in_use_sb s s' c : fs_sb s' = fs_sb s -> used s' c = used s c -> in_use s c -> in_use s' c.
Proof. unfold in_use. by intros -> ->. Qed.

Lemma data_start_pos s : layout s -> 0 < data_start (fs_sb s) /\ sb_bmapstart (fs_sb s) < data_start (fs_sb s).
Proof.
  intros [Hs _ _ (? & ? & ?) _]. unfold data_start in *.
  assert (0 <= sb_size (fs_sb s) / BPB) by (unfold BPB, BSIZE; zlia).
  assert (0 <= sb_ninodes (fs_sb s) / IPB) by (unfold IPB, BSIZE; zlia). lia.
Qed.

Lemma balloc_h V H s0 s :
  ftr V H s0 s -> layout s0 -> meta_used s -> held_data s H ->
  wpf file_fault (balloc 1) (fun b s' => allocated b s s' /\ exists W, ftr (V ++ W) H s0 s') s.
Proof.
  intros Hf Hly Hm Hh. eapply wpf_call; [by apply (balloc_f V H s0 s)|intros f [?|[-> _]]; [by left|by right]|].
  intros b s' [Hff Hf']. pose proof (first_free_data _ _ Hm Hff) as Hbd. pose proof Hff as (Hb & Hbu & _).
  pose proof (ft_sb _ _ _ _ Hf) as Hsb. pose proof (ft_sb _ _ _ _ Hf') as Hsb'.
  assert (forall c, 0 <= c < sb_size (fs_sb s) -> used s' c = (c =? b) || used s c) as Hus.
  { intros c Hc. eapply used_alloc; eauto. congruence. }
  assert (layout s) as Hlys by (by eapply layout_ftr).
  pose proof (data_start_pos s Hlys).
  assert (forall c, view s' c = apply_writes (alloc_writes s b) (view s) c) as Hv by (intros c; by eapply ftr_view_more).
  split; [|by eexists]. split.
  - intros [_ Hu]. congruence.
  - split; [congruence|]. rewrite Hus by lia. by rewrite Z.eqb_refl.
  - rewrite Hv. cbn. by rewrite fn_lookup_insert.
  - intros c [Hc Hu]. rewrite Hv. cbn. rewrite fn_lookup_insert_ne by congruence. apply fn_lookup_insert_ne.
    destruct (BBLOCK_range s b Hlys Hb) as (? & _). lia.
  - intros c [Hc Hu]. split; [congruence|]. rewrite Hus by lia. by rewrite Hu, orb_true_r.
  - intros c Hc. rewrite Hus; [rewrite Hm; [apply orb_true_r|congruence]|]. rewrite Hsb', <- Hsb in Hc.
    pose proof (ly_data s Hlys). lia.
  - intros c Hc. rewrite Hv. cbn. rewrite fn_lookup_insert_ne by lia. apply fn_lookup_insert_ne.
    assert (0 <= b / BPB) by (unfold BPB, BSIZE; zlia). unfold BBLOCK. lia.
  - by rewrite (ft_inode _ _ _ _ Hf'), (ft_inode _ _ _ _ Hf).
Qed.

(** ** bmap *)

Lemma addr_set k a i j :
  0 <= k <= NDIRECT -> 0 <= j -> length (i_addrs i) = 13%nat ->
  addr_of (set_addr k a i) j = if decide (j = k) then a else addr_of i j.
Proof.
  intros Hk Hj Hl. unfold addr_of, set_addr, NDIRECT in *. destruct i; cbn in *. rewrite !nth_lookup. case_decide as He.
  - subst. by rewrite list_lookup_insert_eq by lia.
  - by rewrite list_lookup_insert_ne by lia.
Qed.

(** [s'] comes from [s] by an operation on the inode [ip]: logged writes, the
    content of the file as before. *)
Record fgrown (ip : nat) (s s' : fsys) : Prop := mkFgrown {
  fg_ok : fok s';
  fg_step : fstep s s';
  fg_grown : grown (in_use s) (in_use s') (view s) (view s') (fs_inode s ip) (fs_inode s' ip);
  fg_other : forall j, j <> ip -> fs_inode s' j = fs_inode s j;
}.

Lemma fgrown_refl ip s : fok s -> file_ok (in_use s) (view s) (fs_inode s ip) -> fgrown ip s s.
Proof. intros Hf Ho. split; try done; [by apply fstep_refl|by apply fgrow_refl]. Qed.

Lemma fgrown_trans ip s s1 s2 : fgrown ip s s1 -> fgrown ip s1 s2 -> fgrown ip s s2.
Proof.
  intros [? ? ? Ho1] [? ? ? Ho2]. split; [done|by eapply fstep_trans|by eapply fgrow_trans|].
  intros j Hj. by rewrite Ho2, Ho1.
Qed.

Lemma fok_step V s s' : fok s -> ftr V [] (set_fs_inode (fs_inode s') s) s' -> meta_used s' -> low_same s s' -> fok s' /\ fstep s s'.
Proof.
  intros [? ? Hly ? ?] Hf Hm Hlo. split; [|by split; [eexists|]]. split; try done; [apply Hf|by eapply ftr_unlocked| |].
  - eapply layout_ftr; [exact Hf|]. by destruct Hly.
  - by rewrite (ft_size _ _ _ _ Hf).
Qed.

Lemma in_use_pos s c : layout s -> in_use s c -> 0 < c < fs_disksize s.
Proof. intros Hly [Hc _]. pose proof (data_start_pos s Hly). pose proof (ly_size s Hly). lia. Qed.

Lemma low_unused s b c : layout s -> in_use s b -> c < sb_bmapstart (fs_sb s) -> c <> b.
Proof. intros Hly [Hb _] Hc. pose proof (data_start_pos s Hly). lia. Qed.

Lemma addr_or_alloc_ok ip k s :
  fok s -> file_ok (in_use s) (view s) (fs_inode s ip) -> 0 <= k <= NDIRECT ->
  wpf file_fault (addr_or_alloc ip k)
    (fun a s' => fgrown ip s s' /\ addr_of (fs_inode s' ip) k = a /\ a <> 0 /\
       (addr_of (fs_inode s ip) k <> 0 -> fs_inode s' = fs_inode s)) s.
Proof.
  intros Hok Hfo Hk. pose proof Hok as [Htx Hun Hly Hme Hsz]. unfold addr_or_alloc. wnext.
  destruct (Z.eqb_spec (addr_of (fs_inode s ip) k) 0) as [H0|H0].
  2: { eapply wpf_done; [reflexivity|]. by auto using fgrown_refl. }
  rewrite (fo_dev _ _ _ Hfo). apply wpf_bind.
  eapply wpf_mono; [apply (balloc_h [] [] s s); try done; [by apply ftr_refl|by intros c ?%elem_of_nil]|].
  intros a s1 [[Hfr Hus Hz Hkp Hmo Hm1 Hlo Hi1] [W Hf1]]. cbv beta. wnext. eapply wpf_done; [reflexivity|]. cbv beta.
  pose proof (in_use_pos s1 a (layout_ftr _ _ _ _ Hf1 Hly) Hus) as Ha.
  pose proof (fo_len _ _ _ Hfo) as Hl. set (i' := set_addr k a (fs_inode s ip)).
  assert (fs_inode (upd_inode ip (set_addr k a) s1) ip = i') as Hi' by (cbn; rewrite fn_lookup_insert; by rewrite Hi1).
  split; [|split_and!; [rewrite Hi'; unfold i'; rewrite addr_set by (done || lia); by rewrite decide_True|lia|done]].
  destruct (fok_step ([] ++ W) s (upd_inode ip (set_addr k a) s1)) as [Hok' Hst]; [done|by apply ftr_inode|done|done|].
  assert (forall j, 0 <= j -> addr_of i' j = if decide (j = k) then a else addr_of (fs_inode s ip) j) as Hset
    by (intros; by apply addr_set).
  assert (length (i_addrs i') = 13%nat) as Hl' by (unfold i', set_addr; cbn; by rewrite length_insert).
  split; [done|done|rewrite Hi'|intros j Hj; cbn; rewrite fn_lookup_insert_ne by done; by rewrite Hi1].
  destruct (decide (k = NDIRECT)) as [->|Hkn].
  - apply (grown_indirect _ _ _ _ _ _ a); try done; [by intros; apply Hkp|unfold indirect; by rewrite Hset|].
    intros bn Hbn. by rewrite Hset, decide_False by lia.
  - assert (indirect i' = indirect (fs_inode s ip)) as Hin by (unfold indirect; by rewrite Hset, decide_False).
    apply (grown_one _ _ _ _ _ _ a) with (k := k); try done; [lia|by intros; apply Hkp|..].
    + unfold MAXFILE, NINDIRECT, BSIZE. unfold NDIRECT in *. zlia.
    + unfold faddr. by destruct (Z.ltb_spec k NDIRECT); [|lia].
    + intros bn Hbn. unfold faddr. destruct (Z.ltb_spec bn NDIRECT); [by apply Hset; lia|].
      rewrite Hin, decide_False by lia. destruct (Z.eqb_spec (indirect (fs_inode s ip)) 0); [done|].
      change (view (upd_inode _ _ s1)) with (view s1). rewrite Hkp; [done|]. by apply (fo_ind _ _ _ Hfo).
Qed.

(** A write to a data block leaves the bitmap alone. *)
Lemma in_use_write s s' b :
  layout s -> fs_sb s' = fs_sb s -> data_start (fs_sb s) <= b -> (forall c, c <> b -> view s' c = view s c) ->
  (forall c, in_use s' c <-> in_use s c) /\ (meta_used s -> meta_used s').
Proof.
  intros Hly Hsb Hb Hv.
  assert (forall c, 0 <= c < sb_size (fs_sb s) -> used s' c = used s c) as Hu.
  { intros c Hc. unfold used. rewrite Hsb, Hv; [done|]. destruct (BBLOCK_range s c Hly Hc) as (? & ? & _). lia. }
  pose proof (data_start_pos s Hly).
  split.
  - intros c. unfold in_use. rewrite Hsb. split; intros [Hc ?]; (split; [done|]); [rewrite <- Hu|rewrite Hu]; (done || lia).
  - intros Hm c Hc. rewrite Hsb in Hc. pose proof (ly_data s Hly). rewrite Hu by lia. auto.
Qed.

(** [s2] is [s1] with the block [b] written. *)
Record wrote (b : Z) (d : block) (s1 s2 : fsys) : Prop := mkWrote {
  wr_at : view s2 b = d;
  wr_ne : forall c, c <> b -> view s2 c = view s1 c;
  wr_use : forall c, in_use s2 c <-> in_use s1 c;
  wr_meta : meta_used s1 -> meta_used s2;
  wr_inode : fs_inode s2 = fs_inode s1;
}.

Lemma log_data V H s s1 i b d {A} (k : M fsys A) (F : fault -> Prop) Q :
  ftr V H s s1 -> (i, b) ∈ H -> layout s -> in_use s1 b -> Z.of_nat (length d) = BSIZE ->
  (forall f, fs_fault f -> F f) -> (forall s2, ftr (V ++ [(b, d)]) H s s2 -> wrote b d s1 s2 -> wpf F k Q s2) ->
  wpf F (set_bdata i d ;; log_write i ;; k) Q s1.
Proof.
  intros Hf Hin Hly [Hb Hu] Hl HF Hk. pose proof (ft_sb _ _ _ _ Hf) as Hsb. wnext. apply wpf_bind.
  eapply wpf_call; [apply (log_write_f _ _ _ _ i b d Hf); try done; apply data_outside; (done || (rewrite <- Hsb; lia))|done|].
  intros [] s2 [Hf2 _]. apply Hk; [done|].
  pose proof (ftr_view_more _ _ _ _ _ _ _ b Hf Hf2) as Hvb. cbn in Hvb. rewrite fn_lookup_insert in Hvb.
  assert (forall c, c <> b -> view s2 c = view s1 c) as Hv.
  { intros c Hc. rewrite (ftr_view_more _ _ _ _ _ _ _ c Hf Hf2). cbn. by rewrite fn_lookup_insert_ne. }
  destruct (in_use_write s1 s2 b) as [? ?]; [by eapply layout_ftr|by rewrite (ft_sb _ _ _ _ Hf2)|lia|done|].
  split; try done. by rewrite (ft_inode _ _ _ _ Hf2), (ft_inode _ _ _ _ Hf).
Qed.

Lemma faddr_ind v i bn : NDIRECT <= bn -> indirect i <> 0 -> faddr v i bn = get32 (v (indirect i)) (4 * (bn - NDIRECT)).
Proof. intros Hb Hi. unfold faddr. destruct (Z.ltb_spec bn NDIRECT); [lia|]. by destruct (Z.eqb_spec (indirect i) 0). Qed.

Lemma in_use_view s s' :
  fs_sb s' = fs_sb s -> (forall c, view s' c = view s c) ->
  (forall c, in_use s' c <-> in_use s c) /\ (meta_used s -> meta_used s').
Proof.
  intros Hsb Hv. split.
  - intros c. unfold in_use. by rewrite (used_view s s' c Hv Hsb), Hsb.
  - intros Hm c Hc. rewrite (used_view s s' c Hv Hsb). apply Hm. congruence.
Qed.

Lemma fgrown_blocks V ip s s' :
  fok s -> ftr V [] s s' -> meta_used s' -> low_same s s' ->
  grown (in_use s) (in_use s') (view s) (view s') (fs_inode s ip) (fs_inode s ip) -> fgrown ip s s'.
Proof.
  intros Hok Hf Hm Hlo Hg. pose proof (ft_inode _ _ _ _ Hf) as Hi.
  destruct (fok_step V s s') as [? ?]; [done|rewrite Hi; by destruct s|done|done|]. split; try done; by rewrite Hi.
Qed.

Lemma brelse_last V s s1 i b {A} (k : M fsys A) (F : fault -> Prop) Q :
  ftr V [(i, b)] s s1 -> (forall f, fs_fault f -> F f) ->
  (forall s2, ftr V [] s s2 -> (forall c, view s2 c = view s1 c) -> (forall c, in_use s2 c <-> in_use s1 c) ->
     (meta_used s1 -> meta_used s2) -> wpf F k Q s2) -> wpf F (brelse i ;; k) Q s1.
Proof.
  intros Hf HF Hk. apply wpf_bind. eapply wpf_call; [eapply brelse_f; [exact Hf|set_solver]|done|]. intros [] s2 [Hf2 Hv2].
  destruct (in_use_view s1 s2) as [Hu2 Hm2]; [by rewrite (ft_sb _ _ _ _ Hf2), (ft_sb _ _ _ _ Hf)|done|]. by apply Hk.
Qed.

(** The rest of bmap, with the indirect block allocated *)
Lemma bmap_entry_ok ip k s :
  fok s -> file_ok (in_use s) (view s) (fs_inode s ip) -> NDIRECT <= k < MAXFILE -> indirect (fs_inode s ip) <> 0 ->
  wpf file_fault
    (i <- get_inode ip ;;
     bp <- bread (i_dev i) (indirect (fs_inode s ip)) ;;
     d <- bdata bp ;;
     let addr := get32 d (4 * (k - NDIRECT)) in
     a <- (if addr =? 0 then
             a <- balloc (i_dev i) ;;
             d <- bdata bp ;;
             set_bdata bp (put32 (4 * (k - NDIRECT)) a d) ;;
             log_write bp ;;
             ret a
           else ret addr) ;;
     brelse bp ;;
     ret a)
    (fun a s' => fgrown ip s s' /\ faddr (view s') (fs_inode s' ip) k = a /\ a <> 0 /\ fs_inode s' = fs_inode s) s.
Proof.
  intros Hok Hfo Hk Hin. pose proof Hok as [Htx Hun Hly Hme Hsz]. set (ind := indirect (fs_inode s ip)) in *.
  pose proof (fo_ind _ _ _ Hfo Hin) as Hui. pose proof (in_use_pos s ind Hly Hui) as Hir.
  wnext. rewrite (fo_dev _ _ _ Hfo). apply wpf_bind.
  eapply wpf_call; [apply (bread_f [] [] s s); [by apply ftr_refl|lia|set_solver]|by left|].
  intros bp s1 (Hf1 & _ & Hv1 & _). cbv beta. wnext. rewrite (ftr_data _ _ _ _ bp ind Hf1) by set_solver.
  rewrite Hv1. unfold ind at 1. rewrite <- faddr_ind by (done || lia).
  destruct (in_use_view s s1 (ft_sb _ _ _ _ Hf1) Hv1) as [Hu1 Hm1].
  assert (0 <= k < MAXFILE) as Hk' by (unfold NDIRECT in *; lia).
  destruct (Z.eqb_spec (faddr (view s) (fs_inode s ip) k) 0) as [H0|H0]; cycle 1.
  { wnext. eapply brelse_last; [exact Hf1|by left|]. intros s2 Hf2 Hv2 Hu2 Hm2. eapply wpf_done; [reflexivity|]. cbv beta.
    assert (fgrown ip s s2) as Hg.
    { eapply fgrown_blocks; eauto; [intros c _; by rewrite Hv2, Hv1|]. apply fgrow_refl; [done|intros; by rewrite Hv2, Hv1|intros; by apply Hu2, Hu1]. }
    split_and!; [done|by apply (gr_addr _ _ _ _ _ _ (fg_grown _ _ _ Hg))|done|apply Hf2]. }
  apply wpf_bind, wpf_bind. eapply wpf_mono; [apply (balloc_h [] [(bp, ind)] s s1); auto|].
  { intros c Hc. assert (c = ind) as -> by set_solver. apply Hu1 in Hui as [[? _] ?]. done. }
  intros a s2 [[Hfr Hus Hz Hkp Hmo Hm2 Hlo Hi2] [W Hf2]]. cbv beta. wnext. rewrite (ftr_data _ _ _ _ bp ind Hf2) by set_solver.
  rewrite Hkp, Hv1 by (by apply Hu1). pose proof (view_length s ind (tx_ok s Htx) ltac:(lia)) as Hlen.
  assert (0 < a < fs_disksize s) as Ha.
  { rewrite <- (ft_size _ _ _ _ Hf2). apply in_use_pos; [by eapply layout_ftr|done]. }
  eapply (log_data _ _ _ _ bp ind); [exact Hf2|set_solver|done|by apply Hmo, Hu1|rewrite length_put32; [done|by apply entry_fits]|by left|].
  intros s3 Hf3 [Hw1 Hw2 Hw3 Hw4 Hw5]. eapply wpf_done; [reflexivity|]. cbv beta.
  eapply brelse_last; [exact Hf3|by left|]. intros s4 Hf4 Hv4 Hu4 Hm4. eapply wpf_done; [reflexivity|]. cbv beta.
  assert (fgrown ip s s4) as Hg.
  { eapply fgrown_blocks; eauto; [intros c Hc; rewrite Hv4, Hw2, Hlo, Hv1; [done|by rewrite (ft_sb _ _ _ _ Hf1)|by eapply low_unused]|].
    apply (grown_entry _ _ _ _ _ _ a) with (k := k); try done.
    - by destruct (fs_inode s ip).
    - apply Hfo.
    - by rewrite <- Hu1.
    - lia.
    - rewrite Hv4, Hw2; [done|]. intros ->. by apply Hfr, Hu1.
    - by apply Hu4, Hw3.
    - intros c Hc. by apply Hu4, Hw3, Hmo, Hu1.
    - intros c Hc Hci. rewrite Hv4, Hw2, Hkp, Hv1; [done|by apply Hu1|done].
    - unfold is_u32. lia.
    - by rewrite Hv4. }
  split; [done|]. rewrite (ft_inode _ _ _ _ Hf4). split_and!; [|lia|done].
  rewrite faddr_ind by (done || lia). fold ind. rewrite Hv4, Hw1. apply get32_put32; [by apply entry_fits|unfold is_u32; lia].
Qed.

(** bmap: the block of index [bn], allocated if there was none. *)
Lemma bmap_ok ip bn s :
  fok s -> file_ok (in_use s) (view s) (fs_inode s ip) -> 0 <= bn < MAXFILE ->
  wpf file_fault (bmap ip bn) (fun a s' => fgrown ip s s' /\ faddr (view s') (fs_inode s' ip) bn = a /\ a <> 0 /\
    (faddr (view s) (fs_inode s ip) bn <> 0 -> fs_inode s' = fs_inode s)) s.
Proof.
  intros Hok Hfo Hbn. unfold bmap. destruct (Z.ltb_spec bn NDIRECT) as [Hd|Hd].
  - eapply wpf_mono; [apply addr_or_alloc_ok; (done || lia)|]. intros a s' (Hg & Ha & Hn & Hs). unfold faddr.
    by destruct (Z.ltb_spec bn NDIRECT); [|lia].
  - destruct (Z.ltb_spec (bn - NDIRECT) NINDIRECT); [|unfold MAXFILE in *; lia].
    apply wpf_bind. eapply wpf_mono; [apply addr_or_alloc_ok; (done || lia)|]. intros ind s1 (Hg & Ha & Hn & Hs). cbv beta.
    change (addr_of (fs_inode s1 ip) NDIRECT) with (indirect (fs_inode s1 ip)) in Ha. subst ind.
    eapply wpf_mono; [apply (bmap_entry_ok ip bn s1); [apply Hg|apply Hg|lia|done]|]. intros a s2 (Hg2 & Ha2 & Hn2 & Hs2).
    split_and!; [by eapply fgrown_trans|done|done|]. rewrite Hs2. intros H0. apply Hs. intros Hz. apply H0.
    unfold faddr, indirect. rewrite Hz. by destruct (Z.ltb_spec bn NDIRECT); [lia|].
Qed.
