(* ===== verification/FsWrite.v ===== *)
(** * Reading and writing files

    writei changes the content of a file at the offsets written and nowhere
    else ([overlay]), keeps the blocks of other files, and leaves the inode on
    its block as it is in memory; readi returns the content. *)

From S2P Require Import Prelude FsState Bio BioInv Log LogInv LogCommit LogCrash Fs FsTxn FsAlloc FsContent.

Local Open Scope c_scope.
Local Open Scope Z_scope.

(** [g] with the bytes [src] from [off] on *)
Definition overlay (off : Z) (src : list Z) (g : Z -> Z) (o : Z) : Z :=
  if decide (off <= o < off + Z.of_nat (length src)) then get8 src (o - off) else g o.

Definition file_block (v : Z -> block) (i : inode) (c : Z) : Prop :=
  c = indirect i \/ exists bn, 0 <= bn < MAXFILE /\ faddr v i bn = c.

(** From (v, i) to (v', i'): the content is [g], the blocks of other files as
    they were. *)
Record written (U U' : Z -> Prop) (v v' : Z -> block) (i i' : inode) (g : Z -> Z) : Prop := mkWritten {
  wn_ok : file_ok U' v' i';
  wn_content : forall o, 0 <= o < MAXFILE * BSIZE -> content v' i' o = g o;
  wn_addr : forall bn, 0 <= bn < MAXFILE -> faddr v i bn <> 0 -> faddr v' i' bn = faddr v i bn;
  wn_ind : indirect i <> 0 -> indirect i' = indirect i;
  wn_keep : forall c, U c -> c <> 0 -> ~ file_block v i c -> v' c = v c;
  wn_used : forall c, U c -> U' c;
  wn_new : forall c, file_block v' i' c -> c <> 0 -> ~ file_block v i c -> ~ U c;
  wn_rest : i' = set_i_addrs (i_addrs i') i;
}.

Lemma grown_written U U' v v' i i' : grown U U' v v' i i' -> written U U' v v' i i' (content v i).
Proof.
  intros [Ho Hc Ha Hi Hk Hu Hn Hni Hr]. split; try done.
  - intros c HU _ Hf. apply Hk; [done|]. intros ->. apply Hf. by left.
  - intros c [->|(bn & Hbn & <-)] H0 Hf.
    + apply Hni; [|done]. destruct (decide (indirect i = 0)) as [|Hn0]; [done|]. destruct Hf. left. auto.
    + apply Hn; [done| |done]. destruct (decide (faddr v i bn = 0)) as [|Hn0]; [done|]. destruct Hf. right. exists bn. split; [done|].
      symmetry. auto.
Qed.

Lemma written_trans U U1 U2 v v1 v2 i i1 i2 g h :
  written U U1 v v1 i i1 g -> written U1 U2 v1 v2 i1 i2 h -> written U U2 v v2 i i2 h.
Proof.
  intros [? Hc1 Ha1 Hi1 Hk1 Hu1 Hn1 Hr1] [? Hc2 Ha2 Hi2 Hk2 Hu2 Hn2 Hr2].
  split; try done; auto.
  - intros bn Hbn Hn. rewrite Ha2; [by apply Ha1|done|by rewrite Ha1].
  - intros Hn. rewrite Hi2; [by apply Hi1|by rewrite Hi1].
  - intros c HU H0 Hc. rewrite Hk2; [by apply Hk1|by apply Hu1|done|]. intros Hf. by apply (Hn1 c Hf).
  - intros c Hf H0 Hc HU. assert (~ file_block v1 i1 c) as Hc' by (intros Hf1; by apply (Hn1 c Hf1)).
    apply (Hn2 c Hf H0 Hc'). auto.
  - rewrite Hr2, Hr1. done.
Qed.

(** The block of index [k] gets the data [d]. *)
Lemma written_block U U' v v' i k d :
  file_ok U v i -> 0 <= k < MAXFILE -> faddr v i k <> 0 -> v' (faddr v i k) = d ->
  (forall c, c <> faddr v i k -> v' c = v c) -> (forall c, U c -> U' c) ->
  written U U' v v' i i (fun o => if decide (o / BSIZE = k) then get8 d (o `mod` BSIZE) else content v i o).
Proof.
  intros [H1 H2 H3 H4 H5 H6] Hk Hn Hd Hv HU.
  assert (forall bn, 0 <= bn < MAXFILE -> faddr v' i bn = faddr v i bn) as Ha.
  { intros bn Hbn. unfold faddr at 1 2. case_match; [done|]. destruct (Z.eqb_spec (indirect i) 0); [done|].
    rewrite Hv; [done|]. apply not_eq_sym. auto. }
  split; try done; auto.
  - split; try done; intros; rewrite ?Ha in * by done; eauto.
  - intros o Ho. pose proof (off_range o Ho) as Hr. unfold content. rewrite Ha by done. case_decide as He.
    + rewrite He, Hd. by destruct (Z.eqb_spec (faddr v i k) 0).
    + destruct (Z.eqb_spec (faddr v i (o / BSIZE)) 0); [done|]. rewrite Hv; [done|]. intros Heq. apply He. by apply H5.
  - intros c HU' _ Hf. apply Hv. intros ->. apply Hf. right. by exists k.
  - intros c [->|(bn & Hbn & <-)] _ Hf; destruct Hf; [by left|]. right. exists bn. by rewrite Ha.
  - by destruct i.
Qed.

Lemma overlay_at off src g h o : g o = h o -> overlay off src g o = overlay off src h o.
Proof. unfold overlay. by intros ->. Qed.

Lemma overlay_nil off g o : overlay off [] g o = g o.
Proof. unfold overlay. by rewrite decide_False by (simpl; lia). Qed.

Lemma overlay_split off src m g o :
  0 <= m <= Z.of_nat (length src) ->
  overlay (off + m) (drop (Z.to_nat m) src) (overlay off (take (Z.to_nat m) src) g) o = overlay off src g o.
Proof.
  intros Hm. unfold overlay. rewrite length_drop, length_take. repeat case_decide; try lia; try done.
  - rewrite !get8_lookup, lookup_drop. do 2 f_equal. lia.
  - rewrite !get8_lookup. by rewrite lookup_take_lt by lia.
Qed.

(** Bytes inside the block of [off] *)
Lemma overlay_block off src g o (d : block) :
  0 <= off -> 0 <= o -> off `mod` BSIZE + Z.of_nat (length src) <= BSIZE -> Z.of_nat (length d) = BSIZE ->
  (o / BSIZE = off / BSIZE -> get8 d (o `mod` BSIZE) = g o) ->
  (if decide (o / BSIZE = off / BSIZE) then get8 (put (off `mod` BSIZE) src d) (o `mod` BSIZE) else g o) = overlay off src g o.
Proof.
  intros Hoff Ho Hfit Hl Hd. unfold overlay.
  assert (0 <= off `mod` BSIZE < BSIZE) by (unfold BSIZE; zlia). assert (0 <= o `mod` BSIZE < BSIZE) by (unfold BSIZE; zlia).
  case_decide as H2.
  - rewrite get8_put; [|unfold fits; lia|lia]. unfold BSIZE in *. case_decide as H3.
    + rewrite decide_True by zlia. f_equal. zlia.
    + rewrite Hd by done. by rewrite decide_False by zlia.
  - rewrite decide_False; [done|]. unfold BSIZE in *. intros H3. apply H2. zlia.
Qed.

Lemma written_ext U U' v v' i i' g h :
  (forall o, 0 <= o < MAXFILE * BSIZE -> g o = h o) -> written U U' v v' i i' g -> written U U' v v' i i' h.
Proof. intros He [? Hc]. split; try done. intros o Ho. by rewrite Hc, He. Qed.

(** [s'] comes from [s] by an operation on the inode [ip] that leaves the
    content [g]. *)
Record fwritten (ip : nat) (g : Z -> Z) (s s' : fsys) : Prop := mkFwritten {
  fw_ok : fok s';
  fw_step : fstep s s';
  fw_written : written (in_use s) (in_use s') (view s) (view s') (fs_inode s ip) (fs_inode s' ip) g;
  fw_other : forall j, j <> ip -> fs_inode s' j = fs_inode s j;
}.

Lemma fwritten_trans ip g h s s1 s2 : fwritten ip g s s1 -> fwritten ip h s1 s2 -> fwritten ip h s s2.
Proof.
  intros [? ? ? Ho1] [? ? ? Ho2]. split; [done|by eapply fstep_trans|by eapply written_trans|].
  intros j Hj. by rewrite Ho2, Ho1.
Qed.

(** The block indices of the [n] bytes from [off] on *)
Definition touched (off n bn : Z) : Prop := 0 < n /\ off / BSIZE <= bn /\ bn * BSIZE < off + n.

(** One turn of the loop of writei, after bmap *)
Lemma write_block_ok {A} ip k d (f : block -> block) s (m : M fsys A) Q :
  fok s -> file_ok (in_use s) (view s) (fs_inode s ip) -> 0 <= k < MAXFILE -> faddr (view s) (fs_inode s ip) k <> 0 ->
  d = f (view s (faddr (view s) (fs_inode s ip) k)) -> Z.of_nat (length d) = BSIZE ->
  (forall s', fwritten ip (fun o => if decide (o / BSIZE = k) then get8 d (o `mod` BSIZE) else content (view s) (fs_inode s ip) o) s s' ->
     fs_inode s' = fs_inode s -> wpf file_fault m Q s') ->
  wpf file_fault
    (i <- get_inode ip ;; bp <- bread (i_dev i) (faddr (view s) (fs_inode s ip) k) ;;
     d <- bdata bp ;; set_bdata bp (f d) ;; log_write bp ;; brelse bp ;; m) Q s.
Proof.
  intros Hok Hfo Hk Hn Hd Hl Hm. pose proof Hok as [Htx Hun Hly Hme Hsz]. set (a := faddr (view s) (fs_inode s ip) k) in *.
  pose proof (fo_addr _ _ _ Hfo k Hk Hn) as Hua. pose proof (in_use_pos s a Hly Hua) as Har.
  wnext. rewrite (fo_dev _ _ _ Hfo). apply wpf_bind.
  eapply wpf_call; [apply (bread_f [] [] s s); [by apply ftr_refl|lia|set_solver]|by left|].
  intros bp s1 (Hf1 & _ & Hv1 & _). cbv beta. wnext. rewrite (ftr_data _ _ _ _ bp a Hf1) by set_solver. rewrite Hv1, <- Hd.
  destruct (in_use_view s s1 (ft_sb _ _ _ _ Hf1) Hv1) as [Hu1 Hm1].
  eapply (log_data _ _ _ _ bp a); [exact Hf1|set_solver|done|by apply Hu1|done|by left|].
  intros s2 Hf2 [Hw1 Hw2 Hw3 Hw4 Hw5]. eapply brelse_last; [exact Hf2|by left|]. intros s3 Hf3 Hv3 Hu3 Hm3.
  pose proof (ft_inode _ _ _ _ Hf3) as Hi3. apply Hm; [|done].
  destruct (fok_step ([] ++ [(a, d)]) s s3) as [? ?]; [done|rewrite Hi3; by destruct s|auto| |].
  { intros c Hc. rewrite Hv3, Hw2, Hv1; [done|]. by eapply low_unused. }
  split; try done; rewrite Hi3; [|done].
  apply written_block; try done; fold a; [by rewrite Hv3|intros c Hc; by rewrite Hv3, Hw2, Hv1|].
  intros c Hc. by apply Hu3, Hw3, Hu1.
Qed.

Lemma chunk_range n off : 0 < n -> 0 <= off -> 0 < chunk n off <= n /\ off `mod` BSIZE + chunk n off <= BSIZE.
Proof. intros. unfold chunk, BSIZE. zlia. Qed.

Lemma touched_chunk n off bn :
  0 < n -> 0 <= off -> touched off n bn <-> bn = off / BSIZE \/ touched (off + chunk n off) (n - chunk n off) bn.
Proof. intros Hn Ho. unfold touched, chunk, BSIZE. split; [intros (? & ? & ?)|intros [->|(? & ? & ?)]]; zlia. Qed.

(** One turn of the loop of writei *)
Lemma write_turn {A} ip src off s (m : M fsys A) Q :
  fok s -> file_ok (in_use s) (view s) (fs_inode s ip) -> 0 <= off < MAXFILE * BSIZE ->
  off `mod` BSIZE + Z.of_nat (length src) <= BSIZE ->
  (forall s', fwritten ip (overlay off src (content (view s) (fs_inode s ip))) s s' ->
     faddr (view s') (fs_inode s' ip) (off / BSIZE) <> 0 ->
     (faddr (view s) (fs_inode s ip) (off / BSIZE) <> 0 -> fs_inode s' = fs_inode s) -> wpf file_fault m Q s') ->
  wpf file_fault
    (b <- bmap ip (off / BSIZE) ;; i <- get_inode ip ;; bp <- bread (i_dev i) b ;; d <- bdata bp ;;
     set_bdata bp (put (off `mod` BSIZE) src d) ;; log_write bp ;; brelse bp ;; m) Q s.
Proof.
  intros Hok Hfo Hoff Hfit Hm. pose proof (off_range _ Hoff) as Hk. set (k := off / BSIZE) in *.
  apply wpf_bind. eapply wpf_mono; [by apply bmap_ok|]. intros b s1 (Hg & Hb & Hn & Hs1). cbv beta. subst b.
  pose proof (fg_ok _ _ _ Hg) as Hok1. pose proof (gr_ok _ _ _ _ _ _ (fg_grown _ _ _ Hg)) as Hfo1.
  set (d1 := view s1 (faddr (view s1) (fs_inode s1 ip) k)).
  assert (Z.of_nat (length d1) = BSIZE) as Hl1.
  { apply view_length; [apply Hok1|]. pose proof (in_use_pos s1 _ (fk_layout _ Hok1) (fo_addr _ _ _ Hfo1 k Hk Hn)). lia. }
  eapply (write_block_ok ip k (put (off `mod` BSIZE) src d1) (fun d => put (off `mod` BSIZE) src d) s1); try done.
  { rewrite length_put; [done|]. unfold fits. unfold BSIZE in *. zlia. }
  intros s2 Hw2 Hi2. apply Hm.
  - assert (fwritten ip (content (view s) (fs_inode s ip)) s s1) as Hw1.
    { destruct Hg. split; try done. by apply grown_written. }
    eapply fwritten_trans; [exact Hw1|]. destruct Hw2 as [? ? Hw2 ?]. split; try done. eapply written_ext; [|exact Hw2].
    intros o Ho. rewrite <- (overlay_at off src _ _ o (gr_content _ _ _ _ _ _ (fg_grown _ _ _ Hg) o Ho)).
    apply overlay_block; try done; try lia.
    intros He. unfold content. rewrite He. fold k. by destruct (Z.eqb_spec (faddr (view s1) (fs_inode s1 ip) k) 0).
  - by rewrite (wn_addr _ _ _ _ _ _ _ (fw_written _ _ _ _ Hw2)).
  - intros Hp. rewrite Hi2. auto.
Qed.

Lemma writei_loop_ok fuel ip src off s :
  fok s -> file_ok (in_use s) (view s) (fs_inode s ip) -> 0 <= off -> off + Z.of_nat (length src) <= MAXFILE * BSIZE ->
  (length src < fuel)%nat ->
  wpf file_fault (writei_loop fuel ip src off) (fun r s' => r = off + Z.of_nat (length src) /\
    fwritten ip (overlay off src (content (view s) (fs_inode s ip))) s s' /\
    (forall bn, touched off (Z.of_nat (length src)) bn -> faddr (view s') (fs_inode s' ip) bn <> 0) /\
    ((forall bn, touched off (Z.of_nat (length src)) bn -> faddr (view s) (fs_inode s ip) bn <> 0) ->
       fs_inode s' = fs_inode s)) s.
Proof.
  revert src off s. induction fuel as [|fuel IH]; intros src off s Hok Hfo Hoff Hend Hfuel; [lia|]. cbn [writei_loop].
  destruct (Z.ltb_spec 0 (Z.of_nat (length src))) as [Hpos|Hpos]; cycle 1.
  { destruct src; [|simpl in Hpos; lia]. eapply wpf_done; [reflexivity|]. cbn [length]. split_and!; [lia| |by intros bn [? _]|done].
    split; try done; [by apply fstep_refl|]. eapply written_ext; [|by apply grown_written, fgrow_refl].
    intros o _. symmetry. apply overlay_nil. }
  pose proof (chunk_range _ off Hpos Hoff) as [Hm1 Hm2]. set (m := chunk (Z.of_nat (length src)) off) in *.
  assert (length (take (Z.to_nat m) src) = Z.to_nat m) as Ht by (rewrite length_take; lia).
  apply write_turn; [done..|lia|rewrite Ht; lia|]. intros s1 Hw1 Hk1 Hs1. set (k := off / BSIZE) in *.
  eapply wpf_mono; [apply IH; [apply Hw1|by eapply wn_ok, fw_written|lia|rewrite length_drop; lia|rewrite length_drop; lia]|].
  intros r s2 (Hr & Hw2 & Hall & Hsame). rewrite length_drop in *.
  replace (Z.of_nat (length src - Z.to_nat m)) with (Z.of_nat (length src) - m) in * by lia.
  pose proof (fw_written _ _ _ _ Hw1) as Hn1. pose proof (fw_written _ _ _ _ Hw2) as Hn2.
  assert (0 <= k < MAXFILE) as Hk by (apply off_range; lia). split_and!; [lia|..].
  - eapply fwritten_trans; [exact Hw1|]. destruct Hw2 as [? ? Hw2 ?]. split; try done. eapply written_ext; [|exact Hw2].
    intros o Ho. rewrite (overlay_at _ _ _ _ o (wn_content _ _ _ _ _ _ _ Hn1 o Ho)). apply overlay_split. lia.
  - intros bn [->|Hbn]%touched_chunk; [|auto|done..]. by rewrite (wn_addr _ _ _ _ _ _ _ Hn2).
  - intros Hpre. rewrite Hsame; [apply Hs1, Hpre; by apply touched_chunk; [..|left]|].
    intros bn Hbn. assert (touched off (Z.of_nat (length src)) bn) as Htc by (apply touched_chunk; [done..|by right]).
    rewrite (wn_addr _ _ _ _ _ _ _ Hn1); auto.
    destruct Htc as (? & ? & ?); unfold MAXFILE, NDIRECT, NINDIRECT, BSIZE in *; zlia.
Qed.

(** ** The inode on its block *)

Lemma slice_lookup off n (b : list Z) k :
  0 <= off -> slice off n b !! k = if decide (Z.of_nat k < n) then b !! (Z.to_nat off + k)%nat else None.
Proof.
  intros Ho. unfold slice. case_decide; [by rewrite lookup_take_lt, lookup_drop by lia|]. by rewrite lookup_take_ge by lia.
Qed.

Lemma slice_put off src (b : list Z) : fits off src b -> slice off (Z.of_nat (length src)) (put off src b) = src.
Proof.
  intros Hf. pose proof Hf as [Ho _]. apply list_eq. intros k. rewrite slice_lookup, put_lookup by done. case_decide.
  - rewrite decide_True by lia. f_equal. lia.
  - symmetry. apply lookup_ge_None. lia.
Qed.

Lemma slice_put_ne off src (b : list Z) o n :
  fits off src b -> 0 <= o -> o + n <= off \/ off + Z.of_nat (length src) <= o -> slice o n (put off src b) = slice o n b.
Proof.
  intros Hf Ho Hd. pose proof Hf as [Ho' _]. apply list_eq. intros k. rewrite !slice_lookup, put_lookup by done.
  repeat case_decide; try done; lia.
Qed.

Lemma length_dinode i : length (i_addrs i) = 13%nat -> length (dinode_bytes i) = 64%nat.
Proof.
  intros Hl. unfold dinode_bytes. destruct i as [? ? ? ? ? ? ? ? ? ? addrs]. cbn in *.
  do 13 (destruct addrs as [|? addrs]; [discriminate|]). by destruct addrs.
Qed.

(** The 64 bytes of inode [n] *)
Definition on_disk (s : fsys) (n : Z) : list Z := slice (dinode_off n) 64 (view s (IBLOCK n (fs_sb s))).

Lemma IBLOCK_range s n :
  layout s -> 0 <= n < sb_ninodes (fs_sb s) ->
  sb_inodestart (fs_sb s) <= IBLOCK n (fs_sb s) < sb_bmapstart (fs_sb s) /\ 0 <= IBLOCK n (fs_sb s) < fs_disksize s /\
  outside (lg_start (fs_log s)) (lg_size (fs_log s)) (IBLOCK n (fs_sb s)).
Proof.
  intros [Hsz [Hl1 Hl2] Hle (Hi0 & Hn0 & Hi) Hd] Hn. unfold IBLOCK, data_start, outside in *. rewrite Hl1, Hl2.
  assert (0 <= n / IPB <= sb_ninodes (fs_sb s) / IPB) by (change IPB with 8; split; zlia).
  assert (0 <= sb_size (fs_sb s) / BPB) by (unfold BPB, BSIZE; zlia). lia.
Qed.

Lemma dinode_fits n i (d : block) :
  length (i_addrs i) = 13%nat -> Z.of_nat (length d) = BSIZE -> fits (dinode_off n) (dinode_bytes i) d.
Proof. intros Hl Hd. unfold fits, dinode_off. rewrite length_dinode, Hd by done. change IPB with 8. unfold BSIZE. zlia. Qed.

Lemma dinode_apart j n : 0 <= j -> 0 <= n -> j <> n -> j / IPB = n / IPB -> dinode_off j + 64 <= dinode_off n \/ dinode_off n + 64 <= dinode_off j.
Proof. intros. unfold dinode_off. change IPB with 8 in *. zlia. Qed.

Lemma iupdate_ok ip s :
  fok s -> i_dev (fs_inode s ip) = 1 -> length (i_addrs (fs_inode s ip)) = 13%nat ->
  0 <= i_inum (fs_inode s ip) < sb_ninodes (fs_sb s) ->
  wpf fs_fault (iupdate ip) (fun _ s' => fok s' /\ (exists V, ftr V [] s s') /\
    on_disk s' (i_inum (fs_inode s ip)) = dinode_bytes (fs_inode s ip) /\
    (forall j, 0 <= j < sb_ninodes (fs_sb s) -> j <> i_inum (fs_inode s ip) -> on_disk s' j = on_disk s j) /\
    (forall c, sb_bmapstart (fs_sb s) <= c -> view s' c = view s c) /\ (forall c, in_use s' c <-> in_use s c)) s.
Proof.
  intros Hok Hdev Hlen Hin. pose proof Hok as [Htx Hun Hly Hme Hsz]. set (i := fs_inode s ip) in *.
  destruct (IBLOCK_range s (i_inum i) Hly Hin) as (Hlo & Hr & Ho). set (ib := IBLOCK (i_inum i) (fs_sb s)) in *.
  unfold iupdate. wnext. wnext. fold i. rewrite Hdev. fold ib. apply wpf_bind.
  eapply wpf_mono; [apply (bread_f [] [] s s); [by apply ftr_refl|lia|set_solver]|].
  intros bp s1 (Hf1 & Hi & Hv1 & _). cbv beta. wnext. rewrite (ftr_data _ _ _ _ bp ib Hf1), Hv1 by set_solver.
  pose proof (view_length s ib (tx_ok s Htx) Hr) as Hl. pose proof (dinode_fits (i_inum i) i _ Hlen Hl) as Hfit.
  eapply wpf_mono; [eapply update_f_end; [exact Hf1|done|by rewrite length_put|done]|].
  intros [] s2 Hf2. cbv beta. rewrite app_nil_l in Hf2. pose proof (ft_view _ _ _ _ Hf2) as Hv. pose proof (ft_sb _ _ _ _ Hf2) as Hsb.
  assert (forall c, c <> ib -> view s2 c = view s c) as Hne.
  { intros c Hc. rewrite Hv. cbn. by rewrite fn_lookup_insert_ne. }
  assert (view s2 ib = put (dinode_off (i_inum i)) (dinode_bytes i) (view s ib)) as Hat.
  { rewrite Hv. cbn. by rewrite fn_lookup_insert. }
  assert (forall c, 0 <= c -> used s2 c = used s c) as Hus.
  { intros c Hc. unfold used. rewrite Hsb, Hne; [done|]. assert (0 <= c / BPB) by (unfold BPB, BSIZE; zlia). unfold BBLOCK. lia. }
  pose proof (data_start_pos s Hly) as Hds. split_and!.
  - split; [apply Hf2|by eapply ftr_unlocked|by eapply layout_ftr|intros c Hc; rewrite Hsb in Hc; rewrite Hus by lia; auto|].
    by rewrite (ft_size _ _ _ _ Hf2).
  - by eexists.
  - unfold on_disk. rewrite Hsb. fold ib. rewrite Hat. rewrite <- (slice_put _ _ _ Hfit) at 2. by rewrite length_dinode.
  - intros j Hj Hne'. unfold on_disk. rewrite Hsb. destruct (decide (IBLOCK j (fs_sb s) = ib)) as [He|]; [|by rewrite Hne].
    rewrite He, Hat. apply slice_put_ne; [done|unfold dinode_off; change IPB with 8; zlia|]. rewrite length_dinode by done.
    apply dinode_apart; try lia. unfold ib, IBLOCK in He. lia.
  - intros c Hc. apply Hne. lia.
  - intros c. unfold in_use. rewrite Hsb. split; intros [? ?]; (split; [done|]); [rewrite <- Hus by lia|rewrite Hus by lia]; done.
Qed.

(** ** writei *)

(** A file in order: its blocks in use, none missing below the size, and the
    inode on its block as in memory. *)
Record file_inv (ip : nat) (s : fsys) : Prop := mkFileInv {
  fi_ok : fok s;
  fi_file : file_ok (in_use s) (view s) (fs_inode s ip);
  fi_inum : 0 <= i_inum (fs_inode s ip) < sb_ninodes (fs_sb s);
  fi_size : 0 <= i_size (fs_inode s ip) <= MAXFILE * BSIZE;
  fi_filled : forall bn, 0 <= bn -> bn * BSIZE < i_size (fs_inode s ip) -> faddr (view s) (fs_inode s ip) bn <> 0;
  fi_disk : on_disk s (i_inum (fs_inode s ip)) = dinode_bytes (fs_inode s ip);
}.

Record wrote_file (ip : nat) (off : Z) (src : list Z) (s s' : fsys) : Prop := mkWroteFile {
  wf_inv : file_inv ip s';
  wf_content : forall o, 0 <= o < MAXFILE * BSIZE ->
    content (view s') (fs_inode s' ip) o = overlay off src (content (view s) (fs_inode s ip)) o;
  wf_size : i_size (fs_inode s' ip) = Z.max (i_size (fs_inode s ip)) (off + Z.of_nat (length src));
  wf_rest : fs_inode s' ip = set_i_addrs (i_addrs (fs_inode s' ip)) (set_i_size (i_size (fs_inode s' ip)) (fs_inode s ip));
  wf_other : forall j, j <> ip -> fs_inode s' j = fs_inode s j;
  wf_disk : forall j, 0 <= j < sb_ninodes (fs_sb s) -> j <> i_inum (fs_inode s ip) -> on_disk s' j = on_disk s j;
  wf_blocks : forall c, in_use s c -> ~ file_block (view s) (fs_inode s ip) c -> view s' c = view s c;
  wf_used : forall c, in_use s c -> in_use s' c;
}.

Lemma fok_inode I s : fok s -> fok (set_fs_inode I s).
Proof. intros [? ? [] ? ?]. split; try done. by apply txn_ok_inode. Qed.

Lemma fstep_same s s' : fstep s s' ->
  fs_sb s' = fs_sb s /\ fs_disksize s' = fs_disksize s /\
  (layout s -> forall j, 0 <= j < sb_ninodes (fs_sb s) -> on_disk s' j = on_disk s j).
Proof.
  intros [[V Hf] Hlo]. pose proof (ft_sb _ _ _ _ Hf) as Hsb. split_and!; [done|apply Hf|]. intros Hly j Hj.
  unfold on_disk. rewrite Hsb. cbn [fs_sb set_fs_inode]. rewrite Hlo; [done|]. by apply IBLOCK_range.
Qed.

Lemma file_ok_size U v i z : file_ok U v i -> file_ok U v (set_i_size z i).
Proof. intros []. by split. Qed.

(** The loop has written past the end of the file: the new size goes to disk. *)
Lemma writei_grow ip off src s s1 :
  file_inv ip s -> 0 <= off <= i_size (fs_inode s ip) -> i_size (fs_inode s ip) < off + Z.of_nat (length src) <= MAXFILE * BSIZE ->
  fwritten ip (overlay off src (content (view s) (fs_inode s ip))) s s1 ->
  (forall bn, touched off (Z.of_nat (length src)) bn -> faddr (view s1) (fs_inode s1 ip) bn <> 0) ->
  wpf file_fault (mod_inode ip (set_i_size (off + Z.of_nat (length src))) ;; iupdate ip)
    (fun _ s' => wrote_file ip off src s s') s1.
Proof.
  intros [Hok Hfo Hin Hsz Hfill Hdk] Hoff Hend Hw Hall. pose proof Hw as [Hok1 Hst1 Hwn1 Hot1].
  destruct (fstep_same _ _ Hst1) as (Hsb & _ & Hod). pose proof (wn_rest _ _ _ _ _ _ _ Hwn1) as Hrest.
  assert (i_inum (fs_inode s1 ip) = i_inum (fs_inode s ip)) as Hinum by (by rewrite Hrest).
  wnext. set (s2 := upd_inode ip _ s1).
  assert (fs_inode s2 ip = set_i_size (off + Z.of_nat (length src)) (fs_inode s1 ip)) as Hi2 by (cbn; by rewrite fn_lookup_insert).
  pose proof (wn_ok _ _ _ _ _ _ _ Hwn1) as Hfo1.
  eapply wpf_call; [apply (iupdate_ok ip s2); rewrite ?Hi2; cbn|by left|].
  { by apply fok_inode. }
  { apply Hfo1. } { apply Hfo1. } { by rewrite Hinum, Hsb. }
  intros [] s3 (Hok3 & [V Hf3] & Hd3 & Hdo3 & Hv3 & Hu3). pose proof (ft_inode _ _ _ _ Hf3) as Hi3. cbv beta.
  set (i2 := set_i_size (off + Z.of_nat (length src)) (fs_inode s1 ip)) in *.
  assert (forall c, in_use s1 c -> view s3 c = view s1 c) as Hkeep.
  { intros c Hc. apply Hv3. destruct (data_start_pos s1 (fk_layout _ Hok1)). destruct Hc as [[? _] _]. cbn. lia. }
  pose proof (fgrow_refl _ (in_use s3) _ (view s3) i2 (file_ok_size _ _ _ _ Hfo1) Hkeep (fun c Hc => proj2 (Hu3 c) Hc)) as Hg.
  assert (forall bn, 0 <= bn -> bn * BSIZE < off + Z.of_nat (length src) -> faddr (view s1) (fs_inode s1 ip) bn <> 0) as Hfill1.
  { intros bn Hb Hbn. assert (0 <= bn < MAXFILE) by (unfold MAXFILE, NDIRECT, NINDIRECT, BSIZE in *; zlia).
    destruct (Z.lt_ge_cases (bn * BSIZE) (i_size (fs_inode s ip))); [rewrite (wn_addr _ _ _ _ _ _ _ Hwn1); auto|].
    apply Hall. unfold touched, BSIZE in *. zlia. }
  split; rewrite ?Hi3, ?Hi2.
  - split; rewrite ?Hi3, ?Hi2; [done|apply Hg|cbn; by rewrite Hinum, (ft_sb _ _ _ _ Hf3), <- Hsb in *|cbn; lia| |by rewrite Hi2 in Hd3].
    cbn [i_size set_i_size i2]. intros bn Hb Hbn. pose proof (Hfill1 bn Hb Hbn).
    rewrite (gr_addr _ _ _ _ _ _ Hg); [done| |done]. unfold MAXFILE, NDIRECT, NINDIRECT, BSIZE in *; zlia.
  - intros o Ho. rewrite (gr_content _ _ _ _ _ _ Hg) by done. by apply (wn_content _ _ _ _ _ _ _ Hwn1).
  - cbn. lia.
  - unfold i2. by rewrite Hrest.
  - intros j Hj. cbn. rewrite fn_lookup_insert_ne by done. auto.
  - intros j Hj Hne. rewrite <- Hod; [|apply Hok|done]. apply Hdo3; rewrite ?Hi2; cbn; congruence.
  - intros c Hc Hfb. pose proof (in_use_pos s c (fk_layout _ Hok) Hc).
    rewrite Hkeep by (by apply (wn_used _ _ _ _ _ _ _ Hwn1)). apply (wn_keep _ _ _ _ _ _ _ Hwn1); (done || lia).
  - intros c Hc. apply Hu3. by apply (wn_used _ _ _ _ _ _ _ Hwn1).
Qed.

(** The loop has written inside the file: the inode is as it was. *)
Lemma writei_inside ip off src s s1 :
  file_inv ip s -> 0 <= off <= i_size (fs_inode s ip) -> off + Z.of_nat (length src) <= i_size (fs_inode s ip) ->
  fwritten ip (overlay off src (content (view s) (fs_inode s ip))) s s1 -> fs_inode s1 = fs_inode s -> wrote_file ip off src s s1.
Proof.
  intros [Hok Hfo Hin Hsz Hfill Hdk] Hoff Hend [Hok1 Hst1 Hwn1 Hot1] Hi.
  destruct (fstep_same _ _ Hst1) as (Hsb & _ & Hod). rewrite Hi in Hwn1.
  split; rewrite ?Hi.
  - split; rewrite ?Hi; try done; [apply Hwn1|by rewrite Hsb| |by rewrite Hod; [|apply Hok|]].
    intros bn Hb Hbn. rewrite (wn_addr _ _ _ _ _ _ _ Hwn1); auto. unfold MAXFILE, NDIRECT, NINDIRECT, BSIZE in *; zlia.
  - apply Hwn1.
  - lia.
  - by destruct (fs_inode s ip).
  - done.
  - intros j Hj _. apply Hod; [apply Hok|done].
  - intros c Hc Hfb. pose proof (in_use_pos s c (fk_layout _ Hok) Hc). apply (wn_keep _ _ _ _ _ _ _ Hwn1); (done || lia).
  - apply Hwn1.
Qed.

Section Writei.
Context (devwrite : Z -> option (nat -> list Z -> M fsys Z)).

Lemma writei_ok ip src off s :
  file_inv ip s -> i_type (fs_inode s ip) <> T_DEV -> is_u32 off -> Z.of_nat (length src) < u32_mod ->
  wpf file_fault (writei devwrite ip src off) (fun r s' =>
    if decide (off <= i_size (fs_inode s ip) /\ off + Z.of_nat (length src) <= MAXFILE * BSIZE)
    then r = Z.of_nat (length src) /\ wrote_file ip off src s s'
    else r = -1 /\ s' = s) s.
Proof.
  intros Hinv Hty Hoff Hn. unfold is_u32 in Hoff. unfold writei. wnext. destruct (Z.eqb_spec (i_type (fs_inode s ip)) T_DEV); [done|].
  assert (MAXFILE * BSIZE < u32_mod) by done. pose proof (fi_size _ _ Hinv) as Hsz.
  destruct (Z.ltb_spec (i_size (fs_inode s ip)) off) as [Hbig|Hle]; [cbn [orb]; eapply wpf_done; [reflexivity|]; by rewrite decide_False by lia|].
  destruct (Z.ltb_spec (u32 (off + Z.of_nat (length src))) off) as [Hwrap|Hnw]; cbn [orb].
  { eapply wpf_done; [reflexivity|]. rewrite decide_False; [done|]. intros [_ He]. unfold u32 in Hwrap.
    rewrite Z.mod_small in Hwrap by lia. lia. }
  destruct (Z.ltb_spec (MAXFILE * BSIZE) (off + Z.of_nat (length src))) as [Hmax|Hfit].
  { eapply wpf_done; [reflexivity|]. rewrite decide_False; [done|]. lia. }
  apply wpf_bind. eapply wpf_mono; [apply writei_loop_ok; try apply Hinv; lia|]. intros r s1 (-> & Hw & Hall & Hsame). cbv beta.
  wnext. assert (i_size (fs_inode s1 ip) = i_size (fs_inode s ip)) as Hs1.
  { by rewrite (wn_rest _ _ _ _ _ _ _ (fw_written _ _ _ _ Hw)). }
  rewrite Hs1. destruct (decide _) as [_|Hno]; [|lia].
  destruct (Z.ltb_spec (i_size (fs_inode s ip)) (off + Z.of_nat (length src))) as [Hg|Hg].
  - destruct (Z.ltb_spec 0 (Z.of_nat (length src))); [|lia]. cbn [andb when]. apply wpf_bind.
    eapply wpf_mono; [apply (writei_grow ip off src s s1); (done || lia)|]. intros [] s2 Hwf. cbv beta. by eapply wpf_done.
  - rewrite andb_false_r. cbn [when]. apply wpf_bind. eapply wpf_done; [reflexivity|]. eapply wpf_done; [reflexivity|].
    split; [done|]. apply writei_inside; try (done || lia). apply Hsame. intros bn (? & ? & ?). apply (fi_filled _ _ Hinv); [|lia].
    unfold BSIZE in *. zlia.
Qed.
End Writei.

(** ** readi *)

(** The [n] bytes from [off] on *)
Definition bytes_of (s : fsys) (ip : nat) (off n : Z) : list Z := content (view s) (fs_inode s ip) <$> seqZ off n.

(** The blocks of the file below its size are on the disk; no buffer is held.
    A transaction may be open or not. *)
Record readable (ip : nat) (s : fsys) : Prop := mkReadable {
  rd_ok : bio_ok s;
  rd_unlocked : unlocked s;
  rd_dev : i_dev (fs_inode s ip) = 1;
  rd_size : 0 <= i_size (fs_inode s ip) <= MAXFILE * BSIZE;
  rd_addr : forall bn, 0 <= bn -> bn * BSIZE < i_size (fs_inode s ip) ->
    0 < faddr (view s) (fs_inode s ip) bn < fs_disksize s;
  rd_ind : 0 <= indirect (fs_inode s ip) < fs_disksize s;
}.

Lemma file_readable ip s : file_inv ip s -> readable ip s.
Proof.
  intros [[Htx Hun Hly Hme Hsz] Hfo Hin Hs Hfill Hdk]. split; try done; [apply Htx|apply Hfo| |].
  - intros bn Hb Hbn. apply in_use_pos; [done|]. apply Hfo; [|auto]. unfold MAXFILE, NDIRECT, NINDIRECT, BSIZE in *. zlia.
  - destruct (decide (indirect (fs_inode s ip) = 0)) as [->|Hn]; [pose proof (data_start_pos s Hly); pose proof (ly_data s Hly); pose proof (ly_size s Hly); lia|].
    pose proof (in_use_pos s _ Hly (fo_ind _ _ _ Hfo Hn)). lia.
Qed.

Section Read.
Context (s : fsys).

Lemma read_block {A} b s1 (k : nat -> M fsys A) Q :
  tr [] [] s s1 -> 0 <= b < fs_disksize s ->
  (forall bp s2, tr [] [(bp, b)] s s2 -> bf_data (fs_buf s2 bp) = view s b -> wpf fs_fault (k bp) Q s2) ->
  wpf fs_fault (bp <- bread 1 b ;; k bp) Q s1.
Proof.
  intros Ht Hb Hk. apply wpf_bind. destruct (avail_dec s1 b (tr_ok _ _ _ _ Ht)) as [Hav|Hp].
  - apply wpf_wp. eapply wp_mono; [apply (bread_tr [] [] s s1 b Ht); [|set_solver|done]|].
    { by rewrite (sr_size _ _ (tr_rest _ _ _ _ Ht)). }
    intros bp s2 (Ht2 & _ & Hd & _). apply Hk; [done|]. rewrite Hd, (tr_view _ _ _ _ Ht). done.
  - unfold wpf. rewrite Hp. by left.
Qed.

Lemma brelse_read {A} b bp s1 (k : M fsys A) Q :
  tr [] [(bp, b)] s s1 -> (forall s2, tr [] [] s s2 -> wpf fs_fault k Q s2) -> wpf fs_fault (brelse bp ;; k) Q s1.
Proof.
  intros Ht Hk. apply wpf_bind, wpf_wp. eapply wp_mono; [apply (brelse_tr [] [] s s1 bp b Ht); set_solver|]. intros [] s2 Ht2. by apply Hk.
Qed.

Context (ip : nat).

Lemma read_bmap bn s1 :
  readable ip s -> tr [] [] s s1 -> 0 <= bn < MAXFILE -> faddr (view s) (fs_inode s ip) bn <> 0 ->
  wpf fs_fault (bmap ip bn) (fun a s2 => a = faddr (view s) (fs_inode s ip) bn /\ tr [] [] s s2) s1.
Proof.
  intros Hr Ht Hbn Hn. pose proof (sr_inode _ _ (tr_rest _ _ _ _ Ht)) as Hi. unfold bmap, faddr in *.
  destruct (Z.ltb_spec bn NDIRECT).
  - unfold addr_or_alloc. wnext. rewrite Hi. destruct (Z.eqb_spec (addr_of (fs_inode s ip) bn) 0); [done|]. by eapply wpf_done.
  - destruct (Z.ltb_spec (bn - NDIRECT) NINDIRECT); [|unfold MAXFILE in *; lia].
    destruct (Z.eqb_spec (indirect (fs_inode s ip)) 0) as [|Hin]; [done|].
    apply wpf_bind. unfold addr_or_alloc. wnext. rewrite Hi. destruct (Z.eqb_spec (addr_of (fs_inode s ip) NDIRECT) 0); [done|].
    eapply wpf_done; [reflexivity|]. wnext. rewrite Hi, (rd_dev _ _ Hr).
    eapply read_block; [done|by apply Hr|]. intros bp s2 Ht2 Hd. wnext. rewrite Hd.
    change (addr_of (fs_inode s ip) NDIRECT) with (indirect (fs_inode s ip)).
    destruct (Z.eqb_spec (get32 (view s (indirect (fs_inode s ip))) (4 * (bn - NDIRECT))) 0); [done|]. wnext.
    eapply brelse_read; [exact Ht2|]. intros s3 Ht3. by eapply wpf_done.
Qed.

Lemma slice_content off m :
  faddr (view s) (fs_inode s ip) (off / BSIZE) <> 0 -> 0 <= off -> 0 < m -> off `mod` BSIZE + m <= BSIZE ->
  Z.of_nat (length (view s (faddr (view s) (fs_inode s ip) (off / BSIZE)))) = BSIZE ->
  slice (off `mod` BSIZE) m (view s (faddr (view s) (fs_inode s ip) (off / BSIZE))) = bytes_of s ip off m.
Proof.
  intros Hn Ho Hm Hf Hl. unfold bytes_of. apply list_eq. intros k. unfold BSIZE in *. rewrite slice_lookup, list_lookup_fmap by zlia. case_decide as Hk.
  - rewrite lookup_seqZ_lt by lia. cbn. unfold content, BSIZE.
    replace ((off + Z.of_nat k) / 512) with (off / 512) by zlia. destruct (Z.eqb_spec (faddr (view s) (fs_inode s ip) (off / 512)) 0); [done|].
    rewrite get8_lookup. replace (Z.to_nat ((off + Z.of_nat k) `mod` 512)) with (Z.to_nat (off `mod` 512) + k)%nat by zlia.
    destruct (lookup_lt_is_Some_2 (view s (faddr (view s) (fs_inode s ip) (off / 512))) (Z.to_nat (off `mod` 512) + k)) as [x ->]; [|done].
    zlia.
  - by rewrite lookup_seqZ_ge by lia.
Qed.

Lemma readi_loop_ok fuel off left s1 :
  readable ip s -> tr [] [] s s1 -> 0 <= off -> 0 <= left -> off + left <= i_size (fs_inode s ip) -> (Z.to_nat left < fuel)%nat ->
  wpf fs_fault (readi_loop fuel ip off left) (fun l s2 => l = bytes_of s ip off left /\ tr [] [] s s2) s1.
Proof.
  intros Hr. revert off left s1. induction fuel as [|fuel IH]; intros off left s1 Ht Ho Hl Hend Hf; [lia|]. cbn [readi_loop].
  destruct (Z.ltb_spec 0 left) as [Hpos|Hpos]; cycle 1.
  { eapply wpf_done; [reflexivity|]. split; [|done]. unfold bytes_of. by rewrite seqZ_nil by lia. }
  pose proof (chunk_range left off Hpos Ho) as [Hm1 Hm2]. pose proof (rd_size _ _ Hr) as Hsz. set (k := off / BSIZE).
  assert (0 <= k < MAXFILE) as Hk by (apply off_range; lia).
  pose proof (rd_addr _ _ Hr k ltac:(lia) ltac:(unfold k, BSIZE in *; zlia)) as Ha.
  apply wpf_bind. eapply wpf_mono; [apply read_bmap; (done || lia)|]. intros a s2 [-> Ht2]. cbv beta. wnext.
  rewrite (sr_inode _ _ (tr_rest _ _ _ _ Ht2)), (rd_dev _ _ Hr). eapply read_block; [done|lia|]. intros bp s3 Ht3 Hd. wnext.
  eapply brelse_read; [exact Ht3|]. intros s4 Ht4. apply wpf_bind.
  eapply wpf_mono; [apply IH; (done || lia)|]. intros l s5 [-> Ht5]. eapply wpf_done; [reflexivity|]. split; [|done].
  rewrite Hd. unfold k. rewrite slice_content; [|fold k; lia|lia..|apply view_length; [apply Hr|fold k; lia]].
  unfold bytes_of. rewrite <- fmap_app. f_equal. rewrite <- seqZ_app by lia. f_equal. lia.
Qed.
End Read.

Lemma tr_refl s : bio_ok s -> unlocked s -> tr [] [] s s.
Proof. intros Hok Hun. split; try done; try set_solver. by rewrite app_nil_r. Qed.

Lemma readable_tr ip s : readable ip s -> tr [] [] s s.
Proof. intros Hr. apply tr_refl; apply Hr. Qed.

Section Readi.
Context (devread : Z -> option (nat -> Z -> M fsys (Z * list Z))).

(** A run of readi from a state [s1] that reads have led to *)
Lemma readi_from ip off n s s1 :
  readable ip s -> tr [] [] s s1 -> i_type (fs_inode s ip) <> T_DEV -> is_u32 off -> is_u32 n ->
  wpf fs_fault (readi devread ip off n) (fun r s' => tr [] [] s s' /\
    r = if (i_size (fs_inode s ip) <? off) || (u32 (off + n) <? off) then (-1, [])
        else (Z.min n (i_size (fs_inode s ip) - off), bytes_of s ip off (Z.min n (i_size (fs_inode s ip) - off)))) s1.
Proof.
  intros Hr Ht Hty Ho Hn. unfold is_u32 in *. unfold readi. wnext. rewrite (sr_inode _ _ (tr_rest _ _ _ _ Ht)).
  destruct (Z.eqb_spec (i_type (fs_inode s ip)) T_DEV); [done|].
  destruct ((i_size (fs_inode s ip) <? off) || (u32 (off + n) <? off)) eqn:He; [by eapply wpf_done|].
  apply orb_false_iff in He as [He1%Z.ltb_ge He2].
  replace (if i_size (fs_inode s ip) <? off + n then i_size (fs_inode s ip) - off else n) with (Z.min n (i_size (fs_inode s ip) - off))
    by (destruct (Z.ltb_spec (i_size (fs_inode s ip)) (off + n)); lia).
  apply wpf_bind. eapply wpf_mono; [apply (readi_loop_ok s ip); (done || lia)|]. intros l s' [-> Ht']. by eapply wpf_done.
Qed.

Lemma readi_ok ip off n s :
  readable ip s -> i_type (fs_inode s ip) <> T_DEV -> is_u32 off -> is_u32 n ->
  wpf fs_fault (readi devread ip off n) (fun r s' => tr [] [] s s' /\
    r = if (i_size (fs_inode s ip) <? off) || (u32 (off + n) <? off) then (-1, [])
        else (Z.min n (i_size (fs_inode s ip) - off), bytes_of s ip off (Z.min n (i_size (fs_inode s ip) - off)))) s.
Proof. intros Hr. apply readi_from; [done|by apply (readable_tr ip)]. Qed.
End Readi.
