(* ===== verification/Mkfs.v ===== *)
(** * mkfs.c

    The program that makes the disk image on the host: superblock, root
    directory, one inode per file given, and the bitmap.  The state is the
    image and the counters; [host] is what open and read give for a file name
    of the command line.  An exit(1) and a failed assertion are panics.

    xshort and xint store a number in the byte order of the i386, which
    [bytes16] and [bytes32] write and [get16] and [get32] read, so a struct
    dinode is an [inode] of which only the fields on disk count. *)

From S2P Require Import Prelude FsState Log Fs Ide.

Local Open Scope c_scope.
Local Open Scope Z_scope.

Definition NINODES : Z := 200.

Definition nbitmap : Z := FSSIZE / (BSIZE * 8) + 1.
Definition ninodeblocks : Z := NINODES / IPB + 1.
Definition nlog : Z := LOGSIZE.
Definition nmeta : Z := 2 + nlog + ninodeblocks + nbitmap.
Definition nblocks : Z := FSSIZE - nmeta.

Definition sb : superblock :=
  mkSuperblock FSSIZE nblocks NINODES nlog 2 (2 + nlog) (2 + nlog + ninodeblocks).

Definition zeroes : block := repeat 0 (Z.to_nat BSIZE).

Record mkst := mkMkst {
  img : Z -> block;       (* the sectors of the image file *)
  nsect : Z;              (* its length in sectors *)
  freeinode : Z;
  freeblock : Z;
}.

Definition set_img (v : Z -> block) (s : mkst) : mkst := mkMkst v (nsect s) (freeinode s) (freeblock s).
Definition set_nsect (v : Z) (s : mkst) : mkst := mkMkst (img s) v (freeinode s) (freeblock s).
Definition set_freeinode (v : Z) (s : mkst) : mkst := mkMkst (img s) (nsect s) v (freeblock s).
Definition set_freeblock (v : Z) (s : mkst) : mkst := mkMkst (img s) (nsect s) (freeinode s) v.

(** open with O_TRUNC: an empty image *)
Definition start : mkst := mkMkst (fun _ => []) 0 1 0.

(** A write past the end of a file makes it longer. *)
Definition wsect (sec : Z) (buf : block) : M mkst unit :=
  if FSSIZE <? sec then panic "exit(1)"
  else modify (fun s => set_nsect (Z.max (nsect s) (sec + 1)) (set_img (<[sec := buf]> (img s)) s)).

(** A read at the end of a file gives nothing. *)
Definition rsect (sec : Z) : M mkst block :=
  if FSSIZE <? sec then panic "exit(1)"
  else
    n <- gets nsect ;;
    if n <=? sec then panic "exit(1)" else gets (fun s => img s sec).

Definition winode (inum : Z) (ip : inode) : M mkst unit :=
  let bn := IBLOCK inum sb in
  buf <- rsect bn ;;
  wsect bn (put (dinode_off inum) (dinode_bytes ip) buf).

(** A struct dinode with all bytes 0 *)
Definition no_dinode : inode := mkInode 1 0 0 (mkSleeplock false 0) false 0 0 0 0 0 (repeat 0 13).

Definition rinode (inum : Z) : M mkst inode :=
  let bn := IBLOCK inum sb in
  buf <- rsect bn ;;
  ret (load_dinode buf (dinode_off inum) no_dinode).

Definition ialloc (type : Z) : M mkst Z :=
  inum <- gets freeinode ;;
  modify (set_freeinode (u32 (inum + 1))) ;;
  winode inum (set_i_size 0 (set_i_nlink 1 (set_i_type type no_dinode))) ;;
  ret inum.

Definition balloc (used : Z) : M mkst unit :=
  if BSIZE * 8 <=? used then panic "assert"
  else wsect (sb_bmapstart sb) (foldl (fun buf i => mark_bit i buf) zeroes (seqZ 0 used)).

(** freeblock++ *)
Definition next_block : M mkst Z :=
  b <- gets freeblock ;;
  modify (set_freeblock (u32 (b + 1))) ;;
  ret b.

(** The struct dinode with its indirect block *)
Definition with_indirect (din : inode) : M mkst inode :=
  if addr_of din NDIRECT =? 0 then
    b <- next_block ;;
    ret (set_addr NDIRECT b din)
  else ret din.

(** The block of index [fbn]: the struct dinode and the block number *)
Definition file_sector (din : inode) (fbn : Z) : M mkst (inode * Z) :=
  if fbn <? NDIRECT then
    if addr_of din fbn =? 0 then
      b <- next_block ;;
      ret (set_addr fbn b din, b)
    else ret (din, addr_of din fbn)
  else
    din <- with_indirect din ;;
    indirect <- rsect (addr_of din NDIRECT) ;;
    let entry := 4 * (fbn - NDIRECT) in
    if get32 indirect entry =? 0 then
      b <- next_block ;;
      wsect (addr_of din NDIRECT) (put32 entry b indirect) ;;
      ret (din, b)
    else ret (din, get32 indirect entry).

(** The loop of iappend over the bytes [p] that are left *)
Fixpoint iappend_loop (fuel : nat) (din : inode) (off : Z) (p : list Z) : M mkst (inode * Z) :=
  match fuel with
  | O => out_of_fuel
  | S fuel' =>
      let n := Z.of_nat (length p) in
      if 0 <? n then
        let fbn := off / BSIZE in
        if MAXFILE <=? fbn then panic "assert"
        else
          r <- file_sector din fbn ;;
          let '(din, x) := r in
          let n1 := Z.min n ((fbn + 1) * BSIZE - off) in
          buf <- rsect x ;;
          wsect x (put (off - fbn * BSIZE) (take (Z.to_nat n1) p) buf) ;;
          iappend_loop fuel' din (off + n1) (drop (Z.to_nat n1) p)
      else ret (din, off)
  end.

Definition iappend (inum : Z) (p : list Z) : M mkst unit :=
  din <- rinode inum ;;
  r <- iappend_loop (S (length p)) din (i_size din) p ;;
  let '(din, off) := r in
  winode inum (set_i_size off din).

(** A struct dirent, cleared and filled.  strcpy of a short name into a cleared
    entry leaves the bytes that strncpy does. *)
Definition dirent (inum : Z) (name : list Z) : list Z := bytes16 (u16 inum) ++ strncpy_bytes DIRSIZ name.

(** while((cc = read(fd, buf, sizeof(buf))) > 0) iappend(inum, buf, cc) *)
Fixpoint copy_file (fuel : nat) (inum : Z) (data : list Z) : M mkst unit :=
  match fuel with
  | O => out_of_fuel
  | S fuel' =>
      match data with
      | [] => ret tt
      | _ => iappend inum (take (Z.to_nat BSIZE) data) ;; copy_file fuel' inum (drop (Z.to_nat BSIZE) data)
      end
  end.

(** The name without a leading underscore *)
Definition skip_underscore (name : list Z) : list Z :=
  match name with c :: name' => if c =? 95 then name' else name | [] => [] end.

(** The loop of main, for one file name *)
Definition add_file (host : list Z -> option (list Z)) (rootino : Z) (arg : list Z) : M mkst unit :=
  if bool_decide (47 ∈ arg) then panic "assert"
  else
    match host arg with
    | None => panic "exit(1)"
    | Some data =>
        inum <- ialloc T_FILE ;;
        iappend rootino (dirent inum (skip_underscore arg)) ;;
        copy_file (S (length data)) inum data
    end.

Definition sb_bytes : list Z :=
  bytes32 (sb_size sb) ++ bytes32 (sb_nblocks sb) ++ bytes32 (sb_ninodes sb) ++ bytes32 (sb_nlog sb) ++
  bytes32 (sb_logstart sb) ++ bytes32 (sb_inodestart sb) ++ bytes32 (sb_bmapstart sb).

(** fix size of root inode dir *)
Definition fix_root (rootino : Z) : M mkst unit :=
  din <- rinode rootino ;;
  let off := i_size din in
  let off := (off / BSIZE + 1) * BSIZE in
  winode rootino (set_i_size off din).

(** [argv] is what follows the program's name: the image and the files. *)
Definition main (host : list Z -> option (list Z)) (argv : list (list Z)) : M mkst unit :=
  match argv with
  | [] => panic "exit(1)"
  | _ :: files =>
      modify (set_freeblock nmeta) ;;
      for_each (seqZ 0 FSSIZE) (fun i => wsect i zeroes) ;;
      wsect 1 (put 0 sb_bytes zeroes) ;;
      rootino <- ialloc T_DIR ;;
      if negb (rootino =? ROOTINO) then panic "assert"
      else
        iappend rootino (dirent rootino [46]) ;;
        iappend rootino (dirent rootino [46; 46]) ;;
        for_each files (add_file host rootino) ;;
        fix_root rootino ;;
        used <- gets freeblock ;;
        balloc used
  end.
