(* ===== verification/MkfsProps.v ===== *)
(** * The image that mkfs makes

    [disk_ok F s]: the image of [s] holds the files [F], a list of types and
    contents by inode number from 1 on, in blocks of their own, allocated
    without gaps from the first data block on; [made] is the result of main.
    The files are those of fs.c: [content] and [file_ok] of FsContent.v, so that
    what mkfs puts into the image is what readi of the kernel finds there. *)

From S2P Require Import Prelude FsState Bio BioInv Log LogInv LogCommit LogCrash Fs FsTxn FsAlloc FsContent FsWrite Ide Mkfs.

Local Open Scope c_scope.
Local Open Scope Z_scope.

Implicit Types (s : mkst) (i : inode).

Abbreviation len l := (Z.of_nat (length l)).

(** ** The inodes of the image *)

Definition dinode_at (v : Z -> block) (n : Z) : inode := load_dinode (v (IBLOCK n sb)) (dinode_off n) no_dinode.

(** A struct dinode that its 64 bytes represent *)
Record din_ok i : Prop := mkDinOk {
  dn_shape : i = mkInode 1 0 0 (mkSleeplock false 0) false (i_type i) (i_major i) (i_minor i) (i_nlink i) (i_size i) (i_addrs i);
  dn_type : 0 <= i_type i < 32768;
  dn_major : 0 <= i_major i < 32768;
  dn_minor : 0 <= i_minor i < 32768;
  dn_nlink : 0 <= i_nlink i < 32768;
  dn_size : is_u32 (i_size i);
  dn_len : length (i_addrs i) = 13%nat;
  dn_addrs : Forall is_u32 (i_addrs i);
}.

Lemma get8_slice o n (d : block) k : 0 <= o -> 0 <= k < n -> get8 (slice o n d) k = get8 d (o + k).
Proof. intros Ho Hk. rewrite !get8_lookup, slice_lookup, decide_True by lia. do 2 f_equal. lia. Qed.

Section Ext.
Context (d d' : block) (o o' : Z) (He : forall k, 0 <= k < 64 -> get8 d (o + k) = get8 d' (o' + k)).

Lemma get16_ext k : 0 <= k -> k + 2 <= 64 -> get16 d (o + k) = get16 d' (o' + k).
Proof. intros. unfold get16. by rewrite <- !Z.add_assoc, !He by lia. Qed.

Lemma get32_ext k : 0 <= k -> k + 4 <= 64 -> get32 d (o + k) = get32 d' (o' + k).
Proof. intros. unfold get32. by rewrite <- !(Z.add_assoc _ k), !He by lia. Qed.

Lemma get_addrs_ext n : forall k, 0 <= k -> k + 4 * Z.of_nat n <= 64 -> get_addrs d (o + k) n = get_addrs d' (o' + k) n.
Proof.
  induction n as [|n IH]; intros k Hk Hn; [done|]. cbn [get_addrs]. rewrite get32_ext by lia. f_equal.
  rewrite <- !Z.add_assoc. apply IH; lia.
Qed.

Lemma load_dinode_ext i : load_dinode d o i = load_dinode d' o' i.
Proof.
  unfold load_dinode, dinode_type. rewrite get_addrs_ext, get32_ext, !get16_ext by lia.
  pose proof (get16_ext 0) as H0. rewrite !Z.add_0_r in H0. by rewrite H0 by lia.
Qed.
End Ext.

Lemma word_bytes w : is_u32 w -> u8 w + 256 * u8 (w / 256) + 65536 * u8 (w / 65536) + 16777216 * u8 (w / 16777216) = w.
Proof. exact (get32_bytes32 w). Qed.

Lemma short_bytes w : 0 <= w < 32768 -> i16 (u8 (u16 w) + 256 * u8 (u16 w / 256)) = w.
Proof. unfold i16, u16, u8. intros. zlia. Qed.

Lemma load_no_dinode (d : block) :
  load_dinode d 0 no_dinode = mkInode 1 0 0 (mkSleeplock false 0) false (i16 (get16 d 0)) (i16 (get16 d 2)) (i16 (get16 d 4))
    (i16 (get16 d 6)) (get32 d 8) (get_addrs d 12 13).
Proof. reflexivity. Qed.

Lemma load_dinode_bytes i : din_ok i -> load_dinode (dinode_bytes i) 0 no_dinode = i.
Proof.
  intros [Hsh Ht Hmj Hmn Hnl Hsz Hl Ha]. rewrite Hsh. destruct i as [? ? ? ? ? t mj mn nl sz addrs]. cbn in *. clear Hsh.
  do 13 (destruct addrs as [|? addrs]; [discriminate|]). destruct addrs; [|discriminate].
  repeat match goal with H : Forall _ (_ :: _) |- _ => apply Forall_cons in H as [? H] end.
  rewrite load_no_dinode. cbn [get_addrs].
  f_equal; [exact (short_bytes t Ht)|exact (short_bytes mj Hmj)|exact (short_bytes mn Hmn)|exact (short_bytes nl Hnl)|exact (word_bytes sz Hsz)|].
  do 13 (apply (f_equal2 cons); [match goal with |- _ = ?z => apply (word_bytes z); assumption end|]). done.
Qed.

(** ** Sectors *)

Record base s : Prop := mkBase {
  bs_nsect : nsect s = FSSIZE;
  bs_len : forall c, 0 <= c < FSSIZE -> len (img s c) = BSIZE;
  bs_free : nmeta <= freeblock s <= FSSIZE;
  bs_zero : forall c, freeblock s <= c < FSSIZE -> img s c = zeros;
}.

(** The image with sector [c] replaced by [d] *)
Definition with_sector (c : Z) (d : block) s : mkst := set_img (<[c := d]> (img s)) s.

Lemma rsect_ok c (Q : block -> mkst -> Prop) s : base s -> 0 <= c < FSSIZE -> Q (img s c) s -> wp (rsect c) Q s.
Proof.
  intros Hb Hc HQ. unfold rsect. destruct (Z.ltb_spec FSSIZE c); [lia|]. apply wp_bind, wp_gets. rewrite (bs_nsect _ Hb).
  destruct (Z.leb_spec FSSIZE c); [lia|]. by apply wp_gets.
Qed.

Lemma wsect_ok c d (Q : unit -> mkst -> Prop) s : base s -> 0 <= c < FSSIZE -> Q tt (with_sector c d s) -> wp (wsect c d) Q s.
Proof.
  intros Hb Hc HQ. unfold wsect. destruct (Z.ltb_spec FSSIZE c); [lia|]. apply wp_modify.
  pose proof (bs_nsect _ Hb). destruct s as [v n fi fb]. cbn in *. rewrite Z.max_l by lia. done.
Qed.

Lemma base_sector c d s : base s -> 0 <= c < freeblock s -> len d = BSIZE -> base (with_sector c d s).
Proof.
  intros [Hn Hl Hf Hz] Hc Hd. split; try done; cbn.
  - intros c' Hc'. destruct (decide (c' = c)) as [->|]; [by rewrite fn_lookup_insert|rewrite fn_lookup_insert_ne by done; auto].
  - intros c' Hc'. rewrite fn_lookup_insert_ne by lia. auto.
Qed.

(** ** Inodes *)

Lemma IBLOCK_image n : 0 <= n < NINODES -> sb_inodestart sb <= IBLOCK n sb < sb_bmapstart sb.
Proof. intros Hn. unfold IBLOCK. change (sb_inodestart sb) with 32. change (sb_bmapstart sb) with 58. change IPB with 8. unfold NINODES in *. zlia. Qed.

Lemma meta_blocks : sb_inodestart sb = 32 /\ sb_bmapstart sb = 58 /\ nmeta = 59 /\ FSSIZE = 2000.
Proof. done. Qed.

Lemma rinode_ok n (Q : inode -> mkst -> Prop) s : base s -> 0 <= n < NINODES -> Q (dinode_at (img s) n) s -> wp (rinode n) Q s.
Proof.
  intros Hb Hn HQ. pose proof (IBLOCK_image n Hn). pose proof meta_blocks. unfold rinode. apply wp_bind, rsect_ok; [done|lia|]. by apply wp_ret.
Qed.

(** The image with inode [n] set to [i] *)
Definition with_inode (n : Z) i s : mkst :=
  with_sector (IBLOCK n sb) (put (dinode_off n) (dinode_bytes i) (img s (IBLOCK n sb))) s.

Lemma winode_ok n i (Q : unit -> mkst -> Prop) s : base s -> 0 <= n < NINODES -> Q tt (with_inode n i s) -> wp (winode n i) Q s.
Proof.
  intros Hb Hn HQ. pose proof (IBLOCK_image n Hn). pose proof meta_blocks. unfold winode. apply wp_bind, rsect_ok; [done|lia|].
  apply wsect_ok; [done|lia|done].
Qed.

Section Inode.
Context (n : Z) (i : inode) (s : mkst) (Hb : base s) (Hn : 0 <= n < NINODES) (Hi : length (i_addrs i) = 13%nat).

Lemma inode_fits : fits (dinode_off n) (dinode_bytes i) (img s (IBLOCK n sb)).
Proof using All. pose proof (IBLOCK_image n Hn). pose proof meta_blocks. apply dinode_fits; [done|]. apply (bs_len s Hb). lia. Qed.

Lemma base_inode : base (with_inode n i s).
Proof using All.
  pose proof (IBLOCK_image n Hn). pose proof meta_blocks. pose proof (bs_free s Hb). apply base_sector; [done|lia|].
  rewrite length_put by apply inode_fits. apply (bs_len s Hb). lia.
Qed.

Lemma with_inode_at : din_ok i -> dinode_at (img (with_inode n i s)) n = i.
Proof using All.
  intros Hd. unfold dinode_at, with_inode. cbn [img with_sector set_img]. rewrite fn_lookup_insert.
  transitivity (load_dinode (dinode_bytes i) 0 no_dinode); [|by apply load_dinode_bytes]. apply load_dinode_ext. intros k Hk. pose proof inode_fits as Hf. pose proof Hf as [Ho _].
  rewrite get8_put, length_dinode, decide_True by (done || lia). f_equal. lia.
Qed.

Lemma with_inode_other m : 0 <= m < NINODES -> m <> n -> dinode_at (img (with_inode n i s)) m = dinode_at (img s) m.
Proof using All.
  intros Hm Hne. unfold dinode_at, with_inode. cbn [img with_sector set_img]. destruct (decide (IBLOCK m sb = IBLOCK n sb)) as [He|He]; [|by rewrite fn_lookup_insert_ne].
  rewrite He, fn_lookup_insert. apply load_dinode_ext. intros k Hk. pose proof inode_fits as Hf. pose proof Hf as [Ho _].
  assert (dinode_off m + 64 <= dinode_off n \/ dinode_off n + 64 <= dinode_off m) by (apply dinode_apart; unfold IBLOCK in He; lia).
  assert (0 <= dinode_off m) by (unfold dinode_off; change IPB with 8; zlia).
  rewrite get8_put, length_dinode, decide_False by (done || lia). done.
Qed.

Lemma with_inode_sector c : c < sb_inodestart sb \/ sb_bmapstart sb <= c -> img (with_inode n i s) c = img s c.
Proof using Hn. clear Hi Hb. intros Hc. pose proof (IBLOCK_image n Hn). unfold with_inode. cbn. by rewrite fn_lookup_insert_ne by lia. Qed.
End Inode.

Lemma dinode_at_same v v' n : 0 <= n < NINODES -> (forall c, sb_inodestart sb <= c < sb_bmapstart sb -> v' c = v c) -> dinode_at v' n = dinode_at v n.
Proof. intros Hn He. unfold dinode_at. by rewrite He by (by apply IBLOCK_image). Qed.

(** ** Blocks of a file *)

(** The data blocks given out so far *)
Definition given s (c : Z) : Prop := nmeta <= c < freeblock s.

(** What an allocation for a file keeps *)
Record alloc_step s s' : Prop := mkAllocStep {
  as_base : base s';
  as_meta : forall c, c < nmeta -> img s' c = img s c;
  as_inode : freeinode s' = freeinode s;
}.

Lemma alloc_refl s : base s -> alloc_step s s.
Proof. by split. Qed.

Lemma alloc_trans s s1 s2 : alloc_step s s1 -> alloc_step s1 s2 -> alloc_step s s2.
Proof. intros [? H1 ?] [? H2 ?]. split; [done| |congruence]. intros c Hc. by rewrite H2, H1. Qed.

Lemma next_block_ok (Q : Z -> mkst -> Prop) s :
  base s -> freeblock s < FSSIZE -> Q (freeblock s) (set_freeblock (freeblock s + 1) s) -> wp next_block Q s.
Proof.
  intros Hb Hf HQ. pose proof (bs_free s Hb). pose proof meta_blocks. unfold next_block. apply wp_bind, wp_gets, wp_bind, wp_modify.
  unfold u32. rewrite (Z.mod_small (freeblock s + 1)) by (unfold u32_mod; lia). by apply wp_ret.
Qed.

Lemma next_alloc s : base s -> freeblock s < FSSIZE -> alloc_step s (set_freeblock (freeblock s + 1) s).
Proof. intros [Hn Hl Hf Hz] Hlt. split; try done. split; try done; cbn; [lia|]. intros. apply Hz. lia. Qed.

Definition one_if (b : bool) : Z := if b then 1 else 0.

Lemma set_addr_facts i k a : 0 <= k <= NDIRECT -> length (i_addrs i) = 13%nat ->
  set_addr k a i = set_i_addrs (i_addrs (set_addr k a i)) i /\ length (i_addrs (set_addr k a i)) = 13%nat /\
  (forall j, 0 <= j -> addr_of (set_addr k a i) j = if decide (j = k) then a else addr_of i j).
Proof.
  intros Hk Hl. split_and!; [done| |intros; by apply addr_set]. unfold set_addr. destruct i. cbn. by rewrite length_insert.
Qed.

(** From (s, i) to (s', i'): the file has its indirect block. *)
Lemma with_indirect_ok i s :
  base s -> file_ok (given s) (img s) i -> freeblock s + one_if (indirect i =? 0) <= FSSIZE ->
  wp (with_indirect i) (fun i' s' => alloc_step s s' /\ grown (given s) (given s') (img s) (img s') i i' /\
    freeblock s' = freeblock s + one_if (indirect i =? 0) /\ indirect i' <> 0 /\
    (forall bn, 0 <= bn < MAXFILE -> faddr (img s') i' bn = faddr (img s) i bn)) s.
Proof.
  intros Hb Hok Hfree. pose proof (bs_free s Hb) as Hfr. pose proof meta_blocks. unfold with_indirect. fold (indirect i).
  destruct (Z.eqb_spec (indirect i) 0) as [H0|H0]; unfold one_if in *.
  - apply wp_bind, next_block_ok; [done|lia|]. apply wp_ret. destruct (set_addr_facts i NDIRECT (freeblock s)) as (Hr & Hl & Ha); [done|apply Hok|].
    assert (indirect (set_addr NDIRECT (freeblock s) i) = freeblock s) as Hind by (unfold indirect; rewrite Ha, decide_True by done; done).
    split_and!; [apply next_alloc; (done || lia)| |done|lia|].
    + apply (grown_indirect _ _ _ _ _ _ (freeblock s)); try done; unfold given; cbn [img freeblock set_freeblock]; try lia; [apply (bs_zero s Hb); lia|].
      intros bn Hbn. rewrite Ha, decide_False by lia. done.
    + intros bn Hbn. unfold faddr. rewrite Hind, H0. cbn [img set_freeblock]. destruct (Z.ltb_spec bn NDIRECT).
      * by rewrite Ha, decide_False by lia.
      * rewrite (bs_zero s Hb), get32_zeros by lia. by destruct (freeblock s =? 0).
  - apply wp_ret. split_and!; [by apply alloc_refl| |lia|done|done]. by apply fgrow_refl.
Qed.

(** The block of index [fbn]: allocated if it was not, the others as before *)
Record sector_of i s (fbn : Z) (r : inode * Z) s' : Prop := mkSectorOf {
  so_step : alloc_step s s';
  so_grown : grown (given s) (given s') (img s) (img s') i r.1;
  so_free : freeblock s' = freeblock s + one_if (faddr (img s) i fbn =? 0) + one_if ((NDIRECT <=? fbn) && (indirect i =? 0));
  so_ind : indirect r.1 <> 0 <-> indirect i <> 0 \/ NDIRECT <= fbn;
  so_addr : faddr (img s') r.1 fbn = r.2 /\ r.2 <> 0;
  so_other : forall bn, 0 <= bn < MAXFILE -> bn <> fbn -> faddr (img s') r.1 bn = faddr (img s) i bn;
}.

Lemma direct_sector_ok i fbn s :
  base s -> file_ok (given s) (img s) i -> 0 <= fbn < NDIRECT -> freeblock s + one_if (faddr (img s) i fbn =? 0) <= FSSIZE ->
  wp (file_sector i fbn) (sector_of i s fbn) s.
Proof.
  intros Hb Hok Hfbn Hfree. pose proof (bs_free s Hb) as Hfr. pose proof meta_blocks.
  assert (faddr (img s) i fbn = addr_of i fbn) as Hfa by (unfold faddr; destruct (Z.ltb_spec fbn NDIRECT); [done|lia]).
  unfold file_sector. destruct (Z.ltb_spec fbn NDIRECT); [|lia]. rewrite Hfa in Hfree.
  destruct (Z.eqb_spec (addr_of i fbn) 0) as [Hz|Hz]; unfold one_if in Hfree.
  - apply wp_bind, next_block_ok; [done|lia|]. apply wp_ret. destruct (set_addr_facts i fbn (freeblock s)) as (Hr & Hl & Ha); [lia|apply Hok|].
    set (i' := set_addr fbn (freeblock s) i) in *. set (s' := set_freeblock _ s).
    assert (indirect i' = indirect i) as Hind by (unfold indirect; rewrite Ha, decide_False by (unfold NDIRECT in *; lia); done).
    assert (forall bn, 0 <= bn < MAXFILE -> faddr (img s') i' bn = if decide (bn = fbn) then freeblock s else faddr (img s) i bn) as Hf.
    { intros bn Hbn. unfold faddr. rewrite Hind, Ha by lia. change (img s') with (img s). destruct (Z.ltb_spec bn NDIRECT); [done|]. by rewrite decide_False by lia. }
    assert (0 <= fbn < MAXFILE) by (unfold MAXFILE, NDIRECT, NINDIRECT in *; change (BSIZE / 4) with 128; lia).
    split; cbn [fst snd].
    + apply next_alloc; (done || lia).
    + apply (grown_one _ _ _ _ _ _ (freeblock s) Hok Hr Hl) with fbn; try done; unfold given, s'; cbn [img freeblock set_freeblock]; try lia;
        first [apply (bs_zero s Hb); lia|congruence].
    + rewrite Hfa, Hz. unfold one_if, s'. cbn. destruct (Z.leb_spec NDIRECT fbn); [lia|]. cbn. lia.
    + rewrite Hind. intuition lia.
    + rewrite Hf, decide_True by done. lia.
    + intros bn Hbn Hne. by rewrite Hf, decide_False by done.
  - apply wp_ret. split; cbn [fst snd]; try done.
    + by apply fgrow_refl.
    + rewrite Hfa. destruct (Z.eqb_spec (addr_of i fbn) 0); [done|]. unfold one_if. destruct (Z.leb_spec NDIRECT fbn); [lia|]. cbn. lia.
    + intuition lia.
Qed.

Lemma indirect_sector_ok i fbn s :
  base s -> file_ok (given s) (img s) i -> NDIRECT <= fbn < MAXFILE ->
  freeblock s + one_if (faddr (img s) i fbn =? 0) + one_if (indirect i =? 0) <= FSSIZE ->
  wp (file_sector i fbn) (sector_of i s fbn) s.
Proof.
  intros Hb Hok Hfbn Hfree. pose proof meta_blocks as (_ & _ & Hm1 & Hm2). unfold file_sector. destruct (Z.ltb_spec fbn NDIRECT); [lia|].
  assert (0 <= one_if (faddr (img s) i fbn =? 0)) by (unfold one_if; case_match; lia).
  apply wp_bind. eapply wp_mono; [apply (with_indirect_ok i s Hb Hok); lia|]. intros i1 s1 (Hst & Hgr & Hfb & Hn1 & Hf1).
  pose proof (as_base _ _ Hst) as Hb1. pose proof (gr_ok _ _ _ _ _ _ Hgr) as Hok1. pose proof (fo_ind _ _ _ Hok1 Hn1) as Hg1.
  pose proof (bs_free s1 Hb1) as Hfr1. assert (0 <= fbn < MAXFILE) as Hr by (unfold NDIRECT in *; lia). fold (indirect i1).
  assert (faddr (img s1) i1 fbn = get32 (img s1 (indirect i1)) (4 * (fbn - NDIRECT))) as Hfa by (apply faddr_ind; [lia|done]).
  unfold given in Hg1. apply wp_bind, rsect_ok; [done|lia|]. rewrite <- Hfa, Hf1 by done.
  assert ((NDIRECT <=? fbn) = true) as Hle by (destruct (Z.leb_spec NDIRECT fbn); [done|lia]).
  destruct (Z.eqb_spec (faddr (img s) i fbn) 0) as [Hz|Hz].
  - unfold one_if in Hfree, Hfb. apply wp_bind, next_block_ok; [done|lia|]. set (s2 := set_freeblock _ s1).
    pose proof (next_alloc s1 Hb1 ltac:(lia)) as Hst2. fold s2 in Hst2.
    apply wp_bind, wsect_ok; [apply Hst2|lia|]. apply wp_ret.
    set (d := put32 (4 * (fbn - NDIRECT)) (freeblock s1) (img s1 (indirect i1))). set (s3 := with_sector (indirect i1) d s2).
    assert (len (img s1 (indirect i1)) = BSIZE) as Hl by (apply (bs_len s1 Hb1); lia).
    pose proof (entry_fits fbn (freeblock s1) _ Hfbn Hl) as Hfit.
    assert (img s3 (indirect i1) = d) as Hv by (cbn; apply fn_lookup_insert).
    assert (forall c, c <> indirect i1 -> img s3 c = img s1 c) as Hv' by (intros c Hc; cbn; by rewrite fn_lookup_insert_ne).
    assert (is_u32 (freeblock s1)) as Hu by (unfold is_u32, u32_mod; lia).
    assert (forall bn, 0 <= bn < MAXFILE -> faddr (img s3) i1 bn = if decide (bn = fbn) then freeblock s1 else faddr (img s1) i1 bn) as Hf3.
    { intros bn Hbn. unfold faddr. destruct (Z.ltb_spec bn NDIRECT); [by rewrite decide_False by lia|]. destruct (Z.eqb_spec (indirect i1) 0); [done|].
      rewrite Hv. unfold d. case_decide; [subst; by apply get32_put32|]. apply get32_put32_ne; (done || lia). }
    split; cbn [fst snd].
    + eapply alloc_trans; [exact Hst|]. eapply alloc_trans; [exact Hst2|]. split; [|intros; cbn; by rewrite fn_lookup_insert_ne by lia|done].
      apply base_sector; [apply Hst2|cbn; lia|]. unfold d. by rewrite length_put32.
    + eapply fgrow_trans; [exact Hgr|]. apply (grown_entry _ _ _ _ _ _ (freeblock s1)) with fbn; try done; unfold given; cbn [freeblock with_sector set_img s3 s2 set_freeblock];
        try lia; [by destruct i1|apply Hok1|rewrite Hv' by lia; apply (bs_zero s1 Hb1); lia|intros; by apply Hv'|by rewrite Hf1].
    + rewrite Hz, Hle. cbn. unfold one_if. lia.
    + intuition lia.
    + rewrite Hf3, decide_True by done. lia.
    + intros bn Hbn Hne. rewrite Hf3, decide_False by done. auto.
  - apply wp_ret. split; cbn [fst snd]; try done.
    + destruct (Z.eqb_spec (faddr (img s) i fbn) 0); [done|]. rewrite Hle. cbn. unfold one_if in *. lia.
    + intuition lia.
    + rewrite Hf1 by done. done.
    + intros bn Hbn _. auto.
Qed.

Lemma file_sector_ok i fbn s :
  base s -> file_ok (given s) (img s) i -> 0 <= fbn < MAXFILE ->
  freeblock s + one_if (faddr (img s) i fbn =? 0) + one_if ((NDIRECT <=? fbn) && (indirect i =? 0)) <= FSSIZE ->
  wp (file_sector i fbn) (sector_of i s fbn) s.
Proof.
  intros Hb Hok Hfbn Hfree. destruct (Z.leb_spec NDIRECT fbn); cbn [andb] in Hfree.
  - apply indirect_sector_ok; (done || lia).
  - apply direct_sector_ok; [done|done|lia|]. unfold one_if in *. case_match; lia.
Qed.

(** ** A file with its content *)

(** The inode [i] has the content [d] in blocks of [U], without gaps; past the
    end its blocks are zero. *)
Record is_file (U : Z -> Prop) (v : Z -> block) i (d : list Z) : Prop := mkIsFile {
  fl_ok : file_ok U v i;
  fl_content : forall o, 0 <= o < MAXFILE * BSIZE -> content v i o = get8 d o;
  fl_alloc : forall bn, 0 <= bn < MAXFILE -> faddr v i bn <> 0 <-> bn * BSIZE < len d;
  fl_ind : indirect i <> 0 <-> NDIRECT * BSIZE < len d;
  fl_len : len d <= MAXFILE * BSIZE;
}.

(** The blocks of a file of [z] bytes, its indirect block included *)
Definition need (z : Z) : Z := (z + BSIZE - 1) / BSIZE + one_if (NDIRECT * BSIZE <? z).

Lemma need_mono y z : y <= z -> need y <= need z.
Proof.
  intros Hyz. unfold need. assert ((y + BSIZE - 1) / BSIZE <= (z + BSIZE - 1) / BSIZE) by (unfold BSIZE; zlia).
  unfold one_if. destruct (Z.ltb_spec (NDIRECT * BSIZE) y), (Z.ltb_spec (NDIRECT * BSIZE) z); lia.
Qed.

(** Growth inside the block of the end *)
Lemma need_turn z n :
  0 <= z -> 0 < n -> n <= (z / BSIZE + 1) * BSIZE - z ->
  need (z + n) = need z + one_if (negb (z / BSIZE * BSIZE <? z)) + one_if ((NDIRECT <=? z / BSIZE) && negb (NDIRECT * BSIZE <? z)).
Proof.
  intros Hz Hn Hb. unfold need, one_if, NDIRECT, BSIZE in *.
  destruct (Z.ltb_spec (z / 512 * 512) z), (Z.ltb_spec (12 * 512) z), (Z.ltb_spec (12 * 512) (z + n)), (Z.leb_spec 12 (z / 512)); cbn [negb andb]; zlia.
Qed.

Lemma get8_beyond (d : list Z) o : len d <= o -> get8 d o = 0.
Proof. intros Ho. unfold get8. apply nth_overflow. lia. Qed.

Lemma overlay_append d p g o : 0 <= o -> g o = get8 d o -> overlay (len d) p g o = get8 (d ++ p) o.
Proof.
  intros Ho Hg. unfold overlay. case_decide as H.
  - rewrite !get8_lookup, lookup_app_r by lia. do 2 f_equal. lia.
  - rewrite Hg. destruct (decide (o < len d)); [rewrite !get8_lookup, lookup_app_l by lia; done|].
    rewrite !get8_beyond; [done| |lia]. rewrite length_app. lia.
Qed.

Lemma faddr_same v v' i bn : v' (indirect i) = v (indirect i) -> faddr v' i bn = faddr v i bn.
Proof. intros He. unfold faddr. by rewrite He. Qed.

(** A file whose blocks are as they were *)
Lemma is_file_same U U' v v' i d :
  is_file U v i d -> (forall c, c <> 0 -> file_block v i c -> v' c = v c) -> (forall c, U c -> U' c) ->
  is_file U' v' i d /\ (forall bn, 0 <= bn < MAXFILE -> faddr v' i bn = faddr v i bn).
Proof.
  intros [[H1 H2 H3 H4 H5 H6] Hc Ha Hi Hl] Hv HU.
  assert (forall bn, 0 <= bn < MAXFILE -> faddr v' i bn = faddr v i bn) as Hf.
  { intros bn Hbn. unfold faddr. case_match; [done|]. destruct (Z.eqb_spec (indirect i) 0); [done|]. rewrite Hv; [done..|]. by left. }
  split; [|done]. split; try done.
  - split; try done; intros; rewrite ?Hf in * by done; eauto.
  - intros o Ho. rewrite <- Hc by done. unfold content. pose proof (off_range o Ho) as Hr. rewrite Hf by done.
    destruct (Z.eqb_spec (faddr v i (o / BSIZE)) 0); [done|]. rewrite Hv; [done..|]. right. eauto.
  - intros bn Hbn. rewrite Hf by done. auto.
Qed.

Lemma file_block_same v v' i c :
  (forall bn, 0 <= bn < MAXFILE -> faddr v' i bn = faddr v i bn) -> file_block v' i c <-> file_block v i c.
Proof. intros Hf. unfold file_block. split; (intros [|(bn & Hbn & He)]; [by left|right; exists bn; rewrite Hf in * by done; done]). Qed.

(** Which blocks of a file are missing *)
Lemma file_flags U v i d :
  is_file U v i d -> (indirect i =? 0) = negb (NDIRECT * BSIZE <? len d) /\
  forall bn, 0 <= bn < MAXFILE -> (faddr v i bn =? 0) = negb (bn * BSIZE <? len d).
Proof.
  intros [_ _ Ha Hi _]. split; [|intros bn Hbn; specialize (Ha bn Hbn)].
  - destruct (Z.ltb_spec (NDIRECT * BSIZE) (len d)), (Z.eqb_spec (indirect i) 0); cbn; (done || tauto || (exfalso; lia)).
  - destruct (Z.ltb_spec (bn * BSIZE) (len d)), (Z.eqb_spec (faddr v i bn) 0); cbn; (done || tauto || (exfalso; lia)).
Qed.

(** One turn of the loop of iappend: [p] goes to the block of the end. *)
Section Turn.
Context (i : inode) (d p : list Z) (s s1 : mkst) (r : inode * Z).
Context (Hb : base s) (Hfl : is_file (given s) (img s) i d) (Hp : 0 < len p <= (len d / BSIZE + 1) * BSIZE - len d).
Context (Hend : len d + len p <= MAXFILE * BSIZE) (Hr : sector_of i s (len d / BSIZE) r s1).

Let fbn := len d / BSIZE.
Let x := r.2.
Let data := put (len d - fbn * BSIZE) p (img s1 x).
Let s2 := with_sector x data s1.

Lemma turn_range : 0 <= fbn < MAXFILE /\ len d - fbn * BSIZE = len d `mod` BSIZE /\ len d `mod` BSIZE + len p <= BSIZE /\ 0 <= len d `mod` BSIZE.
Proof using Hp Hend. unfold fbn. clear - Hp Hend. unfold MAXFILE, NDIRECT, NINDIRECT, BSIZE in *. zlia. Qed.

Lemma turn_x : nmeta <= x < freeblock s1 /\ x < FSSIZE /\ len (img s1 x) = BSIZE.
Proof using All.
  pose proof turn_range as [Hf _]. destruct Hr as [[Hb1 _ _] Hg _ _ [Ha Hx] _]. fold x in Ha, Hx; fold fbn in Ha.
  assert (given s1 x) as [? ?] by (rewrite <- Ha; apply Hg; [done|by rewrite Ha]). pose proof (bs_free s1 Hb1). pose proof meta_blocks.
  split_and!; [lia..|]. apply (bs_len s1 Hb1). lia.
Qed.

Lemma turn_written : written (given s) (given s2) (img s) (img s2) i r.1 (get8 (d ++ p)).
Proof using All.
  pose proof turn_range as (Hf & Hoff & Hfit & Hm). pose proof turn_x as (Hx1 & Hx2 & Hx3). destruct Hr as [_ Hg _ _ [Ha Hx] _]. fold x in Ha, Hx; fold fbn in Ha.
  eapply written_ext; [|eapply written_trans; [exact (grown_written _ _ _ _ _ _ Hg)|apply (written_block (given s1) (given s2) (img s1) (img s2) r.1 fbn data)]];
    [|apply Hg|done|by rewrite Ha|rewrite Ha; cbn; apply fn_lookup_insert|intros c Hc; rewrite Ha in Hc; cbn; by rewrite fn_lookup_insert_ne|done].
  intros o Ho. cbv beta. unfold data. rewrite Hoff. unfold fbn.
  rewrite (overlay_block (len d) p (content (img s1) r.1) o (img s1 x)); try lia; [apply overlay_append; [lia|]|].
  - rewrite (gr_content _ _ _ _ _ _ Hg) by done. by apply (fl_content _ _ _ _ Hfl).
  - intros He. unfold content. rewrite He. fold fbn. rewrite Ha. by destruct (Z.eqb_spec x 0).
Qed.

Lemma turn_faddr bn : 0 <= bn < MAXFILE -> faddr (img s2) r.1 bn = faddr (img s1) r.1 bn.
Proof using All.
  pose proof turn_range as (Hf & _). pose proof turn_x as (Hx1 & _ & _). pose proof meta_blocks. destruct Hr as [_ Hg _ _ [Ha Hx] _]. fold x in Ha, Hx; fold fbn in Ha.
  intros Hbn. apply faddr_same. cbn. apply fn_lookup_insert_ne. rewrite <- Ha. apply (fo_ne _ _ _ (gr_ok _ _ _ _ _ _ Hg) fbn Hf). by rewrite Ha.
Qed.

Lemma turn_file : is_file (given s2) (img s2) r.1 (d ++ p).
Proof using All.
  pose proof turn_written as Hw. pose proof turn_range as (Hf & Hoff & Hfit & Hm). pose proof turn_faddr as Hfa.
  destruct Hr as [_ Hg _ Hind [Ha Hx] Hot]. destruct Hfl as [_ _ Hal Hin _]. fold x in Ha, Hx; fold fbn in Ha, Hind, Hot. split; rewrite ?length_app, ?Nat2Z.inj_add; try lia.
  - apply Hw.
  - apply Hw.
  - intros bn Hbn. rewrite Hfa by done. destruct (decide (bn = fbn)) as [->|Hne].
    + rewrite Ha. unfold fbn, BSIZE in *. split; [zlia|done].
    + rewrite Hot by done. rewrite Hal by done. unfold fbn, BSIZE in *. zlia.
  - rewrite Hind, Hin. unfold fbn, NDIRECT, BSIZE in *. zlia.
Qed.

Lemma turn_step : alloc_step s s2.
Proof using All.
  pose proof turn_range as (Hf & Hoff & Hfit & Hm). pose proof turn_x as (Hx1 & Hx2 & Hx3). pose proof meta_blocks. destruct Hr as [Hst _ _ _ _ _].
  eapply alloc_trans; [exact Hst|]. split; [|intros c Hc; cbn; by rewrite fn_lookup_insert_ne by (fold x; lia)|done].
  apply base_sector; [apply Hst|lia|]. unfold data. rewrite length_put; [done|]. unfold fits. lia.
Qed.

Lemma turn_free : freeblock s2 = freeblock s + need (len (d ++ p)) - need (len d).
Proof using All.
  pose proof turn_range as (Hf & _). destruct Hr as [_ _ Hfr _ _ _]. destruct (file_flags _ _ _ _ Hfl) as [Hind Hfa]. fold fbn in Hfr.
  rewrite length_app, Nat2Z.inj_add, need_turn by lia. fold fbn. cbn [freeblock s2 with_sector set_img]. rewrite Hfr, Hind, Hfa by done. lia.
Qed.
End Turn.

(** ** All files *)

Abbreviation files := (list (Z * list Z)).

Definition blocks_of (F : files) : Z := foldr (fun f n => need (len f.2) + n) 0 F.

Lemma blocks_of_cons f F : blocks_of (f :: F) = need (len f.2) + blocks_of F.
Proof. done. Qed.

Lemma blocks_of_app F G : blocks_of (F ++ G) = blocks_of F + blocks_of G.
Proof. induction F as [|f F IH]; [done|]. rewrite <- app_comm_cons, !blocks_of_cons. lia. Qed.

Lemma need_pos z : 0 <= z -> 0 <= need z.
Proof. intros Hz. apply (need_mono 0 z) in Hz. done. Qed.

Lemma blocks_of_insert F k f g : F !! k = Some f -> blocks_of (<[k := g]> F) = blocks_of F - need (len f.2) + need (len g.2).
Proof.
  intros Hk. rewrite insert_take_drop by (by eapply lookup_lt_Some). pose proof (f_equal blocks_of (take_drop_middle F k f Hk)) as He.
  rewrite !blocks_of_app, !blocks_of_cons in *. lia.
Qed.

(** The files [F], with the inodes [ino], which may be ahead of those on disk *)
Record image (ino : nat -> inode) (F : files) s : Prop := mkImage {
  im_base : base s;
  im_count : freeblock s = nmeta + blocks_of F;
  im_sb : decode_sb (img s 1) = sb;
  im_inodes : freeinode s = 1 + len F /\ 1 + len F <= NINODES;
  im_file : forall k f, F !! k = Some f -> is_file (given s) (img s) (ino k) f.2;
  im_apart : forall j k f g c, F !! j = Some f -> F !! k = Some g -> j <> k -> c <> 0 ->
    file_block (img s) (ino j) c -> ~ file_block (img s) (ino k) c;
}.

Lemma file_block_given U v i d c : is_file U v i d -> file_block v i c -> c <> 0 -> U c.
Proof. intros [Hok _ _ _ _] [->|(bn & Hbn & <-)] Hc; by apply Hok. Qed.

Lemma files_image_ext ino ino' F s : (forall k, (k < length F)%nat -> ino' k = ino k) -> image ino F s -> image ino' F s.
Proof.
  intros He [Hb Hc Hsb Hi Hf Ha]. split; try done.
  - intros k f Hk. rewrite He by (by eapply lookup_lt_Some). auto.
  - intros j k f g c Hj Hk. rewrite !He by (by eapply lookup_lt_Some). by eapply Ha.
Qed.

(** File [k] has got its new content; the others keep theirs. *)
Lemma image_written ino F s s' k f g i' :
  image ino F s -> F !! k = Some f -> alloc_step s s' ->
  written (given s) (given s') (img s) (img s') (ino k) i' (get8 g.2) -> is_file (given s') (img s') i' g.2 ->
  freeblock s' = freeblock s + need (len g.2) - need (len f.2) ->
  image (<[k := i']> ino) (<[k := g]> F) s'.
Proof.
  intros [Hb Hc Hsb Hi Hfi Hap] Hk [Hb' Hmeta Hfi'] Hw Hnew Hfree. pose proof meta_blocks.
  assert (forall j f', F !! j = Some f' -> j <> k -> is_file (given s') (img s') (ino j) f'.2 /\
    (forall bn, 0 <= bn < MAXFILE -> faddr (img s') (ino j) bn = faddr (img s) (ino j) bn)) as Hother.
  { intros j f' Hj Hne. apply (is_file_same (given s) _ (img s)); [by eapply Hfi| |apply Hw]. intros c Hc0 Hblk.
    apply Hw; [by eapply file_block_given; [by eapply Hfi|..]|done|by eapply (Hap j k)]. }
  assert (forall j f' c, F !! j = Some f' -> j <> k -> c <> 0 -> file_block (img s') (ino j) c -> ~ file_block (img s') i' c) as Hsep.
  { intros j f' c Hj Hne Hc0 Hblk Hblk'. apply (file_block_same (img s)) in Hblk; [|by eapply Hother].
    apply (wn_new _ _ _ _ _ _ _ Hw c Hblk' Hc0); [by eapply (Hap j k)|]. by eapply file_block_given; [by eapply Hfi|..]. }
  split; try done.
  - rewrite (blocks_of_insert F k f g Hk). lia.
  - rewrite Hmeta by lia. done.
  - by rewrite Hfi', length_insert.
  - intros j f' Hj. destruct (decide (j = k)) as [->|Hne].
    + rewrite list_lookup_insert_eq in Hj by (by eapply lookup_lt_Some). inversion Hj; subst. by rewrite fn_lookup_insert.
    + rewrite list_lookup_insert_ne in Hj by done. rewrite fn_lookup_insert_ne by done. by eapply Hother.
  - intros j l f1 f2 c Hj Hl Hne Hc0. destruct (decide (j = k)) as [->|Hjk].
    + rewrite list_lookup_insert_ne in Hl by done. rewrite fn_lookup_insert, fn_lookup_insert_ne by done. intros H1 H2. by apply (Hsep l f2 c).
    + rewrite list_lookup_insert_ne in Hj by done. rewrite (fn_lookup_insert_ne ino k j) by done. destruct (decide (l = k)) as [->|Hlk].
      * rewrite fn_lookup_insert. by eapply Hsep.
      * rewrite list_lookup_insert_ne in Hl by done. rewrite fn_lookup_insert_ne by done.
        rewrite (file_block_same (img s) (img s') (ino j) c) by (by eapply Hother).
        rewrite (file_block_same (img s) (img s') (ino l) c) by (by eapply Hother). by eapply Hap.
Qed.

(** ** iappend *)

Definition appended (k : nat) (i : inode) (ino : nat -> inode) (F : files) s (r : inode * Z) s' (g : Z * list Z) : Prop :=
  r.2 = len g.2 /\ image (<[k := r.1]> ino) (<[k := g]> F) s' /\ r.1 = set_i_addrs (i_addrs r.1) i /\
  (forall c, c < nmeta -> img s' c = img s c).

Lemma iappend_loop_ok fuel k p : forall ino F s t d,
  image ino F s -> F !! k = Some (t, d) -> len d + len p <= MAXFILE * BSIZE ->
  freeblock s + need (len d + len p) - need (len d) <= FSSIZE -> (length p < fuel)%nat ->
  wp (iappend_loop fuel (ino k) (len d) p) (fun r s' => appended k (ino k) ino F s r s' (t, d ++ p)) s.
Proof.
  revert p. induction fuel as [|fuel IH]; intros p ino F s t d Him Hk Hend Hfree Hfuel; [lia|]. cbn [iappend_loop].
  destruct (Z.ltb_spec 0 (len p)) as [Hp|Hp]; cycle 1.
  { destruct p; [|cbn in Hp; lia]. apply wp_ret. unfold appended. cbn [fst snd]. rewrite app_nil_r, list_insert_id by done. split_and!; try done; [|by destruct (ino k)].
    eapply files_image_ext; [|exact Him]. intros j _. destruct (decide (j = k)) as [->|]; [by rewrite fn_lookup_insert|by rewrite fn_lookup_insert_ne]. }
  set (fbn := len d / BSIZE). set (n1 := Z.min (len p) ((fbn + 1) * BSIZE - len d)). set (p1 := take (Z.to_nat n1) p).
  assert (0 < n1 <= len p) as Hn1 by (unfold n1, fbn, BSIZE; zlia).
  assert (len p1 = n1) as Hl1 by (unfold p1; rewrite length_take; lia).
  assert (0 < len p1 <= (len d / BSIZE + 1) * BSIZE - len d) as Hp1 by (rewrite Hl1; unfold n1, fbn; lia).
  assert (0 <= fbn < MAXFILE) as Hfbn by (unfold fbn, MAXFILE, NDIRECT, NINDIRECT, BSIZE in *; zlia).
  pose proof (im_base _ _ _ Him) as Hb. pose proof (im_file _ _ _ Him k _ Hk) as Hfl. cbn [snd] in Hfl.
  destruct (Z.leb_spec MAXFILE fbn); [lia|]. apply wp_bind. eapply wp_mono.
  { apply (file_sector_ok (ino k) fbn s Hb); [apply Hfl|done|].
    assert (need (len d + n1) <= need (len d + len p)) as Hmono by (apply need_mono; lia).
    rewrite need_turn in Hmono by (unfold fbn in *; lia). fold fbn in Hmono.
    destruct (file_flags _ _ _ _ Hfl) as [-> Hfa]. rewrite Hfa by done. lia. }
  intros [i1 x] s1 Hr. assert (len d + len p1 <= MAXFILE * BSIZE) as Hend1 by lia. fold n1 p1.
  pose proof (turn_x (ino k) d p1 s s1 (i1, x) Hb Hfl Hp1 Hend1 Hr) as (Hx1 & Hx2 & Hx3).
  pose proof (turn_written (ino k) d p1 s s1 (i1, x) Hb Hfl Hp1 Hend1 Hr) as Hw.
  pose proof (turn_file (ino k) d p1 s s1 (i1, x) Hb Hfl Hp1 Hend1 Hr) as Hf2.
  pose proof (turn_step (ino k) d p1 s s1 (i1, x) Hb Hfl Hp1 Hend1 Hr) as Hst.
  pose proof (turn_free (ino k) d p1 s s1 (i1, x) Hb Hfl Hp1 Hend1 Hr) as Hfr. cbn [fst snd] in *. fold fbn in Hw, Hf2, Hst, Hfr.
  pose proof (so_step _ _ _ _ _ Hr) as Hst1. pose proof meta_blocks.
  apply wp_bind, rsect_ok; [apply Hst1|lia|]. apply wp_bind, wsect_ok; [apply Hst1|lia|]. set (s2 := with_sector _ _ s1) in *.
  pose proof (image_written ino F s s2 k (t, d) (t, d ++ p1) i1 Him Hk Hst Hw Hf2 Hfr) as Him2.
  pose proof (IH (drop (Z.to_nat n1) p) (<[k := i1]> ino) (<[k := (t, d ++ p1)]> F) s2 t (d ++ p1) Him2) as Hnext.
  rewrite fn_lookup_insert, !length_app, length_drop, Nat2Z.inj_add, Hl1 in Hnext. rewrite length_app, Nat2Z.inj_add, Hl1 in Hfr.
  eapply wp_mono; [apply Hnext|].
  - apply list_lookup_insert_eq. by eapply lookup_lt_Some.
  - lia.
  - replace (len d + n1 + Z.of_nat (length p - Z.to_nat n1)) with (len d + len p) by lia. lia.
  - lia.
  - intros r s' (H1 & H2 & H3 & H4). unfold appended. rewrite <- app_assoc in *. unfold p1 in *. rewrite take_drop in *. split_and!; [done| | |].
    + rewrite list_insert_insert_eq in H2. eapply files_image_ext; [|exact H2]. intros j _.
      destruct (decide (j = k)) as [->|]; [by rewrite !fn_lookup_insert|by rewrite !fn_lookup_insert_ne].
    + rewrite H3. cbn [i_addrs]. rewrite (wn_rest _ _ _ _ _ _ _ Hw). done.
    + intros c Hc. rewrite H4 by done. by apply Hst.
Qed.

(** ** The image between the calls of main *)

(** A change outside the data blocks and the superblock *)
Lemma image_meta ino F s s' :
  image ino F s -> base s' -> img s' 1 = img s 1 -> (forall c, nmeta <= c -> img s' c = img s c) ->
  freeblock s' = freeblock s -> freeinode s' = freeinode s -> image ino F s'.
Proof.
  intros [Hb Hc Hsb Hi Hf Ha] Hb' H1 Hv Hfb Hfi.
  assert (forall k f, F !! k = Some f -> is_file (given s') (img s') (ino k) f.2 /\
    (forall bn, 0 <= bn < MAXFILE -> faddr (img s') (ino k) bn = faddr (img s) (ino k) bn)) as Hsame.
  { intros k f Hk. apply (is_file_same (given s) _ (img s)); [by eapply Hf| |unfold given; by rewrite Hfb].
    intros c Hc0 Hblk. apply Hv. by eapply (file_block_given (given s)); [by eapply Hf|..]. }
  split; rewrite ?Hfb, ?Hfi, ?H1; try done; [intros; by eapply Hsame|].
  intros j k f g c Hj Hk Hne Hc0. rewrite (file_block_same (img s)) by (by eapply Hsame).
  rewrite (file_block_same (img s) (img s') (ino k)) by (by eapply Hsame). by eapply Ha.
Qed.

Definition ino_at s (k : nat) : inode := dinode_at (img s) (Z.of_nat k + 1).

Record header i (f : Z * list Z) : Prop := mkHeader {
  hd_din : din_ok i;
  hd_type : i_type i = f.1;
  hd_nlink : i_nlink i = 1;
  hd_size : i_size i = len f.2;
}.

Definition disk_ok (F : files) s : Prop := image (ino_at s) F s /\ forall k f, F !! k = Some f -> header (ino_at s k) f.

Lemma inum_range F k f s : disk_ok F s -> F !! k = Some f -> 0 <= Z.of_nat k + 1 < NINODES.
Proof. intros [Him _] Hk%lookup_lt_Some. pose proof (im_inodes _ _ _ Him). lia. Qed.

Lemma file_addrs U v i d : is_file U v i d -> (forall c, U c -> is_u32 c) -> Forall is_u32 (i_addrs i).
Proof.
  intros [[Hl _ Ha Hi _ _] _ _ _ _] HU. apply Forall_lookup. intros j a Hj.
  assert (a = addr_of i (Z.of_nat j)) as -> by (unfold addr_of; by rewrite Nat2Z.id, nth_lookup, Hj).
  pose proof (lookup_lt_Some _ _ _ Hj). destruct (decide (j = 12%nat)) as [->|Hne].
  - change (addr_of i (Z.of_nat 12)) with (indirect i). destruct (decide (indirect i = 0)) as [->|Hn]; [done|auto].
  - specialize (Ha (Z.of_nat j)). unfold faddr in Ha. destruct (Z.ltb_spec (Z.of_nat j) NDIRECT); [|unfold NDIRECT in *; lia].
    destruct (decide (addr_of i (Z.of_nat j) = 0)) as [->|Hn]; [done|]. apply HU, Ha; [|done]. unfold MAXFILE, NDIRECT, NINDIRECT, BSIZE. zlia.
Qed.

Lemma din_ok_update i z a : din_ok i -> is_u32 z -> length a = 13%nat -> Forall is_u32 a -> din_ok (set_i_size z (set_i_addrs a i)).
Proof.
  intros [Hsh ? ? ? ? ? ? ?] Hz Hl Ha. destruct i as [? ? ? ? ? t mj mn nl sz addrs]. cbn in *. inversion Hsh; subst. by split.
Qed.

(** Inode [k] is written back with the length of its file. *)
Lemma write_back F k f g i1 s s1 :
  disk_ok F s -> F !! k = Some f -> g.1 = f.1 ->
  image (<[k := i1]> (ino_at s)) (<[k := g]> F) s1 -> i1 = set_i_addrs (i_addrs i1) (ino_at s k) ->
  (forall c, c < nmeta -> img s1 c = img s c) ->
  disk_ok (<[k := g]> F) (with_inode (Z.of_nat k + 1) (set_i_size (len g.2) i1) s1).
Proof.
  intros Hd Hk Hg Him1 Hi1 Hmeta. pose proof (inum_range F k f s Hd Hk) as Hn. destruct Hd as [Him Hhd].
  set (n := Z.of_nat k + 1) in *. set (i2 := set_i_size (len g.2) i1). pose proof (lookup_lt_Some _ _ _ Hk) as Hkl. pose proof meta_blocks.
  assert (is_file (given s1) (img s1) i1 g.2) as Hfl.
  { pose proof (im_file _ _ _ Him1 k g) as Hf. rewrite fn_lookup_insert in Hf. apply Hf. by apply list_lookup_insert_eq. }
  pose proof (im_base _ _ _ Him1) as Hb1. pose proof (bs_free s1 Hb1). pose proof (fl_len _ _ _ _ Hfl) as Hlen.
  assert (length (i_addrs i2) = 13%nat) as Hl2 by apply Hfl.
  destruct (Hhd k f Hk) as [Hdin0 Hty Hln _].
  assert (din_ok i2) as Hdin.
  { unfold i2. rewrite Hi1. apply din_ok_update; [done| |done|].
    - unfold is_u32, MAXFILE, NDIRECT, NINDIRECT, BSIZE, u32_mod in *. zlia.
    - eapply file_addrs; [exact Hfl|]. unfold given, is_u32, u32_mod. lia. }
  assert (forall j, (j < length F)%nat -> ino_at (with_inode n i2 s1) j = if decide (j = k) then i2 else ino_at s j) as Hat.
  { intros j Hj. unfold ino_at. case_decide as Hjk; [subst j; by apply with_inode_at|].
    assert (0 <= Z.of_nat j + 1 < NINODES) by (pose proof (im_inodes _ _ _ Him); lia).
    rewrite with_inode_other by (done || lia). apply dinode_at_same; [done|]. intros c Hc. apply Hmeta. lia. }
  split.
  - eapply files_image_ext; [|eapply (image_meta (<[k := i2]> (ino_at s)))].
    + intros j Hj. rewrite length_insert in Hj. rewrite Hat by done. case_decide; [subst; by rewrite fn_lookup_insert|by rewrite fn_lookup_insert_ne].
    + destruct Him1 as [H1 H2 H3 H4 H5 H6]. split; try done.
      * intros j f' Hj. specialize (H5 j f' Hj). destruct (decide (j = k)) as [->|]; rewrite ?fn_lookup_insert, ?fn_lookup_insert_ne in * by done; [|done].
        destruct H5 as [? ? ? ? ?]. split; try done. by apply file_ok_size.
      * intros j l f1 f2 c Hj Hl Hne. specialize (H6 j l f1 f2 c Hj Hl Hne).
        destruct (decide (j = k)) as [->|], (decide (l = k)) as [->|]; rewrite ?fn_lookup_insert, ?fn_lookup_insert_ne in * by done; done.
    + by apply base_inode.
    + apply with_inode_sector; [done|lia].
    + intros c Hc. apply with_inode_sector; [done|lia].
    + done.
    + done.
  - intros j f' Hj. pose proof (lookup_lt_Some _ _ _ Hj) as Hjl. rewrite length_insert in Hjl. rewrite Hat by done. case_decide as Hjk.
    + subst j. rewrite list_lookup_insert_eq in Hj by done. inversion Hj; subst f'.
      split; [done|unfold i2; rewrite Hi1; exact (eq_trans Hty (eq_sym Hg))|unfold i2; rewrite Hi1; exact Hln|done].
    + rewrite list_lookup_insert_ne in Hj by done. auto.
Qed.

Lemma iappend_ok F k t d p s :
  disk_ok F s -> F !! k = Some (t, d) -> len d + len p <= MAXFILE * BSIZE ->
  nmeta + blocks_of (<[k := (t, d ++ p)]> F) <= FSSIZE ->
  wp (iappend (Z.of_nat k + 1) p) (fun _ s' => disk_ok (<[k := (t, d ++ p)]> F) s') s.
Proof.
  intros Hd Hk Hend Hfree. pose proof (inum_range F k _ s Hd Hk) as Hn. pose proof Hd as [Him Hhd]. pose proof (hd_size _ _ (Hhd _ _ Hk)) as Hsz.
  unfold iappend. apply wp_bind, rinode_ok; [apply Him|done|]. fold (ino_at s k). rewrite Hsz. cbn [snd].
  rewrite (blocks_of_insert F k (t, d)) in Hfree by done. cbn [snd] in Hfree. rewrite length_app, Nat2Z.inj_add in Hfree.
  apply wp_bind. eapply wp_mono; [apply (iappend_loop_ok _ k p (ino_at s) F s t d Him Hk Hend)|]; [|lia|].
  { rewrite (im_count _ _ _ Him). lia. }
  intros [i1 off] s1 (Hoff & Him1 & Hi1 & Hmeta). cbn [fst snd] in *. subst off. apply winode_ok; [apply Him1|done|].
  exact (write_back F k (t, d) (t, d ++ p) i1 s s1 Hd Hk eq_refl Him1 Hi1 Hmeta).
Qed.

(** ** ialloc *)

Definition new_dinode (t : Z) : inode := set_i_size 0 (set_i_nlink 1 (set_i_type t no_dinode)).

Lemma new_dinode_ok t : 0 <= t < 32768 -> header (new_dinode t) (t, []).
Proof.
  intros Ht. split; [split; try (cbn; lia); try done|done..].
  cbn. repeat (apply Forall_cons; split; [done|]). by apply Forall_nil.
Qed.

Lemma new_faddr v t bn : faddr v (new_dinode t) bn = 0.
Proof.
  assert (forall k, addr_of (new_dinode t) k = 0) as Ha.
  { intros k. change (nth (Z.to_nat k) (repeat 0 13) 0 = 0). apply nth_repeat. }
  unfold faddr. case_match; [apply Ha|]. unfold indirect. by rewrite Ha.
Qed.

Lemma new_is_file U v t : is_file U v (new_dinode t) [].
Proof.
  split; try done.
  - split; try done; intros; rewrite ?new_faddr in *; done.
  - intros o Ho. unfold content. rewrite new_faddr. change (0 = get8 [] o). symmetry. apply get8_beyond. cbn. lia.
  - intros bn Hbn. rewrite new_faddr. unfold BSIZE. cbn. lia.
Qed.

Lemma ialloc_ok F t s :
  disk_ok F s -> 0 <= t < 32768 -> 1 + len F < NINODES ->
  wp (ialloc t) (fun n s' => n = len F + 1 /\ disk_ok (F ++ [(t, [])]) s') s.
Proof.
  intros [Him Hhd] Ht Hlt. pose proof Him as [Hb Hc Hsb [Hfi _] Hf Hap]. pose proof meta_blocks.
  unfold ialloc. apply wp_bind, wp_gets, wp_bind, wp_modify. unfold u32.
  rewrite Hfi, (Z.mod_small (1 + len F + 1)) by (unfold NINODES, u32_mod in *; lia). fold (new_dinode t).
  set (s1 := set_freeinode _ s). assert (base s1) as Hb1 by (by destruct Hb; split).
  apply wp_bind, winode_ok; [done|lia|]. apply wp_ret. split; [lia|]. set (n := 1 + len F). set (s2 := with_inode n (new_dinode t) s1).
  assert (ino_at s2 (length F) = new_dinode t) as Hnew.
  { unfold ino_at. replace (len F + 1) with n by (unfold n; lia). apply with_inode_at; [done|unfold n; lia|done|by apply new_dinode_ok]. }
  assert (forall k, (k < length F)%nat -> ino_at s2 k = ino_at s k) as Hold.
  { intros k Hk. unfold ino_at. apply (with_inode_other n _ s1); (done || (unfold n; lia)). }
  assert (image (ino_at s) F (set_freeinode (1 + len F) s2)) as Him2.
  { apply (image_meta (ino_at s) F s); try done; [|apply (with_inode_sector n _ s1); lia|intros c Hc'; apply (with_inode_sector n _ s1); lia].
    assert (base s2) as [? ? ? ?] by (apply base_inode; [done|unfold n; lia|done]). by split. }
  pose proof Him2 as [_ _ Hsb2 _ Hf2 Hap2].
  assert (forall k f, (F ++ [(t, [])]) !! k = Some f -> F !! k = Some f /\ (k < length F)%nat \/ k = length F /\ f = (t, [])) as Hcases.
  { intros k f Hk. destruct (decide (k < length F)%nat); [left; by rewrite lookup_app_l in Hk by done|]. right.
    rewrite lookup_app_r in Hk by lia. destruct (k - length F)%nat eqn:He; [|done]. inversion Hk. split; [lia|done]. }
  split.
  - split.
    + apply base_inode; [done|unfold n; lia|done].
    + rewrite blocks_of_app. change (blocks_of [(t, [])]) with 0. change (freeblock s2) with (freeblock s). lia.
    + exact Hsb2.
    + rewrite length_app. change (freeinode s2) with (1 + len F + 1). cbn. lia.
    + intros k f [[Hk Hl]|[-> ->]]%Hcases; [rewrite Hold by done; exact (Hf2 k f Hk)|]. rewrite Hnew. apply new_is_file.
    + assert (forall c, c <> 0 -> ~ file_block (img s2) (new_dinode t) c) as Hno.
      { intros c Hc0 [He|(bn & _ & He)]; [exact (Hc0 He)|]. rewrite new_faddr in He. congruence. }
      intros j k f g c [[Hj Hjl]|[-> ->]]%Hcases [[Hk Hkl]|[-> ->]]%Hcases Hne Hc0; rewrite ?Hnew, ?Hold by done;
        [by apply (Hap2 j k f g)|intros _; by apply Hno|intros H1; by destruct (Hno c)|done].
  - intros k f [[Hk Hl]|[-> ->]]%Hcases; [rewrite Hold by done; auto|]. rewrite Hnew. by apply new_dinode_ok.
Qed.

(** ** The files of the command line *)

Lemma disk_insert_same F k f s : F !! k = Some f -> disk_ok F s -> disk_ok (<[k := f]> F) s.
Proof. intros Hk. by rewrite list_insert_id. Qed.

Lemma copy_file_ok fuel k data : forall F t d s,
  disk_ok F s -> F !! k = Some (t, d) -> len d + len data <= MAXFILE * BSIZE ->
  nmeta + blocks_of (<[k := (t, d ++ data)]> F) <= FSSIZE -> (length data < fuel)%nat ->
  wp (copy_file fuel (Z.of_nat k + 1) data) (fun _ s' => disk_ok (<[k := (t, d ++ data)]> F) s') s.
Proof.
  revert data. induction fuel as [|fuel IH]; intros data F t d s Hd Hk Hend Hfree Hfuel; [lia|]. cbn [copy_file].
  destruct data as [|x data]; [apply wp_ret; rewrite app_nil_r; by apply disk_insert_same|].
  remember (x :: data) as l eqn:Hl. assert (0 < length l)%nat by (subst; cbn; lia). clear Hl x data.
  pose proof (take_drop (Z.to_nat BSIZE) l) as Htd. set (l1 := take _ l) in *. set (l2 := drop _ l) in *.
  assert (0 < length l1)%nat by (unfold l1, BSIZE; rewrite length_take; lia).
  assert (length l = length l1 + length l2)%nat by (rewrite <- Htd, length_app; done).
  assert (blocks_of (<[k := (t, d ++ l1)]> F) <= blocks_of (<[k := (t, d ++ l)]> F)) as Hmono.
  { rewrite !(blocks_of_insert F k (t, d)) by done. cbn [snd]. rewrite !length_app.
    pose proof (need_mono (Z.of_nat (length d + length l1)) (Z.of_nat (length d + length l)) ltac:(lia)). lia. }
  apply wp_bind. eapply wp_mono; [apply (iappend_ok F k t d l1 s Hd Hk); lia|]. intros [] s1 Hd1. cbv beta.
  assert ((d ++ l1) ++ l2 = d ++ l) as Happ by (by rewrite <- app_assoc, Htd).
  eapply wp_mono; [apply (IH l2 (<[k := (t, d ++ l1)]> F) t (d ++ l1) s1 Hd1)|].
  - apply list_lookup_insert_eq. by eapply lookup_lt_Some.
  - rewrite length_app. lia.
  - rewrite Happ, list_insert_insert_eq. done.
  - lia.
  - intros [] s2. by rewrite Happ, list_insert_insert_eq.
Qed.

Lemma length_strncpy n t : length (strncpy_bytes n t) = n.
Proof. revert t. induction n as [|n IH]; intros t; [done|]. cbn [strncpy_bytes]. case_match; [apply repeat_length|]. cbn. by rewrite IH. Qed.

Lemma length_dirent n name : length (dirent n name) = 16%nat.
Proof. unfold dirent. rewrite length_app, length_strncpy. done. Qed.

(** The entries of the files with inode numbers from [n] on *)
Fixpoint entries (n : Z) (fs : list (list Z * list Z)) : list Z :=
  match fs with
  | [] => []
  | f :: fs' => dirent n (skip_underscore f.1) ++ entries (n + 1) fs'
  end.

Definition root_data (fs : list (list Z * list Z)) : list Z := dirent 1 [46] ++ dirent 1 [46; 46] ++ entries 2 fs.

(** The files of the image: the root directory, and the given ones *)
Definition tree (fs : list (list Z * list Z)) : files := (T_DIR, root_data fs) :: ((fun f => (T_FILE, f.2)) <$> fs).

Lemma length_entries n fs : len (entries n fs) = 16 * len fs.
Proof. revert n. induction fs as [|f fs IH]; intros n; [done|]. cbn [entries]. rewrite length_app, length_dirent, Nat2Z.inj_add, IH. cbn [length]. lia. Qed.

Lemma length_root fs : len (root_data fs) = 16 * (len fs + 2).
Proof. unfold root_data. rewrite !length_app, !length_dirent. pose proof (length_entries 2 fs). lia. Qed.

Lemma entries_app n fs f : entries n (fs ++ [f]) = entries n fs ++ dirent (n + len fs) (skip_underscore f.1).
Proof.
  revert n. induction fs as [|g fs IH]; intros n; cbn [entries app length]; [rewrite app_nil_r; f_equal; lia|].
  rewrite IH, <- app_assoc. do 3 f_equal. lia.
Qed.

Lemma root_app fs f : root_data (fs ++ [f]) = root_data fs ++ dirent (len fs + 2) (skip_underscore f.1).
Proof. unfold root_data. rewrite entries_app, <- !app_assoc. by rewrite (Z.add_comm (len fs) 2). Qed.

Lemma tree_app fs f : tree (fs ++ [f]) = (T_DIR, root_data fs ++ dirent (len fs + 2) (skip_underscore f.1)) ::
  ((fun f => (T_FILE, f.2)) <$> fs) ++ [(T_FILE, f.2)].
Proof. unfold tree. by rewrite root_app, fmap_app. Qed.

Lemma length_tree fs : len (tree fs) = len fs + 1.
Proof. unfold tree. cbn [length]. rewrite length_fmap. lia. Qed.

(** What the command line and the files on the host satisfy *)
Record input_ok (host : list Z -> option (list Z)) (fs : list (list Z * list Z)) : Prop := mkInputOk {
  in_names : Forall (fun f => ~ 47 ∈ f.1) fs;
  in_data : Forall (fun f => host f.1 = Some f.2) fs;
  in_sizes : Forall (fun f => len f.2 <= MAXFILE * BSIZE) fs;
  in_inodes : 2 + len fs <= NINODES;
  in_blocks : nmeta + blocks_of (tree fs) <= FSSIZE;
}.

Lemma add_file_ok host fs f s :
  disk_ok (tree fs) s -> ~ 47 ∈ f.1 -> host f.1 = Some f.2 -> len f.2 <= MAXFILE * BSIZE -> 3 + len fs <= NINODES ->
  nmeta + blocks_of (tree (fs ++ [f])) <= FSSIZE ->
  wp (add_file host ROOTINO f.1) (fun _ s' => disk_ok (tree (fs ++ [f])) s') s.
Proof.
  intros Hd Hname Hhost Hlen Hin Hfree. pose proof (length_tree fs) as Hlt. pose proof (length_root fs) as Hlr.
  unfold add_file. rewrite bool_decide_false by done. rewrite Hhost.
  apply wp_bind. eapply wp_mono; [apply (ialloc_ok (tree fs) T_FILE s Hd); [done|lia]|]. intros n s1 [-> Hd1]. cbv beta.
  rewrite tree_app in Hfree |- *. set (rest := (fun f => (T_FILE, f.2)) <$> fs) in *.
  assert (len rest = len fs) as Hlf by (unfold rest; by rewrite length_fmap).
  replace (len (tree fs) + 1) with (len fs + 2) by lia. set (de := dirent (len fs + 2) (skip_underscore f.1)) in *.
  assert (length de = 16%nat) as Hde by apply length_dirent.
  change (tree fs ++ [(T_FILE, [])]) with ((T_DIR, root_data fs) :: rest ++ [(T_FILE, [])]) in Hd1.
  rewrite blocks_of_cons, blocks_of_app, blocks_of_cons in Hfree. cbn [snd] in Hfree.
  pose proof (need_pos (len f.2) ltac:(lia)) as Hpos. change (blocks_of []) with 0 in Hfree.
  apply wp_bind. eapply wp_mono; [apply (iappend_ok _ 0 T_DIR (root_data fs) de s1 Hd1 eq_refl)|].
  { rewrite Hlr, Hde. unfold NINODES, MAXFILE, NDIRECT, NINDIRECT, BSIZE in *. zlia. }
  { change (<[0%nat := ?g]> (?x :: ?l)) with (g :: l). rewrite blocks_of_cons, blocks_of_app. change (blocks_of [(T_FILE, [])]) with 0. cbn [snd]. lia. }
  intros [] s2 Hd2. cbv beta. cbn [insert list_insert] in Hd2. change (<[0%nat := ?g]> (?x :: ?l)) with (g :: l) in Hd2.
  replace (len fs + 2) with (Z.of_nat (S (length rest)) + 1) by lia.
  assert (forall g, <[S (length rest) := g]> ((T_DIR, root_data fs ++ de) :: rest ++ [(T_FILE, [])]) = (T_DIR, root_data fs ++ de) :: rest ++ [g]) as Hins.
  { intros g. rewrite !app_comm_cons, insert_app_r_alt by (cbn; lia). cbn [length]. by rewrite Nat.sub_diag. }
  eapply wp_mono; [apply (copy_file_ok _ (S (length rest)) f.2 _ T_FILE [] s2 Hd2)|].
  - rewrite app_comm_cons, lookup_app_r by (cbn; lia). cbn [length]. by rewrite Nat.sub_diag.
  - cbn. lia.
  - rewrite Hins, blocks_of_cons, blocks_of_app, blocks_of_cons. cbn [snd app]. change (blocks_of []) with 0. lia.
  - lia.
  - intros [] s3. rewrite Hins. done.
Qed.

(** ** main *)

Lemma length_zeroes : len zeroes = BSIZE.
Proof. exact zeros_length. Qed.

Lemma clear_ok s :
  nsect s = 0 -> freeblock s = nmeta -> freeinode s = 1 ->
  wp (for_each (seqZ 0 FSSIZE) (fun k => wsect k zeroes)) (fun _ s' => base s' /\ freeblock s' = nmeta /\ freeinode s' = 1) s.
Proof.
  intros Hn Hfb Hfi. pose proof meta_blocks.
  apply (wp_for_each (fun done_ s1 => nsect s1 = len done_ /\ (forall c, 0 <= c < len done_ -> img s1 c = zeroes) /\
    freeblock s1 = nmeta /\ freeinode s1 = 1)).
  - split_and!; try done. cbn. lia.
  - intros done_ x todo s1 Hl (H1 & H2 & H3 & H4).
    assert (seqZ 0 FSSIZE !! length done_ = Some x) as Hx by (rewrite Hl; by apply list_lookup_middle).
    apply lookup_seqZ in Hx as [-> Hlt]. unfold wsect. destruct (Z.ltb_spec FSSIZE (0 + len done_)); [lia|]. apply wp_modify.
    rewrite length_app. cbn [length nsect img freeblock freeinode set_nsect set_img]. split_and!; [lia| |done|done].
    intros c Hc. destruct (decide (c = 0 + len done_)) as [->|]; [by rewrite fn_lookup_insert|]. rewrite fn_lookup_insert_ne by done. apply H2. lia.
  - intros s' (H1 & H2 & H3 & H4). rewrite length_seqZ, Z2Nat.id in * by lia. split; [|done]. split; [done| |lia|].
    + intros c Hc. rewrite H2 by done. apply length_zeroes.
    + intros c Hc. rewrite H2 by lia. done.
Qed.

Lemma empty_image s :
  base s -> freeblock s = nmeta -> freeinode s = 1 -> disk_ok [] (with_sector 1 (put 0 sb_bytes zeroes) s).
Proof.
  intros Hb Hfb Hfi. pose proof meta_blocks. split; [|done]. split; try done.
  - apply base_sector; [done|lia|]. rewrite length_put; [apply length_zeroes|]. unfold fits. rewrite length_zeroes. done.
Qed.

(** The bitmap that balloc writes: the first [used] bits *)
Lemma bitmap_bits used b :
  0 <= used < BPB -> 0 <= b < BPB ->
  len (foldl (fun buf k => mark_bit k buf) zeroes (seqZ 0 used)) = BSIZE /\
  bit_set (foldl (fun buf k => mark_bit k buf) zeroes (seqZ 0 used)) b = (b <? used).
Proof.
  intros [Hu Hu']. revert Hu' b. pattern used. apply natlike_ind; [|clear used Hu|done].
  - intros _ b Hb. split; [exact zeros_length|]. cbn [foldl seqZ]. unfold bit_set. change (seqZ 0 0) with (@nil Z). cbn [foldl].
    rewrite get8_zeros, Z.testbit_0_l. destruct (Z.ltb_spec b 0); [lia|done].
  - intros used Hu IH Hlt b Hb. unfold Z.succ in *. rewrite seqZ_app, (seqZ_cons (0 + used)), (seqZ_nil (Z.succ (0 + used))) by lia.
    rewrite foldl_app. cbn [foldl]. destruct (IH ltac:(lia) b Hb) as [Hl Hbit]. rewrite Z.add_0_l.
    split; [apply length_mark; [done|lia]|]. rewrite bit_set_mark, Hbit by (done || lia).
    destruct (Z.eqb_spec b used), (Z.ltb_spec b used), (Z.ltb_spec b (used + 1)); (done || lia).
Qed.

(** The image of the files [fs], with the blocks below [fb] in use.  The size of
    the root directory is rounded up to the next block boundary beyond its
    entries. *)
Definition root_size (fs : list (list Z * list Z)) : Z := (len (root_data fs) / BSIZE + 1) * BSIZE.

Record made (fs : list (list Z * list Z)) (v : Z -> block) (fb : Z) : Prop := mkMade {
  md_sb : decode_sb (v 1) = sb;
  md_len : forall c, 0 <= c < FSSIZE -> len (v c) = BSIZE;
  md_free : fb = nmeta + blocks_of (tree fs) /\ fb <= FSSIZE;
  md_bitmap : forall b, 0 <= b < FSSIZE -> bit_set (v (BBLOCK b sb)) (b `mod` BPB) = (b <? fb);
  md_file : forall k f, tree fs !! k = Some f ->
    is_file (fun c => nmeta <= c < fb) v (dinode_at v (Z.of_nat k + 1)) f.2 /\
    i_type (dinode_at v (Z.of_nat k + 1)) = f.1 /\ i_nlink (dinode_at v (Z.of_nat k + 1)) = 1 /\
    i_size (dinode_at v (Z.of_nat k + 1)) = if decide (k = 0%nat) then root_size fs else len f.2;
  md_apart : forall j k f g c, tree fs !! j = Some f -> tree fs !! k = Some g -> j <> k -> c <> 0 ->
    file_block v (dinode_at v (Z.of_nat j + 1)) c -> ~ file_block v (dinode_at v (Z.of_nat k + 1)) c;
}.

(** After fix_root *)
Definition sized (fs : list (list Z * list Z)) s : Prop :=
  image (ino_at s) (tree fs) s /\ forall k f, tree fs !! k = Some f ->
    i_type (ino_at s k) = f.1 /\ i_nlink (ino_at s k) = 1 /\ i_size (ino_at s k) = if decide (k = 0%nat) then root_size fs else len f.2.

Lemma image_sizes ino ino' F s :
  (forall k, (k < length F)%nat -> exists z, ino' k = set_i_size z (ino k)) -> image ino F s -> image ino' F s.
Proof.
  intros He [Hb Hc Hsb Hi Hf Ha]. split; try done.
  - intros k f Hk. specialize (Hf k f Hk). destruct (He k) as [z ->]; [by eapply lookup_lt_Some|].
    destruct Hf as [? ? ? ? ?]. split; try done. by apply file_ok_size.
  - intros j k f g c Hj Hk. destruct (He j) as [y ->]; [by eapply lookup_lt_Some|]. destruct (He k) as [z ->]; [by eapply lookup_lt_Some|]. exact (Ha j k f g c Hj Hk).
Qed.

Lemma din_ok_size i z : din_ok i -> is_u32 z -> din_ok (set_i_size z i).
Proof. intros [Hsh ? ? ? ? ? ? ?] Hz. destruct i as [? ? ? ? ? t mj mn nl sz addrs]. cbn in *. inversion Hsh; subst. by split. Qed.

Lemma set_size_same i : set_i_size (i_size i) i = i.
Proof. by destruct i. Qed.

Lemma fix_root_ok fs s : disk_ok (tree fs) s -> 2 + len fs <= NINODES -> wp (fix_root ROOTINO) (fun _ s' => sized fs s') s.
Proof.
  intros [Him Hhd] Hn. pose proof (im_base _ _ _ Him) as Hb. pose proof meta_blocks as (Hm1 & Hm2 & Hm3 & Hm4).
  pose proof (length_root fs) as Hlr. destruct (Hhd 0%nat _ eq_refl) as [Hdin Hty Hnl Hsz]. cbn [fst snd] in *.
  unfold fix_root. apply wp_bind, rinode_ok; [done|done|]. change (dinode_at (img s) ROOTINO) with (ino_at s 0). rewrite Hsz.
  fold (root_size fs). set (i := set_i_size (root_size fs) (ino_at s 0)). apply winode_ok; [done|done|]. set (s1 := with_inode ROOTINO i s).
  assert (length (i_addrs i) = 13%nat) as Hl by apply Hdin.
  assert (is_u32 (root_size fs)) as Hrs by (unfold is_u32, root_size, NINODES, BSIZE, u32_mod in *; rewrite Hlr; zlia).
  assert (din_ok i) as Hdi by (by apply din_ok_size).
  assert (forall k, (k < length (tree fs))%nat -> ino_at s1 k = if decide (k = 0%nat) then i else ino_at s k) as Hat.
  { intros k Hk. pose proof (length_tree fs). unfold ino_at. case_decide as Hk0; [subst k; by apply (with_inode_at 1)|].
    apply (with_inode_other 1); (done || lia). }
  split.
  - apply (image_meta _ _ s); [|by apply base_inode|apply (with_inode_sector 1 i s); [done|lia]|intros c Hc'; apply (with_inode_sector 1 i s); [done|lia]|done|done].
    eapply image_sizes; [|exact Him]. intros k Hk. cbv beta. rewrite Hat by done. case_decide; [subst; by eexists|]. eexists. symmetry. apply set_size_same.
  - intros k f Hk. rewrite Hat by (by eapply lookup_lt_Some). destruct (Hhd k f Hk) as [_ Ht' Hn' Hs']. case_decide; [|done].
    subst k. split_and!; [exact Ht'|exact Hn'|done].
Qed.

Lemma write_bitmap_ok fs s :
  sized fs s -> 2 + len fs <= NINODES -> wp (used <- gets freeblock ;; balloc used) (fun _ s' => made fs (img s') (freeblock s')) s.
Proof.
  intros [Him Hhd] Hn. pose proof meta_blocks as (Hm1 & Hm2 & Hm3 & Hm4). pose proof (im_base _ _ _ Him) as Hb. pose proof (bs_free s Hb) as Hfr.
  apply wp_bind, wp_gets. unfold balloc. destruct (Z.leb_spec (BSIZE * 8) (freeblock s)); [unfold BSIZE in *; lia|].
  apply wsect_ok; [done|lia|]. set (map := foldl _ _ _). set (s2 := with_sector (sb_bmapstart sb) map s).
  assert (0 <= freeblock s < BPB) as Hbpb by (unfold BPB, BSIZE in *; lia).
  assert (forall c, c <> sb_bmapstart sb -> img s2 c = img s c) as Hv.
  { intros c Hc'. unfold s2. cbn [img with_sector set_img]. by rewrite fn_lookup_insert_ne. }
  assert (forall k, (k < length (tree fs))%nat -> ino_at s2 k = ino_at s k) as Hat.
  { intros k Hk. pose proof (length_tree fs). apply dinode_at_same; [lia|]. intros c Hc'. apply Hv. lia. }
  assert (image (ino_at s2) (tree fs) s2) as [Hb2 Hc2 Hsb2 _ Hf2 Hap2].
  { eapply files_image_ext; [exact Hat|]. apply (image_meta _ _ s); [done| |apply Hv; lia|intros c Hc'; apply Hv; lia|done|done].
    apply base_sector; [done|lia|]. exact (proj1 (bitmap_bits _ 0 Hbpb ltac:(done))). }
  split; [exact Hsb2|exact (bs_len _ Hb2)|split; [exact Hc2|apply (bs_free _ Hb2)]| | |exact Hap2].
  - intros b Hb'. unfold BBLOCK. replace (b / BPB) with 0 by (unfold BPB, BSIZE; zlia). rewrite Z.add_0_l, (Z.mod_small b) by (unfold BPB, BSIZE; lia).
    unfold s2. cbn [img freeblock with_sector set_img]. rewrite fn_lookup_insert. apply (bitmap_bits _ b Hbpb). unfold BPB, BSIZE; lia.
  - intros k f Hk. split; [exact (Hf2 k f Hk)|]. fold (ino_at s2 k). rewrite Hat by (by eapply lookup_lt_Some). auto.
Qed.

Lemma tree_mono fs fs' : blocks_of (tree fs) <= blocks_of (tree (fs ++ fs')).
Proof.
  unfold tree. rewrite fmap_app, !blocks_of_cons, blocks_of_app. cbn [snd].
  pose proof (need_mono (len (root_data fs)) (len (root_data (fs ++ fs')))) as Hr. rewrite !length_root, length_app in Hr.
  specialize (Hr ltac:(lia)). rewrite !length_root, length_app.
  assert (0 <= blocks_of ((fun f => (T_FILE, f.2)) <$> fs')); [|lia].
  clear. induction fs' as [|f fs' IH]; [done|]. rewrite fmap_cons, blocks_of_cons. cbn [snd]. pose proof (need_pos (len f.2) ltac:(lia)). lia.
Qed.

Lemma main_ok host fs image_name :
  input_ok host fs -> wp (main host (image_name :: fs.*1)) (fun _ s' => made fs (img s') (freeblock s')) start.
Proof.
  intros [Hnames Hdata Hsizes Hn Hfree]. unfold main. apply wp_bind, wp_modify, wp_bind.
  eapply wp_mono; [apply clear_ok; done|]. intros [] s1 (Hb1 & Hfb1 & Hfi1). cbv beta. apply wp_bind, wsect_ok; [done|done|].
  pose proof (empty_image s1 Hb1 Hfb1 Hfi1) as Hd. apply wp_bind.
  eapply wp_mono; [apply (ialloc_ok [] T_DIR _ Hd); done|]. intros n s2 [-> Hd2]. change (len [] + 1) with 1. cbn [negb Z.eqb ROOTINO Pos.eqb app] in *.
  apply wp_bind. eapply wp_mono; [apply (iappend_ok _ 0 T_DIR [] (dirent 1 [46]) s2 Hd2 eq_refl); vm_compute; discriminate|]. intros [] s3 Hd3. cbv beta.
  apply wp_bind. eapply wp_mono; [apply (iappend_ok _ 0 T_DIR (dirent 1 [46]) (dirent 1 [46; 46]) s3 Hd3 eq_refl); vm_compute; discriminate|]. intros [] s4 Hd4. cbv beta.
  apply wp_bind. apply (wp_for_each (fun done_ s' => exists fs1 fs2, fs = fs1 ++ fs2 /\ done_ = fs1.*1 /\ disk_ok (tree fs1) s')).
  - exists [], fs. split_and!; try done.
  - intros done_ x todo s5 Hl (fs1 & fs2 & -> & -> & Hd5). rewrite fmap_app in Hl. apply app_inv_head in Hl.
    destruct fs2 as [|f fs2]; [done|]. cbn in Hl. inversion Hl; subst. rewrite length_app in Hn. cbn [length] in Hn.
    apply Forall_app in Hnames as [_ [? _]%Forall_cons], Hdata as [_ [? _]%Forall_cons], Hsizes as [_ [? _]%Forall_cons].
    eapply wp_mono; [apply (add_file_ok host fs1 f s5 Hd5); try done; [lia|]|].
    { pose proof (tree_mono (fs1 ++ [f]) fs2) as Hm. rewrite <- app_assoc in Hm. cbn [app] in Hm. lia. }
    intros [] s6 Hd6. exists (fs1 ++ [f]), fs2. rewrite <- app_assoc, fmap_app. done.
  - intros s5 (fs1 & fs2 & Hfs & Hdone & Hd5). assert (fs2 = []) as ->.
    { apply (f_equal length) in Hdone. rewrite !length_fmap, Hfs, length_app in Hdone. destruct fs2; [done|cbn in Hdone; lia]. }
    rewrite app_nil_r in Hfs. subst fs1. apply wp_bind. eapply wp_mono; [by apply fix_root_ok|]. intros [] s6 Hd6. by apply write_bitmap_ok.
Qed.

(** ** The kernel on this image *)

(** The kernel runs on the disk [v]: the blocks it sees are those of [v]. *)
Record boots (v : Z -> block) (s : fsys) : Prop := mkBoots {
  bt_bio : bio_ok s;
  bt_unlocked : unlocked s;
  bt_size : fs_disksize s = FSSIZE;
  bt_sb : fs_sb s = decode_sb (v 1);
  bt_view : forall c, 0 <= c < FSSIZE -> view s c = v c;
}.

(** Inode [n] has been loaded into slot [ip] of the inode cache. *)
Definition loaded (v : Z -> block) (n : Z) (ip : nat) (s : fsys) : Prop :=
  exists i0, i_dev i0 = 1 /\ fs_inode s ip = load_dinode (v (IBLOCK n sb)) (dinode_off n) i0.

Lemma loaded_fields v n ip (s : fsys) :
  loaded v n ip s -> i_dev (fs_inode s ip) = 1 /\ i_type (fs_inode s ip) = i_type (dinode_at v n) /\
    i_size (fs_inode s ip) = i_size (dinode_at v n) /\ i_addrs (fs_inode s ip) = i_addrs (dinode_at v n).
Proof. intros (i0 & Hd & ->). done. Qed.

Section Boot.
Context (fs : list (list Z * list Z)) (v : Z -> block) (fb : Z) (s : fsys) (k : nat) (f : Z * list Z) (ip : nat).
Context (Hmade : made fs v fb) (Hk : tree fs !! k = Some f) (Hboot : boots v s) (Hload : loaded v (Z.of_nat k + 1) ip s).

Let i := dinode_at v (Z.of_nat k + 1).

Lemma boot_ind : indirect (fs_inode s ip) = indirect i /\ 0 <= indirect i < FSSIZE.
Proof using All.
  pose proof meta_blocks. destruct (loaded_fields _ _ _ _ Hload) as (_ & _ & _ & Ha). destruct (md_file _ _ _ Hmade k f Hk) as [Hfl _].
  pose proof (md_free _ _ _ Hmade). unfold indirect, addr_of. rewrite Ha. split; [done|]. fold (addr_of i NDIRECT). fold (indirect i).
  destruct (decide (indirect i = 0)) as [->|Hn]; [lia|].
  assert (nmeta <= indirect i < fb) by exact (fo_ind _ _ _ (fl_ok _ _ _ _ Hfl) Hn). lia.
Qed.

Lemma boot_faddr bn : faddr (view s) (fs_inode s ip) bn = faddr v i bn.
Proof using All.
  destruct boot_ind as [Hi Hr]. destruct (loaded_fields _ _ _ _ Hload) as (_ & _ & _ & Ha).
  unfold faddr. rewrite Hi, (bt_view _ _ Hboot) by done. unfold addr_of. by rewrite Ha.
Qed.

Lemma boot_addr bn : 0 <= bn < MAXFILE -> bn * BSIZE < len f.2 -> nmeta <= faddr v i bn < FSSIZE.
Proof using All.
  intros Hbn Hlt. destruct (md_file _ _ _ Hmade k f Hk) as [Hfl _]. pose proof (md_free _ _ _ Hmade).
  apply (fl_alloc _ _ _ _ Hfl bn Hbn) in Hlt. 
  assert (nmeta <= faddr v i bn < fb) by exact (fo_addr _ _ _ (fl_ok _ _ _ _ Hfl) bn Hbn Hlt). lia.
Qed.

Lemma boot_content o : 0 <= o < len f.2 -> content (view s) (fs_inode s ip) o = get8 f.2 o.
Proof using All.
  intros Ho. pose proof meta_blocks. destruct (md_file _ _ _ Hmade k f Hk) as [Hfl _]. pose proof (fl_len _ _ _ _ Hfl).
  pose proof (boot_addr (o / BSIZE)) as Ha. rewrite <- (fl_content _ _ _ _ Hfl) by lia. unfold content. rewrite boot_faddr. fold i.
  rewrite (bt_view _ _ Hboot); [done|]. enough (nmeta <= faddr v i (o / BSIZE) < FSSIZE) by lia. apply Ha; [apply off_range; lia|]. unfold BSIZE. zlia.
Qed.

Lemma boot_readable : k <> 0%nat -> readable ip s.
Proof using All.
  intros Hne. pose proof meta_blocks. destruct (loaded_fields _ _ _ _ Hload) as (Hd & _ & Hs & _). destruct (md_file _ _ _ Hmade k f Hk) as (Hfl & _ & _ & Hsz).
  rewrite decide_False in Hsz by done. pose proof (fl_len _ _ _ _ Hfl). destruct boot_ind as [Hi Hr].
  split; try apply Hboot; rewrite ?(bt_size _ _ Hboot), ?Hs, ?Hsz, ?Hi; try done; [lia|].
  intros bn Hb Hlt. rewrite boot_faddr. pose proof (boot_addr bn) as Ha. unfold MAXFILE, NDIRECT, NINDIRECT, BSIZE in *.
  enough (nmeta <= faddr v i bn < FSSIZE) by lia. apply Ha; zlia.
Qed.

Lemma boot_bytes off n : 0 <= off -> 0 <= n -> off + n <= len f.2 -> bytes_of s ip off n = slice off n f.2.
Proof using All.
  intros Ho Hn Hl. unfold bytes_of. apply list_eq. intros j. rewrite slice_lookup, list_lookup_fmap by done. case_decide as Hj.
  - rewrite lookup_seqZ_lt by lia. cbn [fmap option_fmap option_map]. rewrite boot_content, get8_lookup by lia.
    replace (Z.to_nat (off + Z.of_nat j)) with (Z.to_nat off + j)%nat by lia.
    destruct (lookup_lt_is_Some_2 f.2 (Z.to_nat off + j)) as [x ->]; [lia|done].
  - by rewrite lookup_seqZ_ge by lia.
Qed.
End Boot.

(** ** The end of the root directory *)

Definition is_panic (ft : fault) : Prop := exists msg, ft = FPanic msg.

(** Outside a transaction an allocation of the kernel panics. *)
Lemma balloc_outside (s : fsys) :
  bio_ok s -> unlocked s -> fs_disksize s = FSSIZE -> fs_sb s = sb -> lg_outstanding (fs_log s) = 0 ->
  wpf is_panic (Fs.balloc 1) (fun _ _ => False) s.
Proof.
  intros Hbio Hun Hsize Hsb Hout. unfold Fs.balloc. wnext. rewrite Hsb.
  change (Z.to_nat (sb_size sb / BPB) + 2)%nat with 2%nat. cbn [balloc_loop]. wnext. rewrite Hsb. change (0 <? sb_size sb) with true. cbv iota.
  change (BBLOCK 0 sb) with 58. apply wpf_bind. destruct (avail_dec s 58 Hbio) as [Hav|Hp]; [|unfold wpf; rewrite Hp; by eexists].
  pose proof (tr_refl s Hbio Hun) as Ht.
  apply wpf_wp. eapply wp_mono; [apply (bread_tr [] [] s s 58 Ht); [by rewrite Hsize|set_solver|done]|].
  intros bp s1 (Ht1 & _). pose proof (sr_log _ _ (tr_rest _ _ _ _ Ht1)) as Hlog. cbv beta. wnext. destruct (free_bit _ _ _ _ _) as [bi|].
  - wnext. unfold log_write. apply wpf_bind. wnext. change (fs_log (upd_buf _ _ s1)) with (fs_log s1). rewrite Hlog, Hout.
    case_match; by eexists.
  - apply wpf_bind, wpf_wp. eapply wp_mono; [apply (brelse_tr [] [] s s1 bp 58 Ht1), not_elem_of_nil|]. intros [] s2 Ht2. cbv beta. wnext.
    rewrite (sr_sb _ _ (tr_rest _ _ _ _ Ht2)), Hsb. by eexists.
Qed.

Lemma full_root fs : (len fs + 2) `mod` 32 = 0 -> len (root_data fs) `mod` BSIZE = 0 /\ root_size fs = len (root_data fs) + BSIZE.
Proof. intros Hf. unfold root_size. rewrite length_root. unfold BSIZE. zlia. Qed.

Section Hole.
Context (fs : list (list Z * list Z)) (v : Z -> block) (fb : Z) (s : fsys) (ip : nat).
Context (Hmade : made fs v fb) (Hn : 2 + len fs <= NINODES) (Hboot : boots v s) (Hload : loaded v ROOTINO ip s).
Context (Hfull : len (root_data fs) `mod` BSIZE = 0) (Hout : lg_outstanding (fs_log s) = 0).

(** No block is allocated for the last BSIZE bytes of the root directory. *)
Lemma root_hole : len (root_data fs) / BSIZE < NDIRECT /\ addr_of (fs_inode s ip) (len (root_data fs) / BSIZE) = 0.
Proof using All.
  pose proof (length_root fs) as Hl. assert (len (root_data fs) / BSIZE < NDIRECT) as Hlt by (rewrite Hl; unfold NINODES, NDIRECT, BSIZE in *; zlia).
  split; [done|]. destruct (md_file _ _ _ Hmade 0 _ eq_refl) as [Hfl _]. destruct (loaded_fields _ _ _ _ Hload) as (_ & _ & _ & Ha).
  unfold addr_of. rewrite Ha. fold (addr_of (dinode_at v ROOTINO) (len (root_data fs) / BSIZE)).
  pose proof (fl_alloc _ _ _ _ Hfl (len (root_data fs) / BSIZE)) as Hal. unfold faddr in Hal.
  destruct (Z.ltb_spec (len (root_data fs) / BSIZE) NDIRECT); [|lia]. cbn [snd] in Hal. change (Z.of_nat 0 + 1) with ROOTINO in Hal.
  destruct (decide (addr_of (dinode_at v ROOTINO) (len (root_data fs) / BSIZE) = 0)) as [|Hne]; [done|].
  apply Hal in Hne; unfold MAXFILE, NDIRECT, NINDIRECT, BSIZE in *; zlia.
Qed.

Lemma read_root_hole devread n :
  0 < n <= BSIZE -> wpf is_panic (readi devread ip (len (root_data fs)) n) (fun _ _ => False) s.
Proof using All.
  intros Hr. destruct root_hole as [Hlt Haddr]. destruct (loaded_fields _ _ _ _ Hload) as (Hdev & Hty & Hsz & _).
  destruct (md_file _ _ _ Hmade 0 _ eq_refl) as (_ & Ht & _ & Hs). change (Z.of_nat 0 + 1) with ROOTINO in *. cbn [fst snd] in *. rewrite decide_True in Hs by done.
  pose proof (length_root fs) as Hl. set (off := len (root_data fs)) in *. assert (0 <= off < 4000) by (unfold NINODES in *; lia).
  assert (root_size fs = off + BSIZE) as Hrs by (unfold root_size; fold off; unfold BSIZE in *; zlia).
  unfold readi. wnext. rewrite Hty, Ht, Hsz, Hs, Hrs. change (T_DIR =? T_DEV) with false. cbv iota.
  replace ((off + BSIZE <? off) || (u32 (off + n) <? off)) with false.
  2: { symmetry. apply orb_false_iff. unfold u32, u32_mod, BSIZE in *. rewrite Z.mod_small by lia. split; apply Z.ltb_ge; lia. }
  destruct (Z.ltb_spec (off + BSIZE) (off + n)); [lia|]. apply wpf_bind.
  replace (Z.to_nat n + 1)%nat with (S (Z.to_nat n)) by lia. cbn [readi_loop]. destruct (Z.ltb_spec 0 n); [|lia].
  apply wpf_bind. unfold bmap. destruct (Z.ltb_spec (off / BSIZE) NDIRECT); [|lia]. unfold addr_or_alloc. wnext. rewrite Haddr, Hdev.
  apply wpf_bind. eapply wpf_mono; [apply balloc_outside; try apply Hboot; try done|done].
  rewrite (bt_sb _ _ Hboot). apply (md_sb _ _ _ Hmade).
Qed.
End Hole.

(** ** The theorems *)

#[local] Opaque main.

Lemma main_made host fs image_name s1 :
  input_ok host fs -> main host (image_name :: fs.*1) start = Done tt s1 -> made fs (img s1) (freeblock s1).
Proof.
  intros Hin Hmain. pose proof (main_ok host fs image_name Hin) as Hm. destruct (proj1 (wp_done _ _ _) Hm) as ([] & s2 & He & Hm2).
  rewrite Hmain in He. injection He as ->. exact Hm2.
Qed.

(** C25: mkfs makes the image it is asked for: a superblock that the kernel
    decodes to the layout; for every file an inode with its length and exactly
    its content; a root directory with the entries in the order of the command
    line, without a leading underscore; no block in two files; and a bitmap in
    which the blocks in use are exactly those before the first free one, which
    is as far as the files need. *)
Theorem mkfs_makes_image host fs image_name :
  input_ok host fs -> wp (main host (image_name :: fs.*1)) (fun _ s' => made fs (img s') (freeblock s')) start.
Proof. apply main_ok. Qed.

(** C27: what mkfs writes, the kernel reads: on the image that main leaves, readi
    of the inode of a file returns exactly the bytes that the file has on the
    host, from any offset, and fails past the end. *)
Theorem mkfs_readi_roundtrip host fs image_name s1 k f (s : fsys) ip devread off n :
  input_ok host fs -> main host (image_name :: fs.*1) start = Done tt s1 -> fs !! k = Some f ->
  boots (img s1) s -> loaded (img s1) (Z.of_nat k + 2) ip s -> is_u32 off -> is_u32 n ->
  wpf fs_fault (readi devread ip off n) (fun r _ =>
    r = if (len f.2 <? off) || (u32 (off + n) <? off) then (-1, [])
        else (Z.min n (len f.2 - off), slice off (Z.min n (len f.2 - off)) f.2)) s.
Proof.
  intros Hin Hmain Hk Hboot Hload Ho Hn. pose proof (main_made host fs image_name s1 Hin Hmain) as Hm.
  assert (tree fs !! S k = Some (T_FILE, f.2)) as Hk'.
  { change (((fun g => (T_FILE, g.2)) <$> fs) !! k = Some (T_FILE, f.2)). by rewrite list_lookup_fmap, Hk. }
  replace (Z.of_nat k + 2) with (Z.of_nat (S k) + 1) in Hload by lia.
  pose proof (boot_readable fs _ _ s (S k) _ ip Hm Hk' Hboot Hload ltac:(done)) as Hr.
  destruct (loaded_fields _ _ _ _ Hload) as (_ & Hty & Hs & _). destruct (md_file _ _ _ Hm (S k) _ Hk') as (_ & Ht & _ & Hsz). cbn [fst snd] in *.
  rewrite decide_False in Hsz by done. eapply wpf_mono; [apply (readi_ok devread ip off n s Hr); [by rewrite Hty, Ht|done..]|].
  intros r s' [_ ->]. rewrite Hs, Hsz. destruct ((len f.2 <? off) || (u32 (off + n) <? off)) eqn:He; [done|].
  apply orb_false_iff in He as [He%Z.ltb_ge _]. unfold is_u32 in *. f_equal.
  apply (boot_bytes fs _ _ s (S k) (T_FILE, f.2) ip Hm Hk' Hboot Hload); cbn [snd]; lia.
Qed.

(** when the entries of the root directory fill its blocks exactly (30 files,
    or 62, ...), the size that main sets takes in one more block, which does
    not exist: a process that reads the directory to its end makes the kernel
    allocate the block outside a transaction, and panic. *)
Theorem mkfs_full_root_panics host fs image_name s1 (s : fsys) ip devread n :
  input_ok host fs -> main host (image_name :: fs.*1) start = Done tt s1 -> (len fs + 2) `mod` 32 = 0 ->
  boots (img s1) s -> loaded (img s1) ROOTINO ip s -> lg_outstanding (fs_log s) = 0 -> 0 < n <= BSIZE ->
  i_size (fs_inode s ip) = len (root_data fs) + BSIZE /\
  wpf is_panic (readi devread ip (len (root_data fs)) n) (fun _ _ => False) s.
Proof.
  intros Hin Hmain Hfull Hboot Hload Hout Hn. pose proof (main_made host fs image_name s1 Hin Hmain) as Hm.
  destruct (full_root fs Hfull) as [Hf Hrs].
  split; [|apply (read_root_hole fs _ _ s ip Hm (in_inodes _ _ Hin) Hboot Hload Hf Hout devread n Hn)].
  destruct (loaded_fields _ _ _ _ Hload) as (_ & _ & -> & _). destruct (md_file _ _ _ Hm 0 _ eq_refl) as (_ & _ & _ & Hs).
  change (Z.of_nat 0 + 1) with ROOTINO in Hs. by rewrite Hs, decide_True.
Qed.

(** ** Witnesses: an image of two files, and one of thirty empty files *)

Definition ex_fs : list (list Z * list Z) := [([95; 97], repeat 7 600); ([98], [1; 2; 3])].
Definition ex_host (name : list Z) : option (list Z) := if decide (name = [98]) then Some [1; 2; 3] else Some (repeat 7 600).
Definition full_fs : list (list Z * list Z) := (fun k => ([65 + k], [])) <$> seqZ 0 30.
Definition full_host (name : list Z) : option (list Z) := Some [].

Lemma ex_input : input_ok ex_host ex_fs.
Proof.
  split; [| | |done|by vm_compute]; repeat (apply Forall_cons; split); try apply Forall_nil; try done; cbn [fst]; rewrite ?elem_of_cons, ?elem_of_nil; lia.
Qed.

Lemma full_input : input_ok full_host full_fs.
Proof.
  assert (forall f, f ∈ full_fs -> exists k, 0 <= k < 30 /\ f = ([65 + k], [])) as Hf.
  { intros f (k & -> & Hk%elem_of_seqZ)%list_elem_of_fmap. exists k. split; [lia|done]. }
  split; [| | |by vm_compute|by vm_compute]; apply Forall_forall; intros f (k & Hk & ->)%Hf; cbn [fst snd]; [|done|done].
  rewrite list_elem_of_singleton. lia.
Qed.

(** The state that main leaves *)
Definition left_by (r : outcome mkst unit) : mkst := match r with Done _ s => s | _ => start end.
Definition made_by (host : list Z -> option (list Z)) (fs : list (list Z * list Z)) : mkst :=
  left_by (main host ([105] :: fs.*1) start).

Lemma made_by_main host fs : input_ok host fs -> main host ([105] :: fs.*1) start = Done tt (made_by host fs).
Proof. intros Hin. destruct (proj1 (wp_done _ _ _) (main_ok host fs [105] Hin)) as ([] & s2 & He & _). unfold made_by. rewrite He. reflexivity. Qed.

(** The kernel after boot, with an empty cache; slot [ip] of the inode cache
    holds inode [ip + 1]. *)
Definition boot_fs (v : Z -> block) : fsys :=
  mkFsys v FSSIZE [] (fun _ => mkBuf false false 0 0 (mkSleeplock false 0) 0 [])
    (fun j => if decide (j = 0%nat) then 30%nat else (j - 1)%nat) (fun j => if decide (j = 30%nat) then 0%nat else (j + 1)%nat)
    (mkLog 2 30 0 false 1 0 (fun _ => 0)) (decode_sb (v 1))
    (fun ip => load_dinode (v (IBLOCK (Z.of_nat ip + 1) sb)) (dinode_off (Z.of_nat ip + 1)) no_dinode) 1 0.

Lemma boot_fs_boots v : (forall c, 0 <= c < FSSIZE -> len (v c) = BSIZE) -> boots v (boot_fs v).
Proof.
  intros Hl. split; try done. split; [|by intros i _; split|done|exact Hl].
  exists (seq 0 NBUF). split; [|done]. vm_compute. repeat split.
Qed.

Lemma boot_fs_loaded v n ip : n = Z.of_nat ip + 1 -> loaded v n ip (boot_fs v).
Proof. intros ->. by exists no_dinode. Qed.

Lemma made_boots host fs : input_ok host fs -> boots (img (made_by host fs)) (boot_fs (img (made_by host fs))).
Proof. intros Hin. apply boot_fs_boots. apply (md_len fs _ _ (main_made host fs [105] _ Hin (made_by_main host fs Hin))). Qed.

Lemma mkfs_makes_image_witness : exists s', main ex_host [[105]; [95; 97]; [98]] start = Done tt s' /\ made ex_fs (img s') (freeblock s').
Proof. destruct (proj1 (wp_done _ _ _) (mkfs_makes_image ex_host ex_fs [105] ex_input)) as ([] & s' & He & Hm). exists s'. exact (conj He Hm). Defined.

Lemma mkfs_readi_roundtrip_witness :
  wpf fs_fault (readi (fun _ => None) 2 1 8) (fun r _ => r = (2, [2; 3])) (boot_fs (img (made_by ex_host ex_fs))).
Proof.
  exact (mkfs_readi_roundtrip ex_host ex_fs [105] (made_by ex_host ex_fs) 1 ([98], [1; 2; 3]) _ 2 (fun _ => None) 1 8
    ex_input (made_by_main ex_host ex_fs ex_input) eq_refl (made_boots ex_host ex_fs ex_input) (boot_fs_loaded _ 3 2 eq_refl)
    ltac:(done) ltac:(done)).
Defined.
