(* ===== verification/LogSpace.v ===== *)
(** * Log space

    begin_op lets a system call in when the log has room for MAXOPBLOCKS more
    blocks for each call in progress.  [lstep]: the calls in progress, each
    with the number of log_writes it has left, begin, write and end in any
    order; the commit of the last end_op is one step, since begin_op waits
    for it.  [space_inv]: the log has room for what is left of all calls. *)

From S2P Require Import Prelude FsState Bio BioInv Log LogInv LogCommit LogCrash FsTxn.

Local Open Scope c_scope.
Local Open Scope Z_scope.

(** ** What leaves the in-memory log alone *)

Definition keeps_log {A} (m : M fsys A) : Prop :=
  forall s, wpf (fun _ => True) m (fun _ s' => fs_log s' = fs_log s) s.

Create HintDb keeps.

Lemma keeps_ret {A} (a : A) : keeps_log (ret a).
Proof. done. Qed.
Lemma keeps_gets {A} (f : fsys -> A) : keeps_log (gets f).
Proof. done. Qed.
Lemma keeps_modify f : (forall s, fs_log (f s) = fs_log s) -> keeps_log (modify f).
Proof. intros Hf s. apply Hf. Qed.
Lemma keeps_panic {A} msg : keeps_log (@panic fsys A msg).
Proof. done. Qed.
Lemma keeps_out {A} : keeps_log (@out_of_fuel fsys A).
Proof. done. Qed.
Lemma keeps_bind {A B} (m : M fsys A) (k : A -> M fsys B) : keeps_log m -> (forall a, keeps_log (k a)) -> keeps_log (bind m k).
Proof.
  intros Hm Hk s. apply wpf_bind. eapply wpf_mono; [apply Hm|]. intros a s1 H1. eapply wpf_mono; [apply Hk|].
  intros b s2 H2. congruence.
Qed.
Lemma keeps_when b m : keeps_log m -> keeps_log (when b m).
Proof. by destruct b. Qed.
Lemma keeps_for_each {A} (l : list A) body : (forall x, keeps_log (body x)) -> keeps_log (for_each l body).
Proof. intros Hb. induction l as [|x l IH]; [done|]. by apply keeps_bind. Qed.

#[local] Hint Resolve keeps_ret keeps_gets keeps_panic keeps_out : keeps.
#[local] Hint Extern 1 (keeps_log (modify _)) => apply keeps_modify; done : keeps.

Ltac keeps := repeat first [ solve [eauto 2 with keeps nocore] | apply keeps_bind; [|intros] | case_match | apply keeps_when | apply keeps_for_each; intros ].

Lemma bget_cached_keeps fuel b dev bno : keeps_log (bget_cached fuel b dev bno).
Proof. revert b. induction fuel; intros b; cbn; keeps. Qed.

Lemma bget_unused_keeps fuel b : keeps_log (bget_unused fuel b).
Proof. revert b. induction fuel; intros b; cbn; keeps. Qed.

#[local] Hint Resolve bget_cached_keeps bget_unused_keeps : keeps.

Lemma iderw_keeps b : keeps_log (iderw b).
Proof. unfold iderw, holdingsleep. keeps. Qed.
#[local] Hint Resolve iderw_keeps : keeps.

Lemma bread_keeps dev b : keeps_log (bread dev b).
Proof. unfold bread, bget, acquiresleep. keeps. Qed.

Lemma bwrite_keeps b : keeps_log (bwrite b).
Proof. unfold bwrite, holdingsleep. keeps. Qed.

Lemma brelse_keeps b : keeps_log (brelse b).
Proof. unfold brelse, holdingsleep, releasesleep, link_front. keeps. Qed.

Lemma bdata_keeps b : keeps_log (bdata b).
Proof. done. Qed.

Lemma set_bdata_keeps b d : keeps_log (set_bdata b d).
Proof. done. Qed.

#[local] Hint Resolve bread_keeps bwrite_keeps brelse_keeps bdata_keeps set_bdata_keeps : keeps.

Lemma write_log_keeps : keeps_log write_log.
Proof. unfold write_log, log_one, get_log. keeps. Qed.

Lemma install_trans_keeps : keeps_log install_trans.
Proof. unfold install_trans, install_one, get_log. keeps. Qed.

Lemma write_head_keeps : keeps_log write_head.
Proof. unfold write_head, get_log. keeps. Qed.

(** ** begin_op, log_write, end_op *)

Lemma commit_log s :
  0 <= lg_n (fs_log s) -> wpf (fun _ => True) commit (fun _ s' => fs_log s' = set_lg_n 0 (fs_log s)) s.
Proof.
  intros Hn. unfold commit. wnext. destruct (Z.ltb_spec 0 (lg_n (fs_log s))); cbn [when].
  - apply wpf_bind. eapply wpf_mono; [apply write_log_keeps|]. intros [] s1 H1.
    apply wpf_bind. eapply wpf_mono; [apply write_head_keeps|]. intros [] s2 H2.
    apply wpf_bind. eapply wpf_mono; [apply install_trans_keeps|]. intros [] s3 H3.
    wnext. eapply wpf_mono; [apply write_head_keeps|]. intros [] s4 H4. rewrite H4. cbn. congruence.
  - eapply wpf_done; [done|]. assert (lg_n (fs_log s) = 0) as H0 by lia. rewrite <- H0. by destruct (fs_log s).
Qed.

Lemma end_op_log s :
  0 <= lg_n (fs_log s) -> lg_committing (fs_log s) = false ->
  wpf (fun _ => True) end_op (fun _ s' => fs_log s' =
    let lg := set_lg_outstanding (lg_outstanding (fs_log s) - 1) (fs_log s) in
    if lg_outstanding lg =? 0 then set_lg_committing false (set_lg_n 0 lg) else lg) s.
Proof.
  intros Hn Hc. unfold end_op. do 2 wnext. cbn [upd_log fs_log set_fs_log lg_committing set_lg_outstanding lg_outstanding].
  rewrite Hc. destruct (lg_outstanding (fs_log s) - 1 =? 0) eqn:He; [|by eapply wpf_done].
  wnext. apply wpf_bind. eapply wpf_mono; [by apply commit_log|]. intros [] s1 H1. eapply wpf_done; [done|]. cbn.
  rewrite H1. reflexivity.
Qed.

Lemma wpf_run {A} F (m : M fsys A) Q s a s' : wpf F m Q s -> m s = Done a s' -> Q a s'.
Proof. unfold wpf. intros H He. by rewrite He in H. Qed.

(** ** The calls in progress *)

Definition calls : Type := fsys * list nat.

Inductive lstep : calls -> calls -> Prop :=
| lstep_begin s cs s' : begin_op s = Done tt s' -> lstep (s, cs) (s', cs ++ [Z.to_nat MAXOPBLOCKS])
| lstep_write s cs s' k c i : cs !! k = Some (S c) -> log_write i s = Done tt s' -> lstep (s, cs) (s', <[k := c]> cs)
| lstep_end s cs s' k c : cs !! k = Some c -> end_op s = Done tt s' -> lstep (s, cs) (s', delete k cs)
| lstep_other s cs s' : fs_log s' = fs_log s -> lstep (s, cs) (s', cs).

(** The log at boot, after recovery. *)
Definition idle_log (lg : log) : Prop := lg_n lg = 0 /\ lg_outstanding lg = 0 /\ lg_committing lg = false.

Record space_inv (size : Z) (q : calls) : Prop := mkSpaceInv {
  sp_size : lg_size (fs_log q.1) = size;
  sp_calm : lg_committing (fs_log q.1) = false;
  sp_n : 0 <= lg_n (fs_log q.1);
  sp_calls : lg_outstanding (fs_log q.1) = Z.of_nat (length q.2);
  sp_credit : Forall (fun c => (c <= Z.to_nat MAXOPBLOCKS)%nat) q.2;
  sp_room : lg_n (fs_log q.1) + Z.of_nat (sum_list q.2) <= LOGSIZE;
}.

Lemma sum_list_bound cs n : Forall (fun c => (c <= n)%nat) cs -> (sum_list cs <= n * length cs)%nat.
Proof. induction 1; simpl; lia. Qed.

Lemma sum_list_insert cs k c c' : cs !! k = Some c -> (sum_list (<[k := c']> cs) + c = sum_list cs + c')%nat.
Proof. revert k. induction cs as [|x cs IH]; intros [|k] Hk; simplify_eq/=; [lia|]. specialize (IH _ Hk). lia. Qed.

Lemma sum_list_delete cs k c : cs !! k = Some c -> (sum_list (delete k cs) + c = sum_list cs)%nat.
Proof.
  revert k. induction cs as [|x cs IH]; intros [|k] Hk; [done..|simplify_eq/=; lia|].
  change (delete (S k) (x :: cs)) with (x :: delete k cs). specialize (IH _ Hk). simpl. lia.
Qed.

Lemma log_write_log i s s' :
  log_write i s = Done tt s' -> exists bno, fs_log s' = log_add bno (fs_log s).
Proof.
  unfold log_write, bind, get_log, gets, modify, panic. repeat case_match; intros; simplify_eq. by eexists.
Qed.

Lemma space_step size q q' : lstep q q' -> space_inv size q -> space_inv size q'.
Proof.
  intros [s cs s' Hr|s cs s' k c i Hk Hr|s cs s' k c Hk Hr|s cs s' Hl] [Hsz Hc Hn Ho Hcr Hroom]; cbn in *.
  - unfold begin_op, bind, get_log, gets in Hr. unfold op_fits in Hr. rewrite Hc in Hr. cbn in Hr.
    destruct (Z.leb_spec (lg_n (fs_log s) + (lg_outstanding (fs_log s) + 1) * MAXOPBLOCKS) LOGSIZE); [|done].
    unfold modify in Hr. simplify_eq. pose proof (sum_list_bound _ _ Hcr). split; cbn; try done.
    + rewrite length_app. simpl. lia.
    + apply Forall_app. split; [done|]. by repeat constructor.
    + rewrite sum_list_with_app. simpl. unfold MAXOPBLOCKS in *. lia.
  - destruct (log_write_log _ _ _ Hr) as [bno Hb]. destruct (log_add_n (fs_log s) bno Hn) as [Hna Hfr].
    injection Hfr as H1 H2 H3 H4 H5. pose proof (sum_list_insert cs k (S c) c Hk). split; cbn; rewrite ?Hb, ?H2, ?H3, ?H4; try done; try lia.
    + by rewrite length_insert.
    + apply Forall_insert; [done|]. eapply Forall_lookup_1 in Hcr; [|done]. lia.
  - pose proof (wpf_run _ _ _ _ _ _ (end_op_log s Hn Hc) Hr) as Hl. cbn in Hl. pose proof (sum_list_delete cs k c Hk) as Hsum.
    pose proof (lookup_lt_Some _ _ _ Hk) as Hlt. pose proof (length_delete cs k ltac:(eauto)) as Hlen.
    assert (Forall (fun c => (c <= Z.to_nat MAXOPBLOCKS)%nat) (delete k cs)) as Hcr' by (by apply Forall_delete).
    split; cbn; rewrite ?Hl; try done; destruct (Z.eqb_spec (lg_outstanding (fs_log s) - 1) 0); cbn; try done; lia.
  - split; cbn; rewrite ?Hl; done.
Qed.

Lemma space_reach size q q' : rtc lstep q q' -> space_inv size q -> space_inv size q'.
Proof. induction 1; eauto using space_step. Qed.

Lemma idle_space s : idle_log (fs_log s) -> space_inv (lg_size (fs_log s)) (s, []).
Proof. intros (Hn & Ho & Hc). split; cbn; rewrite ?Hn; try done. Qed.

(** A call that has writes left finds room, if the log is larger than LOGSIZE. *)
Lemma space_write size q k c i :
  space_inv size q -> LOGSIZE < size -> q.2 !! k = Some (S c) -> exists s', log_write i q.1 = Done tt s'.
Proof.
  intros [Hsz Hc Hn Ho Hcr Hroom] Hlt Hk. pose proof (sum_list_delete _ _ _ Hk) as Hsum.
  pose proof (lookup_lt_Some _ _ _ Hk). unfold log_write, bind, get_log, gets.
  destruct (Z.leb_spec LOGSIZE (lg_n (fs_log q.1))); [lia|]. destruct (Z.leb_spec (lg_size (fs_log q.1) - 1) (lg_n (fs_log q.1))); [lia|].
  cbn [orb]. destruct (Z.ltb_spec (lg_outstanding (fs_log q.1)) 1); [lia|]. by eexists.
Qed.

(** ** A log of LOGSIZE blocks is too small

    mkfs gives the log LOGSIZE blocks, one of them the header.  Three calls
    that write ten blocks each are let in, and fill it with 29 blocks. *)

(** [k] different blocks logged by three calls. *)
Record filled (k : nat) (q : calls) : Prop := mkFilled {
  fd_size : lg_size (fs_log q.1) = LOGSIZE;
  fd_n : lg_n (fs_log q.1) = Z.of_nat k;
  fd_calls : lg_outstanding (fs_log q.1) = 3;
  fd_blocks : forall i, (i < k)%nat -> lg_block (fs_log q.1) i = Z.of_nat i + 100;
  fd_credit : q.2 = [10 - k; 20 - Nat.max k 10; 30 - Nat.max k 20]%nat;
}.

Definition numbered (s : fsys) : Prop := forall i, bf_blockno (fs_buf s i) = Z.of_nat i + 100.

Lemma log_write_fresh i s :
  let lg := fs_log s in
  numbered s -> 0 <= lg_n lg < LOGSIZE -> lg_n lg < lg_size lg - 1 -> 1 <= lg_outstanding lg ->
  (forall j, (j < Z.to_nat (lg_n lg))%nat -> lg_block lg j <> Z.of_nat i + 100) ->
  exists s', log_write i s = Done tt s' /\ numbered s' /\
    fs_log s' = set_lg_n (lg_n lg + 1) (set_lg_block (<[Z.to_nat (lg_n lg) := Z.of_nat i + 100]> (lg_block lg)) lg).
Proof.
  intros lg Hb Hn Hsz Ho Hne. unfold log_write, bind, get_log, gets, modify. fold lg.
  destruct (Z.leb_spec LOGSIZE (lg_n lg)); [lia|]. destruct (Z.leb_spec (lg_size lg - 1) (lg_n lg)); [lia|]. cbn [orb].
  destruct (Z.ltb_spec (lg_outstanding lg) 1); [lia|]. eexists. split; [reflexivity|]. split.
  { intros j. cbn. destruct (decide (i = j)) as [->|]; [rewrite fn_lookup_insert; apply Hb|rewrite fn_lookup_insert_ne by done; apply Hb]. }
  cbn. fold lg. rewrite Hb. unfold log_add.
  destruct (log_slot_spec lg (Z.of_nat i + 100) 0 (Z.to_nat (lg_n lg))) as (Hs1 & Hs2 & Hs3).
  set (j := log_slot _ _ _ _) in *. assert (j = Z.to_nat (lg_n lg)) as ->.
  { destruct (decide (j < Z.to_nat (lg_n lg))%nat) as [Hj|]; [|lia]. exfalso. by apply (Hne j Hj), Hs3. }
  cbn. destruct (Z.eqb_spec (Z.of_nat (Z.to_nat (lg_n lg))) (lg_n lg)); [done|lia].
Qed.

Lemma filled_step k q :
  (k < 29)%nat -> numbered q.1 -> filled k q -> exists q', lstep q q' /\ numbered q'.1 /\ filled (S k) q'.
Proof.
  intros Hk Hnum [Hsz Hn Ho Hb Hcr]. destruct q as [s cs]. cbn in *.
  destruct (log_write_fresh k s Hnum) as (s' & Hr & Hnum' & Hlg); rewrite ?Hsz, ?Hn, ?Ho; unfold LOGSIZE, MAXOPBLOCKS; try lia.
  { intros j Hj. rewrite Hb by lia. lia. }
  assert (exists i c, cs !! i = Some (S c) /\ <[i := c]> cs = [10 - S k; 20 - Nat.max (S k) 10; 30 - Nat.max (S k) 20]%nat) as (i & c & Hi & Hc).
  { assert (forall a b c a' b' c' : nat, a = a' -> b = b' -> c = c' -> [a; b; c] = [a'; b'; c']) as H3 by congruence.
    rewrite Hcr. destruct (decide (k < 10)%nat); [|destruct (decide (k < 20)%nat)].
    - exists 0%nat, (9 - k)%nat. split; cbn [lookup list_lookup insert list_insert]; [f_equal|apply H3]; lia.
    - exists 1%nat, (19 - k)%nat. split; cbn [lookup list_lookup insert list_insert]; [f_equal|apply H3]; lia.
    - exists 2%nat, (29 - k)%nat. split; cbn [lookup list_lookup insert list_insert]; [f_equal|apply H3]; lia. }
  exists (s', <[i := c]> cs). split; [by eapply lstep_write|]. split; [done|]. split; cbn; rewrite ?Hlg; cbn; try done; [lia|].
  intros j Hj. rewrite Hn. destruct (decide (j = k)) as [->|]; [by rewrite Nat2Z.id, fn_lookup_insert|].
  rewrite fn_lookup_insert_ne by lia. apply Hb. lia.
Qed.

Lemma filled_reach k q : (k <= 29)%nat -> numbered q.1 -> filled 0 q -> exists q', rtc lstep q q' /\ filled k q'.
Proof.
  intros Hk Hnum Hf. assert (exists q', rtc lstep q q' /\ numbered q'.1 /\ filled k q') as (q' & ? & _ & ?); [|eauto].
  induction k as [|k IH]; [exists q; by split; [apply rtc_refl|]|].
  destruct (IH ltac:(lia)) as (q1 & H1 & H2 & H3). destruct (filled_step k q1 ltac:(lia) H2 H3) as (q2 & ? & ? & ?).
  exists q2. split; [by eapply rtc_r|done].
Qed.

(** Three calls are let in. *)
Lemma three_begin s :
  idle_log (fs_log s) -> lg_size (fs_log s) = LOGSIZE -> numbered s ->
  exists q, rtc lstep (s, []) q /\ numbered q.1 /\ filled 0 q.
Proof.
  intros (Hn & Ho & Hc) Hsz Hnum. set (up := upd_log (fun l => set_lg_outstanding (lg_outstanding l + 1) l)).
  assert (forall t k, fs_log t = set_lg_outstanding k (fs_log s) -> 0 <= k <= 2 -> begin_op t = Done tt (up t)) as Hb.
  { intros t k Ht Hk. unfold begin_op, bind, get_log, gets, op_fits. rewrite Ht. cbn. rewrite Hc, Hn.
    destruct (Z.leb_spec (0 + (k + 1) * MAXOPBLOCKS) LOGSIZE); [done|]. unfold LOGSIZE, MAXOPBLOCKS in *. lia. }
  exists (up (up (up s)), [10; 10; 10]%nat). split; [|split; [done|]].
  - eapply rtc_l; [apply lstep_begin, (Hb s 0); [|lia]; rewrite <- Ho; by destruct (fs_log s)|].
    eapply rtc_l; [apply lstep_begin, (Hb _ 1); [|lia]; cbn; by rewrite Ho|].
    eapply rtc_l; [apply lstep_begin, (Hb _ 2); [|lia]; cbn; by rewrite Ho|]. apply rtc_refl.
  - split; cbn; rewrite ?Ho; try done. intros i Hi. lia.
Qed.

Lemma filled_panics q i : filled 29 q -> log_write i q.1 = Panic "too big a transaction" q.1.
Proof. intros [Hsz Hn _ _ _]. unfold log_write, bind, get_log, gets. by rewrite Hsz, Hn. Qed.
