(* ===== verification/FsFrame.v ===== *)
(** * Locks and transactions are balanced

    [hold o B I s]: [o] system calls are inside begin_op/end_op, [B] says which
    buffers are locked and [I] which inodes.  Each function of fs.c either is
    [neutral], i.e. returns with all three as it found them, or changes one of
    them in a way its specification says.  The specifications are about
    returns only: a wait that cannot end or a panic satisfies them. *)

From S2P Require Import Prelude FsState Bio Log Fs.

Local Open Scope c_scope.
Local Open Scope Z_scope.

Record hold (o : Z) (B I : nat -> bool) (s : fsys) : Prop := mkHold {
  ho_ops : lg_outstanding (fs_log s) = o;
  ho_bufs : forall i, sl_locked (bf_lock (fs_buf s i)) = B i;
  ho_inodes : forall i, sl_locked (i_lock (fs_inode s i)) = I i;
}.

Abbreviation any := (fun _ : fault => True).

Definition neutral {A} (m : M fsys A) : Prop :=
  forall o B I s, hold o B I s -> wpf any m (fun _ s' => hold o B I s') s.

Lemma hold_ext o o' B I B' I' s :
  hold o B I s -> o = o' -> (forall i, B i = B' i) -> (forall i, I i = I' i) -> hold o' B' I' s.
Proof. intros [? Hb Hi] Ho HB HI. split; [congruence|..]; intros i; rewrite <- ?HB, <- ?HI; auto. Qed.

Create HintDb hyg.

(** Compare two lock tables point by point. *)
Ltac lock_tables :=
  intros ?; repeat match goal with
  | H : context [(<[?i := ?b]> ?f) ?j] |- _ => destruct (decide (i = j)); [subst; rewrite fn_lookup_insert in H|rewrite fn_lookup_insert_ne in H by done]
  | |- context [(<[?i := ?b]> ?f) ?j] => destruct (decide (i = j)); [subst; rewrite fn_lookup_insert|rewrite fn_lookup_insert_ne by done]
  end; try done; try congruence.

Lemma neutral_ret {A} (a : A) : neutral (ret a).
Proof. intros o B I s H. done. Qed.
Lemma neutral_gets {A} (f : fsys -> A) : neutral (gets f).
Proof. intros o B I s H. done. Qed.
Lemma neutral_panic {A} msg : neutral (@panic fsys A msg).
Proof. done. Qed.
Lemma neutral_out {A} : neutral (@out_of_fuel fsys A).
Proof. done. Qed.
Lemma neutral_undef {A} : neutral (@undef fsys A).
Proof. done. Qed.
Lemma neutral_bind {A B} (m : M fsys A) (k : A -> M fsys B) : neutral m -> (forall a, neutral (k a)) -> neutral (bind m k).
Proof. intros Hm Hk o Bs I s H. apply wpf_bind. eapply wpf_mono; [by apply Hm|]. intros a s1 H1. by apply Hk. Qed.
Lemma neutral_when b m : neutral m -> neutral (when b m).
Proof. destruct b; [done|intros _; apply neutral_ret]. Qed.
Lemma neutral_for_each {A} (l : list A) body : (forall x, neutral (body x)) -> neutral (for_each l body).
Proof. intros Hb. induction l as [|x l IH]; [apply neutral_ret|]. by apply neutral_bind. Qed.

Lemma neutral_modify f :
  (forall s, lg_outstanding (fs_log (f s)) = lg_outstanding (fs_log s)) ->
  (forall s i, sl_locked (bf_lock (fs_buf (f s) i)) = sl_locked (bf_lock (fs_buf s i))) ->
  (forall s i, sl_locked (i_lock (fs_inode (f s) i)) = sl_locked (i_lock (fs_inode s i))) -> neutral (modify f).
Proof. intros H1 H2 H3 o B I s [? ? ?]. split; intros; rewrite ?H1, ?H2, ?H3; auto. Qed.

Lemma neutral_upd_buf i f :
  (forall bf, sl_locked (bf_lock (f bf)) = sl_locked (bf_lock bf)) -> neutral (modify (upd_buf i f)).
Proof.
  intros Hf. apply neutral_modify; [done| |done]. intros s j. cbn.
  destruct (decide (i = j)) as [->|]; [by rewrite fn_lookup_insert|by rewrite fn_lookup_insert_ne].
Qed.

Lemma neutral_upd_buf_at i f :
  (forall s bf, sl_locked (bf_lock (f s bf)) = sl_locked (bf_lock bf)) -> neutral (modify (fun s => upd_buf i (f s) s)).
Proof.
  intros Hf. apply neutral_modify; [done| |done]. intros s j. cbn.
  destruct (decide (i = j)) as [->|]; [by rewrite fn_lookup_insert|by rewrite fn_lookup_insert_ne].
Qed.

Lemma neutral_upd_inode ip f :
  (forall i, i_lock (f i) = i_lock i) -> neutral (mod_inode ip f).
Proof.
  intros Hf. apply neutral_modify; [done..|]. intros s j. cbn.
  destruct (decide (ip = j)) as [->|]; [by rewrite fn_lookup_insert, Hf|by rewrite fn_lookup_insert_ne].
Qed.

Lemma neutral_upd_log f : (forall l, lg_outstanding (f l) = lg_outstanding l) -> neutral (modify (upd_log f)).
Proof. intros Hf. apply neutral_modify; [|done..]. intros s. apply Hf. Qed.

#[export] Hint Resolve neutral_ret neutral_gets neutral_panic neutral_out neutral_undef : hyg.
#[export] Hint Extern 1 (neutral (modify (upd_buf _ _))) => apply neutral_upd_buf; done : hyg.
#[export] Hint Extern 1 (neutral (modify (fun s => upd_buf _ _ s))) => apply neutral_upd_buf_at; done : hyg.
#[export] Hint Extern 1 (neutral (set_bdata _ _)) => apply neutral_upd_buf; done : hyg.
#[export] Hint Extern 1 (neutral (mod_inode _ _)) => apply neutral_upd_inode; done : hyg.
#[export] Hint Extern 1 (neutral (modify (upd_log _))) => apply neutral_upd_log; done : hyg.
#[export] Hint Extern 2 (neutral (modify _)) => apply neutral_modify; done : hyg.
#[export] Hint Extern 1 (neutral (get_inode _)) => apply neutral_gets : hyg.
#[export] Hint Extern 1 (neutral get_sb) => apply neutral_gets : hyg.
#[export] Hint Extern 1 (neutral get_log) => apply neutral_gets : hyg.
#[export] Hint Extern 1 (neutral (bdata _)) => apply neutral_gets : hyg.
#[export] Hint Extern 1 (neutral (holdingsleep _)) => apply neutral_gets : hyg.

(** Prove that code made of neutral parts is neutral. *)
Ltac neutral := repeat first
  [ solve [auto 2 with hyg nocore]
  | apply neutral_bind; [|intros] | case_match | apply neutral_when | apply neutral_for_each; intros ].

(** ** Buffers *)

Lemma iderw_neutral b : neutral (iderw b).
Proof. unfold iderw. neutral. Qed.

Lemma bget_cached_neutral fuel b dev bno : neutral (bget_cached fuel b dev bno).
Proof. revert b. induction fuel; intros b; cbn; neutral. Qed.

Lemma bget_unused_neutral fuel b : neutral (bget_unused fuel b).
Proof. revert b. induction fuel; intros b; cbn; neutral. Qed.

#[export] Hint Resolve iderw_neutral bget_cached_neutral bget_unused_neutral : hyg.

(** Acquiring the lock of a buffer or of an inode *)
Lemma acquire_buf_h i o B I s :
  hold o B I s ->
  wpf any (acquiresleep (buf_lock i) (put_buf_lock i)) (fun _ s' => B i = false /\ hold o (<[i := true]> B) I s') s.
Proof.
  intros [Ho Hb Hi]. unfold acquiresleep. wnext. unfold buf_lock. rewrite Hb. destruct (B i) eqn:HB; [done|].
  wnext. eapply wpf_done; [reflexivity|]. split; [done|]. split; cbn; auto. intros j.
  destruct (decide (i = j)) as [->|]; [by rewrite !fn_lookup_insert|by rewrite !fn_lookup_insert_ne].
Qed.

Lemma release_buf_h i o B I s :
  hold o B I s -> wpf any (releasesleep (put_buf_lock i)) (fun _ s' => hold o (<[i := false]> B) I s') s.
Proof.
  intros [Ho Hb Hi]. eapply wpf_done; [reflexivity|]. split; cbn; auto. intros j.
  destruct (decide (i = j)) as [->|]; [by rewrite !fn_lookup_insert|by rewrite !fn_lookup_insert_ne].
Qed.

Lemma acquire_inode_h i o B I s :
  hold o B I s ->
  wpf any (acquiresleep (inode_lock i) (put_inode_lock i)) (fun _ s' => I i = false /\ hold o B (<[i := true]> I) s') s.
Proof.
  intros [Ho Hb Hi]. unfold acquiresleep. wnext. unfold inode_lock. rewrite Hi. destruct (I i) eqn:HI; [done|].
  wnext. eapply wpf_done; [reflexivity|]. split; [done|]. split; cbn; auto. intros j.
  destruct (decide (i = j)) as [->|]; [by rewrite !fn_lookup_insert|by rewrite !fn_lookup_insert_ne].
Qed.

Lemma release_inode_h i o B I s :
  hold o B I s -> wpf any (releasesleep (put_inode_lock i)) (fun _ s' => hold o B (<[i := false]> I) s') s.
Proof.
  intros [Ho Hb Hi]. eapply wpf_done; [reflexivity|]. split; cbn; auto. intros j.
  destruct (decide (i = j)) as [->|]; [by rewrite !fn_lookup_insert|by rewrite !fn_lookup_insert_ne].
Qed.

Lemma neutral_step {A B'} (m : M fsys A) (k : A -> M fsys B') Q o B I s :
  neutral m -> hold o B I s -> (forall a s', hold o B I s' -> wpf any (k a) Q s') -> wpf any (bind m k) Q s.
Proof. intros Hm H Hk. apply wpf_bind. eapply wpf_mono; [by apply Hm|]. apply Hk. Qed.

(** ** bread and brelse *)

Lemma bread_h dev b o B I s :
  hold o B I s -> wpf any (bread dev b) (fun i s' => B i = false /\ hold o (<[i := true]> B) I s') s.
Proof.
  intros H. unfold bread, bget. apply wpf_bind. eapply neutral_step; [apply neutral_gets|done|]. intros first s1 H1.
  eapply neutral_step; [apply bget_cached_neutral|done|]. intros [i|] s2 H2.
  - eapply neutral_step; [auto with hyg|done|]. intros [] s3 H3. apply wpf_bind.
    eapply wpf_mono; [by apply acquire_buf_h|]. intros [] s4 [HB H4]. eapply wpf_done; [done|].
    eapply neutral_step; [apply neutral_gets|done|]. intros bf s5 H5.
    eapply neutral_step; [apply neutral_when, iderw_neutral|done|]. intros [] s6 H6. by eapply wpf_done.
  - eapply neutral_step; [apply neutral_gets|done|]. intros last s3 H3.
    eapply neutral_step; [apply bget_unused_neutral|done|]. intros [i|] s4 H4; [|done].
    eapply neutral_step; [auto with hyg|done|]. intros [] s5 H5. apply wpf_bind.
    eapply wpf_mono; [by apply acquire_buf_h|]. intros [] s6 [HB H6]. eapply wpf_done; [done|].
    eapply neutral_step; [apply neutral_gets|done|]. intros bf s7 H7.
    eapply neutral_step; [apply neutral_when, iderw_neutral|done|]. intros [] s8 H8. by eapply wpf_done.
Qed.

Lemma link_front_neutral b : neutral (link_front b).
Proof. unfold link_front. neutral. Qed.
#[export] Hint Resolve link_front_neutral : hyg.

Lemma brelse_h i o B I s : hold o B I s -> wpf any (brelse i) (fun _ s' => hold o (<[i := false]> B) I s') s.
Proof.
  intros H. unfold brelse. eapply neutral_step; [auto with hyg|done|]. intros [] s1 H1; [|done]. cbn [negb].
  apply wpf_bind. eapply wpf_mono; [by apply release_buf_h|]. intros [] s2 H2.
  eapply neutral_step; [auto with hyg|done|]. intros [] s3 H3.
  eapply neutral_step; [auto with hyg|done|]. intros bf s4 H4. revert H4. apply neutral_when. neutral.
Qed.

Lemma bwrite_neutral i : neutral (bwrite i).
Proof. unfold bwrite. neutral. Qed.

Lemma log_write_neutral i : neutral (log_write i).
Proof.
  unfold log_write. neutral. apply neutral_upd_log. intros l. unfold log_add. by destruct (_ =? _).
Qed.
#[export] Hint Resolve bwrite_neutral log_write_neutral : hyg.

(** ** Running code with locks *)

(** One statement: known specifications first, then neutral code.  [hspec]
    collects the specifications of functions that change the locks. *)
Ltac hspec := fail.

Ltac hstep :=
  match goal with
  | _ => hspec
  | |- wpf _ (bind (bread _ _) _) _ _ =>
      apply wpf_bind; eapply wpf_mono; [eapply bread_h; eassumption|]; intros ? ? [? ?]
  | |- wpf _ (bind (brelse _) _) _ _ =>
      apply wpf_bind; eapply wpf_mono; [eapply brelse_h; eassumption|]; cbv beta; intros ? ? ?
  | |- wpf _ (brelse _) _ _ => eapply wpf_mono; [eapply brelse_h; eassumption|]; cbv beta; intros ? ? ?
  | |- wpf _ (bind _ _) _ _ =>
      eapply neutral_step; [solve [neutral]|eassumption|]; cbv beta; intros ? ? ?
  | |- wpf _ (ret _) _ _ => eapply wpf_done; [reflexivity|]
  | |- wpf _ (panic _) _ _ => exact Logic.I
  | |- wpf _ out_of_fuel _ _ => exact Logic.I
  | |- wpf _ undef _ _ => exact Logic.I
  | |- wpf _ (if ?b then _ else _) _ _ => destruct b eqn:?
  | |- wpf _ (match ?b with _ => _ end) _ _ => destruct b eqn:?
  end; cbv beta zeta.

Ltac hend := eapply hold_ext; [eassumption|lia|lock_tables..].

Lemma bzero_neutral dev b : neutral (bzero dev b).
Proof. intros o B I s H. unfold bzero. repeat hstep. hend. Qed.
#[export] Hint Resolve bzero_neutral : hyg.

Lemma balloc_loop_neutral fuel dev b : neutral (balloc_loop fuel dev b).
Proof.
  revert b. induction fuel as [|fuel IH]; intros b o B I s H; cbn [balloc_loop]; repeat hstep; [hend|].
  apply IH. hend.
Qed.

Lemma balloc_neutral dev : neutral (balloc dev).
Proof. unfold balloc. apply neutral_bind; [auto with hyg|]. intros sb. apply balloc_loop_neutral. Qed.

Lemma bfree_neutral dev b : neutral (bfree dev b).
Proof. intros o B I s H. unfold bfree. repeat hstep. hend. Qed.
#[export] Hint Resolve balloc_neutral bfree_neutral : hyg.

(** ** The log *)

Lemma log_one_neutral t : neutral (log_one t).
Proof. intros o B I s H. unfold log_one. repeat hstep. hend. Qed.

Lemma install_one_neutral t : neutral (install_one t).
Proof. intros o B I s H. unfold install_one. repeat hstep. hend. Qed.
#[export] Hint Resolve log_one_neutral install_one_neutral : hyg.

Lemma write_log_neutral : neutral write_log.
Proof. unfold write_log. neutral. Qed.

Lemma install_trans_neutral : neutral install_trans.
Proof. unfold install_trans. neutral. Qed.

Lemma write_head_neutral : neutral write_head.
Proof. intros o B I s H. unfold write_head. repeat hstep. hend. Qed.
#[export] Hint Resolve write_log_neutral install_trans_neutral write_head_neutral : hyg.

Lemma commit_neutral : neutral commit.
Proof. unfold commit. neutral. Qed.
#[export] Hint Resolve commit_neutral : hyg.

Lemma begin_op_h o B I s : hold o B I s -> wpf any begin_op (fun _ s' => hold (o + 1) B I s') s.
Proof.
  intros H. unfold begin_op. eapply neutral_step; [auto with hyg|done|]. intros lg s1 [Ho Hb Hi].
  case_match; [|done]. eapply wpf_done; [reflexivity|]. split; cbn; [lia|done..].
Qed.

Lemma end_op_h o B I s : hold o B I s -> wpf any end_op (fun _ s' => hold (o - 1) B I s') s.
Proof.
  intros [Ho Hb Hi]. unfold end_op. wnext. set (s1 := upd_log _ s).
  assert (hold (o - 1) B I s1) as H1 by (split; cbn; [lia|done..]). clearbody s1.
  repeat hstep; try done. by apply neutral_upd_log.
Qed.

(** ** Inodes *)

Lemma iupdate_neutral ip : neutral (iupdate ip).
Proof. intros o B I s H. unfold iupdate. repeat hstep. hend. Qed.
#[export] Hint Resolve iupdate_neutral : hyg.

Lemma iget_loop_neutral l dev inum e : neutral (iget_loop l dev inum e).
Proof. revert e. induction l; intros e; cbn; neutral. Qed.
#[export] Hint Resolve iget_loop_neutral : hyg.

Lemma iget_neutral dev inum : neutral (iget dev inum).
Proof. unfold iget. neutral. Qed.
#[export] Hint Resolve iget_neutral : hyg.

Lemma ialloc_loop_neutral left dev type inum : neutral (ialloc_loop left dev type inum).
Proof.
  revert inum. induction left as [|left IH]; intros inum o B I s H; cbn [ialloc_loop]; repeat hstep; [|].
  - apply iget_neutral. hend.
  - apply IH. hend.
Qed.

Lemma ialloc_neutral dev type : neutral (ialloc dev type).
Proof. unfold ialloc. apply neutral_bind; [auto with hyg|]. intros sb. apply ialloc_loop_neutral. Qed.

Lemma idup_neutral ip : neutral (idup ip).
Proof. unfold idup. neutral. Qed.
#[export] Hint Resolve ialloc_neutral idup_neutral : hyg.

Lemma ilock_h ip o B I s :
  hold o B I s -> wpf any (ilock ip) (fun _ s' => I ip = false /\ hold o B (<[ip := true]> I) s') s.
Proof.
  intros H. unfold ilock. hstep. hstep; [done|]. apply wpf_bind. eapply wpf_mono; [by apply acquire_inode_h|].
  intros [] s2 [HI H2]. hstep. destruct (i_valid _); cbn [negb when]; repeat hstep; (split; [done|]); try done.
  - hend.
Qed.

Lemma iunlock_h ip o B I s : hold o B I s -> wpf any (iunlock ip) (fun _ s' => hold o B (<[ip := false]> I) s') s.
Proof. intros H. unfold iunlock. repeat hstep. by apply release_inode_h. Qed.


Lemma addr_or_alloc_neutral ip bn : neutral (addr_or_alloc ip bn).
Proof. unfold addr_or_alloc. neutral. Qed.
#[export] Hint Resolve addr_or_alloc_neutral : hyg.

Lemma bmap_neutral ip bn : neutral (bmap ip bn).
Proof.
  intros o B I s H. unfold bmap. hstep; [by apply addr_or_alloc_neutral|]. repeat hstep. hend.
Qed.

Lemma itrunc_neutral ip : neutral (itrunc ip).
Proof.
  unfold itrunc. apply neutral_bind; [neutral|]. intros []. apply neutral_bind; [neutral|]. intros i.
  apply neutral_bind; [|intros []; neutral]. apply neutral_when. intros o B I s H. repeat hstep.
  apply neutral_upd_inode; [done|]. hend.
Qed.
#[export] Hint Resolve bmap_neutral itrunc_neutral : hyg.

Lemma iput_neutral ip : neutral (iput ip).
Proof.
  intros o B I s H. unfold iput. apply wpf_bind. eapply wpf_mono; [by apply acquire_inode_h|]. intros [] s1 [HI H1].
  hstep. hstep. apply wpf_bind. eapply wpf_mono; [eapply release_inode_h; eassumption|]. intros [] s4 H4.
  apply neutral_upd_inode; [done|]. hend.
Qed.
#[export] Hint Resolve iput_neutral : hyg.

Lemma iunlockput_h ip o B I s : hold o B I s -> wpf any (iunlockput ip) (fun _ s' => hold o B (<[ip := false]> I) s') s.
Proof.
  intros H. unfold iunlockput. apply wpf_bind. eapply wpf_mono; [by apply iunlock_h|]. intros [] s1 H1. by apply iput_neutral.
Qed.

Ltac hspec ::=
  match goal with
  | |- wpf _ (bind (ilock _) _) _ _ =>
      apply wpf_bind; eapply wpf_mono; [eapply ilock_h; eassumption|]; cbv beta; intros ? ? [? ?]
  | |- wpf _ (bind (iunlock _) _) _ _ =>
      apply wpf_bind; eapply wpf_mono; [eapply iunlock_h; eassumption|]; cbv beta; intros ? ? ?
  | |- wpf _ (bind begin_op _) _ _ =>
      apply wpf_bind; eapply wpf_mono; [eapply begin_op_h; eassumption|]; cbv beta; intros ? ? ?
  | |- wpf _ (bind end_op _) _ _ =>
      apply wpf_bind; eapply wpf_mono; [eapply end_op_h; eassumption|]; cbv beta; intros ? ? ?
  | |- wpf _ (bind (iunlockput _) _) _ _ =>
      apply wpf_bind; eapply wpf_mono; [eapply iunlockput_h; eassumption|]; cbv beta; intros ? ? ?
  end.

Lemma stati_neutral ip : neutral (stati ip).
Proof. unfold stati. neutral. Qed.
#[export] Hint Resolve stati_neutral : hyg.

(** ** Content and directories; the device functions leave locks and
    transactions as they find them *)

Section Content.
Context (devread : Z -> option (nat -> Z -> M fsys (Z * list Z))).
Context (devwrite : Z -> option (nat -> list Z -> M fsys Z)).
Context (devread_neutral : forall major f ip n, devread major = Some f -> neutral (f ip n)).
Context (devwrite_neutral : forall major f ip src, devwrite major = Some f -> neutral (f ip src)).

Lemma dev_op_some {A} (table : Z -> option A) major f : dev_op table major = Some f -> table major = Some f.
Proof. unfold dev_op. by case_match. Qed.

Lemma readi_loop_neutral fuel ip off left : neutral (readi_loop fuel ip off left).
Proof.
  revert off left. induction fuel as [|fuel IH]; intros off left o B I s H; cbn [readi_loop]; [done|].
  hstep; [|by repeat hstep]. repeat hstep. hend.
Qed.

Lemma readi_neutral ip off n : neutral (readi devread ip off n).
Proof.
  unfold readi. apply neutral_bind; [auto with hyg|]. intros i. case_match.
  { destruct (dev_op devread (i_major i)) as [f|] eqn:Hf; [|apply neutral_ret].
    by eapply devread_neutral, dev_op_some. }
  case_match; [apply neutral_ret|]. apply neutral_bind; [apply readi_loop_neutral|]. intros l. apply neutral_ret.
Qed.

Lemma writei_loop_neutral fuel ip src off : neutral (writei_loop fuel ip src off).
Proof.
  revert src off. induction fuel as [|fuel IH]; intros src off o B I s H; cbn [writei_loop]; [done|].
  hstep; [|by repeat hstep]. repeat hstep. apply IH. hend.
Qed.

Lemma writei_neutral ip src off : neutral (writei devwrite ip src off).
Proof.
  unfold writei. apply neutral_bind; [auto with hyg|]. intros i. case_match.
  { destruct (dev_op devwrite (i_major i)) as [f|] eqn:Hf; [|apply neutral_ret].
    by eapply devwrite_neutral, dev_op_some. }
  case_match; [apply neutral_ret|]. case_match; [apply neutral_ret|].
  apply neutral_bind; [apply writei_loop_neutral|]. intros off'. neutral.
Qed.

#[local] Hint Resolve readi_neutral writei_neutral : hyg.

Lemma dirlookup_loop_neutral fuel dp name off : neutral (dirlookup_loop devread fuel dp name off).
Proof. revert off. induction fuel; intros off; cbn [dirlookup_loop]; neutral. Qed.

Lemma dirlookup_neutral dp name : neutral (dirlookup devread dp name).
Proof. unfold dirlookup. apply neutral_bind; [auto with hyg|]. intros i. case_match; [done|]. apply dirlookup_loop_neutral. Qed.
#[local] Hint Resolve dirlookup_neutral : hyg.

Lemma dirlink_loop_neutral fuel dp off : neutral (dirlink_loop devread fuel dp off).
Proof. revert off. induction fuel; intros off; cbn [dirlink_loop]; neutral. Qed.
#[local] Hint Resolve dirlink_loop_neutral : hyg.

Lemma dirlink_neutral dp name inum : neutral (dirlink devread devwrite dp name inum).
Proof. unfold dirlink. neutral. Qed.

Lemma namex_loop_neutral fuel ip path np name : neutral (namex_loop devread fuel ip path np name).
Proof.
  revert ip path name. induction fuel as [|fuel IH]; intros ip path name o B I s H; cbn [namex_loop]; [done|].
  destruct (skipelem path name) as [[path' name']|]; [|destruct np; repeat hstep; done].
  repeat hstep; try hend. apply IH. hend.
Qed.

Lemma namex_neutral path np name : neutral (namex devread path np name).
Proof.
  unfold namex. apply neutral_bind; [neutral|]. intros ip. apply namex_loop_neutral.
Qed.

Lemma namei_neutral path : neutral (namei devread path).
Proof. unfold namei. apply neutral_bind; [apply namex_neutral|]. intros r. apply neutral_ret. Qed.

Lemma nameiparent_neutral path name : neutral (nameiparent devread path name).
Proof. apply namex_neutral. Qed.
End Content.
