(* ===== verification/Syscall.v ===== *)
(** * syscall.c: system-call arguments

    A system call finds its arguments on the user stack, above the saved
    program counter.  The kernel reads them, and the memory they point to,
    directly through the current page table, after a check against the size of
    the process.  [usermem] is what these functions use of the current process:
    its memory, its size and its stack pointer. *)

From S2P Require Import Prelude Mem.

Local Open Scope Z_scope.

Record usermem := mkUsermem {
  um_mem : mem;     (* the current address space *)
  um_sz : Z;        (* myproc()->sz *)
  um_esp : Z;       (* myproc()->tf->esp *)
}.

(** [*ip], or None for the result -1 *)
Definition fetchint (u : usermem) (addr : Z) : option Z :=
  if (um_sz u <=? addr) || (um_sz u <? u32 (addr + 4)) then None
  else Some (i32 (ld32 (um_mem u) addr)).

(** [for(s = *pp; s < ep; s++) if( *s == 0) return s - *pp;], from [s] on *)
Fixpoint find_nul (left : nat) (m : mem) (s : Z) : option nat :=
  match left with
  | O => None
  | S left' => if m s =? 0 then Some O else S <$> find_nul left' m (s + 1)
  end.

(** The string at [addr] without its NUL, or None for the result -1.  The
    C function returns its length and leaves the string where it is. *)
Definition fetchstr (u : usermem) (addr : Z) : option (list Z) :=
  if um_sz u <=? addr then None
  else bytes_at (um_mem u) addr <$> find_nul (Z.to_nat (um_sz u - addr)) (um_mem u) addr.

Definition argint (u : usermem) (n : Z) : option Z := fetchint u (u32 (um_esp u + 4 + 4 * n)).

(** The address of [size] bytes *)
Definition argptr (u : usermem) (n size : Z) : option Z :=
  match argint u n with
  | None => None
  | Some i =>
      if (size <? 0) || (um_sz u <=? u32 i) || (um_sz u <? u32 (u32 i + size)) then None else Some (u32 i)
  end.

Definition argstr (u : usermem) (n : Z) : option (list Z) :=
  match argint u n with
  | None => None
  | Some addr => fetchstr u (u32 addr)
  end.

(** ** What is accepted lies in the process *)

Lemma find_nul_spec left m s :
  match find_nul left m s with
  | Some k => (k < left)%nat /\ m (s + Z.of_nat k) = 0 /\ forall j, (j < k)%nat -> m (s + Z.of_nat j) <> 0
  | None => forall j, (j < left)%nat -> m (s + Z.of_nat j) <> 0
  end.
Proof.
  revert s. induction left as [|left IH]; intros s; cbn [find_nul]; [intros; lia|].
  destruct (Z.eqb_spec (m s) 0) as [H0|H0].
  { split; [lia|]. split; [by rewrite Z.add_0_r|intros; lia]. }
  assert (forall j (P : Z -> Prop), P (m s) -> (forall j', j = S j' -> P (m (s + 1 + Z.of_nat j'))) -> P (m (s + Z.of_nat j))) as Hj.
  { intros [|j] P Hp Hn; [by rewrite Z.add_0_r|]. replace (s + Z.of_nat (S j)) with (s + 1 + Z.of_nat j) by lia. by apply Hn. }
  specialize (IH (s + 1)). destruct (find_nul left m (s + 1)) as [k|]; cbn [fmap option_fmap option_map].
  - destruct IH as (Hk & Hz & Hnz). split; [lia|]. split; [by replace (s + Z.of_nat (S k)) with (s + 1 + Z.of_nat k) by lia|].
    intros j Hjk. apply (Hj j (fun x => x <> 0)); [done|]. intros j' ->. apply Hnz. lia.
  - intros j Hjk. apply (Hj j (fun x => x <> 0)); [done|]. intros j' ->. apply IH. lia.
Qed.

(** A process is smaller than the kernel base. *)
Definition user_size (u : usermem) : Prop := 0 <= um_sz u <= KERNBASE.

Lemma argint_range u n i : argint u n = Some i -> is_i32 i.
Proof.
  unfold argint, fetchint. case_match; [done|]. intros [= <-]. apply i32_range.
Qed.

Lemma fetchint_in u addr v :
  user_size u -> is_u32 addr -> fetchint u addr = Some v -> addr + 4 <= um_sz u /\ v = i32 (ld32 (um_mem u) addr).
Proof.
  unfold user_size, KERNBASE, fetchint. intros Hsz Ha. destruct (Z.leb_spec (um_sz u) addr); [done|].
  rewrite u32_small by (unfold is_u32, u32_mod in *; lia).
  destruct (Z.ltb_spec (um_sz u) (addr + 4)); [done|]. intros [= <-]. done.
Qed.

Lemma argptr_in u n size p :
  user_size u -> is_i32 size -> argptr u n size = Some p -> 0 <= size /\ 0 <= p < um_sz u /\ p + size <= um_sz u.
Proof.
  unfold user_size, KERNBASE, argptr, is_i32. intros Hsz Hs. destruct (argint u n) as [i|] eqn:Hi; [|done].
  destruct (Z.ltb_spec size 0); [done|]. destruct (Z.leb_spec (um_sz u) (u32 i)); [done|]. cbn [orb].
  pose proof (u32_range i). rewrite u32_small by (unfold is_u32, u32_mod in *; lia).
  destruct (Z.ltb_spec (um_sz u) (u32 i + size)); [done|]. intros [= <-]. unfold is_u32 in *. lia.
Qed.

Lemma argstr_in u n l :
  argstr u n = Some l -> exists p, 0 <= p /\ p + Z.of_nat (length l) < um_sz u /\
    bytes_at (um_mem u) p (length l) = l /\ um_mem u (p + Z.of_nat (length l)) = 0 /\ 0 ∉ l.
Proof.
  unfold argstr, fetchstr. destruct (argint u n) as [i|]; [|done].
  destruct (Z.leb_spec (um_sz u) (u32 i)); [done|]. pose proof (u32_range i) as [? _].
  pose proof (find_nul_spec (Z.to_nat (um_sz u - u32 i)) (um_mem u) (u32 i)) as Hs.
  destruct (find_nul _ _ _) as [k|]; [|done]. destruct Hs as (Hk & Hz & Hnz). intros [= <-].
  rewrite bytes_at_length. exists (u32 i). split_and!; try done; try lia.
  unfold bytes_at. intros (j & Hj & Hin%elem_of_seq)%list_elem_of_fmap. apply (Hnz j); [lia|done].
Qed.
