(* ===== verification/Ring.v ===== *)
(** * Ring buffers with free-running counters

    A ring of [N] bytes indexed by 32-bit counters modulo [N], as pipe.c and
    console.c have it.  Since [N] divides 2^32, the counters may wrap around.
    [held data r k]: the [k] bytes from counter [r] on. *)

From S2P Require Import Prelude.

Local Open Scope Z_scope.

Section Ring.
Context (N : Z).

Definition slot (counter : Z) : nat := Z.to_nat (counter `mod` N).

Fixpoint held (data : nat -> Z) (r : Z) (k : nat) : list Z :=
  match k with
  | O => []
  | S k' => data (slot r) :: held data (u32 (r + 1)) k'
  end.

Context (HN : (N | u32_mod)) (Hpos : 0 < N).

Lemma u32_ring z : u32 z `mod` N = z `mod` N.
Proof using HN Hpos. unfold u32. by apply Z.mod_mod_divide. Qed.

Lemma slot_shift r k : slot (u32 (r + k)) = Z.to_nat ((r + k) `mod` N).
Proof using HN Hpos. unfold slot. by rewrite u32_ring. Qed.

Lemma slot_u32 r : slot (u32 r) = slot r.
Proof using HN Hpos. unfold slot. by rewrite u32_ring. Qed.

Lemma slot_distinct r j k : 0 <= j < N -> 0 <= k < N -> j <> k -> slot (u32 (r + j)) <> slot (u32 (r + k)).
Proof using HN Hpos.
  intros Hj Hk Hne. rewrite !slot_shift. pose proof (Z.mod_pos_bound (r + j) N Hpos). pose proof (Z.mod_pos_bound (r + k) N Hpos).
  intros He. apply (f_equal Z.of_nat) in He. rewrite !Z2Nat.id in He by lia.
  pose proof (Z.div_mod (r + j) N ltac:(lia)). pose proof (Z.div_mod (r + k) N ltac:(lia)).
  assert (N * ((r + j) / N - (r + k) / N) = j - k) as Hq by lia. destruct (Z.lt_trichotomy ((r + j) / N) ((r + k) / N)) as [?|[?|?]]; nia.
Qed.

Lemma u32_add_succ r j : u32 (u32 (r + Z.of_nat j) + 1) = u32 (r + Z.of_nat (S j)).
Proof. unfold u32, u32_mod. zlia. Qed.

Lemma held_insert data r k b : Z.of_nat k < N ->
  forall j, (j <= k)%nat ->
  held (<[slot (u32 (r + Z.of_nat k)) := b]> data) (u32 (r + Z.of_nat j)) (k - j) = held data (u32 (r + Z.of_nat j)) (k - j).
Proof using HN Hpos.
  intros Hk j Hj. remember (k - j)%nat as n eqn:Hn. revert j Hj Hn.
  induction n as [|n IH]; intros j Hj Hn; [done|]. cbn [held].
  rewrite fn_lookup_insert_ne by (apply slot_distinct; lia). f_equal. rewrite u32_add_succ. apply IH; lia.
Qed.

Lemma held_app data r j k : is_u32 r -> held data r (j + k) = held data r j ++ held data (u32 (r + Z.of_nat j)) k.
Proof.
  revert r. induction j as [|j IH]; intros r Hr; cbn [held Nat.add app].
  - by rewrite Z.add_0_r, u32_small.
  - rewrite IH by apply u32_range. do 2 f_equal. unfold u32, u32_mod. f_equal. zlia.
Qed.

Lemma held_length data r k : length (held data r k) = k.
Proof. revert r. induction k as [|k IH]; intros r; cbn [held length]; [done|]. by rewrite IH. Qed.

(** A byte put behind the [k] bytes held *)
Lemma held_put data r k b : is_u32 r -> Z.of_nat k < N ->
  held (<[slot (u32 (r + Z.of_nat k)) := b]> data) r (S k) = held data r k ++ [b].
Proof using HN Hpos.
  intros Hr Hk. replace (S k) with (k + 1)%nat by lia. rewrite held_app by done. cbn [held]. rewrite fn_lookup_insert. f_equal.
  pose proof (held_insert data r k b Hk 0 ltac:(lia)) as H. by rewrite Nat.sub_0_r, Z.add_0_r, (u32_small r) in H by done.
Qed.
End Ring.
