(* ===== verification/Pipe.v ===== *)
(** * pipe.c

    A pipe is a ring of 512 bytes with two counters that run freely modulo
    2^32.  pipewrite and piperead hold the pipe's lock from the moment they
    start or wake until they sleep or return, so each such stretch is one
    function; it says how the stretch ended and on which channels it called
    wakeup.  [pstep] interleaves the stretches of any number of tasks.

    [Fifo]: what readers took is what writers put in, in order.  [Sleepers]:
    a task asleep has a reason to be. *)

From S2P Require Import Prelude Ring.

Local Open Scope Z_scope.

Definition PIPESIZE : Z := 512.

Record pipe := mkPipe {
  pi_data : nat -> Z;
  nread : Z;
  nwrite : Z;
  readopen : bool;
  writeopen : bool;
}.

(** &p->nread and &p->nwrite as sleep channels *)
Inductive chan := ChRead | ChWrite.
#[export] Instance chan_eq_dec : EqDecision chan.
Proof. solve_decision. Defined.

(** How a stretch under the lock ends. *)
Inductive ending := Returns (r : Z) | Sleeps (c : chan).

Abbreviation slot := (Ring.slot PIPESIZE).

(** The fields pipealloc sets *)
Definition new_pipe (data : nat -> Z) : pipe := mkPipe data 0 0 true true.

Definition pipe_full (p : pipe) : bool := nwrite p =? u32 (nread p + PIPESIZE).
Definition pipe_empty (p : pipe) : bool := nread p =? nwrite p.

Definition put_byte (b : Z) (p : pipe) : pipe :=
  mkPipe (<[slot (nwrite p) := b]> (pi_data p)) (nread p) (u32 (nwrite p + 1)) (readopen p) (writeopen p).

Definition drop_byte (p : pipe) : pipe :=
  mkPipe (pi_data p) (u32 (nread p + 1)) (nwrite p) (readopen p) (writeopen p).

(** pipewrite(p, addr, n) with the bytes [rest] of addr still to go: the
    ending, the bytes left, the pipe and the channels woken. *)
Fixpoint pipewrite (killed : bool) (n : Z) (rest : list Z) (p : pipe) : ending * list Z * pipe * list chan :=
  match rest with
  | [] => (Returns n, [], p, [ChRead])
  | b :: rest' =>
      if pipe_full p then
        if negb (readopen p) || killed then (Returns (-1), rest, p, [])
        else (Sleeps ChWrite, rest, p, [ChRead])
      else pipewrite killed n rest' (put_byte b p)
  end.

(** The copy loop of piperead. *)
Fixpoint piperead_copy (n : nat) (p : pipe) : list Z * pipe :=
  match n with
  | O => ([], p)
  | S n' =>
      if pipe_empty p then ([], p)
      else
        let b := pi_data p (slot (nread p)) in
        let '(l, p') := piperead_copy n' (drop_byte p) in
        (b :: l, p')
  end.

(** piperead(p, addr, n): the ending, the bytes copied out, the pipe and the
    channels woken. *)
Definition piperead (killed : bool) (n : Z) (p : pipe) : ending * list Z * pipe * list chan :=
  if pipe_empty p && writeopen p then
    if killed then (Returns (-1), [], p, []) else (Sleeps ChRead, [], p, [])
  else
    let '(l, p') := piperead_copy (Z.to_nat n) p in
    (Returns (Z.of_nat (length l)), l, p', [ChWrite]).

(** pipeclose: the pipe, the channel woken, and whether the page is freed. *)
Definition pipeclose (writable : bool) (p : pipe) : pipe * list chan * bool :=
  let '(p', w) :=
    if writable then (mkPipe (pi_data p) (nread p) (nwrite p) (readopen p) false, [ChRead])
    else (mkPipe (pi_data p) (nread p) (nwrite p) false (writeopen p), [ChWrite]) in
  (p', w, negb (readopen p') && negb (writeopen p')).

(** ** Tasks *)

Inductive task :=
| TWrite (n : Z) (rest : list Z) (asleep : bool)
| TRead (n : Z) (asleep : bool)
| TDone (r : Z).

(** wakeup(chan) *)
Definition wake (c : chan) (t : task) : task :=
  match t with
  | TWrite n rest true => if decide (c = ChWrite) then TWrite n rest false else t
  | TRead n true => if decide (c = ChRead) then TRead n false else t
  | _ => t
  end.

Definition wake_all (cs : list chan) (t : task) : task := foldr wake t cs.

Definition task_ended (e : ending) (asleep : bool -> task) : task :=
  match e with Returns r => TDone r | Sleeps _ => asleep true end.

(** The pipe, its tasks, and two records kept for the proof: every byte put in
    and every byte taken out so far. *)
Record psys := mkPsys {
  ps_pipe : pipe;
  ps_tasks : nat -> task;
  ps_killed : nat -> bool;
  ps_in : list Z;
  ps_out : list Z;
}.

Definition is_reader (t : task) : bool := match t with TRead _ _ => true | _ => false end.
Definition is_writer (t : task) : bool := match t with TWrite _ _ _ => true | _ => false end.

(** One awake task runs until it sleeps or returns; tasks start, are killed
    (which ends their sleep, as in kill), ends are closed.  A task has its end
    of the pipe open while it runs: fileclose calls pipeclose when the last
    reference to that end goes. *)
Inductive pstep : psys -> psys -> Prop :=
| ps_write i n rest e rest' p' w s :
    ps_tasks s i = TWrite n rest false ->
    pipewrite (ps_killed s i) n rest (ps_pipe s) = (e, rest', p', w) ->
    pstep s (mkPsys p' (<[i := task_ended e (TWrite n rest')]> (fun j => wake_all w (ps_tasks s j)))
      (ps_killed s) (ps_in s ++ take (length rest - length rest') rest) (ps_out s))
| ps_read i n e l p' w s :
    ps_tasks s i = TRead n false ->
    piperead (ps_killed s i) n (ps_pipe s) = (e, l, p', w) ->
    pstep s (mkPsys p' (<[i := task_ended e (TRead n)]> (fun j => wake_all w (ps_tasks s j)))
      (ps_killed s) (ps_in s) (ps_out s ++ l))
| ps_close (writable : bool) p' w freed s :
    (if writable then writeopen else readopen) (ps_pipe s) = true ->
    (forall j, (if writable then is_writer else is_reader) (ps_tasks s j) = false) ->
    pipeclose writable (ps_pipe s) = (p', w, freed) ->
    pstep s (mkPsys p' (fun j => wake_all w (ps_tasks s j)) (ps_killed s) (ps_in s) (ps_out s))
| ps_start i r t s :
    ps_tasks s i = TDone r ->
    (writeopen (ps_pipe s) = true /\ exists n l, t = TWrite n l false) \/
    (readopen (ps_pipe s) = true /\ exists n, t = TRead n false) ->
    pstep s (mkPsys (ps_pipe s) (<[i := t]> (ps_tasks s)) (<[i := false]> (ps_killed s)) (ps_in s) (ps_out s))
| ps_kill i s :
    pstep s (mkPsys (ps_pipe s)
      (<[i := match ps_tasks s i with TWrite n l _ => TWrite n l false | TRead n _ => TRead n false | t => t end]>
        (ps_tasks s)) (<[i := true]> (ps_killed s)) (ps_in s) (ps_out s)).

Inductive preach : psys -> Prop :=
| preach_new data tasks :
    (forall i, exists r, tasks i = TDone r) ->
    preach (mkPsys (new_pipe data) tasks (fun _ => false) [] [])
| preach_step s s' : preach s -> pstep s s' -> preach s'.

(** ** What a pipe holds *)

(** The [k] bytes from [nread] on. *)
Abbreviation held := (Ring.held PIPESIZE).

Record holds (p : pipe) (l : list Z) : Prop := mkHolds {
  ho_read : is_u32 (nread p);
  ho_write : nwrite p = u32 (nread p + Z.of_nat (length l));
  ho_size : Z.of_nat (length l) <= PIPESIZE;
  ho_data : held (pi_data p) (nread p) (length l) = l;
}.

Lemma ring_ok : (PIPESIZE | u32_mod) /\ 0 < PIPESIZE.
Proof. split; [by exists 8388608|done]. Qed.

Lemma holds_put p l b : holds p l -> pipe_full p = false -> holds (put_byte b p) (l ++ [b]).
Proof.
  intros [Hr Hw Hs Hd] Hf. unfold pipe_full in Hf. apply Z.eqb_neq in Hf.
  assert (Z.of_nat (length l) < PIPESIZE) as Hlt.
  { destruct (Z.eq_dec (Z.of_nat (length l)) PIPESIZE) as [He|]; [|lia]. rewrite He in Hw. done. }
  split; cbn; [done|..]; rewrite ?length_app; cbn [length].
  - rewrite Hw. unfold u32, u32_mod. zlia.
  - lia.
  - replace (length l + 1)%nat with (S (length l)) by lia. rewrite Hw, held_put by (apply ring_ok || done). by rewrite Hd.
Qed.

Lemma holds_drop p b l : holds p (b :: l) -> pi_data p (slot (nread p)) = b /\ holds (drop_byte p) l.
Proof.
  intros [Hr Hw Hs Hd]. cbn [length held] in *. injection Hd as Hb Hd. split; [done|].
  split; cbn; [apply u32_range| |lia|done]. rewrite Hw. unfold u32, u32_mod. zlia.
Qed.

Lemma holds_empty p l : holds p l -> pipe_empty p = bool_decide (l = []).
Proof.
  intros [Hr Hw Hs Hd]. unfold pipe_empty. destruct l as [|b l].
  - rewrite bool_decide_true by done. apply Z.eqb_eq. rewrite Hw. cbn. rewrite Z.add_0_r. by rewrite u32_small.
  - rewrite bool_decide_false by done. apply Z.eqb_neq. rewrite Hw. cbn [length] in *.
    unfold is_u32, u32, u32_mod, PIPESIZE in *. zlia.
Qed.

Lemma holds_full p l : holds p l -> pipe_full p = bool_decide (Z.of_nat (length l) = PIPESIZE).
Proof.
  intros [Hr Hw Hs Hd]. unfold pipe_full. rewrite Hw.
  destruct (decide (Z.of_nat (length l) = PIPESIZE)) as [->|Hne].
  - rewrite bool_decide_true by done. apply Z.eqb_refl.
  - rewrite bool_decide_false by done. apply Z.eqb_neq. unfold is_u32, u32, u32_mod, PIPESIZE in *. zlia.
Qed.

Definition same_ends (p p' : pipe) : Prop := readopen p' = readopen p /\ writeopen p' = writeopen p.

(** pipewrite puts a prefix of its bytes; it stops early only at a full pipe. *)
Lemma pipewrite_spec killed n rest : forall p l e rest' p' w,
  holds p l -> pipewrite killed n rest p = (e, rest', p', w) ->
  exists put, rest = put ++ rest' /\ holds p' (l ++ put) /\ same_ends p p' /\
    ((e = Returns n /\ rest' = [] /\ w = [ChRead]) \/
     (pipe_full p' = true /\ rest' <> [] /\
       ((e = Returns (-1) /\ w = [] /\ (readopen p = false \/ killed = true)) \/
        (e = Sleeps ChWrite /\ w = [ChRead] /\ readopen p = true /\ killed = false)))).
Proof.
  induction rest as [|b rest IH]; intros p l e rest' p' w Hp Hrun; cbn [pipewrite] in Hrun.
  { injection Hrun as <- <- <- <-. exists []. rewrite (app_nil_r l). split_and!; try done. by left. }
  destruct (pipe_full p) eqn:Hf.
  - exists []. destruct (readopen p) eqn:Hro, killed; cbn in Hrun; injection Hrun as <- <- <- <-.
    all: rewrite (app_nil_r l); split_and!; try done; right; split_and!; auto.
  - destruct (IH _ (l ++ [b]) _ _ _ _ (holds_put p l b Hp Hf) Hrun) as (put & -> & Hh & He & Hcase).
    exists (b :: put). rewrite <- app_assoc in Hh. auto.
Qed.

Lemma piperead_copy_spec n : forall p l got p',
  holds p l -> piperead_copy n p = (got, p') ->
  got = take n l /\ holds p' (drop n l) /\ same_ends p p'.
Proof.
  induction n as [|n IH]; intros p l got p' Hp Hrun; cbn [piperead_copy] in Hrun.
  { injection Hrun as <- <-. done. }
  rewrite (holds_empty p l Hp) in Hrun. destruct l as [|b l].
  { rewrite bool_decide_true in Hrun by done. injection Hrun as <- <-. done. }
  rewrite bool_decide_false in Hrun by done. destruct (holds_drop p b l Hp) as [Hb Hl]. rewrite Hb in Hrun.
  destruct (piperead_copy n (drop_byte p)) as [got1 p1] eqn:Hc. injection Hrun as <- <-.
  destruct (IH _ l _ _ Hl Hc) as (-> & Hh & He). simpl. done.
Qed.

Lemma take_min {A} n (l : list A) : take (Nat.min n (length l)) l = take n l.
Proof. destruct (Nat.le_ge_cases n (length l)); [by rewrite Nat.min_l|by rewrite Nat.min_r, !take_ge]. Qed.

Lemma drop_min {A} n (l : list A) : drop (Nat.min n (length l)) l = drop n l.
Proof. destruct (Nat.le_ge_cases n (length l)); [by rewrite Nat.min_l|by rewrite Nat.min_r, !drop_ge]. Qed.

(** piperead takes the oldest bytes; it sleeps only at an empty pipe with a
    writer, and returns 0 only when it was asked for nothing or the writers
    are gone. *)
Lemma piperead_spec killed n p l e got p' w :
  holds p l -> piperead killed n p = (e, got, p', w) ->
  got = take (length got) l /\ holds p' (drop (length got) l) /\ same_ends p p' /\
  ((l = [] /\ writeopen p = true /\ got = [] /\ p' = p /\ w = [] /\
      ((e = Returns (-1) /\ killed = true) \/ (e = Sleeps ChRead /\ killed = false))) \/
   ((l <> [] \/ writeopen p = false) /\ e = Returns (Z.of_nat (length got)) /\ w = [ChWrite] /\
      length got = Nat.min (Z.to_nat n) (length l))).
Proof.
  intros Hp Hrun. unfold piperead in Hrun. rewrite (holds_empty p l Hp) in Hrun.
  destruct (bool_decide_reflect (l = [])) as [->|Hl], (writeopen p) eqn:Hw; cbn [andb] in Hrun.
  1: { destruct killed; injection Hrun as <- <- <- <-; split_and!; try done; left; split_and!; auto. }
  all: destruct (piperead_copy _ p) as [got1 p1] eqn:Hc; injection Hrun as <- <- <- <-.
  all: destruct (piperead_copy_spec _ _ _ _ _ Hp Hc) as (-> & Hh & He).
  all: refine (conj _ (conj _ (conj He (or_intror (conj _ (conj eq_refl (conj eq_refl _))))))).
  all: rewrite ?length_take, ?take_min, ?drop_min; auto.
Qed.

(** ** First in, first out *)

Definition fifo (s : psys) : Prop := exists l, holds (ps_pipe s) l /\ ps_in s = ps_out s ++ l.

Lemma holds_ends p p' l :
  pi_data p' = pi_data p -> nread p' = nread p -> nwrite p' = nwrite p -> holds p l -> holds p' l.
Proof. intros Hd Hr Hw [? ? ? ?]. split; rewrite ?Hd, ?Hr, ?Hw; done. Qed.

Lemma fifo_step s s' : fifo s -> pstep s s' -> fifo s'.
Proof.
  intros (l & Hl & Hio) Hstep. destruct Hstep as
    [i n rest e rest' p' w s Ht Hrun|i n e got p' w s Ht Hrun|writable p' w freed s Ho Hn Hc|i r t s Ht Hk|i s].
  - destruct (pipewrite_spec _ _ _ _ _ _ _ _ _ Hl Hrun) as (put & -> & Hh & _). exists (l ++ put). split; [done|].
    cbn. rewrite length_app. replace (length put + length rest' - length rest')%nat with (length put) by lia.
    by rewrite take_app_length, Hio, app_assoc.
  - destruct (piperead_spec _ _ _ _ _ _ _ _ Hl Hrun) as (Hg & Hh & _). exists (drop (length got) l).
    split; [done|]. cbn. rewrite Hio, <- app_assoc. f_equal. rewrite Hg at 1. by rewrite take_drop.
  - exists l. split; [|done]. unfold pipeclose in Hc.
    destruct writable; injection Hc as <- _ _; by apply (holds_ends (ps_pipe s)).
  - by exists l.
  - by exists l.
Qed.

Lemma fifo_new data tasks k : fifo (mkPsys (new_pipe data) tasks k [] []).
Proof. exists []. split; [|done]. by split. Qed.

Lemma preach_fifo s : preach s -> fifo s.
Proof. induction 1; [apply fifo_new|by eapply fifo_step]. Qed.

(** ** Sleeping tasks *)

(** A sleeping writer has a full pipe with a reader, a sleeping reader an
    empty pipe with a writer; a closed end has no task. *)
Record sleepers_ok (s : psys) : Prop := mkSleepersOk {
  sl_write : forall i n rest, ps_tasks s i = TWrite n rest true ->
    pipe_full (ps_pipe s) = true /\ readopen (ps_pipe s) = true;
  sl_read : forall i n, ps_tasks s i = TRead n true ->
    pipe_empty (ps_pipe s) = true /\ writeopen (ps_pipe s) = true;
  sl_readers : readopen (ps_pipe s) = false -> forall i, is_reader (ps_tasks s i) = false;
  sl_writers : writeopen (ps_pipe s) = false -> forall i, is_writer (ps_tasks s i) = false;
}.

Lemma wake_reader w t : is_reader (wake_all w t) = is_reader t.
Proof.
  induction w as [|c w IH]; [done|]. cbn [wake_all foldr] in *. fold (wake_all w t) in *.
  rewrite <- IH. unfold wake. by destruct (wake_all w t) as [? ? []|? []|]; try case_decide.
Qed.

Lemma wake_writer w t : is_writer (wake_all w t) = is_writer t.
Proof.
  induction w as [|c w IH]; [done|]. cbn [wake_all foldr] in *. fold (wake_all w t) in *.
  rewrite <- IH. unfold wake. by destruct (wake_all w t) as [? ? []|? []|]; try case_decide.
Qed.

(** Who still sleeps after wakeups slept before, on another channel. *)
Lemma wake_write_asleep w t n rest : wake_all w t = TWrite n rest true -> t = TWrite n rest true /\ ChWrite ∉ w.
Proof.
  induction w as [|c w IH]; [set_solver|]. cbn [wake_all foldr]. fold (wake_all w t). intros Hw.
  destruct (wake_all w t) as [? ? []|? []|] eqn:Ht; cbn in Hw; try case_decide; try done.
  injection Hw as -> ->. destruct (IH eq_refl) as [-> ?]. split; [done|]. set_solver.
Qed.

Lemma wake_read_asleep w t n : wake_all w t = TRead n true -> t = TRead n true /\ ChRead ∉ w.
Proof.
  induction w as [|c w IH]; [set_solver|]. cbn [wake_all foldr]. fold (wake_all w t). intros Hw.
  destruct (wake_all w t) as [? ? []|? []|] eqn:Ht; cbn in Hw; try case_decide; try done.
  injection Hw as ->. destruct (IH eq_refl) as [-> ?]. split; [done|]. set_solver.
Qed.

Definition no_kill (s : psys) : Prop := forall i, ps_killed s i = false.

(** The frame of a step in which task [i] ran: [P] of its new state, and of
    the others as wakeup left them. *)
Lemma tasks_after (P : task -> Prop) w (tasks : nat -> task) i t :
  P t -> (forall j, P (wake_all w (tasks j))) ->
  forall j, P ((<[i := t]> (fun j => wake_all w (tasks j)) : nat -> task) j).
Proof.
  intros Ht Hw j. destruct (decide (i = j)) as [->|]; [by rewrite fn_lookup_insert|].
  by rewrite fn_lookup_insert_ne.
Qed.

(** [sleepers_ok] as a condition on each task. *)
Definition task_ok (p : pipe) (t : task) : Prop :=
  match t with
  | TWrite _ _ asleep => writeopen p = true /\ (asleep = true -> pipe_full p = true /\ readopen p = true)
  | TRead _ asleep => readopen p = true /\ (asleep = true -> pipe_empty p = true /\ writeopen p = true)
  | TDone _ => True
  end.

Lemma sleepers_tasks s : sleepers_ok s <-> forall i, task_ok (ps_pipe s) (ps_tasks s i).
Proof.
  split.
  - intros [Hw Hr Hnr Hnw] i. unfold task_ok. destruct (ps_tasks s i) as [n rest a|n a|r] eqn:Ht; [| |done].
    + split; [|intros ->; eauto]. destruct (writeopen (ps_pipe s)) eqn:E; [done|].
      specialize (Hnw eq_refl i). by rewrite Ht in Hnw.
    + split; [|intros ->; eauto]. destruct (readopen (ps_pipe s)) eqn:E; [done|].
      specialize (Hnr eq_refl i). by rewrite Ht in Hnr.
  - intros Hok. split.
    + intros i n rest Ht. specialize (Hok i). rewrite Ht in Hok. naive_solver.
    + intros i n Ht. specialize (Hok i). rewrite Ht in Hok. naive_solver.
    + intros Hro i. specialize (Hok i). destruct (ps_tasks s i); simpl in *; naive_solver congruence.
    + intros Hwo i. specialize (Hok i). destruct (ps_tasks s i); simpl in *; naive_solver congruence.
Qed.

(** A task after wakeups is fine in [p'] if it sleeps for a reason there. *)
Lemma woken_ok p p' w t :
  task_ok p t -> same_ends p p' ->
  (forall n rest, t = TWrite n rest true -> ChWrite ∉ w -> pipe_full p' = true) ->
  (forall n, t = TRead n true -> ChRead ∉ w -> pipe_empty p' = true) ->
  task_ok p' (wake_all w t).
Proof.
  intros Hok [Hro Hwo] Hw Hr. pose proof (wake_reader w t) as Hir. pose proof (wake_writer w t) as Hiw.
  destruct (wake_all w t) as [n rest a|n a|r] eqn:E; simpl in *; [| |done]; rewrite Hro, Hwo.
  - destruct t as [n' rest' a'|?|?]; try done. destruct Hok as [? Hok]. split; [done|]. intros ->.
    apply wake_write_asleep in E as [[= -> -> ->] ?]. split; [by eapply Hw|by apply Hok].
  - destruct t as [|n' a'|?]; try done. destruct Hok as [? Hok]. split; [done|]. intros ->.
    apply wake_read_asleep in E as [[= -> ->] ?]. split; [by eapply Hr|by apply Hok].
Qed.

Lemma sleepers_write s i n rest e rest' p' w :
  fifo s -> no_kill s -> sleepers_ok s -> ps_tasks s i = TWrite n rest false ->
  pipewrite (ps_killed s i) n rest (ps_pipe s) = (e, rest', p', w) ->
  forall j, task_ok p' ((<[i := task_ended e (TWrite n rest')]> (fun j => wake_all w (ps_tasks s j)) : nat -> task) j).
Proof.
  intros (l & Hl & _) Hnk Hok Ht Hrun. rewrite sleepers_tasks in Hok. rewrite Hnk in Hrun.
  destruct (pipewrite_spec _ _ _ _ _ _ _ _ _ Hl Hrun) as (put & -> & Hh & He & Hcase).
  pose proof (Hok i) as Hi. rewrite Ht in Hi. destruct Hi as [Hwo _]. pose proof He as [Hro' Hwo'].
  apply tasks_after.
  - destruct Hcase as [(-> & _)|(Hf & _ & [(-> & _)|(-> & _ & Hro & _)])]; simpl; rewrite ?Hwo', ?Hro'; auto.
  - intros j. apply (woken_ok (ps_pipe s)); [done..| |].
    + intros m r Hj _. destruct Hcase as [(-> & -> & ->)|(Hf & _)]; [|done].
      specialize (Hok j). rewrite Hj in Hok. destruct Hok as [_ Hok]. destruct (Hok eq_refl) as [Hfull _].
      rewrite (holds_full _ _ Hl), bool_decide_eq_true in Hfull. rewrite (holds_full _ _ Hh), bool_decide_eq_true.
      pose proof (ho_size _ _ Hh) as Hsz. rewrite length_app in *. lia.
    + intros m Hj Hn. destruct Hcase as [(-> & -> & ->)|(Hf & _ & [(-> & -> & [Hro|])|(-> & -> & _)])]; try done.
      1,3: set_solver.
      specialize (Hok j). rewrite Hj in Hok. destruct Hok as [Hok _]. congruence.
Qed.

Lemma sleepers_read s i n e got p' w :
  fifo s -> no_kill s -> sleepers_ok s -> ps_tasks s i = TRead n false ->
  piperead (ps_killed s i) n (ps_pipe s) = (e, got, p', w) ->
  forall j, task_ok p' ((<[i := task_ended e (TRead n)]> (fun j => wake_all w (ps_tasks s j)) : nat -> task) j).
Proof.
  intros (l & Hl & _) Hnk Hok Ht Hrun. rewrite sleepers_tasks in Hok. rewrite Hnk in Hrun.
  destruct (piperead_spec _ _ _ _ _ _ _ _ Hl Hrun) as (Hg & Hh & He & Hcase).
  pose proof (Hok i) as Hi. rewrite Ht in Hi. destruct Hi as [Hro _]. pose proof He as [Hro' Hwo'].
  apply tasks_after.
  - destruct Hcase as [(-> & Hwo & -> & -> & -> & [(_ & ?)|(-> & _)])|(_ & -> & _)]; [done| |done].
    simpl. rewrite (holds_empty _ _ Hl). auto.
  - intros j. apply (woken_ok (ps_pipe s)); [done..| |].
    + intros m r Hj Hn. destruct Hcase as [(-> & Hwo & -> & -> & -> & _)|(_ & _ & -> & _)]; [|set_solver].
      specialize (Hok j). rewrite Hj in Hok. by apply Hok.
    + intros m Hj _. specialize (Hok j). rewrite Hj in Hok. destruct Hok as [_ Hok].
      destruct (Hok eq_refl) as [Hem _]. rewrite (holds_empty _ _ Hl), bool_decide_eq_true in Hem. subst l.
      rewrite (holds_empty _ _ Hh), drop_nil. done.
Qed.

Lemma sleepers_step s s' : fifo s -> no_kill s -> sleepers_ok s -> pstep s s' -> sleepers_ok s'.
Proof.
  intros Hf Hnk Hok Hstep. apply sleepers_tasks. destruct Hstep as
    [i n rest e rest' p' w s Ht Hrun|i n e got p' w s Ht Hrun|writable p' w freed s Ho Hn Hc|i r t s Ht Hk|i s].
  - by eapply sleepers_write.
  - by eapply sleepers_read.
  - rewrite sleepers_tasks in Hok. intros j. specialize (Hok j). specialize (Hn j). cbn. unfold pipeclose in Hc.
    destruct writable; injection Hc as <- <- _; cbn.
    all: destruct (ps_tasks s j) as [? ? []|? []|]; simpl in *; naive_solver.
  - rewrite sleepers_tasks in Hok. intros j. specialize (Hok j). cbn. destruct (decide (i = j)) as [->|].
    + rewrite fn_lookup_insert. destruct Hk as [(? & ? & ? & ->)|(? & ? & ->)]; simpl; naive_solver.
    + by rewrite fn_lookup_insert_ne.
  - rewrite sleepers_tasks in Hok. intros j. specialize (Hok j). cbn. destruct (decide (i = j)) as [->|].
    + rewrite fn_lookup_insert. destruct (ps_tasks s j); simpl in *; naive_solver.
    + by rewrite fn_lookup_insert_ne.
Qed.

(** Runs in which nobody is killed before the last step. *)
Inductive pcalm : psys -> Prop :=
| pcalm_new data tasks :
    (forall i, exists r, tasks i = TDone r) ->
    pcalm (mkPsys (new_pipe data) tasks (fun _ => false) [] [])
| pcalm_step s s' : pcalm s -> no_kill s -> pstep s s' -> pcalm s'.

Lemma pcalm_ok s : pcalm s -> fifo s /\ sleepers_ok s.
Proof.
  induction 1 as [data tasks Ht|s s' _ [Hf Hs] Hnk Hstep].
  - split; [apply fifo_new|]. apply sleepers_tasks. intros i. cbn. destruct (Ht i) as [r ->]. done.
  - split; [by eapply fifo_step|by eapply sleepers_step].
Qed.

(** A killed writer with more bytes than the pipe takes. *)
Lemma pipewrite_killed n rest p :
  holds p [] -> PIPESIZE < Z.of_nat (length rest) ->
  exists rest' p', pipewrite true n rest p = (Returns (-1), rest', p', []) /\ pipe_full p' = true /\ same_ends p p'.
Proof.
  intros Hp Hlen. destruct (pipewrite true n rest p) as [[[e rest'] p'] w] eqn:Hrun.
  destruct (pipewrite_spec _ _ _ _ _ _ _ _ _ Hp Hrun) as (put & -> & Hh & He & Hcase).
  destruct Hcase as [(-> & -> & ->)|(Hf & _ & [(-> & -> & _)|(-> & _ & _ & ?)])]; [|eauto|done].
  pose proof (ho_size _ _ Hh). rewrite app_nil_r in Hlen. simpl in *. lia.
Qed.
