(* ===== verification/File.v ===== *)
(** * file.c and pipealloc

    The table of open files on top of inodes and pipes, for the process that
    runs.  A [struct file *] is an index into ftable.file.  A pipe lives in a
    page from kalloc and is known by its address; its content is kept apart
    from the bytes of the page.  Other processes do not appear: a wait that
    only they can end is [NoFuel], and wakeup has no effect here. *)

From S2P Require Import Prelude Mem KString Kalloc FsState Bio Log Fs Pipe Syscall.

Local Open Scope c_scope.
Local Open Scope Z_scope.

Definition NFILE : nat := 100.

Inductive filetype := FD_NONE | FD_PIPE | FD_INODE.

#[export] Instance filetype_eq_dec : EqDecision filetype.
Proof. solve_decision. Defined.

Record file := mkFile {
  f_type : filetype;
  f_ref : Z;  (* reference count *)
  f_readable : bool;
  f_writable : bool;
  f_pipe : Z;  (* address of the pipe's page *)
  f_ip : nat;  (* index into icache.inode *)
  f_off : Z;
}.

Definition set_f_type (v : filetype) (r : file) : file :=
  mkFile v (f_ref r) (f_readable r) (f_writable r) (f_pipe r) (f_ip r) (f_off r).
Definition set_f_ref (v : Z) (r : file) : file :=
  mkFile (f_type r) v (f_readable r) (f_writable r) (f_pipe r) (f_ip r) (f_off r).
Definition set_f_readable (v : bool) (r : file) : file :=
  mkFile (f_type r) (f_ref r) v (f_writable r) (f_pipe r) (f_ip r) (f_off r).
Definition set_f_writable (v : bool) (r : file) : file :=
  mkFile (f_type r) (f_ref r) (f_readable r) v (f_pipe r) (f_ip r) (f_off r).
Definition set_f_pipe (v : Z) (r : file) : file :=
  mkFile (f_type r) (f_ref r) (f_readable r) (f_writable r) v (f_ip r) (f_off r).
Definition set_f_ip (v : nat) (r : file) : file :=
  mkFile (f_type r) (f_ref r) (f_readable r) (f_writable r) (f_pipe r) v (f_off r).
Definition set_f_off (v : Z) (r : file) : file :=
  mkFile (f_type r) (f_ref r) (f_readable r) (f_writable r) (f_pipe r) (f_ip r) v.

Record fkern := mkFkern {
  fk_fs : fsys;  (* disk, cache, log and inodes *)
  fk_km : kmem;  (* the page allocator *)
  fk_file : nat -> file;  (* ftable.file *)
  fk_pipe : Z -> pipe;  (* struct pipe, by page address *)
  fk_ofile : nat -> option nat;  (* myproc()->ofile *)
  fk_killed : bool;  (* myproc()->killed *)
  fk_user : usermem;  (* the memory of myproc() *)
}.

Definition set_fk_fs (v : fsys) (r : fkern) : fkern :=
  mkFkern v (fk_km r) (fk_file r) (fk_pipe r) (fk_ofile r) (fk_killed r) (fk_user r).
Definition set_fk_km (v : kmem) (r : fkern) : fkern :=
  mkFkern (fk_fs r) v (fk_file r) (fk_pipe r) (fk_ofile r) (fk_killed r) (fk_user r).
Definition set_fk_file (v : nat -> file) (r : fkern) : fkern :=
  mkFkern (fk_fs r) (fk_km r) v (fk_pipe r) (fk_ofile r) (fk_killed r) (fk_user r).
Definition set_fk_pipe (v : Z -> pipe) (r : fkern) : fkern :=
  mkFkern (fk_fs r) (fk_km r) (fk_file r) v (fk_ofile r) (fk_killed r) (fk_user r).
Definition set_fk_ofile (v : nat -> option nat) (r : fkern) : fkern :=
  mkFkern (fk_fs r) (fk_km r) (fk_file r) (fk_pipe r) v (fk_killed r) (fk_user r).
Definition set_fk_killed (v : bool) (r : fkern) : fkern :=
  mkFkern (fk_fs r) (fk_km r) (fk_file r) (fk_pipe r) (fk_ofile r) v (fk_user r).
Definition set_fk_user (v : usermem) (r : fkern) : fkern :=
  mkFkern (fk_fs r) (fk_km r) (fk_file r) (fk_pipe r) (fk_ofile r) (fk_killed r) v.

(** Run code of the file system or of the page allocator. *)
Definition on_fs {A} (m : M fsys A) : M fkern A := fun s =>
  match m (fk_fs s) with
  | Done a t => Done a (set_fk_fs t s)
  | Panic msg t => Panic msg (set_fk_fs t s)
  | Undef t => Undef (set_fk_fs t s)
  | NoFuel t => NoFuel (set_fk_fs t s)
  end.

Definition on_km {A} (m : M kmem A) : M fkern A := fun s =>
  match m (fk_km s) with
  | Done a t => Done a (set_fk_km t s)
  | Panic msg t => Panic msg (set_fk_km t s)
  | Undef t => Undef (set_fk_km t s)
  | NoFuel t => NoFuel (set_fk_km t s)
  end.

Definition get_file (f : nat) : M fkern file := gets (fun s => fk_file s f).
Definition mod_file (f : nat) (g : file -> file) : M fkern unit :=
  modify (fun s => set_fk_file (<[f := g (fk_file s f)]> (fk_file s)) s).

(** ** The table *)

(** The first file from the list on that is free. *)
Fixpoint filealloc_loop (l : list nat) : M fkern (option nat) :=
  match l with
  | [] => ret None
  | f :: l' =>
      x <- get_file f ;;
      if f_ref x =? 0 then
        mod_file f (set_f_ref 1) ;;
        ret (Some f)
      else filealloc_loop l'
  end.

Definition filealloc : M fkern (option nat) := filealloc_loop (seq 0 NFILE).

Definition filedup (f : nat) : M fkern nat :=
  x <- get_file f ;;
  if f_ref x <? 1 then panic "filedup"
  else
    mod_file f (fun x => set_f_ref (f_ref x + 1) x) ;;
    ret f.

Section File.
(** [end], set by the linker; the device switch. *)
Context (kend : Z).
Context (devread : Z -> option (nat -> Z -> M fsys (Z * list Z))).
Context (devwrite : Z -> option (nat -> list Z -> M fsys Z)).

(** pipeclose on the pipe at address [p] *)
Definition close_pipe (p : Z) (writable : bool) : M fkern unit :=
  x <- gets (fun s => fk_pipe s p) ;;
  let '(x', _, freed) := pipeclose writable x in
  modify (fun s => set_fk_pipe (<[p := x']> (fk_pipe s)) s) ;;
  when freed (on_km (kfree kend p)).

Definition fileclose (f : nat) : M fkern unit :=
  x <- get_file f ;;
  if f_ref x <? 1 then panic "fileclose"
  else
    mod_file f (fun x => set_f_ref (f_ref x - 1) x) ;;
    ff <- get_file f ;;
    if 0 <? f_ref ff then ret tt
    else
      mod_file f (fun x => set_f_type FD_NONE (set_f_ref 0 x)) ;;
      match f_type ff with
      | FD_PIPE => close_pipe (f_pipe ff) (f_writable ff)
      | FD_INODE =>
          on_fs begin_op ;;
          on_fs (iput (f_ip ff)) ;;
          on_fs end_op
      | FD_NONE => ret tt
      end.

(** The result, and what is stored through [st] *)
Definition filestat (f : nat) : M fkern (Z * option stat) :=
  x <- get_file f ;;
  match f_type x with
  | FD_INODE =>
      on_fs (ilock (f_ip x)) ;;
      st <- on_fs (stati (f_ip x)) ;;
      on_fs (iunlock (f_ip x)) ;;
      ret (0, Some st)
  | _ => ret (-1, None)
  end.

(** The result, and the bytes stored from [addr] on *)
Definition fileread (f : nat) (n : Z) : M fkern (Z * list Z) :=
  x <- get_file f ;;
  if negb (f_readable x) then ret (-1, [])
  else
    match f_type x with
    | FD_PIPE =>
        k <- gets fk_killed ;;
        p <- gets (fun s => fk_pipe s (f_pipe x)) ;;
        let '(e, l, p', _) := piperead k n p in
        modify (fun s => set_fk_pipe (<[f_pipe x := p']> (fk_pipe s)) s) ;;
        match e with Returns r => ret (r, l) | Sleeps _ => out_of_fuel end
    | FD_INODE =>
        on_fs (ilock (f_ip x)) ;;
        r <- on_fs (readi devread (f_ip x) (f_off x) n) ;;
        when (0 <? r.1) (mod_file f (fun x => set_f_off (u32 (f_off x + r.1)) x)) ;;
        on_fs (iunlock (f_ip x)) ;;
        ret r
    | FD_NONE => panic "fileread"
    end.

(** [((MAXOPBLOCKS-1-1-2) / 2) * 512] *)
Definition write_max : nat := Z.to_nat ((MAXOPBLOCKS - 1 - 1 - 2) / 2 * 512).

(** The loop of filewrite, with the bytes still to write: true if all of them
    were written *)
Fixpoint filewrite_loop (fuel f : nat) (rest : list Z) : M fkern bool :=
  match fuel with
  | O => out_of_fuel
  | S fuel' =>
      if bool_decide (rest = []) then ret true
      else
        let n1 := Nat.min (length rest) write_max in
        on_fs begin_op ;;
        x <- get_file f ;;
        on_fs (ilock (f_ip x)) ;;
        r <- on_fs (writei devwrite (f_ip x) (take n1 rest) (f_off x)) ;;
        when (0 <? r) (mod_file f (fun x => set_f_off (u32 (f_off x + r)) x)) ;;
        on_fs (iunlock (f_ip x)) ;;
        on_fs end_op ;;
        if r <? 0 then ret false
        else if negb (r =? Z.of_nat n1) then panic "short filewrite"
        else filewrite_loop fuel' f (drop n1 rest)
  end.

Definition filewrite (f : nat) (src : list Z) : M fkern Z :=
  let n := Z.of_nat (length src) in
  x <- get_file f ;;
  if negb (f_writable x) then ret (-1)
  else
    match f_type x with
    | FD_PIPE =>
        k <- gets fk_killed ;;
        p <- gets (fun s => fk_pipe s (f_pipe x)) ;;
        let '(e, _, p', _) := pipewrite k n src p in
        modify (fun s => set_fk_pipe (<[f_pipe x := p']> (fk_pipe s)) s) ;;
        match e with Returns r => ret r | Sleeps _ => out_of_fuel end
    | FD_INODE =>
        all <- filewrite_loop (S (length src)) f src ;;
        ret (if all : bool then n else -1)
    | FD_NONE => panic "filewrite"
    end.

(** ** pipealloc *)

(** [bad:] of pipealloc, with what was allocated *)
Definition pipealloc_bad (f0 f1 : option nat) : M fkern (option (nat * nat)) :=
  (match f0 with Some f => fileclose f | None => ret tt end) ;;
  (match f1 with Some f => fileclose f | None => ret tt end) ;;
  ret None.

Definition pipealloc : M fkern (option (nat * nat)) :=
  r0 <- filealloc ;;
  match r0 with
  | None => pipealloc_bad None None
  | Some f0 =>
      r1 <- filealloc ;;
      match r1 with
      | None => pipealloc_bad (Some f0) None
      | Some f1 =>
          p <- on_km kalloc ;;
          if p =? 0 then pipealloc_bad (Some f0) (Some f1)
          else
            modify (fun s => set_fk_pipe (<[p := new_pipe (pi_data (fk_pipe s p))]> (fk_pipe s)) s) ;;
            mod_file f0 (fun x => set_f_pipe p (set_f_writable false (set_f_readable true (set_f_type FD_PIPE x)))) ;;
            mod_file f1 (fun x => set_f_pipe p (set_f_writable true (set_f_readable false (set_f_type FD_PIPE x)))) ;;
            ret (Some (f0, f1))
      end
  end.
End File.
