(* ===== verification/Sysfile.v ===== *)
(** * sysfile.c

    The system calls on files.  Each takes its arguments from the user stack
    ([fk_user]) and returns the value of the call; what it stores through user
    pointers goes to the user memory.  exec is a parameter here, since it
    replaces that memory. *)

From S2P Require Import Prelude Mem KString Kalloc FsState Bio Log Fs Pipe Syscall File.

Local Open Scope c_scope.
Local Open Scope Z_scope.

Definition NOFILE : nat := 16.
Definition MAXARG : nat := 32.

Definition O_RDONLY : Z := 0.
Definition O_WRONLY : Z := 1.
Definition O_RDWR : Z := 2.
Definition O_CREATE : Z := 512.

(** Store bytes in the user memory. *)
Fixpoint store_bytes (m : mem) (p : Z) (l : list Z) : mem :=
  match l with
  | [] => m
  | b :: l' => store_bytes (<[p := b]> m) (padd p 1) l'
  end.

Definition user : M fkern usermem := gets fk_user.
Definition store_user (p : Z) (l : list Z) : M fkern unit :=
  modify (fun s =>
    let u := fk_user s in
    set_fk_user (mkUsermem (store_bytes (um_mem u) p l) (um_sz u) (um_esp u)) s).

(** The descriptor and the file *)
Definition argfd (n : Z) : M fkern (option (nat * nat)) :=
  u <- user ;;
  match argint u n with
  | None => ret None
  | Some fd =>
      if (fd <? 0) || (Z.of_nat NOFILE <=? fd) then ret None
      else
        o <- gets (fun s => fk_ofile s (Z.to_nat fd)) ;;
        match o with
        | None => ret None
        | Some f => ret (Some (Z.to_nat fd, f))
        end
  end.

Definition put_ofile (fd : nat) (o : option nat) : M fkern unit :=
  modify (fun s => set_fk_ofile (<[fd := o]> (fk_ofile s)) s).

Fixpoint fdalloc_loop (fds : list nat) (f : nat) : M fkern (option nat) :=
  match fds with
  | [] => ret None
  | fd :: fds' =>
      o <- gets (fun s => fk_ofile s fd) ;;
      match o with
      | None => put_ofile fd (Some f) ;; ret (Some fd)
      | Some _ => fdalloc_loop fds' f
      end
  end.

Definition fdalloc (f : nat) : M fkern (option nat) := fdalloc_loop (seq 0 NOFILE) f.

Section Sysfile.
Context (kend : Z).
Context (devread : Z -> option (nat -> Z -> M fsys (Z * list Z))).
Context (devwrite : Z -> option (nat -> list Z -> M fsys Z)).
(** exec(path, argv) *)
Context (exec : list Z -> list (list Z) -> M fkern Z).

Definition sys_dup : M fkern Z :=
  r <- argfd 0 ;;
  match r with
  | None => ret (-1)
  | Some (_, f) =>
      o <- fdalloc f ;;
      match o with
      | None => ret (-1)
      | Some fd => filedup f ;; ret (Z.of_nat fd)
      end
  end.

Definition sys_read : M fkern Z :=
  r <- argfd 0 ;;
  u <- user ;;
  match r, argint u 2 with
  | Some (_, f), Some n =>
      match argptr u 1 n with
      | None => ret (-1)
      | Some p =>
          x <- fileread devread f n ;;
          store_user p x.2 ;;
          ret x.1
      end
  | _, _ => ret (-1)
  end.

Definition sys_write : M fkern Z :=
  r <- argfd 0 ;;
  u <- user ;;
  match r, argint u 2 with
  | Some (_, f), Some n =>
      match argptr u 1 n with
      | None => ret (-1)
      | Some p => filewrite devwrite f (bytes_at (um_mem u) p (Z.to_nat n))
      end
  | _, _ => ret (-1)
  end.

Definition sys_close : M fkern Z :=
  r <- argfd 0 ;;
  match r with
  | None => ret (-1)
  | Some (fd, f) =>
      put_ofile fd None ;;
      fileclose kend f ;;
      ret 0
  end.

(** The fields of struct stat at [p]; the bytes between them stay. *)
Definition store_stat (p : Z) (st : stat) : M fkern unit :=
  store_user p (bytes16 (u16 (st_type st))) ;;
  store_user (padd p 4) (bytes32 (u32 (st_dev st))) ;;
  store_user (padd p 8) (bytes32 (st_ino st)) ;;
  store_user (padd p 12) (bytes16 (u16 (st_nlink st))) ;;
  store_user (padd p 16) (bytes32 (st_size st)).

Definition sizeof_stat : Z := 20.

Definition sys_fstat : M fkern Z :=
  r <- argfd 0 ;;
  u <- user ;;
  match r, argptr u 1 sizeof_stat with
  | Some (_, f), Some p =>
      x <- filestat f ;;
      (match x.2 with Some st => store_stat p st | None => ret tt end) ;;
      ret x.1
  | _, _ => ret (-1)
  end.

(** ** Links *)

Definition add_nlink (k : Z) (i : inode) : inode := set_i_nlink (i16 (i_nlink i + k)) i.

(** [bad:] of sys_link *)
Definition link_bad (ip : nat) : M fsys Z :=
  ilock ip ;;
  mod_inode ip (add_nlink (-1)) ;;
  iupdate ip ;;
  iunlockput ip ;;
  end_op ;;
  ret (-1).

(** What name[DIRSIZ] holds before nameiparent fills it: the stack *)
Context (stack_name : list Z).

Definition do_link (old new : list Z) : M fsys Z :=
  begin_op ;;
  r <- namei devread old ;;
  match r with
  | None => end_op ;; ret (-1)
  | Some ip =>
      ilock ip ;;
      i <- get_inode ip ;;
      if i_type i =? T_DIR then iunlockput ip ;; end_op ;; ret (-1)
      else
        mod_inode ip (add_nlink 1) ;;
        iupdate ip ;;
        iunlock ip ;;
        d <- nameiparent devread new stack_name ;;
        match d.1 with
        | None => link_bad ip
        | Some dp =>
            ilock dp ;;
            di <- get_inode dp ;;
            i <- get_inode ip ;;
            failed <- (if negb (i_dev di =? i_dev i) then ret true
                       else r <- dirlink devread devwrite dp d.2 (i_inum i) ;; ret (r <? 0)) ;;
            if failed : bool then iunlockput dp ;; link_bad ip
            else
              iunlockput dp ;;
              iput ip ;;
              end_op ;;
              ret 0
        end
  end.

Definition sys_link : M fkern Z :=
  u <- user ;;
  match argstr u 0, argstr u 1 with
  | Some old, Some new => on_fs (do_link old new)
  | _, _ => ret (-1)
  end.

(** [for(off=2*sizeof(de); off<dp->size; off+=sizeof(de))] *)
Fixpoint isdirempty_loop (fuel : nat) (dp : nat) (off : Z) : M fsys bool :=
  match fuel with
  | O => out_of_fuel
  | S fuel' =>
      i <- get_inode dp ;;
      if off <? i_size i then
        r <- readi devread dp off sizeof_dirent ;;
        if negb (r.1 =? sizeof_dirent) then panic "isdirempty: readi"
        else if negb (de_inum r.2 =? 0) then ret false
        else isdirempty_loop fuel' dp (off + sizeof_dirent)
      else ret true
  end.

Definition isdirempty (dp : nat) : M fsys bool :=
  i <- get_inode dp ;;
  isdirempty_loop (Z.to_nat (i_size i / sizeof_dirent) + 2) dp (2 * sizeof_dirent).

Definition dot : list Z := [46; 0].
Definition dotdot : list Z := [46; 46; 0].

(** [bad:] of sys_unlink *)
Definition unlink_bad (dp : nat) : M fsys Z := iunlockput dp ;; end_op ;; ret (-1).

Definition do_unlink (path : list Z) : M fsys Z :=
  begin_op ;;
  d <- nameiparent devread path stack_name ;;
  match d.1 with
  | None => end_op ;; ret (-1)
  | Some dp =>
      ilock dp ;;
      if (namecmp d.2 dot =? 0) || (namecmp d.2 dotdot =? 0) then unlink_bad dp
      else
        r <- dirlookup devread dp d.2 ;;
        match r with
        | None => unlink_bad dp
        | Some (ip, off) =>
            ilock ip ;;
            i <- get_inode ip ;;
            if i_nlink i <? 1 then panic "unlink: nlink < 1"
            else
              full <- (if i_type i =? T_DIR then e <- isdirempty ip ;; ret (negb e) else ret false) ;;
              if full : bool then iunlockput ip ;; unlink_bad dp
              else
                w <- writei devwrite dp (repeat 0 (Z.to_nat sizeof_dirent)) off ;;
                if negb (w =? sizeof_dirent) then panic "unlink: writei"
                else
                  i <- get_inode ip ;;
                  when (i_type i =? T_DIR) (mod_inode dp (add_nlink (-1)) ;; iupdate dp) ;;
                  iunlockput dp ;;
                  mod_inode ip (add_nlink (-1)) ;;
                  iupdate ip ;;
                  iunlockput ip ;;
                  end_op ;;
                  ret 0
        end
  end.

Definition sys_unlink : M fkern Z :=
  u <- user ;;
  match argstr u 0 with
  | Some path => on_fs (do_unlink path)
  | None => ret (-1)
  end.

(** ** create: the new inode, locked *)

Definition create (path : list Z) (type major minor : Z) : M fsys (option nat) :=
  d <- nameiparent devread path stack_name ;;
  match d.1 with
  | None => ret None
  | Some dp =>
      ilock dp ;;
      r <- dirlookup devread dp d.2 ;;
      match r with
      | Some (ip, _) =>
          iunlockput dp ;;
          ilock ip ;;
          i <- get_inode ip ;;
          if (type =? T_FILE) && (i_type i =? T_FILE) then ret (Some ip)
          else iunlockput ip ;; ret None
      | None =>
          di <- get_inode dp ;;
          ip <- ialloc (i_dev di) type ;;
          ilock ip ;;
          mod_inode ip (fun i => set_i_nlink 1 (set_i_minor (i16 minor) (set_i_major (i16 major) i))) ;;
          iupdate ip ;;
          when (type =? T_DIR)
            (mod_inode dp (add_nlink 1) ;;
             iupdate dp ;;
             i <- get_inode ip ;;
             r1 <- dirlink devread devwrite ip dot (i_inum i) ;;
             if r1 <? 0 then panic "create dots"
             else
               di <- get_inode dp ;;
               r2 <- dirlink devread devwrite ip dotdot (i_inum di) ;;
               if r2 <? 0 then panic "create dots" else ret tt) ;;
          i <- get_inode ip ;;
          r <- dirlink devread devwrite dp d.2 (i_inum i) ;;
          if r <? 0 then panic "create: dirlink"
          else
            iunlockput dp ;;
            ret (Some ip)
      end
  end.

(** The part of sys_open that finds the inode: locked, or None after end_op *)
Definition open_inode (path : list Z) (omode : Z) : M fsys (option nat) :=
  begin_op ;;
  if negb (Z.land omode O_CREATE =? 0) then
    r <- create path T_FILE 0 0 ;;
    match r with
    | None => end_op ;; ret None
    | Some ip => ret (Some ip)
    end
  else
    r <- namei devread path ;;
    match r with
    | None => end_op ;; ret None
    | Some ip =>
        ilock ip ;;
        i <- get_inode ip ;;
        if (i_type i =? T_DIR) && negb (omode =? O_RDONLY) then iunlockput ip ;; end_op ;; ret None
        else ret (Some ip)
    end.

(** The file and descriptor of sys_open, or None when there is none *)
Definition open_file : M fkern (option (nat * nat)) :=
  r <- filealloc ;;
  match r with
  | None => ret None
  | Some f =>
      o <- fdalloc f ;;
      match o with
      | None => fileclose kend f ;; ret None
      | Some fd => ret (Some (f, fd))
      end
  end.

Definition sys_open : M fkern Z :=
  u <- user ;;
  match argstr u 0, argint u 1 with
  | Some path, Some omode =>
      r <- on_fs (open_inode path omode) ;;
      match r with
      | None => ret (-1)
      | Some ip =>
          o <- open_file ;;
          match o with
          | None => on_fs (iunlockput ip) ;; on_fs end_op ;; ret (-1)
          | Some (f, fd) =>
              on_fs (iunlock ip) ;;
              on_fs end_op ;;
              mod_file f (fun x =>
                set_f_writable (negb (Z.land omode O_WRONLY =? 0) || negb (Z.land omode O_RDWR =? 0))
                  (set_f_readable (Z.land omode O_WRONLY =? 0)
                    (set_f_off 0 (set_f_ip ip (set_f_type FD_INODE x))))) ;;
              ret (Z.of_nat fd)
          end
      end
  | _, _ => ret (-1)
  end.

(** mkdir and mknod: begin_op comes before the arguments are read *)
Definition make (arg : option (list Z * Z * Z)) (type : Z) : M fsys Z :=
  begin_op ;;
  match arg with
  | None => end_op ;; ret (-1)
  | Some (path, major, minor) =>
      r <- create path type major minor ;;
      match r with
      | None => end_op ;; ret (-1)
      | Some ip => iunlockput ip ;; end_op ;; ret 0
      end
  end.

Definition sys_mkdir : M fkern Z :=
  u <- user ;;
  on_fs (make ((fun path => (path, 0, 0)) <$> argstr u 0) T_DIR).

Definition sys_mknod : M fkern Z :=
  u <- user ;;
  on_fs (make (match argstr u 0, argint u 1, argint u 2 with
               | Some path, Some major, Some minor => Some (path, major, minor)
               | _, _, _ => None
               end) T_DEV).

Definition do_chdir (arg : option (list Z)) : M fsys Z :=
  begin_op ;;
  match arg with
  | None => end_op ;; ret (-1)
  | Some path =>
      r <- namei devread path ;;
      match r with
      | None => end_op ;; ret (-1)
      | Some ip =>
          ilock ip ;;
          i <- get_inode ip ;;
          if negb (i_type i =? T_DIR) then iunlockput ip ;; end_op ;; ret (-1)
          else
            iunlock ip ;;
            cwd <- gets fs_cwd ;;
            iput cwd ;;
            end_op ;;
            modify (set_fs_cwd ip) ;;
            ret 0
      end
  end.

Definition sys_chdir : M fkern Z :=
  u <- user ;;
  on_fs (do_chdir (argstr u 0)).

(** ** exec and pipe *)

(** The argument strings, up to a null pointer *)
Fixpoint exec_args (left : nat) (u : usermem) (uargv i : Z) : option (list (list Z)) :=
  match left with
  | O => None
  | S left' =>
      match fetchint u (u32 (uargv + 4 * i)) with
      | None => None
      | Some uarg =>
          if uarg =? 0 then Some []
          else
            match fetchstr u (u32 uarg) with
            | None => None
            | Some arg => cons arg <$> exec_args left' u uargv (i + 1)
            end
      end
  end.

Definition sys_exec : M fkern Z :=
  u <- user ;;
  match argstr u 0, argint u 1 with
  | Some path, Some uargv =>
      match exec_args MAXARG u (u32 uargv) 0 with
      | None => ret (-1)
      | Some argv => exec path argv
      end
  | _, _ => ret (-1)
  end.

Definition pipe_bad (fd0 : option nat) (rf wf : nat) : M fkern Z :=
  (match fd0 with Some fd => put_ofile fd None | None => ret tt end) ;;
  fileclose kend rf ;;
  fileclose kend wf ;;
  ret (-1).

Definition sys_pipe : M fkern Z :=
  u <- user ;;
  match argptr u 0 8 with
  | None => ret (-1)
  | Some fd =>
      r <- pipealloc kend ;;
      match r with
      | None => ret (-1)
      | Some (rf, wf) =>
          o0 <- fdalloc rf ;;
          match o0 with
          | None => pipe_bad None rf wf
          | Some fd0 =>
              o1 <- fdalloc wf ;;
              match o1 with
              | None => pipe_bad (Some fd0) rf wf
              | Some fd1 =>
                  store_user fd (bytes32 (Z.of_nat fd0)) ;;
                  store_user (padd fd 4) (bytes32 (Z.of_nat fd1)) ;;
                  ret 0
              end
          end
      end
  end.

End Sysfile.
