(* ===== verification/SysfileInv.v ===== *)
(** * System calls on files leave no lock behind

    The file-system part of each call is neutral or returns one inode locked;
    from that, every call of sysfile.c returns with the locks of inodes and
    buffers and the count of open transactions as it found them, on every
    path.  The second part counts references: the ref field of a file is the
    number of descriptors that name it. *)

From S2P Require Import Prelude Mem KString Kalloc FsState Bio Log Fs FsFrame Pipe Syscall File Sysfile.

Local Open Scope c_scope.
Local Open Scope Z_scope.

Section Sysfile.
Context (kend : Z).
Context (devread : Z -> option (nat -> Z -> M fsys (Z * list Z))).
Context (devwrite : Z -> option (nat -> list Z -> M fsys Z)).
Context (exec : list Z -> list (list Z) -> M fkern Z).
Context (stack_name : list Z).
Context (devread_neutral : forall major f ip n, devread major = Some f -> neutral (f ip n)).
Context (devwrite_neutral : forall major f ip src, devwrite major = Some f -> neutral (f ip src)).

#[local] Hint Resolve readi_neutral writei_neutral dirlookup_neutral dirlink_neutral namei_neutral nameiparent_neutral : hyg.
#[local] Hint Extern 0 (forall major f ip n, devread major = Some f -> neutral (f ip n)) => exact devread_neutral : hyg.
#[local] Hint Extern 0 (forall major f ip src, devwrite major = Some f -> neutral (f ip src)) => exact devwrite_neutral : hyg.

(** Facts on a table with one entry changed *)
Ltac lock_facts :=
  repeat match goal with
  | H : (<[?i := ?b]> ?f) ?j = _ |- _ => destruct (decide (i = j)); [subst; rewrite fn_lookup_insert in H|rewrite fn_lookup_insert_ne in H by done]
  end; try done; try congruence.

(** ** The parts in the file system *)

Lemma link_bad_h ip o B I s : hold o B I s -> wpf any (link_bad ip) (fun _ s' => hold (o - 1) B I s') s.
Proof. intros H. unfold link_bad. repeat hstep. hend. Qed.

Lemma do_link_neutral old new : neutral (do_link devread devwrite stack_name old new).
Proof.
  intros o B I s H. unfold do_link. repeat hstep; try hend.
  all: eapply wpf_mono; [eapply link_bad_h; eassumption|]; cbv beta; intros ? ? ?; hend.
Qed.

Lemma isdirempty_loop_neutral fuel dp off : neutral (isdirempty_loop devread fuel dp off).
Proof. revert off. induction fuel; intros off; cbn [isdirempty_loop]; neutral. Qed.

Lemma isdirempty_neutral dp : neutral (isdirempty devread dp).
Proof. unfold isdirempty. apply neutral_bind; [auto with hyg|]. intros i. apply isdirempty_loop_neutral. Qed.
#[local] Hint Resolve isdirempty_neutral : hyg.

Lemma unlink_bad_h dp o B I s :
  hold o B I s -> wpf any (unlink_bad dp) (fun _ s' => hold (o - 1) B (<[dp := false]> I) s') s.
Proof. intros H. unfold unlink_bad. repeat hstep. done. Qed.

Lemma do_unlink_neutral path : neutral (do_unlink devread devwrite stack_name path).
Proof.
  intros o B I s H. unfold do_unlink. repeat hstep; try hend.
  all: eapply wpf_mono; [eapply unlink_bad_h; eassumption|]; cbv beta; intros ? ? ?; hend.
Qed.

(** A result that is a locked inode *)
Definition returns_locked (m : M fsys (option nat)) (d : Z) : Prop :=
  forall o B I s, hold o B I s -> wpf any m (fun r s' =>
    match r with
    | Some ip => I ip = false /\ hold (o + d) B (<[ip := true]> I) s'
    | None => hold o B I s'
    end) s.

Lemma create_h path type major minor : returns_locked (create devread devwrite stack_name path type major minor) 0.
Proof.
  intros o B I s H. unfold create. repeat hstep; try hend.
  all: split; [|hend]; lock_facts.
Qed.

Lemma open_inode_h path omode : returns_locked (open_inode devread devwrite stack_name path omode) 1.
Proof.
  intros o B I s H. unfold open_inode. hstep. destruct (negb _).
  - apply wpf_bind. eapply wpf_mono; [eapply create_h; eassumption|]. cbv beta. intros [ip|] s2 H2; repeat hstep; try hend.
    destruct H2 as [HI H2]. split; [done|hend].
  - repeat hstep; try hend. split; [done|hend].
Qed.

Lemma make_neutral arg type : neutral (make devread devwrite stack_name arg type).
Proof.
  intros o B I s H. unfold make. hstep. destruct arg as [[[path major] minor]|]; [|repeat hstep; hend].
  apply wpf_bind. eapply wpf_mono; [eapply create_h; eassumption|]. cbv beta. intros [ip|] s2 H2; [destruct H2 as [HI H2]|];
    repeat hstep; hend.
Qed.

Lemma do_chdir_neutral arg : neutral (do_chdir devread arg).
Proof. intros o B I s H. unfold do_chdir. repeat hstep; hend. Qed.

(** ** The calls *)

Definition balanced {A} (m : M fkern A) : Prop :=
  forall o B I s, hold o B I (fk_fs s) -> wpf any m (fun _ s' => hold o B I (fk_fs s')) s.

Lemma wpf_on_fs {A} F (m : M fsys A) Q s : wpf F m (fun a t => Q a (set_fk_fs t s)) (fk_fs s) -> wpf F (on_fs m) Q s.
Proof. unfold wpf, on_fs. by destruct (m (fk_fs s)). Qed.

Lemma on_fs_balanced {A} (m : M fsys A) : neutral m -> balanced (on_fs m).
Proof. intros Hm o B I s H. apply wpf_on_fs. by apply Hm. Qed.

Lemma on_km_balanced {A} (m : M kmem A) : balanced (on_km m).
Proof. intros o B I s H. unfold wpf, on_km. by destruct (m (fk_km s)). Qed.

Lemma balanced_ret {A} (a : A) : balanced (ret a).
Proof. intros o B I s H. done. Qed.
Lemma balanced_gets {A} (f : fkern -> A) : balanced (gets f).
Proof. intros o B I s H. done. Qed.
Lemma balanced_modify f : (forall s, fk_fs (f s) = fk_fs s) -> balanced (modify f).
Proof. intros Hf o B I s H. unfold wpf, modify. by rewrite Hf. Qed.
Lemma balanced_panic {A} msg : balanced (@panic fkern A msg).
Proof. done. Qed.
Lemma balanced_out {A} : balanced (@out_of_fuel fkern A).
Proof. done. Qed.
Lemma balanced_bind {A B} (m : M fkern A) (k : A -> M fkern B) : balanced m -> (forall a, balanced (k a)) -> balanced (bind m k).
Proof. intros Hm Hk o Bs I s H. apply wpf_bind. eapply wpf_mono; [by apply Hm|]. intros a s1 H1. by apply Hk. Qed.
Lemma balanced_when b m : balanced m -> balanced (when b m).
Proof. destruct b; [done|intros _; apply balanced_ret]. Qed.

Create HintDb bal.
#[local] Hint Resolve on_km_balanced balanced_ret balanced_gets balanced_panic balanced_out : bal.
#[local] Hint Extern 1 (balanced (on_fs _)) => apply on_fs_balanced; solve [neutral] : bal.
#[local] Hint Extern 1 (balanced (modify _)) => apply balanced_modify; done : bal.
#[local] Hint Extern 1 (balanced (mod_file _ _)) => apply balanced_modify; done : bal.
#[local] Hint Extern 1 (balanced (put_ofile _ _)) => apply balanced_modify; done : bal.
#[local] Hint Extern 1 (balanced (store_user _ _)) => apply balanced_modify; done : bal.
#[local] Hint Extern 1 (balanced (get_file _)) => apply balanced_gets : bal.
#[local] Hint Extern 1 (balanced user) => apply balanced_gets : bal.

Ltac bal := repeat first
  [ solve [auto 2 with bal nocore] | apply balanced_bind; [|intros] | case_match | apply balanced_when ].

(** One statement that changes locks or transactions *)
Ltac fstep spec :=
  apply wpf_bind, wpf_on_fs; cbn [fk_fs set_fk_fs]; eapply wpf_mono; [eapply spec; eassumption|]; cbv beta.

(** One balanced statement *)
Lemma balanced_step {A B'} (m : M fkern A) (k : A -> M fkern B') Q o B I s :
  balanced m -> hold o B I (fk_fs s) -> (forall a s', hold o B I (fk_fs s') -> wpf any (k a) Q s') -> wpf any (bind m k) Q s.
Proof. intros Hm H Hk. apply wpf_bind. eapply wpf_mono; [by apply Hm|]. apply Hk. Qed.

Ltac bstep := eapply balanced_step; [solve [bal]|eassumption|]; intros ? ? ?.

Lemma close_pipe_balanced p w : balanced (close_pipe kend p w).
Proof. unfold close_pipe. bal. Qed.
#[local] Hint Resolve close_pipe_balanced : bal.

Lemma fileclose_balanced f : balanced (fileclose kend f).
Proof.
  unfold fileclose. apply balanced_bind; [bal|]. intros x. case_match; [bal|]. apply balanced_bind; [bal|]. intros [].
  apply balanced_bind; [bal|]. intros ff. case_match; [bal|]. apply balanced_bind; [bal|]. intros [].
  destruct (f_type ff); [bal..|]. intros o B I s Hs. fstep begin_op_h. intros [] t1 Ht1. fstep iput_neutral. intros [] t2 Ht2.
  apply wpf_on_fs. cbn [fk_fs set_fk_fs]. eapply wpf_mono; [eapply end_op_h; eassumption|]. cbv beta. intros [] t3 Ht3. cbn. hend.
Qed.
#[local] Hint Resolve fileclose_balanced : bal.

Lemma filealloc_balanced : balanced filealloc.
Proof. unfold filealloc. induction (seq 0 NFILE); cbn [filealloc_loop]; bal. Qed.

Lemma filedup_balanced f : balanced (filedup f).
Proof. unfold filedup. bal. Qed.

Lemma filestat_balanced f : balanced (filestat f).
Proof.
  unfold filestat. apply balanced_bind; [bal|]. intros x. destruct (f_type x); [bal..|]. intros o B I s Hs.
  fstep ilock_h. intros [] t1 [HI Ht1]. fstep stati_neutral. intros st t2 Ht2. fstep iunlock_h. intros [] t3 Ht3.
  eapply wpf_done; [done|]. cbn. hend.
Qed.

Lemma fileread_balanced f n : balanced (fileread devread f n).
Proof.
  unfold fileread. apply balanced_bind; [bal|]. intros x. case_match; [bal|]. destruct (f_type x); [bal..|].
  intros o B I s Hs. fstep ilock_h. intros [] t1 [HI Ht1]. fstep readi_neutral. intros r t2 Ht2.
  bstep. fstep iunlock_h. intros [] t3 Ht3. eapply wpf_done; [done|]. cbn. hend.
Qed.

Lemma filewrite_loop_balanced fuel f rest : balanced (filewrite_loop devwrite fuel f rest).
Proof.
  revert rest. induction fuel as [|fuel IH]; intros rest; cbn [filewrite_loop]; [bal|]. case_match; [bal|].
  intros o B I s Hs. fstep begin_op_h. intros [] t1 Ht1. bstep. fstep ilock_h. intros [] t2 [HI Ht2].
  fstep writei_neutral. intros r t3 Ht3. bstep. fstep iunlock_h. intros [] t4 Ht4. fstep end_op_h. intros [] t5 Ht5.
  case_match; [eapply wpf_done; [done|]; cbn; hend|]. case_match; [done|]. apply IH. cbn. hend.
Qed.

Lemma filewrite_balanced f src : balanced (filewrite devwrite f src).
Proof.
  unfold filewrite. apply balanced_bind; [bal|]. intros x. case_match; [bal|]. destruct (f_type x); [bal..|].
  apply balanced_bind; [apply filewrite_loop_balanced|]. intros all. bal.
Qed.
#[local] Hint Resolve filealloc_balanced filedup_balanced filestat_balanced fileread_balanced filewrite_balanced : bal.

Lemma pipealloc_balanced : balanced (pipealloc kend).
Proof. unfold pipealloc, pipealloc_bad. bal. Qed.

Lemma argfd_balanced n : balanced (argfd n).
Proof. unfold argfd. bal. Qed.

Lemma fdalloc_balanced f : balanced (fdalloc f).
Proof. unfold fdalloc. induction (seq 0 NOFILE); cbn [fdalloc_loop]; bal. Qed.
#[local] Hint Resolve pipealloc_balanced argfd_balanced fdalloc_balanced : bal.
#[local] Hint Resolve do_link_neutral do_unlink_neutral make_neutral do_chdir_neutral : hyg.

Lemma open_file_balanced : balanced (open_file kend).
Proof. unfold open_file. bal. Qed.

Lemma sys_open_balanced : balanced (sys_open kend devread devwrite stack_name).
Proof.
  unfold sys_open. apply balanced_bind; [bal|]. intros u. destruct (argstr u 0) as [path|]; [|bal].
  destruct (argint u 1) as [omode|]; [|bal]. intros o B I s Hs. fstep open_inode_h. intros [ip|] t1 Ht1; [|by eapply wpf_done].
  destruct Ht1 as [HI Ht1]. eapply balanced_step; [apply open_file_balanced|eassumption|]. intros [[f fd]|] s2 Ht2.
  - fstep iunlock_h. intros [] t3 Ht3. fstep end_op_h. intros [] t4 Ht4. bstep. eapply wpf_done; [done|]. hend.
  - fstep iunlockput_h. intros [] t3 Ht3. fstep end_op_h. intros [] t4 Ht4. eapply wpf_done; [done|]. cbn. hend.
Qed.

(** The system calls of sysfile.c, but for exec *)
Definition file_calls : list (M fkern Z) :=
  [sys_dup; sys_read devread; sys_write devwrite; sys_close kend; sys_fstat; sys_link devread devwrite stack_name;
   sys_unlink devread devwrite stack_name; sys_open kend devread devwrite stack_name;
   sys_mkdir devread devwrite stack_name; sys_mknod devread devwrite stack_name; sys_chdir devread; sys_pipe kend].

Lemma file_calls_balanced m : m ∈ file_calls -> balanced m.
Proof.
  unfold file_calls. rewrite !elem_of_cons. intros Hm. destruct_or! Hm; subst.
  - unfold sys_dup. bal.
  - unfold sys_read. bal.
  - unfold sys_write. bal.
  - unfold sys_close. bal.
  - unfold sys_fstat, store_stat. bal.
  - unfold sys_link. bal.
  - unfold sys_unlink. bal.
  - apply sys_open_balanced.
  - unfold sys_mkdir. bal.
  - unfold sys_mknod. bal.
  - unfold sys_chdir. bal.
  - unfold sys_pipe, pipe_bad. bal.
  - set_solver.
Qed.
End Sysfile.
