(* ===== verification/FileRefs.v ===== *)
(** * Reference counts of open files

    [refs ext s]: the ref field of each file is the number of descriptors of
    the running process that name it plus [ext], the references held
    elsewhere (other processes, or a function in the middle of its work). *)

From S2P Require Import Prelude Mem KString Kalloc FsState Bio Log Fs FsFrame Pipe Syscall File Sysfile SysfileInv.

Local Open Scope c_scope.
Local Open Scope Z_scope.

(** How many of the descriptors [fds] name [f] *)
Definition names (tb : nat -> option nat) (f : nat) (fds : list nat) : Z :=
  Z.of_nat (length (filter (fun fd => tb fd = Some f) fds)).

Record refs (ext : nat -> Z) (s : fkern) : Prop := mkRefs {
  rf_count : forall f, (f < NFILE)%nat -> f_ref (fk_file s f) = ext f + names (fk_ofile s) f (seq 0 NOFILE);
  rf_valid : forall fd f, (fd < NOFILE)%nat -> fk_ofile s fd = Some f -> (f < NFILE)%nat;
}.

Lemma refs_ext ext ext' s : refs ext s -> (forall f, (f < NFILE)%nat -> ext f = ext' f) -> refs ext' s.
Proof. intros [Hc Hv] He. split; [|done]. intros f Hf. by rewrite <- He, Hc. Qed.

Lemma names_out tb f fd o fds : fd ∉ fds -> names (<[fd := o]> tb) f fds = names tb f fds.
Proof.
  unfold names. induction fds as [|x fds IH]; intros Hx; [done|]. rewrite !filter_cons, fn_lookup_insert_ne by set_solver.
  specialize (IH ltac:(set_solver)). case_decide; simpl; lia.
Qed.

Lemma names_put tb f fd o fds :
  NoDup fds -> fd ∈ fds ->
  names (<[fd := o]> tb) f fds = names tb f fds - (if decide (tb fd = Some f) then 1 else 0) + (if decide (o = Some f) then 1 else 0).
Proof.
  induction fds as [|x fds IH]; intros Hnd Hin; [set_solver|]. apply NoDup_cons in Hnd as [Hx Hnd].
  apply elem_of_cons in Hin as [<-|Hin].
  - pose proof (names_out tb f fd o fds Hx) as Hout. unfold names in *. rewrite !filter_cons, fn_lookup_insert.
    repeat case_decide; simpl; lia.
  - specialize (IH Hnd Hin). unfold names in *. rewrite !filter_cons, fn_lookup_insert_ne by set_solver.
    repeat case_decide; simpl; lia.
Qed.

(** ** The operations on the table *)

(** [m] leaves the reference counts alone. *)
Definition keeps_refs {A} (m : M fkern A) : Prop :=
  forall ext s, refs ext s -> wpf any m (fun _ s' => refs ext s') s.

(** [m] moves the count of references of [f] held elsewhere by [d]. *)
Definition moves_ref {A} (f : nat) (d : Z) (m : M fkern A) : Prop :=
  forall ext s, refs ext s -> wpf any m (fun _ s' => refs (<[f := ext f + d]> ext) s') s.

Lemma refs_ref f g ext s d :
  (forall x, f_ref (g x) = f_ref x + d) -> refs ext s ->
  refs (<[f := ext f + d]> ext) (set_fk_file (<[f := g (fk_file s f)]> (fk_file s)) s).
Proof.
  intros Hg [Hc Hv]. split; [|done]. intros h Hh. cbn [fk_file set_fk_file fk_ofile]. destruct (decide (f = h)) as [->|].
  - rewrite !fn_lookup_insert, Hg, Hc by done. lia.
  - rewrite !fn_lookup_insert_ne by done. by apply Hc.
Qed.

Lemma refs_ofile f fd o ext s :
  (fd < NOFILE)%nat -> (f < NFILE)%nat -> refs ext s ->
  (o = Some f /\ fk_ofile s fd = None) \/ (o = None /\ fk_ofile s fd = Some f) ->
  refs (<[f := ext f + (match o with None => 1 | Some _ => -1 end)]> ext) (set_fk_ofile (<[fd := o]> (fk_ofile s)) s).
Proof.
  intros Hfd Hf [Hc Hv] Ho. split; cbn [fk_file fk_ofile set_fk_ofile].
  - intros h Hh. rewrite names_put by (apply NoDup_seq || (apply elem_of_seq; lia)). rewrite Hc by done.
    destruct Ho as [[-> Hn]|[-> Hn]]; rewrite Hn; destruct (decide (f = h)) as [->|];
      rewrite ?fn_lookup_insert, ?fn_lookup_insert_ne by done; repeat case_decide; simplify_eq; lia.
  - intros fd' h Hfd'. destruct (decide (fd = fd')) as [->|]; [|rewrite fn_lookup_insert_ne by done; by apply Hv].
    rewrite fn_lookup_insert. intros ->. by destruct Ho as [[? ?]|[? ?]]; simplify_eq.
Qed.

Lemma filedup_moves f : moves_ref f 1 (filedup f).
Proof.
  intros ext s Hr. unfold filedup. wnext. case_match; [done|]. wnext. eapply wpf_done; [done|].
  by apply (refs_ref f (fun x => set_f_ref (f_ref x + 1) x)).
Qed.

Lemma refs_same ext s s' :
  refs ext s -> fk_ofile s' = fk_ofile s -> (forall f, f_ref (fk_file s' f) = f_ref (fk_file s f)) -> refs ext s'.
Proof. intros [Hc Hv] Ho Hf. split; rewrite ?Ho; [|done]. intros f Hlt. rewrite Hf. auto. Qed.

Lemma on_fs_refs {A} (m : M fsys A) : keeps_refs (on_fs m).
Proof. intros ext s Hr. unfold wpf, on_fs. destruct (m (fk_fs s)); try done. by eapply refs_same. Qed.

Lemma on_km_refs {A} (m : M kmem A) : keeps_refs (on_km m).
Proof. intros ext s Hr. unfold wpf, on_km. destruct (m (fk_km s)); try done. by eapply refs_same. Qed.

Lemma refs_ret {A} (a : A) : keeps_refs (ret a).
Proof. intros ext s Hr. done. Qed.
Lemma refs_gets {A} (f : fkern -> A) : keeps_refs (gets f).
Proof. intros ext s Hr. done. Qed.
Lemma refs_panic {A} msg : keeps_refs (@panic fkern A msg).
Proof. done. Qed.
Lemma refs_out {A} : keeps_refs (@out_of_fuel fkern A).
Proof. done. Qed.
Lemma refs_modify f :
  (forall s, fk_ofile (f s) = fk_ofile s) -> (forall s h, f_ref (fk_file (f s) h) = f_ref (fk_file s h)) -> keeps_refs (modify f).
Proof. intros H1 H2 ext s Hr. by eapply refs_same. Qed.
Lemma refs_mod_file f g : (forall x, f_ref (g x) = f_ref x) -> keeps_refs (mod_file f g).
Proof.
  intros Hg. apply refs_modify; [done|]. intros s h. cbn.
  destruct (decide (f = h)) as [->|]; [by rewrite fn_lookup_insert|by rewrite fn_lookup_insert_ne].
Qed.
Lemma refs_bind {A B} (m : M fkern A) (k : A -> M fkern B) : keeps_refs m -> (forall a, keeps_refs (k a)) -> keeps_refs (bind m k).
Proof. intros Hm Hk ext s H. apply wpf_bind. eapply wpf_mono; [by apply Hm|]. intros a s1 H1. by apply Hk. Qed.
Lemma refs_when b m : keeps_refs m -> keeps_refs (when b m).
Proof. destruct b; [done|intros _; apply refs_ret]. Qed.

Create HintDb refs.
#[local] Hint Resolve on_fs_refs on_km_refs refs_ret refs_gets refs_panic refs_out : refs.
#[local] Hint Extern 1 (keeps_refs (mod_file _ _)) => apply refs_mod_file; done : refs.
#[local] Hint Extern 1 (keeps_refs (modify _)) => apply refs_modify; done : refs.
#[local] Hint Extern 1 (keeps_refs (store_user _ _)) => apply refs_modify; done : refs.
#[local] Hint Extern 1 (keeps_refs (get_file _)) => apply refs_gets : refs.
#[local] Hint Extern 1 (keeps_refs user) => apply refs_gets : refs.

Ltac refs := repeat first
  [ solve [auto 2 with refs nocore] | apply refs_bind; [|intros] | case_match | apply refs_when ].

Section Calls.
Context (kend : Z).
Context (devread : Z -> option (nat -> Z -> M fsys (Z * list Z))).
Context (devwrite : Z -> option (nat -> list Z -> M fsys Z)).
Context (stack_name : list Z).

Lemma close_pipe_refs p w : keeps_refs (close_pipe kend p w).
Proof. unfold close_pipe. refs. Qed.
#[local] Hint Resolve close_pipe_refs : refs.

Lemma fileclose_moves f : moves_ref f (-1) (fileclose kend f).
Proof.
  intros ext s Hr. unfold fileclose. wnext. destruct (Z.ltb_spec (f_ref (fk_file s f)) 1); [done|]. do 2 wnext.
  pose proof (refs_ref f (fun x => set_f_ref (f_ref x - 1) x) ext s (-1) ltac:(done) Hr) as Hr1.
  set (s1 := set_fk_file _ s) in *. assert (f_ref (fk_file s1 f) = f_ref (fk_file s f) - 1) as Hs1.
  { cbn. by rewrite fn_lookup_insert. }
  destruct (Z.ltb_spec 0 (f_ref (fk_file s1 f))); [by eapply wpf_done|]. wnext. set (s2 := set_fk_file _ s1).
  assert (refs (<[f := ext f + -1]> ext) s2) as Hr2.
  { eapply refs_same; [exact Hr1|done|]. intros h. cbn [fk_file set_fk_file s2]. destruct (decide (f = h)) as [<-|].
    - rewrite fn_lookup_insert. cbn [f_ref set_f_type set_f_ref]. lia.
    - by rewrite fn_lookup_insert_ne. }
  assert (forall m : M fkern unit, keeps_refs m -> wpf any m (fun _ s' => refs (<[f := ext f + -1]> ext) s') s2) as Hk by (intros m Hm; by apply Hm).
  apply Hk. refs.
Qed.

Lemma filealloc_moves ext s :
  refs ext s -> wpf any filealloc (fun r s' =>
    match r with Some f => (f < NFILE)%nat /\ refs (<[f := ext f + 1]> ext) s' | None => refs ext s' end) s.
Proof.
  intros Hr. unfold filealloc. assert (Forall (fun f => (f < NFILE)%nat) (seq 0 NFILE)) as Hl.
  { apply Forall_forall. intros f Hf%elem_of_seq. lia. }
  revert Hl. generalize (seq 0 NFILE). intros l. induction l as [|f l IH]; intros Hl; cbn [filealloc_loop]; [by eapply wpf_done|].
  apply Forall_cons in Hl as [Hf Hl]. wnext. destruct (Z.eqb_spec (f_ref (fk_file s f)) 0) as [H0|]; [|by apply IH].
  wnext. eapply wpf_done; [done|]. split; [done|]. destruct Hr as [Hc Hv]. split; [|done]. intros h Hh. cbn [fk_file set_fk_file fk_ofile].
  destruct (decide (f = h)) as [->|]; [rewrite !fn_lookup_insert|rewrite !fn_lookup_insert_ne by done; by apply Hc].
  specialize (Hc h Hh). cbn [f_ref set_f_ref]. lia.
Qed.

Lemma fdalloc_moves f ext s :
  (f < NFILE)%nat -> refs ext s -> wpf any (fdalloc f) (fun r s' =>
    match r with
    | Some fd => (fd < NOFILE)%nat /\ fk_ofile s' fd = Some f /\ refs (<[f := ext f - 1]> ext) s'
    | None => s' = s
    end) s.
Proof.
  intros Hf Hr. unfold fdalloc. assert (Forall (fun fd => (fd < NOFILE)%nat) (seq 0 NOFILE)) as Hl.
  { apply Forall_forall. intros fd Hfd%elem_of_seq. lia. }
  revert Hl. generalize (seq 0 NOFILE). intros l. induction l as [|fd l IH]; intros Hl; cbn [fdalloc_loop]; [by eapply wpf_done|].
  apply Forall_cons in Hl as [Hfd Hl]. wnext. destruct (fk_ofile s fd) eqn:Ho; [by apply IH|].
  wnext. eapply wpf_done; [done|]. split; [done|]. split; [cbn; by rewrite fn_lookup_insert|].
  apply (refs_ofile f fd (Some f)); auto.
Qed.

Lemma argfd_refs n ext s :
  refs ext s -> wpf any (argfd n) (fun r s' => s' = s /\
    match r with Some (fd, f) => (fd < NOFILE)%nat /\ (f < NFILE)%nat /\ fk_ofile s fd = Some f | None => True end) s.
Proof.
  intros Hr. unfold argfd. wnext. destruct (argint (fk_user s) n) as [fd|]; [|by eapply wpf_done].
  destruct (Z.ltb_spec fd 0), (Z.leb_spec (Z.of_nat NOFILE) fd); try by eapply wpf_done. cbn [orb]. wnext.
  destruct (fk_ofile s (Z.to_nat fd)) as [f|] eqn:Ho; [|by eapply wpf_done]. eapply wpf_done; [done|]. split; [done|].
  split; [lia|]. split; [|done]. apply (rf_valid _ _ Hr (Z.to_nat fd)); [lia|done].
Qed.

(** Statements in sequence *)
Ltac rstep spec := apply wpf_bind; eapply wpf_mono; [eapply spec; eassumption|]; cbv beta.
Ltac rkeep := apply wpf_bind; eapply wpf_mono; [match goal with |- wpf _ ?m _ _ => let H := fresh in assert (keeps_refs m) as H by refs; eapply H; eassumption end|]; cbv beta; intros ? ? ?.
Ltac rend := eapply refs_ext; [eassumption|]; intros;
  repeat (match goal with |- context [(<[?i := _]> _) ?j] => destruct (decide (i = j)); [subst; rewrite fn_lookup_insert|rewrite fn_lookup_insert_ne by done] end); try done; try lia.

Lemma sys_dup_refs : keeps_refs sys_dup.
Proof.
  intros ext s Hr. unfold sys_dup. rstep argfd_refs. intros [[fd f]|] s1 [-> H]; [|by eapply wpf_done].
  destruct H as (Hfd & Hf & Ho). rstep fdalloc_moves. intros [fd'|] s2 H2; [|subst; by eapply wpf_done].
  destruct H2 as (_ & _ & H2). rstep filedup_moves. intros h s3 H3. eapply wpf_done; [done|]. rend.
Qed.

Lemma sys_close_refs : keeps_refs (sys_close kend).
Proof.
  intros ext s Hr. unfold sys_close. rstep argfd_refs. intros [[fd f]|] s1 [-> H]; [|by eapply wpf_done].
  destruct H as (Hfd & Hf & Ho). wnext. pose proof (refs_ofile f fd None ext s Hfd Hf Hr ltac:(auto)) as H1.
  rstep fileclose_moves. intros [] s3 H3. eapply wpf_done; [done|]. rend.
Qed.

(** ** dup and close return *)

Lemma names_pos tb f fd fds : fd ∈ fds -> tb fd = Some f -> 1 <= names tb f fds.
Proof.
  intros Hin Ho. unfold names. assert (fd ∈ filter (fun fd => tb fd = Some f) fds) as H by (by apply list_elem_of_filter).
  destruct (filter _ fds); [set_solver|]. simpl. lia.
Qed.

Lemma argfd_done n s : exists r, argfd n s = Done r s.
Proof.
  unfold argfd, bind, user, gets. destruct (argint (fk_user s) n) as [fd|]; [|by eexists].
  destruct (_ || _); [by eexists|]. destruct (fk_ofile s (Z.to_nat fd)); by eexists.
Qed.

Lemma fdalloc_done f s : exists r s', fdalloc f s = Done r s' /\ fk_file s' = fk_file s.
Proof.
  unfold fdalloc. generalize (seq 0 NOFILE). intros l. induction l as [|fd l IH]; cbn [fdalloc_loop]; [by exists None, s|].
  unfold bind at 1, gets. destruct (fk_ofile s fd) eqn:Ho; [exact IH|]. by eexists _, _.
Qed.

Lemma sys_dup_returns ext s :
  refs ext s -> (forall f, 0 <= ext f) ->
  exists r s', sys_dup s = Done r s' /\ forall f, (f < NFILE)%nat ->
    f_ref (fk_file s' f) = f_ref (fk_file s f) + if decide (0 <= r /\ fk_ofile s' (Z.to_nat r) = Some f) then 1 else 0.
Proof.
  intros Hr He. assert (forall s', fk_file s' = fk_file s -> forall f, (f < NFILE)%nat ->
    f_ref (fk_file s' f) = f_ref (fk_file s f) + if decide (0 <= -1 /\ fk_ofile s' (Z.to_nat (-1)) = Some f) then 1 else 0) as Hm1.
  { intros s' Hs' f _. rewrite Hs', decide_False by lia. lia. }
  destruct (argfd_done 0 s) as [r Ha]. pose proof (argfd_refs 0 ext s Hr) as Hspec. unfold wpf in Hspec. rewrite Ha in Hspec.
  destruct Hspec as [_ Hspec]. unfold sys_dup, bind at 1. rewrite Ha. destruct r as [[fd f]|]; [|by exists (-1), s; split; [|apply Hm1]].
  destruct Hspec as (Hfd & Hf & Ho). destruct (fdalloc_done f s) as (r & s1 & Hal & Hsame).
  pose proof (fdalloc_moves f ext s Hf Hr) as Hmv. unfold wpf in Hmv. rewrite Hal in Hmv. unfold bind at 1. rewrite Hal.
  destruct r as [fd'|]; [|by exists (-1), s1; split; [|apply Hm1]]. destruct Hmv as (_ & Ho' & _).
  assert (1 <= f_ref (fk_file s f)) as Hpos.
  { rewrite (rf_count _ _ Hr f Hf). pose proof (names_pos (fk_ofile s) f fd (seq 0 NOFILE) ltac:(apply elem_of_seq; lia) Ho).
    specialize (He f). lia. }
  unfold bind at 1, filedup, bind at 1, get_file, gets. rewrite Hsame. destruct (Z.ltb_spec (f_ref (fk_file s f)) 1); [lia|].
  eexists _, _. split; [reflexivity|]. intros h Hh. cbn [fk_file set_fk_file fk_ofile]. rewrite Nat2Z.id, Ho', Hsame.
  destruct (decide (f = h)) as [->|Hne].
  - rewrite fn_lookup_insert, decide_True by (split; [lia|done]). done.
  - rewrite fn_lookup_insert_ne, decide_False by (done || intros [_ ?]; congruence). lia.
Qed.

Lemma sys_close_returns s fd f :
  argfd 0 s = Done (Some (fd, f)) s -> 2 <= f_ref (fk_file s f) ->
  exists s', sys_close kend s = Done 0 s' /\ f_ref (fk_file s' f) = f_ref (fk_file s f) - 1 /\ fk_ofile s' fd = None.
Proof.
  intros Ha Href. unfold sys_close, bind at 1. rewrite Ha. unfold put_ofile, modify, fileclose, get_file, gets, mod_file, bind, ret.
  cbn -[insert]. destruct (Z.ltb_spec (f_ref (fk_file s f)) 1); [lia|]. cbn -[insert]. rewrite fn_lookup_insert. cbn [f_ref set_f_ref].
  destruct (Z.ltb_spec 0 (f_ref (fk_file s f) - 1)); [|lia]. eexists. split; [reflexivity|]. cbn -[insert].
  by rewrite !fn_lookup_insert.
Qed.

Lemma open_file_refs ext s :
  refs ext s -> wpf any (open_file kend) (fun _ s' => refs ext s') s.
Proof.
  intros Hr. unfold open_file. rstep filealloc_moves. intros [f|] s1 H1; [|by eapply wpf_done]. destruct H1 as [Hf H1].
  rstep fdalloc_moves. intros [fd|] s2 H2.
  - destruct H2 as (_ & _ & H2). eapply wpf_done; [done|]. rend.
  - subst. rstep fileclose_moves. intros [] s3 H3. eapply wpf_done; [done|]. rend.
Qed.

Lemma sys_open_refs : keeps_refs (sys_open kend devread devwrite stack_name).
Proof.
  unfold sys_open. apply refs_bind; [refs|]. intros u. destruct (argstr u 0); [|refs]. destruct (argint u 1); [|refs].
  apply refs_bind; [refs|]. intros [ip|]; [|refs]. apply refs_bind; [exact open_file_refs|]. intros [[f fd]|]; refs.
Qed.

Lemma pipealloc_moves ext s :
  refs ext s -> wpf any (pipealloc kend) (fun r s' =>
    match r with
    | Some (f0, f1) => (f0 < NFILE)%nat /\ (f1 < NFILE)%nat /\ refs (<[f1 := <[f0 := ext f0 + 1]> ext f1 + 1]> (<[f0 := ext f0 + 1]> ext)) s'
    | None => refs ext s'
    end) s.
Proof.
  intros Hr. unfold pipealloc, pipealloc_bad. rstep filealloc_moves. intros [f0|] s1 H1; [|do 2 wnext; by eapply wpf_done].
  destruct H1 as [Hf0 H1]. rstep filealloc_moves. intros [f1|] s2 H2.
  - destruct H2 as [Hf1 H2]. rkeep. case_match.
    + rstep fileclose_moves. intros [] s4 H4. rstep fileclose_moves. intros [] s5 H5. eapply wpf_done; [done|]. rend.
    + do 3 rkeep. eapply wpf_done; [done|]. done.
  - rstep fileclose_moves. intros [] s3 H3. wnext. eapply wpf_done; [done|]. rend.
Qed.

Lemma sys_pipe_refs : keeps_refs (sys_pipe kend).
Proof.
  intros ext s Hr. unfold sys_pipe, pipe_bad. wnext. destruct (argptr (fk_user s) 0 8) as [fd|]; [|by eapply wpf_done].
  rstep pipealloc_moves. intros [[rf wf]|] s1 H1; [|by eapply wpf_done]. destruct H1 as (Hrf & Hwf & H1).
  rstep fdalloc_moves. intros [fd0|] s2 H2.
  - destruct H2 as (Hfd0 & Ho & H2). rstep fdalloc_moves. intros [fd1|] s3 H3.
    + destruct H3 as (_ & _ & H3). do 2 rkeep. eapply wpf_done; [done|]. rend.
    + subst s3. wnext. pose proof (refs_ofile rf fd0 None _ s2 Hfd0 Hrf H2 ltac:(auto)) as H3.
      rstep fileclose_moves. intros [] s4 H4. rstep fileclose_moves. intros [] s5 H5. eapply wpf_done; [done|]. rend.
  - subst s2. wnext. rstep fileclose_moves. intros [] s3 H3. rstep fileclose_moves. intros [] s4 H4. eapply wpf_done; [done|]. rend.
Qed.

Lemma filewrite_loop_refs fuel f rest : keeps_refs (filewrite_loop devwrite fuel f rest).
Proof. revert rest. induction fuel; intros rest; cbn [filewrite_loop]; refs. Qed.
#[local] Hint Resolve filewrite_loop_refs : refs.

Lemma argfd_keeps n : keeps_refs (argfd n).
Proof. unfold argfd. refs. Qed.
#[local] Hint Resolve argfd_keeps : refs.

Lemma file_calls_refs m : m ∈ file_calls kend devread devwrite stack_name -> keeps_refs m.
Proof.
  unfold file_calls. rewrite !elem_of_cons. intros Hm. destruct_or! Hm; subst.
  - apply sys_dup_refs.
  - unfold sys_read, fileread. refs.
  - unfold sys_write, filewrite. refs.
  - apply sys_close_refs.
  - unfold sys_fstat, store_stat, filestat. refs.
  - unfold sys_link. refs.
  - unfold sys_unlink. refs.
  - apply sys_open_refs.
  - unfold sys_mkdir. refs.
  - unfold sys_mknod. refs.
  - unfold sys_chdir. refs.
  - apply sys_pipe_refs.
  - set_solver.
Qed.
End Calls.
