(* ===== verification/Exec.v ===== *)
(** * exec.c, and loaduvm and copyout of vm.c for it

    exec reads a program from the file system into a new address space.  The
    state has both, the fields of the current process that exec sets, and cr3:
    of switchuvm, which Proc.v has in full, only the load of cr3 matters here.  A
    string argument is the list of its characters before the NUL; the bytes
    that copyout takes from the caller are a list, since they lie in memory
    that the new address space does not have. *)

From S2P Require Import Prelude Mem KString Kalloc Vm FsState Bio Log Fs Syscall Pipe File Sysfile.

Local Open Scope c_scope.
Local Open Scope Z_scope.

(** ** elf.h *)

Definition ELF_MAGIC : Z := 1179403647.   (* 0x464C457F *)
Definition ELF_PROG_LOAD : Z := 1.

(** The fields of struct elfhdr and struct proghdr that exec reads *)
Definition sizeof_elfhdr : Z := 52.
Definition elf_magic (b : list Z) : Z := u32 (get32 b 0).
Definition elf_entry (b : list Z) : Z := u32 (get32 b 24).
Definition elf_phoff (b : list Z) : Z := u32 (get32 b 28).
Definition elf_phnum (b : list Z) : Z := u16 (get16 b 44).

Definition sizeof_proghdr : Z := 32.
Definition ph_type (b : list Z) : Z := u32 (get32 b 0).
Definition ph_off (b : list Z) : Z := u32 (get32 b 4).
Definition ph_vaddr (b : list Z) : Z := u32 (get32 b 8).
Definition ph_filesz (b : list Z) : Z := u32 (get32 b 16).
Definition ph_memsz (b : list Z) : Z := u32 (get32 b 20).

(** ** The state *)

Record execst := mkExecst {
  x_fs : fsys;
  x_km : kmem;
  x_pgdir : Z;          (* curproc->pgdir *)
  x_sz : Z;             (* curproc->sz *)
  x_eip : Z;            (* curproc->tf->eip *)
  x_esp : Z;            (* curproc->tf->esp *)
  x_name : list Z;      (* curproc->name *)
  x_cr3 : Z;            (* the register that switchuvm loads *)
}.

Definition set_x_fs (v : fsys) (s : execst) : execst :=
  mkExecst v (x_km s) (x_pgdir s) (x_sz s) (x_eip s) (x_esp s) (x_name s) (x_cr3 s).
Definition set_x_km (v : kmem) (s : execst) : execst :=
  mkExecst (x_fs s) v (x_pgdir s) (x_sz s) (x_eip s) (x_esp s) (x_name s) (x_cr3 s).
Definition set_x_name (v : list Z) (s : execst) : execst :=
  mkExecst (x_fs s) (x_km s) (x_pgdir s) (x_sz s) (x_eip s) (x_esp s) v (x_cr3 s).
Definition set_x_image (pgdir sz eip esp : Z) (s : execst) : execst :=
  mkExecst (x_fs s) (x_km s) pgdir sz eip esp (x_name s) (x_cr3 s).
Definition set_x_cr3 (v : Z) (s : execst) : execst :=
  mkExecst (x_fs s) (x_km s) (x_pgdir s) (x_sz s) (x_eip s) (x_esp s) (x_name s) v.

Definition on_xfs {A} (m : M fsys A) : M execst A := fun s =>
  match m (x_fs s) with
  | Done a t => Done a (set_x_fs t s)
  | Panic msg t => Panic msg (set_x_fs t s)
  | Undef t => Undef (set_x_fs t s)
  | NoFuel t => NoFuel (set_x_fs t s)
  end.

Definition on_xkm {A} (m : M kmem A) : M execst A := fun s =>
  match m (x_km s) with
  | Done a t => Done a (set_x_km t s)
  | Panic msg t => Panic msg (set_x_km t s)
  | Undef t => Undef (set_x_km t s)
  | NoFuel t => NoFuel (set_x_km t s)
  end.

(** ** copyout (vm.c) from the bytes [l] *)

Fixpoint copyout_loop (fuel : nat) (pgdir va : Z) (l : list Z) : M kmem Z :=
  match fuel with
  | O => out_of_fuel
  | S fuel' =>
      match l with
      | [] => ret 0
      | _ =>
          let va0 := PGROUNDDOWN va in
          pa0 <- uva2ka pgdir va0 ;;
          if pa0 =? 0 then ret (-1)
          else
            let n := Z.to_nat (Z.min (Z.of_nat (length l)) (PGSIZE - (va - va0))) in
            modify (fun s => set_km_mem (store_bytes (km_mem s) (padd pa0 (va - va0)) (take n l)) s) ;;
            copyout_loop fuel' pgdir (u32 (va0 + PGSIZE)) (drop n l)
      end
  end.

Definition copyout (pgdir va : Z) (l : list Z) : M kmem Z :=
  copyout_loop (Z.to_nat (Z.of_nat (length l) / PGSIZE) + 3) pgdir va l.

Section Exec.
Context (kend data : Z).
Context (devread : Z -> option (nat -> Z -> M fsys (Z * list Z))).

(** ** loaduvm (vm.c) *)

Fixpoint loaduvm_loop (fuel : nat) (pgdir addr : Z) (ip : nat) (offset i sz : Z) : M execst Z :=
  match fuel with
  | O => out_of_fuel
  | S fuel' =>
      if i <? sz then
        pte <- on_xkm (walkpgdir pgdir (u32 (addr + i)) false) ;;
        if pte =? 0 then panic "loaduvm: address should exist"
        else
          w <- on_xkm (ldw pte) ;;
          let pa := PTE_ADDR w in
          let n := if sz - i <? PGSIZE then sz - i else PGSIZE in
          dst <- P2V pa ;;
          r <- on_xfs (readi devread ip (u32 (offset + i)) n) ;;
          on_xkm (modify (fun s => set_km_mem (store_bytes (km_mem s) dst r.2) s)) ;;
          if r.1 =? n then loaduvm_loop fuel' pgdir addr ip offset (u32 (i + PGSIZE)) sz
          else ret (-1)
      else ret 0
  end.

Definition loaduvm (pgdir addr : Z) (ip : nat) (offset sz : Z) : M execst Z :=
  if negb (addr `mod` PGSIZE =? 0) then panic "loaduvm: addr must be page aligned"
  else loaduvm_loop (Z.to_nat (sz / PGSIZE) + 2) pgdir addr ip offset 0 sz.

(** ** exec *)

(** [bad:], with the page directory (or 0) and the inode (or none) that it frees *)
Definition exec_bad (pgdir : Z) (ip : option nat) : M execst Z :=
  when (negb (pgdir =? 0)) (on_xkm (freevm kend pgdir)) ;;
  (match ip with
   | Some ip => on_xfs (iunlockput ip ;; end_op)
   | None => ret tt
   end) ;;
  ret (-1).

(** The loop over the program headers, [left] of them to go; None is [bad] *)
Fixpoint load_segments (left : nat) (pgdir : Z) (ip : nat) (off sz : Z) : M execst (option Z) :=
  match left with
  | O => ret (Some sz)
  | S left' =>
      r <- on_xfs (readi devread ip off sizeof_proghdr) ;;
      let ph := r.2 in
      if negb (r.1 =? sizeof_proghdr) then ret None
      else if negb (ph_type ph =? ELF_PROG_LOAD) then load_segments left' pgdir ip (u32 (off + sizeof_proghdr)) sz
      else if ph_memsz ph <? ph_filesz ph then ret None
      else if u32 (ph_vaddr ph + ph_memsz ph) <? ph_vaddr ph then ret None
      else
        sz <- on_xkm (allocuvm kend pgdir sz (u32 (ph_vaddr ph + ph_memsz ph))) ;;
        if sz =? 0 then ret None
        else if negb (ph_vaddr ph `mod` PGSIZE =? 0) then ret None
        else
          r <- loaduvm pgdir (ph_vaddr ph) ip (ph_off ph) (ph_filesz ph) ;;
          if r <? 0 then ret None
          else load_segments left' pgdir ip (u32 (off + sizeof_proghdr)) sz
  end.

(** The loop over the arguments: the stack pointer and the words of ustack
    from index 3 on, or None for [bad] *)
Fixpoint push_args (pgdir argc sp : Z) (argv : list (list Z)) : M execst (option (Z * list Z)) :=
  match argv with
  | [] => ret (Some (sp, []))
  | arg :: argv' =>
      if Z.of_nat MAXARG <=? argc then ret None
      else
        let sp := Z.land (u32 (sp - (Z.of_nat (length arg) + 1))) (Z.lnot 3) in
        r <- on_xkm (copyout pgdir sp (arg ++ [0])) ;;
        if r <? 0 then ret None
        else
          r <- push_args pgdir (argc + 1) sp argv' ;;
          ret ((fun '(sp', l) => (sp', sp :: l)) <$> r)
  end.

(** [for(last=s=path; *s; s++) if( *s == '/') last = s+1;] *)
Fixpoint last_element (last s : list Z) : list Z :=
  match s with
  | [] => last
  | c :: s' => last_element (if c =? ch_slash then s' else last) s'
  end.

(** From "Allocate two pages" on; the inode has been given back *)
Definition exec_stack (path : list Z) (argv : list (list Z)) (entry pgdir sz : Z) : M execst Z :=
  let sz := PGROUNDUP sz in
  sz <- on_xkm (allocuvm kend pgdir sz (u32 (sz + 2 * PGSIZE))) ;;
  if sz =? 0 then exec_bad pgdir None
  else
    on_xkm (clearpteu pgdir (u32 (sz - 2 * PGSIZE))) ;;
    r <- push_args pgdir 0 sz argv ;;
    match r with
    | None => exec_bad pgdir None
    | Some (sp, ptrs) =>
        let argc := Z.of_nat (length argv) in
        let ustack := [4294967295; argc; u32 (sp - (argc + 1) * 4)] ++ ptrs ++ [0] in
        let sp := u32 (sp - (3 + argc + 1) * 4) in
        r <- on_xkm (copyout pgdir sp (concat (bytes32 <$> ustack))) ;;
        if r <? 0 then exec_bad pgdir None
        else
          modify (fun s => set_x_name (safestrcpy (x_name s) (last_element path path ++ [0]) 16) s) ;;
          oldpgdir <- gets x_pgdir ;;
          modify (set_x_image pgdir sz entry sp) ;;
          cr3 <- V2P pgdir ;;
          modify (set_x_cr3 cr3) ;;
          on_xkm (freevm kend oldpgdir) ;;
          ret 0
    end.

(** From the ELF header on, with the inode locked *)
Definition exec_file (path : list Z) (argv : list (list Z)) (ip : nat) : M execst Z :=
  r <- on_xfs (readi devread ip 0 sizeof_elfhdr) ;;
  let elf := r.2 in
  if negb (r.1 =? sizeof_elfhdr) then exec_bad 0 (Some ip)
  else if negb (elf_magic elf =? ELF_MAGIC) then exec_bad 0 (Some ip)
  else
    pgdir <- on_xkm (setupkvm kend data) ;;
    if pgdir =? 0 then exec_bad 0 (Some ip)
    else
      r <- load_segments (Z.to_nat (elf_phnum elf)) pgdir ip (elf_phoff elf) 0 ;;
      match r with
      | None => exec_bad pgdir (Some ip)
      | Some sz =>
          on_xfs (iunlockput ip ;; end_op) ;;
          exec_stack path argv (elf_entry elf) pgdir sz
      end.

Definition exec (path : list Z) (argv : list (list Z)) : M execst Z :=
  on_xfs begin_op ;;
  ip <- on_xfs (namei devread path) ;;
  match ip with
  | None => on_xfs end_op ;; ret (-1)
  | Some ip => on_xfs (ilock ip) ;; exec_file path argv ip
  end.
End Exec.
