(* ===== verification/ExecImage.v ===== *)
(** * The address space that exec builds

    [image d n g img]: the user part of [d] is the pages with numbers below
    [n], all of them pages that were free when exec began, with the bytes
    [img]; page [g] is not for the user; the kernel half is that of every
    address space.  Each operation of exec on the new address space turns an
    image into an image. *)

From S2P Require Import Prelude Mem KString Kalloc Vm VmInv VmSpace VmAlloc VmCopy FsState Fs FsWrite Sysfile Exec.

Local Open Scope c_scope.
Local Open Scope Z_scope.

#[local] Opaque frames tables memset memmove.

Lemma store_bytes_overlay l : forall m p a,
  no_wrap p (Z.of_nat (length l)) -> store_bytes m p l a = overlay p l m a.
Proof.
  induction l as [|b l IH]; intros m p a Hw; cbn [store_bytes]; [by rewrite overlay_nil|].
  cbn [length] in Hw. unfold no_wrap in Hw.
  destruct l as [|b' l'].
  { cbn [store_bytes]. unfold overlay. cbn [length]. destruct (decide (p = a)) as [->|Hne].
    - rewrite fn_lookup_insert, decide_True by lia. by replace (a - a) with 0 by lia.
    - by rewrite fn_lookup_insert_ne, decide_False by (done || lia). }
  rewrite (padd_small p 1 (Z.of_nat (S (length (b' :: l'))))) by (unfold no_wrap in *; cbn [length] in *; lia).
  rewrite IH by (unfold no_wrap; cbn [length] in *; lia). rewrite <- (overlay_split p (b :: b' :: l') 1) by (cbn [length]; lia).
  change (drop (Z.to_nat 1) (b :: b' :: l')) with (b' :: l'). apply overlay_at.
  change (take (Z.to_nat 1) (b :: b' :: l')) with [b]. unfold overlay. cbn [length]. destruct (decide (p = a)) as [->|Hne].
  - rewrite fn_lookup_insert, decide_True by lia. by replace (a - a) with 0 by lia.
  - by rewrite fn_lookup_insert_ne, decide_False by (done || lia).
Qed.

(** The byte at the user address [va] *)
Definition ubyte (m : mem) (d va : Z) : Z :=
  match mapping m d va with
  | Some w => m (frame w + va `mod` PGSIZE)
  | None => 0
  end.

(** Flags of page [k], when page [g] is the guard page *)
Definition page_flags (g k : Z) : Z := if decide (k = g) then PTE_W else Z.lor PTE_W PTE_U.

Lemma page_flags_range g k : 0 <= page_flags g k < PGSIZE.
Proof. unfold page_flags. by case_decide. Qed.

Lemma has_U_word a f : a `mod` PGSIZE = 0 -> has (pte_word a f) PTE_U = has f PTE_U.
Proof.
  intros Ha. unfold has, pte_word. rewrite !Z.land_lor_distr_l, (land_low a _ 12) by done. by rewrite Z.lor_0_r.
Qed.

(** clearpteu on a word of allocuvm *)
Lemma clear_U_word a : a `mod` PGSIZE = 0 -> Z.land (pte_word a 6) (Z.lnot PTE_U) = pte_word a 2.
Proof.
  intros Ha. unfold pte_word. rewrite !Z.land_lor_distr_l.
  assert (Z.land a (Z.lnot PTE_U) = a) as ->; [|done].
  rewrite <- Z.ldiff_land. apply Z.bits_inj'. intros i Hi. rewrite Z.ldiff_spec.
  destruct (Z.eq_dec i 2) as [->|Hne]; [by rewrite (testbit_multiple a 12) by (done || lia)|].
  assert (Z.testbit PTE_U i = false) as ->; [|by rewrite andb_true_r].
  change PTE_U with (2 ^ 2). rewrite Z.pow2_bits_eqb by lia. by apply Z.eqb_neq.
Qed.

Section Image.
Context (kend : Z) (Hkend : KERNBASE < kend) (data : Z) (Hdata : data_ok data).
Local Abbreviation valid := (valid_page kend).

Record image (d n g : Z) (img : Z -> Z) (pages rest : list Z) (s s' : kmem) : Prop := mkImage {
  im_building : building kend d pages rest s s';
  im_size : 0 <= n <= NUSER;
  im_page : forall k, 0 <= k < n -> exists p, valid p /\
    mapping (km_mem s') d (PGSIZE * k) = Some (pte_word (p - KERNBASE) (page_flags g k));
  im_other : forall va, is_u32 va -> n <= va / PGSIZE -> mapping (km_mem s') d va = kernel_map data va;
  im_bytes : forall va, 0 <= va < PGSIZE * n -> ubyte (km_mem s') d va = img va;
  im_zero : forall va, PGSIZE * n <= va -> img va = 0;
}.

Lemma image_ext d n g img img' pages rest s s' :
  image d n g img pages rest s s' -> (forall va, 0 <= va -> img' va = img va) -> image d n g img' pages rest s s'.
Proof.
  intros [? Hn ? ? Hb Hz] Heq. split; try done.
  - intros va Hva. rewrite Heq by lia. auto.
  - intros va Hva. rewrite Heq by (unfold PGSIZE in *; lia). auto.
Qed.

Lemma user_page_of n va : n <= NUSER -> 0 <= va < PGSIZE * n -> is_u32 va /\ 0 <= va / PGSIZE < n.
Proof. unfold NUSER, is_u32, u32_mod, PGSIZE. intros Hn Hva. split; [lia|zlia]. Qed.

(** The page of a user address *)
Lemma image_page d n g img pages rest s s' va :
  image d n g img pages rest s s' -> 0 <= va < PGSIZE * n -> exists p, valid p /\
    mapping (km_mem s') d va = Some (pte_word (p - KERNBASE) (page_flags g (va / PGSIZE))) /\
    uframe (km_mem s') d (va / PGSIZE) = Some p.
Proof.
  intros Him Hva. pose proof (im_size _ _ _ _ _ _ _ _ Him) as Hn. destruct (user_page_of n va) as [Hu Hk]; [lia|done|].
  destruct (im_page _ _ _ _ _ _ _ _ Him (va / PGSIZE) Hk) as (p & Hp & Hm). exists p. split_and!; [done| |].
  - rewrite <- Hm. apply page_mapping; [lia|done|done].
  - unfold uframe. rewrite Hm. cbn. f_equal. apply (frame_pte kend); [done|apply page_flags_range].
Qed.

Lemma setupkvm_image pages s :
  kmem_ok kend pages s ->
  wp (setupkvm kend data) (fun d s' => (d = 0 /\ undone kend pages s s') \/
    (d <> 0 /\ exists rest, image d 0 (-1) (fun _ => 0) pages rest s s')) s.
Proof using Hkend Hdata.
  intros K. eapply wp_mono; [by apply (setupkvm_ok kend Hkend data Hdata pages)|].
  intros d s' [?|(Hd & rest & Hb & Hm)]; [by left|]. right. split; [done|]. exists rest.
  split; try done; unfold NUSER, PGSIZE; try lia. intros va Hva _. by apply Hm.
Qed.

(** ** allocuvm *)

Lemma image_moves d n n' img pages rest rest' s s1 s2 :
  image d n (-1) img pages rest s s1 -> moves kend d rest rest' s1 s2 -> n <= n' <= NUSER ->
  maps_new d n n' rest s1 s2 -> image d n' (-1) img pages rest' s s2.
Proof using Hkend Hdata.
  intros Him Hmv Hnn' [Hold Hnew]. pose proof Him as [Hb Hn Hp Ho Hby Hz]. pose proof Hb as [K1 U1 _ _ _].
  assert (forall k, 0 <= k < n -> mapping (km_mem s2) d (PGSIZE * k) = mapping (km_mem s1) d (PGSIZE * k)) as Hsame.
  { intros k Hk. destruct (user_page_u32 k) as [Hu Hd]; [lia|]. apply Hold; [done|lia]. }
  split; [by eapply building_moves|lia|..].
  - intros k Hk. destruct (Z.lt_ge_cases k n) as [Hlt|Hge]; [rewrite Hsame by lia; apply Hp; lia|].
    destruct (Hnew k ltac:(lia)) as (p & Hpr & _ & Hm). exists p.
    split; [by apply (freelist_valid kend _ _ _ p (ko_list _ _ _ K1))|]. rewrite Hm. unfold page_flags.
    by rewrite decide_False by lia.
  - intros va Hva Hr. rewrite Hold by (done || lia). apply Ho; [done|lia].
  - intros va Hva. destruct (Z.lt_ge_cases va (PGSIZE * n)) as [Hlt|Hge].
    + rewrite <- Hby by lia. destruct (image_page _ _ _ _ _ _ _ _ va Him ltac:(lia)) as (p & Hpv & Hm & Hf).
      destruct (user_page_of n va) as [Hu Hk]; [lia|lia|]. unfold ubyte. rewrite Hold, Hm by (done || lia).
      rewrite (frame_pte kend) by (done || apply page_flags_range).
      destruct (uo_frame _ _ _ _ U1 (va / PGSIZE) p ltac:(lia) Hf) as (? & ? & ?).
      eapply moves_untouched; try done. apply Z.mod_pos_bound. done.
    + rewrite Hz by done. destruct (user_page_of n' va) as [Hu Hk]; [lia|lia|].
      destruct (Hnew (va / PGSIZE)) as (p & Hpr & Hzero & Hm); [unfold PGSIZE in *; zlia|].
      unfold ubyte. rewrite (page_mapping _ _ va (va / PGSIZE)) by (done || lia). rewrite Hm.
      rewrite (frame_pte kend); [|by apply (freelist_valid kend _ _ _ p (ko_list _ _ _ K1))|done].
      apply Hzero. apply Z.mod_pos_bound. done.
  - intros va Hva. apply Hz. unfold PGSIZE in *. lia.
Qed.

Lemma image_alloc d n img pages rest s s1 sz newsz :
  image d n (-1) img pages rest s s1 -> n = npages sz -> 0 <= sz -> 0 <= newsz ->
  wp (allocuvm kend d sz newsz) (fun r s2 =>
    (r = 0 /\ exists rest', building kend d pages rest' s s2) \/
    (newsz < KERNBASE /\ r = Z.max sz newsz /\ exists rest', image d (npages r) (-1) img pages rest' s s2)) s1.
Proof using Hkend Hdata.
  intros Him Hn Hsz Hnew. pose proof Him as [Hb Hnn Hp Ho Hby Hz]. pose proof Hb as [K1 U1 A1 L1 O1].
  destruct (Z.le_gt_cases KERNBASE newsz) as [Hbig|Hlt].
  { unfold allocuvm. destruct (Z.leb_spec KERNBASE newsz); [|lia]. apply wp_ret. left. split; [done|]. by exists rest. }
  assert (npages newsz <= NUSER) as Hnu by (unfold npages, NUSER, PGSIZE, KERNBASE in *; zlia).
  eapply wp_mono; [apply (allocuvm_ok kend Hkend rest s1 d sz newsz); try done|].
  { intros va Hva Hr. rewrite Ho by (done || lia). apply kernel_map_user; [done|].
    unfold NUSER, PGSIZE, KERNBASE in *. zlia. }
  intros r s2 [(? & _ & _)|[(Hr & -> & ->)|(Hr & rest' & Hmv & [(-> & Hmn)|(-> & _)])]]; [lia|..].
  - right. rewrite Z.max_l by lia. split_and!; [done|done|]. exists rest. by rewrite <- Hn.
  - right. rewrite Z.max_r by lia. split_and!; [done|done|]. exists rest'. rewrite <- Hn in Hmn.
    eapply image_moves; try done. split; [|done]. rewrite Hn. unfold npages, PGSIZE. zlia.
  - left. split; [done|]. exists rest'. by eapply building_moves.
Qed.

(** ** Writing the pages *)

(** A user page may change. *)
Lemma building_page d pages rest s s1 m' k f :
  building kend d pages rest s s1 -> 0 <= k < NUSER -> uframe (km_mem s1) d k = Some f -> page_only f (km_mem s1) m' ->
  same_tables (km_mem s1) m' d /\ building kend d pages rest s (set_km_mem m' s1).
Proof.
  intros [K U A L O] Hk Hf Hp. destruct (uo_frame _ _ _ _ U k f Hk Hf) as (Hv & Hn & Ht).
  assert (same_tables (km_mem s1) m' d) as Hs by (eapply same_tables_page; try done; apply U).
  split; [done|]. split; cbn; try done.
  - apply kmem_ok_frame; [done|]. intros q i Hq Hi. apply Hp. apply (byte_elsewhere kend); try done.
    + by apply (freelist_valid kend _ _ _ q (ko_list _ _ _ K)).
    + by intros ->.
  - by eapply user_ok_same.
  - by rewrite (owned_same kend _ _ d rest (uo_space _ _ _ _ U) Hs).
  - eapply only_pages_trans; [done|]. intros a Ha. apply Hp. intros Hr. apply Ha. exists f. split; [|done].
    rewrite <- A. right. apply elem_of_app. right. unfold owned. apply elem_of_app. right.
    apply elem_of_frames. by exists k.
Qed.

(** [l] stored at [va], inside its page [f] *)
Lemma image_store d n g img pages rest s s1 va l f :
  image d n g img pages rest s s1 -> 0 <= va < PGSIZE * n -> va `mod` PGSIZE + Z.of_nat (length l) <= PGSIZE ->
  uframe (km_mem s1) d (va / PGSIZE) = Some f ->
  image d n g (overlay va l img) pages rest s
    (set_km_mem (store_bytes (km_mem s1) (padd f (va `mod` PGSIZE)) l) s1).
Proof.
  intros Him Hva Hl Hf. pose proof Him as [Hb Hn Hp Ho Hby Hz]. pose proof (user_page_of n va ltac:(lia) Hva) as [Hu Hk].
  destruct (uo_frame _ _ _ _ (bd_user _ _ _ _ _ _ Hb) (va / PGSIZE) f ltac:(lia) Hf) as (Hv & _ & _).
  pose proof (Z.mod_pos_bound va PGSIZE ltac:(done)) as Hmod.
  pose proof (valid_page_no_wrap kend f Hv) as Hw. unfold no_wrap in Hw.
  rewrite (padd_small f _ PGSIZE) by (unfold no_wrap; lia).
  set (m' := store_bytes _ _ _). assert (forall a, m' a = overlay (f + va `mod` PGSIZE) l (km_mem s1) a) as Hm'.
  { intros a. apply store_bytes_overlay. unfold no_wrap. lia. }
  destruct (building_page d pages rest s s1 m' (va / PGSIZE) f Hb ltac:(lia) Hf) as [Hs Hb'].
  { intros a Ha. rewrite Hm'. unfold overlay. by rewrite decide_False by lia. }
  assert (forall v, mapping m' d v = mapping (km_mem s1) d v) as Hmap.
  { intros v. apply (mapping_same kend rest); [apply Hb|done]. }
  split; cbn [km_mem set_km_mem]; try done.
  - intros k Hk'. rewrite Hmap. by apply Hp.
  - intros v Hv'. rewrite Hmap. by apply Ho.
  - intros v Hv'. unfold ubyte. rewrite Hmap. rewrite <- (overlay_at va l (ubyte (km_mem s1) d) img v (Hby v Hv')).
    destruct (image_page _ _ _ _ _ _ _ _ v Him Hv') as (q & Hq & Hm & Hqf). unfold ubyte, overlay. rewrite Hm, Hm'.
    rewrite (frame_pte kend) by (done || apply page_flags_range). unfold overlay.
    pose proof (Z.mod_pos_bound v PGSIZE ltac:(done)) as Hmodv.
    destruct (decide (v / PGSIZE = va / PGSIZE)) as [He|He].
    + rewrite He, Hf in Hqf. injection Hqf as <-. unfold PGSIZE in *.
      repeat case_decide; try done; try zlia. f_equal. zlia.
    + rewrite !decide_False; [done| |].
      * unfold PGSIZE in *. zlia.
      * assert (q <> f) as Hne.
        { intros ->. apply He. apply (uo_inj _ _ _ _ (bd_user _ _ _ _ _ _ Hb) _ _ f); try done; [|lia].
          pose proof (user_page_of n v ltac:(lia) Hv'). lia. }
        pose proof (byte_elsewhere kend q f (v `mod` PGSIZE) Hq Hv Hne Hmodv). lia.
  - intros v Hv'. unfold overlay. rewrite decide_False; [by apply Hz|]. unfold PGSIZE in *. zlia.
Qed.

(** ** clearpteu *)

Lemma image_walk d n g img pages rest s s1 va :
  image d n g img pages rest s s1 -> 0 <= va < PGSIZE * n -> exists t p,
    tab (km_mem s1) d (PDX va) = Some t /\ walkpgdir d va false s1 = Done (t + 4 * PTX va) s1 /\ t + 4 * PTX va <> 0 /\
    ld32 (km_mem s1) (t + 4 * PTX va) = pte_word (p - KERNBASE) (page_flags g (va / PGSIZE)) /\
    valid p /\ uframe (km_mem s1) d (va / PGSIZE) = Some p.
Proof.
  intros Him Hva. destruct (image_page _ _ _ _ _ _ _ _ va Him Hva) as (p & Hp & Hm & Hf).
  pose proof (uo_space _ _ _ _ (bd_user _ _ _ _ _ _ (im_building _ _ _ _ _ _ _ _ Him))) as Hs.
  destruct (mapping_Some _ _ _ _ Hm) as (t & Ht & Hld & _). exists t, p.
  destruct (so_tab _ _ _ _ Hs _ t (PDX_range _) Ht) as (Htv & _). pose proof (PTX_range va).
  split_and!; try done; [by eapply walk_present|]. unfold valid_page, KERNBASE in Htv. lia.
Qed.

Lemma image_guard d n img pages rest s s1 k :
  image d n (-1) img pages rest s s1 -> 0 <= k < n ->
  wp (clearpteu d (PGSIZE * k)) (fun _ s2 => image d n k img pages rest s s2) s1.
Proof using Hkend Hdata.
  intros Him Hk. pose proof Him as [Hb Hn Hp Ho Hby Hz]. pose proof Hb as [K U A L O].
  assert (0 <= PGSIZE * k < PGSIZE * n) as Hva by (unfold PGSIZE; lia).
  destruct (user_page_u32 k) as [Hu Hd]; [lia|].
  destruct (image_walk _ _ _ _ _ _ _ _ _ Him Hva) as (t & p & Ht & Hw & H0 & Hld & Hpv & Hf). rewrite Hd in Hld, Hf.
  pose proof (valid_aligned kend p Hpv) as [Hal Hr].
  unfold clearpteu. apply wp_bind. eapply wp_intro; [exact Hw|]. apply Z.eqb_neq in H0. rewrite H0.
  apply wp_bind, wp_gets. rewrite Hld. unfold page_flags at 1. rewrite decide_False by lia.
  change (Z.lor PTE_W PTE_U) with 6. rewrite clear_U_word by done. apply wp_modify.
  assert (is_u32 (pte_word (p - KERNBASE) 2)) as Hw32.
  { apply pte_word_u32; [|done]. unfold is_u32, u32_mod, KERNBASE, PHYSTOP in *. lia. }
  set (s2 := set_km_mem _ s1).
  assert (forall va, is_u32 va -> mapping (km_mem s2) d va =
    if decide (va / PGSIZE = k) then Some (pte_word (p - KERNBASE) 2) else mapping (km_mem s1) d va) as Hmap.
  { intros va Hva'. subst s2. cbn [km_mem set_km_mem]. rewrite (store_mapping kend rest) with (t := t); try done.
    - by rewrite Hd.
    - by apply U.
    - apply pte_word_present. }
  assert (forall j, 0 <= j < NUSER -> uframe (km_mem s2) d j = uframe (km_mem s1) d j) as Huf.
  { intros j Hj. destruct (user_page_u32 j Hj) as [Huj Hdj]. destruct (decide (j = k)) as [->|Hne].
    - rewrite Hf. unfold uframe. rewrite Hmap, decide_True by done. cbn. f_equal. by apply (frame_pte kend).
    - unfold uframe. rewrite Hmap, decide_False by (done || lia). done. }
  assert (moves kend d rest rest s1 s2) as Hmv.
  { apply (grown_moves kend Hkend); [done| |done]. eapply store_grown; try done. apply U. }
  split; [by eapply building_moves|done|..|done].
  - intros j Hj. destruct (user_page_u32 j) as [Huj Hdj]; [lia|]. destruct (decide (j = k)) as [->|Hne].
    + exists p. split; [done|]. rewrite Hmap, decide_True by done. unfold page_flags. by rewrite decide_True.
    + destruct (Hp j Hj) as (q & Hq & Hm). exists q. split; [done|]. rewrite Hmap, decide_False by (done || lia).
      rewrite Hm. unfold page_flags. by rewrite !decide_False by lia.
  - intros va Hva' Hge. rewrite Hmap, decide_False by (done || lia). by apply Ho.
  - intros va Hva'. rewrite <- Hby by done. destruct (image_page _ _ _ _ _ _ _ _ va Him Hva') as (q & Hq & Hm & Hqf).
    destruct (user_page_of n va) as [Hu' Hk']; [lia|done|].
    destruct (uo_frame _ _ _ _ U (va / PGSIZE) q ltac:(lia) Hqf) as (Hqv & Hqr & Hqt).
    assert (exists w, mapping (km_mem s2) d va = Some w /\ frame w = q) as (w & Hw2 & Hfw).
    { assert (uframe (km_mem s2) d (va / PGSIZE) = Some q) as H2 by (rewrite Huf by lia; done).
      unfold uframe in H2. rewrite <- (page_mapping _ _ va (va / PGSIZE)) in H2 by (done || lia).
      destruct (mapping (km_mem s2) d va) as [w|]; [|done]. injection H2 as <-. eauto. }
    unfold ubyte. rewrite Hw2, Hm, Hfw, (frame_pte kend) by (done || apply page_flags_range).
    eapply moves_untouched; try done. by apply Z.mod_pos_bound.
Qed.

(** ** copyout *)

Lemma image_uva2ka d n g img pages rest s s1 va :
  image d n g img pages rest s s1 -> 0 <= va < PGSIZE * n -> exists p,
    uframe (km_mem s1) d (va / PGSIZE) = Some p /\ p <> 0 /\
    uva2ka d va s1 = Done (if decide (va / PGSIZE = g) then 0 else p) s1.
Proof.
  intros Him Hva. destruct (image_walk _ _ _ _ _ _ _ _ _ Him Hva) as (t & p & Ht & Hw & H0 & Hld & Hpv & Hf).
  pose proof (valid_aligned kend p Hpv) as [Hal Hr]. exists p. split_and!; [done|by apply (valid_page_nonzero kend)|].
  unfold uva2ka, bind. rewrite Hw. apply Z.eqb_neq in H0. rewrite H0. unfold ldw, gets. rewrite Hld.
  rewrite pte_word_present, has_U_word by done. cbn [negb]. unfold page_flags.
  destruct (decide (va / PGSIZE = g)); [done|]. change (negb (has (Z.lor PTE_W PTE_U) PTE_U)) with false.
  pose proof (frame_pte kend p 6 Hpv ltac:(done)) as Hfp. unfold frame in Hfp. change (Z.lor PTE_W PTE_U) with 6.
  cbv iota. rewrite P2V_ok; [by rewrite Hfp|]. unfold PHYSTOP, KERNBASE in *. lia.
Qed.

(** Kernel pages at the top are mapped, but not for the user. *)
Lemma kernel_top va : DEVSPACE <= va < u32_mod -> exists a, a `mod` PGSIZE = 0 /\ kernel_map data va = Some (pte_word a PTE_W).
Proof.
  intros Hva. unfold kernel_map, kmap. cbn [kmapped]. unfold mapped_from at 1.
  change (Z.of_nat (Z.to_nat (u32 (0 - DEVSPACE) / PGSIZE))) with 8192.
  rewrite decide_True by (unfold DEVSPACE, PGSIZE, u32_mod in *; lia). eexists. split; [|done].
  rewrite Z.mul_comm, Z.mod_add by done. done.
Qed.

Lemma image_uva2ka_top d n g img pages rest s s1 va :
  image d n g img pages rest s s1 -> DEVSPACE <= va < u32_mod -> uva2ka d va s1 = Done 0 s1.
Proof.
  intros Him Hva. pose proof Him as [Hb Hn _ Ho _ _].
  destruct (kernel_top va Hva) as (a & Ha & Hk). rewrite <- Ho in Hk.
  2: { unfold is_u32, DEVSPACE in *. lia. }
  2: { unfold NUSER, DEVSPACE, PGSIZE in *. zlia. }
  pose proof (uo_space _ _ _ _ (bd_user _ _ _ _ _ _ Hb)) as Hs.
  destruct (mapping_Some _ _ _ _ Hk) as (t & Ht & Hld & _).
  destruct (so_tab _ _ _ _ Hs _ t (PDX_range _) Ht) as (Htv & _). pose proof (PTX_range va).
  unfold uva2ka, bind. rewrite (walk_present kend s1 d va false t rest Hs Ht).
  destruct (Z.eqb_spec (t + 4 * PTX va) 0); [unfold valid_page, KERNBASE in Htv; lia|].
  unfold ldw, gets. rewrite Hld, pte_word_present, has_U_word by done. done.
Qed.

Definition copied_out (d n g : Z) (img : Z -> Z) (va : Z) (l : list Z) (pages rest : list Z) (s : kmem) (r : Z) (s' : kmem) : Prop :=
  (r = 0 /\ image d n g (overlay va l img) pages rest s s' /\
     forall v, va <= v < va + Z.of_nat (length l) -> v / PGSIZE <> g) \/
  (r = -1 /\ exists img', image d n g img' pages rest s s').

Lemma copyout_loop_ok fuel : forall d n g img pages rest s s1 va l,
  image d n g img pages rest s s1 -> 0 <= va -> va + Z.of_nat (length l) <= PGSIZE * n ->
  (va `mod` PGSIZE + Z.of_nat (length l) + PGSIZE - 1) / PGSIZE < Z.of_nat fuel ->
  wp (copyout_loop fuel d va l) (copied_out d n g img va l pages rest s) s1.
Proof.
  induction fuel as [|fuel IH]; intros d n g img pages rest s s1 va l Him H0 Hend Hfuel.
  { unfold PGSIZE in *. zlia. }
  cbn [copyout_loop]. pose proof (im_size _ _ _ _ _ _ _ _ Him) as Hn. destruct l as [|b l'].
  { apply wp_ret. left. split_and!; [done| |cbn [length]; lia]. eapply image_ext; [done|]. intros v _. apply overlay_nil. }
  set (l := b :: l') in *. assert (0 < Z.of_nat (length l)) as Hlen by (unfold l; cbn [length]; lia).
  rewrite PGROUNDDOWN_eq by done. pose proof (Z.mod_pos_bound va PGSIZE ltac:(done)) as Hmod.
  pose proof (Z.div_mod va PGSIZE ltac:(done)) as Hdm.
  replace (va - PGSIZE * (va / PGSIZE)) with (va `mod` PGSIZE) by lia.
  set (k := va / PGSIZE) in *. set (o := va `mod` PGSIZE) in *.
  destruct (image_uva2ka d n g img pages rest s s1 (PGSIZE * k) Him) as (p & Hf & Hp0 & Hu).
  { unfold k, o, PGSIZE in *. zlia. }
  replace (PGSIZE * k / PGSIZE) with k in Hf, Hu by (unfold PGSIZE; zlia).
  apply wp_bind. eapply wp_intro; [exact Hu|]. destruct (decide (k = g)) as [Hg|Hg].
  { cbn [Z.eqb]. apply wp_ret. right. split; [done|]. by exists img. }
  apply Z.eqb_neq in Hp0. rewrite Hp0. set (c := Z.min (Z.of_nat (length l)) (PGSIZE - o)). apply wp_bind, wp_modify.
  assert (length (take (Z.to_nat c) l) = Z.to_nat c) as Htk by (rewrite length_take; lia).
  assert (image d n g (overlay va (take (Z.to_nat c) l) img) pages rest s
    (set_km_mem (store_bytes (km_mem s1) (padd p o) (take (Z.to_nat c) l)) s1)) as Him2.
  { apply image_store; try done; fold k o; [lia|rewrite Htk; lia]. }
  rewrite u32_small by (unfold is_u32, u32_mod, NUSER, PGSIZE in *; zlia).
  eapply wp_mono; [apply (IH d n g _ pages rest s _ (PGSIZE * k + PGSIZE) (drop (Z.to_nat c) l) Him2)|].
  - unfold k, PGSIZE in *. zlia.
  - rewrite length_drop. unfold PGSIZE in *. zlia.
  - rewrite length_drop. replace ((PGSIZE * k + PGSIZE) `mod` PGSIZE) with 0 by (unfold PGSIZE; zlia).
    unfold PGSIZE in *. zlia.
  - assert (c = Z.of_nat (length l) \/ va + c = PGSIZE * k + PGSIZE) as Hc by (unfold c; lia).
    intros r s2 [(-> & Him3 & Hng)|(-> & img' & Him3)]; [left|right; eauto]. split_and!; [done|..].
    + eapply image_ext; [exact Him3|]. intros v _. rewrite <- (overlay_split va l c img v) by lia.
      destruct Hc as [Hc|Hc]; [|by rewrite Hc]. rewrite Hc, Nat2Z.id, drop_all. unfold overlay at 1 3. cbn [length].
      by rewrite !decide_False by lia.
    + intros v Hv. rewrite length_drop in Hng. destruct (Z.lt_ge_cases v (PGSIZE * k + PGSIZE)) as [Hlt|Hge].
      * replace (v / PGSIZE) with k; [done|]. unfold k, PGSIZE in *. zlia.
      * apply Hng. lia.
Qed.

Lemma copyout_ok d n g img pages rest s s1 va l :
  image d n g img pages rest s s1 -> 0 <= va -> va + Z.of_nat (length l) <= PGSIZE * n ->
  wp (copyout d va l) (copied_out d n g img va l pages rest s) s1.
Proof.
  intros Him H0 Hend. apply copyout_loop_ok; try done. pose proof (Z.mod_pos_bound va PGSIZE ltac:(done)).
  unfold PGSIZE in *. zlia.
Qed.
End Image.
