(* ===== verification/ExecLoad.v ===== *)
(** * Loading a program

    What exec needs of the file system is [file_laws]: while an inode satisfies
    [R], readi returns what [P] says; closing it leaves [C]; the faults of the
    calls are in [F].
    [loads] is the image that the program headers describe, and load_segments
    builds it or fails with an address space that can be freed. *)

From S2P Require Import Prelude Mem KString Kalloc Vm VmInv VmSpace VmAlloc VmCopy FsState Bio Log Fs FsWrite Sysfile Exec ExecImage.

Local Open Scope c_scope.
Local Open Scope Z_scope.

(** What exec changes when it commits *)
Definition proc_of (s : execst) := (x_pgdir s, x_sz s, x_eip s, x_esp s, x_name s, x_cr3 s).

Lemma wpf_on_xfs {A} F (m : M fsys A) Q s : wpf F m (fun a t => Q a (set_x_fs t s)) (x_fs s) -> wpf F (on_xfs m) Q s.
Proof. unfold wpf, on_xfs. by destruct (m (x_fs s)). Qed.

Lemma wpf_on_xkm {A} F (m : M kmem A) Q s : wp m (fun a t => Q a (set_x_km t s)) (x_km s) -> wpf F (on_xkm m) Q s.
Proof. unfold wp, wpf, on_xkm. by destruct (m (x_km s)). Qed.

Record file_laws (devread : Z -> option (nat -> Z -> M fsys (Z * list Z))) (F : fault -> Prop)
    (R : nat -> fsys -> Prop) (P : nat -> Z -> Z -> Z * list Z -> Prop) (C : fsys -> Prop) : Prop := mkFileLaws {
  fl_readi : forall ip off n t, R ip t -> is_u32 off -> 0 <= n <= PGSIZE ->
    wpf F (readi devread ip off n) (fun r t' => R ip t' /\ P ip off n r) t;
  fl_bound : forall ip off n r, 0 <= n -> P ip off n r -> Z.of_nat (length r.2) <= n;
  fl_close : forall ip t, R ip t -> wpf F (iunlockput ip ;; end_op) (fun _ t' => C t') t;
}.

Section Reads.
Context (P : Z -> Z -> Z * list Z -> Prop).

(** The image [img] becomes [img'] when [sz] bytes from [off] on are read, page
    after page, to [va]. *)
Inductive seg_reads : Z -> Z -> Z -> (Z -> Z) -> (Z -> Z) -> Prop :=
| seg_reads_end off va sz img : sz <= 0 -> seg_reads off va sz img img
| seg_reads_page off va sz img img' c l :
    0 < sz -> c = Z.min PGSIZE sz -> P (u32 off) c (c, l) ->
    seg_reads (off + PGSIZE) (va + PGSIZE) (sz - PGSIZE) (overlay va l img) img' -> seg_reads off va sz img img'.

(** The size and the bytes of the image after [left] program headers from
    [off] on *)
Inductive loads : nat -> Z -> Z -> (Z -> Z) -> Z -> (Z -> Z) -> Prop :=
| loads_done off sz img : loads 0 off sz img sz img
| loads_skip left off sz img sz' img' h :
    P off sizeof_proghdr (sizeof_proghdr, h) -> ph_type h <> ELF_PROG_LOAD ->
    loads left (u32 (off + sizeof_proghdr)) sz img sz' img' -> loads (S left) off sz img sz' img'
| loads_segment left off sz img sz' img1 img' h :
    P off sizeof_proghdr (sizeof_proghdr, h) -> ph_type h = ELF_PROG_LOAD ->
    ph_filesz h <= ph_memsz h -> ph_vaddr h + ph_memsz h < KERNBASE -> ph_vaddr h `mod` PGSIZE = 0 ->
    seg_reads (ph_off h) (ph_vaddr h) (ph_filesz h) img img1 ->
    loads left (u32 (off + sizeof_proghdr)) (Z.max sz (ph_vaddr h + ph_memsz h)) img1 sz' img' ->
    loads (S left) off sz img sz' img'.
End Reads.

Section Load.
Context (kend : Z) (Hkend : KERNBASE < kend) (data : Z) (Hdata : data_ok data).
Context (devread : Z -> option (nat -> Z -> M fsys (Z * list Z))) (F : fault -> Prop).
Context (R : nat -> fsys -> Prop) (P : nat -> Z -> Z -> Z * list Z -> Prop) (C : fsys -> Prop) (HL : file_laws devread F R P C).
Context (d : Z) (pages : list Z) (s0 : kmem).
Local Abbreviation img_ok n img rest s := (image kend data d n (-1) img pages rest s0 (x_km s)).

Lemma ph_u32 h : is_u32 (ph_off h) /\ is_u32 (ph_vaddr h) /\ is_u32 (ph_filesz h) /\ is_u32 (ph_memsz h).
Proof. split_and!; apply u32_range. Qed.

(** One call of readi, which the process does not see *)
Lemma readi_step ip off n s Q :
  R ip (x_fs s) -> is_u32 off -> 0 <= n <= PGSIZE ->
  (forall r s', proc_of s' = proc_of s -> x_km s' = x_km s -> R ip (x_fs s') -> P ip off n r -> Q r s') ->
  wpf F (on_xfs (readi devread ip off n)) Q s.
Proof using HL.
  intros HR Ho Hn HQ. apply wpf_on_xfs. eapply wpf_mono; [by apply (fl_readi _ _ _ _ _ HL)|].
  intros r t [HR' HP]. by apply HQ.
Qed.

Definition loaded (ip : nat) (n va off : Z) (sz : Z) (img : Z -> Z) (rest : list Z) (s : execst) (r : Z) (s' : execst) : Prop :=
  proc_of s' = proc_of s /\ R ip (x_fs s') /\
  ((r = 0 /\ exists img', seg_reads (P ip) off va sz img img' /\ img_ok n img' rest s') \/
   (r = -1 /\ exists img', img_ok n img' rest s')).

Lemma loaduvm_loop_ok fuel : forall ip n addr off i sz img rest s,
  img_ok n img rest s -> R ip (x_fs s) -> addr `mod` PGSIZE = 0 -> i `mod` PGSIZE = 0 -> 0 <= addr -> 0 <= i ->
  addr + sz <= PGSIZE * n -> sz - i < PGSIZE * Z.of_nat fuel - PGSIZE -> 0 < Z.of_nat fuel ->
  wpf F (loaduvm_loop devread fuel d addr ip off i sz) (loaded ip n (addr + i) (off + i) (sz - i) img rest s) s.
Proof using HL Hdata Hkend.
  induction fuel as [|fuel IH]; intros ip n addr off i sz img rest s Him HR Hal Hil H0 Hi Hend Hf Hf0; [lia|].
  cbn [loaduvm_loop]. destruct (Z.ltb_spec i sz) as [Hlt|Hge].
  2: { eapply wpf_done; [reflexivity|]. split_and!; [done..|]. left. split; [done|]. exists img. split; [|done].
       constructor. lia. }
  pose proof (im_size _ _ _ _ _ _ _ _ _ _ Him) as Hn.
  assert (u32 (addr + i) = addr + i) as Hva by (apply u32_small; unfold is_u32, u32_mod, NUSER, PGSIZE in *; lia).
  rewrite Hva. assert ((addr + i) `mod` PGSIZE = 0) as Hval by (unfold PGSIZE in *; zlia).
  destruct (image_walk kend data _ _ _ _ _ _ _ _ (addr + i) Him ltac:(lia)) as (t & p & Ht & Hw & H1 & Hld & Hpv & Hfr).
  apply wpf_bind, wpf_on_xkm. eapply wp_intro; [exact Hw|]. apply Z.eqb_neq in H1. rewrite H1.
  apply wpf_bind, wpf_on_xkm, wp_gets. cbn [x_km set_x_km]. rewrite Hld.
  pose proof (frame_pte kend p _ Hpv (page_flags_range (-1) ((addr + i) / PGSIZE))) as Hfp. unfold frame in Hfp.
  pose proof (valid_aligned kend p Hpv) as [_ Hpr].
  eapply wpf_step; [apply P2V_ok; unfold PHYSTOP, KERNBASE in *; lia|]. rewrite Hfp.
  set (c := if sz - i <? PGSIZE then sz - i else PGSIZE).
  assert (c = Z.min PGSIZE (sz - i)) as Hc by (unfold c; destruct (Z.ltb_spec (sz - i) PGSIZE); lia).
  apply wpf_bind, readi_step with (ip := ip) (off := u32 (off + i)); [done|apply u32_range|unfold PGSIZE in *; lia|].
  intros [cnt l] s1 Hp1 Hk1 HR1 HP1. cbn [fst snd]. apply wpf_bind, wpf_on_xkm, wp_modify. rewrite Hk1. cbn [x_km set_x_km].
  pose proof (fl_bound _ _ _ _ _ HL ip (u32 (off + i)) c (cnt, l) ltac:(lia) HP1) as Hb. cbn [snd] in Hb.
  assert (img_ok n (overlay (addr + i) l img) rest (set_x_km (set_km_mem (store_bytes (km_mem (x_km s)) p l) (x_km s)) s1)) as Him1.
  { pose proof (image_store kend data _ _ _ _ _ _ _ _ (addr + i) l p Him ltac:(lia) ltac:(lia) Hfr) as H.
    assert (padd p 0 = p) as Hp0 by (rewrite (padd_small p 0 (PGSIZE + 1)) by (try done; by apply (valid_page_no_wrap kend)); lia).
    by rewrite Hval, Hp0 in H. }
  destruct (Z.eqb_spec cnt c) as [->|Hne].
  2: { eapply wpf_done; [reflexivity|]. split_and!; [done..|]. right. split; [done|]. eauto. }
  rewrite (u32_small (i + PGSIZE)) by (unfold is_u32, u32_mod, NUSER, PGSIZE in *; lia).
  eapply wpf_mono; [apply (IH ip n addr off (i + PGSIZE) sz _ rest _ Him1); try done; try (unfold PGSIZE in *; (lia || zlia))|].
  intros r s2 (Hp2 & HR2 & Hres). split_and!; [by rewrite Hp2|done|].
  destruct Hres as [(-> & img' & Hsr & Him2)|(-> & img' & Him2)]; [left|right; eauto]. split; [done|].
  exists img'. split; [|done]. eapply seg_reads_page; [lia|exact Hc|exact HP1|].
  replace (off + i + PGSIZE) with (off + (i + PGSIZE)) by lia. replace (addr + i + PGSIZE) with (addr + (i + PGSIZE)) by lia.
  by replace (sz - i - PGSIZE) with (sz - (i + PGSIZE)) by lia.
Qed.

Lemma loaduvm_ok ip n addr off sz img rest s :
  img_ok n img rest s -> R ip (x_fs s) -> addr `mod` PGSIZE = 0 -> 0 <= addr -> 0 <= sz -> addr + sz <= PGSIZE * n ->
  wpf F (loaduvm devread d addr ip off sz) (loaded ip n addr off sz img rest s) s.
Proof using HL Hdata Hkend.
  intros Him HR Hal H0 Hsz Hend. unfold loaduvm. rewrite Hal. cbn [Z.eqb negb].
  eapply wpf_mono; [apply (loaduvm_loop_ok _ ip n addr off 0 sz img rest s); try done; unfold PGSIZE in *; zlia|].
  intros r s'. by rewrite !Z.add_0_r, Z.sub_0_r.
Qed.

(** What load_segments leaves: None for a failure *)
Definition segments (ip : nat) (left : nat) (off sz : Z) (img : Z -> Z) (s : execst) (r : option Z) (s' : execst) : Prop :=
  proc_of s' = proc_of s /\ R ip (x_fs s') /\
  match r with
  | None => exists rest, building kend d pages rest s0 (x_km s')
  | Some sz' => 0 <= sz' < KERNBASE /\
      exists img' rest, img_ok (npages sz') img' rest s' /\ loads (P ip) left off sz img sz' img'
  end.

Lemma segments_fail ip left off sz img s s' rest :
  proc_of s' = proc_of s -> R ip (x_fs s') -> building kend d pages rest s0 (x_km s') ->
  wpf F (ret None) (segments ip left off sz img s) s'.
Proof. intros Hp HR Hb. eapply wpf_done; [reflexivity|]. split_and!; eauto. Qed.

Lemma segment_end h :
  ~ (u32 (ph_vaddr h + ph_memsz h) < ph_vaddr h) -> u32 (ph_vaddr h + ph_memsz h) = ph_vaddr h + ph_memsz h.
Proof. destruct (ph_u32 h) as (_ & Hv & _ & Hm). unfold is_u32, u32, u32_mod in *. zlia. Qed.

(** One segment; [k] goes on with the headers that follow. *)
Lemma segment_ok h ip sz img rest s (k : Z -> M execst (option Z)) Q :
  img_ok (npages sz) img rest s -> R ip (x_fs s) -> 0 <= sz < KERNBASE ->
  ph_filesz h <= ph_memsz h -> ~ u32 (ph_vaddr h + ph_memsz h) < ph_vaddr h ->
  (forall s' rest', proc_of s' = proc_of s -> R ip (x_fs s') -> building kend d pages rest' s0 (x_km s') -> Q None s') ->
  (forall sz' img' s' rest', sz' = Z.max sz (ph_vaddr h + ph_memsz h) -> 0 <= sz' < KERNBASE ->
     ph_vaddr h + ph_memsz h < KERNBASE -> ph_vaddr h `mod` PGSIZE = 0 ->
     seg_reads (P ip) (ph_off h) (ph_vaddr h) (ph_filesz h) img img' ->
     proc_of s' = proc_of s -> R ip (x_fs s') -> img_ok (npages sz') img' rest' s' ->
     wpf F (k sz') Q s') ->
  wpf F (sz <- on_xkm (allocuvm kend d sz (u32 (ph_vaddr h + ph_memsz h))) ;;
        if sz =? 0 then ret None
        else if negb (ph_vaddr h `mod` PGSIZE =? 0) then ret None
        else
          r <- loaduvm devread d (ph_vaddr h) ip (ph_off h) (ph_filesz h) ;;
          if r <? 0 then ret None else k sz) Q s.
Proof using HL Hdata Hkend.
  intros Him HR Hsz Hfm Hnw Hbad Hgo. rewrite segment_end by done. destruct (ph_u32 h) as (Ho & Hv & Hf & Hm). unfold is_u32 in *.
  apply wpf_bind, wpf_on_xkm. eapply wp_mono; [eapply (image_alloc kend Hkend data Hdata); (done || lia)|].
  intros r t [(-> & rest' & Hb)|(Hlt & -> & rest' & Him')]; [by eapply Hbad|].
  destruct (Z.eqb_spec (Z.max sz (ph_vaddr h + ph_memsz h)) 0) as [_|_]; [by eapply Hbad; try apply Him'|].
  destruct (Z.eqb_spec (ph_vaddr h `mod` PGSIZE) 0) as [Hal|_]; cbn [negb]; [|by eapply Hbad; try apply Him'].
  apply wpf_bind. eapply wpf_mono; [eapply (loaduvm_ok ip _ (ph_vaddr h)); try done; try lia|].
  { unfold npages, PGSIZE in *. zlia. }
  intros r s' (Hp & HR' & [(-> & img' & Hsr & Him2)|(-> & img' & Him2)]); cbn [Z.ltb Z.compare].
  - eapply Hgo; try done; lia.
  - by eapply Hbad; try apply Him2.
Qed.

Lemma load_segments_ok left : forall ip off sz img rest s,
  img_ok (npages sz) img rest s -> R ip (x_fs s) -> 0 <= sz < KERNBASE -> is_u32 off ->
  wpf F (load_segments kend devread left d ip off sz) (segments ip left off sz img s) s.
Proof using HL Hdata Hkend.
  induction left as [|left IH]; intros ip off sz img rest s Him HR Hsz Hoff; cbn [load_segments].
  { eapply wpf_done; [reflexivity|]. split_and!; [done..|lia|lia|]. exists img, rest. split; [done|]. constructor. }
  apply wpf_bind, readi_step with (ip := ip) (off := off); [done|done|done|].
  intros [c h] s1 Hp1 Hk1 HR1 HP1. cbn [fst snd]. rewrite <- Hk1 in Him. pose proof (im_building _ _ _ _ _ _ _ _ _ _ Him) as Hb1.
  destruct (Z.eqb_spec c sizeof_proghdr) as [->|_]; cbn [negb]; [|by eapply segments_fail].
  destruct (Z.eqb_spec (ph_type h) ELF_PROG_LOAD) as [Hty|Hty]; cbn [negb].
  2: { eapply wpf_mono; [apply (IH ip _ sz img rest s1 Him HR1 Hsz); apply u32_range|].
       intros r s2 (Hp2 & HR2 & Hr). split_and!; [by rewrite Hp2|done|]. destruct r as [sz'|]; [|done].
       destruct Hr as (Hr & img' & rest' & Him' & Hld). split; [done|]. exists img', rest'. split; [done|].
       by eapply loads_skip. }
  destruct (Z.ltb_spec (ph_memsz h) (ph_filesz h)) as [_|Hfm]; [by eapply segments_fail|].
  destruct (Z.ltb_spec (u32 (ph_vaddr h + ph_memsz h)) (ph_vaddr h)) as [_|Hnw]; [by eapply segments_fail|].
  eapply (segment_ok h ip sz img rest s1); try done; [lia|..].
  - intros s2 rest' Hp2 HR2 Hb2. split_and!; [by rewrite Hp2|done|eauto].
  - intros sz' img1 s2 rest' -> Hsz' Hlt Hal Hsr Hp2 HR2 Him2.
    eapply wpf_mono; [apply (IH ip _ _ _ rest' s2 Him2 HR2 Hsz'); apply u32_range|].
    intros r s3 (Hp3 & HR3 & Hr). split_and!; [by rewrite Hp3, Hp2|done|]. destruct r as [sz2|]; [|done].
    destruct Hr as (Hr & img' & rest2 & Him' & Hld). split; [done|]. exists img', rest2. split; [done|].
    by eapply loads_segment.
Qed.
End Load.
