(* ===== verification/ExecProof.v ===== *)
(** * The stack of a new program, and exec as a whole

    exec puts the strings of the arguments and the table of pointers to them
    into the last page of the image, below which lies a page that the user
    cannot touch: copyout fails when the arguments do not fit.

    exec either returns -1, and then every page it took is free again and the
    process is as before, or it returns 0 and the process has the new image;
    the pages of the old one are free.  The proof is against the laws of the
    file system in [file_laws]. *)

From S2P Require Import Prelude Mem KString Kalloc Vm VmInv VmSpace VmAlloc VmCopy FsState Bio Log Fs FsWrite Syscall Sysfile Exec ExecImage ExecLoad.

Local Open Scope c_scope.
Local Open Scope Z_scope.

(** The bytes [l] lie at [p]. *)
Definition holds (img : Z -> Z) (p : Z) (l : list Z) : Prop :=
  forall i b, l !! i = Some b -> img (p + Z.of_nat i) = b.

Lemma holds_overlay img p l : holds (overlay p l img) p l.
Proof.
  intros i b Hi. pose proof (lookup_lt_Some _ _ _ Hi). unfold overlay. rewrite decide_True by lia.
  rewrite get8_lookup. replace (Z.to_nat (p + Z.of_nat i - p)) with i by lia. by rewrite Hi.
Qed.

Lemma holds_above img img' lo p l : holds img p l -> lo <= p -> (forall v, lo <= v -> img' v = img v) -> holds img' p l.
Proof. intros H Hlo Heq i b Hi. rewrite Heq by lia. by apply H. Qed.

(** ** The arguments *)

Lemma land_lnot_3 a : 0 <= a -> Z.land a (Z.lnot 3) = 4 * (a / 4).
Proof. intros Ha. change 3 with (Z.ones 2). rewrite land_lnot_low by lia. change (2 ^ 2) with 4. zlia. Qed.

(** Longer arguments can make the stack pointer wrap around into a part of the
    kernel half that has no page table. *)
Definition arg_fits (a : list Z) : Prop := Z.of_nat (length a) < u32_mod - DEVSPACE.

Section Stack.
Context (kend : Z) (Hkend : KERNBASE < kend) (data : Z) (Hdata : data_ok data) (F : fault -> Prop).
Context (d n : Z) (Hn2 : 2 <= n) (pages rest : list Z) (s0 : kmem).
Local Abbreviation img_ok img s := (image kend data d n (n - 2) img pages rest s0 (x_km s)).
Local Abbreviation base := (PGSIZE * (n - 1)).

Lemma copyout_top img s va l :
  img_ok img s -> DEVSPACE <= va < u32_mod -> l <> [] -> copyout d va l (x_km s) = Done (-1) (x_km s).
Proof.
  intros Him Hva Hl. unfold copyout. rewrite Nat.add_comm. cbn [Nat.add copyout_loop]. destruct l as [|b l]; [done|].
  rewrite PGROUNDDOWN_eq by (unfold DEVSPACE in *; lia). unfold bind. erewrite image_uva2ka_top; [done|exact Him|].
  unfold DEVSPACE, u32_mod, PGSIZE in *. zlia.
Qed.

(** copyout of bytes that end just below the stack so far either fails or
    stays above the guard page. *)
Lemma copyout_stack img s sp va l :
  img_ok img s -> base <= sp <= PGSIZE * n -> 0 <= va -> sp - 4 < va + Z.of_nat (length l) <= sp -> l <> [] ->
  wpf F (on_xkm (copyout d va l)) (fun r s' => proc_of s' = proc_of s /\ x_fs s' = x_fs s /\
    ((r = 0 /\ base <= va /\ img_ok (overlay va l img) s') \/ (r = -1 /\ exists img', img_ok img' s'))) s.
Proof using Hn2.
  intros Him Hsp Hva Hend Hl. apply wpf_on_xkm. eapply wp_mono; [eapply copyout_ok; (done || lia)|].
  intros r t [(-> & Him' & Hg)|(-> & img' & Him')]; (split_and!; [done|done|]); [left|right; eauto].
  split_and!; [done| |done]. apply Z.nlt_ge. intros Hlow.
  assert (0 < Z.of_nat (length l)) as Hlen by (destruct l; [done|cbn [length]; lia]).
  apply (Hg (Z.max va (PGSIZE * (n - 2)))); [unfold PGSIZE in *; lia|]. unfold PGSIZE in *. zlia.
Qed.

(** The strings of [argv], with the pointers [ptrs], lie from [lo] below [hi]. *)
Definition strings (img : Z -> Z) (lo hi : Z) (ptrs : list Z) (argv : list (list Z)) : Prop :=
  Forall2 (fun p a => lo <= p /\ p + Z.of_nat (length a) < hi /\ holds img p (a ++ [0])) ptrs argv.

Lemma strings_above img img' lo lo' hi hi' ptrs argv :
  strings img lo hi ptrs argv -> lo' <= lo -> hi <= hi' -> (forall v, lo <= v -> img' v = img v) -> strings img' lo' hi' ptrs argv.
Proof.
  intros Hs Hlo Hhi Heq. eapply Forall2_impl; [exact Hs|]. intros p a (H1 & H2 & H3). split_and!; [lia|lia|].
  by eapply holds_above.
Qed.

Lemma push_args_ok argv : forall argc img s sp,
  Forall arg_fits argv -> 0 <= argc <= Z.of_nat MAXARG -> img_ok img s -> base <= sp <= PGSIZE * n -> sp `mod` 4 = 0 ->
  wpf F (push_args d argc sp argv) (fun r s' => proc_of s' = proc_of s /\ x_fs s' = x_fs s /\
    match r with
    | None => exists img', img_ok img' s'
    | Some (sp', ptrs) => exists img', img_ok img' s' /\ argc + Z.of_nat (length argv) <= Z.of_nat MAXARG /\
        base <= sp' <= sp /\ sp' `mod` 4 = 0 /\ strings img' sp' sp ptrs argv /\ forall v, v < base \/ sp <= v -> img' v = img v
    end) s.
Proof using Hn2.
  induction argv as [|a argv IH]; intros argc img s sp Hfit Hargc Him Hsp Hal; cbn [push_args].
  { eapply wpf_done; [reflexivity|]. split_and!; [done..|]. exists img. split_and!; try done; try lia; [cbn; lia|constructor]. }
  destruct (Z.leb_spec (Z.of_nat MAXARG) argc) as [_|Hlt].
  { eapply wpf_done; [reflexivity|]. split_and!; [done..|]. eauto. }
  apply Forall_cons in Hfit as [Ha Hfit]. unfold arg_fits in Ha. pose proof (im_size _ _ _ _ _ _ _ _ _ _ Him) as Hn.
  set (len := Z.of_nat (length a)) in *. assert (length (a ++ [0]) = S (length a)) as Hla by (rewrite length_app; cbn; lia).
  rewrite land_lnot_3 by apply u32_range. set (va := 4 * (u32 (sp - (len + 1)) / 4)).
  assert (a ++ [0] <> []) as Hne by (by destruct a). apply wpf_bind. destruct (Z.lt_ge_cases (sp - (len + 1)) 0) as [Hneg|Hpos].
  { apply wpf_on_xkm. eapply wp_intro; [apply (copyout_top img s); try done|].
    - unfold va, u32, u32_mod, DEVSPACE, NUSER, PGSIZE in *. zlia.
    - cbn [Z.ltb Z.compare]. eapply wpf_done; [reflexivity|]. split_and!; [done..|]. eauto. }
  assert (va = 4 * ((sp - (len + 1)) / 4)) as Hva.
  { unfold va. rewrite u32_small; [done|]. unfold is_u32, u32_mod, NUSER, PGSIZE in *. lia. }
  eapply wpf_mono; [apply (copyout_stack img s sp va (a ++ [0])); try done; rewrite ?Hla; zlia|].
  intros r s1 (Hp1 & Hf1 & [(-> & Hb1 & Him1)|(-> & img' & Him1)]); cbn [Z.ltb Z.compare].
  2: { eapply wpf_done; [reflexivity|]. split_and!; [done..|]. eauto. }
  apply wpf_bind. eapply wpf_mono; [apply (IH (argc + 1) (overlay va (a ++ [0]) img) s1 va Hfit); try done; [lia|zlia|zlia]|].
  intros r s2 (Hp2 & Hf2 & Hr). eapply wpf_done; [reflexivity|]. split_and!; [by rewrite Hp2|by rewrite Hf2|].
  destruct r as [[sp' ptrs]|]; cbn [fmap option_fmap option_map]; [|done].
  destruct Hr as (img' & Him' & Hc & Hsp' & Hal' & Hst & Hab). exists img'. split_and!; try done; try zlia.
  - cbn [length]. lia.
  - constructor.
    + split_and!; [lia|fold len; zlia|]. apply (holds_above (overlay va (a ++ [0]) img) img' va); [apply holds_overlay|lia|auto].
    + eapply strings_above; [exact Hst|lia|zlia|done].
  - intros v Hv. rewrite Hab by zlia. unfold overlay. rewrite decide_False; [done|]. rewrite Hla. zlia.
Qed.

(** The stack as the new program finds it at [esp]: a return address, the
    number of arguments, the pointer to the table of pointers, the table. *)
Definition args_at (img : Z -> Z) (esp top : Z) (argv : list (list Z)) : Prop :=
  let argc := Z.of_nat (length argv) in
  exists ptrs, holds img esp (concat (bytes32 <$> [4294967295; argc; esp + 12] ++ ptrs ++ [0])) /\
    strings img (esp + 4 * (argc + 4)) top ptrs argv.

Lemma length_words (ws : list Z) : length (concat (bytes32 <$> ws)) = (4 * length ws)%nat.
Proof. induction ws as [|w ws IH]; [done|]. cbn [fmap list_fmap concat]. rewrite length_app, IH. cbn [length bytes32]. lia. Qed.
End Stack.

#[local] Opaque frames tables memset memmove.

(** What the user part of [d] shows: [n] pages with the bytes [img], page [g]
    not for the user, nothing else below the kernel *)
Record shows (kend data d n g : Z) (img : Z -> Z) (m : mem) : Prop := mkShows {
  sh_page : forall k, 0 <= k < n -> exists p, valid_page kend p /\
    mapping m d (PGSIZE * k) = Some (pte_word (p - KERNBASE) (page_flags g k));
  sh_other : forall va, is_u32 va -> n <= va / PGSIZE -> mapping m d va = kernel_map data va;
  sh_bytes : forall va, 0 <= va < PGSIZE * n -> ubyte m d va = img va;
}.

(** The address space [d] in use, with the free pages [pages] *)
Record in_use (kend d : Z) (pages : list Z) (s : kmem) : Prop := mkInUse {
  iu_kmem : kmem_ok kend pages s;
  iu_user : user_ok kend pages (km_mem s) d;
}.

Section Proof.
Context (kend : Z) (Hkend : KERNBASE < kend) (data : Z) (Hdata : data_ok data).

Lemma user_ok_sub pages rest m d : rest ⊆ pages -> user_ok kend pages m d -> user_ok kend rest m d.
Proof.
  intros Hsub [[Hd Ht Hi] Hf Hj]. split; [split|..]; try done.
  - set_solver.
  - intros i t Hi' Hit. destruct (Ht i t Hi' Hit) as (? & ? & ?). set_solver.
  - intros k f Hk Hkf. destruct (Hf k f Hk Hkf) as (? & ? & ?). set_solver.
Qed.

(** The pages of an address space under construction were free. *)
Lemma building_frame d pages rest s s1 k f :
  building kend d pages rest s s1 -> 0 <= k < NUSER -> uframe (km_mem s1) d k = Some f -> f ∈ pages.
Proof.
  intros [_ _ A _ _] Hk Hf. rewrite <- A. right. apply elem_of_app. right. unfold owned. apply elem_of_app. right.
  apply elem_of_frames. by exists k.
Qed.

(** The old address space is as it was. *)
Lemma building_old d P pages rest s s1 :
  in_use kend P pages s -> building kend d pages rest s s1 ->
  user_ok kend rest (km_mem s1) P /\ owned (km_mem s1) P = owned (km_mem s) P /\
  (forall q, table_page (km_mem s1) P q \/ q ∈ frames (km_mem s1) P 0 NUSER -> valid_page kend q /\ (q ∉ pages)).
Proof.
  intros [K U] Hb. pose proof (uo_space _ _ _ _ U) as Hs.
  pose proof (only_pages_tables kend pages s _ P K Hs (bd_only _ _ _ _ _ _ Hb)) as Hsame.
  pose proof (user_ok_same kend _ _ _ _ U Hsame) as U1. split_and!.
  - eapply user_ok_sub; [|exact U1]. intros q Hq. by eapply building_rest.
  - by eapply owned_same.
  - intros q [Hq|(k & Hk & Hf)%elem_of_frames].
    + eapply table_page_valid; [apply U1|done].
    + destruct (uo_frame _ _ _ _ U1 k q Hk Hf) as (? & ? & _). done.
Qed.

(** freevm of the old address space does not touch the new one. *)
Lemma free_old d P n g img pages rest s s1 :
  in_use kend P pages s -> image kend data d n g img pages rest s s1 ->
  wp (freevm kend P) (fun _ s2 => exists pages2, in_use kend d pages2 s2 /\ shows kend data d n g img (km_mem s2) /\
    d :: owned (km_mem s2) d ++ pages2 ≡ₚ P :: owned (km_mem s) P ++ pages) s1.
Proof using Hkend Hdata.
  intros HP Him. pose proof Him as [Hb Hn Hpg Ho Hby Hz]. pose proof Hb as [K1 U1 A1 _ _].
  destruct (building_old d P pages rest s s1 HP Hb) as (UP & HoP & Hout).
  eapply wp_mono; [by apply (freevm_ok kend Hkend rest s1 P)|]. intros [] s2 (pages2 & K2 & P2 & L2 & F2).
  assert (forall q i, q ∈ pages -> valid_page kend q -> 0 <= i < PGSIZE -> km_mem s2 (q + i) = km_mem s1 (q + i)) as Hkeep.
  { intros q i Hq Hqv Hi. apply F2. intros (f & Hf & Hr). destruct (Hout f) as [Hfv Hfn]; [tauto|].
    eapply (byte_elsewhere kend q f i); try done. by intros ->. }
  assert (same_tables (km_mem s1) (km_mem s2) d) as Hsame.
  { intros q i Hq Hi. apply Hkeep; [by eapply building_tables| |done]. eapply table_page_valid; [apply U1|done]. }
  pose proof (user_ok_same kend _ _ _ _ U1 Hsame) as U2.
  assert (forall va, mapping (km_mem s2) d va = mapping (km_mem s1) d va) as Hmap.
  { intros va. apply (mapping_same kend rest); [apply U1|done]. }
  assert (forall q, q ∈ pages -> (q ∉ rest) -> q ∉ pages2) as Hnot.
  { intros q Hq Hqr. rewrite P2. intros [->|Hin]%elem_of_cons; [destruct (Hout P) as [_ ?]; [by left; left|done]|].
    rewrite !elem_of_app in Hin. destruct Hin as [(i & Hi & Ht)%elem_of_tables|[Hf|Hr]]; [|by destruct (Hout q); [right|]|done].
    destruct (Hout q) as [_ ?]; [left; right; by exists i|done]. }
  exists pages2. split_and!.
  - split; [done|]. destruct U2 as [[Hd Ht Hi] Hf Hj]. split; [split|..]; try done.
    + split; [apply Hd|]. apply Hnot; [by eapply building_tables; [|left]|apply Hd].
    + intros i t Hi' Hit. destruct (Ht i t Hi' Hit) as (? & ? & ?). split_and!; try done. apply Hnot; [|done].
      eapply building_tables; [done|]. right. exists i. split; [done|]. rewrite <- Hit. symmetry.
      apply (tab_same kend rest); [apply U1|done|done].
    + intros k f Hk Hkf. destruct (Hf k f Hk Hkf) as (? & ? & ?). split_and!; try done. apply Hnot; [|done].
      eapply building_frame; [done|done|]. unfold uframe in *. by rewrite <- Hmap.
  - split.
    + intros k Hk. rewrite Hmap. by apply Hpg.
    + intros va Hva. rewrite Hmap. by apply Ho.
    + intros va Hva. rewrite <- Hby by done. destruct (image_page kend data _ _ _ _ _ _ _ _ va Him Hva) as (p & Hp & Hm & Hf).
      unfold ubyte. rewrite Hmap, Hm, (frame_pte kend) by (done || apply page_flags_range).
      apply Hkeep; [|done|by apply Z.mod_pos_bound]. eapply building_frame; [done| |exact Hf].
      pose proof (user_page_of n va ltac:(lia) Hva). lia.
  - rewrite (owned_same kend _ _ d rest (uo_space _ _ _ _ U1) Hsame), P2, <- HoP, <- A1. unfold owned.
    generalize (tables (km_mem s1) d) (frames (km_mem s1) d 0 NUSER) (tables (km_mem s1) P) (frames (km_mem s1) P 0 NUSER).
    clear. intros. solve_Permutation.
Qed.

(** ** What exec leaves *)

Section Call.
Context (F : fault -> Prop).
Context (path : list Z) (argv : list (list Z)) (pages : list Z) (s0 : execst).

(** exec has given up. *)
Definition gave_up (s' : execst) : Prop := proc_of s' = proc_of s0 /\ undone kend pages (x_km s0) (x_km s').

(** exec has replaced the image by one of [sz] bytes with the content [img0],
    a guard page, and a page of stack. *)
Record committed (entry sz : Z) (img0 : Z -> Z) (s' : execst) : Prop := mkCommitted {
  cm_range : 0 <= sz /\ x_sz s' < KERNBASE;
  cm_size : x_sz s' = PGSIZE * (npages sz + 2);
  cm_eip : x_eip s' = entry;
  cm_name : x_name s' = safestrcpy (x_name s0) (last_element path path ++ [0]) 16;
  cm_cr3 : x_cr3 s' = x_pgdir s' - KERNBASE;
  cm_image : exists img, shows kend data (x_pgdir s') (npages sz + 2) (npages sz) img (km_mem (x_km s')) /\
    (forall va, 0 <= va < PGSIZE * npages sz -> img va = img0 va) /\
    PGSIZE * (npages sz + 1) <= x_esp s' /\ args_at img (x_esp s') (x_sz s') argv;
  cm_pages : exists pages', in_use kend (x_pgdir s') pages' (x_km s') /\
    x_pgdir s' :: owned (km_mem (x_km s')) (x_pgdir s') ++ pages' ≡ₚ
    x_pgdir s0 :: owned (km_mem (x_km s0)) (x_pgdir s0) ++ pages;
}.

Context (Hold : in_use kend (x_pgdir s0) pages (x_km s0)) (Hfit : Forall arg_fits argv).

Lemma exec_bad_ok d rest s1 (Q : Z -> execst -> Prop) :
  d <> 0 -> proc_of s1 = proc_of s0 -> building kend d pages rest (x_km s0) (x_km s1) ->
  (forall s', x_fs s' = x_fs s1 -> gave_up s' -> Q (-1) s') -> wpf F (exec_bad kend d None) Q s1.
Proof using Hkend.
  intros Hd Hp Hb HQ. unfold exec_bad. apply Z.eqb_neq in Hd. rewrite Hd. cbn [negb when].
  apply wpf_bind, wpf_on_xkm. eapply wp_mono; [by apply (building_free kend Hkend d pages rest)|]. intros [] t Hu.
  wnext. eapply wpf_done; [reflexivity|]. by apply HQ.
Qed.

(** Committing to an image whose stack is ready *)
Lemma exec_commits d n g img rest entry sp sz s1 :
  image kend data d n g img pages rest (x_km s0) (x_km s1) -> proc_of s1 = proc_of s0 ->
  wpf F (modify (fun s => set_x_name (safestrcpy (x_name s) (last_element path path ++ [0]) 16) s) ;;
         oldpgdir <- gets x_pgdir ;;
         modify (set_x_image d sz entry sp) ;;
         cr3 <- V2P d ;;
         modify (set_x_cr3 cr3) ;;
         on_xkm (freevm kend oldpgdir) ;;
         ret 0)
    (fun r s' => r = 0 /\ x_pgdir s' = d /\ x_sz s' = sz /\ x_eip s' = entry /\ x_esp s' = sp /\
       x_name s' = safestrcpy (x_name s0) (last_element path path ++ [0]) 16 /\ x_cr3 s' = d - KERNBASE /\
       x_fs s' = x_fs s1 /\ shows kend data d n g img (km_mem (x_km s')) /\
       exists pages', in_use kend d pages' (x_km s') /\
         d :: owned (km_mem (x_km s')) d ++ pages' ≡ₚ x_pgdir s0 :: owned (km_mem (x_km s0)) (x_pgdir s0) ++ pages) s1.
Proof using Hkend Hdata Hold.
  intros Him Hp. injection Hp as Hpg _ _ _ Hnm _.
  assert (KERNBASE <= d) as Hd.
  { pose proof (so_dir _ _ _ _ (uo_space _ _ _ _ (bd_user _ _ _ _ _ _ (im_building _ _ _ _ _ _ _ _ _ _ Him)))) as [Hv _].
    unfold valid_page, KERNBASE in *. lia. }
  do 3 wnext. eapply wpf_step; [by apply V2P_ok|]. wnext. cbn [x_pgdir set_x_name]. rewrite Hpg.
  apply wpf_bind, wpf_on_xkm. eapply wp_mono; [by eapply (free_old d (x_pgdir s0))|].
  intros [] t (pages' & Hiu & Hsh & Hac). eapply wpf_done; [reflexivity|]. rewrite Hnm.
  split_and!; try done. by exists pages'.
Qed.

Definition stack_done (entry sz : Z) (img0 : Z -> Z) (s : execst) (r : Z) (s' : execst) : Prop :=
  x_fs s' = x_fs s /\ ((r = -1 /\ gave_up s') \/ (r = 0 /\ committed entry sz img0 s')).

(** The table of pointers, and the commitment *)
Lemma push_table_ok d sz img img0 ptrs sp entry rest s1 :
  let n := npages sz + 2 in
  image kend data d n (n - 2) img pages rest (x_km s0) (x_km s1) -> proc_of s1 = proc_of s0 -> d <> 0 -> 0 <= sz -> PGSIZE * n < KERNBASE ->
  Z.of_nat (length argv) <= Z.of_nat MAXARG -> PGSIZE * (n - 1) <= sp <= PGSIZE * n ->
  strings img sp (PGSIZE * n) ptrs argv -> (forall v, 0 <= v < PGSIZE * npages sz -> img v = img0 v) ->
  let argc := Z.of_nat (length argv) in
  let ustack := [4294967295; argc; u32 (sp - (argc + 1) * 4)] ++ ptrs ++ [0] in
  let esp := u32 (sp - (3 + argc + 1) * 4) in
  wpf F (r <- on_xkm (copyout d esp (concat (bytes32 <$> ustack))) ;;
        if r <? 0 then exec_bad kend d None
        else
          modify (fun s => set_x_name (safestrcpy (x_name s) (last_element path path ++ [0]) 16) s) ;;
          oldpgdir <- gets x_pgdir ;;
          modify (set_x_image d (PGSIZE * n) entry esp) ;;
          cr3 <- V2P d ;;
          modify (set_x_cr3 cr3) ;;
          on_xkm (freevm kend oldpgdir) ;;
          ret 0) (stack_done entry sz img0 s1) s1.
Proof using Hkend Hdata Hold.
  intros n Him Hp Hd Hsz0 Hnk Hargc Hsp Hst Himg argc ustack esp. unfold MAXARG in Hargc.
  assert (0 <= npages sz) as Hn0 by (unfold npages, PGSIZE; zlia).
  pose proof (im_size _ _ _ _ _ _ _ _ _ _ Him) as Hn.
  assert (length ptrs = length argv) as Hlp by (by eapply Forall2_length).
  assert (esp = sp - 4 * (argc + 4)) as Hesp.
  { unfold esp, argc. rewrite u32_small; [lia|]. unfold is_u32, u32_mod, NUSER, PGSIZE in *. lia. }
  assert (u32 (sp - (argc + 1) * 4) = esp + 12) as Hav.
  { rewrite u32_small; [lia|]. unfold is_u32, u32_mod, NUSER, PGSIZE in *. lia. }
  assert (Z.of_nat (length (concat (bytes32 <$> ustack))) = 4 * (argc + 4)) as Hlen.
  { rewrite length_words. unfold ustack. rewrite !length_app, Hlp. cbn [length]. lia. }
  apply wpf_bind. eapply wpf_mono; [eapply (copyout_stack kend data F d n ltac:(lia)); [exact Him| | | |]|].
  - exact Hsp.
  - unfold PGSIZE in *. lia.
  - rewrite Hlen. lia.
  - unfold ustack. done.
  - intros r s2 (Hp2 & Hf2 & [(-> & Hb & Him2)|(-> & img' & Him2)]); cbn [Z.ltb Z.compare].
    2: { eapply exec_bad_ok; [done|by rewrite Hp2|by apply Him2|]. intros s' Hfs Hg. split; [|by left]. cbn in *; congruence. }
    eapply wpf_mono; [eapply exec_commits; [exact Him2|by rewrite Hp2]|].
    intros r s3 (-> & Hpg & Hsz & Heip & Hsp3 & Hnm & Hcr & Hf3 & Hsh & Hpages). split; [congruence|]. right. split; [done|].
    split; rewrite ?Hpg; try done; [by rewrite Hsz|]. eexists. split_and!.
    + replace (npages sz) with (n - 2) at 2 by lia. exact Hsh.
    + intros va Hva. unfold overlay. rewrite decide_False; [by apply Himg|]. unfold PGSIZE in *. lia.
    + rewrite Hsp3. replace (npages sz + 1) with (n - 1) by lia. done.
    + rewrite Hsp3, Hsz. exists ptrs. rewrite <- Hav. split; [apply holds_overlay|]. fold argc.
      replace (esp + 4 * (argc + 4)) with sp by lia. eapply strings_above; [exact Hst|lia|lia|].
      intros v Hv. unfold overlay. rewrite decide_False; [done|]. lia.
Qed.

Lemma exec_stack_ok d sz img0 entry rest s1 :
  image kend data d (npages sz) (-1) img0 pages rest (x_km s0) (x_km s1) -> proc_of s1 = proc_of s0 -> d <> 0 ->
  0 <= sz < KERNBASE -> wpf F (exec_stack kend path argv entry d sz) (stack_done entry sz img0 s1) s1.
Proof using Hkend Hdata Hold Hfit.
  intros Him Hp Hd Hsz. unfold exec_stack. rewrite PGROUNDUP_npages by lia.
  assert (0 <= npages sz <= NUSER) as Hnp by (unfold npages, NUSER, PGSIZE, KERNBASE in *; zlia).
  set (n := npages sz + 2). rewrite u32_small by (unfold is_u32, u32_mod, NUSER, PGSIZE in *; lia).
  replace (PGSIZE * npages sz + 2 * PGSIZE) with (PGSIZE * n) by (unfold n; lia).
  assert (forall k, npages (PGSIZE * k) = k) as Hnk by (intros k; unfold npages, PGSIZE; zlia).
  apply wpf_bind, wpf_on_xkm.
  eapply wp_mono; [eapply (image_alloc kend Hkend data Hdata); [exact Him|by rewrite Hnk|unfold PGSIZE; lia|unfold PGSIZE; lia]|].
  intros r t [(-> & rest' & Hb)|(Hlt & -> & rest' & Him2)].
  { cbn [Z.eqb]. eapply exec_bad_ok; [done| |exact Hb|]; [done|]. intros s' Hfs Hg. split; [|by left]. cbn in *; congruence. }
  rewrite Z.max_r in * by (unfold PGSIZE; lia). rewrite Hnk in Him2.
  destruct (Z.eqb_spec (PGSIZE * n) 0) as [H0|_]; [unfold n, PGSIZE in H0; lia|].
  rewrite u32_small by (unfold is_u32, u32_mod, KERNBASE, n, PGSIZE in *; lia).
  replace (PGSIZE * n - 2 * PGSIZE) with (PGSIZE * (n - 2)) by lia. apply wpf_bind, wpf_on_xkm.
  eapply wp_mono; [eapply (image_guard kend Hkend data Hdata); [exact Him2|lia]|]. intros [] t2 Him3.
  apply wpf_bind. eapply wpf_mono; [eapply (push_args_ok kend data F d n ltac:(lia) pages rest' (x_km s0) argv 0 img0)|].
  - exact Hfit.
  - unfold MAXARG. lia.
  - exact Him3.
  - unfold PGSIZE. lia.
  - unfold PGSIZE. zlia.
  - intros [[sp ptrs]|] s2 (Hp2 & Hf2 & Hr).
    + destruct Hr as (img' & Him4 & Hargc & Hsp & _ & Hst & Hab).
      eapply wpf_mono; [apply (push_table_ok d sz img' img0 ptrs sp entry rest' s2); try done|].
      * by rewrite Hp2.
      * lia.
      * intros v Hv. apply Hab. left. unfold n, PGSIZE in *. lia.
      * intros r s3 [Hf3 Hr]. split; [by rewrite Hf3, Hf2|done].
    + destruct Hr as [img' Him4]. eapply exec_bad_ok; [done|by rewrite Hp2|apply Him4|]. intros s' Hfs Hg. split; [|by left]. cbn in *; congruence.
Qed.

(** ** The file *)

Section File.
Context (devread : Z -> option (nat -> Z -> M fsys (Z * list Z))).
Context (R : nat -> fsys -> Prop) (P : nat -> Z -> Z -> Z * list Z -> Prop) (C : fsys -> Prop) (HL : file_laws devread F R P C).

(** exec has replaced the image by the program in the file of [ip]. *)
Definition runs_file (ip : nat) (s' : execst) : Prop :=
  exists elf sz img, P ip 0 sizeof_elfhdr (sizeof_elfhdr, elf) /\ elf_magic elf = ELF_MAGIC /\
    loads (P ip) (Z.to_nat (elf_phnum elf)) (elf_phoff elf) 0 (fun _ => 0) sz img /\ committed (elf_entry elf) sz img s'.

Lemma exec_bad_file ip s1 (Q : Z -> execst -> Prop) :
  R ip (x_fs s1) -> gave_up s1 -> (forall s', C (x_fs s') -> gave_up s' -> Q (-1) s') -> wpf F (exec_bad kend 0 (Some ip)) Q s1.
Proof using HL.
  intros HR Hg HQ. unfold exec_bad. cbn [Z.eqb negb when]. wnext. apply wpf_bind, wpf_on_xfs.
  eapply wpf_mono; [by apply (fl_close _ _ _ _ _ HL)|]. intros [] t HC. eapply wpf_done; [reflexivity|]. by apply HQ.
Qed.

Lemma exec_bad_load d ip rest s1 (Q : Z -> execst -> Prop) :
  d <> 0 -> R ip (x_fs s1) -> proc_of s1 = proc_of s0 -> building kend d pages rest (x_km s0) (x_km s1) ->
  (forall s', C (x_fs s') -> gave_up s' -> Q (-1) s') -> wpf F (exec_bad kend d (Some ip)) Q s1.
Proof using HL Hkend.
  intros Hd HR Hp Hb HQ. unfold exec_bad. apply Z.eqb_neq in Hd. rewrite Hd. cbn [negb when].
  apply wpf_bind, wpf_on_xkm. eapply wp_mono; [by apply (building_free kend Hkend d pages rest)|]. intros [] t Hu.
  apply wpf_bind, wpf_on_xfs. eapply wpf_mono; [by apply (fl_close _ _ _ _ _ HL)|]. intros [] t' HC.
  eapply wpf_done; [reflexivity|]. by apply HQ.
Qed.

Lemma exec_file_ok ip s1 :
  R ip (x_fs s1) -> proc_of s1 = proc_of s0 -> x_km s1 = x_km s0 ->
  wpf F (exec_file kend data devread path argv ip)
    (fun r s' => C (x_fs s') /\ ((r = -1 /\ gave_up s') \/ (r = 0 /\ runs_file ip s'))) s1.
Proof using HL Hkend Hdata Hold Hfit.
  intros HR Hp Hk. pose proof (iu_kmem _ _ _ _ Hold) as K.
  assert (forall s', proc_of s' = proc_of s0 -> x_km s' = x_km s0 -> gave_up s') as Hnone.
  { intros s' Hp' Hk'. split; [done|]. exists pages. rewrite Hk'. done. }
  unfold exec_file. apply wpf_bind, (readi_step devread F R P C HL); [done|done|done|].
  intros [c elf] s2 Hp2 Hk2 HR2 HP. cbn [fst snd].
  assert (gave_up s2) as Hg2 by (apply Hnone; congruence).
  destruct (Z.eqb_spec c sizeof_elfhdr) as [->|_]; cbn [negb]; [|apply exec_bad_file; auto].
  destruct (Z.eqb_spec (elf_magic elf) ELF_MAGIC) as [Hmag|_]; cbn [negb]; [|apply exec_bad_file; auto].
  apply wpf_bind, wpf_on_xkm. rewrite Hk2, Hk. eapply wp_mono; [by apply (setupkvm_image kend Hkend data Hdata pages)|].
  intros d t [(-> & Hu)|(Hd & rest & Him)].
  { cbn [Z.eqb]. apply exec_bad_file; [done| |auto]. split; [|done]. by rewrite <- Hp, <- Hp2. }
  pose proof Hd as Hd0. apply Z.eqb_neq in Hd0. rewrite Hd0. apply wpf_bind.
  eapply wpf_mono; [eapply (load_segments_ok kend Hkend data Hdata devread F R P C HL d pages (x_km s0) _ ip _ 0); [exact Him|done|done|apply u32_range]|].
  intros [sz|] s3 (Hp3 & HR3 & Hr).
  - destruct Hr as (Hsz & img & rest' & Him' & Hld). apply wpf_bind, wpf_on_xfs.
    eapply wpf_mono; [by apply (fl_close _ _ _ _ _ HL)|]. intros [] t' HC.
    eapply wpf_mono; [eapply exec_stack_ok; [exact Him'| |done|done]|].
    + transitivity (proc_of s2); [exact Hp3|congruence].
    + intros r s4 [Hf4 Hr]. split; [by rewrite Hf4|]. destruct Hr as [?|(-> & Hc)]; [by left|]. right. split; [done|].
      exists elf, sz, img. done.
  - destruct Hr as [rest' Hb]. eapply exec_bad_load; [done|done| |exact Hb|auto].
    transitivity (proc_of s2); [exact Hp3|congruence].
Qed.

(** Opening the program *)
Definition exec_open : M fsys (option nat) :=
  begin_op ;;
  ip <- namei devread path ;;
  match ip with
  | None => end_op ;; ret None
  | Some ip => ilock ip ;; ret (Some ip)
  end.

Lemma exec_outcome :
  wpf F exec_open (fun r t => match r with Some ip => R ip t | None => C t end) (x_fs s0) ->
  wpf F (exec kend data devread path argv)
    (fun r s' => C (x_fs s') /\ ((r = -1 /\ gave_up s') \/ (r = 0 /\ exists ip, runs_file ip s'))) s0.
Proof using HL Hkend Hdata Hold Hfit.
  intros Ho. unfold exec, exec_open, bind, wpf, on_xfs in *. destruct (begin_op (x_fs s0)) as [[] t1|m t1|t1|t1]; try done.
  cbn [x_fs set_x_fs]. destruct (namei devread path t1) as [[ip|] t2|m t2|t2|t2]; try done; cbn [x_fs set_x_fs].
  - destruct (ilock ip t2) as [[] t3|m t3|t3|t3]; try done. cbn [ret] in Ho.
    pose proof (exec_file_ok ip (set_x_fs t3 (set_x_fs t2 (set_x_fs t1 s0))) Ho eq_refl eq_refl) as H.
    eapply (wpf_mono F) in H; [exact H|]. intros r s' [HC [?|[-> ?]]]; (split; [done|]); [by left|]. right. eauto.
  - destruct (end_op t2) as [[] t3|m t3|t3|t3]; try done. split; [done|]. left. split; [done|]. split; [done|]. exists pages.
    split_and!; try done. apply Hold.
Qed.
End File.
End Call.
End Proof.
