(* ===== verification/ExecProps.v ===== *)
(** * Properties of exec *)

From S2P Require Import Prelude Mem KString Kalloc Vm VmInv VmSpace VmAlloc VmCopy MemProps FsState Bio BioInv Log LogInv Fs FsTxn FsAlloc FsContent FsWrite FsFrame Syscall Sysfile Exec ExecImage ExecLoad ExecProof.

Local Open Scope c_scope.
Local Open Scope Z_scope.

(** ** An example: a program of one segment

    The file at / has an ELF header, one program header and 16 bytes, which go
    to address 0; the process is the one of VmProps.v. *)

Definition ex_elf : list Z :=
  bytes32 ELF_MAGIC ++ repeat 0 20 ++ bytes32 4 ++ bytes32 52 ++ repeat 0 12 ++ bytes16 1 ++ repeat 0 6 ++
  bytes32 ELF_PROG_LOAD ++ bytes32 84 ++ bytes32 0 ++ bytes32 0 ++ bytes32 16 ++ bytes32 20 ++ repeat 0 8 ++ repeat 7 16.

Definition ex_fs : fsys :=
  mkFsys (fun b => if decide (b = 40) then put 0 ex_elf (repeat 0 512) else repeat 0 512) 100 []
    (fun _ => mkBuf false false 0 0 (mkSleeplock false 0) 0 [])
    (fun i => if decide (i = 0%nat) then 30%nat else (i - 1)%nat)
    (fun i => if decide (i = 30%nat) then 0%nat else (i + 1)%nat)
    (mkLog 2 30 0 false 1 0 (fun _ => 0)) (mkSuperblock 100 65 8 30 2 32 34)
    (fun ip => if decide (ip = 0%nat) then mkInode 1 1 1 (mkSleeplock false 0) true T_FILE 0 0 1 100 (40 :: repeat 0 12)
               else mkInode 0 0 0 (mkSleeplock false 0) false 0 0 0 0 0 []) 7 0.

Definition ex_proc : execst := mkExecst ex_fs ex_kmem ex_dir 4096 0 0 (repeat 0 16) 0.

Lemma ex_in_use : in_use ex_end (x_pgdir ex_proc) [ex_free] (x_km ex_proc).
Proof. split; [exact ex_kmem_ok|exact ex_user_ok]. Qed.

Lemma ex_data_ok : data_ok ex_data.
Proof. split; [reflexivity|split; reflexivity]. Qed.

Lemma ex_hold : hold 0 (fun _ => false) (fun _ => false) ex_fs.
Proof. split; [done|done|]. intros i. cbn. by case_decide. Qed.

(** ** exec over any file system *)

(** [f] is a fault of [m] in some state. *)
Definition faults_of {A} (m : M fsys A) (f : fault) : Prop :=
  exists t, match m t with
  | Done _ _ => False
  | Panic msg _ => f = FPanic msg
  | Undef _ => f = FUndef
  | NoFuel _ => f = FNoFuel
  end.

(** The faults of the file system that a call of exec can meet *)
Definition exec_fault (devread : Z -> option (nat -> Z -> M fsys (Z * list Z))) (path : list Z) (f : fault) : Prop :=
  faults_of (exec_open path devread) f \/
  exists ip, faults_of (iunlockput ip ;; end_op) f \/ exists off n, faults_of (readi devread ip off n) f.

Lemma wpf_faults {A} (F : fault -> Prop) (m : M fsys A) Q t :
  wpf any m Q t -> (forall f, faults_of m f -> F f) -> wpf F m Q t.
Proof.
  intros Hm HF. unfold wpf in *. assert (forall f, match m t with Done _ _ => False | Panic msg _ => f = FPanic msg | Undef _ => f = FUndef | NoFuel _ => f = FNoFuel end -> F f) as H.
  { intros f Hf. apply HF. by exists t. }
  destruct (m t); auto.
Qed.

(** What is known of every readi: at most [n] bytes *)
Definition at_most (n : Z) (r : Z * list Z) : Prop := 0 <= n -> Z.of_nat (length r.2) <= n.

Lemma slice_at_most off m d : 0 <= m -> Z.of_nat (length (slice off m d)) <= m.
Proof. intros Hm. unfold slice. rewrite length_take. lia. Qed.

Lemma readi_loop_at_most fuel ip : forall off left t l t',
  0 <= off -> 0 <= left -> readi_loop fuel ip off left t = Done l t' -> Z.of_nat (length l) <= left.
Proof.
  induction fuel as [|fuel IH]; intros off left t l t' Ho Hl Hr; [done|]. cbn [readi_loop] in Hr.
  destruct (Z.ltb_spec 0 left) as [Hp|Hp]; [|unfold ret in Hr; inv_done; cbn; lia].
  pose proof (chunk_range left off Hp Ho) as [Hm1 Hm2]. unfold bind, get_inode, bdata, gets in Hr.
  destruct (bmap _ _ _) as [a t1|? ?|?|?]; try done. destruct (bread _ _ _) as [bp t2|? ?|?|?]; try done.
  destruct (brelse _ _) as [[] t3|? ?|?|?]; try done.
  destruct (readi_loop fuel ip _ _ t3) as [l' t4|? ?|?|?] eqn:He; try done. unfold ret in Hr. inv_done.
  apply IH in He; [|lia|lia]. rewrite length_app.
  pose proof (slice_at_most (off `mod` BSIZE) (chunk left off) (bf_data (fs_buf t2 bp)) ltac:(lia)). lia.
Qed.

Section Devices.
Context (devread : Z -> option (nat -> Z -> M fsys (Z * list Z))).
Context (dev_neutral : forall major f ip n, devread major = Some f -> neutral (f ip n)).
Context (dev_at_most : forall major f ip n t r t', devread major = Some f -> f ip n t = Done r t' -> at_most n r).

Lemma readi_at_most ip off n t r t' : 0 <= off -> readi devread ip off n t = Done r t' -> at_most n r.
Proof using dev_at_most.
  intros Ho Hr Hn. unfold readi, bind, get_inode, gets in Hr.
  destruct (_ =? T_DEV).
  { destruct (dev_op devread _) as [f|] eqn:Hf; [|unfold ret in Hr; inv_done; cbn; lia].
    eapply dev_at_most; [by eapply dev_op_some|done|done]. }
  destruct (_ || _) eqn:He; [unfold ret in Hr; inv_done; cbn; lia|].
  apply orb_false_iff in He as [He1%Z.ltb_ge _].
  destruct (readi_loop _ _ _ _ _) as [l t1|? ?|?|?] eqn:Hl; try done. unfold ret in Hr. inv_done. cbn [snd].
  apply readi_loop_at_most in Hl; [|done|destruct (Z.ltb_spec (i_size (fs_inode t ip)) (off + n)); lia].
  destruct (Z.ltb_spec (i_size (fs_inode t ip)) (off + n)); lia.
Qed.

(** The laws, for locks [B], [I] and [o] transactions when exec begins *)
Lemma any_file_laws path o B I :
  file_laws devread (exec_fault devread path) (fun ip t => I ip = false /\ hold (o + 1) B (<[ip := true]> I) t)
    (fun _ _ n r => at_most n r) (hold o B I).
Proof using dev_at_most dev_neutral.
  split.
  - intros ip off n t [HI H] Ho Hn. apply wpf_faults; [|intros f Hf; right; exists ip; right; eauto].
    pose proof (readi_neutral devread dev_neutral ip off n _ _ _ _ H) as Hr.
    unfold wpf in *. destruct (readi devread ip off n t) as [r t'|? ?|?|?] eqn:E; try done.
    split; [done|]. eapply readi_at_most; [|exact E]. unfold is_u32 in Ho. lia.
  - intros ip off n r Hn Hr. by apply Hr.
  - intros ip t [HI H]. apply wpf_faults; [|intros f Hf; right; exists ip; by left].
    apply wpf_bind. eapply wpf_mono; [by apply iunlockput_h|]. intros [] t1 H1.
    eapply wpf_mono; [by apply end_op_h|]. intros [] t2 H2. eapply hold_ext; [exact H2|lia|done|]. lock_tables.
Qed.

Lemma exec_open_h path o B I t :
  hold o B I t -> wpf any (exec_open path devread) (fun r t' => match r with
    | Some ip => I ip = false /\ hold (o + 1) B (<[ip := true]> I) t'
    | None => hold o B I t' end) t.
Proof using dev_neutral.
  intros H. unfold exec_open. hstep. apply wpf_bind.
  eapply wpf_mono; [by apply (namei_neutral devread dev_neutral)|]. intros [ip|] t2 H2; cbv beta.
  - hstep. by eapply wpf_done.
  - hstep. eapply wpf_done; [reflexivity|]. hend.
Qed.

(** C10: exec is all or nothing.  Whatever the path, the file and the arguments
    are, a call that returns has given back every lock and transaction; with
    -1 the process is as it was, every page that was taken is free again and no
    page in use was written; with 0 the process has an image of its own: pages
    that were free, readable and writable by the user, a guard page and a page
    of stack at the top, with the arguments as main expects them, the kernel
    half of every address space, and nothing else, while the pages of the old
    image are free.  The faults are those that the calls of the file system can
    have ([exec_fault], which includes their waits); exec adds no panic and no
    use of a missing page table of its own.  Arguments are shorter than 32 MB. *)
Theorem exec_all_or_nothing kend data path argv pages o B I s :
  KERNBASE < kend -> data_ok data -> in_use kend (x_pgdir s) pages (x_km s) -> Forall arg_fits argv -> hold o B I (x_fs s) ->
  wpf (exec_fault devread path) (exec kend data devread path argv) (fun r s' => hold o B I (x_fs s') /\
    ((r = -1 /\ gave_up kend pages s s') \/
     (r = 0 /\ exists entry sz img, committed kend data path argv pages s entry sz img s'))) s.
Proof using dev_at_most dev_neutral.
  intros Hk Hd Hu Hfit Hh. eapply wpf_mono; [eapply (exec_outcome kend Hk data Hd _ path argv pages s Hu Hfit devread); [apply (any_file_laws path o B I)|]|].
  - apply wpf_faults; [by apply exec_open_h|]. intros f Hf. by left.
  - intros r s' [HC [?|(-> & ip & elf & sz & img & _ & _ & _ & Hc)]]; (split; [done|]); [by left|]. right. eauto.
Qed.
End Devices.

Lemma exec_all_or_nothing_witness :
  wpf (exec_fault (fun _ => None) [47]) (exec ex_end ex_data (fun _ => None) [47] [[97]]) (fun r s' =>
    hold 0 (fun _ => false) (fun _ => false) (x_fs s') /\
    ((r = -1 /\ gave_up ex_end [ex_free] ex_proc s') \/
     (r = 0 /\ exists entry sz img, committed ex_end ex_data [47] [[97]] [ex_free] ex_proc entry sz img s'))) ex_proc.
Proof.
  refine (exec_all_or_nothing (fun _ => None) _ _ ex_end ex_data [47] [[97]] [ex_free] 0 _ _ ex_proc eq_refl ex_data_ok ex_in_use _ ex_hold);
    [discriminate|discriminate|]. constructor; [reflexivity|constructor].
Defined.

(** ** exec of a file in order *)

(** What a file with the bytes [c] below [size] says of the image.  [readi] is
    not mentioned: this is the reference for the program that exec loads. *)
Section Content.
Context (c : Z -> Z) (size : Z).

Definition file_bytes (off n : Z) : list Z := c <$> seqZ off n.

(** The result of readi *)
Definition read_result (off n : Z) (r : Z * list Z) : Prop :=
  r = if (size <? off) || (u32 (off + n) <? off) then (-1, [])
      else (Z.min n (size - off), file_bytes off (Z.min n (size - off))).

Definition bad_segment (h : list Z) : bool :=
  (ph_memsz h <? ph_filesz h) || (KERNBASE <=? ph_vaddr h + ph_memsz h) || negb (ph_vaddr h `mod` PGSIZE =? 0) ||
  ((0 <? ph_filesz h) && (size <? ph_off h + ph_filesz h)).

Fixpoint image_of (left : nat) (off sz : Z) (img : Z -> Z) : option (Z * (Z -> Z)) :=
  match left with
  | O => Some (sz, img)
  | S left' =>
      let h := file_bytes off sizeof_proghdr in
      if size <? off + sizeof_proghdr then None
      else if negb (ph_type h =? ELF_PROG_LOAD) then image_of left' (u32 (off + sizeof_proghdr)) sz img
      else if bad_segment h then None
      else image_of left' (u32 (off + sizeof_proghdr)) (Z.max sz (ph_vaddr h + ph_memsz h))
             (overlay (ph_vaddr h) (file_bytes (ph_off h) (ph_filesz h)) img)
  end.

Context (Hsize : 0 <= size < KERNBASE).

Lemma file_bytes_length off n : 0 <= n -> Z.of_nat (length (file_bytes off n)) = n.
Proof. intros Hn. unfold file_bytes. rewrite length_fmap, length_seqZ. lia. Qed.

Lemma file_bytes_app off n m : 0 <= n -> 0 <= m -> file_bytes off (n + m) = file_bytes off n ++ file_bytes (off + n) m.
Proof. intros Hn Hm. unfold file_bytes. by rewrite seqZ_app, fmap_app by lia. Qed.

(** A read that returns as many bytes as asked for *)
Lemma read_full off n l : is_u32 off -> 0 < n <= PGSIZE -> read_result off n (n, l) -> off + n <= size /\ l = file_bytes off n.
Proof using Hsize.
  unfold read_result. intros Ho Hn Hr. destruct (_ || _); [injection Hr; lia|]. injection Hr as Hm ->.
  split; [lia|]. by rewrite <- Hm.
Qed.

Lemma seg_reads_content off va sz img img' :
  seg_reads read_result off va sz img img' -> is_u32 off ->
  (0 < sz -> off + sz <= size) /\ forall v, img' v = overlay va (file_bytes off (Z.max 0 sz)) img v.
Proof using Hsize.
  induction 1 as [off va sz img Hs|off va sz img img' n l Hs Hn HP Hr IH]; intros Ho.
  { split; [lia|]. intros v. rewrite Z.max_l by lia. unfold file_bytes. rewrite seqZ_nil by lia. symmetry. apply overlay_nil. }
  rewrite u32_small in HP by done. destruct (read_full off n l Ho) as [Hend ->]; [unfold PGSIZE in *; lia|done|].
  destruct IH as [IHe IHv]; [unfold is_u32, u32_mod, KERNBASE, PGSIZE in *; lia|]. split; [unfold PGSIZE in *; lia|].
  intros v. rewrite IHv, (Z.max_r 0 sz) by lia. destruct (Z.le_gt_cases sz PGSIZE) as [Hle|Hgt].
  - rewrite Z.max_l by lia. unfold file_bytes at 1. rewrite seqZ_nil, overlay_nil by lia. by replace n with sz by lia.
  - rewrite Z.max_r by lia. replace n with PGSIZE by lia. replace sz with (PGSIZE + (sz - PGSIZE)) at 2 by lia.
    rewrite file_bytes_app by (unfold PGSIZE in *; lia).
    rewrite <- (overlay_split va (file_bytes off PGSIZE ++ _) PGSIZE) by (rewrite length_app; pose proof (file_bytes_length off PGSIZE ltac:(done)); lia).
    replace (Z.to_nat PGSIZE) with (length (file_bytes off PGSIZE)) by (pose proof (file_bytes_length off PGSIZE ltac:(done)); lia).
    by rewrite drop_app_length, take_app_length.
Qed.

Lemma loads_content left off sz img sz' img' :
  loads read_result left off sz img sz' img' -> is_u32 off -> forall imgA, (forall v, imgA v = img v) ->
  exists imgB, image_of left off sz imgA = Some (sz', imgB) /\ forall v, imgB v = img' v.
Proof using Hsize.
  induction 1 as [off sz img|left off sz img sz' img' h HP Hty Hl IH|left off sz img sz' img1 img' h HP Hty Hfm Hlt Hal Hsr Hl IH];
    intros Ho imgA Heq; cbn [image_of]; [by exists imgA|..]; (destruct (read_full off sizeof_proghdr h Ho) as [Hend ->]; [done|done|]).
  - destruct (Z.ltb_spec size (off + sizeof_proghdr)); [lia|]. apply Z.eqb_neq in Hty. rewrite Hty. cbn [negb].
    apply IH; [apply u32_range|done].
  - destruct (Z.ltb_spec size (off + sizeof_proghdr)); [lia|]. rewrite Hty. cbn [Z.eqb negb]. rewrite Z.eqb_refl. cbn [negb].
    set (h := file_bytes off sizeof_proghdr) in *. destruct (ph_u32 h) as (Hpo & Hpv & Hpf & Hpm).
    destruct (seg_reads_content _ _ _ _ _ Hsr Hpo) as [Hse Hsv].
    assert (bad_segment h = false) as ->.
    { unfold bad_segment. rewrite Hal. destruct (Z.ltb_spec (ph_memsz h) (ph_filesz h)); [lia|].
      destruct (Z.leb_spec KERNBASE (ph_vaddr h + ph_memsz h)); [lia|]. cbn [Z.eqb negb orb].
      destruct (Z.ltb_spec 0 (ph_filesz h)); [|done]. destruct (Z.ltb_spec size (ph_off h + ph_filesz h)); [lia|done]. }
    apply IH; [apply u32_range|]. intros v. rewrite Hsv, Z.max_r by (unfold is_u32 in *; lia). by apply overlay_at.
Qed.
End Content.

Lemma committed_ext kend data path argv pages s entry sz img img' s' :
  committed kend data path argv pages s entry sz img s' -> (forall v, img' v = img v) ->
  committed kend data path argv pages s entry sz img' s'.
Proof.
  intros [? ? ? ? ? (i & Hs & Hi & He & Ha) ?] Heq. split; try done. exists i. split_and!; try done.
  intros va Hva. rewrite Heq. auto.
Qed.

Lemma in_order_laws devread ip t0 :
  readable ip t0 -> i_type (fs_inode t0 ip) <> T_DEV ->
  file_laws devread (fun f => fs_fault f \/ faults_of (iunlockput ip ;; end_op) f) (fun ip' t => ip' = ip /\ tr [] [] t0 t)
    (fun _ off n r => is_u32 off /\ read_result (content (view t0) (fs_inode t0 ip)) (i_size (fs_inode t0 ip)) off n r) (fun _ => True).
Proof.
  intros Hr Hty. split.
  - intros ip' off n t [-> Ht] Ho Hn. eapply wpf_call; [apply (readi_from devread ip off n t0 t); try done|by left|].
    { unfold is_u32, u32_mod, PGSIZE in *. lia. }
    intros r t' [Ht' ->]. done.
  - intros ip' off n r Hn [Ho ->]. destruct (_ || _) eqn:He; cbn [snd]; [cbn; lia|]. unfold file_bytes.
    rewrite length_fmap, length_seqZ. lia.
  - intros ip' t [-> Ht]. apply wpf_faults; [|by right]. unfold wpf. by destruct ((iunlockput ip ;; end_op) t).
Qed.

(** Reads of a relation that holds of less *)
Lemma loads_mono (P P' : Z -> Z -> Z * list Z -> Prop) left off sz img sz' img' :
  (forall off n r, P off n r -> P' off n r) -> loads P left off sz img sz' img' -> loads P' left off sz img sz' img'.
Proof.
  intros HP. assert (forall off va sz img img', seg_reads P off va sz img img' -> seg_reads P' off va sz img img') as Hs.
  { induction 1; [by constructor|]. eapply seg_reads_page; eauto. }
  induction 1; [constructor|eapply loads_skip; eauto|eapply loads_segment; eauto].
Qed.

(** C11: exec runs the program that the file describes.  When it returns 0 the
    file has an ELF header, every program header to load lies in the file, is
    page-aligned and below the kernel, and the memory of the process is the
    image of these headers: the bytes of the file at their addresses, in order,
    and zero elsewhere; execution starts at the entry point. *)
Theorem exec_loads_file kend data devread path argv pages ip t0 s :
  KERNBASE < kend -> data_ok data -> in_use kend (x_pgdir s) pages (x_km s) -> Forall arg_fits argv ->
  exec_open path devread (x_fs s) = Done (Some ip) t0 -> readable ip t0 -> i_type (fs_inode t0 ip) <> T_DEV ->
  let c := content (view t0) (fs_inode t0 ip) in
  let size := i_size (fs_inode t0 ip) in
  let elf := file_bytes c 0 sizeof_elfhdr in
  wpf (fun f => fs_fault f \/ faults_of (iunlockput ip ;; end_op) f) (exec kend data devread path argv) (fun r s' =>
    (r = -1 /\ gave_up kend pages s s') \/
    (r = 0 /\ sizeof_elfhdr <= size /\ elf_magic elf = ELF_MAGIC /\ exists sz img,
       image_of c size (Z.to_nat (elf_phnum elf)) (elf_phoff elf) 0 (fun _ => 0) = Some (sz, img) /\
       committed kend data path argv pages s (elf_entry elf) sz img s')) s.
Proof.
  intros Hk Hd Hu Hfit Ho Hr Hty c size elf. pose proof (rd_size _ _ Hr) as Hsz. fold size in Hsz.
  assert (0 <= size < KERNBASE) as Hsize by (assert (MAXFILE * BSIZE < KERNBASE) by reflexivity; lia).
  eapply wpf_mono; [eapply (exec_outcome kend Hk data Hd _ path argv pages s Hu Hfit devread); [by apply (in_order_laws devread ip t0)|]|].
  { unfold wpf. rewrite Ho. split; [done|]. by apply (readable_tr ip). }
  intros r s' [_ [?|(-> & ip' & h & sz & img & [_ Hh] & Hmag & Hld & Hc)]]; [by left|]. right. split; [done|].
  destruct (read_full c size Hsize 0 sizeof_elfhdr h) as [Hend ->]; [done|done|exact Hh|]. split; [done|]. split; [done|].
  apply (loads_mono _ (read_result c size)) in Hld; [|by intros ? ? ? [_ ?]].
  destruct (loads_content c size Hsize _ _ _ _ _ _ Hld (u32_range _) (fun _ => 0) ltac:(done)) as (imgB & Hi & Heq).
  exists sz, imgB. split; [exact Hi|]. by eapply committed_ext.
Qed.

(** The file system when the file is open *)
Definition ex_open : fsys :=
  match exec_open [47] (fun _ => None) ex_fs with Done _ t => t | _ => ex_fs end.

Lemma ex_readable : readable 0 ex_open.
Proof.
  assert (fs_buf ex_open = fs_buf ex_fs) as Hb by reflexivity. assert (fs_disk ex_open = fs_disk ex_fs) as Hd by reflexivity.
  split; try done.
  - split.
    + exists (seq 0 NBUF). split; [|done]. vm_compute. repeat split.
    + intros i _. rewrite Hb. by split.
    + intros i j _ _. by rewrite Hb.
    + intros b _. rewrite Hd. cbn -[put repeat]. by case_decide.
  - intros bn Hbn Hs. assert (bn = 0) as -> by (change (i_size (fs_inode ex_open 0)) with 100 in Hs; unfold BSIZE in Hs; lia). done.
Qed.

(** The image of the example: 20 bytes, of which the first 16 are in the file *)
Lemma ex_image :
  match image_of (content (view ex_open) (fs_inode ex_open 0)) 100 1 52 0 (fun _ => 0) with
  | Some (sz, img) => sz = 20 /\ img <$> seqZ 0 20 = repeat 7 16 ++ repeat 0 4
  | None => False
  end.
Proof. vm_compute. split; reflexivity. Qed.

Lemma exec_loads_file_witness :
  let c := content (view ex_open) (fs_inode ex_open 0) in
  let elf := file_bytes c 0 sizeof_elfhdr in
  elf_phnum elf = 1 /\ elf_phoff elf = 52 /\
  wpf (fun f => fs_fault f \/ faults_of (iunlockput 0 ;; end_op) f) (exec ex_end ex_data (fun _ => None) [47] [[97]]) (fun r s' =>
    (r = -1 /\ gave_up ex_end [ex_free] ex_proc s') \/
    (r = 0 /\ sizeof_elfhdr <= 100 /\ elf_magic elf = ELF_MAGIC /\ exists sz img,
       image_of c 100 (Z.to_nat (elf_phnum elf)) (elf_phoff elf) 0 (fun _ => 0) = Some (sz, img) /\
       committed ex_end ex_data [47] [[97]] [ex_free] ex_proc (elf_entry elf) sz img s')) ex_proc.
Proof.
  split; [vm_compute; reflexivity|]. split; [vm_compute; reflexivity|].
  refine (exec_loads_file ex_end ex_data (fun _ => None) [47] [[97]] [ex_free] 0 ex_open ex_proc eq_refl ex_data_ok ex_in_use _ _ ex_readable _).
  - constructor; [reflexivity|constructor].
  - reflexivity.
  - discriminate.
Defined.

(** ** An argument that is too long *)

(** A long argument can make exec read through the null pointer.  With the
    stack at [sp] and a length of the argument between 32 MB + [sp] and about
    1.8 GB + [sp] the stack pointer wraps around, the address of the copy falls
    between the end of physical memory and the devices, where the new address
    space has no page table, and uva2ka uses the null pointer that walkpgdir
    returns.  fetchstr bounds a string by the size of the process only. *)
Theorem push_args_reads_null kend pages d argc sp a argv s :
  space_ok kend pages (km_mem (x_km s)) d -> argc < Z.of_nat MAXARG -> 0 <= sp < KERNBASE ->
  u32_mod + sp - DEVSPACE <= Z.of_nat (length a) -> Z.of_nat (length a) < u32_mod + sp - (KERNBASE + PHYSTOP) - 4 ->
  (forall va, KERNBASE + PHYSTOP <= va < DEVSPACE -> tab (km_mem (x_km s)) d (PDX va) = None) ->
  push_args d argc sp (a :: argv) s = Undef s.
Proof.
  intros Hs Hargc Hsp Hlo Hhi Hgap. cbn [push_args]. destruct (Z.leb_spec (Z.of_nat MAXARG) argc); [lia|].
  set (len := Z.of_nat (length a)) in *. set (va := Z.land _ _).
  assert (KERNBASE + PHYSTOP <= va < DEVSPACE) as Hva.
  { unfold va. rewrite land_lnot_3 by apply u32_range. unfold u32, u32_mod, DEVSPACE, KERNBASE, PHYSTOP in *. zlia. }
  assert (KERNBASE + PHYSTOP <= PGROUNDDOWN va < DEVSPACE) as Hva0.
  { rewrite PGROUNDDOWN_eq by (unfold KERNBASE, PHYSTOP in *; lia). unfold DEVSPACE, KERNBASE, PHYSTOP, PGSIZE in *. zlia. }
  clearbody va. unfold bind, on_xkm, copyout. rewrite (Nat.add_comm _ 3). cbn [Nat.add copyout_loop].
  assert (exists b l, a ++ [0] = b :: l) as (b & l & ->) by (destruct a; cbn; eauto).
  unfold bind, uva2ka. unfold bind at 1. rewrite (walk_absent kend (x_km s) d _ pages Hs (Hgap _ Hva0)). cbn. by destruct s.
Qed.
