(* ===== verification/Loader.v ===== *)
(** * bootmain.c

    The boot loader reads the kernel, an ELF file that starts at sector 1 of the
    first disk, into physical memory.  It reaches the disk through the ports of
    [IdeDev], polls instead of waiting for an interrupt, and writes whole sectors,
    so that it may store more than a segment has.  [bootmain] gives the address
    that is called, or None when it returns to bootasm.S. *)

From S2P Require Import Prelude Mem KString FsState Ide IdeProps FsWrite Sysfile Exec ExecImage.

Local Open Scope c_scope.
Local Open Scope Z_scope.

Definition SECTSIZE : Z := 512.

(** Of struct proghdr the field that only the loader reads *)
Definition ph_paddr (b : list Z) : Z := u32 (get32 b 12).

(** The [n] bytes that a pointer [p] points to *)
Definition load_bytes (m : mem) (p : Z) (n : nat) : list Z := (fun i => m (padd p (Z.of_nat i))) <$> seq 0 n.

Record bootst (D : Type) := mkBootst { bm_mem : mem; bm_dev : D }.
Arguments mkBootst {D} _ _.
Arguments bm_mem {D} _.
Arguments bm_dev {D} _.

Section Loader.
Context {D : Type} `{!IdeDev D}.
Implicit Types (s : bootst D).

Definition set_bm_mem (v : mem) s : bootst D := mkBootst v (bm_dev s).
Definition set_bm_dev (v : D) s : bootst D := mkBootst (bm_mem s) v.

(** outb takes a uchar. *)
Definition bm_out (port v : Z) : M (bootst D) unit := modify (fun s => set_bm_dev (outb port (u8 v) (bm_dev s)) s).

Fixpoint waitdisk (fuel : nat) : M (bootst D) unit :=
  match fuel with
  | O => out_of_fuel
  | S fuel' =>
      r <- (fun s => let '(r, d) := inb_status (bm_dev s) in Done r (set_bm_dev d s)) ;;
      if negb (Z.land r 192 =? 64) then waitdisk fuel' else ret tt
  end.

Section Polls.
Context (polls : nat).    (* how often waitdisk may look *)

Definition readsect (dst offset : Z) : M (bootst D) unit :=
  waitdisk polls ;;
  bm_out 498 1 ;;
  bm_out 499 offset ;;
  bm_out 500 (Z.shiftr offset 8) ;;
  bm_out 501 (Z.shiftr offset 16) ;;
  bm_out 502 (Z.lor (Z.shiftr offset 24) 224) ;;
  bm_out 503 32 ;;
  waitdisk polls ;;
  l <- (fun s => let '(l, d) := insl (bm_dev s) in Done l (set_bm_dev d s)) ;;
  modify (fun s => set_bm_mem (store_bytes (bm_mem s) dst l) s).

Fixpoint readseg_loop (fuel : nat) (pa epa offset : Z) : M (bootst D) unit :=
  match fuel with
  | O => out_of_fuel
  | S fuel' =>
      if pa <? epa then
        readsect pa offset ;;
        readseg_loop fuel' (u32 (pa + SECTSIZE)) epa (u32 (offset + 1))
      else ret tt
  end.

Definition readseg (pa count offset : Z) : M (bootst D) unit :=
  let epa := u32 (pa + count) in
  let pa := u32 (pa - offset `mod` SECTSIZE) in
  let offset := u32 (offset / SECTSIZE + 1) in
  readseg_loop (Z.to_nat (count / SECTSIZE) + 3) pa epa offset.

(** The loop over the program headers *)
Fixpoint load_kernel (fuel : nat) (ph eph : Z) : M (bootst D) unit :=
  match fuel with
  | O => out_of_fuel
  | S fuel' =>
      if ph <? eph then
        h <- gets (fun s => load_bytes (bm_mem s) ph (Z.to_nat sizeof_proghdr)) ;;
        let pa := ph_paddr h in
        readseg pa (ph_filesz h) (ph_off h) ;;
        h <- gets (fun s => load_bytes (bm_mem s) ph (Z.to_nat sizeof_proghdr)) ;;
        when (ph_filesz h <? ph_memsz h)
          (modify (fun s => set_bm_mem (stosb (bm_mem s) (u32 (pa + ph_filesz h)) 0 (Z.to_nat (ph_memsz h - ph_filesz h))) s)) ;;
        load_kernel fuel' (u32 (ph + sizeof_proghdr)) eph
      else ret tt
  end.

Definition bm_elf : Z := 65536.    (* 0x10000 *)

Definition bootmain : M (bootst D) (option Z) :=
  readseg bm_elf 4096 0 ;;
  h <- gets (fun s => load_bytes (bm_mem s) bm_elf (Z.to_nat sizeof_elfhdr)) ;;
  if negb (elf_magic h =? ELF_MAGIC) then ret None
  else
    let ph := u32 (bm_elf + elf_phoff h) in
    let eph := u32 (ph + sizeof_proghdr * elf_phnum h) in
    load_kernel (Z.to_nat (elf_phnum h) + 1) ph eph ;;
    h <- gets (fun s => load_bytes (bm_mem s) bm_elf (Z.to_nat sizeof_elfhdr)) ;;
    ret (Some (elf_entry h)).
End Polls.
End Loader.

(** ** The kernel on the disk *)

(** Byte [n] of the file that starts at sector 1 *)
Definition kbyte (k : disk) (n : Z) : Z := get8 (k 0 (1 + n / SECTSIZE)) (n `mod` SECTSIZE).

Definition kheader (k : disk) : list Z := bytes_at (kbyte k) 0 (Z.to_nat sizeof_elfhdr).
Definition kproghdr (k : disk) (i : Z) : list Z :=
  bytes_at (kbyte k) (elf_phoff (kheader k) + sizeof_proghdr * i) (Z.to_nat sizeof_proghdr).

(** Where the sectors of segment [h] begin in memory, and where the segment ends *)
Definition seg_start (h : list Z) : Z := ph_paddr h - ph_off h `mod` SECTSIZE.
Definition seg_end (h : list Z) : Z := ph_paddr h + Z.max (ph_filesz h) (ph_memsz h).

(** What the loader relies on: the program headers lie in the first page, and the
    segments above it in increasing order, below the end of the address space. *)
Record layout_ok (k : disk) : Prop := {
  lo_headers : elf_phoff (kheader k) + sizeof_proghdr * elf_phnum (kheader k) <= 4096;
  lo_start : forall i, 0 <= i < elf_phnum (kheader k) -> bm_elf + 4096 <= seg_start (kproghdr k i);
  lo_end : forall i, 0 <= i < elf_phnum (kheader k) -> seg_end (kproghdr k i) + SECTSIZE <= u32_mod;
  lo_order : forall i j, 0 <= i -> i < j -> j < elf_phnum (kheader k) -> seg_end (kproghdr k i) <= seg_start (kproghdr k j);
}.

(** Memory holds the segment: its bytes in the file, then zeros. *)
Definition seg_loaded (k : disk) (h : list Z) (m : mem) : Prop :=
  forall j, 0 <= j -> j < Z.max (ph_filesz h) (ph_memsz h) ->
    m (ph_paddr h + j) = if j <? ph_filesz h then kbyte k (ph_off h + j) else 0.

(** A disk that, when polled, ends what it does after some polls, without error *)
Class IdePolls (D : Type) `{!IdeDev D} `{!IdeLaws D} := {
  polls_left : D -> nat;
  max_polls : nat;
  polls_bound : forall d, (polls_left d <= max_polls)%nat;
  busy_polled : forall d c k, phase_of d = Busy c k ->
    (Z.land (inb_status d).1 192 <> 64 /\ phase_of (inb_status d).2 = Busy c k /\
     (polls_left (inb_status d).2 < polls_left d)%nat) \/
    (Z.land (inb_status d).1 192 = 64 /\ phase_of (inb_status d).2 = Finished c false (run_command c k));
}.

Section LoaderProofs.
Context {D : Type} `{!IdeDev D} `{!IdeLaws D} `{!IdePolls D}.
Implicit Types (s : bootst D).

(** The disk has the contents [k] and is idle. *)
Definition at_rest (k : disk) s : Prop := exists r, phase_of (bm_dev s) = Idle r k.

Lemma waitdisk_idle fuel s r k :
  phase_of (bm_dev s) = Idle r k ->
  wp (waitdisk (S fuel)) (fun _ s' => bm_mem s' = bm_mem s /\ phase_of (bm_dev s') = Idle r k) s.
Proof.
  intros Hp. destruct (status_ready (bm_dev s)) as (Hp' & Hst & _); [by rewrite Hp|]. rewrite Hp in Hp'.
  change (Z.lor IDE_BSY IDE_DRDY) with 192 in Hst. change IDE_DRDY with 64 in Hst.
  cbn [waitdisk]. apply wp_bind. destruct (inb_status (bm_dev s)) as [st d] eqn:E. cbn [fst snd] in *.
  eapply wp_intro; [by rewrite E|]. rewrite Hst. by apply wp_ret.
Qed.

Lemma waitdisk_busy fuel : forall s c k,
  phase_of (bm_dev s) = Busy c k -> (polls_left (bm_dev s) < fuel)%nat ->
  wp (waitdisk fuel) (fun _ s' => bm_mem s' = bm_mem s /\ phase_of (bm_dev s') = Finished c false (run_command c k)) s.
Proof.
  induction fuel as [|fuel IH]; intros s c k Hp Hf; [lia|]. cbn [waitdisk]. apply wp_bind.
  pose proof (busy_polled _ _ _ Hp) as Hb. destruct (inb_status (bm_dev s)) as [st d] eqn:E. cbn [fst snd] in *.
  eapply wp_intro; [by rewrite E|]. destruct Hb as [(Hst & Hp' & Hl)|(Hst & Hp')].
  - rewrite (proj2 (Z.eqb_neq _ _) Hst). cbn [negb]. eapply wp_mono; [apply (IH (set_bm_dev d s) c k Hp'); cbn; lia|].
    intros [] s' H. exact H.
  - rewrite Hst. by apply wp_ret.
Qed.

(** The registers as readsect leaves them *)
Lemma readsect_regs offset (r : Z -> Z) :
  0 <= offset < 268435456 ->
  let r' := <[502 := u8 (Z.lor (Z.shiftr offset 24) 224)]> (<[501 := u8 (Z.shiftr offset 16)]>
    (<[500 := u8 (Z.shiftr offset 8)]> (<[499 := u8 offset]> (<[498 := u8 1]> r)))) in
  r' 498 = 1 /\ reg_unit r' = 0 /\ reg_lba r' = offset.
Proof.
  intros Ho r'. split; [reflexivity|].
  assert (forall z, u8 z = Z.land z 255) as Hu by (intros z; change 255 with (Z.ones 8); by rewrite Z.land_ones by lia).
  apply sector_registers; [done|by left|exact (Hu _)..|].
  change (r' 502) with (u8 (Z.lor (Z.shiftr offset 24) 224)). change (Z.lor 224 (Z.shiftl (Z.land 0 1) 4)) with 224.
  rewrite Z.lor_comm. change 15 with (Z.ones 4). rewrite Z.land_ones, Z.shiftr_div_pow2 by lia.
  rewrite (Z.mod_small (offset / _)) by (change (2 ^ 24) with 16777216; change (2 ^ 4) with 16; zlia).
  rewrite (lor_low 224 _ 4) by (first [done|change (2 ^ 24) with 16777216; change (2 ^ 4) with 16; zlia]).
  unfold u8. apply Z.mod_small. change (2 ^ 24) with 16777216. zlia.
Qed.

Lemma readsect_ok dst offset k s :
  at_rest k s -> 0 <= offset < 268435456 -> Z.of_nat (length (k 0 offset)) = SECTSIZE -> no_wrap dst SECTSIZE ->
  wp (readsect (S max_polls) dst offset) (fun _ s' => at_rest k s' /\
    forall a, bm_mem s' a = overlay dst (k 0 offset) (bm_mem s) a) s.
Proof.
  intros (r & Hr) Ho Hl Hw. unfold readsect. apply wp_bind. eapply wp_mono; [by apply waitdisk_idle|].
  intros [] s1 (Hm1 & Hp1). unfold bm_out. do 6 apply wp_bind, wp_modify.
  destruct (readsect_regs offset r Ho) as (H498 & Hun & Hlba).
  cbn [bm_dev set_bm_dev]. set (d1 := outb 502 _ _). change (u8 32) with IDE_CMD_READ.
  assert (phase_of d1 = Idle _ k) as Hd1 by (unfold d1; repeat (apply out_register; [|lia]); exact Hp1).
  pose proof (out_read _ _ _ Hd1 H498) as Hb. rewrite Hun, Hlba in Hb. clearbody d1.
  apply wp_bind. eapply wp_mono; [eapply waitdisk_busy; [exact Hb|]|].
  { cbn [bm_dev set_bm_dev]. pose proof (polls_bound (outb 503 IDE_CMD_READ d1)). lia. }
  intros [] s2 (Hm2 & Hp2). cbn [bm_mem set_bm_dev] in Hm2. destruct (in_data _ _ _ _ Hp2) as (Hdata & r' & Hr').
  apply wp_bind. destruct (insl (bm_dev s2)) as [l d] eqn:E. cbn [fst snd] in *. eapply wp_intro; [by rewrite E|].
  apply wp_modify. split; [by exists r'|]. intros a. cbn [bm_mem set_bm_mem set_bm_dev].
  change (run_command _ k) with k in Hdata. rewrite Hdata, Hm2, Hm1. apply store_bytes_overlay. by rewrite Hl.
Qed.

Section Disk.
Context (k : disk) (Hk : forall l, Z.of_nat (length (k 0 l)) = SECTSIZE).

Lemma readseg_loop_ok fuel : forall pa epa sec s,
  at_rest k s -> 0 <= pa -> epa + SECTSIZE <= u32_mod -> 0 <= sec -> sec + Z.of_nat fuel <= 268435456 ->
  epa - pa <= SECTSIZE * (Z.of_nat fuel - 1) -> (0 < fuel)%nat ->
  wp (readseg_loop (S max_polls) fuel pa epa sec) (fun _ s' => at_rest k s' /\
    (forall a, pa <= a < epa -> bm_mem s' a = get8 (k 0 (sec + (a - pa) / SECTSIZE)) ((a - pa) `mod` SECTSIZE)) /\
    (forall a, ~ pa <= a < epa + 511 -> bm_mem s' a = bm_mem s a)) s.
Proof.
  unfold SECTSIZE, u32_mod in *. induction fuel as [|fuel IH]; intros pa epa sec s Hr Hpa Hep Hs Hsf Hf H0; [lia|].
  cbn [readseg_loop]. destruct (Z.ltb_spec pa epa) as [Hlt|Hge].
  2:{ apply wp_ret. split; [done|]. split; [intros; lia|done]. }
  apply wp_bind. eapply wp_mono; [apply (readsect_ok _ _ k); [done|lia|done|unfold no_wrap, SECTSIZE, u32_mod; lia]|].
  intros [] s1 (Hr1 & Hm1). unfold SECTSIZE. rewrite !u32_small by (unfold is_u32, u32_mod; lia).
  eapply wp_mono; [apply IH; try done; lia|]. intros [] s2 (Hr2 & Hin & Hout). split; [done|].
  assert (forall a, ~ pa <= a < pa + 512 -> bm_mem s1 a = bm_mem s a) as Hne.
  { intros a Ha. rewrite Hm1. unfold overlay. by rewrite Hk, decide_False. }
  split; intros a Ha.
  - destruct (decide (pa + 512 <= a)) as [Hhi|Hlo].
    + rewrite Hin by lia. f_equal; [f_equal|]; zlia.
    + rewrite Hout by lia. rewrite Hm1. unfold overlay. rewrite Hk, decide_True by (unfold SECTSIZE; lia).
      rewrite (Z.div_small (a - pa)), (Z.mod_small (a - pa)) by lia. by rewrite Z.add_0_r.
  - rewrite Hout by lia. apply Hne. lia.
Qed.

Lemma readseg_ok pa count off s :
  at_rest k s -> is_u32 off -> 0 <= count -> off `mod` SECTSIZE <= pa -> pa + count + SECTSIZE <= u32_mod ->
  wp (readseg (S max_polls) pa count off) (fun _ s' => at_rest k s' /\
    (forall j, 0 <= j < count -> bm_mem s' (pa + j) = kbyte k (off + j)) /\
    (forall a, ~ pa - off `mod` SECTSIZE <= a < pa + count + 511 -> bm_mem s' a = bm_mem s a)) s.
Proof.
  intros Hr Ho Hc Hpa Hw. unfold readseg. unfold is_u32, SECTSIZE, u32_mod in *.
  assert (0 <= off `mod` 512 < 512) as Hmod by (apply Z.mod_pos_bound; lia).
  rewrite !u32_small by (unfold is_u32, u32_mod; zlia).
  eapply wp_mono; [apply (readseg_loop_ok _ _ _ _ s Hr); unfold SECTSIZE, u32_mod; zlia|].
  intros [] s' (Hr' & Hin & Hout). split; [done|]. split; [|exact Hout].
  intros j Hj. rewrite Hin by lia. unfold kbyte, SECTSIZE. clear -Hj. f_equal; [f_equal|]; zlia.
Qed.

(** The first page of the file is in the scratch space. *)
Definition scratch_ok (m : mem) : Prop := forall a, 0 <= a < 4096 -> m (bm_elf + a) = kbyte k a.

Lemma load_bytes_scratch m off n :
  scratch_ok m -> 0 <= off -> off + Z.of_nat n <= 4096 -> load_bytes m (bm_elf + off) n = bytes_at (kbyte k) off n.
Proof.
  intros Hs Ho Hn. unfold load_bytes, bytes_at. apply list_fmap_ext. intros i x Hi. apply lookup_seq in Hi as [-> Hi].
  unfold padd. rewrite u32_small by (unfold is_u32, u32_mod, bm_elf; lia). rewrite <- Z.add_assoc. apply Hs. lia.
Qed.

Lemma stosb_ok m p n a :
  no_wrap p n -> 0 <= n -> stosb m p 0 (Z.to_nat n) a = if decide (p <= a < p + n) then 0 else m a.
Proof.
  intros Hw Hn. rewrite (stosb_filled m p 0 (Z.to_nat n)) by (by rewrite Z2Nat.id). rewrite Z2Nat.id by done.
  change (u8 0) with 0. by case_bool_decide; case_decide.
Qed.
(** One round of the loop stores nothing below the sectors of its segment, so it
    keeps the segments before it; what it stores past the end of the segment, the
    later rounds overwrite. *)
Lemma load_segment_ok fuel ph eph h s (Q : unit -> bootst D -> Prop) :
  at_rest k s -> scratch_ok (bm_mem s) -> ph < eph -> h = bytes_at (kbyte k) (ph - bm_elf) (Z.to_nat sizeof_proghdr) ->
  bm_elf <= ph -> ph + sizeof_proghdr <= bm_elf + 4096 ->
  bm_elf + 4096 <= seg_start h -> seg_end h + SECTSIZE <= u32_mod ->
  (forall s', at_rest k s' -> seg_loaded k h (bm_mem s') -> (forall a, a < seg_start h -> bm_mem s' a = bm_mem s a) ->
    wp (load_kernel (S max_polls) fuel (ph + sizeof_proghdr) eph) Q s') ->
  wp (load_kernel (S max_polls) (S fuel) ph eph) Q s.
Proof.
  intros Hr Hsc Hlt Hh Hlo Hhi Hst Hen HQ. cbn [load_kernel]. rewrite (proj2 (Z.ltb_lt _ _) Hlt).
  assert (forall m, scratch_ok m -> load_bytes m ph (Z.to_nat sizeof_proghdr) = h) as Hld.
  { intros m Hm. rewrite Hh. replace ph with (bm_elf + (ph - bm_elf)) at 1 by lia.
    apply load_bytes_scratch; [done|lia|unfold sizeof_proghdr in *; lia]. }
  apply wp_bind, wp_gets. rewrite (Hld _ Hsc). unfold seg_start, seg_end in *.
  assert (is_u32 (ph_off h) /\ is_u32 (ph_filesz h) /\ is_u32 (ph_memsz h)) as (Ho & Hfs & Hms) by (split_and!; apply u32_range).
  assert (0 <= ph_off h `mod` SECTSIZE < SECTSIZE) as Hmod by (apply Z.mod_pos_bound; done).
  unfold is_u32, bm_elf, sizeof_proghdr, u32_mod, SECTSIZE in *. clear Hh.
  set (pa := ph_paddr h) in *. set (fs := ph_filesz h) in *. set (ms := ph_memsz h) in *. set (o := ph_off h) in *.
  apply wp_bind. eapply wp_mono; [apply (readseg_ok pa fs o s Hr); unfold is_u32, SECTSIZE, u32_mod; lia|].
  unfold SECTSIZE. intros [] s1 (Hr1 & Hin & Hout). apply wp_bind, wp_gets. rewrite Hld.
  2:{ intros a Ha. rewrite Hout by (unfold bm_elf in *; lia). by apply Hsc. }
  fold fs ms. rewrite !u32_small by (unfold is_u32, u32_mod; lia). apply wp_bind. unfold when.
  destruct (Z.ltb_spec fs ms).
  - apply wp_modify. apply HQ; [exact Hr1| |]; cbn [bm_mem set_bm_mem]; [intros j Hj0 Hj1|intros a Ha].
    + fold fs ms in Hj1; fold fs pa o. rewrite stosb_ok by (unfold no_wrap, u32_mod; lia). destruct (Z.ltb_spec j fs).
      * rewrite decide_False by lia. apply Hin. lia.
      * by rewrite decide_True by lia.
    + fold pa o in Ha. rewrite stosb_ok, decide_False by (unfold no_wrap, u32_mod; lia). apply Hout. lia.
  - apply wp_ret. apply HQ; [exact Hr1| |]; [intros j Hj0 Hj1|intros a Ha].
    + fold fs ms in Hj1; fold fs pa o. destruct (Z.ltb_spec j fs); [apply Hin|]; lia.
    + apply Hout. fold pa o in Ha. lia.
Qed.
Lemma load_kernel_ok m0 n : forall i s,
  layout_ok k -> 0 <= i -> i + Z.of_nat n = elf_phnum (kheader k) ->
  at_rest k s -> scratch_ok (bm_mem s) -> (forall a, a < bm_elf -> bm_mem s a = m0 a) ->
  (forall j, 0 <= j < i -> seg_loaded k (kproghdr k j) (bm_mem s)) ->
  let ph i := bm_elf + elf_phoff (kheader k) + sizeof_proghdr * i in
  wp (load_kernel (S max_polls) (S n) (ph i) (ph (elf_phnum (kheader k)))) (fun _ s' =>
    at_rest k s' /\ scratch_ok (bm_mem s') /\ (forall a, a < bm_elf -> bm_mem s' a = m0 a) /\
    forall j, 0 <= j < elf_phnum (kheader k) -> seg_loaded k (kproghdr k j) (bm_mem s')) s.
Proof.
  pose proof (u32_range (get32 (kheader k) 28)) as Hoff. fold (elf_phoff (kheader k)) in Hoff. unfold is_u32 in Hoff.
  induction n as [|n IH]; intros i s Hlay Hi Hn Hr Hsc Hlow Hsegs ph.
  { cbn [load_kernel]. rewrite (proj2 (Z.ltb_ge _ _)) by (unfold ph, sizeof_proghdr; lia). apply wp_ret.
    split_and!; [done..|]. intros j Hj. apply Hsegs. lia. }
  destruct Hlay as [Hh Hs He Hord]. pose proof (Hs i ltac:(lia)) as Hsi.
  apply (load_segment_ok _ _ _ (kproghdr k i)); [done..| | | | |done|apply He; lia|]; unfold ph, sizeof_proghdr in *; [lia| |lia..|].
  { unfold kproghdr. f_equal. unfold sizeof_proghdr. lia. }
  intros s' Hr' Hld Hout. replace (bm_elf + elf_phoff (kheader k) + 32 * i + 32)
    with (bm_elf + elf_phoff (kheader k) + 32 * (i + 1)) by lia. clear ph. apply IH; [done|lia|lia|done|..].
  - intros a Ha. rewrite Hout by lia. by apply Hsc.
  - intros a Ha. rewrite Hout by lia. by apply Hlow.
  - intros j Hj. destruct (decide (j = i)) as [->|Hne]; [done|]. intros x Hx0 Hx1.
    rewrite Hout; [by apply Hsegs; [lia|..]|]. pose proof (Hord j i ltac:(lia) ltac:(lia) ltac:(lia)). unfold seg_end in *. lia.
Qed.
End Disk.

(** C26: the boot loader finishes.  When sector 1 begins with the ELF magic it
    gives the entry point of the kernel, with every segment in memory at its
    physical address, the bytes of the file first and then zeros; otherwise it
    returns.  Memory below the scratch space, where the loader and its stack are,
    is as before.  The disk answers polls without error ([IdePolls]) and the
    segments lie as [layout_ok] says; they need not begin at a sector. *)
Theorem bootmain_loads_kernel k s :
  (forall l, Z.of_nat (length (k 0 l)) = SECTSIZE) -> at_rest k s ->
  (elf_magic (kheader k) = ELF_MAGIC -> layout_ok k) ->
  wp (bootmain (S max_polls)) (fun r s' =>
    (forall a, a < bm_elf -> bm_mem s' a = bm_mem s a) /\
    (elf_magic (kheader k) <> ELF_MAGIC -> r = None) /\
    (elf_magic (kheader k) = ELF_MAGIC -> r = Some (elf_entry (kheader k)) /\
      forall i, 0 <= i < elf_phnum (kheader k) -> seg_loaded k (kproghdr k i) (bm_mem s'))) s.
Proof.
  intros Hk Hr Hlay. unfold bootmain. apply wp_bind.
  eapply wp_mono; [apply (readseg_ok k Hk _ _ _ s Hr); by vm_compute|]. intros [] s1 (Hr1 & Hin & Hout).
  change (bm_elf - 0 `mod` SECTSIZE) with bm_elf in Hout. apply wp_bind, wp_gets.
  assert (forall m, scratch_ok k m -> load_bytes m bm_elf (Z.to_nat sizeof_elfhdr) = kheader k) as Hhd.
  { intros m Hm. apply (load_bytes_scratch k m 0); [done|lia|by vm_compute]. }
  assert (forall a, a < bm_elf -> bm_mem s1 a = bm_mem s a) as Hlow by (intros a Ha; apply Hout; lia).
  rewrite Hhd by exact Hin. destruct (Z.eqb_spec (elf_magic (kheader k)) ELF_MAGIC) as [Hm|Hm]; cbn [negb].
  2:{ apply wp_ret. by split_and!. }
  specialize (Hlay Hm). pose proof (lo_headers k Hlay) as Hh.
  pose proof (u32_range (get32 (kheader k) 28)) as Hoff. fold (elf_phoff (kheader k)) in Hoff.
  assert (0 <= elf_phnum (kheader k)) as Hnum by (unfold elf_phnum, u16; zlia).
  unfold is_u32, sizeof_proghdr in *. rewrite !u32_small by (unfold is_u32, u32_mod in *; change bm_elf with 65536; lia).
  apply wp_bind. eapply wp_mono.
  { rewrite Nat.add_1_r. pose proof (load_kernel_ok k Hk (bm_mem s) (Z.to_nat (elf_phnum (kheader k))) 0 s1 Hlay) as H.
    cbv beta zeta in H. rewrite Z.mul_0_r, Z.add_0_r in H. apply H; [lia|lia|done|exact Hin|done|lia]. }
  intros [] s2 (Hr2 & Hsc & Hlow2 & Hsegs). apply wp_bind, wp_gets, wp_ret. rewrite Hhd by done. by split_and!.
Qed.
End LoaderProofs.

(** ** A disk that answers the second poll, and a kernel on it *)

Record polled := mkPolled { pd_phase : phase; pd_slow : bool }.

#[export] Instance polled_dev : IdeDev polled := {|
  inb_status p :=
    match pd_phase p, pd_slow p with
    | Busy c k, false => (IDE_DRDY, mkPolled (Finished c false (run_command c k)) false)
    | ph, _ => ((inb_status ph).1, mkPolled ph false)
    end;
  outb port v p := mkPolled (outb port v (pd_phase p)) true;
  outsl data p := mkPolled (outsl data (pd_phase p)) true;
  insl p := ((insl (pd_phase p)).1, mkPolled (insl (pd_phase p)).2 true);
|}.

#[export] Instance polled_laws : IdeLaws polled.
Proof.
  refine {| phase_of := pd_phase; dev_step p p' := phase_step (pd_phase p) (pd_phase p') |}.
  - intros [[| | |c [] k] b]; done.
  - intros p Hp. exact (out_control (pd_phase p) Hp).
  - intros p r k port v Hp Hport. exact (out_register (pd_phase p) r k port v Hp Hport).
  - intros p r k Hp Hc. exact (out_read (pd_phase p) r k Hp Hc).
  - intros p r k Hp Hc. exact (out_write (pd_phase p) r k Hp Hc).
  - intros p u l k data Hp Hd. exact (out_data (pd_phase p) u l k data Hp Hd).
  - intros p u l k Hp. exact (in_data (pd_phase p) u l k Hp).
  - intros p p' Hs. exact (step_finishes (pd_phase p) (pd_phase p') Hs).
  - intros p c k Hp. exists (mkPolled (Finished c false (run_command c k)) true). rewrite Hp. split; [constructor|done].
Defined.

#[export] Instance polled_polls : IdePolls polled.
Proof.
  refine {| polls_left p := if pd_slow p then 1%nat else 0%nat; max_polls := 1%nat |}.
  - intros [ph []]; cbn; lia.
  - intros [ph []] c k Hp; cbn in Hp; subst ph; [left|right]; [|done]. split_and!; [done|done|cbn; lia].
Defined.

(** An ELF file with two segments: 4 bytes at 2 MB from offset 600 on, followed by
    3 zeros, and 2 bytes at 3 MB from offset 1024 on *)
Definition ex_kernel : list Z :=
  bytes32 ELF_MAGIC ++ repeat 0 20 ++ bytes32 2097152 ++ bytes32 52 ++ repeat 0 12 ++ bytes16 2 ++ repeat 0 6 ++
  (bytes32 1 ++ bytes32 600 ++ bytes32 0 ++ bytes32 2097152 ++ bytes32 4 ++ bytes32 7 ++ repeat 0 8) ++
  (bytes32 1 ++ bytes32 1024 ++ bytes32 0 ++ bytes32 3145728 ++ bytes32 2 ++ bytes32 2 ++ repeat 0 8) ++
  repeat 9 484 ++ [1; 2; 3; 4] ++ repeat 9 420 ++ [5; 6].

Definition ex_kdisk : disk := fun _ l => take 512 (drop (Z.to_nat ((l - 1) * 512)) ex_kernel ++ repeat 0 512).
Definition ex_boot : bootst polled := mkBootst (fun _ => 255) (mkPolled (Idle (fun _ => 0) ex_kdisk) true).

Lemma ex_layout_ok : layout_ok ex_kdisk.
Proof.
  assert (elf_phnum (kheader ex_kdisk) = 2) as Hn by (by vm_compute).
  split; rewrite ?Hn; [by vm_compute|..].
  1, 2: intros i Hi; assert (i = 0 \/ i = 1) as [-> | ->] by lia; by vm_compute.
  intros i j Hi Hij Hj. assert (i = 0) as -> by lia. assert (j = 1) as -> by lia. by vm_compute.
Qed.

Lemma ex_kernel_fields :
  elf_phnum (kheader ex_kdisk) = 2 /\ elf_magic (kheader ex_kdisk) = ELF_MAGIC /\ elf_entry (kheader ex_kdisk) = 2097152.
Proof. by vm_compute. Qed.

Lemma ex_segment_0 m : seg_loaded ex_kdisk (kproghdr ex_kdisk 0) m -> m 2097155 = 4 /\ m 2097156 = 0.
Proof.
  intros H. pose proof (H 3) as H3. pose proof (H 4) as H4. clear H. vm_compute in H3, H4. by split; [apply H3|apply H4].
Qed.

Lemma ex_segment_1 m : seg_loaded ex_kdisk (kproghdr ex_kdisk 1) m -> m 3145729 = 6.
Proof. intros H. pose proof (H 1) as H1. clear H. vm_compute in H1. by apply H1. Qed.

Lemma bootmain_loads_kernel_witness :
  wp (bootmain (S max_polls)) (fun r s' => r = Some 2097152 /\
    bm_mem s' 2097155 = 4 /\ bm_mem s' 2097156 = 0 /\ bm_mem s' 3145729 = 6 /\ bm_mem s' 31744 = 255) ex_boot.
Proof.
  destruct ex_kernel_fields as (Hn & Hm & He). eapply wp_mono.
  - apply (bootmain_loads_kernel ex_kdisk ex_boot).
    + intros l. unfold ex_kdisk. rewrite length_take, length_app, repeat_length. unfold SECTSIZE. lia.
    + exists (fun _ => 0). reflexivity.
    + intros _. exact ex_layout_ok.
  - intros r s' (Hlow & _ & H). destruct (H Hm) as [Hr Hseg]. rewrite Hn in Hseg. rewrite He in Hr.
    destruct (ex_segment_0 _ (Hseg 0 ltac:(lia))) as [H3 H4].
    split; [exact Hr|]. split; [exact H3|]. split; [exact H4|].
    split; [exact (ex_segment_1 _ (Hseg 1 ltac:(lia)))|exact (Hlow 31744 eq_refl)].
Defined.
