(* ===== verification/Sysproc.v ===== *)
(** * sysproc.c and the dispatcher of syscall.c

    The system calls on processes, and syscall.  A call that gives up the
    processor (exit, yield, wait and sleep without a result yet) ends in the
    scheduler; the value of such a call comes later, from [sys_wait_again] and
    [sys_sleep_again], which run when the process is resumed.  The memory a
    page directory maps is a parameter, and so are the calls on files: Sysfile.v
    has them, on a state of their own. *)

From S2P Require Import Prelude Mem KState Spinlock SkipList KEnv Proc Syscall.

Local Open Scope c_scope.
Local Open Scope Z_scope.

(** How a system call ends: with its value, or in the scheduler. *)
Inductive sysret := Value (r : Z) | Switched.

Section Sysproc.
Context {E : Type} `{KEnv E}.
Context (stray : kst E -> nptr -> option nat).
(** Memory as the processor sees it through a page directory *)
Context (umem : E -> Z -> mem).
(** The calls of sysfile.c *)
Context (sys_pipe sys_read sys_exec sys_fstat sys_chdir sys_dup sys_open sys_write : M (kst E) Z).
Context (sys_mknod sys_unlink sys_link sys_mkdir sys_close : M (kst E) Z).
(** shutdown (kshutdown.c): a port write that ends the emulator *)
Context (shutdown : M (kst E) unit).
(** What the stack holds where sys_nicefork keeps n *)
Context (garbage : Z).

(** What fetchint and argint use of myproc() *)
Definition user_at (s : kst E) (p : nat) : usermem :=
  mkUsermem (umem (k_env s) (p_pgdir (k_proc s p))) (p_sz (k_proc s p)) (tf_esp (p_tf (k_proc s p))).

Definition arg (n : Z) : M (kst E) (option Z) :=
  p <- curproc ;;
  gets (fun s => argint (user_at s p) n).

Definition value (m : M (kst E) Z) : M (kst E) sysret := r <- m ;; ret (Value r).

Definition sys_fork : M (kst E) sysret := value fork.

Definition sys_exit : M (kst E) sysret := exit_enter stray ;; ret Switched.

Definition wait_ended (r : option Z) : sysret := match r with Some pid => Value pid | None => Switched end.

Definition sys_wait : M (kst E) sysret := r <- wait_enter stray ;; ret (wait_ended r).

(** The loop of wait goes on after its sleep. *)
Definition sys_wait_again (p : nat) : M (kst E) sysret :=
  sleep_return p PtableLock ;;
  r <- wait_round stray p ;;
  ret (wait_ended r).

Definition sys_kill : M (kst E) sysret :=
  pid <- arg 0 ;;
  match pid with
  | None => ret (Value (-1))
  | Some pid => value (kill pid)
  end.

Definition sys_getpid : M (kst E) sysret :=
  p <- curproc ;;
  pr <- get_proc p ;;
  ret (Value (p_pid pr)).

Definition sys_sbrk : M (kst E) sysret :=
  n <- arg 0 ;;
  match n with
  | None => ret (Value (-1))
  | Some n =>
      p <- curproc ;;
      pr <- get_proc p ;;
      let addr := i32 (p_sz pr) in
      r <- growproc n ;;
      ret (Value (if r <? 0 then -1 else addr))
  end.

(** One turn of [while(ticks - ticks0 < n)], with the lock held; the
    comparison is unsigned. *)
Definition sleep_round (ticks0 n : Z) : M (kst E) sysret :=
  t <- gets k_ticks ;;
  if u32 (t - ticks0) <? u32 n then
    p <- curproc ;;
    pr <- get_proc p ;;
    if p_killed pr then release TicksLock ;; ret (Value (-1))
    else sleep_enter stray TicksChan (Some TicksLock) ;; ret Switched
  else release TicksLock ;; ret (Value 0).

Definition sys_sleep : M (kst E) sysret :=
  n <- arg 0 ;;
  match n with
  | None => ret (Value (-1))
  | Some n =>
      acquire TicksLock ;;
      ticks0 <- gets k_ticks ;;
      sleep_round ticks0 n
  end.

Definition sys_sleep_again (p : nat) (ticks0 n : Z) : M (kst E) sysret :=
  sleep_return p TicksLock ;;
  sleep_round ticks0 n.

Definition sys_uptime : M (kst E) sysret :=
  acquire TicksLock ;;
  t <- gets k_ticks ;;
  release TicksLock ;;
  ret (Value (i32 t)).

Definition sys_yield : M (kst E) sysret := yield_enter stray ;; ret Switched.

Definition sys_shutdown : M (kst E) sysret := shutdown ;; ret (Value 0).

(** The result of argint is compared, not n. *)
Definition sys_nicefork : M (kst E) sysret :=
  r <- arg 0 ;;
  let code := match r with Some _ => 0 | None => -1 end in
  if (code <? NICE_FIRST_LEVEL) || (NICE_LAST_LEVEL <? code) then ret (Value (-1))
  else value (nicefork (match r with Some n => n | None => garbage end)).

Definition sys_schedlog : M (kst E) sysret :=
  n <- arg 0 ;;
  match n with
  | None => ret (Value (-1))
  | Some n => schedlog n ;; ret (Value 0)
  end.

(** ** syscall.c: the table, from index 1 on, and the dispatcher *)

Definition syscalls : list (M (kst E) sysret) :=
  [sys_fork; sys_exit; sys_wait; value sys_pipe; value sys_read; sys_kill; value sys_exec; value sys_fstat;
   value sys_chdir; value sys_dup; sys_getpid; sys_sbrk; sys_sleep; sys_uptime; value sys_open; value sys_write;
   value sys_mknod; value sys_unlink; value sys_link; value sys_mkdir; value sys_close; sys_yield; sys_shutdown;
   sys_nicefork; sys_schedlog].

(** The value of a call goes to %eax. *)
Definition set_result (p : nat) (r : Z) : M (kst E) unit :=
  put_proc p (fun q => set_p_tf (set_tf_eax (u32 r) (p_tf q)) q).

Definition syscall : M (kst E) sysret :=
  p <- curproc ;;
  pr <- get_proc p ;;
  let num := i32 (tf_eax (p_tf pr)) in
  match (if 0 <? num then syscalls !! Z.to_nat (num - 1) else None) with
  | Some f =>
      r <- f ;;
      match r with
      | Value v => set_result p v ;; ret r
      | Switched => ret r
      end
  | None =>
      print (MsgText "unknown sys call") ;;
      set_result p (-1) ;;
      ret (Value (-1))
  end.

End Sysproc.
