(* ===== verification/SysprocInv.v ===== *)
(** * System calls keep the process table

    syscall, from any state that satisfies the invariant of the process table
    and for any call of sysproc.c with any arguments, ends in a state that
    satisfies it again, back in the process or on the way into the scheduler, or
    in one of two panics.  The calls of sysfile.c are in SysfileInv.v. *)

From S2P Require Import Prelude Mem KState Spinlock SkipList SkipListInv SkipListInsert.
From S2P Require Import SkipListDelete Mem KEnv Proc ProcQueue ProcInv ProcSwitch.
From S2P Require Import ProcLife ProcExit Trap TrapInv Syscall Sysproc.

Local Open Scope c_scope.

Section SysprocInv.
Context {E : Type} `{HE : KEnv E} {F : fault -> Prop} `{HK : !KEnvOk E F}.
Context (stray : kst E -> nptr -> option nat).
Context (Hstray : forall p, p < NPROC -> stray_ok stray p).
Context (umem : E -> Z -> mem) (garbage : Z).
Implicit Types s : kst E.

Definition runs (p : nat) s : Prop := inv s /\ c_proc (k_cpu s) = Some p.

(** Where a call by [p] ends *)
Definition call_ended (p : nat) (r : sysret) s : Prop :=
  match r with Value _ => runs p s | Switched => mid s end.

Lemma runs_read p s : runs p s -> curproc s = Done p (my_read s) /\ runs p (my_read s).
Proof.
  intros [Hinv Hcp]. split; [by apply curproc_unlocked; [apply inv_unlocked|]|].
  split; [|done]. destruct Hinv as (? & ? & []). done.
Qed.

Lemma runs_put p s f :
  runs p s -> same_core (k_proc s p) (f (k_proc s p)) ->
  p_virt_deadline (f (k_proc s p)) = p_virt_deadline (k_proc s p) ->
  p_max_skiplist_level (f (k_proc s p)) = p_max_skiplist_level (k_proc s p) -> runs p (proc_set p f s).
Proof.
  intros [(Hu & Hq & Hb) Hcp] Hc Hv Hm. split; [|done]. split; [done|]. split; [|by apply base_put].
  apply qinv_put_same; try done. by destruct Hc as [-> _].
Qed.

Lemma arg_ok p n s :
  runs p s -> wpf F (arg umem n) (fun _ s' => runs p s' /\ k_proc s' = k_proc s /\ k_initproc s' = k_initproc s) s.
Proof.
  intros Hr. destruct (runs_read p s Hr) as [Hrun Hr']. unfold arg. wrun Hrun. by eapply wpf_done.
Qed.

(** ** The calls that end in the process *)

Definition returns (p : nat) (m : M (kst E) sysret) : Prop := forall s, runs p s -> wpf F m (call_ended p) s.

(** A nice value out of range *)
Definition bad_nice (n : Z) : bool := ((n <? NICE_FIRST_LEVEL) || (NICE_LAST_LEVEL <? n))%Z.

Lemma nicefork_returns p ip n s :
  runs p s -> p_cwd (k_proc s p) = Some ip -> bad_nice n = false -> wpf F (value (nicefork n)) (call_ended p) s.
Proof.
  intros [Hinv Hcp] Hcwd Hn. apply orb_false_iff in Hn as [H1%Z.ltb_ge H2%Z.ltb_ge]. unfold value. apply wpf_bind.
  eapply wpf_mono; [by eapply nicefork_ok|]. intros r s' (? & ? & _). by eapply wpf_done.
Qed.

Lemma kill_returns p pid : returns p (value (kill pid)).
Proof.
  intros s [Hinv Hcp]. unfold value. apply wpf_bind, wpf_wp. eapply wp_mono; [by apply kill_ok|].
  intros r s' (? & ? & _). eapply wpf_done; [done|]. split; [done|congruence].
Qed.

(** switchuvm with interrupts on or off changes registers of the processor. *)
Lemma switchuvm_runs p s :
  runs p s -> wp (switchuvm (Some p)) (fun _ s' => runs p s') s.
Proof.
  intros [Hinv Hcp]. pose proof Hinv as (Hu & Hq & Hb). destruct (inv_running s p Hinv Hcp) as [Hlt Hst].
  destruct (po_mem _ _ (b_procs _ _ Hb) p Hlt) as [Hk Hd]; [by rewrite Hst|].
  pose proof (unlocked_ok s Hu) as Hc. apply wp_wpf. unfold switchuvm. wnext. unfold KERNBASE in *.
  destruct (Z.eqb_spec (p_kstack (k_proc s p)) 0); [done|].
  destruct (Z.eqb_spec (p_pgdir (k_proc s p)) 0); [lia|].
  wrun (pushcli_eq s). wnext. eapply wpf_step; [by apply V2P_ok|]. wnext.
  eapply wpf_done; [apply popcli_eq; pose proof (pushed_in_cli _ Hc) as []; done|].
  destruct Hu as [Hn Hl]. assert (forall a b, runs p (set_k_cpu (set_c_cr3 a (set_c_esp0 b (k_cpu (my_read s)))) s)) as Hall.
  { intros a b. split; [|done]. split; [done|]. split; [exact Hq|]. by apply (base_ext _ s). }
  match goal with |- runs p (set_k_cpu (popped (k_cpu ?x)) ?x) => replace (set_k_cpu (popped (k_cpu x)) x)
    with (set_k_cpu (set_c_cr3 (p_pgdir (k_proc s p) - 2147483648)%Z (set_c_esp0 (u32 (p_kstack (k_proc s p) + KSTACKSIZE)) (k_cpu (my_read s)))) s); [apply Hall|] end.
  destruct s as [? ? ? ? ? ? ? ? ? [cid cn cie ci cp cr ce] ? ? ?]. cbn in *. subst cn. by destruct ci.
Qed.

Lemma growproc_ok p n s : runs p s -> wpf F (growproc n) (fun _ s' => runs p s') s.
Proof.
  intros Hr. destruct (runs_read p s Hr) as [Hrun Hr1]. unfold growproc. wrun Hrun. wnext.
  assert (forall (m : M E Z) s1, runs p s1 -> (forall e, ke_inv e -> wpf F m (fun _ e' => ke_inv e') e) ->
    wpf F (sz' <- lift m ;; ret (if (sz' =? 0)%Z then None else Some sz')) (fun _ s' => runs p s') s1) as Hm.
  { intros m s1 [Hinv Hcp] Hm. apply wpf_bind. eapply (wpf_env m (fun _ => True)); [done|..].
    - eapply wpf_mono; [apply Hm|done]. by destruct Hinv as (_ & _ & []).
    - intros a e _ Hinv'. by eapply wpf_done. }
  apply wpf_bind. apply (wpf_mono _ _ (fun _ s' => runs p s')).
  - destruct (0 <? n)%Z; [apply Hm; [done|intros; by apply ke_allocuvm_ok]|].
    destruct (n <? 0)%Z; [apply Hm; [done|intros; by apply ke_deallocuvm_ok]|by eapply wpf_done].
  - intros [sz'|] s2 Hr2; [|by eapply wpf_done]. wnext. apply wpf_bind, wpf_wp.
    eapply wp_mono; [apply (switchuvm_runs p); by apply (runs_put p s2)|]. intros [] s3 Hr3. by eapply wpf_done.
Qed.

Lemma sys_sbrk_returns p : returns p (sys_sbrk umem).
Proof.
  intros s Hr. unfold sys_sbrk. apply wpf_bind. eapply wpf_mono; [by apply arg_ok|].
  intros [n|] s1 (Hr1 & _); [|by eapply wpf_done]. destruct (runs_read p s1 Hr1) as [Hrun Hr2]. wrun Hrun. wnext.
  apply wpf_bind. eapply wpf_mono; [by apply growproc_ok|]. intros r s3 Hr3. by eapply wpf_done.
Qed.

(** ** Calls with the ticks lock *)

Lemma sleep_round_ok p t0 n s :
  inside TicksLock (Some p) s -> wpf F (sleep_round stray t0 n) (call_ended p) s.
Proof.
  intros Hin. pose proof Hin as (Hl & Hq & Hb & Hcp). unfold sleep_round. wnext.
  assert (wpf F (release TicksLock ;; ret (Value 0)) (call_ended p) s /\ wpf F (release TicksLock ;; ret (Value (-1))) (call_ended p) s) as [H0 H1].
  { destruct (inside_release _ _ _ Hin) as (Hrel & Hinv & Hcp'). split; wrun Hrel; by eapply wpf_done. }
  destruct (u32 _ <? u32 n)%Z; [|done]. wrun (curproc_locked TicksLock s p Hl Hcp). wnext.
  destruct (p_killed (k_proc s p)); [done|]. apply wpf_bind, wpf_wp.
  eapply wp_mono; [by apply (sleep_enter_mid stray Hstray s p)|]. intros [] s' [Hmid _]. by eapply wpf_done.
Qed.

Lemma sys_sleep_returns p : returns p (sys_sleep stray umem).
Proof.
  intros s Hr. unfold sys_sleep. apply wpf_bind. eapply wpf_mono; [by apply arg_ok|].
  intros [n|] s1 (Hr1 & _); [|by eapply wpf_done]. destruct Hr1 as [Hinv Hcp].
  destruct (inside_acquire TicksLock _ s1 Hinv Hcp) as [Ha Hin]. wrun Ha. wnext. by apply sleep_round_ok.
Qed.

Lemma sys_uptime_returns p : returns p sys_uptime.
Proof.
  intros s [Hinv Hcp]. unfold sys_uptime. destruct (inside_acquire TicksLock _ s Hinv Hcp) as [Ha Hin]. wrun Ha. wnext.
  destruct (inside_release _ _ _ Hin) as (Hrel & Hinv' & Hcp'). wrun Hrel. by eapply wpf_done.
Qed.

(** ** Calls that may end in the scheduler *)

Lemma sys_exit_ends p ip i s :
  runs p s -> p_cwd (k_proc s p) = Some ip -> k_initproc s = Some i -> p <> i -> wpf F (sys_exit stray) (call_ended p) s.
Proof.
  intros [Hinv Hcp] Hcwd Hi Hne. unfold sys_exit. apply wpf_bind.
  eapply wpf_mono; [by eapply (exit_enter_ok stray Hstray)|]. intros [] s' [? _]. by eapply wpf_done.
Qed.

Lemma sys_wait_returns p : returns p (sys_wait stray).
Proof.
  intros s [Hinv Hcp]. unfold sys_wait. apply wpf_bind. eapply wpf_mono; [by apply (wait_enter_ok stray Hstray p)|].
  intros [v|] s' Hw; destruct Hw as (? & ? & _); by eapply wpf_done.
Qed.

Lemma sys_yield_returns p : returns p (sys_yield stray).
Proof.
  intros s [Hinv Hcp]. unfold sys_yield. apply wpf_bind, wpf_wp. eapply wp_mono; [by apply (yield_enter_mid stray Hstray s p)|].
  intros [] s' [? _]. by eapply wpf_done.
Qed.

Lemma sys_kill_returns p : returns p (sys_kill umem).
Proof.
  intros s Hr. unfold sys_kill. apply wpf_bind. eapply wpf_mono; [by apply arg_ok|].
  intros [n|] s1 (Hr1 & _); [|by eapply wpf_done]. by apply kill_returns.
Qed.

Lemma sys_getpid_returns p : returns p sys_getpid.
Proof. intros s Hr. destruct (runs_read p s Hr) as [Hrun Hr1]. unfold sys_getpid. wrun Hrun. wnext. by eapply wpf_done. Qed.

Lemma sys_schedlog_returns p : returns p (sys_schedlog umem).
Proof.
  intros s Hr. unfold sys_schedlog. apply wpf_bind. eapply wpf_mono; [by apply arg_ok|].
  intros [n|] s1 (Hr1 & _); [|by eapply wpf_done]. eapply wpf_done; [reflexivity|].
  destruct Hr1 as [(Hu & Hq & Hb) Hcp]. split; [|done]. split; [done|]. split; [exact Hq|]. by apply (base_ext _ s1).
Qed.

(** The nice value that sys_nicefork uses *)
Definition nice_arg (p : nat) s : Z := default garbage (argint (user_at umem s p) 0).

Lemma sys_nicefork_eq p s :
  runs p s -> sys_nicefork umem garbage s = value (nicefork (nice_arg p s)) (my_read s).
Proof.
  intros Hr. destruct (runs_read p s Hr) as [Hrun _]. unfold sys_nicefork, arg, nice_arg, bind at 1 2. rewrite Hrun. unfold gets.
  change (user_at umem (my_read s) p) with (user_at umem s p). by destruct (argint (user_at umem s p) 0).
Qed.

(** ** The dispatcher *)

Definition keeps_env {A} (m : M E A) : Prop := forall e, ke_inv e -> wpf F m (fun _ e' => ke_inv e') e.

Context (pipe read exec fstat chdir dup open write mknod unlink link mkdir close : M (kst E) Z) (shutdown : M E unit).
Context (Hshutdown : keeps_env shutdown).

Definition the_syscalls : list (M (kst E) sysret) :=
  syscalls stray umem pipe read exec fstat chdir dup open write mknod unlink link mkdir close (lift shutdown) garbage.

Definition the_syscall : M (kst E) sysret :=
  syscall stray umem pipe read exec fstat chdir dup open write mknod unlink link mkdir close (lift shutdown) garbage.

(** The number of the call in %eax, and the numbers of the calls in sysfile.c *)
Definition call_number (p : nat) s : Z := i32 (tf_eax (p_tf (k_proc s p))).
Definition file_numbers : list Z := [4; 5; 7; 8; 9; 10; 15; 16; 17; 18; 19; 20; 21]%Z.

(** The panics that a process can cause: init calling exit (2), and nicefork (24)
    with a nice value out of range *)
Definition call_panic (p : nat) s : option string :=
  if bool_decide (call_number p s = 2%Z) && bool_decide (k_initproc s = Some p) then Some "init exiting"
  else if bool_decide (call_number p s = 24%Z) && bad_nice (nice_arg p s) then Some "invalid nice value"
  else None.

Definition can_call (p : nat) s : Prop := runs p s /\ settled s.

Lemma sys_shutdown_returns p : returns p (sys_shutdown (lift shutdown)).
Proof.
  intros s [Hinv Hcp]. unfold sys_shutdown. apply wpf_bind. eapply (wpf_env shutdown (fun _ => True)); [done|..].
  - eapply wpf_mono; [apply Hshutdown|done]. by destruct Hinv as (_ & _ & []).
  - intros a e _ Hinv'. by eapply wpf_done.
Qed.

(** The entries of the table that are in sysproc.c *)
Lemma the_syscalls_at num f :
  (0 < num)%Z -> the_syscalls !! Z.to_nat (num - 1) = Some f -> num ∉ file_numbers ->
  num = 1%Z /\ f = sys_fork \/ num = 2%Z /\ f = sys_exit stray \/ num = 24%Z /\ f = sys_nicefork umem garbage \/
  num <> 2%Z /\ num <> 24%Z /\ forall p, returns p f.
Proof using Hshutdown Hstray.
  intros Hpos Hf Hno. pose proof (lookup_lt_Some _ _ _ Hf) as Hlt.
  change (length the_syscalls) with 25 in Hlt. assert (exists k, (k < 25)%nat /\ num = Z.of_nat (S k)) as (k & Hk & ->).
  { exists (Z.to_nat (num - 1)). lia. }
  replace (Z.to_nat (Z.of_nat (S k) - 1)) with k in Hf by lia.
  unfold file_numbers in Hno. rewrite !not_elem_of_cons in Hno.
  do 25 try (destruct k as [|k]). all: try (exfalso; lia). all: injection Hf as <-; auto 6.
  all: right; right; right; (split; [lia|]); (split; [lia|]); intros p.
  - apply sys_wait_returns.
  - apply sys_kill_returns.
  - apply sys_getpid_returns.
  - apply sys_sbrk_returns.
  - apply sys_sleep_returns.
  - apply sys_uptime_returns.
  - apply sys_yield_returns.
  - apply sys_shutdown_returns.
  - apply sys_schedlog_returns.
Qed.

(** The call itself, before its value goes to %eax *)
Lemma call_ok p f s :
  can_call p s -> (0 < call_number p s)%Z -> call_number p s ∉ file_numbers ->
  the_syscalls !! Z.to_nat (call_number p s - 1) = Some f ->
  match call_panic p s with
  | Some msg => stops (F := F) msg f s
  | None => wpf F f (call_ended p) s
  end.
Proof using Hshutdown Hstray.
  intros [Hr [Hcwd [i Hi]]] Hpos Hno Hf. specialize (Hcwd p (proj2 Hr)).
  destruct (p_cwd (k_proc s p)) as [ip|] eqn:Hip; [|done]. unfold call_panic.
  destruct (the_syscalls_at _ f Hpos Hf Hno) as [[-> ->]|[[-> ->]|[[-> ->]|(H2 & H24 & Hret)]]];
    rewrite ?(bool_decide_true (2 = 2)%Z), ?(bool_decide_true (24 = 24)%Z), ?(bool_decide_false (2 = 24)%Z),
      ?(bool_decide_false (24 = 2)%Z), ?(bool_decide_false (1 = 2)%Z), ?(bool_decide_false (1 = 24)%Z) by done; cbn [andb].
  - by eapply nicefork_returns.
  - case_bool_decide as Hpi; [|eapply sys_exit_ends; [done|done|done|congruence]].
    destruct Hr as [Hinv Hcp]. destruct (exit_init_panics stray s p Hinv Hcp Hpi) as [s' Hp].
    unfold stops, wpf, sys_exit, bind. rewrite Hp. by right.
  - destruct (bad_nice (nice_arg p s)) eqn:Hn.
    + unfold stops, wpf. rewrite (sys_nicefork_eq p s Hr). unfold value, bind, nicefork. unfold bad_nice in Hn. rewrite Hn. by right.
    + unfold wpf. rewrite (sys_nicefork_eq p s Hr). destruct (runs_read p s Hr) as [_ Hr1].
      by apply (nicefork_returns p ip (nice_arg p s) (my_read s)).
  - rewrite (bool_decide_false (call_number p s = 2%Z)), (bool_decide_false (call_number p s = 24%Z)) by done. by apply Hret.
Qed.

Lemma set_result_ok p r s : runs p s -> runs p (proc_set p (fun q => set_p_tf (set_tf_eax (u32 r) (p_tf q)) q) s).
Proof. intros Hr. by apply runs_put. Qed.

Lemma the_syscall_ok p s :
  can_call p s -> call_number p s ∉ file_numbers ->
  match call_panic p s with
  | Some msg => stops (F := F) msg the_syscall s
  | None => wpf F the_syscall (call_ended p) s
  end.
Proof using Hshutdown Hstray.
  intros Hcan Hno. pose proof Hcan as [Hr Hset]. destruct (runs_read p s Hr) as [Hrun Hr1].
  assert (can_call p (my_read s)) as Hcan1 by done. set (num := call_number p s) in *.
  assert (the_syscall s = (match (if (0 <? num)%Z then the_syscalls !! Z.to_nat (num - 1) else None) with
    | Some f => r <- f ;; match r with Value v => set_result p v ;; ret r | Switched => ret r end
    | None => print (MsgText "unknown sys call") ;; set_result p (-1) ;; ret (Value (-1))
    end) (my_read s)) as Heq by (unfold the_syscall, syscall; by rewrite (bind_done _ _ _ _ _ Hrun)).
  unfold stops, wpf. rewrite Heq. clear Heq.
  destruct (if (0 <? num)%Z then _ else None) as [f|] eqn:Hf.
  - destruct (Z.ltb_spec 0 num) as [Hpos|]; [|done]. pose proof (call_ok p f (my_read s) Hcan1 Hpos Hno Hf) as Hc.
    change (call_panic p (my_read s)) with (call_panic p s) in Hc. destruct (call_panic p s) as [msg|].
    + change (wpf (stops_with (F := F) msg) (r <- f ;; match r with Value v => set_result p v ;; ret r | Switched => ret r end) (fun _ _ => False) (my_read s)).
      apply wpf_bind. eapply wpf_mono; [exact Hc|]. done.
    + change (wpf F (r <- f ;; match r with Value v => set_result p v ;; ret r | Switched => ret r end) (call_ended p) (my_read s)).
      apply wpf_bind. eapply wpf_mono; [exact Hc|]. intros [v|] s2 H2; [|by eapply wpf_done].
      wnext. eapply wpf_done; [done|]. by apply set_result_ok.
  - assert (call_panic p s = None) as ->.
    { unfold call_panic. fold num. destruct (decide (num = 2%Z)) as [->|H2]; [done|]. destruct (decide (num = 24%Z)) as [->|H24]; [done|].
      by rewrite (bool_decide_false (num = 2%Z)), (bool_decide_false (num = 24%Z)). }
    change (wpf F (print (MsgText "unknown sys call") ;; set_result p (-1) ;; ret (Value (-1))) (call_ended p) (my_read s)).
    wnext. wnext. eapply wpf_done; [done|]. apply set_result_ok.
    destruct Hr1 as [(Hu & Hq & Hb) Hcp]. split; [|done]. split; [done|]. split; [exact Hq|]. by apply (base_ext _ (my_read s)).
Qed.
End SysprocInv.
