(* ===== verification/SyscallProps.v ===== *)
(** * Properties of the system calls

    Those on processes with the dispatcher first, then those on files. *)

From S2P Require Import Prelude Mem KState Spinlock SkipList SkipListInv SkipListInsert.
From S2P Require Import SkipListDelete Mem KEnv Proc ProcQueue ProcInv ProcSwitch.
From S2P Require Import ProcLife ProcExit Boot Trap TrapInv System BumpEnv Syscall Sysproc SysprocInv.

Local Open Scope c_scope.

(** ** The dispatcher *)

Section Props.
Context {E : Type} `{HE : KEnv E} {F : fault -> Prop} `{HK : !KEnvOk E F}.
Implicit Types s : kst E.

(** C4: a system call of sysproc.c by the running process (fork, exit, wait,
    kill, getpid, sbrk, sleep, uptime, yield, shutdown, nicefork, schedlog), or
    a number that is no system call, with anything on the user stack, ends with
    the invariant of the process table intact: back in the process, or on the
    way into the scheduler with ptable.lock held; or it stops with the panic
    that [call_panic] gives, and then always: init calls exit, or nicefork has
    an argument out of range, which sys_nicefork does not check.  Other faults
    are those [F] of the operations of the allocator, the page tables and the
    file system that these calls use.  The table holds any calls on files at
    their numbers, about which nothing is assumed or shown here. *)
Theorem syscall_keeps_invariant (stray : kst E -> nptr -> option nat) (umem : E -> Z -> mem) (garbage : Z)
    (pipe read exec fstat chdir dup open write mknod unlink link mkdir close : M (kst E) Z) (shutdown : M E unit) p s :
  (forall p, p < NPROC -> stray_ok stray p) -> keeps_env (F := F) shutdown ->
  inv s -> c_proc (k_cpu s) = Some p -> settled s -> call_number p s ∉ file_numbers ->
  let call := syscall stray umem pipe read exec fstat chdir dup open write mknod unlink link mkdir close (lift shutdown) garbage in
  match call_panic umem garbage p s with
  | Some msg => wpf (fun f => F f \/ f = FPanic msg) call (fun _ _ => False) s
  | None => wpf F call
      (fun r s' => match r with Value _ => inv s' /\ c_proc (k_cpu s') = Some p | Switched => mid s' end) s
  end.
Proof.
  intros Hst Hsh Hinv Hcp Hset Hno.
  exact (the_syscall_ok stray Hst umem garbage _ _ _ _ _ _ _ _ _ _ _ _ _ shutdown Hsh p s (conj (conj Hinv Hcp) Hset) Hno).
Qed.
End Props.

(** ** Runs that meet the hypotheses *)

(** A user memory with the byte [w] above the stack pointer of initcode *)
Definition one_word (w : Z) (e : Z) (pgdir : Z) : mem := fun a => if decide (a = 4100%Z) then w else 0%Z.

Definition idle_call : M (kst Z) Z := ret 0%Z.

(** init makes the call [n]; its size is 8192, so that the argument is readable. *)
Definition calling (n : Z) : kst Z := proc_set 0 (fun q => set_p_tf (set_tf_eax n (p_tf q)) (set_p_sz 8192 q)) running.

Lemma called_inv p n sz (s : kst Z) :
  inv s -> c_proc (k_cpu s) = Some p -> inv (proc_set p (fun q => set_p_tf (set_tf_eax n (p_tf q)) (set_p_sz sz q)) s).
Proof. intros Hinv Hcp. by apply (runs_put p s). Qed.

Lemma calling_inv n : inv (calling n).
Proof. apply (called_inv 0 n 8192 running running_inv). vm_compute. reflexivity. Qed.

Lemma calling_settled n : settled (calling n).
Proof. apply (settled_at (calling n) 0 0 0); vm_compute; reflexivity. Qed.

Abbreviation small_call w :=
  (syscall no_stray (one_word w) idle_call idle_call idle_call idle_call idle_call idle_call idle_call idle_call
     idle_call idle_call idle_call idle_call idle_call (lift (ret tt)) 0).

(** nicefork(7) and nicefork(100) by init *)
Lemma syscall_keeps_invariant_witness :
  wpf no_fault (small_call 7) (fun r s' => match r with Value _ => inv s' /\ c_proc (k_cpu s') = Some 0 | Switched => mid s' end) (calling 24) /\
  wpf (fun f => no_fault f \/ f = FPanic "invalid nice value") (small_call 100) (fun _ _ => False) (calling 24).
Proof.
  assert (c_proc (k_cpu (calling 24)) = Some 0) as Hcp by (vm_compute; reflexivity).
  assert (call_number 0 (calling 24) ∉ file_numbers) as Hno.
  { change (call_number 0 (calling 24)) with 24%Z. unfold file_numbers. rewrite !not_elem_of_cons.
    repeat (split; [discriminate|]). apply not_elem_of_nil. }
  assert (call_panic (one_word 7) 0 0 (calling 24) = None) as H7 by (vm_compute; reflexivity).
  assert (call_panic (one_word 100) 0 0 (calling 24) = Some "invalid nice value") as H100 by (vm_compute; reflexivity).
  pose proof (fun w => syscall_keeps_invariant no_stray (one_word w) 0 idle_call idle_call idle_call idle_call idle_call idle_call
    idle_call idle_call idle_call idle_call idle_call idle_call idle_call (ret tt) 0 (calling 24) no_stray_ok (fun e He => He)
    (calling_inv 24) Hcp (calling_settled 24) Hno) as H.
  pose proof (H 7%Z) as Ha. pose proof (H 100%Z) as Hb. cbv zeta in Ha, Hb. rewrite H7 in Ha. rewrite H100 in Hb. split; [exact Ha|exact Hb].
Defined.

(** * Properties of the system calls on files *)

From S2P Require Import Prelude Mem KString Kalloc FsState Bio Log Fs FsFrame Pipe Syscall File Sysfile SysfileInv FileRefs.

Local Open Scope Z_scope.

(** ** A small disk for the witnesses: the root directory, inode 1, with the
    entries . and a, the latter a file, inode 2; no devices. *)

Definition zero_block : block := repeat 0 512.

Definition an_inode (type nlink size addr : Z) : inode :=
  mkInode 1 0 0 (mkSleeplock false 0) false type 0 0 nlink size (addr :: repeat 0 12).

Definition entry (inum : Z) (name : list Z) : list Z := bytes16 inum ++ strncpy_bytes DIRSIZ name.

Definition inode_block : block :=
  put 64 (dinode_bytes (an_inode T_DIR 1 32 50)) (put 128 (dinode_bytes (an_inode T_FILE 1 0 0)) zero_block).

Definition root_block : block := put 0 (entry 1 [46] ++ entry 2 [97]) zero_block.

Definition small_fs : fsys :=
  mkFsys (fun b => if decide (b = 33) then inode_block else if decide (b = 50) then root_block else zero_block) 100 []
    (fun _ => mkBuf false false 0 0 (mkSleeplock false 0) 0 [])
    (fun i => if decide (i = 0%nat) then 30%nat else (i - 1)%nat)
    (fun i => if decide (i = 30%nat) then 0%nat else (i + 1)%nat)
    (mkLog 2 31 0 false 1 0 (fun _ => 0)) (mkSuperblock 100 65 8 31 2 33 35)
    (fun ip => if decide (ip = 0%nat) then mkInode 1 1 1 (mkSleeplock false 0) false 0 0 0 0 0 []
               else mkInode 0 0 0 (mkSleeplock false 0) false 0 0 0 0 0 []) 7 0.

Definition no_read (major : Z) : option (nat -> Z -> M fsys (Z * list Z)) := None.
Definition no_write (major : Z) : option (nat -> list Z -> M fsys Z) := None.

(** The user memory: the stack at 0, the strings a and . at 100 and 102 *)
Definition small_user : usermem :=
  mkUsermem (fun a => if decide (a = 4) then 100 else if decide (a = 8) then 102 else
                      if decide (a = 100) then 97 else if decide (a = 102) then 46 else 0) 4096 0.

Definition small : fkern :=
  mkFkern small_fs (mkKmem (fun _ => 0) false true 0) (fun _ => mkFile FD_NONE 0 false false 0 0 0)
    (fun _ => new_pipe (fun _ => 0)) (fun _ => None) false small_user.

(** Is this a wait of the process for a lock it holds itself? *)
Definition waits_for_itself {A} (ip : nat) (o : outcome fsys A) : bool :=
  match o with
  | NoFuel s => sl_locked (i_lock (fs_inode s ip)) && (sl_pid (i_lock (fs_inode s ip)) =? fs_pid s)
  | _ => false
  end.

(** ** System-call arguments *)

(** C35: what the kernel accepts as an argument lies in the memory of the
    process: the argument word itself, [size] bytes behind a pointer, and a
    string with its NUL.  No sum wraps around, for any stack pointer and any
    argument value. *)
Theorem arguments_in_bounds u n :
  0 <= um_sz u <= KERNBASE -> is_u32 (um_esp u) ->
  (forall i, argint u n = Some i ->
     u32 (um_esp u + 4 + 4 * n) + 4 <= um_sz u /\ i = i32 (ld32 (um_mem u) (u32 (um_esp u + 4 + 4 * n)))) /\
  (forall size p, is_i32 size -> argptr u n size = Some p -> 0 <= size /\ 0 <= p < um_sz u /\ p + size <= um_sz u) /\
  (forall l, argstr u n = Some l -> exists p, 0 <= p /\ p + Z.of_nat (length l) < um_sz u /\
     bytes_at (um_mem u) p (length l) = l /\ um_mem u (p + Z.of_nat (length l)) = 0 /\ 0 ∉ l).
Proof.
  intros Hsz He. split; [|split].
  - intros i Hi. apply fetchint_in in Hi; [done|done|apply u32_range].
  - intros size p Hs Hp. by eapply argptr_in.
  - apply argstr_in.
Qed.

Lemma arguments_in_bounds_witness :
  argint small_user 0 = Some 100 /\ argptr small_user 0 3996 = Some 100 /\ argptr small_user 0 3997 = None /\
  argstr small_user 0 = Some [97] /\
  (forall i, argint small_user 0 = Some i ->
     u32 (0 + 4 + 4 * 0) + 4 <= 4096 /\ i = i32 (ld32 (um_mem small_user) (u32 (0 + 4 + 4 * 0)))) /\
  (forall size p, is_i32 size -> argptr small_user 0 size = Some p -> 0 <= size /\ 0 <= p < 4096 /\ p + size <= 4096) /\
  (forall l, argstr small_user 0 = Some l -> exists p, 0 <= p /\ p + Z.of_nat (length l) < 4096 /\
     bytes_at (um_mem small_user) p (length l) = l /\ um_mem small_user (p + Z.of_nat (length l)) = 0 /\ 0 ∉ l).
Proof.
  do 4 (split; [vm_compute; reflexivity|]). refine (arguments_in_bounds small_user 0 _ _).
  - vm_compute. split; discriminate.
  - vm_compute. split; [discriminate|reflexivity].
Defined.

(** ** Locks and transactions *)

(** C6: every system call of sysfile.c that returns, with success or with an
    error, leaves the locks of inodes and buffers as it found them and has
    called end_op as often as begin_op.  The device functions are assumed to do
    the same. *)
Theorem file_calls_release kend devread devwrite stack_name m o B I s :
  (forall major f ip n, devread major = Some f -> neutral (f ip n)) ->
  (forall major f ip src, devwrite major = Some f -> neutral (f ip src)) ->
  m ∈ file_calls kend devread devwrite stack_name -> hold o B I (fk_fs s) ->
  match m s with Done _ s' => hold o B I (fk_fs s') | _ => True end.
Proof.
  intros Hr Hw Hm Hs. pose proof (file_calls_balanced kend devread devwrite stack_name Hr Hw m Hm o B I s Hs) as H.
  unfold wpf in H. by destruct (m s).
Qed.

Lemma file_calls_release_witness :
  hold 0 (fun _ => false) (fun _ => false) (fk_fs small) /\
  match sys_unlink no_read no_write (repeat 0 14) small with Done r s' => hold 0 (fun _ => false) (fun _ => false) (fk_fs s') | _ => True end.
Proof.
  assert (hold 0 (fun _ => false) (fun _ => false) (fk_fs small)) as Hs.
  { split; [reflexivity|intros i; reflexivity|]. intros i. cbn. by destruct (decide (i = 0%nat)). }
  split; [exact Hs|].
  refine (file_calls_release 0 no_read no_write (repeat 0 14) (sys_unlink no_read no_write (repeat 0 14)) 0 _ _ small _ _ _ Hs); [discriminate..|].
  unfold file_calls. do 6 apply list_elem_of_further. apply list_elem_of_here.
Defined.

(** C34: every system call of sysfile.c that returns keeps the reference counts
    exact: the ref field of each file is the number of descriptors that name
    it, in this process and ([ext]) elsewhere.  So a file in use is not reused
    and one that nobody names is free.  dup always returns, and close does when
    the file has another reference: the panics of filedup and fileclose are not
    reached. *)
Theorem file_calls_count_references kend devread devwrite stack_name ext s :
  refs ext s -> (forall f, 0 <= ext f) ->
  (forall m, m ∈ file_calls kend devread devwrite stack_name -> match m s with Done _ s' => refs ext s' | _ => True end) /\
  (exists r s', sys_dup s = Done r s' /\ forall f, (f < NFILE)%nat ->
     f_ref (fk_file s' f) = f_ref (fk_file s f) + if decide (0 <= r /\ fk_ofile s' (Z.to_nat r) = Some f) then 1 else 0) /\
  (forall fd f, argfd 0 s = Done (Some (fd, f)) s -> 2 <= f_ref (fk_file s f) ->
     exists s', sys_close kend s = Done 0 s' /\ f_ref (fk_file s' f) = f_ref (fk_file s f) - 1 /\ fk_ofile s' fd = None).
Proof.
  intros Hs He. split_and!.
  - intros m Hm. pose proof (file_calls_refs kend devread devwrite stack_name m Hm ext s Hs) as H.
    unfold wpf in H. by destruct (m s).
  - by apply (sys_dup_returns ext).
  - intros fd f. by apply sys_close_returns.
Qed.

(** The file a is open as descriptor 0, and every argument word is 0. *)
Definition opened : fkern :=
  match sys_open 0 no_read no_write (repeat 0 14) small with
  | Done _ s => set_fk_user (mkUsermem (fun _ => 0) 4096 0) s
  | _ => small
  end.

Definition duped : fkern := match sys_dup opened with Done _ s => s | _ => opened end.

Lemma refs_after ext (m : M fkern Z) u s :
  keeps_refs m -> refs ext s -> refs ext (match m s with Done _ s' => set_fk_user u s' | _ => s end).
Proof.
  intros Hm Hs. specialize (Hm ext s Hs). unfold wpf in Hm. destruct (m s) as [r s'|? ?|?|?]; [|exact Hs..].
  apply (refs_same ext s'); [exact Hm|reflexivity|reflexivity].
Qed.

Lemma opened_refs : refs (fun _ => 0) opened.
Proof.
  unfold opened. apply refs_after; [apply sys_open_refs|].
  split; [intros f _; vm_compute; reflexivity|discriminate].
Qed.

(** open, dup and close: the count goes from 1 to 2 and back. *)
Lemma file_calls_count_references_witness :
  match sys_dup opened with Done r s' => r = 1 /\ f_ref (fk_file s' 0) = 2 /\ refs (fun _ => 0) s' | _ => False end /\
  match sys_close 0 duped with Done r s' => r = 0 /\ f_ref (fk_file s' 0) = 1 /\ refs (fun _ => 0) s' | _ => False end.
Proof.
  assert (forall f : nat, 0 <= (fun _ => 0) f) as He by (intros f; discriminate).
  destruct (file_calls_count_references 0 no_read no_write [] (fun _ => 0) opened opened_refs He) as (Hall & (r & s' & Hd & _) & _).
  pose proof (Hall sys_dup (list_elem_of_here _ _)) as Hr.
  assert (match sys_dup opened with Done r s' => (r, f_ref (fk_file s' 0)) | _ => (-1, 0) end = (1, 2)) as Hv by (vm_compute; reflexivity).
  assert (refs (fun _ => 0) duped) as Hdup by (unfold duped; rewrite Hd in Hr |- *; exact Hr).
  split.
  - rewrite Hd in Hr, Hv |- *. injection Hv as -> ->. split; [reflexivity|]. split; [reflexivity|exact Hr].
  - destruct (file_calls_count_references 0 no_read no_write [] (fun _ => 0) duped Hdup He) as (Hall' & _ & Hc).
    assert (argfd 0 duped = Done (Some (0%nat, 0%nat)) duped) as Ha.
    { destruct (argfd_done 0 duped) as [o Ho]. rewrite Ho. f_equal.
      assert (match argfd 0 duped with Done o _ => o | _ => None end = Some (0%nat, 0%nat)) as Hx by (vm_compute; reflexivity).
      rewrite Ho in Hx. exact Hx. }
    assert (f_ref (fk_file duped 0) = 2) as H2 by (vm_compute; reflexivity).
    destruct (Hc 0%nat 0%nat Ha) as (s2 & Hs2 & Href & _); [rewrite H2; discriminate|].
    assert (sys_close 0 ∈ file_calls 0 no_read no_write []) as Hin by (do 3 apply list_elem_of_further; apply list_elem_of_here).
    pose proof (Hall' _ Hin) as Hr2. rewrite Hs2 in Hr2 |- *. rewrite Href, H2. split; [reflexivity|]. split; [reflexivity|exact Hr2].
Defined.

(** ** A process that waits for itself *)

(** dirlink on a locked directory waits when the new name is one under which the
    directory finds itself, as . does: it drops the inode that dirlookup found
    with iput, which takes the lock of the directory. *)
Lemma dirlink_waits_for_itself devread devwrite dp name inum off s s1 :
  dirlookup devread dp name s = Done (Some (dp, off)) s1 ->
  sl_locked (i_lock (fs_inode s1 dp)) = true ->
  dirlink devread devwrite dp name inum s = NoFuel s1.
Proof.
  intros Hl Hlk. unfold dirlink, bind. rewrite Hl. unfold iput, acquiresleep, gets, inode_lock, bind.
  cbv beta iota. by rewrite Hlk.
Qed.

(** The call link a . on the small disk: the process waits for the lock of the
    root directory, which it holds itself. *)
Theorem link_dot_waits_for_itself :
  waits_for_itself 0 (do_link no_read no_write (repeat 0 14) [97] [46] small_fs) = true.
Proof. vm_compute. reflexivity. Qed.
