(* ===== verification/FsProps.v ===== *)
(** * Properties of the file system *)

From S2P Require Import Prelude FsState Bio BioInv Log LogInv LogCommit LogCrash Fs FsTxn FsAlloc FsContent FsWrite LogSpace.

Local Open Scope c_scope.
Local Open Scope Z_scope.

(** ** A small disk for the witnesses: 100 blocks, the log at 2, inodes at
    32, the free map at 34, data from 35 on; block 40 is in use, changed and
    logged by the system call in progress.  It is the block of a file of 100
    bytes, inode 1. *)

Definition demo_map : block := [255; 255; 255; 255; 7; 1] ++ repeat 0 506.

Definition demo_buf (i : nat) : buf :=
  if decide (i = 0%nat) then mkBuf true true 1 40 (mkSleeplock false 0) 0 (repeat 1 512)
  else mkBuf false false 0 0 (mkSleeplock false 0) 0 [].

Definition demo_inode : inode := mkInode 1 1 1 (mkSleeplock false 0) true T_FILE 0 0 1 100 (40 :: repeat 0 12).

Definition demo_inodes : block := put 64 (dinode_bytes demo_inode) zeros.

Definition demo : fsys :=
  mkFsys (fun b => if decide (b = 34) then demo_map else if decide (b = 32) then demo_inodes else zeros) 100 []
    demo_buf (fun i => if decide (i = 0%nat) then 30%nat else (i - 1)%nat)
    (fun i => if decide (i = 30%nat) then 0%nat else (i + 1)%nat)
    (mkLog 2 30 1 false 1 1 (fun _ => 40)) (mkSuperblock 100 65 8 30 2 32 34)
    (fun _ => demo_inode) 7 0.

Lemma demo_bio : bio_ok demo.
Proof.
  assert (forall i, demo_buf i = mkBuf true true 1 40 (mkSleeplock false 0) 0 (repeat 1 512) /\ i = 0%nat \/
    demo_buf i = mkBuf false false 0 0 (mkSleeplock false 0) 0 []) as Hb.
  { intros i. unfold demo_buf. case_decide; [by left|by right]. }
  split.
  - exists (seq 0 NBUF). split; [|done]. vm_compute. repeat split.
  - intros i _. change (fs_buf demo i) with (demo_buf i). destruct (Hb i) as [[-> _]| ->]; split; cbn -[repeat]; try done; lia.
  - intros i j _ _. change (fs_buf demo) with demo_buf.
    destruct (Hb i) as [[-> ->]| ->]; [|done]. destruct (Hb j) as [[-> ->]| ->]; done.
  - intros b _. cbn -[repeat demo_map demo_inodes zeros]. case_decide; [done|]. case_decide; [done|]. apply zeros_length.
Qed.

Lemma demo_unlocked : unlocked demo.
Proof. intros i _. cbn. unfold demo_buf. by case_decide. Qed.

Lemma demo_txn : txn_ok demo.
Proof.
  split.
  - apply demo_bio.
  - split; cbn; try done; unfold LOGSIZE, MAXOPBLOCKS; intros; lia.
  - apply NoDup_singleton.
  - intros b. change (homes (fs_log demo)) with [40]. rewrite list_elem_of_singleton. split.
    + intros (i & _ & Hb%is_block_true & Hd). change (fs_buf demo i) with (demo_buf i) in *. unfold demo_buf in *.
      case_decide; [by destruct Hb|done].
    + intros ->. exists 0%nat. split; [unfold NBUF; lia|done].
  - done.
Qed.

(** ** Transactions and crashes *)

(** C5: end_op of the last system call writes the transaction to the disk so
    that a crash at any point, also one followed by recoveries that crash in
    turn, loses all of it or nothing: recovery restores either the old content
    of every block outside the log or the new one.  When end_op returns, the
    new content is on the disk. *)
Theorem end_op_crash_atomic s :
  txn_ok s -> unlocked s -> lg_outstanding (fs_log s) = 1 -> lg_committing (fs_log s) = false ->
  lg_n (fs_log s) < Z.of_nat NBUF -> fs_disksize s <= 2147483648 -> head_n (fs_disk s (lg_start (fs_log s))) = 0 ->
  let st := lg_start (fs_log s) in let sz := lg_size (fs_log s) in
  wp end_op (fun _ s' => exists W,
    fs_writes s' = fs_writes s ++ W /\
    (forall c, outside st sz c -> fs_disk s' c = view s c) /\
    forall W1 d r, W1 `prefix_of` W -> survives st (apply_writes W1 (fs_disk s)) d ->
      booted st sz r -> fs_disksize r = fs_disksize s -> (forall c, fs_disk r c = d c) ->
      wp recover_from_log (fun _ r' =>
        (forall c, outside st sz c -> fs_disk r' c = fs_disk s c) \/
        (forall c, outside st sz c -> fs_disk r' c = view s c)) r) s.
Proof.
  intros Hx Hu Ho Hcm Hn Hsize H0 st sz. apply wp_wpf. unfold end_op. do 2 wnext. cbn [fs_log upd_log set_fs_log lg_committing set_lg_outstanding lg_outstanding].
  rewrite Hcm, Ho. cbn [Z.sub Z.add Z.opp Z.pos_sub Z.eqb]. wnext.
  set (s0 := upd_log (set_lg_committing true) _).
  assert (commit_ready s0) as Hc.
  { destruct Hx as [Hok [? ? ? ? ?] Hnd Hd _]. split; try done. by do 2 apply bio_ok_log. }
  apply wpf_bind, wpf_wp. eapply wp_mono; [by apply (commit_atomic s0)|]. intros [] s1 (W & Hat & Hw & Hd).
  eapply wpf_done; [reflexivity|]. exists W. split; [done|]. split; [|exact (aw_crash _ _ Hat)].
  intros c Hco. cbn. rewrite Hd. by apply (aw_done _ _ Hat).
Qed.

Lemma end_op_crash_atomic_witness :
  txn_ok demo /\
  wp end_op (fun _ s' => exists W,
    fs_writes s' = [] ++ W /\
    (forall c, outside 2 30 c -> fs_disk s' c = view demo c) /\
    forall W1 d r, W1 `prefix_of` W -> survives 2 (apply_writes W1 (fs_disk demo)) d ->
      booted 2 30 r -> fs_disksize r = 100 -> (forall c, fs_disk r c = d c) ->
      wp recover_from_log (fun _ r' =>
        (forall c, outside 2 30 c -> fs_disk r' c = fs_disk demo c) \/
        (forall c, outside 2 30 c -> fs_disk r' c = view demo c)) r) demo.
Proof.
  split; [exact demo_txn|]. refine (end_op_crash_atomic demo demo_txn demo_unlocked eq_refl eq_refl eq_refl _ eq_refl).
  vm_compute. discriminate.
Defined.

(** ** Log space *)

Definition idle_fs (size : Z) : fsys :=
  set_fs_log (mkLog 2 size 0 false 1 0 (fun _ => 0))
    (set_fs_buf (fun i => set_bf_blockno (Z.of_nat i + 100) (demo_buf i)) demo).

(** as long as every system call keeps to MAXOPBLOCKS log_writes, in any
    interleaving of calls that begin, write and end, no log_write finds the
    log full, provided the log is larger than LOGSIZE blocks. *)
Theorem reservation_suffices s q k c i :
  idle_log (fs_log s) -> LOGSIZE < lg_size (fs_log s) -> rtc lstep (s, []) q -> q.2 !! k = Some (S c) ->
  exists s', log_write i q.1 = Done tt s'.
Proof. intros Hi Hsz Hr Hk. eapply space_write; [eapply space_reach; [exact Hr|by apply idle_space]|done..]. Qed.

(** C40: with a log of LOGSIZE blocks, as mkfs makes it, the reservation is one
    block short: three calls that keep to MAXOPBLOCKS are let in together, and
    the last write of the last one panics. *)
Theorem reservation_exceeds_log s :
  idle_log (fs_log s) -> lg_size (fs_log s) = LOGSIZE -> numbered s ->
  exists q, rtc lstep (s, []) q /\ q.2 = [0; 0; 1]%nat /\ forall i, log_write i q.1 = Panic "too big a transaction" q.1.
Proof.
  intros Hi Hsz Hnum. destruct (three_begin s Hi Hsz Hnum) as (q & H1 & H2 & H3).
  destruct (filled_reach 29 q ltac:(lia) H2 H3) as (q' & H4 & H5). exists q'.
  split; [by etrans|]. split; [apply (fd_credit _ _ H5)|]. intros i. by apply filled_panics.
Qed.

Lemma reservation_exceeds_log_witness :
  exists q, rtc lstep (idle_fs 30, []) q /\ q.2 = [0; 0; 1]%nat /\ forall i, log_write i q.1 = Panic "too big a transaction" q.1.
Proof.
  refine (reservation_exceeds_log (idle_fs 30) _ eq_refl _); [split; [|split]; reflexivity|].
  intros i. reflexivity.
Defined.

(** ** The buffer cache *)

Lemma locked_cases s b : locked_at s b \/ ~ locked_at s b.
Proof.
  destruct (existsb (fun i => is_block 1 b (fs_buf s i) && sl_locked (bf_lock (fs_buf s i))) (seq 0 NBUF)) eqn:He.
  - left. apply existsb_exists in He as (i & Hi%in_seq & [? ?]%andb_true_iff). exists i. split; [lia|done].
  - right. intros (i & Hi & Hb & Hl). assert (existsb (fun i => is_block 1 b (fs_buf s i) && sl_locked (bf_lock (fs_buf s i))) (seq 0 NBUF) = true).
    { apply existsb_exists. exists i. split; [apply in_seq; lia|by rewrite Hb, Hl]. }
    congruence.
Qed.

(** C29: bread returns a locked buffer with the current content of the block,
    whether the block was cached or comes from the disk, and changes the
    content of no block.  It waits exactly while the block is locked, and
    panics only if the block is not cached and every buffer is in use or
    dirty. *)
Theorem bread_reads_view s b :
  bio_ok s -> 0 <= b < fs_disksize s ->
  wpf (fun f => (f = FNoFuel /\ locked_at s b) \/
    (f = FPanic "bget: no buffers" /\ cached s b = None /\ forall i, (i < NBUF)%nat -> is_unused (fs_buf s i) = false))
    (bread 1 b) (fun i s' =>
      holds_buf s' i /\ bf_blockno (fs_buf s' i) = b /\ bf_data (fs_buf s' i) = view s b /\
      bio_ok s' /\ (forall c, view s' c = view s c) /\ fs_disk s' = fs_disk s) s.
Proof.
  intros Hok Hb. destruct (locked_cases s b) as [Hl|Hl].
  { destruct (bread_waits s b Hok Hl) as [s' Hs']. unfold wpf. rewrite Hs'. by left. }
  destruct (cached s b) as [i|] eqn:Hc; [|destruct (find (fun i => is_unused (fs_buf s i)) (seq 0 NBUF)) as [i|] eqn:Hf].
  3: { assert (forall i, (i < NBUF)%nat -> is_unused (fs_buf s i) = false) as Hn by (intros i Hi; apply (find_none _ _ Hf), in_seq; lia).
       unfold wpf. rewrite bread_panics by done. by right. }
  all: apply wpf_wp; eapply wp_mono; [apply bread_ok; try done|].
  1: left; congruence.
  2: right; apply find_some in Hf as [Hi%in_seq Hu]; exists i; split; [lia|done].
  all: intros j s' [Hj Hst Hok' Hv _]; destruct Hst as [Hat _ Hr].
  all: unfold holds_buf; rewrite Hat; split_and!; try done; by rewrite Hr.
Qed.

Lemma bread_reads_view_witness :
  bio_ok demo /\ bf_data (fs_buf demo 0) = repeat 1 512 /\
  wpf (fun f => (f = FNoFuel /\ locked_at demo 40) \/
    (f = FPanic "bget: no buffers" /\ cached demo 40 = None /\ forall i, (i < NBUF)%nat -> is_unused (fs_buf demo i) = false))
    (bread 1 40) (fun i s' =>
      holds_buf s' i /\ bf_blockno (fs_buf s' i) = 40 /\ bf_data (fs_buf s' i) = view demo 40 /\
      bio_ok s' /\ (forall c, view s' c = view demo c) /\ fs_disk s' = fs_disk demo) demo.
Proof.
  split; [exact demo_bio|]. split; [reflexivity|]. refine (bread_reads_view demo 40 demo_bio _).
  split; [discriminate|reflexivity].
Defined.

(** ** Block allocation *)

Lemma demo_layout : layout demo.
Proof. split; vm_compute; intuition discriminate. Qed.

Lemma demo_meta : meta_used demo.
Proof.
  intros b Hb. change (data_start (fs_sb demo)) with 35 in Hb.
  assert (forallb (used demo) (seqZ 0 35) = true) as Hall by (vm_compute; reflexivity).
  rewrite forallb_forall in Hall. apply Hall, list_elem_of_In, elem_of_seqZ. lia.
Qed.

(** balloc returns the first free data block, marks it used in the bitmap
    and fills it with zeros; every other block is as before, and nothing
    reaches the disk before the commit.  It panics for want of blocks only
    when none is free. *)
Theorem balloc_first_fit s :
  txn_ok s -> unlocked s -> layout s -> meta_used s ->
  wpf (fun f => fs_fault f \/ (f = FPanic "balloc: out of blocks" /\ forall b, 0 <= b < sb_size (fs_sb s) -> used s b = true))
    (balloc 1) (fun b s' =>
      data_start (fs_sb s) <= b < sb_size (fs_sb s) /\ used s b = false /\ (forall c, 0 <= c < b -> used s c = true) /\
      (forall c, 0 <= c < sb_size (fs_sb s) -> used s' c = (c =? b) || used s c) /\
      view s' b = zeros /\ (forall c, c <> b -> c <> BBLOCK b (fs_sb s) -> view s' c = view s c) /\
      (forall c, fs_disk s' c = fs_disk s c) /\ txn_ok s' /\ unlocked s') s.
Proof.
  intros Hx Hu Hly Hm. pose proof (ftr_refl s Hx Hu) as Hf.
  eapply wpf_call; [apply (balloc_f [] [] s s Hf Hly Hm)|done|]; [intros c Hc; set_solver|].
  intros b s' [Hff Hf']. pose proof (first_free_data _ _ Hm Hff) as Hbd. destruct Hff as (Hb & Hbu & Hbl).
  split; [done|]. split; [done|]. split; [done|].
  split; [intros c Hc; by apply (used_alloc [] [] [] s s s')|].
  assert (forall c, view s' c = apply_writes (alloc_writes s b) (view s) c) as Hv by apply (ft_view _ _ _ _ Hf').
  split; [rewrite Hv; cbn; by rewrite fn_lookup_insert|].
  split; [intros c H1 H2; rewrite Hv; cbn; by rewrite !fn_lookup_insert_ne|].
  split; [apply (ft_disk _ _ _ _ Hf')|]. split; [apply Hf'|by eapply ftr_unlocked].
Qed.

(** bfree gives a block in use back and touches nothing but the bitmap
    block of its bit; a block that is free makes it panic. *)
Theorem bfree_frees s b :
  txn_ok s -> unlocked s -> layout s -> 0 <= b < sb_size (fs_sb s) ->
  wpf (fun f => fs_fault f \/ (f = FPanic "freeing free block" /\ used s b = false))
    (bfree 1 b) (fun _ s' =>
      used s b = true /\
      (forall c, 0 <= c < sb_size (fs_sb s) -> used s' c = negb (c =? b) && used s c) /\
      (forall c, c <> BBLOCK b (fs_sb s) -> view s' c = view s c) /\
      (forall c, fs_disk s' c = fs_disk s c) /\ txn_ok s' /\ unlocked s') s.
Proof.
  intros Hx Hu Hly Hb. pose proof (ftr_refl s Hx Hu) as Hf.
  eapply wpf_call; [apply (bfree_f [] [] s s b Hf Hly Hb); set_solver|done|].
  intros [] s' [Hus Hf']. split; [done|]. split; [intros c Hc; by apply (used_free [] [] [] s s s')|].
  assert (forall c, view s' c = apply_writes [free_write s b] (view s) c) as Hv by apply (ft_view _ _ _ _ Hf').
  split; [intros c H1; rewrite Hv; cbn; by rewrite fn_lookup_insert_ne|].
  split; [apply (ft_disk _ _ _ _ Hf')|]. split; [apply Hf'|by eapply ftr_unlocked].
Qed.

(** ** File content *)

Lemma demo_fok : fok demo.
Proof. split; [exact demo_txn|exact demo_unlocked|exact demo_layout|exact demo_meta|discriminate]. Qed.

Lemma demo_faddr bn : 0 <= bn < MAXFILE -> faddr (view demo) demo_inode bn = if bn =? 0 then 40 else 0.
Proof.
  intros Hb. unfold faddr. destruct (Z.ltb_spec bn NDIRECT) as [Hd|Hd]; [|by destruct (Z.eqb_spec bn 0); [unfold NDIRECT in *; lia|]].
  unfold addr_of, NDIRECT in *. destruct (Z.eqb_spec bn 0) as [->|]; [done|].
  cbn [i_addrs demo_inode]. destruct (Z.to_nat bn) eqn:E; [lia|]. cbn [nth]. apply nth_repeat.
Qed.

Lemma demo_file : file_inv 0 demo.
Proof.
  split; [exact demo_fok| |done|done| |vm_compute; reflexivity]; change (fs_inode demo 0) with demo_inode.
  - split; [done|done| |done|intros b1 b2 H1 H2|intros bn Hb]; [intros bn Hb|..]; rewrite !demo_faddr by done.
    + destruct (Z.eqb_spec bn 0); [|done]. intros _. done.
    + destruct (Z.eqb_spec b1 0), (Z.eqb_spec b2 0); (done || lia).
    + by destruct (bn =? 0).
  - intros bn Hb Hs. assert (bn = 0) as -> by (cbn in Hs; unfold BSIZE in *; lia). done.
Qed.

Section Devices.
Context (devread : Z -> option (nat -> Z -> M fsys (Z * list Z))).
Context (devwrite : Z -> option (nat -> list Z -> M fsys Z)).

(** C7: writei on a file in order writes exactly the bytes given, at the
    offset given: the content elsewhere, the other inodes in memory and on disk
    and the blocks of other files are as they were, the size grows to the end
    of the bytes written, and the inode on its block is again as in memory.  It
    fails, with no effect, exactly when the offset is behind the end of the
    file or the bytes reach beyond the largest file. *)
Theorem writei_writes_content ip src off s :
  file_inv ip s -> i_type (fs_inode s ip) <> T_DEV -> is_u32 off -> Z.of_nat (length src) < u32_mod ->
  wpf file_fault (writei devwrite ip src off) (fun r s' =>
    if decide (off <= i_size (fs_inode s ip) /\ off + Z.of_nat (length src) <= MAXFILE * BSIZE)
    then r = Z.of_nat (length src) /\ wrote_file ip off src s s'
    else r = -1 /\ s' = s) s.
Proof. apply writei_ok. Qed.

(** readi returns the content of the file from the offset on, up to its
    end, and changes no block; a transaction need not be open. *)
Theorem readi_returns_content ip off n s :
  readable ip s -> i_type (fs_inode s ip) <> T_DEV -> is_u32 off -> is_u32 n ->
  wpf fs_fault (readi devread ip off n) (fun r s' => tr [] [] s s' /\
    r = if (i_size (fs_inode s ip) <? off) || (u32 (off + n) <? off) then (-1, [])
        else (Z.min n (i_size (fs_inode s ip) - off), bytes_of s ip off (Z.min n (i_size (fs_inode s ip) - off)))) s.
Proof. apply readi_ok. Qed.

Lemma bytes_of_overlay s s' ip off src :
  0 <= off -> off + Z.of_nat (length src) <= MAXFILE * BSIZE -> wrote_file ip off src s s' ->
  bytes_of s' ip off (Z.of_nat (length src)) = src.
Proof.
  intros Ho Hm Hw. unfold bytes_of. apply list_eq. intros k. rewrite list_lookup_fmap.
  destruct (decide (k < length src)%nat) as [Hk|Hk].
  - rewrite lookup_seqZ_lt by lia. cbn. rewrite (wf_content _ _ _ _ _ Hw) by lia. unfold overlay. rewrite decide_True by lia.
    rewrite get8_lookup. replace (Z.to_nat (off + Z.of_nat k - off)) with k by lia.
    by destruct (lookup_lt_is_Some_2 src k Hk) as [x ->].
  - rewrite lookup_seqZ_ge by lia. symmetry. apply lookup_ge_None. lia.
Qed.

(** C30: what writei puts into a file, readi gets back, inside the file, across
    its end and across the direct and the indirect blocks. *)
Theorem writei_readi_roundtrip ip src off s :
  file_inv ip s -> i_type (fs_inode s ip) <> T_DEV ->
  0 <= off <= i_size (fs_inode s ip) -> off + Z.of_nat (length src) <= MAXFILE * BSIZE ->
  wpf file_fault (n <- writei devwrite ip src off ;; readi devread ip off n)
    (fun r _ => r = (Z.of_nat (length src), src)) s.
Proof.
  intros Hinv Hty Ho Hm. assert (MAXFILE * BSIZE < u32_mod) as Hmx by done. apply wpf_bind.
  eapply wpf_mono; [apply writei_ok; try done; unfold is_u32; lia|]. intros n s1 Hr. cbv beta in Hr |- *.
  rewrite decide_True in Hr by lia. destruct Hr as [-> Hw].
  assert (i_type (fs_inode s1 ip) <> T_DEV) as Hty1 by (by rewrite (wf_rest _ _ _ _ _ Hw)).
  pose proof (wf_size _ _ _ _ _ Hw) as Hsz.
  eapply wpf_call; [apply (readi_ok devread ip off); [by apply file_readable, (wf_inv _ _ _ _ _ Hw)|done|unfold is_u32; lia..]|by left|].
  intros r s2 [_ ->]. cbv beta.
  destruct (Z.ltb_spec (i_size (fs_inode s1 ip)) off); [lia|]. unfold u32. rewrite Z.mod_small by lia.
  destruct (Z.ltb_spec (off + Z.of_nat (length src)) off); [lia|]. cbn [orb].
  rewrite Z.min_l by lia. rewrite (bytes_of_overlay s s1); (done || lia).
Qed.
End Devices.

Lemma writei_writes_content_witness :
  wpf file_fault (writei (fun _ => None) 0 (repeat 7 1000) 90) (fun r s' =>
    if decide (90 <= 100 /\ 90 + 1000 <= MAXFILE * BSIZE)
    then r = 1000 /\ wrote_file 0 90 (repeat 7 1000) demo s'
    else r = -1 /\ s' = demo) demo.
Proof.
  refine (writei_writes_content (fun _ => None) 0 (repeat 7 1000) 90 demo demo_file _ _ _); [discriminate|split; [discriminate|]|]; reflexivity.
Defined.

Lemma writei_readi_roundtrip_witness :
  wpf file_fault (n <- writei (fun _ => None) 0 (repeat 7 1000) 90 ;; readi (fun _ => None) 0 90 n)
    (fun r _ => r = (1000, repeat 7 1000)) demo.
Proof.
  refine (writei_readi_roundtrip (fun _ => None) (fun _ => None) 0 (repeat 7 1000) 90 demo demo_file _ _ _);
    [discriminate|split; discriminate|discriminate].
Defined.
