(* ===== verification/Ulib.v ===== *)
(** * ulib.c and printf.c

    The C library of user programs.  A C string is the list of its characters
    before the NUL; characters are bytes, and [char] is signed, so a byte
    above 127 is negative where its sign matters.  The output of printf is the
    sequence of bytes it writes to the descriptor, one write each. *)

From S2P Require Import Prelude Mem KString.

Local Open Scope Z_scope.

(** ** ulib.c: strings *)

(** strcpy into the array [s]; [None] when the string does not fit, where C
    writes past the array. *)
Fixpoint strcpy (s t : list Z) : option (list Z) :=
  match s, t with
  | [], _ => None
  | _ :: s', [] => Some (0 :: s')
  | _ :: s', c :: t' => cons c <$> strcpy s' t'
  end.

Fixpoint strcmp (p q : list Z) : Z :=
  match p with
  | [] => u8 0 - u8 (hd 0 q)
  | a :: p' =>
      match q with
      | b :: q' => if a =? b then strcmp p' q' else u8 a - u8 b
      | [] => u8 a - u8 0
      end
  end.

Fixpoint ustrlen (s : list Z) : Z :=
  match s with
  | [] => 0
  | _ :: s' => 1 + ustrlen s'
  end.

(** The pointer strchr returns, as the string it points to *)
Fixpoint strchr (s : list Z) (c : Z) : option (list Z) :=
  match s with
  | [] => None
  | a :: s' => if a =? c then Some s else strchr s' c
  end.

(** strchr as a condition *)
Definition among (s : list Z) (c : Z) : bool := bool_decide (is_Some (strchr s c)).

(** gets: what is left of the input when it returns, and the line.  The input
    ends where read returns less than 1. *)
Fixpoint gets_loop (room : nat) (input : list Z) : list Z * list Z :=
  match room, input with
  | O, _ | _, [] => (input, [])
  | S room', c :: input' =>
      if (c =? 10) || (c =? 13) then (input', [c])
      else let '(rest, l) := gets_loop room' input' in (rest, c :: l)
  end.

(** [i + 1 < max] leaves room for [max - 1] characters. *)
Definition gets (max : Z) (input : list Z) : list Z * list Z := gets_loop (Z.to_nat (max - 1)) input.

Definition is_digit (c : Z) : bool := (48 <=? c) && (c <=? 57).

Fixpoint atoi_loop (n : Z) (s : list Z) : Z :=
  match s with
  | c :: s' => if is_digit c then atoi_loop (i32 (n * 10 + c - 48)) s' else n
  | [] => n
  end.

Definition atoi (s : list Z) : Z := atoi_loop 0 s.

(** ulib.c: memset and memmove, on memory *)
Definition umemset (m : mem) (dst c n : Z) : mem := stosb m dst c (Z.to_nat n).
Definition umemmove (m : mem) (dst src n : Z) : mem := copy_up m dst src (Z.to_nat n).

(** ** printf.c *)

(** "0123456789" followed by the letters from [ten] on *)
Definition digit_char (ten d : Z) : Z := if d <? 10 then 48 + d else ten + d - 10.

(** The do-while loop of printint: the characters it stores in [buf], in the
    order of their index.  [room] is what is left of the array; [None] when it
    runs over. *)
Fixpoint digits_loop (ten : Z) (room : nat) (x base : Z) : option (list Z) :=
  match room with
  | O => None
  | S room' =>
      let c := digit_char ten (x `mod` base) in
      let x' := x / base in
      if x' =? 0 then Some [c] else cons c <$> digits_loop ten room' x' base
  end.

(** buf holds 16 characters; the digits above 9 are capital letters in printf.c
    and small ones in console.c. *)
Definition printint_from (ten xx base : Z) (sgn : bool) : option (list Z) :=
  let neg := sgn && (xx <? 0) in
  let x := if neg then u32 (- xx) else u32 xx in
  buf ← digits_loop ten 16 x base;
  buf ← (if neg then if (length buf <? 16)%nat then Some (buf ++ [45]) else None else Some buf);
  Some (reverse buf).

Definition printint : Z -> Z -> bool -> option (list Z) := printint_from 65.

(** The loop of printf: [state] is '%' after a %; [ap] are the words on the
    stack after fmt, and [str a] is the string at address [a].  [None] when
    printf would read past the words given or printint past its buffer. *)
Section Printf.
Context (str : Z -> list Z).

Definition null_text : list Z := [40; 110; 117; 108; 108; 41].   (* "(null)" *)

Fixpoint printf_loop (fmt : list Z) (ap : list Z) (state : bool) : option (list Z) :=
  match fmt with
  | [] => Some []
  | c :: fmt' =>
      if state then
        if (c =? 100) || (c =? 120) || (c =? 112) then                          (* d, x, p *)
          match ap with
          | [] => None
          | w :: ap' =>
              out ← (if c =? 100 then printint (i32 w) 10 true else printint (i32 w) 16 false);
              app out <$> printf_loop fmt' ap' false
          end
        else if c =? 115 then                                                   (* s *)
          match ap with
          | [] => None
          | w :: ap' => app (if w =? 0 then null_text else str w) <$> printf_loop fmt' ap' false
          end
        else if c =? 99 then                                                    (* c *)
          match ap with
          | [] => None
          | w :: ap' => cons (u8 w) <$> printf_loop fmt' ap' false
          end
        else if c =? 37 then cons c <$> printf_loop fmt' ap false
        else app [37; c] <$> printf_loop fmt' ap false
      else if c =? 37 then printf_loop fmt' ap true
      else cons c <$> printf_loop fmt' ap false
  end.

Definition printf (fmt : list Z) (ap : list Z) : option (list Z) := printf_loop fmt ap false.
End Printf.

(** ** What printint prints *)

Definition digit_val (c : Z) : Z := if c <? 58 then c - 48 else if c <? 97 then c - 55 else c - 87.

(** The letters start at A or at a. *)
Definition letters (ten : Z) : Prop := ten = 65 \/ ten = 97.

(** The value of digits, the least significant first *)
Fixpoint value (base : Z) (ds : list Z) : Z :=
  match ds with
  | [] => 0
  | c :: ds' => digit_val c + base * value base ds'
  end.

Lemma digit_val_char ten d : letters ten -> 0 <= d < 16 -> digit_val (digit_char ten d) = d.
Proof. intros [-> | ->] Hd; unfold digit_val, digit_char; destruct (Z.ltb_spec d 10); repeat case_match; lia. Qed.

Lemma digits_loop_ok ten k room x base :
  letters ten -> 2 <= base <= 16 -> 0 <= x < base ^ Z.of_nat k -> (0 < k <= room)%nat ->
  exists ds, digits_loop ten room x base = Some ds /\ value base ds = x /\ (0 < length ds <= k)%nat /\
    Forall (fun c => exists d, 0 <= d < base /\ c = digit_char ten d) ds /\ (x <> 0 -> digit_val (List.last ds 0) <> 0).
Proof.
  revert room x. induction k as [|k IH]; intros room x Hten Hb Hx Hr; [lia|]. destruct room as [|room]; [lia|]. cbn [digits_loop].
  assert (0 <= x `mod` base < base) by (apply Z.mod_pos_bound; lia).
  assert (0 <= x / base) by (apply Z.div_pos; lia).
  pose proof (digit_val_char ten (x `mod` base) Hten ltac:(lia)) as Hv. pose proof (Z.div_mod x base ltac:(lia)) as Hdm.
  destruct (Z.eqb_spec (x / base) 0) as [Hz|Hz].
  - exists [digit_char ten (x `mod` base)]. cbn [value length List.last]. rewrite Hv. split_and!; [done|lia|lia|lia| |lia].
    constructor; eauto.
  - rewrite Nat2Z.inj_succ, Z.pow_succ_r in Hx by lia.
    assert (x / base < base ^ Z.of_nat k) as Hlt by (apply Z.div_lt_upper_bound; lia).
    assert (0 < k)%nat. { destruct k; [|lia]. cbn in Hlt. lia. }
    destruct (IH room (x / base)) as (ds & -> & Hval & Hlen & Hall & Hlast); [done|lia..|].
    exists (digit_char ten (x `mod` base) :: ds). cbn [fmap option_fmap option_map value length]. rewrite Hv, Hval.
    split_and!; [done|lia|lia|lia|constructor; eauto|].
    intros _. destruct ds; [cbn in Hlen; lia|]. cbn [List.last]. by apply Hlast.
Qed.

(** The magnitude printint prints *)
Definition magnitude (xx : Z) (sgn : bool) : Z := if sgn && (xx <? 0) then - xx else u32 xx.

Lemma printint_ok ten xx base sgn :
  letters ten -> is_i32 xx -> base = 10 \/ base = 16 ->
  exists ds, printint_from ten xx base sgn = Some ((if sgn && (xx <? 0) then [45] else []) ++ reverse ds) /\
    value base ds = magnitude xx sgn /\ (0 < length ds <= 10)%nat /\
    Forall (fun c => exists d, 0 <= d < base /\ c = digit_char ten d) ds /\
    (magnitude xx sgn <> 0 -> digit_val (List.last ds 0) <> 0).
Proof.
  intros Hten Hx Hb. unfold printint_from.
  assert ((if sgn && (xx <? 0) then u32 (- xx) else u32 xx) = magnitude xx sgn) as ->.
  { unfold magnitude. destruct sgn, (Z.ltb_spec xx 0); try done. cbn. unfold is_i32, u32, u32_mod in *. rewrite Z.mod_small; lia. }
  assert (0 <= magnitude xx sgn < 2 ^ 32) as Hm.
  { unfold magnitude, is_i32, u32, u32_mod in *. destruct sgn, (Z.ltb_spec xx 0); cbn [andb]; zlia. }
  destruct (digits_loop_ok ten 10 16 (magnitude xx sgn) base) as (ds & -> & Hv & Hl & Hall & Hlast); [done|lia| |lia|].
  { destruct Hb as [-> | ->]; cbn; lia. }
  exists ds. cbn [mbind option_bind]. split; [|done].
  destruct (sgn && (xx <? 0)); [|done]. destruct (Nat.ltb_spec (length ds) 16); [|lia]. cbn. by rewrite reverse_app.
Qed.

(** ** atoi *)

Lemma is_digit_char ten d : 0 <= d < 10 -> is_digit (digit_char ten d) = true /\ digit_char ten d - 48 = d.
Proof. intros Hd. unfold is_digit, digit_char. destruct (Z.ltb_spec d 10); lia. Qed.

Lemma atoi_loop_app n l c : Forall (fun c => is_digit c = true) l -> atoi_loop n (l ++ [c]) = atoi_loop (atoi_loop n l) [c].
Proof. intros Hl. revert n. induction Hl as [|x l Hx Hl IH]; intros n; [done|]. cbn -[i32]. rewrite Hx. apply IH. Qed.

Lemma atoi_digits ten ds : letters ten -> Forall (fun c => exists d, 0 <= d < 10 /\ c = digit_char ten d) ds -> atoi (reverse ds) = i32 (value 10 ds).
Proof.
  intros Hten. induction 1 as [|c ds (d & Hd & ->) Hds IH]; [done|]. rewrite reverse_cons. unfold atoi in *. rewrite atoi_loop_app.
  - rewrite IH. cbn [atoi_loop value]. destruct (is_digit_char ten d Hd) as [-> He].
    rewrite digit_val_char by (done || lia). unfold i32, u32_mod. zlia.
  - apply Forall_reverse. eapply Forall_impl; [exact Hds|]. intros c (e & He & ->). by apply is_digit_char.
Qed.

Lemma hd_reverse_last (ds : list Z) : List.last ds 0 = hd 0 (reverse ds).
Proof. destruct ds as [|x ds] using rev_ind; [done|]. by rewrite last_last, reverse_snoc. Qed.
