(* ===== verification/UserProgs.v ===== *)
(** * wc.c, cat.c, ls.c (fmtname) and echo.c

    The loops of the small user programs.  [amount left n] is what
    read(fd, buf, n) returns when the bytes [left] are still to come: -1 on an
    error, else how many of them it stores in [buf]. *)

From S2P Require Import Prelude Ulib.

Local Open Scope Z_scope.

(** What a read without errors may return: nothing only at the end of the
    input, and never more than there is or was asked for. *)
Definition honest (amount : list Z -> Z -> Z) : Prop :=
  forall left n, 0 < n -> 0 <= amount left n <= Z.min n (Z.of_nat (length left)) /\ (amount left n = 0 -> left = []).

Section Read.
Context (amount : list Z -> Z -> Z).

(** ** wc *)

Record counts := mkCounts { c_lines : Z; c_words : Z; c_chars : Z; c_inword : bool }.

Definition space : list Z := [32; 13; 9; 10; 11].   (* " \r\t\n\v" *)

(** One turn of the inner loop *)
Definition wc_char (k : counts) (b : Z) : counts :=
  let c := i32 (c_chars k + 1) in
  let l := if b =? 10 then i32 (c_lines k + 1) else c_lines k in
  if among space b then mkCounts l (c_words k) c false
  else if c_inword k then mkCounts l (c_words k) c true
  else mkCounts l (i32 (c_words k + 1)) c true.

(** The counts that wc prints; [None] is the read error. *)
Fixpoint wc_loop (fuel : nat) (input : list Z) (k : counts) : option (option counts) :=
  match fuel with
  | O => None
  | S fuel' =>
      let n := amount input 512 in
      if 0 <? n then wc_loop fuel' (drop (Z.to_nat n) input) (foldl wc_char k (take (Z.to_nat n) input))
      else Some (if n <? 0 then None else Some k)
  end.

Definition wc (input : list Z) : option (option counts) :=
  wc_loop (S (length input)) input (mkCounts 0 0 0 false).

(** ** cat *)

(** [write b] is what write(1, b, n) returns.  The bytes handed to write, and
    whether cat came to the end of the input. *)
Context (write : list Z -> Z).

Fixpoint cat_loop (fuel : nat) (input out : list Z) : option (list Z * bool) :=
  match fuel with
  | O => None
  | S fuel' =>
      let n := amount input 512 in
      if 0 <? n then
        let b := take (Z.to_nat n) input in
        if write b =? n then cat_loop fuel' (drop (Z.to_nat n) input) (out ++ b)
        else Some (out ++ b, false)
      else Some (out, 0 <=? n)
  end.

Definition cat (input : list Z) : option (list Z * bool) := cat_loop (S (length input)) input [].
End Read.

(** ** fmtname of ls.c *)

Definition DIRSIZ : Z := 14.

(** [for(p=path+strlen(path); p >= path && *p != '/'; p--); p++]: the text
    after the last slash; [acc] is what lies behind [p]. *)
Fixpoint after_slash (rpath acc : list Z) : list Z :=
  match rpath with
  | [] => acc
  | c :: rpath' => if c =? 47 then acc else after_slash rpath' (c :: acc)
  end.

Definition fmtname (path : list Z) : list Z :=
  let p := after_slash (reverse path) [] in
  if DIRSIZ <=? ustrlen p then p else p ++ repeat 32 (Z.to_nat (DIRSIZ - ustrlen p)).

(** ** echo *)

(** The loop of main: [%s%s] with the argument and a blank or a newline *)
Fixpoint echo (args : list (list Z)) : list Z :=
  match args with
  | [] => []
  | [a] => a ++ [10]
  | a :: args' => a ++ [32] ++ echo args'
  end.

(** ** Reference counts *)

Definition is_space (b : Z) : Prop := b ∈ space.

(** A word starts where a non-space follows a space or the beginning. *)
Fixpoint word_starts (prev : bool) (l : list Z) : nat :=
  match l with
  | [] => 0
  | b :: l' =>
      if bool_decide (b ∈ space) then word_starts false l'
      else (if prev then 0 else 1) + word_starts true l'
  end.

Definition newlines (l : list Z) : nat := length (filter (fun b => b = 10) l).

Lemma among_spec s c : among s c = bool_decide (c ∈ s).
Proof.
  unfold among. apply bool_decide_ext. induction s as [|a s IH]; cbn; [by split; [intros []%is_Some_None|intros ?%elem_of_nil]|].
  rewrite elem_of_cons. destruct (Z.eqb_spec a c) as [->|]; [split; [by left|by eexists]|].
  rewrite IH. split; [by right|]. intros [->|]; done.
Qed.

Lemma word_starts_le prev l : (word_starts prev l <= length l)%nat.
Proof. revert prev. induction l as [|b l IH]; intros prev; [done|]. cbn. case_match; [pose proof (IH false)|pose proof (IH true); destruct prev]; lia. Qed.

Lemma newlines_le l : (newlines l <= length l)%nat.
Proof. apply length_filter. Qed.

Lemma wc_fold l k :
  c_chars k + Z.of_nat (length l) < 2147483648 -> 0 <= c_lines k <= c_chars k -> 0 <= c_words k <= c_chars k ->
  exists b, foldl wc_char k l = mkCounts (c_lines k + Z.of_nat (newlines l)) (c_words k + Z.of_nat (word_starts (c_inword k) l))
    (c_chars k + Z.of_nat (length l)) b.
Proof.
  revert k. induction l as [|x l IH]; intros k Hc Hl Hw; cbn [foldl].
  { exists (c_inword k). destruct k. cbn. rewrite !Z.add_0_r. done. }
  cbn [length] in Hc. unfold wc_char at 2. rewrite among_spec.
  rewrite (i32_small (c_chars k + 1)), (i32_small (c_words k + 1)), (i32_small (c_lines k + 1)) by (unfold is_i32; lia).
  assert (newlines (x :: l) = (if (x =? 10)%Z then 1 else 0) + newlines l)%nat as Hn.
  { unfold newlines. rewrite filter_cons. destruct (Z.eqb_spec x 10); case_decide; done. }
  cbn [word_starts length]. rewrite Hn. case_bool_decide; [|destruct (c_inword k)];
  match goal with |- context [foldl wc_char ?k' l] => destruct (IH k') as [b ->]; cbn; [lia|destruct (x =? 10); lia|lia|] end.
  all: exists b; destruct (x =? 10); f_equal; lia.
Qed.

Section Loops.
Context (amount : list Z -> Z -> Z) (Hread : honest amount).

Lemma read_splits input : 0 < amount input 512 ->
  input = take (Z.to_nat (amount input 512)) input ++ drop (Z.to_nat (amount input 512)) input /\
  (length (drop (Z.to_nat (amount input 512)) input) < length input)%nat /\
  Z.of_nat (length (take (Z.to_nat (amount input 512)) input)) = amount input 512.
Proof using Hread.
  intros Hn. destruct (Hread input 512 ltac:(done)) as [Hr _]. rewrite take_drop, length_drop, length_take. split; [done|lia].
Qed.

(** However read cuts the input, wc goes over it once. *)
Lemma wc_loop_ok fuel input k : (length input < fuel)%nat -> wc_loop amount fuel input k = Some (Some (foldl wc_char k input)).
Proof using Hread.
  revert input k. induction fuel as [|fuel IH]; intros input k Hf; [lia|]. cbn [wc_loop].
  destruct (Z.ltb_spec 0 (amount input 512)) as [Hn|Hn].
  - destruct (read_splits input Hn) as (Hs & Hl & _). rewrite IH by lia. by rewrite <- foldl_app, take_drop.
  - destruct (Hread input 512 ltac:(done)) as [Hr H0]. destruct (Z.ltb_spec (amount input 512) 0); [lia|].
    by rewrite (H0 ltac:(lia)).
Qed.

Lemma cat_loop_ok write fuel input out :
  (forall b, write b = Z.of_nat (length b)) -> (length input < fuel)%nat -> cat_loop amount write fuel input out = Some (out ++ input, true).
Proof using Hread.
  intros Hw. revert input out. induction fuel as [|fuel IH]; intros input out Hf; [lia|]. cbn [cat_loop].
  destruct (Z.ltb_spec 0 (amount input 512)) as [Hn|Hn].
  - destruct (read_splits input Hn) as (Hs & Hl & Ht). rewrite Hw, Ht, Z.eqb_refl, IH by lia. by rewrite <- app_assoc, take_drop.
  - destruct (Hread input 512 ltac:(done)) as [Hr H0]. rewrite (H0 ltac:(lia)), app_nil_r.
    destruct (Z.leb_spec 0 (amount [] 512)); [done|]. destruct (Hread [] 512 ltac:(done)). lia.
Qed.
End Loops.

(** ** fmtname *)

Lemma after_slash_spec dir base : 47 ∉ base -> (dir = [] \/ List.last dir 0 = 47) -> after_slash (reverse (dir ++ base)) [] = base.
Proof.
  intros Hb Hd. rewrite reverse_app.
  assert (forall r acc, 47 ∉ r -> after_slash (r ++ reverse dir) acc = reverse r ++ acc) as H.
  { induction r as [|c r IH]; intros acc Hr; cbn [app after_slash].
    - destruct Hd as [->|Hl]; [done|]. destruct dir as [|x dir] using rev_ind; [done|]. rewrite reverse_snoc. cbn.
      rewrite last_last in Hl. subst. done.
    - rewrite not_elem_of_cons in Hr. destruct Hr as [Hc Hr]. destruct (Z.eqb_spec c 47); [done|].
      rewrite IH by done. rewrite reverse_cons, <- app_assoc. done. }
  rewrite H; [by rewrite app_nil_r, reverse_involutive|]. by rewrite elem_of_reverse.
Qed.

Lemma ustrlen_length s : ustrlen s = Z.of_nat (length s).
Proof. induction s; cbn [ustrlen length]; lia. Qed.
