(* ===== verification/Sh.v ===== *)
(** * sh.c: the parser

    The command line is a buffer [buf] of characters followed by a NUL; a
    pointer into it is an index, and [es] is the index of the NUL.  The state
    of the parser is [*ps].  panic of the shell is [Panic]: it prints its
    message and exits.

    parseexec links a struct execcmd into the commands it returns and goes on
    filling in its arguments, so parseredirs here collects the redirections
    around a command that is not complete yet ([redirs], the innermost first)
    and [wrap] puts them around it when it is. *)

From S2P Require Import Prelude Ulib.

Local Open Scope c_scope.
Local Open Scope nat_scope.

(** [argv[i], eargv[i]], and a file name with its end *)
Abbreviation span := (nat * nat)%type.

Inductive cmd :=
| EXEC (args : list span)
| REDIR (c : cmd) (file efile : nat) (mode fd : Z)
| PIPE (left right : cmd)
| LIST (left right : cmd)
| BACK (c : cmd).

Definition MAXARGS : nat := 20.

Definition O_RDONLY : Z := 0.
Definition O_WRONLY_CREATE : Z := Z.lor 1 512.   (* O_WRONLY|O_CREATE *)

Record redir := mkRedir { rd_file : nat; rd_efile : nat; rd_mode : Z; rd_fd : Z }.

Definition redircmd (c : cmd) (r : redir) : cmd := REDIR c (rd_file r) (rd_efile r) (rd_mode r) (rd_fd r).
Definition wrap (c : cmd) (rs : list redir) : cmd := foldl redircmd c rs.

Definition whitespace : list Z := [32; 9; 13; 10; 11]%Z.           (* " \t\r\n\v" *)
Definition symbols : list Z := [60; 124; 62; 38; 59; 40; 41]%Z.    (* "<|>&;()" *)

Section Parser.
Context (buf : list Z).

Definition es : nat := length buf.

(** [*s], the NUL at the end included *)
Definition char (s : nat) : Z := nth s buf 0%Z.

(** [while(s < es && strchr(whitespace, *s)) s++]; [left] is es - s. *)
Fixpoint skip_space (left s : nat) : nat :=
  match left with
  | O => s
  | S left' => if among whitespace (char s) then skip_space left' (S s) else s
  end.

Definition skip (s : nat) : nat := skip_space (es - s) s.

Fixpoint skip_word (left s : nat) : nat :=
  match left with
  | O => s
  | S left' => if negb (among whitespace (char s)) && negb (among symbols (char s)) then skip_word left' (S s) else s
  end.

(** The token, *q and *eq *)
Definition gettoken : M nat (Z * nat * nat) := fun ps =>
  let s := skip ps in
  let c := char s in
  let '(ret, eq) :=
    if (c =? 0)%Z then (0%Z, s)
    else if among [124; 40; 41; 59; 38; 60]%Z c then (c, S s)
    else if (c =? 62)%Z then if (char (S s) =? 62)%Z then (43%Z, S (S s)) else (62%Z, S s)
    else (97%Z, skip_word (es - s) s) in
  Done (ret, s, eq) (skip eq).

Definition peek (toks : list Z) : M nat bool := fun ps =>
  let s := skip ps in
  Done (negb (char s =? 0)%Z && among toks (char s)) s.

(** [n] bounds the turns of the loop and, below, the depth of the calls. *)
Fixpoint parseredirs (n : nat) (rs : list redir) : M nat (list redir) :=
  match n with
  | O => out_of_fuel
  | S n' =>
      b <- peek [60; 62]%Z ;;
      if b then
        tok <- gettoken ;;
        t <- gettoken ;;
        let '(ret, q, eq) := t in
        if negb (ret =? 97)%Z then panic "missing file for redirection"
        else
          let rs' :=
            if (fst (fst tok) =? 60)%Z then rs ++ [mkRedir q eq O_RDONLY 0%Z]
            else if (fst (fst tok) =? 62)%Z then rs ++ [mkRedir q eq O_WRONLY_CREATE 1%Z]
            else if (fst (fst tok) =? 43)%Z then rs ++ [mkRedir q eq O_WRONLY_CREATE 1%Z]
            else rs in
          parseredirs n' rs'
      else ret rs
  end.

(** The loop of parseexec over the arguments *)
Fixpoint args_loop (n : nat) (args : list span) (rs : list redir) : M nat (list span * list redir) :=
  match n with
  | O => out_of_fuel
  | S n' =>
      b <- peek [124; 41; 38; 59]%Z ;;
      if b then ret (args, rs)
      else
        t <- gettoken ;;
        let '(tok, q, eq) := t in
        if (tok =? 0)%Z then ret (args, rs)
        else if negb (tok =? 97)%Z then panic "syntax"
        else
          let args' := args ++ [(q, eq)] in
          if MAXARGS <=? length args' then panic "too many args"
          else
            rs' <- parseredirs n' rs ;;
            args_loop n' args' rs'
  end.

(** The loop [while(peek(ps, es, "&"))] of parseline *)
Fixpoint back_loop (n : nat) (c : cmd) : M nat cmd :=
  match n with
  | O => out_of_fuel
  | S n' =>
      b <- peek [38]%Z ;;
      if b then gettoken ;; back_loop n' (BACK c) else ret c
  end.

Fixpoint parseline (n : nat) : M nat cmd :=
  match n with
  | O => out_of_fuel
  | S n' =>
      c <- parsepipe n' ;;
      c <- back_loop n' c ;;
      b <- peek [59]%Z ;;
      if b then gettoken ;; r <- parseline n' ;; ret (LIST c r)
      else ret c
  end
with parsepipe (n : nat) : M nat cmd :=
  match n with
  | O => out_of_fuel
  | S n' =>
      c <- parseexec n' ;;
      b <- peek [124]%Z ;;
      if b then gettoken ;; r <- parsepipe n' ;; ret (PIPE c r)
      else ret c
  end
with parseexec (n : nat) : M nat cmd :=
  match n with
  | O => out_of_fuel
  | S n' =>
      b <- peek [40]%Z ;;
      if b then parseblock n'
      else
        rs <- parseredirs n' [] ;;
        t <- args_loop n' [] rs ;;
        ret (wrap (EXEC (fst t)) (snd t))
  end
with parseblock (n : nat) : M nat cmd :=
  match n with
  | O => out_of_fuel
  | S n' =>
      b <- peek [40]%Z ;;
      if negb b then panic "parseblock"
      else
        gettoken ;;
        c <- parseline n' ;;
        b <- peek [41]%Z ;;
        if negb b then panic "syntax - missing )"
        else
          gettoken ;;
          rs <- parseredirs n' [] ;;
          ret (wrap c rs)
  end.

(** ** nulterminate: the positions where it stores a NUL, in order *)
Fixpoint nul_at (c : cmd) : list nat :=
  match c with
  | EXEC args => args.*2
  | REDIR c _ efile _ _ => nul_at c ++ [efile]
  | PIPE l r | LIST l r => nul_at l ++ nul_at r
  | BACK c => nul_at c
  end.

(** The buffer, its NUL included, after the stores *)
Definition nulterminate (c : cmd) : list Z := foldl (fun b p => <[p := 0%Z]> b) (buf ++ [0%Z]) (nul_at c).

(** Each character is consumed by a bounded number of nested calls. *)
Definition parse_fuel : nat := 4 * es + 8.

(** parsecmd: the command and the buffer with the strings terminated *)
Definition parsecmd : outcome nat (cmd * list Z) :=
  (c <- parseline parse_fuel ;;
   peek [] ;;
   s <- Prelude.gets (fun s => s) ;;
   if negb (s =? es) then panic "syntax"
   else ret (c, nulterminate c)) 0.
End Parser.

(** The string at a pointer *)
Fixpoint until_nul (l : list Z) : list Z :=
  match l with
  | [] => []
  | c :: l' => if (c =? 0)%Z then [] else c :: until_nul l'
  end.

Definition str_at (b : list Z) (p : nat) : list Z := until_nul (drop p b).
