(* ===== verification/ShParse.v ===== *)
(** * The parser of sh.c decides its grammar

    [toks s]: the tokens from position [s] on.  [Line]: the grammar of command
    lines over tokens, in BNF.  gettoken and peek read [toks]; the parser
    accepts exactly the lines of the grammar, always ends, and the words of the
    command are NUL-terminated strings when it returns. *)

From S2P Require Import Prelude Ulib UserProgs Sh.

Local Open Scope c_scope.
Local Open Scope nat_scope.

(** ** Tokens *)

Inductive token := Word (w : span) | Sym (c : Z).

Definition token_of (ret : Z) (q eq : nat) : token := if (ret =? 97)%Z then Word (q, eq) else Sym ret.

Section Lexer.
Context (buf : list Z) (Hnul : Forall (fun c => c <> 0%Z) buf).

Abbreviation char := (Sh.char buf).
Abbreviation es := (Sh.es buf).
Abbreviation skip := (Sh.skip buf).

(** The next token: its code (0 at the end), and where it starts and ends *)
Definition lex (ps : nat) : Z * nat * nat :=
  let s := skip ps in
  let c := char s in
  if (c =? 0)%Z then (0%Z, s, s)
  else if among [124; 40; 41; 59; 38; 60]%Z c then (c, s, S s)
  else if (c =? 62)%Z then if (char (S s) =? 62)%Z then (43%Z, s, S (S s)) else (62%Z, s, S s)
  else (97%Z, s, skip_word buf (es - s) s).

Lemma gettoken_lex ps : gettoken buf ps = Done (lex ps) (skip (lex ps).2).
Proof. unfold gettoken, lex. repeat case_match; simplify_eq/=; done. Qed.

Fixpoint toks_loop (n ps : nat) : list token :=
  match n with
  | O => []
  | S n' => let '(ret, q, eq) := lex ps in if (ret =? 0)%Z then [] else token_of ret q eq :: toks_loop n' (skip eq)
  end.

Definition toks (ps : nat) : list token := toks_loop (S (es - ps)) ps.

Lemma char_es s : es <= s -> char s = 0%Z.
Proof. apply nth_overflow. Qed.

Lemma char_nul s : s <= es -> char s = 0%Z -> s = es.
Proof using Hnul.
  intros Hs Hc. destruct (decide (s < es)) as [Hlt|]; [|unfold es in *; lia]. exfalso.
  destruct (lookup_lt_is_Some_2 buf s Hlt) as [c Hl]. rewrite Forall_lookup in Hnul. apply (Hnul s c Hl).
  unfold Sh.char in Hc. by rewrite (nth_lookup_Some _ _ _ _ Hl) in Hc.
Qed.

Lemma skip_space_spec left s : left = es - s ->
  s <= skip_space buf left s /\ (s <= es -> skip_space buf left s <= es) /\
  (forall k, s <= k < skip_space buf left s -> among whitespace (char k) = true) /\
  among whitespace (char (skip_space buf left s)) = false.
Proof.
  revert s. induction left as [|left IH]; intros s Hl; cbn [skip_space].
  - rewrite char_es by lia. split_and!; [lia|lia|lia|done].
  - destruct (among whitespace (char s)) eqn:E; [|split_and!; [lia|lia|lia|done]].
    destruct (IH (S s)) as (H1 & H2 & H3 & H4); [lia|]. split_and!; [lia|lia| |done].
    intros k Hk. destruct (decide (k = s)) as [->|]; [done|]. apply H3. lia.
Qed.

Lemma skip_ge s : s <= skip s.
Proof. by apply skip_space_spec. Qed.
Lemma skip_le s : s <= es -> skip s <= es.
Proof. by apply skip_space_spec. Qed.
Lemma skip_stop s : among whitespace (char (skip s)) = false.
Proof. by apply skip_space_spec. Qed.

Lemma skip_skip s : skip (skip s) = skip s.
Proof. pose proof (skip_stop s) as H. unfold Sh.skip at 1. destruct (es - skip s); cbn [skip_space]; [done|]. by rewrite H. Qed.

Lemma lex_skip s : lex (skip s) = lex s.
Proof. unfold lex. by rewrite skip_skip. Qed.

(** An ordinary character, of a word *)
Definition plain (c : Z) : Prop := (c ∉ whitespace) /\ (c ∉ symbols).

Lemma skip_word_spec left s : left = es - s -> s <= es ->
  s <= skip_word buf left s <= es /\
  (forall k, s <= k < skip_word buf left s -> plain (char k)) /\
  (skip_word buf left s < es -> ~ plain (char (skip_word buf left s))).
Proof.
  revert s. induction left as [|left IH]; intros s Hl Hs; cbn [skip_word]; [split_and!; intros; lia|].
  rewrite !among_spec. repeat case_bool_decide; cbn [negb andb]; try (split_and!; [lia..|intros; lia|unfold plain; tauto]).
  destruct (IH (S s)) as (H1 & H2 & H3); [lia..|]. split_and!; [lia|lia| |done].
  intros k Hk. destruct (decide (k = s)) as [->|]; [done|]. apply H2. lia.
Qed.

(** The characters from [q] to [eq] are a word. *)
Definition word_at (w : span) : Prop :=
  w.1 < w.2 <= es /\ (forall k, w.1 <= k < w.2 -> plain (char k)) /\ (w.2 < es -> ~ plain (char w.2)).

(** What lex returns *)
Inductive lexed (ps : nat) : Z * nat * nat -> Prop :=
| lexed_end : skip ps = es -> lexed ps (0%Z, es, es)
| lexed_sym c : c ∈ [124; 40; 41; 59; 38; 60]%Z -> char (skip ps) = c -> skip ps < es -> lexed ps (c, skip ps, S (skip ps))
| lexed_gt : char (skip ps) = 62%Z -> skip ps < es -> lexed ps (62%Z, skip ps, S (skip ps))
| lexed_append : char (skip ps) = 62%Z -> S (skip ps) < es -> lexed ps (43%Z, skip ps, S (S (skip ps)))
| lexed_word eq : word_at (skip ps, eq) -> lexed ps (97%Z, skip ps, eq).

Lemma lex_lexed ps : ps <= es -> lexed ps (lex ps).
Proof using Hnul.
  intros Hps. pose proof (skip_le ps Hps) as Hle. pose proof (skip_stop ps) as Hw. unfold lex.
  destruct (Z.eqb_spec (char (skip ps)) 0) as [H0|H0]; [rewrite (char_nul _ Hle H0); constructor; by apply char_nul|].
  assert (skip ps < es) as Hlt by (destruct (decide (skip ps = es)) as [He|]; [by rewrite He, char_es in H0|lia]).
  rewrite among_spec in *. apply bool_decide_eq_false in Hw. case_bool_decide as Hc; [by constructor|].
  destruct (Z.eqb_spec (char (skip ps)) 62) as [H62|H62].
  - destruct (Z.eqb_spec (char (S (skip ps))) 62) as [H1|]; [|by constructor]. constructor; [done|].
    destruct (decide (S (skip ps) = es)) as [He|]; [by rewrite He, char_es in H1|lia].
  - constructor. destruct (skip_word_spec (es - skip ps) (skip ps) eq_refl Hle) as (H1 & H2 & H3).
    assert (plain (char (skip ps))) as Hp.
    { split; [done|]. unfold symbols. set_solver. }
    split; [cbn|done]. split; [|lia]. destruct (decide (skip_word buf (es - skip ps) (skip ps) = skip ps)) as [He|]; [|lia].
    rewrite He in H3. by destruct (H3 Hlt).
Qed.

Lemma lexed_bounds ps t : ps <= es -> lexed ps t -> skip ps = t.1.2 /\ t.1.2 <= t.2 <= es /\ (t.1.1 = 0%Z <-> t.2 = t.1.2) /\ (t.1.1 = 0%Z -> t.2 = es).
Proof.
  intros Hps []; cbn; pose proof (skip_le ps Hps).
  - split_and!; (done || lia).
  - assert (c <> 0%Z) by (rewrite !elem_of_cons, elem_of_nil in *; lia). split_and!; lia.
  - split_and!; lia.
  - split_and!; lia.
  - destruct H as ((? & ?) & _). cbn in *. split_and!; lia.
Qed.

(** ** The token list *)

Lemma toks_loop_more n ps : ps <= es -> es - ps < n -> toks_loop n ps = toks ps.
Proof using Hnul.
  intros Hps Hn. assert (forall m n ps, ps <= es -> es - ps < n -> es - ps < m -> toks_loop n ps = toks_loop m ps) as Haux.
  { clear Hps Hn. clear n ps. induction m as [|m IH]; intros n ps Hps Hn Hm; [lia|]. destruct n as [|n]; [lia|]. cbn [toks_loop].
    pose proof (lexed_bounds _ _ Hps (lex_lexed ps Hps)) as (H1 & H2 & H3 & _). destruct (lex ps) as [[ret q] eq]. cbn in *.
    destruct (Z.eqb_spec ret 0); [done|]. f_equal. pose proof (skip_ge ps). pose proof (skip_ge eq).
    pose proof (skip_le eq ltac:(lia)). assert (q <> eq) by (intros ->; tauto). apply IH; lia. }
  apply Haux; lia.
Qed.

Lemma toks_unfold ps : ps <= es ->
  toks ps = if (((lex ps).1.1 =? 0)%Z) then [] else token_of (lex ps).1.1 (lex ps).1.2 (lex ps).2 :: toks (skip (lex ps).2).
Proof using Hnul.
  intros Hps. unfold toks at 1. cbn [toks_loop].
  pose proof (lexed_bounds _ _ Hps (lex_lexed ps Hps)) as (H1 & H2 & H3 & _). destruct (lex ps) as [[ret q] eq]. cbn in *.
  destruct (Z.eqb_spec ret 0); [done|]. f_equal. pose proof (skip_ge ps). pose proof (skip_ge eq).
  pose proof (skip_le eq ltac:(lia)). assert (q <> eq) by (intros ->; tauto). apply toks_loop_more; lia.
Qed.

Lemma toks_skip ps : ps <= es -> toks (skip ps) = toks ps.
Proof using Hnul. intros Hps. rewrite (toks_unfold (skip ps)), (toks_unfold ps) by (done || by apply skip_le). by rewrite lex_skip. Qed.

(** Position [s] has the tokens [ts] before it. *)
Definition ahead (ts : list token) (s : nat) : Prop := s <= es /\ toks s = ts.

Definition sym_char (c : Z) : Z := if (c =? 43)%Z then 62%Z else c.

Definition heads (T : list Z) (ts : list token) : bool :=
  match ts with Sym c :: _ => bool_decide (sym_char c ∈ T) | _ => false end.

Lemma peek_ahead T ts s : ahead ts s -> T ⊆ symbols -> exists s', peek buf T s = Done (heads T ts) s' /\ ahead ts s'.
Proof using Hnul.
  intros [Hs Ht] HT. exists (skip s). unfold peek. rewrite among_spec. split; [|by split; [apply skip_le|rewrite toks_skip]].
  f_equal. rewrite <- Ht, toks_unfold by done.
  destruct (lex_lexed s Hs) as [He|c Hc Hch Hlt|Hch Hlt|Hch Hlt|eq Hw]; cbn.
  - by rewrite He, char_es.
  - unfold token_of. assert (c <> 0 /\ c <> 97 /\ c <> 43)%Z as (H1 & H2 & H3) by (rewrite !elem_of_cons, elem_of_nil in Hc; lia).
    rewrite Hch. destruct (Z.eqb_spec c 0), (Z.eqb_spec c 97); try done. cbn. unfold sym_char. by destruct (Z.eqb_spec c 43).
  - by rewrite Hch.
  - by rewrite Hch.
  - destruct Hw as (H1 & H2 & _). cbn in *. destruct (H2 (skip s)) as [_ Hp]; [lia|].
    rewrite (bool_decide_eq_false_2 (_ ∈ T)) by set_solver. by rewrite andb_false_r.
Qed.

Lemma gettoken_end s : ahead [] s -> gettoken buf s = Done (0%Z, es, es) (skip es).
Proof using Hnul.
  intros [Hs Ht]. rewrite gettoken_lex. rewrite toks_unfold in Ht by done.
  destruct (lex_lexed s Hs); cbn in *; try done. by destruct (Z.eqb_spec c 0); [rewrite !elem_of_cons, elem_of_nil in *; lia|].
Qed.

Lemma gettoken_ahead t ts s : ahead (t :: ts) s ->
  exists ret q eq s', gettoken buf s = Done (ret, q, eq) s' /\ ahead ts s' /\ ret <> 0%Z /\ t = token_of ret q eq /\ (ret = 97%Z -> word_at (q, eq)).
Proof using Hnul.
  intros [Hs Ht]. rewrite gettoken_lex. rewrite toks_unfold in Ht by done.
  pose proof (lex_lexed s Hs) as Hl. pose proof (lexed_bounds _ _ Hs Hl) as (_ & [_ Hle] & _ & _).
  destruct (lex s) as [[ret q] eq] eqn:E. cbn in *. destruct (Z.eqb_spec ret 0); [done|]. injection Ht as Hh Htl.
  exists ret, q, eq, (skip eq). split_and!; try done; [by split; [apply skip_le|]|].
  intros ->. inversion Hl; subst; [rewrite !elem_of_cons, elem_of_nil in *; lia|done].
Qed.
End Lexer.

(** ** The grammar *)

Inductive Redirs : list token -> list redir -> Prop :=
| Redirs_nil : Redirs [] []
| Redirs_in q eq ts rs : Redirs ts rs -> Redirs (Sym 60 :: Word (q, eq) :: ts) (mkRedir q eq O_RDONLY 0 :: rs)
| Redirs_out c q eq ts rs : c = 62%Z \/ c = 43%Z -> Redirs ts rs ->
    Redirs (Sym c :: Word (q, eq) :: ts) (mkRedir q eq O_WRONLY_CREATE 1 :: rs).

Inductive Args : list token -> list span -> list redir -> Prop :=
| Args_nil : Args [] [] []
| Args_word w ts1 rs1 ts2 args rs2 :
    Redirs ts1 rs1 -> Args ts2 args rs2 -> Args (Word w :: ts1 ++ ts2) (w :: args) (rs1 ++ rs2).

Fixpoint backs (n : nat) (c : cmd) : cmd := match n with O => c | S n' => backs n' (BACK c) end.

Inductive Line : list token -> cmd -> Prop :=
| Line_one ts c n : Pipe ts c -> Line (ts ++ repeat (Sym 38) n) (backs n c)
| Line_list ts c n us d : Pipe ts c -> Line us d -> Line (ts ++ repeat (Sym 38) n ++ Sym 59 :: us) (LIST (backs n c) d)
with Pipe : list token -> cmd -> Prop :=
| Pipe_one ts c : Exec ts c -> Pipe ts c
| Pipe_pipe ts c us d : Exec ts c -> Pipe us d -> Pipe (ts ++ Sym 124 :: us) (PIPE c d)
with Exec : list token -> cmd -> Prop :=
| Exec_simple ts0 rs0 ts1 args rs1 : Redirs ts0 rs0 -> Args ts1 args rs1 -> length args < MAXARGS ->
    Exec (ts0 ++ ts1) (wrap (EXEC args) (rs0 ++ rs1))
| Exec_block ts c ts1 rs : Line ts c -> Redirs ts1 rs -> Exec (Sym 40 :: ts ++ Sym 41 :: ts1) (wrap c rs).

Scheme Line_mut := Minimality for Line Sort Prop
with Pipe_mut := Minimality for Pipe Sort Prop
with Exec_mut := Minimality for Exec Sort Prop.
Combined Scheme grammar_ind from Line_mut, Pipe_mut, Exec_mut.

Definition sh_fault (f : fault) : Prop :=
  exists msg, f = FPanic msg /\ msg ∈ ["missing file for redirection"; "syntax"; "too many args"; "syntax - missing )"].

Section Parser.
Context (buf : list Z) (Hnul : Forall (fun c => c <> 0%Z) buf).

Abbreviation ahead := (ahead buf).

Section Steps.
Context (F : fault -> Prop).

Lemma wpeek {A} T ts s (k : bool -> M nat A) Q :
  ahead ts s -> T ⊆ symbols -> (forall s', ahead ts s' -> wpf F (k (heads T ts)) Q s') -> wpf F (bind (peek buf T) k) Q s.
Proof using Hnul. intros Ha HT Hk. destruct (peek_ahead buf Hnul T ts s Ha HT) as (s' & He & Ha'). eapply wpf_step; [exact He|auto]. Qed.

Lemma wtok {A} t ts s (k : Z * nat * nat -> M nat A) Q :
  ahead (t :: ts) s ->
  (forall r q eq s', ahead ts s' -> r <> 0%Z -> t = token_of r q eq -> wpf F (k (r, q, eq)) Q s') -> wpf F (bind (gettoken buf) k) Q s.
Proof using Hnul.
  intros Ha Hk. destruct (gettoken_ahead buf Hnul t ts s Ha) as (r & q & eq & s' & He & Ha' & Hr & Ht & _). eapply wpf_step; [exact He|auto].
Qed.

Lemma wtok_end {A} s (k : Z * nat * nat -> M nat A) Q :
  ahead [] s -> (forall t s', ahead [] s' -> t.1.1 = 0%Z -> wpf F (k t) Q s') -> wpf F (bind (gettoken buf) k) Q s.
Proof using Hnul.
  intros Ha Hk. eapply wpf_step; [by apply gettoken_end|]. apply Hk; [|done].
  assert (skip buf (es buf) = es buf) as -> by (unfold skip; by rewrite Nat.sub_diag).
  split; [done|]. unfold toks. rewrite Nat.sub_diag. cbn [toks_loop]. unfold lex.
  assert (skip buf (es buf) = es buf) as -> by (unfold skip; by rewrite Nat.sub_diag). by rewrite char_es.
Qed.
End Steps.

(** The codes of tokens *)
Lemma token_word w r q eq : Word w = token_of r q eq -> r = 97%Z /\ w = (q, eq).
Proof. unfold token_of. destruct (Z.eqb_spec r 97); naive_solver. Qed.
Lemma token_sym c r q eq : Sym c = token_of r q eq -> r = c /\ c <> 97%Z.
Proof. unfold token_of. destruct (Z.eqb_spec r 97); naive_solver. Qed.

Lemma heads_sym T ts : heads T ts = true -> exists c us, ts = Sym c :: us /\ sym_char c ∈ T.
Proof. destruct ts as [|[w|c] ts]; try done. cbn. intros H%bool_decide_eq_true. eauto. Qed.

Lemma heads_in T c ts : sym_char c ∈ T -> heads T (Sym c :: ts) = true.
Proof. apply bool_decide_eq_true_2. Qed.

(** A head in a set of one symbol *)
Lemma heads_one c ts : heads [c] ts = true -> c <> 62%Z -> exists us, ts = Sym c :: us.
Proof.
  intros (d & us & -> & Hd%list_elem_of_singleton)%heads_sym Hc. exists us. unfold sym_char in Hd. destruct (Z.eqb_spec d 43); congruence.
Qed.

Ltac subsym := intros ?; rewrite !elem_of_cons; set_solver.

Lemma parseredirs_sound n ts rs s :
  ahead ts s -> length ts < n ->
  wpf sh_fault (parseredirs buf n rs) (fun rs' s' => exists us rest rs2, ts = us ++ rest /\ ahead rest s' /\
    Redirs us rs2 /\ rs' = rs ++ rs2) s.
Proof using Hnul.
  revert ts rs s. induction n as [|n IH]; intros ts rs s Ha Hn; [lia|]. cbn [parseredirs].
  eapply wpeek; [exact Ha|subsym|]. intros s1 Ha1. destruct (heads _ ts) eqn:Hh; cycle 1.
  { eapply wpf_done; [reflexivity|]. exists [], ts, []. split_and!; try done; [constructor|by rewrite app_nil_r]. }
  apply heads_sym in Hh as (c & us & -> & Hc). eapply wtok; [exact Ha1|]. intros r q eq s2 Ha2 Hr [-> Hc97]%token_sym.
  destruct us as [|t us].
  { eapply wtok_end; [exact Ha2|]. intros [[r' q'] eq'] s3 _ H0. cbn in H0. subst r'. eexists. split; [reflexivity|set_solver]. }
  eapply wtok; [exact Ha2|]. intros r q' eq' s3 Ha3 Hr' Ht. destruct (Z.eqb_spec r 97) as [->|Hn97]; cbn [negb].
  2: { eexists. split; [reflexivity|set_solver]. }
  unfold token_of in Ht. cbn in Ht. subst t. cbn [fst]. cbn in Hn. unfold sym_char in Hc. rewrite !elem_of_cons, elem_of_nil in Hc.
  destruct (Z.eqb_spec c 60) as [->|]; [|destruct (Z.eqb_spec c 62) as [->|]; [|destruct (Z.eqb_spec c 43) as [->|]; [|lia]]].
  all: eapply wpf_mono; [apply IH; [exact Ha3|lia]|]; intros rs' s4 (us' & rest & rs2 & -> & Ha4 & Hred & ->).
  all: eexists (_ :: _ :: us'), rest, (_ :: rs2); split_and!; [reflexivity|done| |by rewrite <- app_assoc].
  1: by constructor. all: constructor; [tauto|done].
Qed.

Lemma args_loop_sound n ts args rs s :
  ahead ts s -> length ts < n -> length args < MAXARGS ->
  wpf sh_fault (args_loop buf n args rs) (fun r s' => exists us rest args2 rs2, ts = us ++ rest /\ ahead rest s' /\
    Args us args2 rs2 /\ r = (args ++ args2, rs ++ rs2) /\ length (args ++ args2) < MAXARGS) s.
Proof using Hnul.
  revert ts args rs s. induction n as [|n IH]; intros ts args rs s Ha Hn Hl; [lia|]. cbn [args_loop].
  assert (forall s1, ahead ts s1 -> exists us rest args2 rs2, ts = us ++ rest /\ ahead rest s1 /\ Args us args2 rs2 /\
    (args, rs) = (args ++ args2, rs ++ rs2) /\ length (args ++ args2) < MAXARGS) as Hstop.
  { intros s1 Ha1. exists [], ts, [], []. rewrite !app_nil_r. split_and!; try done. constructor. }
  eapply wpeek; [exact Ha|subsym|]. intros s1 Ha1. destruct (heads _ ts) eqn:Hh; [eapply wpf_done; [reflexivity|auto]|].
  destruct ts as [|t ts].
  { eapply wtok_end; [exact Ha1|]. intros [[r q] eq] s2 Ha2 H0. cbn in H0. subst r. eapply wpf_done; [reflexivity|auto]. }
  eapply wtok; [exact Ha1|]. intros r q eq s2 Ha2 Hr Ht. destruct (Z.eqb_spec r 0); [done|].
  destruct (Z.eqb_spec r 97) as [->|Hn97]; cbn [negb]; [|eexists; split; [reflexivity|set_solver]].
  unfold token_of in Ht. cbn in Ht. subst t. cbn in Hn. destruct (Nat.leb_spec MAXARGS (length (args ++ [(q, eq)]))) as [|Hlt].
  { eexists. split; [reflexivity|set_solver]. }
  apply wpf_bind. eapply wpf_mono; [apply parseredirs_sound; [exact Ha2|lia]|]. intros rs' s3 (us & rest & rs2 & -> & Ha3 & Hred & ->).
  rewrite length_app in Hn. eapply wpf_mono; [apply IH; [exact Ha3|lia|done]|].
  intros r s4 (us' & rest' & args2 & rs3 & -> & Ha4 & Hargs & -> & Hlen).
  exists (Word (q, eq) :: us ++ us'), rest', ((q, eq) :: args2), (rs2 ++ rs3). rewrite <- !app_assoc in *.
  split_and!; [cbn; by rewrite <- app_assoc|done|by constructor|done|done].
Qed.

Lemma back_loop_sound n ts c s :
  ahead ts s -> length ts < n ->
  wpf sh_fault (back_loop buf n c) (fun r s' => exists k rest, ts = repeat (Sym 38) k ++ rest /\ ahead rest s' /\ r = backs k c) s.
Proof using Hnul.
  revert ts c s. induction n as [|n IH]; intros ts c s Ha Hn; [lia|]. cbn [back_loop].
  eapply wpeek; [exact Ha|subsym|]. intros s1 Ha1. destruct (heads _ ts) eqn:Hh; [|eapply wpf_done; [reflexivity|by exists 0, ts]].
  apply heads_one in Hh as [us ->]; [|done]. eapply wtok; [exact Ha1|]. intros r q eq s2 Ha2 _ _. cbn in Hn.
  eapply wpf_mono; [apply IH; [exact Ha2|lia]|]. intros c' s3 (k & rest & -> & Ha3 & ->). by exists (S k), rest.
Qed.

(** A prefix of [ts] is consumed that the grammar derives. *)
Definition derives (G : list token -> cmd -> Prop) (ts : list token) (c : cmd) (s' : nat) : Prop :=
  exists us rest, ts = us ++ rest /\ ahead rest s' /\ G us c.

Lemma parse_sound n :
  (forall ts s, ahead ts s -> 4 * length ts + 4 <= n -> wpf sh_fault (parseline buf n) (derives Line ts) s) /\
  (forall ts s, ahead ts s -> 4 * length ts + 3 <= n -> wpf sh_fault (parsepipe buf n) (derives Pipe ts) s) /\
  (forall ts s, ahead ts s -> 4 * length ts + 2 <= n -> wpf sh_fault (parseexec buf n) (derives Exec ts) s) /\
  (forall ts s, ahead ts s -> 4 * length ts + 1 <= n -> heads [40%Z] ts = true -> wpf sh_fault (parseblock buf n) (derives Exec ts) s).
Proof using Hnul.
  induction n as [|n (IHl & IHp & IHe & IHb)]; [split_and!; intros; lia|]. split_and!; intros ts s Ha Hn; cbn -[Nat.mul].
  - apply wpf_bind. eapply wpf_mono; [apply IHp; [exact Ha|lia]|]. intros c s1 (us & rest & -> & Ha1 & Hp). rewrite length_app in Hn.
    apply wpf_bind. eapply wpf_mono; [apply back_loop_sound; [exact Ha1|lia]|]. intros c' s2 (k & rest' & -> & Ha2 & ->).
    rewrite length_app in Hn. eapply wpeek; [exact Ha2|subsym|]. intros s3 Ha3. destruct (heads _ rest') eqn:Hh; cycle 1.
    { eapply wpf_done; [reflexivity|]. eexists _, rest'. split_and!; [by rewrite app_assoc|done|by constructor]. }
    apply heads_one in Hh as [vs ->]; [|done]. cbn in Hn. eapply wtok; [exact Ha3|]. intros r q eq s4 Ha4 _ _.
    apply wpf_bind. eapply wpf_mono; [apply IHl; [exact Ha4|lia]|]. intros d s5 (xs & rest & -> & Ha5 & Hl).
    eapply wpf_done; [reflexivity|]. eexists _, rest. split_and!; [|done|by apply Line_list; [exact Hp|exact Hl]]. by rewrite <- !app_assoc.
  - apply wpf_bind. eapply wpf_mono; [apply IHe; [exact Ha|lia]|]. intros c s1 (us & rest & -> & Ha1 & Hp). rewrite length_app in Hn.
    eapply wpeek; [exact Ha1|subsym|]. intros s2 Ha2. destruct (heads _ rest) eqn:Hh; cycle 1.
    { eapply wpf_done; [reflexivity|]. eexists us, rest. split_and!; [done..|by constructor]. }
    apply heads_one in Hh as [vs ->]; [|done]. cbn in Hn. eapply wtok; [exact Ha2|]. intros r q eq s3 Ha3 _ _.
    apply wpf_bind. eapply wpf_mono; [apply IHp; [exact Ha3|lia]|]. intros d s4 (xs & rest & -> & Ha4 & Hl).
    eapply wpf_done; [reflexivity|]. eexists _, rest. split_and!; [|done|by apply Pipe_pipe; [exact Hp|exact Hl]]. by rewrite <- app_assoc.
  - eapply wpeek; [exact Ha|subsym|]. intros s1 Ha1. destruct (heads _ ts) eqn:Hh; [apply IHb; [done|lia|done]|].
    apply wpf_bind. eapply wpf_mono; [apply parseredirs_sound; [exact Ha1|lia]|]. intros rs s2 (us & rest & rs2 & -> & Ha2 & Hr & ->).
    rewrite length_app in Hn. apply wpf_bind. eapply wpf_mono; [apply args_loop_sound; [exact Ha2|lia|unfold MAXARGS; cbn; lia]|].
    intros r s3 (us' & rest' & args & rs3 & -> & Ha3 & Hargs & -> & Hlen). eapply wpf_done; [reflexivity|].
    eexists _, rest'. split_and!; [by rewrite app_assoc|done|by constructor].
  - intros Hh. eapply wpeek; [exact Ha|subsym|]. intros s1 Ha1. rewrite Hh. cbn [negb]. apply heads_one in Hh as [us ->]; [|done].
    cbn in Hn. eapply wtok; [exact Ha1|]. intros r q eq s2 Ha2 _ _. apply wpf_bind. eapply wpf_mono; [apply IHl; [exact Ha2|lia]|].
    intros c s3 (vs & rest & -> & Ha3 & Hl). rewrite length_app in Hn. eapply wpeek; [exact Ha3|subsym|]. intros s4 Ha4.
    destruct (heads _ rest) eqn:Hh; cbn [negb]; [|eexists; split; [reflexivity|set_solver]]. apply heads_one in Hh as [xs ->]; [|done].
    cbn in Hn. eapply wtok; [exact Ha4|]. intros r' q' eq' s5 Ha5 _ _. apply wpf_bind.
    eapply wpf_mono; [apply parseredirs_sound; [exact Ha5|lia]|]. intros rs s6 (ys & rest & rs2 & -> & Ha6 & Hr & ->).
    eapply wpf_done; [reflexivity|]. eexists _, rest. split_and!; [|done|by constructor]. cbn. by rewrite <- app_assoc.
Qed.

(** ** Completeness: what follows a part of a line tells the parser to stop. *)

Definition stops (T : list Z) (ts : list token) : Prop := ts = [] \/ heads T ts = true.

Lemma stops_weaken T T' ts : stops T ts -> T ⊆ T' -> stops T' ts.
Proof.
  intros [->|(c & us & -> & Hc)%heads_sym] HT; [by left|]. right. apply heads_in. set_solver.
Qed.

Lemma stops_not T T' ts : stops T ts -> (forall c, c ∈ T -> c ∉ T') -> heads T' ts = false.
Proof. intros [->|(c & us & -> & Hc)%heads_sym] HT; [done|]. apply bool_decide_eq_false. auto. Qed.

Ltac apart := intros ?; rewrite !elem_of_cons, elem_of_nil; lia.

Abbreviation total := (wpf (fun _ => False)).

Lemma parseredirs_complete us rs2 n rest rs s :
  Redirs us rs2 -> ahead (us ++ rest) s -> heads [60; 62]%Z rest = false -> length (us ++ rest) < n ->
  total (parseredirs buf n rs) (fun r s' => r = rs ++ rs2 /\ ahead rest s') s.
Proof using Hnul.
  intros Hr. revert n rs s. induction Hr as [|q eq ts rs2 Hr IH|c q eq ts rs2 Hc Hr IH]; intros n rs s Ha Hh Hn;
    (destruct n as [|n]; [lia|]); cbn [parseredirs]; (eapply wpeek; [exact Ha|subsym|]); intros s1 Ha1.
  { cbn [app]. rewrite Hh. eapply wpf_done; [reflexivity|]. by rewrite app_nil_r. }
  all: rewrite ?app_comm_cons; cbn [app] in Ha1, Hn |- *; cbn [length] in Hn.
  - rewrite heads_in by set_solver. eapply wtok; [exact Ha1|]. intros r q1 eq1 s2 Ha2 _ [-> _]%token_sym.
    eapply wtok; [exact Ha2|]. intros r q2 eq2 s3 Ha3 _ [-> [= -> ->]]%token_word. cbn [fst Z.eqb Pos.eqb negb].
    eapply wpf_mono; [apply IH; [exact Ha3|done|lia]|]. intros r s4 [-> Ha4]. cbv beta. by rewrite <- app_assoc.
  - rewrite heads_in by (destruct Hc as [-> | ->]; set_solver).
    eapply wtok; [exact Ha1|]. intros r q1 eq1 s2 Ha2 _ [-> _]%token_sym.
    eapply wtok; [exact Ha2|]. intros r q2 eq2 s3 Ha3 _ [-> [= -> ->]]%token_word. cbn [fst].
    assert ((if (c =? 60)%Z then rs ++ [mkRedir q2 eq2 O_RDONLY 0%Z] else if (c =? 62)%Z then rs ++ [mkRedir q2 eq2 O_WRONLY_CREATE 1%Z]
      else if (c =? 43)%Z then rs ++ [mkRedir q2 eq2 O_WRONLY_CREATE 1%Z] else rs) = rs ++ [mkRedir q2 eq2 O_WRONLY_CREATE 1%Z]) as ->
      by (by destruct Hc as [-> | ->]).
    eapply wpf_mono; [apply IH; [exact Ha3|done|lia]|]. intros r s4 [-> Ha4]. cbv beta. by rewrite <- app_assoc.
Qed.

Lemma args_no_redir us args rs rest T : Args us args rs -> stops [124; 41; 38; 59]%Z rest ->
  (forall c, c ∈ [124; 41; 38; 59]%Z -> c ∉ T) -> heads T (us ++ rest) = false.
Proof. intros [] Hs HT; [by eapply stops_not|done]. Qed.

Lemma args_loop_complete us args2 rs2 n rest args rs s :
  Args us args2 rs2 -> ahead (us ++ rest) s -> stops [124; 41; 38; 59]%Z rest -> length (us ++ rest) < n ->
  length (args ++ args2) < MAXARGS ->
  total (args_loop buf n args rs) (fun r s' => r = (args ++ args2, rs ++ rs2) /\ ahead rest s') s.
Proof using Hnul.
  intros Hargs. revert n args rs s. induction Hargs as [|w ts1 rs1 ts2 args2 rs2 Hr Ha2 IH]; intros n args rs s Ha Hs Hn Hl;
    (destruct n as [|n]; [lia|]); cbn [args_loop]; (eapply wpeek; [exact Ha|subsym|]); intros s1 Ha1.
  - cbn [app] in *. rewrite !app_nil_r. destruct (heads _ rest) eqn:Hh; [by eapply wpf_done|].
    destruct Hs as [->|Hs]; [|congruence]. eapply wtok_end; [exact Ha1|]. intros [[r q] eq] s2 Ha2 H0. cbn in H0. subst r. by eapply wpf_done.
  - cbn [app heads]. rewrite <- app_comm_cons, <- app_assoc in Ha1. eapply wtok; [exact Ha1|]. intros r q eq s2 Ha3 _ [-> ->]%token_word. cbn [Z.eqb Pos.eqb negb].
    cbn [app length] in Hn. rewrite <- app_assoc in *. rewrite !length_app in Hn.
    destruct (Nat.leb_spec MAXARGS (length (args ++ [(q, eq)]))) as [Hbad|_]; [rewrite !length_app in *; cbn in *; lia|].
    apply wpf_bind. eapply wpf_mono; [eapply parseredirs_complete; [exact Hr|exact Ha3|eapply args_no_redir; [done..|apart]|rewrite !length_app; lia]|].
    intros rs' s3 [-> Ha4]. eapply wpf_mono; [apply IH; [exact Ha4|done|rewrite length_app; lia|by rewrite <- app_assoc]|].
    intros r s4 [-> Ha5]. cbv beta. by rewrite <- !app_assoc.
Qed.

Lemma back_loop_complete k n rest c s :
  ahead (repeat (Sym 38) k ++ rest) s -> heads [38]%Z rest = false -> k + length rest < n ->
  total (back_loop buf n c) (fun r s' => r = backs k c /\ ahead rest s') s.
Proof using Hnul.
  revert n c s. induction k as [|k IH]; intros n c s Ha Hh Hn; (destruct n as [|n]; [lia|]); cbn [back_loop];
    (eapply wpeek; [exact Ha|subsym|]); intros s1 Ha1.
  - cbn [repeat app]. rewrite Hh. by eapply wpf_done.
  - cbn [repeat app] in *. rewrite heads_in by set_solver. eapply wtok; [exact Ha1|]. intros r q eq s2 Ha2 _ _.
    apply IH; [done|done|lia].
Qed.

Definition parses (G : nat -> M nat cmd) (extra : nat) (follow : list Z) (us : list token) (c : cmd) : Prop :=
  forall n rest s, ahead (us ++ rest) s -> stops follow rest -> 4 * length (us ++ rest) + extra <= n ->
    total (G n) (fun c' s' => c' = c /\ ahead rest s') s.

Lemma line_tail us c k n rest s (m : cmd -> M nat cmd) Q :
  parses (parsepipe buf) 3 [38; 59; 41]%Z us c -> ahead (us ++ repeat (Sym 38) k ++ rest) s ->
  stops [59; 41]%Z rest -> 4 * (length us + (k + length rest)) + 3 <= n ->
  (forall s', ahead rest s' -> total (m (backs k c)) Q s') ->
  total (c <- parsepipe buf n ;; c <- back_loop buf n c ;; m c) Q s.
Proof using Hnul.
  intros Hp Ha Hs Hn Hm. apply wpf_bind. eapply wpf_mono; [apply Hp; [exact Ha| |]|].
  { destruct k; cbn [repeat app]; [eapply stops_weaken; [exact Hs|set_solver]|]. right. apply heads_in. set_solver. }
  { rewrite !length_app, repeat_length. lia. }
  intros c1 s1 [-> Ha1]. apply wpf_bind. eapply wpf_mono; [apply (back_loop_complete k); [exact Ha1| |lia]|].
  { eapply stops_not; [exact Hs|apart]. }
  intros c2 s2 [-> Ha2]. auto.
Qed.

Lemma grammar_complete :
  (forall us c, Line us c -> parses (parseline buf) 4 [41]%Z us c) /\
  (forall us c, Pipe us c -> parses (parsepipe buf) 3 [38; 59; 41]%Z us c) /\
  (forall us c, Exec us c -> parses (parseexec buf) 2 [124; 38; 59; 41]%Z us c).
Proof using Hnul.
  apply grammar_ind.
  - intros ts c k _ IH n rest s Ha Hs Hn. destruct n as [|n]; [lia|]. cbn -[Nat.mul]. rewrite <- app_assoc in Ha.
    rewrite !length_app, repeat_length in Hn. eapply line_tail; [exact IH|exact Ha|eapply stops_weaken; [exact Hs|set_solver]|lia|].
    intros s1 Ha1. eapply wpeek; [exact Ha1|subsym|]. intros s2 Ha2. rewrite (stops_not _ _ _ Hs) by apart. by eapply wpf_done.
  - intros ts c k us d _ IHp _ IHl n rest s Ha Hs Hn. destruct n as [|n]; [lia|]. cbn -[Nat.mul]. rewrite <- !app_assoc in Ha. cbn [app] in Ha.
    rewrite !length_app, repeat_length in Hn. cbn [length] in Hn.
    eapply line_tail; [exact IHp|exact Ha|right; apply heads_in; set_solver|cbn [length]; rewrite length_app; lia|].
    intros s1 Ha1. eapply wpeek; [exact Ha1|subsym|]. intros s2 Ha2. rewrite heads_in by set_solver.
    eapply wtok; [exact Ha2|]. intros r q eq s3 Ha3 _ _. apply wpf_bind.
    eapply wpf_mono; [apply IHl; [exact Ha3|exact Hs|rewrite length_app; lia]|]. intros d' s4 [-> Ha4]. by eapply wpf_done.
  - intros ts c _ IH n rest s Ha Hs Hn. destruct n as [|n]; [lia|]. cbn -[Nat.mul].
    apply wpf_bind. eapply wpf_mono; [apply IH; [exact Ha|eapply stops_weaken; [exact Hs|set_solver]|lia]|]. intros c' s1 [-> Ha1].
    eapply wpeek; [exact Ha1|subsym|]. intros s2 Ha2. rewrite (stops_not _ _ _ Hs) by apart. by eapply wpf_done.
  - intros ts c us d _ IHe _ IHp n rest s Ha Hs Hn. destruct n as [|n]; [lia|]. cbn -[Nat.mul]. rewrite <- app_assoc in Ha. cbn [app] in Ha.
    rewrite !length_app in Hn. cbn [length] in Hn. apply wpf_bind.
    eapply wpf_mono; [apply IHe; [exact Ha|right; apply heads_in; set_solver|rewrite !length_app; cbn [length]; rewrite length_app; lia]|].
    intros c' s1 [-> Ha1]. eapply wpeek; [exact Ha1|subsym|]. intros s2 Ha2. rewrite heads_in by set_solver.
    eapply wtok; [exact Ha2|]. intros r q eq s3 Ha3 _ _. apply wpf_bind.
    eapply wpf_mono; [apply IHp; [exact Ha3|exact Hs|rewrite length_app; lia]|]. intros d' s4 [-> Ha4]. by eapply wpf_done.
  - intros ts0 rs0 ts1 args rs1 Hr Hargs Hlen n rest s Ha Hs Hn. destruct n as [|n]; [lia|]. cbn -[Nat.mul]. rewrite <- app_assoc in Ha.
    rewrite !length_app in Hn. assert (stops [124; 41; 38; 59]%Z rest) as Hs' by (eapply stops_weaken; [exact Hs|set_solver]).
    eapply wpeek; [exact Ha|subsym|]. intros s1 Ha1.
    assert (heads [40]%Z (ts0 ++ ts1 ++ rest) = false) as ->.
    { destruct Hr as [| |c q eq ts rs [-> | ->] _]; [apply (args_no_redir ts1 args rs1); [done..|apart]|reflexivity..]. }
    apply wpf_bind. eapply wpf_mono; [eapply parseredirs_complete; [exact Hr|exact Ha1|eapply args_no_redir; [done..|apart]|rewrite !length_app; lia]|].
    intros rs s2 [-> Ha2]. apply wpf_bind.
    eapply wpf_mono; [eapply args_loop_complete; [exact Hargs|exact Ha2|done|rewrite length_app; lia|done]|].
    intros r s3 [-> Ha3]. by eapply wpf_done.
  - intros ts c ts1 rs _ IH Hr n rest s Ha Hs Hn. destruct n as [|[|n]]; [lia..|]. cbn -[Nat.mul]. cbn [app length] in Ha, Hn.
    rewrite <- app_assoc in Ha. rewrite !length_app in Hn. cbn [app length] in Ha, Hn.
    eapply wpeek; [exact Ha|subsym|]. intros s1 Ha1. rewrite heads_in by set_solver.
    eapply wpeek; [exact Ha1|subsym|]. intros s2 Ha2. rewrite heads_in by set_solver. cbn [negb].
    eapply wtok; [exact Ha2|]. intros r q eq s3 Ha3 _ _. apply wpf_bind.
    eapply wpf_mono; [apply IH; [exact Ha3|right; apply heads_in; set_solver|rewrite !length_app; cbn [length]; rewrite length_app; lia]|].
    intros c' s4 [-> Ha4]. eapply wpeek; [exact Ha4|subsym|]. intros s5 Ha5. rewrite heads_in by set_solver. cbn [negb].
    eapply wtok; [exact Ha5|]. intros r' q' eq' s6 Ha6 _ _. apply wpf_bind.
    eapply wpf_mono; [eapply parseredirs_complete; [exact Hr|exact Ha6|eapply stops_not; [exact Hs|apart]|rewrite length_app; lia]|].
    intros rs' s7 [-> Ha7]. by eapply wpf_done.
Qed.

(** ** parsecmd *)

Lemma toks_length n ps : ps <= es buf -> length (toks_loop buf n ps) <= es buf - ps.
Proof using Hnul.
  revert ps. induction n as [|n IH]; intros ps Hps; cbn [toks_loop length]; [lia|].
  pose proof (lexed_bounds _ _ _ Hps (lex_lexed buf Hnul ps Hps)) as (H1 & H2 & H3 & _). destruct (lex buf ps) as [[ret q] eq]. cbn in *.
  destruct (Z.eqb_spec ret 0); cbn [length]; [lia|]. pose proof (skip_ge buf ps). pose proof (skip_ge buf eq).
  assert (q <> eq) by (intros ->; tauto). pose proof (IH (skip buf eq) (skip_le buf eq ltac:(lia))). pose proof (skip_le buf eq ltac:(lia)). lia.
Qed.

Lemma ahead_end ts s : ahead ts s -> (ts = [] <-> skip buf s = es buf).
Proof using Hnul.
  intros [Hs <-]. rewrite toks_unfold by done. destruct (lex_lexed buf Hnul s Hs) as [He|c Hc Hch Hlt|Hch Hlt|Hch Hlt|eq Hw]; cbn; try (split; [done|lia]).
  - done.
  - destruct (Z.eqb_spec c 0); [rewrite !elem_of_cons, elem_of_nil in Hc; lia|]. split; [done|lia].
  - destruct Hw as ([? ?] & _). cbn in *. split; [done|lia].
Qed.

Definition tokens : list token := toks buf 0.

Lemma tokens_ahead : ahead tokens 0.
Proof. split; [lia|done]. Qed.

Lemma parse_end c ts s : ahead ts s ->
  (peek buf [] ;; s <- Prelude.gets (fun s => s) ;; if negb (s =? es buf) then panic "syntax" else ret (c, nulterminate buf c)) s =
  (if bool_decide (ts = []) then Done (c, nulterminate buf c) (skip buf s) else Panic "syntax" (skip buf s)).
Proof using Hnul.
  intros Ha. cbn. rewrite (bool_decide_ext _ _ (ahead_end ts s Ha)). destruct (Nat.eqb_spec (skip buf s) (es buf)); case_bool_decide; done.
Qed.

Lemma parsecmd_sound :
  match parsecmd buf with
  | Done (c, b) _ => Line tokens c /\ b = nulterminate buf c
  | Panic msg _ => sh_fault (FPanic msg)
  | _ => False
  end.
Proof using Hnul.
  unfold parsecmd. destruct (parse_sound (parse_fuel buf)) as (Hl & _).
  assert (length tokens <= es buf) as Hlen by (pose proof (toks_length (S (es buf - 0)) 0 ltac:(lia)); unfold tokens, toks; lia).
  pose proof (Hl tokens 0 tokens_ahead ltac:(unfold parse_fuel; lia)) as H. unfold wpf in H. unfold bind at 1.
  destruct (parseline buf (parse_fuel buf) 0) as [c s|msg s|s|s]; [|done|by destruct H as (? & ? & ?)|by destruct H as (? & ? & ?)].
  destruct H as (us & rest & Ht & Ha & Hline). rewrite (parse_end c rest s Ha).
  case_bool_decide as He; [|eexists; split; [reflexivity|set_solver]]. subst rest. rewrite app_nil_r in Ht. by rewrite Ht.
Qed.

Lemma parsecmd_complete c : Line tokens c -> exists s, parsecmd buf = Done (c, nulterminate buf c) s.
Proof using Hnul.
  intros Hc. unfold parsecmd. destruct grammar_complete as (Hl & _).
  assert (length tokens <= es buf) as Hlen by (pose proof (toks_length (S (es buf - 0)) 0 ltac:(lia)); unfold tokens, toks; lia).
  pose proof (Hl _ _ Hc (parse_fuel buf) [] 0) as H. rewrite app_nil_r in H.
  specialize (H tokens_ahead (or_introl eq_refl) ltac:(unfold parse_fuel; lia)). unfold wpf in H. unfold bind at 1.
  destruct (parseline buf (parse_fuel buf) 0) as [c' s|msg s|s|s]; try done. destruct H as [-> Ha].
  rewrite (parse_end c [] s Ha). eexists. done.
Qed.

(** ** The words of a command *)

Fixpoint spans (c : cmd) : list span :=
  match c with
  | EXEC args => args
  | REDIR c f e _ _ => spans c ++ [(f, e)]
  | PIPE l r | LIST l r => spans l ++ spans r
  | BACK c => spans c
  end.

Lemma nul_at_spans c : nul_at c = (spans c).*2.
Proof. induction c as [args|c IH f e mo fd|l IHl r IHr|l IHl r IHr|c IH]; cbn [nul_at spans]; rewrite ?fmap_app.
  all: try done. all: by rewrite ?IH, ?IHl, ?IHr. Qed.

Lemma spans_wrap c rs : spans (wrap c rs) = spans c ++ ((fun r => (rd_file r, rd_efile r)) <$> rs).
Proof.
  revert c. induction rs as [|r rs IH]; intros c; cbn; [by rewrite app_nil_r|]. unfold wrap in IH. rewrite IH. cbn. by rewrite <- app_assoc.
Qed.

Lemma spans_backs k c : spans (backs k c) = spans c.
Proof. revert c. induction k as [|k IH]; intros c; [done|]. cbn. by rewrite IH. Qed.

Definition in_words (ts : list token) (w : span) : Prop := Word w ∈ ts.

Lemma redirs_words ts rs : Redirs ts rs -> forall w, w ∈ ((fun r => (rd_file r, rd_efile r)) <$> rs) -> Word w ∈ ts.
Proof. induction 1; cbn; set_solver. Qed.

Lemma args_words ts args rs : Args ts args rs ->
  forall w, w ∈ args ++ ((fun r => (rd_file r, rd_efile r)) <$> rs) -> Word w ∈ ts.
Proof.
  induction 1 as [|w ts1 rs1 ts2 args rs2 Hr Ha IH]; [set_solver|]. rewrite fmap_app. pose proof (redirs_words _ _ Hr). set_solver.
Qed.

Lemma grammar_words :
  (forall us c, Line us c -> forall w, w ∈ spans c -> Word w ∈ us) /\
  (forall us c, Pipe us c -> forall w, w ∈ spans c -> Word w ∈ us) /\
  (forall us c, Exec us c -> forall w, w ∈ spans c -> Word w ∈ us).
Proof.
  apply grammar_ind; intros; cbn [spans] in *; rewrite ?spans_wrap, ?spans_backs in *; cbn [spans] in *; try set_solver.
  - rewrite fmap_app in *. pose proof (redirs_words _ _ H). pose proof (args_words _ _ _ H0). set_solver.
  - pose proof (redirs_words _ _ H1). set_solver.
Qed.

Lemma toks_words n ps w : ps <= es buf -> Word w ∈ toks_loop buf n ps -> word_at buf w.
Proof using Hnul.
  revert ps. induction n as [|n IH]; intros ps Hps; cbn [toks_loop]; [set_solver|].
  pose proof (lex_lexed buf Hnul ps Hps) as Hl. pose proof (lexed_bounds _ _ _ Hps Hl) as (_ & [_ Hle] & _).
  destruct (lex buf ps) as [[ret q] eq]. cbn in Hle. destruct (Z.eqb_spec ret 0); [set_solver|]. rewrite elem_of_cons. intros [Hw|Hin].
  - apply token_word in Hw as [-> ->]. inversion Hl; subst; [rewrite !elem_of_cons, elem_of_nil in *; lia|done].
  - eapply IH; [|exact Hin]. by apply skip_le.
Qed.

(** The text of a word *)
Definition text (w : span) : list Z := take (w.2 - w.1) (drop w.1 buf).

Lemma stores_lookup ps (b : list Z) k :
  foldl (fun b p => <[p := 0%Z]> b) b ps !! k = if decide (k ∈ ps /\ k < length b) then Some 0%Z else b !! k.
Proof.
  revert b. induction ps as [|p ps IH]; intros b; cbn [foldl]; [by rewrite decide_False by set_solver|].
  rewrite IH, length_insert. destruct (decide (k = p)) as [->|Hne].
  - destruct (decide (p < length b)) as [Hlt|Hge].
    + rewrite list_lookup_insert_eq by done. rewrite (decide_True (P := p ∈ p :: ps /\ p < length b)) by set_solver. by destruct (decide _).
    + rewrite list_insert_ge by lia. rewrite !decide_False by lia. done.
  - rewrite list_lookup_insert_ne by done. apply decide_ext. set_solver.
Qed.

Lemma until_nul_spec (l : list Z) n :
  (forall k, k < n -> exists c, l !! k = Some c /\ c <> 0%Z) -> l !! n = Some 0%Z -> until_nul l = take n l.
Proof.
  revert n. induction l as [|c l IH]; intros n Hk Hn; [done|]. cbn [until_nul]. destruct n as [|n].
  - cbn in Hn. by injection Hn as ->.
  - destruct (Hk 0) as (c' & Hc & H0); [lia|]. cbn in Hc. injection Hc as ->. destruct (Z.eqb_spec c' 0); [done|]. cbn. f_equal.
    apply IH; [|done]. intros k Hlt. apply (Hk (S k)). lia.
Qed.

Lemma str_at_word c w : Line tokens c -> w ∈ spans c -> str_at (nulterminate buf c) w.1 = text w /\ word_at buf w.
Proof using Hnul.
  intros Hc Hw. assert (forall w, w ∈ spans c -> word_at buf w) as Hwords.
  { intros w' Hw'. eapply (toks_words _ 0); [lia|]. by apply (proj1 grammar_words _ _ Hc). }
  pose proof (Hwords w Hw) as ((Hlt & Hle) & Hpl & _). split; [|by apply Hwords].
  assert (length (buf ++ [0%Z]) = S (es buf)) as Hlen by (rewrite length_app; cbn; unfold es; lia).
  assert (forall k, w.1 <= k < w.2 -> exists x, buf !! k = Some x /\ x <> 0%Z /\ nulterminate buf c !! k = Some x) as Hin.
  { intros k Hk. destruct (lookup_lt_is_Some_2 buf k) as [x Hx]; [unfold es in Hle; lia|]. exists x. split; [done|].
    split; [rewrite Forall_lookup in Hnul; by eapply Hnul|]. unfold nulterminate.
    rewrite stores_lookup, nul_at_spans, lookup_app_l by (eapply lookup_lt_Some; exact Hx). rewrite decide_False; [done|].
    intros [(w' & -> & Hw')%list_elem_of_fmap _]. destruct (Hwords w' Hw') as (_ & _ & Hend). apply Hend; [|by apply Hpl]. unfold es in *. lia. }
  assert (nulterminate buf c !! w.2 = Some 0%Z) as Hat.
  { unfold nulterminate. rewrite stores_lookup, nul_at_spans. case_decide as Hd; [done|]. destruct Hd. split; [|lia].
    apply list_elem_of_fmap. by exists w. }
  unfold str_at, text. rewrite (until_nul_spec _ (w.2 - w.1)).
  - apply list_eq. intros k. destruct (decide (k < w.2 - w.1)) as [Hk|Hk].
    + rewrite !lookup_take_lt, !lookup_drop by done. destruct (Hin (w.1 + k)) as (x & -> & _ & ->); [lia|done].
    + by rewrite !lookup_take_ge by lia.
  - intros k Hk. rewrite lookup_drop. destruct (Hin (w.1 + k)) as (x & _ & Hx & Hl); [lia|]. eauto.
  - rewrite lookup_drop. replace (w.1 + (w.2 - w.1)) with w.2 by lia. done.
Qed.
End Parser.
