(* ===== verification/ShRun.v ===== *)
(** * sh.c: running a command

    runcmd as the tree of its system calls: a node per call, and a branch per
    result.  [reaches]: the programs that the shell process and its children
    come to execute, with their descriptors, when system calls behave as those
    of the kernel (sysfile.c): open, dup and pipe return the lowest free
    descriptors.  [wired] is what the command asks for; runcmd wires the
    descriptors of every program accordingly. *)

From S2P Require Import Prelude Ulib Sh.

Local Open Scope Z_scope.

(** ** System calls of runcmd *)

Inductive act :=
| Exit
| Exec (path : list Z) (argv : list (list Z)) (failed : act)
| Close (fd : Z) (k : act)
| Open (path : list Z) (mode : Z) (k : Z -> act)
| Fork (k : Z -> act)
| Wait (k : act)
| Pipe (k : option (Z * Z) -> act)
| Dup (fd : Z) (k : act)
| Print (fd : Z) (fmt : string) (args : list (list Z)) (k : act).

Definition panic (s : string) : act := Print 2 s [] Exit.

Definition fork1 (k : Z -> act) : act := Fork (fun pid => if pid =? -1 then panic "fork" else k pid).

(** [buf] is the buffer after nulterminate.  The newline that ends each message
    is left out. *)
Fixpoint runcmd (buf : list Z) (c : cmd) : act :=
  match c with
  | EXEC [] => Exit
  | EXEC ((w :: _) as args) =>
      Exec (str_at buf (fst w)) ((fun w => str_at buf (fst w)) <$> args) (Print 2 "exec %s failed" [str_at buf (fst w)] Exit)
  | REDIR c file _ mode fd =>
      Close fd (Open (str_at buf file) mode (fun r =>
        if r <? 0 then Print 2 "open %s failed" [str_at buf file] Exit else runcmd buf c))
  | LIST l r => fork1 (fun pid => if pid =? 0 then runcmd buf l else Wait (runcmd buf r))
  | PIPE l r =>
      Pipe (fun p =>
        match p with
        | None => panic "pipe"
        | Some (p0, p1) =>
            fork1 (fun pid =>
              if pid =? 0 then Close 1 (Dup p1 (Close p0 (Close p1 (runcmd buf l))))
              else
                fork1 (fun pid =>
                  if pid =? 0 then Close 0 (Dup p0 (Close p0 (Close p1 (runcmd buf r))))
                  else Close p0 (Close p1 (Wait (Wait Exit)))))
        end)
  | BACK c => fork1 (fun pid => if pid =? 0 then runcmd buf c else Exit)
  end.

(** ** Descriptors *)

(** What a descriptor refers to; a pipe has a number. *)
Inductive chan := CFile (path : list Z) (mode : Z) | CRead (pipe : nat) | CWrite (pipe : nat) | COther (n : nat).

Abbreviation table := (Z -> option chan).

Definition NOFILE : Z := 16.

Definition lowest (D : table) (fd : Z) : Prop := 0 <= fd < NOFILE /\ D fd = None /\ forall k, 0 <= k < fd -> D k <> None.

Definition fresh (D : table) (p : nat) : Prop := forall k, D k <> Some (CRead p) /\ D k <> Some (CWrite p).

(** A process with descriptors [D] that goes on with [a], or a child of it,
    executes [argv] with descriptors [D']. *)
Inductive reaches : table -> act -> table -> list (list Z) -> Prop :=
| reach_exec D path argv k : reaches D (Exec path argv k) D argv
| reach_exec_failed D path argv k D' argv' : reaches D k D' argv' -> reaches D (Exec path argv k) D' argv'
| reach_close D fd k D' argv : reaches (<[fd := None]> D) k D' argv -> reaches D (Close fd k) D' argv
| reach_open D path mode fd k D' argv :
    lowest D fd -> reaches (<[fd := Some (CFile path mode)]> D) (k fd) D' argv -> reaches D (Open path mode k) D' argv
| reach_open_failed D path mode k D' argv : reaches D (k (-1)) D' argv -> reaches D (Open path mode k) D' argv
| reach_child D k D' argv : reaches D (k 0) D' argv -> reaches D (Fork k) D' argv
| reach_parent D pid k D' argv : 0 < pid -> reaches D (k pid) D' argv -> reaches D (Fork k) D' argv
| reach_fork_failed D k D' argv : reaches D (k (-1)) D' argv -> reaches D (Fork k) D' argv
| reach_wait D k D' argv : reaches D k D' argv -> reaches D (Wait k) D' argv
| reach_pipe D p0 p1 p k D' argv :
    lowest D p0 -> lowest (<[p0 := Some (CRead p)]> D) p1 -> fresh D p ->
    reaches (<[p1 := Some (CWrite p)]> (<[p0 := Some (CRead p)]> D)) (k (Some (p0, p1))) D' argv -> reaches D (Pipe k) D' argv
| reach_pipe_failed D k D' argv : reaches D (k None) D' argv -> reaches D (Pipe k) D' argv
| reach_dup D fd ch n k D' argv :
    D fd = Some ch -> lowest D n -> reaches (<[n := Some ch]> D) k D' argv -> reaches D (Dup fd k) D' argv
| reach_dup_failed D fd k D' argv :
    D fd = None \/ (forall n, ~ lowest D n) -> reaches D k D' argv -> reaches D (Dup fd k) D' argv
| reach_print D fd fmt args k D' argv : reaches D k D' argv -> reaches D (Print fd fmt args k) D' argv.

(** What a command asks for, on top of the descriptors [D] *)
Fixpoint wired (buf : list Z) (c : cmd) (D D' : table) (argv : list (list Z)) : Prop :=
  match c with
  | EXEC args => args <> [] /\ argv = ((fun w => str_at buf (fst w)) <$> args) /\ forall k, D' k = D k
  | REDIR c file _ mode fd => wired buf c (<[fd := Some (CFile (str_at buf file) mode)]> D) D' argv
  | PIPE l r => exists p, fresh D p /\
      (wired buf l (<[1 := Some (CWrite p)]> D) D' argv \/ wired buf r (<[0 := Some (CRead p)]> D) D' argv)
  | LIST l r => wired buf l D D' argv \/ wired buf r D D' argv
  | BACK c => wired buf c D D' argv
  end.

(** Redirections are of the standard input or output, as the parser makes them. *)
Fixpoint std_redirs (c : cmd) : Prop :=
  match c with
  | EXEC _ => True
  | REDIR c _ _ _ fd => (fd = 0 \/ fd = 1) /\ std_redirs c
  | PIPE l r | LIST l r => std_redirs l /\ std_redirs r
  | BACK c => std_redirs c
  end.

#[global] Instance wired_proper buf c : Proper (pointwise_relation Z eq ==> eq ==> eq ==> iff) (wired buf c).
Proof.
  intros D1 D2 HD D' ? <- argv ? <-. revert D1 D2 HD.
  induction c as [args|c IH f e mo fd|l IHl r IHr|l IHl r IHr|c IH]; intros D1 D2 HD; cbn [wired].
  - by setoid_rewrite HD.
  - apply IH. intros k. unfold insert, fn_insert. case_decide; [done|apply HD].
  - assert (forall p, fresh D1 p <-> fresh D2 p) as Hf by (intros p; unfold fresh; by setoid_rewrite HD).
    apply exist_proper. intros p. rewrite Hf, (IHl _ (<[1:=Some (CWrite p)]> D2)), (IHr _ (<[0:=Some (CRead p)]> D2)); [done|..];
      intros k; unfold insert, fn_insert; case_decide; (done || apply HD).
  - by rewrite (IHl _ _ HD), (IHr _ _ HD).
  - by apply IH.
Qed.

Section Wiring.
Context (buf : list Z).

(** Follow a sequence of calls to its exit. *)
Ltac run_out :=
  unfold panic in *;
  repeat match goal with
  | H : reaches _ Exit _ _ |- _ => inversion H
  | H : reaches _ (Print _ _ _ _) _ _ |- _ => inversion H; clear H; subst
  | H : reaches _ (Close _ _) _ _ |- _ => inversion H; clear H; subst
  | H : reaches _ (Wait _) _ _ |- _ => inversion H; clear H; subst
  end.

(** Nothing is executed after a failure. *)
Lemma panic_reaches D s D' argv : ~ reaches D (panic s) D' argv.
Proof. intros H. run_out. Qed.

Lemma fork1_reaches D k D' argv :
  reaches D (fork1 k) D' argv -> reaches D (k 0) D' argv \/ exists pid, 0 < pid /\ reaches D (k pid) D' argv.
Proof.
  intros H. inversion H as [| | | | |? ? ? ? Hk|? pid ? ? ? Hpid Hk|? ? ? ? Hk| | | | | |]; subst; [by left| |].
  - right. exists pid. split; [done|]. by destruct (Z.eqb_spec pid (-1)); [lia|].
  - by apply panic_reaches in Hk.
Qed.

Lemma lowest_unique D a b : lowest D a -> lowest D b -> a = b.
Proof.
  intros (Ha & Ha0 & Hal) (Hb & Hb0 & Hbl). destruct (Z.lt_total a b) as [?|[?|?]]; [|done|]; exfalso; [apply (Hbl a)|apply (Hal b)]; (done || lia).
Qed.

(** With lower descriptors open, a descriptor just closed is the next one opened. *)
Lemma lowest_closed D fd : fd = 0 \/ fd = 1 -> D 0 <> None -> lowest (<[fd := None]> D) fd.
Proof.
  intros Hfd H0. split; [unfold NOFILE; lia|]. split; [apply fn_lookup_insert|]. intros k Hk. rewrite fn_lookup_insert_ne by lia.
  by replace k with 0 by lia.
Qed.

(** The child of a pipe: descriptor [std] becomes [ch], both ends are closed. *)
Lemma child_reaches D p0 p1 ch0 ch1 std from c D' argv :
  std = 0 \/ std = 1 -> D 0 <> None -> D 1 <> None -> lowest D p0 -> lowest (<[p0 := Some ch0]> D) p1 -> from = p0 \/ from = p1 ->
  reaches (<[p1 := Some ch1]> (<[p0 := Some ch0]> D)) (Close std (Dup from (Close p0 (Close p1 (runcmd buf c))))) D' argv ->
  exists D1, reaches D1 (runcmd buf c) D' argv /\ pointwise_relation Z eq D1 (<[std := Some (if decide (from = p0) then ch0 else ch1)]> D).
Proof.
  intros Hstd H0 H1 (Hp0 & Hn0 & _) (Hp1 & Hn1 & _) Hfrom H.
  assert (p0 <> 0 /\ p0 <> 1 /\ p1 <> p0) as (Hp00 & Hp01 & Hne).
  { split_and!; [congruence..|]. intros ->. by rewrite fn_lookup_insert in Hn1. }
  rewrite fn_lookup_insert_ne in Hn1 by done. assert (p1 <> 0 /\ p1 <> 1) as [Hp10 Hp11] by (split; congruence).
  inversion H as [| |? ? ? ? ? Hd| | | | | | | | | | |]; subst; clear H.
  set (E := <[std := None]> (<[p1 := Some ch1]> (<[p0 := Some ch0]> D))) in *.
  assert (lowest E std) as Hlow by (apply lowest_closed; [done|by rewrite !fn_lookup_insert_ne]).
  assert (E from = Some (if decide (from = p0) then ch0 else ch1)) as Hch.
  { unfold E. rewrite fn_lookup_insert_ne by lia. destruct Hfrom as [-> | ->].
    - by rewrite fn_lookup_insert_ne, fn_lookup_insert, decide_True.
    - by rewrite fn_lookup_insert, decide_False. }
  inversion Hd as [| | | | | | | | | | |? ? ch n ? ? ? Hc Hl Hk|? ? ? ? ? Hbad _|]; subst; clear Hd; cycle 1.
  { destruct Hbad as [Hb|Hb]; [congruence|by destruct (Hb std)]. }
  rewrite Hc in Hch. injection Hch as ->. rewrite (lowest_unique _ _ _ Hl Hlow) in Hk.
  inversion Hk as [| |? ? ? ? ? Hk1| | | | | | | | | | |]; subst. inversion Hk1 as [| |? ? ? ? ? Hk2| | | | | | | | | | |]; subst.
  eexists. split; [exact Hk2|]. intros k. unfold E, insert, fn_insert. repeat case_decide; subst; try done; lia.
Qed.

Lemma runcmd_wires c D D' argv :
  std_redirs c -> D 0 <> None -> D 1 <> None -> reaches D (runcmd buf c) D' argv -> wired buf c D D' argv.
Proof.
  revert D. induction c as [args|c IH f e mo fd|l IHl r IHr|l IHl r IHr|c IH]; intros D Hstd H0 H1 H; cbn [runcmd wired std_redirs] in *.
  - destruct args as [|w args]; [inversion H|]. inversion H as [|? ? ? ? ? ? Hf| | | | | | | | | | | |]; subst; [split_and!; [done|reflexivity|done]|].
    run_out.
  - destruct Hstd as [Hfd Hstd]. inversion H as [| |? ? ? ? ? Hc| | | | | | | | | | |]; subst.
    inversion Hc as [| | |? ? ? n ? ? ? Hl Ho|? ? ? ? ? ? Ho| | | | | | | | |]; subst; cycle 1.
    { cbn in Ho. run_out. }
    rewrite (lowest_unique _ _ _ Hl (lowest_closed D fd Hfd H0)) in Ho. destruct (Z.ltb_spec fd 0); [lia|].
    assert (pointwise_relation Z eq (<[fd := Some (CFile (str_at buf f) mo)]> (<[fd := None]> D)) (<[fd := Some (CFile (str_at buf f) mo)]> D)) as He
      by (intros k; unfold insert, fn_insert; by repeat case_decide).
    apply IH in Ho; [|done|unfold insert, fn_insert; by repeat case_decide..]. by rewrite He in Ho.
  - destruct Hstd as [Hsl Hsr]. inversion H as [| | | | | | | | |? p0 p1 p ? ? ? Hl0 Hl1 Hp Hk|? ? ? ? Hk| | |]; subst; cycle 1.
    { by apply panic_reaches in Hk. }
    exists p. split; [done|]. apply fork1_reaches in Hk as [Hk|(pid & Hpid & Hk)].
    { left. eapply child_reaches in Hk as (D1 & Hr & He); [|by right|done..|by right].
      rewrite decide_False in He by (intros ->; destruct Hl1 as (_ & Hn & _); by rewrite fn_lookup_insert in Hn).
      apply IHl in Hr; [by rewrite He in Hr|done|rewrite (He _); unfold insert, fn_insert; by case_decide..]. }
    destruct (Z.eqb_spec pid 0); [lia|]. apply fork1_reaches in Hk as [Hk|(pid' & Hpid' & Hk)].
    { right. eapply child_reaches in Hk as (D1 & Hr & He); [|by left|done..|by left]. rewrite decide_True in He by done.
      apply IHr in Hr; [by rewrite He in Hr|done|rewrite (He _); unfold insert, fn_insert; by case_decide..]. }
    destruct (Z.eqb_spec pid' 0); [lia|]. run_out.
  - destruct Hstd as [Hsl Hsr]. apply fork1_reaches in H as [H|(pid & Hpid & H)]; [left; auto|]. destruct (Z.eqb_spec pid 0); [lia|].
    inversion H; subst. right. auto.
  - apply fork1_reaches in H as [H|(pid & Hpid & H)]; [auto|]. destruct (Z.eqb_spec pid 0); [lia|]. inversion H.
Qed.
End Wiring.
