(* ===== verification/Console.v ===== *)
(** * console.c and uartputc of uart.c

    The screen (CGA memory and the cursor register), the serial line as the
    bytes sent to it, and the input ring with its three counters.  The console
    code runs under cons.lock or with interrupts off; a stretch from taking the
    lock to releasing it or to sleeping is one step.  cons.locking is set and
    not read (the code that reads it is commented out), so it has no field. *)

From S2P Require Import Prelude Ring Ulib.

Local Open Scope c_scope.
Local Open Scope Z_scope.

Definition INPUT_BUF : Z := 128.
Definition BACKSPACE : Z := 256.

Record console := mkConsole {
  cn_panicked : bool;
  cn_uart : bool;               (* uart: is there a serial port *)
  cn_serial : list Z;           (* bytes sent, in order *)
  cn_pos : Z;                   (* the cursor register of the CRT controller *)
  cn_crt : Z -> Z;              (* crt[i] *)
  cn_buf : nat -> Z;            (* input.buf *)
  cn_r : Z;
  cn_w : Z;
  cn_e : Z;
  cn_wakeups : nat;             (* calls of wakeup(&input.r) *)
}.

Definition set_serial (l : list Z) (s : console) : console :=
  mkConsole (cn_panicked s) (cn_uart s) l (cn_pos s) (cn_crt s) (cn_buf s) (cn_r s) (cn_w s) (cn_e s) (cn_wakeups s).
Definition set_screen (pos : Z) (crt : Z -> Z) (s : console) : console :=
  mkConsole (cn_panicked s) (cn_uart s) (cn_serial s) pos crt (cn_buf s) (cn_r s) (cn_w s) (cn_e s) (cn_wakeups s).
Definition set_input (buf : nat -> Z) (r w e : Z) (s : console) : console :=
  mkConsole (cn_panicked s) (cn_uart s) (cn_serial s) (cn_pos s) (cn_crt s) buf r w e (cn_wakeups s).
Definition set_panicked (b : bool) (s : console) : console :=
  mkConsole b (cn_uart s) (cn_serial s) (cn_pos s) (cn_crt s) (cn_buf s) (cn_r s) (cn_w s) (cn_e s) (cn_wakeups s).
Definition add_wakeup (s : console) : console :=
  mkConsole (cn_panicked s) (cn_uart s) (cn_serial s) (cn_pos s) (cn_crt s) (cn_buf s) (cn_r s) (cn_w s) (cn_e s) (S (cn_wakeups s)).

(** ** Output *)

(** The wait for the transmitter is bounded and has no effect. *)
Definition uartputc (c : Z) : M console unit := fun s =>
  if cn_uart s then Done tt (set_serial (cn_serial s ++ [u8 c]) s) else Done tt s.

(** A store to crt[i]; the screen has 25 * 80 cells. *)
Definition crt_store (crt : Z -> Z) (i v : Z) : option (Z -> Z) :=
  if (0 <=? i) && (i <? 2000) then Some (<[i := v]> crt) else None.

(** memmove(crt, crt+80, 2*23*80); memset(crt+pos, 0, 2*(24*80 - pos)) *)
Definition scroll (crt : Z -> Z) (pos : Z) : Z -> Z := fun i =>
  if (pos <=? i) && (i <? 1920) then 0 else if (0 <=? i) && (i <? 1840) then crt (i + 80) else crt i.

Definition cgaputc (c : Z) : M console unit := fun s =>
  let pos := cn_pos s in
  let '(crt, pos) :=
    if c =? 10 then (Some (cn_crt s), pos + (80 - pos `mod` 80))
    else if c =? BACKSPACE then (Some (cn_crt s), if 0 <? pos then pos - 1 else pos)
    else (crt_store (cn_crt s) pos (Z.lor (Z.land c 255) 1792), pos + 1) in
  match crt with
  | None => Undef s
  | Some crt =>
      if (pos <? 0) || (2000 <? pos) then Panic "pos under/overflow" (set_screen (cn_pos s) crt s)
      else
        let '(crt, pos) := if 24 <=? pos / 80 then (scroll crt (pos - 80), pos - 80) else (crt, pos) in
        match crt_store crt pos (Z.lor 32 1792) with
        | None => Undef s
        | Some crt => Done tt (set_screen pos crt s)
        end
  end.

Definition consputc (c : Z) : M console unit :=
  p <- Prelude.gets cn_panicked ;;
  if p : bool then out_of_fuel
  else
    (if c =? BACKSPACE then uartputc 8 ;; uartputc 32 ;; uartputc 8 else uartputc c) ;;
    cgaputc c.

(** printint: the characters are stored in buf and printed from the last on. *)
Definition kprintint (xx base : Z) (sign : bool) : M console unit :=
  match printint_from 97 xx base sign with
  | None => undef
  | Some out => for_each out consputc
  end.

Section Cprintf.
Context (str : Z -> list Z).

(** [args] are the words on the stack after fmt, [str a] the string at [a]. *)
Fixpoint cprintf (fmt args : list Z) : M console unit :=
  match fmt with
  | [] => ret tt
  | c :: fmt' =>
      if negb (c =? 37) then consputc c ;; cprintf fmt' args
      else
        match fmt' with
        | [] => ret tt
        | c :: fmt' =>
            if (c =? 100) || (c =? 120) || (c =? 112) then
              match args with
              | [] => undef
              | w :: args' =>
                  (if c =? 100 then kprintint (i32 w) 10 true else kprintint (i32 w) 16 false) ;;
                  cprintf fmt' args'
              end
            else if c =? 115 then
              match args with
              | [] => undef
              | w :: args' => for_each (if w =? 0 then null_text else str w) consputc ;; cprintf fmt' args'
              end
            else if c =? 37 then consputc 37 ;; cprintf fmt' args
            else consputc 37 ;; consputc c ;; cprintf fmt' args
        end
  end.
End Cprintf.

Definition consolewrite (buf : list Z) : M console Z :=
  for_each buf (fun b => consputc (Z.land b 255)) ;;
  ret (Z.of_nat (length buf)).

(** ** Input *)

Definition ctrl (x : Z) : Z := x - 64.   (* C(x) *)

Abbreviation slot := (Ring.slot INPUT_BUF).

(** input.e-- and consputc(BACKSPACE) *)
Definition erase : M console unit :=
  modify (fun s => set_input (cn_buf s) (cn_r s) (cn_w s) (u32 (cn_e s - 1)) s) ;;
  consputc BACKSPACE.

(** The loop of ^U; at most INPUT_BUF characters can be erased. *)
Fixpoint kill_line (fuel : nat) : M console unit :=
  match fuel with
  | O => out_of_fuel
  | S fuel' =>
      s <- Prelude.gets (fun s => s) ;;
      if negb (cn_e s =? cn_w s) && negb (cn_buf s (slot (u32 (cn_e s - 1))) =? 10) then erase ;; kill_line fuel'
      else ret tt
  end.

(** One turn of the loop of consoleintr, for a character from getc *)
Definition typed (c : Z) : M console unit :=
  s <- Prelude.gets (fun s => s) ;;
  if c =? ctrl 80 then ret tt                                                  (* ^P *)
  else if c =? ctrl 85 then kill_line (Z.to_nat INPUT_BUF + 1)                 (* ^U *)
  else if (c =? ctrl 72) || (c =? 127) then when (negb (cn_e s =? cn_w s)) erase
  else
    when (negb (c =? 0) && (u32 (cn_e s - cn_r s) <? INPUT_BUF))
      (let c := if c =? 13 then 10 else c in
       modify (set_input (<[slot (cn_e s) := u8 c]> (cn_buf s)) (cn_r s) (cn_w s) (u32 (cn_e s + 1))) ;;
       consputc c ;;
       s <- Prelude.gets (fun s => s) ;;
       when ((c =? 10) || (c =? ctrl 68) || (cn_e s =? u32 (cn_r s + INPUT_BUF)))
         (modify (fun s => add_wakeup (set_input (cn_buf s) (cn_r s) (cn_e s) (cn_e s) s)))).

(** consoleintr on the characters that getc returns until it is negative; the
    result says whether to call procdump. *)
Definition consoleintr (codes : list Z) : M console bool :=
  for_each codes typed ;;
  ret (existsb (fun c => c =? ctrl 80) codes).

(** How a stretch of consoleread ends, with [n] bytes still wanted and the
    bytes it stored *)
Inductive read_end := Returned | Killed | Asleep (n : Z).

(** [target] is the n of the call. *)
Fixpoint consoleread (fuel : nat) (killed : bool) (target n : Z) : M console (read_end * list Z) :=
  match fuel with
  | O => out_of_fuel
  | S fuel' =>
      if 0 <? n then
        s <- Prelude.gets (fun s => s) ;;
        if cn_r s =? cn_w s then ret (if killed then Killed else Asleep n, [])
        else
          let c := cn_buf s (slot (cn_r s)) in
          modify (set_input (cn_buf s) (u32 (cn_r s + 1)) (cn_w s) (cn_e s)) ;;
          if c =? ctrl 68 then
            when (n <? target) (modify (fun s => set_input (cn_buf s) (u32 (cn_r s - 1)) (cn_w s) (cn_e s) s)) ;;
            ret (Returned, [])
          else if c =? 10 then ret (Returned, [c])
          else
            t <- consoleread fuel' killed target (n - 1) ;;
            ret (fst t, c :: snd t)
      else ret (Returned, [])
  end.
