(* ===== verification/ConsoleInv.v ===== *)
(** * The console keeps its screen and its input line

    [screen_ok]: the cursor is in the first 24 rows; every character keeps it
    there and stays inside the screen memory.  [input_is s line edit]: the
    input ring holds [line], which readers may take, and [edit], the line
    being edited; typing and reading are operations on these two lists. *)

From S2P Require Import Prelude Ring Ulib Console.

Local Open Scope c_scope.
Local Open Scope Z_scope.

(** ** The screen *)

Definition screen_ok (s : console) : Prop := cn_panicked s = false /\ 0 <= cn_pos s < 1920.

(** Only the screen and the serial line differ. *)
Record printed (s s' : console) : Prop := mkPrinted {
  pr_ok : screen_ok s';
  pr_buf : cn_buf s' = cn_buf s;
  pr_r : cn_r s' = cn_r s;
  pr_w : cn_w s' = cn_w s;
  pr_e : cn_e s' = cn_e s;
  pr_wakeups : cn_wakeups s' = cn_wakeups s;
  pr_uart : cn_uart s' = cn_uart s;
}.

Lemma printed_refl s : screen_ok s -> printed s s.
Proof. by split. Qed.

Lemma printed_trans s s1 s2 : printed s s1 -> printed s1 s2 -> printed s s2.
Proof. intros [] []. split; congruence || done. Qed.

Lemma uartputc_ok c s : screen_ok s -> exists s', uartputc c s = Done tt s' /\ printed s s' /\ cn_pos s' = cn_pos s /\ cn_crt s' = cn_crt s.
Proof. intros [? ?]. unfold uartputc. destruct (cn_uart s) eqn:E; eexists; (split; [reflexivity|]); by split. Qed.

Lemma crt_store_ok crt i v : 0 <= i < 2000 -> crt_store crt i v = Some (<[i := v]> crt).
Proof. intros Hi. unfold crt_store. by destruct (Z.leb_spec 0 i), (Z.ltb_spec i 2000); [|lia..]. Qed.

Lemma cgaputc_ok c s : screen_ok s -> exists s', cgaputc c s = Done tt s' /\ printed s s'.
Proof.
  intros [Hp Hpos]. unfold cgaputc.
  assert (exists crt pos, (if c =? 10 then (Some (cn_crt s), cn_pos s + (80 - cn_pos s `mod` 80))
    else if c =? BACKSPACE then (Some (cn_crt s), if 0 <? cn_pos s then cn_pos s - 1 else cn_pos s)
    else (crt_store (cn_crt s) (cn_pos s) (Z.lor (Z.land c 255) 1792), cn_pos s + 1)) = (Some crt, pos) /\ 0 <= pos <= 1920)
    as (crt & pos & -> & Hr).
  { rewrite crt_store_ok by lia. destruct (c =? 10); [eexists _, _; split; [reflexivity|zlia]|].
    destruct (c =? BACKSPACE); [|eexists _, _; split; [reflexivity|lia]]. eexists _, _. split; [reflexivity|]. destruct (Z.ltb_spec 0 (cn_pos s)); lia. }
  destruct (Z.ltb_spec pos 0), (Z.ltb_spec 2000 pos); try lia. cbn [orb].
  destruct (Z.leb_spec 24 (pos / 80)) as [Hs|Hs]; rewrite crt_store_ok by zlia; eexists; (split; [reflexivity|]); split; try done; (split; [done|cbn; zlia]).
Qed.

Lemma consputc_ok c s : screen_ok s -> exists s', consputc c s = Done tt s' /\ printed s s'.
Proof.
  intros Hs. unfold consputc. erewrite bind_done by reflexivity. rewrite (proj1 Hs).
  assert (exists s1, (if c =? BACKSPACE then uartputc 8 ;; uartputc 32 ;; uartputc 8 else uartputc c) s = Done tt s1 /\ printed s s1) as (s1 & Hu & H1).
  { destruct (c =? BACKSPACE); [|destruct (uartputc_ok c s Hs) as (s1 & ? & ? & _); eauto].
    destruct (uartputc_ok 8 s Hs) as (s1 & E1 & H1 & _). destruct (uartputc_ok 32 s1 (pr_ok _ _ H1)) as (s2 & E2 & H2 & _).
    destruct (uartputc_ok 8 s2 (pr_ok _ _ H2)) as (s3 & E3 & H3 & _). exists s3. mstep E1. mstep E2. split; [done|].
    eauto using printed_trans. }
  mstep Hu. destruct (cgaputc_ok c s1 (pr_ok _ _ H1)) as (s2 & E2 & H2). exists s2. split; [done|by eapply printed_trans].
Qed.

Lemma puts_ok {A} (f : A -> Z) l s : screen_ok s -> exists s', for_each l (fun x => consputc (f x)) s = Done tt s' /\ printed s s'.
Proof.
  revert s. induction l as [|x l IH]; intros s Hs; cbn [for_each]; [by eauto using printed_refl|].
  destruct (consputc_ok (f x) s Hs) as (s1 & E1 & H1). destruct (IH s1 (pr_ok _ _ H1)) as (s2 & E2 & H2). exists s2. mstep E1.
  split; [done|by eapply printed_trans].
Qed.

(** ** The input ring *)

Record input_is (s : console) (line edit : list Z) : Prop := mkInputIs {
  in_r : is_u32 (cn_r s);
  in_w : cn_w s = u32 (cn_r s + Z.of_nat (length line));
  in_e : cn_e s = u32 (cn_r s + Z.of_nat (length (line ++ edit)));
  in_size : Z.of_nat (length (line ++ edit)) <= INPUT_BUF;
  in_data : held INPUT_BUF (cn_buf s) (cn_r s) (length (line ++ edit)) = line ++ edit;
  in_edit : Forall (fun c => c <> 10 /\ c <> 4) edit;
}.

Lemma input_ring : (INPUT_BUF | u32_mod) /\ 0 < INPUT_BUF.
Proof. split; [by exists 33554432|done]. Qed.

Lemma input_printed s s' line edit : printed s s' -> input_is s line edit -> input_is s' line edit.
Proof. intros [_ Hb Hr Hw He _ _] []. split; rewrite ?Hb, ?Hr, ?Hw, ?He; done. Qed.

(** What typing a character does to the two lists *)
Definition type_char (q : list Z * list Z) (c : Z) : list Z * list Z :=
  let '(line, edit) := q in
  if c =? ctrl 80 then q
  else if c =? ctrl 85 then (line, [])
  else if (c =? ctrl 72) || (c =? 127) then (line, removelast edit)
  else if negb (c =? 0) && (Z.of_nat (length (line ++ edit)) <? INPUT_BUF) then
    let c := if c =? 13 then 10 else c in
    if (c =? 10) || (c =? ctrl 68) || (Z.of_nat (length (line ++ edit)) + 1 =? INPUT_BUF) then (line ++ edit ++ [c], [])
    else (line, edit ++ [c])
  else q.

Lemma counters_differ r j k : is_u32 r -> 0 <= j <= INPUT_BUF -> 0 <= k <= INPUT_BUF -> (u32 (r + j) =? u32 (r + k)) = (j =? k).
Proof. unfold is_u32, u32, u32_mod, INPUT_BUF. intros. destruct (Z.eqb_spec j k) as [->|]; [apply Z.eqb_refl|]. apply Z.eqb_neq. zlia. Qed.

Lemma input_count s line edit : input_is s line edit -> u32 (cn_e s - cn_r s) = Z.of_nat (length (line ++ edit)).
Proof. intros [Hr _ -> Hs _ _]. unfold is_u32, u32, u32_mod, INPUT_BUF in *. zlia. Qed.

Lemma input_edit_empty s line edit : input_is s line edit -> (cn_e s =? cn_w s) = bool_decide (edit = []).
Proof.
  intros [Hr -> -> Hs _ _]. rewrite counters_differ by (done || (rewrite ?length_app in *; lia)). rewrite length_app.
  destruct edit; [rewrite bool_decide_true by done; cbn; apply Z.eqb_eq; lia|]. rewrite bool_decide_false by done. apply Z.eqb_neq. cbn. lia.
Qed.

Lemma held_less N data r k k' l : held N data r k = l -> (k' <= k)%nat -> held N data r k' = take k' l.
Proof.
  intros <-. revert r k'. induction k as [|k IH]; intros r k' Hk; [by replace k' with 0%nat by lia|].
  destruct k' as [|k']; [done|]. cbn [held take]. f_equal. apply IH. lia.
Qed.

Lemma held_nth N data r k j : is_u32 r -> (j < k)%nat -> held N data r k !! j = Some (data (Ring.slot N (u32 (r + Z.of_nat j)))).
Proof.
  revert r j. induction k as [|k IH]; intros r j Hr Hj; [lia|]. destruct j as [|j]; cbn [held lookup list_lookup].
  - by rewrite Z.add_0_r, u32_small.
  - rewrite IH by (apply u32_range || lia). do 3 f_equal. unfold u32, u32_mod. zlia.
Qed.

(** What the console code keeps while it changes the input *)
Definition typing (q : list Z * list Z) (s : console) : Prop := input_is s q.1 q.2 /\ screen_ok s.

Lemma consputc_typing c q s : typing q s -> wp (consputc c) (fun _ s' => typing q s' /\ cn_r s' = cn_r s /\ cn_e s' = cn_e s) s.
Proof.
  intros [Hi Hs]. destruct (consputc_ok c s Hs) as (s' & E & H). eapply wp_intro; [exact E|].
  split; [split; [by eapply input_printed|apply H]|]. split; apply H.
Qed.

Lemma last_typed s line edit x : input_is s line (edit ++ [x]) ->
  u32 (cn_e s - 1) = u32 (cn_r s + Z.of_nat (length (line ++ edit))) /\ cn_buf s (slot (u32 (cn_e s - 1))) = x.
Proof.
  intros [Hr _ He Hs Hd _]. rewrite app_assoc, length_app in He, Hs, Hd. cbn [length] in *.
  assert (u32 (cn_e s - 1) = u32 (cn_r s + Z.of_nat (length (line ++ edit)))) as Hu by (rewrite He; unfold u32, u32_mod; zlia).
  split; [done|]. rewrite Hu. pose proof (held_nth INPUT_BUF (cn_buf s) (cn_r s) (length (line ++ edit) + 1) (length (line ++ edit)) Hr ltac:(lia)) as Hn.
  rewrite Hd, lookup_app_r, Nat.sub_diag in Hn by lia. by injection Hn.
Qed.

Lemma erase_ok line edit x s : typing (line, edit ++ [x]) s -> wp erase (fun _ s' => typing (line, edit) s') s.
Proof.
  intros [Hi Hs]. cbn in Hi. destruct (last_typed _ _ _ _ Hi) as [Hu _]. destruct Hi as [Hr Hw He Hsz Hd Hed].
  unfold erase. apply wp_bind, wp_modify. eapply wp_mono; [apply (consputc_typing _ (line, edit))|by intros [] s' [H _]].
  split; [|done]. split; cbn; try done.
  - rewrite app_assoc, length_app in Hsz. lia.
  - rewrite (held_less _ _ _ _ _ _ Hd) by (rewrite !length_app; lia). rewrite app_assoc, take_app_le by done. by apply take_ge.
  - by apply Forall_app in Hed as [? _].
Qed.

Lemma kill_line_ok fuel line edit s : typing (line, edit) s -> (length edit < fuel)%nat -> wp (kill_line fuel) (fun _ s' => typing (line, []) s') s.
Proof.
  revert edit s. induction fuel as [|fuel IH]; intros edit s Ht Hf; [lia|]. cbn [kill_line]. apply wp_bind, wp_gets.
  rewrite (input_edit_empty s line edit (proj1 Ht)). destruct edit as [|x edit] using rev_ind.
  { rewrite bool_decide_true by done. cbn [negb andb]. by apply wp_ret. }
  rewrite bool_decide_false by (by destruct edit). destruct (last_typed _ _ _ _ (proj1 Ht)) as [_ ->].
  pose proof (in_edit _ _ _ (proj1 Ht)) as Hed. cbn in Hed. apply Forall_app in Hed as [_ Hx]. inversion Hx as [|? ? [Hx10 _]]; subst.
  destruct (Z.eqb_spec x 10); [done|]. cbn [negb andb]. apply wp_bind. eapply wp_mono; [exact (erase_ok line edit x s Ht)|]. intros [] s1 Ht1.
  apply (IH edit); [done|]. rewrite length_app in Hf. cbn in Hf. lia.
Qed.

(** Appending a character to the line being edited *)
Lemma append_ok line edit c s :
  typing (line, edit) s -> Z.of_nat (length (line ++ edit)) < INPUT_BUF ->
  let s' := set_input (<[slot (cn_e s) := c]> (cn_buf s)) (cn_r s) (cn_w s) (u32 (cn_e s + 1)) s in
  screen_ok s' /\ is_u32 (cn_r s') /\ cn_w s' = u32 (cn_r s' + Z.of_nat (length line)) /\
  cn_e s' = u32 (cn_r s' + Z.of_nat (length (line ++ edit ++ [c]))) /\ Z.of_nat (length (line ++ edit ++ [c])) <= INPUT_BUF /\
  held INPUT_BUF (cn_buf s') (cn_r s') (length (line ++ edit ++ [c])) = line ++ edit ++ [c].
Proof.
  intros [[Hr Hw He Hsz Hd Hed] Hs] Hlt. cbn in *. rewrite !app_assoc, (length_app (line ++ edit)). cbn [length]. split_and!; try done; try lia.
  - rewrite He. unfold u32, u32_mod. zlia.
  - rewrite Nat.add_1_r, He, held_put by (apply input_ring || done). by rewrite Hd.
Qed.

Lemma typed_ok c q s : typing q s -> 0 <= c < 256 -> wp (typed c) (fun _ s' => typing (type_char q c) s') s.
Proof.
  destruct q as [line edit]. intros Ht Hc. unfold typed, type_char. apply wp_bind, wp_gets.
  destruct (c =? ctrl 80); [by apply wp_ret|]. destruct (c =? ctrl 85).
  { apply (kill_line_ok _ line edit); [done|]. pose proof (in_size _ _ _ (proj1 Ht)) as Hs. cbn in Hs. rewrite length_app in Hs. unfold INPUT_BUF in *. lia. }
  destruct ((c =? ctrl 72) || (c =? 127)).
  { rewrite (input_edit_empty _ _ _ (proj1 Ht)). cbn [snd]. destruct edit as [|x edit] using rev_ind; [by apply wp_ret|].
    rewrite bool_decide_false by (by destruct edit). rewrite removelast_last. exact (erase_ok line edit x s Ht). }
  rewrite (input_count _ _ _ (proj1 Ht)). cbn [fst snd].
  destruct (negb (c =? 0) && (Z.of_nat (length (line ++ edit)) <? INPUT_BUF)) eqn:Hroom; cbn [when]; [|by apply wp_ret].
  apply andb_true_iff in Hroom as [_ Hroom%Z.ltb_lt]. set (d := if c =? 13 then 10 else c).
  assert (u8 d = d) as Hd by (unfold d, u8; destruct (c =? 13); [done|apply Z.mod_small; lia]). rewrite Hd.
  destruct (append_ok line edit d s Ht Hroom) as (Hs1 & Hr1 & Hw1 & He1 & Hsz1 & Hd1).
  apply wp_bind, wp_modify. set (s1 := set_input _ _ _ _ s) in *. destruct (consputc_ok d s1 Hs1) as (s2 & E2 & H2).
  apply wp_bind. eapply wp_intro; [exact E2|]. apply wp_bind, wp_gets. destruct H2 as [Hs2 Hb2 Hr2 Hw2 He2 _ _].
  assert ((cn_e s2 =? u32 (cn_r s2 + INPUT_BUF)) = (Z.of_nat (length (line ++ edit)) + 1 =? INPUT_BUF)) as ->.
  { rewrite He2, Hr2, He1, counters_differ by (done || lia). rewrite app_assoc, length_app. cbn [length]. f_equal. lia. }
  destruct ((d =? 10) || (d =? ctrl 68) || (Z.of_nat (length (line ++ edit)) + 1 =? INPUT_BUF)) eqn:Hend; cbn [when].
  - apply wp_modify. split; [|done]. split; cbn; rewrite ?app_nil_r, ?Hb2, ?Hr2, ?He2; done.
  - apply wp_ret. split; [|done]. split; cbn; rewrite ?Hb2, ?Hr2, ?Hw2, ?He2; try done.
    apply orb_false_iff in Hend as [[H10%Z.eqb_neq H4%Z.eqb_neq]%orb_false_iff _]. apply Forall_app. split; [apply Ht|]. by repeat constructor.
Qed.

Lemma consoleintr_ok codes q s :
  typing q s -> Forall (fun c => 0 <= c < 256) codes ->
  wp (consoleintr codes) (fun dump s' => typing (foldl type_char q codes) s' /\ dump = existsb (fun c => c =? ctrl 80) codes) s.
Proof.
  intros Ht Hc. unfold consoleintr. apply wp_bind. apply wp_mono with (P := fun _ s' => typing (foldl type_char q codes) s').
  - revert q s Ht. induction Hc as [|c codes Hc Hcs IH]; intros q s Ht; cbn [for_each foldl]; [by apply wp_ret|].
    apply wp_bind. eapply wp_mono; [by apply (typed_ok c q)|]. intros [] s1 Ht1. by apply IH.
  - intros [] s' Ht'. by apply wp_ret.
Qed.

(** ** consoleread *)

(** The outcome of a stretch that finds [line] committed and wants [n] more
    bytes of [target]: the bytes it takes, and the line it leaves *)
Inductive took (killed : bool) (target n : Z) (line : list Z) : read_end -> list Z -> list Z -> Prop :=
| took_full got rest : line = got ++ rest -> Forall (fun c => c <> 10 /\ c <> 4) got -> Z.of_nat (length got) = Z.max 0 n ->
    took killed target n line Returned got rest
| took_line got rest : line = got ++ 10 :: rest -> Forall (fun c => c <> 10 /\ c <> 4) got -> Z.of_nat (length got) < n ->
    took killed target n line Returned (got ++ [10]) rest
| took_eof got rest : line = got ++ 4 :: rest -> Forall (fun c => c <> 10 /\ c <> 4) got -> Z.of_nat (length got) < n ->
    took killed target n line Returned got (if n - Z.of_nat (length got) <? target then 4 :: rest else rest)
| took_all got : line = got -> Forall (fun c => c <> 10 /\ c <> 4) got -> Z.of_nat (length got) < n ->
    took killed target n line (if killed then Killed else Asleep (n - Z.of_nat (length got))) got [].

Lemma took_cons killed target n c line e got rest :
  0 < n -> c <> 10 -> c <> 4 -> took killed target (n - 1) line e got rest -> took killed target n (c :: line) e (c :: got) rest.
Proof.
  intros Hn H10 H4 [g r -> Hg Hl|g r -> Hg Hl|g r -> Hg Hl|g -> Hg Hl].
  - apply took_full; [done|by constructor|cbn [length]; lia].
  - apply (took_line _ _ _ _ (c :: g)); [done|by constructor|cbn [length]; lia].
  - replace (n - 1 - Z.of_nat (length g)) with (n - Z.of_nat (length (c :: g))) by (cbn [length]; lia).
    apply (took_eof _ _ _ _ (c :: g)); [done|by constructor|cbn [length]; lia].
  - replace (n - 1 - Z.of_nat (length g)) with (n - Z.of_nat (length (c :: g))) by (cbn [length]; lia).
    apply took_all; [done|by constructor|cbn [length]; lia].
Qed.

Lemma input_line_empty s line edit : input_is s line edit -> (cn_r s =? cn_w s) = bool_decide (line = []).
Proof.
  intros [Hr -> _ Hs _ _]. rewrite <- (u32_small (cn_r s)) at 1 by done. rewrite <- (Z.add_0_r (cn_r s)) at 1.
  rewrite counters_differ by (done || (rewrite ?length_app in *; lia)).
  destruct line; [done|]. rewrite bool_decide_false by done. apply Z.eqb_neq. cbn. lia.
Qed.

Lemma take_first s c line edit : input_is s (c :: line) edit ->
  cn_buf s (slot (cn_r s)) = c /\ input_is (set_input (cn_buf s) (u32 (cn_r s + 1)) (cn_w s) (cn_e s) s) line edit.
Proof.
  intros [Hr Hw He Hs Hd Hed]. cbn [app length held] in *. injection Hd as Hc Hd. split; [done|]. split; cbn; try done; [apply u32_range|..|lia].
  - rewrite Hw. unfold u32, u32_mod. zlia.
  - rewrite He. unfold u32, u32_mod. zlia.
Qed.

Lemma untake s s1 c line edit :
  input_is s (c :: line) edit -> s1 = set_input (cn_buf s) (u32 (cn_r s + 1)) (cn_w s) (cn_e s) s ->
  set_input (cn_buf s1) (u32 (cn_r s1 - 1)) (cn_w s1) (cn_e s1) s1 = s.
Proof.
  intros Hi ->. cbn. replace (u32 (u32 (cn_r s + 1) - 1)) with (cn_r s); [by destruct s|].
  pose proof (in_r _ _ _ Hi). unfold is_u32, u32, u32_mod in *. zlia.
Qed.

Lemma consoleread_ok fuel killed target n line edit s :
  typing (line, edit) s -> (length line < fuel)%nat ->
  wp (consoleread fuel killed target n) (fun r s' => exists rest, took killed target n line r.1 r.2 rest /\ typing (rest, edit) s') s.
Proof.
  revert n line s. induction fuel as [|fuel IH]; intros n line s [Hi Hs] Hf; [lia|]. cbn [consoleread fst snd] in *.
  destruct (Z.ltb_spec 0 n) as [Hn|Hn].
  2: { apply wp_ret. exists line. split; [|done]. apply took_full; [done|done|cbn; lia]. }
  apply wp_bind, wp_gets. rewrite (input_line_empty _ _ _ Hi). destruct line as [|c line].
  { rewrite bool_decide_true by done. apply wp_ret. exists []. split; [|done].
    replace n with (n - Z.of_nat (length (@nil Z))) at 2 by (cbn; lia). apply took_all; [done..|cbn; lia]. }
  rewrite bool_decide_false by done. destruct (take_first _ _ _ _ Hi) as [Hc Hi1]. apply wp_bind, wp_modify. rewrite Hc.
  set (s1 := set_input _ _ _ _ s) in *. assert (screen_ok s1) as Hs1 by done. change (ctrl 68) with 4.
  destruct (Z.eqb_spec c 4) as [->|H4].
  - apply wp_bind. assert (took killed target n (4 :: line) Returned [] (if n <? target then 4 :: line else line)) as Ht.
    { pose proof (took_eof killed target n (4 :: line) [] line eq_refl ltac:(done) ltac:(cbn; lia)) as Ht. cbn [length Z.of_nat] in Ht. by rewrite Z.sub_0_r in Ht. }
    destruct (n <? target); cbn [when]; [apply wp_modify|apply wp_ret]; apply wp_ret; [|by exists line].
    exists (4 :: line). split; [done|]. by rewrite (untake s s1 4 line edit Hi eq_refl).
  - destruct (Z.eqb_spec c 10) as [->|H10].
    + apply wp_ret. exists line. split; [|done]. apply (took_line _ _ _ _ []); [done..|cbn; lia].
    + apply wp_bind. cbn [length] in Hf. eapply wp_mono; [apply (IH (n - 1) line s1); [done|lia]|].
      intros [e got] s2 (rest & Ht & Ht2). apply wp_ret. exists rest. split; [by apply took_cons|done].
Qed.
