(* ===== verification/Kbd.v ===== *)
(** * kbd.c and kbd.h

    The keyboard driver: scan codes to characters.  The tables are those of
    kbd.h; [designated] is a C array of uchar whose first elements are listed
    and some others given by index.  The state is [shift], and a byte of the
    controller's status and data ports is an argument. *)

From S2P Require Import Prelude Ring Ulib Console.

Local Open Scope c_scope.
Local Open Scope Z_scope.

Definition SHIFT : Z := 1.
Definition CTL : Z := 2.
Definition ALT : Z := 4.
Definition CAPSLOCK : Z := 8.
Definition NUMLOCK : Z := 16.
Definition SCROLLLOCK : Z := 32.
Definition E0ESC : Z := 64.

Definition KEY_HOME : Z := 224.
Definition KEY_END : Z := 225.
Definition KEY_UP : Z := 226.
Definition KEY_DN : Z := 227.
Definition KEY_LF : Z := 228.
Definition KEY_RT : Z := 229.
Definition KEY_PGUP : Z := 230.
Definition KEY_PGDN : Z := 231.
Definition KEY_INS : Z := 232.
Definition KEY_DEL : Z := 233.

Fixpoint assoc (l : list (Z * Z)) (i : Z) : option Z :=
  match l with
  | [] => None
  | (k, v) :: l' => if i =? k then Some v else assoc l' i
  end.

Definition designated (first : list Z) (others : list (Z * Z)) (i : Z) : Z :=
  u8 (match assoc others i with Some v => v | None => nth (Z.to_nat i) first 0 end).

Definition shiftcode : Z -> Z := designated [] [(29, CTL); (42, SHIFT); (54, SHIFT); (56, ALT); (157, CTL); (184, ALT)].
Definition togglecode : Z -> Z := designated [] [(58, CAPSLOCK); (69, NUMLOCK); (70, SCROLLLOCK)].

Definition normalmap : Z -> Z :=
  designated
    [0; 27; 49; 50; 51; 52; 53; 54; 55; 56; 57; 48; 45; 61; 8; 9;
     113; 119; 101; 114; 116; 121; 117; 105; 111; 112; 91; 93; 10; 0; 97; 115;
     100; 102; 103; 104; 106; 107; 108; 59; 39; 96; 0; 92; 122; 120; 99; 118;
     98; 110; 109; 44; 46; 47; 0; 42; 0; 32; 0; 0; 0; 0; 0; 0;
     0; 0; 0; 0; 0; 0; 0; 55; 56; 57; 45; 52; 53; 54; 43; 49;
     50; 51; 48; 46; 0; 0; 0; 0]
    [(156, 10); (181, 47); (200, KEY_UP); (208, KEY_DN); (201, KEY_PGUP); (209, KEY_PGDN);
     (203, KEY_LF); (205, KEY_RT); (151, KEY_HOME); (207, KEY_END); (210, KEY_INS); (211, KEY_DEL)].

Definition shiftmap : Z -> Z :=
  designated
    [0; 27; 33; 64; 35; 36; 37; 94; 38; 42; 40; 41; 95; 43; 8; 9;
     81; 87; 69; 82; 84; 89; 85; 73; 79; 80; 123; 125; 10; 0; 65; 83;
     68; 70; 71; 72; 74; 75; 76; 58; 34; 126; 0; 124; 90; 88; 67; 86;
     66; 78; 77; 60; 62; 63; 0; 42; 0; 32; 0; 0; 0; 0; 0; 0;
     0; 0; 0; 0; 0; 0; 0; 55; 56; 57; 45; 52; 53; 54; 43; 49;
     50; 51; 48; 46; 0; 0; 0; 0]
    [(156, 10); (181, 47); (200, KEY_UP); (208, KEY_DN); (201, KEY_PGUP); (209, KEY_PGDN);
     (203, KEY_LF); (205, KEY_RT); (151, KEY_HOME); (207, KEY_END); (210, KEY_INS); (211, KEY_DEL)].

Definition ctlmap : Z -> Z :=
  designated
    [0; 0; 0; 0; 0; 0; 0; 0; 0; 0; 0; 0; 0; 0; 0; 0;
     17; 23; 5; 18; 20; 25; 21; 9; 15; 16; 0; 0; 13; 0; 1; 19;
     4; 6; 7; 8; 10; 11; 12; 0; 0; 0; 0; 28; 26; 24; 3; 22;
     2; 14; 13; 0; 0; -17; 0; 0]
    [(156, 13); (181, -17); (200, KEY_UP); (208, KEY_DN); (201, KEY_PGUP); (209, KEY_PGDN);
     (203, KEY_LF); (205, KEY_RT); (151, KEY_HOME); (207, KEY_END); (210, KEY_INS); (211, KEY_DEL)].

Definition charcode (i : Z) : Z -> Z := if i =? 0 then normalmap else if i =? 1 then shiftmap else ctlmap.

(** [x & ~y] on words *)
Definition clear (x y : Z) : Z := Z.ldiff x y.

(** [st] and [data] are what inb(KBSTATP) and inb(KBDATAP) return. *)
Definition kbdgetc (st data : Z) : M Z Z := fun shift =>
  if Z.land st 1 =? 0 then Done (-1) shift
  else if data =? 224 then Done 0 (Z.lor shift E0ESC)
  else if negb (Z.land data 128 =? 0) then
    let data := if negb (Z.land shift E0ESC =? 0) then data else Z.land data 127 in
    Done 0 (clear shift (Z.lor (shiftcode data) E0ESC))
  else
    let '(data, shift) := if negb (Z.land shift E0ESC =? 0) then (Z.lor data 128, clear shift E0ESC) else (data, shift) in
    let shift := Z.lxor (Z.lor shift (shiftcode data)) (togglecode data) in
    let c := charcode (Z.land shift (Z.lor CTL SHIFT)) data in
    let c :=
      if negb (Z.land shift CAPSLOCK =? 0) then
        if (97 <=? c) && (c <=? 122) then c + (65 - 97)
        else if (65 <=? c) && (c <=? 90) then c + (97 - 65) else c
      else c in
    Done c shift.

(** The characters getc hands to consoleintr for the scan codes [data] in the
    controller's buffer, and the state [shift] they leave *)
Fixpoint kbd_codes (data : list Z) (shift : Z) : list Z * Z :=
  match data with
  | [] => ([], shift)
  | d :: data' =>
      match kbdgetc 1 d shift with
      | Done c shift1 => let '(cs, shift2) := kbd_codes data' shift1 in (c :: cs, shift2)
      | _ => ([], shift)
      end
  end.

(** kbdintr: consoleintr with kbdgetc *)
Definition kbdintr (data : list Z) (shift : Z) : M console (bool * Z) :=
  dump <- consoleintr (fst (kbd_codes data shift)) ;;
  ret (dump, snd (kbd_codes data shift)).

(** ** Every state and scan code *)

Definition key_ok (shift data : Z) : bool :=
  match kbdgetc 1 data shift with
  | Done c shift' => (0 <=? c) && (c <? 256) && (0 <=? shift') && (shift' <? 128)
  | _ => false
  end.

(** Pressing and releasing a key toggles its lock and clears its modifier, and
    leaves the other bits. *)
Definition press_release_ok (shift data : Z) : bool :=
  match kbdgetc 1 data shift with
  | Done _ shift1 =>
      match kbdgetc 1 (Z.lor data 128) shift1 with
      | Done c shift2 => (c =? 0) && (shift2 =? clear (Z.lxor shift (togglecode data)) (shiftcode data))
      | _ => false
      end
  | _ => false
  end.

Lemma all_keys_ok : forallb (fun shift => forallb (key_ok shift) (seqZ 0 256)) (seqZ 0 128) = true.
Proof. vm_compute. reflexivity. Qed.

(** Scan code 0x60 with the release bit is the escape code 0xE0. *)
Lemma all_releases_ok :
  forallb (fun shift => forallb (fun data => (data =? 96) || press_release_ok shift data) (seqZ 0 128)) (seqZ 0 64) = true.
Proof. vm_compute. reflexivity. Qed.

Lemma forallb_range f n z : forallb f (seqZ 0 n) = true -> 0 <= z < n -> f z = true.
Proof. rewrite forallb_forall. intros H Hz. apply H, list_elem_of_In, elem_of_seqZ. lia. Qed.

Lemma key_in_range shift data : 0 <= shift < 128 -> 0 <= data < 256 ->
  exists c shift', kbdgetc 1 data shift = Done c shift' /\ 0 <= c < 256 /\ 0 <= shift' < 128.
Proof.
  intros Hs Hd. pose proof (forallb_range _ _ _ (forallb_range _ _ _ all_keys_ok Hs) Hd) as H. unfold key_ok in H.
  destruct (kbdgetc 1 data shift) as [c shift'|?|?|?]; try done. exists c, shift'. split; [done|].
  rewrite !andb_true_iff in H. lia.
Qed.

Lemma press_release shift data : 0 <= shift < 64 -> 0 <= data < 128 -> data <> 96 ->
  exists c shift1, kbdgetc 1 data shift = Done c shift1 /\
    kbdgetc 1 (Z.lor data 128) shift1 = Done 0 (clear (Z.lxor shift (togglecode data)) (shiftcode data)).
Proof.
  intros Hs Hd Hn. pose proof (forallb_range _ _ _ (forallb_range _ _ _ all_releases_ok Hs) Hd) as H. cbv beta in H.
  destruct (Z.eqb_spec data 96); [done|]. cbn [orb] in H. unfold press_release_ok in H.
  destruct (kbdgetc 1 data shift) as [c shift1|?|?|?]; try done. exists c, shift1. split; [done|].
  destruct (kbdgetc 1 (Z.lor data 128) shift1) as [c2 shift2|?|?|?]; try done.
  apply andb_true_iff in H as [->%Z.eqb_eq ->%Z.eqb_eq]. done.
Qed.

Lemma kbd_codes_bytes data shift : 0 <= shift < 128 -> Forall (fun d => 0 <= d < 256) data ->
  Forall (fun c => 0 <= c < 256) (fst (kbd_codes data shift)) /\ 0 <= snd (kbd_codes data shift) < 128 /\
  length (fst (kbd_codes data shift)) = length data.
Proof.
  intros Hs Hd. revert shift Hs. induction Hd as [|d data Hd Hds IH]; intros shift Hs; [done|]. cbn [kbd_codes].
  destruct (key_in_range shift d Hs Hd) as (c & shift1 & -> & Hc & Hs1). specialize (IH shift1 Hs1).
  destruct (kbd_codes data shift1) as [cs shift2]. cbn in *. split; [constructor; [done|apply IH]|]. split; [apply IH|]. f_equal. apply IH.
Qed.
