(* ===== verification/Umalloc.v ===== *)
(** * umalloc.c

    The allocator of user programs: a circular list of free blocks in the
    order of their addresses.  A pointer to a header is its address, and
    pointer arithmetic is in units of sizeof(Header) = 8 bytes.  Memory is
    seen through the two fields of the headers; that no two headers in use
    overlap is part of the invariant.

    sbrk is the system call: [grow brk n] says whether the kernel lets the
    process grow from [brk] by [n] bytes.

    The invariant: the free blocks are linked in the order of their addresses,
    circularly through [base], no two of them touch, and they are apart from
    the blocks that malloc has handed out.  free preserves it, finishes, and
    leaves alone the blocks in use; malloc is in UmallocAlloc.v. *)

From stdpp Require Import gmap sorting.
From S2P Require Import Prelude.

Local Open Scope c_scope.
Local Open Scope Z_scope.

Definition HEADER : Z := 8.   (* sizeof(Header) *)

Record heap := mkHeap {
  h_ptr : Z -> Z;       (* p->s.ptr *)
  h_size : Z -> Z;      (* p->s.size *)
  h_freep : Z;
  h_brk : Z;
}.

Definition set_ptr (p q : Z) (s : heap) : heap := mkHeap (<[p := q]> (h_ptr s)) (h_size s) (h_freep s) (h_brk s).
Definition set_size (p n : Z) (s : heap) : heap := mkHeap (h_ptr s) (<[p := u32 n]> (h_size s)) (h_freep s) (h_brk s).
Definition set_freep (p : Z) (s : heap) : heap := mkHeap (h_ptr s) (h_size s) p (h_brk s).
Definition set_brk (b : Z) (s : heap) : heap := mkHeap (h_ptr s) (h_size s) (h_freep s) b.

Definition ptr (p : Z) : M heap Z := gets (fun s => h_ptr s p).
Definition size (p : Z) : M heap Z := gets (fun s => h_size s p).

(** [p + n] on header pointers *)
Definition hadd (p n : Z) : Z := u32 (p + n * HEADER).

Section Umalloc.
Context (base : Z) (grow : Z -> Z -> bool).

(** The [for] loop of free: the header after which [bp] belongs *)
Fixpoint find_place (fuel : nat) (bp p : Z) : M heap Z :=
  match fuel with
  | O => out_of_fuel
  | S fuel' =>
      q <- ptr p ;;
      if (p <? bp) && (bp <? q) then ret p
      else if (q <=? p) && ((p <? bp) || (bp <? q)) then ret p
      else find_place fuel' bp q
  end.

(** The first [if] of free: join [bp] to the block after it, or link it *)
Definition join_next (bp p : Z) : M heap unit :=
  n <- size bp ;;
  q <- ptr p ;;
  if hadd bp n =? q then
    m <- size q ;;
    modify (set_size bp (n + m)) ;;
    r <- ptr q ;;
    modify (set_ptr bp r)
  else modify (set_ptr bp q).

(** The second [if]: join [bp] to the block before it, or link it *)
Definition join_prev (bp p : Z) : M heap unit :=
  n <- size p ;;
  if hadd p n =? bp then
    m <- size bp ;;
    modify (set_size p (n + m)) ;;
    r <- ptr bp ;;
    modify (set_ptr p r)
  else modify (set_ptr p bp).

(** free, with [fuel] for its loop *)
Definition free (fuel : nat) (ap : Z) : M heap unit :=
  let bp := hadd ap (-1) in
  freep <- gets h_freep ;;
  p <- find_place fuel bp freep ;;
  join_next bp p ;;
  join_prev bp p ;;
  modify (set_freep p).

(** sbrk(n): the old break, or -1 *)
Definition sbrk (n : Z) : M heap Z :=
  b <- gets h_brk ;;
  if grow b n then modify (set_brk (u32 (b + n))) ;; ret b else ret (-1).

Definition morecore (fuel : nat) (nu : Z) : M heap Z :=
  let nu := if nu <? 4096 then 4096 else nu in
  p <- sbrk (i32 (nu * HEADER)) ;;
  if p =? -1 then ret 0
  else
    modify (set_size p nu) ;;
    free fuel (hadd p 1) ;;
    gets h_freep.

(** The loop of malloc; [prevp] and [p] as in the code *)
Fixpoint malloc_loop (fuel : nat) (nunits prevp p : Z) : M heap Z :=
  match fuel with
  | O => out_of_fuel
  | S fuel' =>
      n <- size p ;;
      if nunits <=? n then
        (if n =? nunits then
           q <- ptr p ;;
           modify (set_ptr prevp q) ;;
           modify (set_freep prevp) ;;
           ret (hadd p 1)
         else
           modify (set_size p (n - nunits)) ;;
           n' <- size p ;;
           let p := hadd p n' in
           modify (set_size p nunits) ;;
           modify (set_freep prevp) ;;
           ret (hadd p 1))
      else
        freep <- gets h_freep ;;
        if p =? freep then
          p <- morecore fuel nunits ;;
          if p =? 0 then ret 0
          else q <- ptr p ;; malloc_loop fuel' nunits p q
        else q <- ptr p ;; malloc_loop fuel' nunits p q
  end.

(** nunits = (nbytes + sizeof(Header) - 1)/sizeof(Header) + 1, in 32 bits *)
Definition units (nbytes : Z) : Z := u32 (nbytes + HEADER - 1) / HEADER + 1.

Definition malloc (fuel : nat) (nbytes : Z) : M heap Z :=
  let nunits := units nbytes in
  freep <- gets h_freep ;;
  when (freep =? 0) (modify (set_ptr base base) ;; modify (set_freep base) ;; modify (set_size base 0)) ;;
  prevp <- gets h_freep ;;
  p <- ptr prevp ;;
  malloc_loop fuel nunits prevp p.
End Umalloc.

Abbreviation block := (prod Z Z).   (* the address of a header, its units *)

Definition hd_addr (l : list block) (nxt : Z) : Z := match l with [] => nxt | x :: _ => x.1 end.

Fixpoint linked (s : heap) (l : list block) (nxt : Z) : Prop :=
  match l with
  | [] => True
  | x :: l' => h_ptr s x.1 = hd_addr l' nxt /\ h_size s x.1 = x.2 /\ linked s l' nxt
  end.

Definition before (x y : block) : Prop := x.1 + HEADER * x.2 < y.1.

Definition apart (x y : block) : Prop := x.1 + HEADER * x.2 <= y.1 \/ y.1 + HEADER * y.2 <= x.1.

(** The units of the blocks of a list *)
Definition total (l : list block) : Z := foldr (fun x n => x.2 + n) 0 l.

(** The header words at [x] are those of [s] *)
Definition same (s s' : heap) (x : Z) : Prop := h_ptr s' x = h_ptr s x /\ h_size s' x = h_size s x.

(** Nothing in the block of [n] units at [a] has been written: no header that
    reaches into it has changed. *)
Definition untouched (s s' : heap) (a n : Z) : Prop :=
  forall x, a - HEADER < x < a + HEADER * n -> same s s' x.

(** A block of the heap, below [brk], apart from the blocks in use *)
Record fits (base brk : Z) (live : gmap Z Z) (x : block) : Prop := {
  f_units : 1 <= x.2;
  f_low : base + HEADER <= x.1;
  f_high : x.1 + HEADER * x.2 <= brk;
  f_apart : forall a n, live !! a = Some n -> apart x (a, n);
}.

(** [live]: the blocks in use, from the address of the header to the units;
    [fb]: the free blocks *)
Record heap_inv (base : Z) (s : heap) (fb : list block) (live : gmap Z Z) : Prop := {
  hi_base : 0 < base;
  hi_brk : base + HEADER <= h_brk s < 2147483648;
  hi_linked : linked s ((base, 0) :: fb) base;
  hi_sorted : StronglySorted before ((base, 0) :: fb);
  hi_freep : h_freep s ∈ map fst ((base, 0) :: fb);
  hi_free : Forall (fits base (h_brk s) live) fb;
  hi_live : forall a n, live !! a = Some n -> h_size s a = n /\ fits base (h_brk s) (delete a live) (a, n);
}.

Lemma linked_app s l1 l2 nxt :
  linked s (l1 ++ l2) nxt <-> linked s l1 (hd_addr l2 nxt) /\ linked s l2 nxt.
Proof.
  induction l1 as [|x l1 IH]; simpl; [tauto|].
  rewrite IH. replace (hd_addr (l1 ++ l2) nxt) with (hd_addr l1 (hd_addr l2 nxt)) by by destruct l1.
  tauto.
Qed.

Lemma linked_same s s' l nxt :
  (forall x, x ∈ l -> same s s' x.1) -> linked s l nxt -> linked s' l nxt.
Proof.
  induction l as [|x l IH]; simpl; [done|]. intros Hs (Hp & Hn & Hl).
  destruct (Hs x) as [-> ->]; [left|]. repeat split; try done. apply IH; [|done].
  intros y Hy. apply Hs. by right.
Qed.

(** A circular list may be read from any of its elements. *)
Lemma linked_rotate s l1 x l2 :
  linked s (l1 ++ x :: l2) (hd_addr (l1 ++ x :: l2) 0) ->
  linked s (x :: l2 ++ l1) x.1.
Proof.
  intros [H1 H2]%linked_app. change (x :: l2 ++ l1) with ((x :: l2) ++ l1). apply linked_app.
  simpl in H1 |- *. split; [|done]. by destruct l1.
Qed.

(** The test of the loop of free, as one proposition *)
Definition place (b p q : Z) : Prop := (p < b /\ b < q) \/ (q <= p /\ (p < b \/ b < q)).

Lemma find_place_ok s b l nxt fuel :
  linked s l nxt -> (exists x, x ∈ l /\ place b x.1 (h_ptr s x.1)) -> (length l <= fuel)%nat ->
  exists x, x ∈ l /\ find_place fuel b (hd_addr l nxt) s = Done x.1 s /\ place b x.1 (h_ptr s x.1).
Proof.
  revert fuel. induction l as [|x l IH]; intros fuel Hl (y & Hy & Hpl) Hf.
  { by apply elem_of_nil in Hy. }
  destruct fuel as [|fuel]; [simpl in Hf; lia|]. destruct Hl as (Hp & Hn & Hl). simpl.
  mstep (eq_refl : ptr x.1 s = Done (h_ptr s x.1) s). unfold place in *.
  destruct ((x.1 <? b) && (b <? h_ptr s x.1)) eqn:Hc1.
  { exists x. split; [left|]. split; [done|]. lia. }
  destruct ((h_ptr s x.1 <=? x.1) && ((x.1 <? b) || (b <? h_ptr s x.1))) eqn:Hc2.
  { exists x. split; [left|]. split; [done|]. lia. }
  apply elem_of_cons in Hy as [->|Hy]; [lia|].
  destruct (IH fuel Hl) as (z & Hz & Hrun & Hq); [by exists y|simpl in Hf; lia|].
  exists z. rewrite Hp. split; [by right|done].
Qed.

(** Splitting a sorted list at an address *)
Lemma heap_split (x0 : block) l b :
  StronglySorted before (x0 :: l) -> (forall x, x ∈ x0 :: l -> 0 <= x.2 /\ x.1 <> b) -> x0.1 < b ->
  exists l1 x l2, x0 :: l = l1 ++ x :: l2 /\ x.1 < b /\ (forall y, y ∈ l2 -> b < y.1).
Proof.
  revert x0. induction l as [|y l IH]; intros x0 Hs Hn Hb.
  { exists [], x0, []. repeat split; [done|]. intros y Hy. by apply elem_of_nil in Hy. }
  inversion Hs as [|? ? Hs' Hall]; subst.
  destruct (decide (y.1 < b)) as [Hyb|Hyb].
  - destruct (IH y Hs') as (l1 & x & l2 & -> & Hx & Hl2); [|done|].
    { intros z Hz. apply Hn. by right. }
    by exists (x0 :: l1), x, l2.
  - exists [], x0, (y :: l). repeat split; [done|]. intros z Hz.
    assert (y.1 < b \/ y.1 = b \/ b < y.1) as Hc by lia.
    destruct (Hn y) as [Hy0 Hyn]; [right; left|]. assert (b < y.1) by lia.
    apply elem_of_cons in Hz as [->|Hz]; [done|].
    inversion Hs' as [|? ? ? Hall']; subst. rewrite Forall_forall in Hall'.
    specialize (Hall' z Hz). unfold before, HEADER in Hall'. lia.
Qed.

Lemma sorted_join l1 (x y : block) l2 :
  StronglySorted before (l1 ++ [x]) -> StronglySorted before (y :: l2) -> before x y ->
  0 <= x.2 -> 0 <= y.2 ->
  StronglySorted before (l1 ++ x :: y :: l2).
Proof.
  intros H1 H2 Hxy Hx Hy.
  assert (forall z, z ∈ y :: l2 -> before x z) as Hxz.
  { intros z [->|Hz]%elem_of_cons; [done|]. inversion H2 as [|? ? ? Hall]; subst.
    rewrite Forall_forall in Hall. specialize (Hall z Hz). unfold before, HEADER in *. lia. }
  induction l1 as [|w l1 IH]; simpl in *.
  - constructor; [done|]. by apply Forall_forall.
  - inversion H1 as [|? ? H1' Hall]; subst. constructor; [by apply IH|].
    apply Forall_app in Hall as [Hl1 Hwx]. apply Forall_app. split; [done|].
    apply Forall_cons in Hwx as [Hwx _]. apply Forall_cons. split; [exact Hwx|]. apply Forall_forall. intros z Hz.
    specialize (Hxz z Hz). unfold before, HEADER in *. lia.
Qed.

(** The end of a block may move as long as it stays before the next one. *)
Lemma sorted_replace l1 (x x' : block) l2 :
  StronglySorted before (l1 ++ [x]) -> x'.1 = x.1 -> Forall (before x') l2 -> StronglySorted before l2 ->
  0 <= x'.2 ->
  StronglySorted before (l1 ++ x' :: l2).
Proof.
  intros H1 Ha Hl2 H2 Hn. induction l1 as [|w l1 IH]; simpl in *; [by constructor|].
  inversion H1 as [|? ? H1' Hall]; subst. constructor; [by apply IH|].
  apply Forall_app in Hall as [Hl1 [Hwx _]%Forall_cons]. apply Forall_app. split; [done|].
  assert (before w x') as Hw by (unfold before in *; lia).
  constructor; [done|]. eapply Forall_impl; [done|]. intros z Hz. unfold before, HEADER in *. lia.
Qed.

Lemma fits_join base brk live a n m :
  (forall b k, live !! b = Some k -> 1 <= k) ->
  fits base brk live (a, n) -> fits base brk live (a + HEADER * n, m) -> fits base brk live (a, n + m).
Proof.
  intros Hk [U1 L1 T1 A1] [U2 L2 T2 A2]. unfold HEADER in *. simpl in *.
  constructor; simpl; [lia|done|unfold HEADER; lia|].
  intros b k Hb. specialize (A1 b k Hb). specialize (A2 b k Hb). specialize (Hk b k Hb).
  unfold apart, HEADER in *. simpl in *. lia.
Qed.

Lemma live_units base s fb live b k : heap_inv base s fb live -> live !! b = Some k -> 1 <= k.
Proof. intros Hi Hb. by destruct (hi_live _ _ _ _ Hi b k Hb) as [_ [H _ _ _]]. Qed.

(** A fitting block has an address, a size and an end below 2^31. *)
Lemma fits_small base brk live x :
  0 < base -> brk < 2147483648 -> fits base brk live x ->
  is_u32 x.1 /\ is_u32 x.2 /\ hadd x.1 x.2 = x.1 + HEADER * x.2.
Proof.
  intros Hb Hbrk [U L T _]. unfold HEADER, is_u32, u32_mod, hadd in *.
  repeat split; try lia. rewrite u32_small; unfold is_u32, u32_mod, HEADER; lia.
Qed.

(** Only the header at [b] differs. *)
Definition only (b : Z) (s s' : heap) : Prop :=
  (forall x, x <> b -> same s s' x) /\ h_freep s' = h_freep s /\ h_brk s' = h_brk s.

Lemma only_ptr b q s : only b s (set_ptr b q s).
Proof. split; [|done]. intros x Hx. split; simpl; [by rewrite fn_lookup_insert_ne|done]. Qed.

Lemma only_size b n s : only b s (set_size b n s).
Proof. split; [|done]. intros x Hx. split; simpl; [done|by rewrite fn_lookup_insert_ne]. Qed.

Lemma only_trans b s s' s'' : only b s s' -> only b s' s'' -> only b s s''.
Proof.
  intros (H1 & F1 & B1) (H2 & F2 & B2). split; [|by rewrite F2, B2]. intros x Hx.
  destruct (H1 x Hx) as [P1 N1], (H2 x Hx) as [P2 N2]. unfold same. by rewrite P2, N2.
Qed.

(** No block that starts after [b] starts at [b]. *)
Lemma above_not_in b (l : list block) : (forall y, y ∈ l -> b < y.1) -> b ∉ map fst l.
Proof. intros H (y & -> & Hy)%list_elem_of_fmap. specialize (H y Hy). lia. Qed.

Lemma linked_only s s' b l nxt : only b s s' -> b ∉ map fst l -> linked s l nxt -> linked s' l nxt.
Proof.
  intros (Hs & _) Hb. apply linked_same. intros x Hx. apply Hs. intros <-.
  apply Hb. by apply list_elem_of_fmap_2.
Qed.

Lemma join_next_ok base s b n p l2 live :
  0 < base -> h_brk s < 2147483648 -> (forall a k, live !! a = Some k -> 1 <= k) ->
  h_size s b = n -> fits base (h_brk s) live (b, n) ->
  h_ptr s p = hd_addr l2 base -> linked s l2 base -> StronglySorted before l2 ->
  Forall (fits base (h_brk s) live) l2 -> (forall y, y ∈ l2 -> b + HEADER * n <= y.1) ->
  wp (join_next b p) (fun _ s' => only b s s' /\ exists m l2',
    n <= m /\ linked s' ((b, m) :: l2') base /\ StronglySorted before ((b, m) :: l2') /\
    Forall (fits base (h_brk s) live) ((b, m) :: l2') /\ m + total l2' = n + total l2 /\
    (length l2' <= length l2)%nat) s.
Proof.
  intros Hbase Hbrk Hk Hn Hf Hp Hl Hs Hfl Hafter. unfold join_next.
  destruct (fits_small _ _ _ _ Hbase Hbrk Hf) as (Hb32 & Hn32 & Hpadd). simpl in *.
  apply wp_bind, wp_gets, wp_bind, wp_gets. rewrite Hn, Hp, Hpadd.
  destruct Hf as [U L T A] eqn:Hfe. clear Hfe. simpl in *. destruct (Z.eqb_spec (b + HEADER * n) (hd_addr l2 base)) as [Hq|Hq].
  - destruct l2 as [|q l2]; simpl in Hq; [unfold HEADER in *; lia|].
    apply Forall_cons in Hfl as [Hfq Hfl]. destruct Hl as (Hpq & Hnq & Hl).
    inversion Hs as [|? ? Hs' Hall]; subst.
    assert (fits base (h_brk s) live (b, h_size s b + q.2)) as Hj.
    { apply fits_join; [done|done|]. rewrite Hq. by destruct q. }
    destruct (fits_small _ _ _ _ Hbase Hbrk Hj) as (_ & Hm32 & _). simpl in Hm32.
    assert (q.1 <> b) by (unfold HEADER in *; lia).
    assert (only b s (set_ptr b (hd_addr l2 base) (set_size b (h_size s b + q.2) s))) as Ho
      by (eapply only_trans; [apply only_size|apply only_ptr]).
    apply wp_bind, wp_gets, wp_bind, wp_modify, wp_bind, wp_gets, wp_modify. simpl.
    rewrite Hnq, Hpq. split; [done|].
    exists (h_size s b + q.2), l2. split; [destruct Hfq; lia|]. split.
    { simpl. rewrite !fn_lookup_insert, (u32_small _ Hm32). split; [done|]. split; [done|].
      eapply linked_only; [exact Ho|apply above_not_in|done].
      intros y Hy. specialize (Hafter y ltac:(by right)). unfold HEADER in *. lia. }
    split.
    { constructor; [done|]. eapply Forall_impl; [done|]. intros z. unfold before, HEADER in *. simpl. lia. }
    split; [by constructor|]. simpl. lia.
  - apply wp_modify. split; [apply only_ptr|]. exists n, l2. split; [lia|]. split.
    { simpl. rewrite fn_lookup_insert. split; [done|]. split; [done|].
      eapply linked_only; [apply only_ptr|apply above_not_in|done].
      intros y Hy. specialize (Hafter y Hy). unfold HEADER in *. lia. }
    split; [|split; [constructor; [by constructor|done]|lia]].
    constructor; [done|]. destruct l2 as [|q l2]; [constructor|]. simpl in Hq.
    inversion Hs as [|? ? Hs' Hall]; subst. pose proof (Hafter q ltac:(left)) as Hqa.
    apply Forall_cons in Hfl as [Hfq Hfl]. destruct Hfq as [Uq _ _ _]. constructor; [unfold before; simpl; lia|].
    eapply Forall_impl; [done|]. intros z. unfold before, HEADER in *. simpl. lia.
Qed.

Lemma join_prev_ok base s b m x l1 l2 live :
  0 < base -> h_brk s < 2147483648 -> (forall a k, live !! a = Some k -> 1 <= k) ->
  x = (base, 0) \/ fits base (h_brk s) live x -> x.1 + HEADER * x.2 <= b -> x.1 ∉ map fst l1 ->
  linked s l1 x.1 -> h_size s x.1 = x.2 -> linked s ((b, m) :: l2) base ->
  StronglySorted before (l1 ++ [x]) -> StronglySorted before ((b, m) :: l2) ->
  Forall (fits base (h_brk s) live) ((b, m) :: l2) ->
  wp (join_prev b x.1) (fun _ s' => only x.1 s s' /\ exists x' r,
    x'.1 = x.1 /\ (x = (base, 0) -> x' = x) /\ linked s' (l1 ++ x' :: r) base /\
    StronglySorted before (l1 ++ x' :: r) /\ (fits base (h_brk s) live x -> fits base (h_brk s) live x') /\
    Forall (fits base (h_brk s) live) r /\ x'.2 + total r = x.2 + m + total l2 /\
    (length r <= S (length l2))%nat /\ (exists y, y ∈ x' :: r /\ m <= y.2)) s.
Proof.
  intros Hbase Hbrk Hk Hx Hxb Hnin Hl1 Hnx Hl2 Hs1 Hs2 Hfl. unfold join_prev.
  destruct Hl2 as (Hpb & Hnb & Hl2). apply Forall_cons in Hfl as [Hfb Hfl]. simpl in *.
  assert (x.1 < b /\ 0 <= x.2 /\ hadd x.1 x.2 = x.1 + HEADER * x.2) as (Hlt & Hx0 & Hpadd).
  { destruct Hx as [->|Hx].
    - destruct Hfb as [U L T _]. unfold hadd, HEADER in *. simpl in *.
      rewrite u32_small by (unfold is_u32, u32_mod; lia). lia.
    - destruct (fits_small _ _ _ _ Hbase Hbrk Hx) as (_ & _ & ->). destruct Hx. unfold HEADER in *. lia. }
  assert (forall y, y ∈ l2 -> x.1 < y.1) as Habove.
  { intros y Hy. inversion Hs2 as [|? ? _ Hall]; subst. rewrite Forall_forall in Hall.
    specialize (Hall y Hy). destruct Hfb as [U _ _ _]. unfold before, HEADER in *. simpl in *. lia. }
  apply wp_bind, wp_gets. rewrite Hnx, Hpadd. destruct (Z.eqb_spec (x.1 + HEADER * x.2) b) as [Hj|Hj].
  - destruct Hx as [->|Hx]; [destruct Hfb; unfold HEADER in *; simpl in *; lia|].
    assert (fits base (h_brk s) live (x.1, x.2 + m)) as Hfj.
    { apply fits_join; [done|by destruct x|by rewrite Hj]. }
    destruct (fits_small _ _ _ _ Hbase Hbrk Hfj) as (_ & Hm32 & _). simpl in Hm32.
    assert (only x.1 s (set_ptr x.1 (hd_addr l2 base) (set_size x.1 (x.2 + m) s))) as Ho
      by (eapply only_trans; [apply only_size|apply only_ptr]).
    apply wp_bind, wp_gets, wp_bind, wp_modify, wp_bind, wp_gets, wp_modify. simpl.
    rewrite Hnb, Hpb. split; [done|]. exists (x.1, x.2 + m), l2. split; [done|].
    split; [destruct Hx; intros ->; simpl in *; lia|]. split; [|split; [|split; [done|split; [done|]]]];
      [..|simpl; split; [lia|split; [lia|]]; exists (x.1, x.2 + m); split; [left|simpl; lia]].
    + apply linked_app. split; [by eapply linked_only|]. simpl. fn_simp. rewrite (u32_small _ Hm32).
      repeat split; try done. eapply linked_only; [exact Ho|by apply above_not_in|done].
    + inversion Hs2 as [|? ? Hs2' Hall]; subst. eapply sorted_replace; [done|done| |done|].
      * eapply Forall_impl; [done|]. intros z. unfold before, HEADER. simpl. lia.
      * destruct Hfj. simpl in *. lia.
  - apply wp_modify. split; [apply only_ptr|]. exists x, ((b, m) :: l2). split; [done|]. split; [done|].
    assert (linked (set_ptr x.1 b s) ((b, m) :: l2) base) as Hl.
    { eapply linked_only; [apply only_ptr| |done]. apply above_not_in.
      intros y [->|Hy]%elem_of_cons; [done|by apply Habove]. }
    split; [|split; [|split; [done|split; [by constructor|]]]];
      [..|simpl; split; [lia|split; [lia|]]; exists (b, m); split; [right; left|done]].
    + apply linked_app. split; [eapply linked_only; [apply only_ptr|done|done]|].
      change (linked (set_ptr x.1 b s) ([x] ++ (b, m) :: l2) base). apply linked_app. split; [|done].
      simpl. by fn_simp.
    + apply sorted_join; [done|done|unfold before; simpl; lia|done|]. destruct Hfb. simpl in *. lia.
Qed.

(** The blocks of the list from [base] on, [base] being one of no units *)
Lemma all_units base s fb live x : heap_inv base s fb live -> x ∈ (base, 0) :: fb -> 0 <= x.2 /\ base <= x.1.
Proof.
  intros Hi [->|Hx]%elem_of_cons; [done|].
  pose proof (hi_free _ _ _ _ Hi) as Hf. rewrite Forall_forall in Hf. destruct (Hf x Hx). unfold HEADER in *. lia.
Qed.

Lemma free_apart base s fb live b n x :
  heap_inv base s fb live -> live !! b = Some n -> x ∈ (base, 0) :: fb ->
  x.1 + HEADER * x.2 <= b \/ b + HEADER * n <= x.1.
Proof.
  intros Hi Hb Hx. destruct (hi_live _ _ _ _ Hi b n Hb) as [_ [_ Lb _ _]]. simpl in *.
  apply elem_of_cons in Hx as [->|Hx]; [unfold HEADER in *; simpl; lia|].
  pose proof (hi_free _ _ _ _ Hi) as Hf. rewrite Forall_forall in Hf.
  by destruct (Hf x Hx) as [_ _ _ Hap]; apply (Hap b n).
Qed.

Lemma heap_next base s fb live l1 x l2 :
  heap_inv base s fb live -> (base, 0) :: fb = l1 ++ x :: l2 -> h_ptr s x.1 = hd_addr l2 base.
Proof.
  intros Hi Heq. pose proof (hi_linked _ _ _ _ Hi) as Hl. rewrite Heq in Hl.
  by apply linked_app in Hl as [_ (Hp & _)].
Qed.

(** The loop of free has somewhere to stop ... *)
Lemma place_exists base s fb live b n :
  heap_inv base s fb live -> live !! b = Some n ->
  exists x, x ∈ (base, 0) :: fb /\ place b x.1 (h_ptr s x.1).
Proof.
  intros Hi Hb. destruct (hi_live _ _ _ _ Hi b n Hb) as [_ [Ub Lb _ _]]. simpl in *.
  destruct (heap_split (base, 0) fb b (hi_sorted _ _ _ _ Hi)) as (l1 & x & l2 & Heq & Hxb & Hl2).
  - intros y Hy. destruct (all_units _ _ _ _ _ Hi Hy) as [Hy0 Hyb]. split; [done|].
    destruct (decide (y = (base, 0))) as [->|Hne]; [unfold HEADER in *; simpl; lia|].
    apply elem_of_cons in Hy as [?|Hy]; [done|]. pose proof (hi_free _ _ _ _ Hi) as Hf.
    rewrite Forall_forall in Hf. destruct (Hf y Hy) as [Uy _ _ Hap]. specialize (Hap b n Hb).
    unfold apart, HEADER in *. simpl in *. lia.
  - unfold HEADER in *. simpl. lia.
  - exists x. rewrite (heap_next _ _ _ _ _ _ _ Hi Heq). assert (x ∈ (base, 0) :: fb) as Hx by (rewrite Heq; set_solver).
    split; [done|]. destruct (all_units _ _ _ _ _ Hi Hx) as [_ Hxb']. unfold place.
    destruct l2 as [|y l2]; simpl; [lia|]. specialize (Hl2 y ltac:(left)). lia.
Qed.

(** ... and where it stops is the last free block before [b]. *)
Lemma place_here base s fb live b n l1 x l2 :
  heap_inv base s fb live -> live !! b = Some n -> (base, 0) :: fb = l1 ++ x :: l2 ->
  place b x.1 (h_ptr s x.1) ->
  x.1 + HEADER * x.2 <= b /\ (forall y, y ∈ l2 -> b + HEADER * n <= y.1).
Proof.
  intros Hi Hb Heq Hpl. rewrite (heap_next _ _ _ _ _ _ _ Hi Heq) in Hpl.
  destruct (hi_live _ _ _ _ Hi b n Hb) as [_ [Ub Lb _ _]]. simpl in *.
  pose proof (hi_sorted _ _ _ _ Hi) as Hs. rewrite Heq in Hs.
  assert (StronglySorted before (x :: l2)) as Hs2 by (by apply StronglySorted_app_1_r in Hs).
  assert (forall y, y ∈ x :: l2 -> 0 <= y.2 /\ (y.1 + HEADER * y.2 <= b \/ b + HEADER * n <= y.1)) as Hall.
  { intros y Hy. assert (y ∈ (base, 0) :: fb) as Hyin by (rewrite Heq; set_solver).
    split; [by eapply all_units|by eapply free_apart]. }
  destruct (Hall x ltac:(left)) as [Hx0 Hxa]. unfold place, HEADER in *.
  destruct l2 as [|y l2]; simpl in Hpl.
  { split; [lia|]. intros y Hy. by apply elem_of_nil in Hy. }
  destruct (Hall y ltac:(right; left)) as [Hy0 Hya].
  inversion Hs2 as [|? ? Hs3 Hxl]; subst. apply Forall_cons in Hxl as [Hxy _].
  inversion Hs3 as [|? ? _ Hyl]; subst. unfold before, HEADER in *. split; [lia|].
  intros z [->|Hz]%elem_of_cons; [lia|]. rewrite Forall_forall in Hyl. specialize (Hyl z Hz). simpl in Hyl. lia.
Qed.

Lemma free_place base s fb live b n fuel :
  heap_inv base s fb live -> live !! b = Some n -> (S (length fb) <= fuel)%nat ->
  exists l1 x l2, (base, 0) :: fb = l1 ++ x :: l2 /\
    find_place fuel b (h_freep s) s = Done x.1 s /\
    x.1 + HEADER * x.2 <= b /\ (forall y, y ∈ l2 -> b + HEADER * n <= y.1).
Proof.
  intros Hi Hb Hfuel. pose proof (hi_freep _ _ _ _ Hi) as Hfp.
  apply list_elem_of_fmap in Hfp as (f & Hfpe & (k1 & k2 & Hk)%list_elem_of_split).
  assert (linked s (f :: k2 ++ k1) f.1) as Hrot.
  { apply linked_rotate. rewrite <- Hk. exact (hi_linked _ _ _ _ Hi). }
  destruct (place_exists _ _ _ _ _ _ Hi Hb) as (x0 & Hx0 & Hpl0).
  destruct (find_place_ok s b (f :: k2 ++ k1) f.1 fuel Hrot) as (x & Hx & Hrun & Hpl).
  { exists x0. rewrite Hk in Hx0. split; [set_solver|done]. }
  { apply (f_equal length) in Hk. simpl in *. rewrite length_app in *. simpl in Hk. lia. }
  assert (x ∈ (base, 0) :: fb) as (l1 & l2 & Heq)%list_elem_of_split by (rewrite Hk; set_solver).
  exists l1, x, l2. rewrite Hfpe. split; [done|]. split; [done|]. by eapply place_here.
Qed.

Lemma fits_weaken base brk live live' x : live' ⊆ live -> fits base brk live x -> fits base brk live' x.
Proof. intros Hsub [U L T A]. constructor; try done. intros a n Ha. apply A. by eapply lookup_weaken. Qed.

(** [base] is the first of the list. *)
Lemma base_first base (fb l1 l2 : list block) x :
  (base, 0) :: fb = l1 ++ x :: l2 ->
  (l1 = [] /\ x = (base, 0) /\ fb = l2) \/ (exists l1', l1 = (base, 0) :: l1' /\ fb = l1' ++ x :: l2).
Proof. destruct l1 as [|y l1]; simpl; intros [= <- ->]; [by left|right; by exists l1]. Qed.

Lemma total_app l1 l2 : total (l1 ++ l2) = total l1 + total l2.
Proof. induction l1; simpl; lia. Qed.

(** The headers free writes reach into no block in use. *)
Lemma free_header_outside base s fb live x a k :
  heap_inv base s fb live -> x ∈ (base, 0) :: fb -> live !! a = Some k ->
  x.1 <= a - HEADER \/ a + HEADER * k <= x.1.
Proof.
  intros Hi Hx Ha. destruct (hi_live _ _ _ _ Hi a k Ha) as [_ [_ La _ _]]. simpl in La.
  destruct (free_apart _ _ _ _ _ _ _ Hi Ha Hx) as [H|H]; [left|by right].
  apply elem_of_cons in Hx as [->|Hx]; [simpl; lia|]. pose proof (hi_free _ _ _ _ Hi) as Hf.
  rewrite Forall_forall in Hf. destruct (Hf x Hx). unfold HEADER in *. lia.
Qed.

Lemma live_header_outside base s fb live b n a k :
  heap_inv base s fb live -> live !! b = Some n -> delete b live !! a = Some k ->
  b <= a - HEADER \/ a + HEADER * k <= b.
Proof.
  intros Hi Hb [Hne Ha]%lookup_delete_Some. pose proof (live_units _ _ _ _ _ _ Hi Hb).
  destruct (hi_live _ _ _ _ Hi a k Ha) as [_ [_ _ _ Hap]].
  specialize (Hap b n). rewrite lookup_delete_ne in Hap by done. specialize (Hap Hb).
  unfold apart, HEADER in *. simpl in *. lia.
Qed.

(** What joins and links leave alone. *)
Lemma untouched_only b p s s1 s2 a k :
  only b s s1 -> only p s1 s2 ->
  b <= a - HEADER \/ a + HEADER * k <= b -> p <= a - HEADER \/ a + HEADER * k <= p ->
  untouched s s2 a k.
Proof.
  intros (H1 & _) (H2 & _) Hb Hp x Hx. destruct (H1 x ltac:(lia)) as [P1 N1], (H2 x ltac:(lia)) as [P2 N2].
  unfold same. by rewrite P2, N2.
Qed.

(** The blocks that stay in use after [free] *)
Lemma live_after_free base s s' fb live b :
  heap_inv base s fb live -> h_brk s' = h_brk s ->
  (forall a k, delete b live !! a = Some k -> untouched s s' a k) ->
  forall a k, delete b live !! a = Some k ->
    h_size s' a = k /\ fits base (h_brk s') (delete a (delete b live)) (a, k).
Proof.
  intros Hi Hbrk Hun a k Ha. pose proof Ha as [_ Hal]%lookup_delete_Some.
  destruct (hi_live _ _ _ _ Hi a k Hal) as [Hsz Hf]. pose proof (live_units _ _ _ _ _ _ Hi Hal).
  split.
  - destruct (Hun a k Ha a) as [_ ->]; [unfold HEADER; lia|done].
  - rewrite Hbrk. eapply fits_weaken; [|done]. rewrite delete_delete. apply delete_subseteq.
Qed.

Lemma rebuild base s s' fb fb' live b :
  heap_inv base s fb live -> h_brk s' = h_brk s ->
  linked s' ((base, 0) :: fb') base -> StronglySorted before ((base, 0) :: fb') ->
  h_freep s' ∈ map fst ((base, 0) :: fb') -> Forall (fits base (h_brk s) (delete b live)) fb' ->
  (forall a k, delete b live !! a = Some k -> untouched s s' a k) ->
  heap_inv base s' fb' (delete b live).
Proof.
  intros Hi Hbrk Hl Hs Hf Hfl Hun. constructor; try done.
  - apply (hi_base _ _ _ _ Hi).
  - rewrite Hbrk. apply (hi_brk _ _ _ _ Hi).
  - by rewrite Hbrk.
  - by eapply live_after_free.
Qed.

Lemma padd_back b : is_u32 b -> hadd (hadd b 1) (-1) = b.
Proof. unfold hadd, is_u32, u32, u32_mod, HEADER. intros H. zlia. Qed.

(** What the list is around one of its blocks *)
Lemma list_around base s fb live l1 x l2 :
  heap_inv base s fb live -> (base, 0) :: fb = l1 ++ x :: l2 ->
  linked s l1 x.1 /\ h_size s x.1 = x.2 /\ linked s l2 base /\
  StronglySorted before (l1 ++ [x]) /\ StronglySorted before l2 /\ (x.1 ∉ map fst l1) /\
  (x = (base, 0) \/ fits base (h_brk s) live x) /\ Forall (fits base (h_brk s) live) l2.
Proof.
  intros Hi Heq. pose proof (hi_sorted _ _ _ _ Hi) as Hs. pose proof (hi_linked _ _ _ _ Hi) as Hl.
  rewrite Heq in Hs, Hl. apply linked_app in Hl as [Hl1 (_ & Hnx & Hl2)].
  change (x :: l2) with ([x] ++ l2) in Hs. rewrite (assoc_L (++)) in Hs.
  pose proof (StronglySorted_app_1_l _ _ _ Hs) as Hs1. pose proof (StronglySorted_app_1_r _ _ _ Hs) as Hs2.
  repeat split; try done.
  - intros (y & Hyx & Hy)%list_elem_of_fmap. assert (before y x) as Hlt.
    { eapply (StronglySorted_app_1_elem_of _ l1 [x]); [done|done|left]. }
    assert (y ∈ (base, 0) :: fb) as Hyin by (rewrite Heq; set_solver).
    destruct (all_units _ _ _ _ _ Hi Hyin). unfold before, HEADER in Hlt. lia.
  - pose proof (hi_free _ _ _ _ Hi) as Hf.
    destruct (base_first _ _ _ _ _ Heq) as [(_ & -> & _)|(l1' & _ & ->)]; [by left|right].
    by apply Forall_app in Hf as [_ [Hx _]%Forall_cons].
  - pose proof (hi_free _ _ _ _ Hi) as Hf.
    destruct (base_first _ _ _ _ _ Heq) as [(_ & _ & ->)|(l1' & _ & ->)]; [done|].
    by apply Forall_app in Hf as [_ [_ Hf]%Forall_cons].
Qed.

(** Putting the block at [b] after [x], the last free block before it *)
Lemma put_ok base s fb live b n l1 x l2 :
  heap_inv base s fb live -> live !! b = Some n -> (base, 0) :: fb = l1 ++ x :: l2 ->
  x.1 + HEADER * x.2 <= b -> (forall y, y ∈ l2 -> b + HEADER * n <= y.1) ->
  wp (join_next b x.1 ;; (join_prev b x.1)) (fun _ s2 => exists s1 x' r,
    only b s s1 /\ only x.1 s1 s2 /\ x'.1 = x.1 /\ (x = (base, 0) -> x' = x) /\
    linked s2 (l1 ++ x' :: r) base /\ StronglySorted before (l1 ++ x' :: r) /\
    (x <> (base, 0) -> fits base (h_brk s) (delete b live) x') /\
    Forall (fits base (h_brk s) (delete b live)) r /\ x'.2 + total r = x.2 + n + total l2 /\
    (length r <= S (length l2))%nat /\ (exists y, y ∈ x' :: r /\ n <= y.2)) s.
Proof.
  intros Hi Hb Heq Hxb Hl2. destruct (hi_live _ _ _ _ Hi b n Hb) as [Hszb Hfb].
  pose proof (hi_base _ _ _ _ Hi) as Hbase. pose proof (hi_brk _ _ _ _ Hi) as [_ Hbrk].
  assert (x ∈ (base, 0) :: fb) as Hx by (rewrite Heq; set_solver).
  assert (forall a k, delete b live !! a = Some k -> 1 <= k) as Hk.
  { intros a k [_ Ha]%lookup_delete_Some. by eapply live_units. }
  destruct (list_around _ _ _ _ _ _ _ Hi Heq) as (Hl1 & Hnx & Hl & Hs1 & Hs2 & Hnin & Hxf & Hfl).
  assert (forall y, fits base (h_brk s) live y -> fits base (h_brk s) (delete b live) y) as Hw
    by (intros y; apply fits_weaken, delete_subseteq).
  assert (b ∉ map fst (l1 ++ [x])) as Hnb.
  { intros (y & -> & Hy)%list_elem_of_fmap. assert (y ∈ (base, 0) :: fb) as Hyin by (rewrite Heq; set_solver).
    destruct (free_header_outside _ _ _ _ _ _ _ Hi Hyin Hb), Hfb; unfold HEADER in *; simpl in *; lia. }
  rewrite map_app in Hnb. apply not_elem_of_app in Hnb as [Hnb1 Hnbx]. apply wp_bind. eapply wp_mono.
  { eapply (join_next_ok base s b n x.1 l2 (delete b live)); try done.
    - by eapply heap_next.
    - by eapply Forall_impl. }
  intros _ s1 (Ho1 & m & l2' & Hnm & Hlb & Hsb & Hfb' & Htot1 & Hlen1). pose proof Ho1 as (Hsame & _ & Hbrk1).
  destruct (Hsame x.1) as [_ Hnx1]; [set_solver|]. rewrite <- Hbrk1 in Hbrk, Hfb', Hw, Hxf. eapply wp_mono.
  { eapply (join_prev_ok base s1 b m x l1 l2' (delete b live)); try done.
    - destruct Hxf; auto.
    - by eapply linked_only.
    - by rewrite Hnx1. }
  intros _ s2 (Ho2 & x' & r & Ha & Hxb' & Hlk & Hsr & Hfx & Hfr & Htot2 & Hlen2 & y & Hy & Hym).
  exists s1, x', r. rewrite <- Hbrk1. split_and!; try done; try apply Ho1; try apply Ho2; try lia.
  - intros Hne. destruct Hxf; [done|auto].
  - exists y. split; [done|lia].
Qed.

(** The list that results is one that starts with [base]. *)
Lemma refill base s fb live b n l1 x l2 x' r :
  heap_inv base s fb live -> (base, 0) :: fb = l1 ++ x :: l2 -> (x = (base, 0) -> x' = x) ->
  (x <> (base, 0) -> fits base (h_brk s) (delete b live) x') ->
  Forall (fits base (h_brk s) (delete b live)) r ->
  x'.2 + total r = x.2 + n + total l2 -> (length r <= S (length l2))%nat ->
  exists fb', (base, 0) :: fb' = l1 ++ x' :: r /\ Forall (fits base (h_brk s) (delete b live)) fb' /\
    total fb' = total fb + n /\ (length fb' <= S (length fb))%nat.
Proof.
  intros Hi Heq Hxb Hfx Hfr Htot Hlen. pose proof (hi_free _ _ _ _ Hi) as Hf.
  destruct (base_first _ _ _ _ _ Heq) as [(-> & -> & ->)|(l1' & -> & ->)].
  - exists r. rewrite (Hxb eq_refl) in *. repeat split; [done|simpl in Htot; lia|done].
  - exists (l1' ++ x' :: r). split; [done|]. rewrite !total_app, !length_app. simpl. split; [|split; lia].
    apply Forall_app in Hf as [Hf1 [Hx _]%Forall_cons]. apply Forall_app. split.
    + eapply Forall_impl; [done|]. intros y. apply fits_weaken, delete_subseteq.
    + constructor; [|done]. apply Hfx. intros ->. destruct Hx as [U _ _ _]. simpl in U. lia.
Qed.

Lemma free_ok base s fb live b n fuel :
  heap_inv base s fb live -> live !! b = Some n -> (S (length fb) <= fuel)%nat ->
  wp (free fuel (hadd b 1)) (fun _ s' => exists fb',
    heap_inv base s' fb' (delete b live) /\ total fb' = total fb + n /\ h_brk s' = h_brk s /\
    (length fb' <= S (length fb))%nat /\ (exists y, y ∈ (base, 0) :: fb' /\ n <= y.2) /\
    forall a k, delete b live !! a = Some k -> untouched s s' a k) s.
Proof.
  intros Hi Hb Hfuel.
  destruct (free_place _ _ _ _ _ _ _ Hi Hb Hfuel) as (l1 & x & l2 & Heq & Hrun & Hxb & Hl2).
  destruct (hi_live _ _ _ _ Hi b n Hb) as [_ Hfb]. pose proof (hi_brk _ _ _ _ Hi) as [_ Hbrk].
  destruct (fits_small _ _ _ _ (hi_base _ _ _ _ Hi) Hbrk Hfb) as (Hb32 & _ & _).
  unfold free. rewrite padd_back by done.
  apply wp_bind, wp_gets, wp_bind. eapply wp_intro; [exact Hrun|].
  pose proof (put_ok _ _ _ _ _ _ _ _ _ Hi Hb Heq Hxb Hl2) as Hput.
  apply wp_done in Hput as ([] & s2 & Hput & s1 & x' & r & Ho1 & Ho2 & Ha & Hxb' & Hlk & Hs & Hfx & Hfr & Htot & Hlen & y & Hy & Hny).
  apply bind_Done_inv in Hput as ([] & s1' & Hn & Hp). apply wp_bind. eapply wp_intro; [exact Hn|].
  apply wp_bind. eapply wp_intro; [exact Hp|]. apply wp_modify.
  assert (forall a k, delete b live !! a = Some k -> untouched s (set_freep x.1 s2) a k) as Hun.
  { intros a k Hk. apply (untouched_only b x.1 s s1 s2 a k Ho1 Ho2).
    - by eapply live_header_outside.
    - apply lookup_delete_Some in Hk as [_ Hk]. eapply free_header_outside; [done| |done].
      rewrite Heq. set_solver. }
  assert (h_brk (set_freep x.1 s2) = h_brk s) as Hbrk' by (destruct Ho1 as (_ & _ & <-), Ho2 as (_ & _ & <-); done).
  destruct (refill base s fb live b n l1 x l2 x' r) as (fb' & Heq' & Hfb' & Htot' & Hlen'); try done.
  rewrite <- Heq' in Hlk, Hs. exists fb'. split_and!; try done.
  - apply (rebuild base s _ fb); try done; [by apply (linked_same s2)|].
    rewrite Heq'. simpl. rewrite <- Ha, map_app. set_solver.
  - exists y. split; [rewrite Heq'; set_solver|done].
Qed.
