(* ===== verification/UmallocAlloc.v ===== *)
(** * malloc

    malloc takes a block from the free list, or grows the heap and then takes
    one: it always finishes, fails only when the kernel refuses to grow the
    process, and writes in no block in use. *)

From stdpp Require Import gmap sorting.
From S2P Require Import Prelude Umalloc.

Local Open Scope c_scope.
Local Open Scope Z_scope.

(** The kernel keeps a process below KERNBASE (allocuvm). *)
Definition grows_below_kernbase (grow : Z -> Z -> bool) : Prop :=
  forall b n, grow b n = true -> b + n < 2147483648.

Lemma live_below base s fb live a k :
  heap_inv base s fb live -> live !! a = Some k -> base + HEADER <= a /\ a + HEADER * k <= h_brk s /\ 1 <= k.
Proof. intros Hi Ha. by destruct (hi_live _ _ _ _ Hi a k Ha) as [_ [U L T _]]. Qed.

(** The new memory as a block in use *)
Lemma grown_inv base s fb live n :
  heap_inv base s fb live -> 1 <= n -> h_brk s + HEADER * n < 2147483648 ->
  heap_inv base (set_size (h_brk s) n (set_brk (u32 (h_brk s + HEADER * n)) s)) fb (<[h_brk s := n]> live).
Proof.
  intros Hi Hn Hbrk. pose proof (hi_base _ _ _ _ Hi) as Hb. pose proof (hi_brk _ _ _ _ Hi) as [Hlow _].
  assert (u32 (h_brk s + HEADER * n) = h_brk s + HEADER * n) as Hu.
  { apply u32_small. unfold is_u32, u32_mod, HEADER in *. lia. }
  pose proof (hi_free _ _ _ _ Hi) as Hf. rewrite Forall_forall in Hf.
  rewrite Hu. constructor; try done.
  - simpl. unfold HEADER in *. lia.
  - apply (linked_same s _ ((base, 0) :: fb)); [|exact (hi_linked _ _ _ _ Hi)]. intros x Hx. split; [done|]. simpl.
    rewrite fn_lookup_insert_ne; [done|]. apply elem_of_cons in Hx as [->|Hx]; [unfold HEADER in *; simpl; lia|].
    destruct (Hf x Hx). unfold HEADER in *. lia.
  - apply (hi_sorted _ _ _ _ Hi).
  - apply (hi_freep _ _ _ _ Hi).
  - apply Forall_forall. intros x Hx. destruct (Hf x Hx) as [U L T A].
    constructor; [done|done|simpl; unfold HEADER in *; lia|].
    intros a k [[<- <-]|[Hne Ha]]%lookup_insert_Some; [left; simpl; lia|by apply A].
  - intros a k [[<- <-]|[Hne Ha]]%lookup_insert_Some.
    + simpl. rewrite fn_lookup_insert. split; [apply u32_small; unfold is_u32, u32_mod, HEADER in *; lia|].
      constructor; simpl; [done|lia|lia|]. intros c m Hc. rewrite delete_insert_eq in Hc.
      apply lookup_delete_Some in Hc as [_ Hc]. destruct (live_below _ _ _ _ _ _ Hi Hc) as (_ & Hc' & _). right. simpl. lia.
    + destruct (hi_live _ _ _ _ Hi a k Ha) as [Hsz [U L T A]]. simpl in *.
      rewrite fn_lookup_insert_ne by done. split; [done|].
      constructor; simpl; [done|done|unfold HEADER in *; lia|].
      intros c m [Hne' Hc]%lookup_delete_Some. apply lookup_insert_Some in Hc as [[<- <-]|[_ Hc]].
      * left. simpl. lia.
      * apply A. by rewrite lookup_delete_ne.
Qed.

Section Alloc.
Context (base : Z) (grow : Z -> Z -> bool) (Hgrow : grows_below_kernbase grow).

Lemma brk_not_live s fb live : heap_inv base s fb live -> live !! h_brk s = None.
Proof.
  intros Hi. destruct (live !! h_brk s) as [k|] eqn:Hk; [|done].
  destruct (live_below _ _ _ _ _ _ Hi Hk). unfold HEADER in *. lia.
Qed.

(** The units morecore asks for *)
Definition core_units (nu : Z) : Z := if nu <? 4096 then 4096 else nu.

Lemma morecore_ok s fb live nu fuel :
  heap_inv base s fb live -> 1 <= nu -> HEADER * nu < 2147483648 -> (S (length fb) <= fuel)%nat ->
  wp (morecore grow fuel nu) (fun p s' =>
    (p = 0 /\ s' = s /\ grow (h_brk s) (HEADER * core_units nu) = false) \/
    exists fb', p = h_freep s' /\ heap_inv base s' fb' live /\ total fb' = total fb + core_units nu /\
      h_brk s' = h_brk s + HEADER * core_units nu /\
      (length fb' <= S (length fb))%nat /\ (exists y, y ∈ (base, 0) :: fb' /\ nu <= y.2) /\
      forall a k, live !! a = Some k -> untouched s s' a k) s.
Proof using Hgrow.
  intros Hi Hnu Hsmall Hfuel. unfold morecore. fold (core_units nu).
  assert (nu <= core_units nu /\ 1 <= core_units nu /\ HEADER * core_units nu < 2147483648) as (Hc1 & Hc2 & Hc3).
  { unfold core_units, HEADER in *. destruct (Z.ltb_spec nu 4096); lia. }
  generalize dependent (core_units nu). intros n Hn1 Hn2 Hn3.
  replace (i32 (n * HEADER)) with (HEADER * n) by (rewrite i32_small; unfold is_i32, HEADER in *; lia).
  unfold sbrk. apply wp_bind, wp_bind, wp_gets. destruct (grow (h_brk s) (HEADER * n)) eqn:Hg.
  2: { apply wp_ret. simpl. apply wp_ret. by left. }
  apply wp_bind, wp_modify, wp_ret. pose proof (hi_brk _ _ _ _ Hi) as [Hlow _]. pose proof (hi_base _ _ _ _ Hi).
  destruct (Z.eqb_spec (h_brk s) (-1)); [unfold HEADER in *; lia|].
  pose proof (grown_inv base s fb live n Hi Hn2 (Hgrow _ _ Hg)) as Hi1.
  pose proof (brk_not_live _ _ _ Hi) as Hnl.
  apply wp_bind, wp_modify, wp_bind. eapply wp_mono; [eapply free_ok; [done|apply lookup_insert_eq|done]|].
  rewrite delete_insert_id by done. intros _ s' (fb' & Hi' & Htot & Hbrk & Hlen & (y & Hy & Hny) & Hun).
  apply wp_gets. right. exists fb'. split_and!; try done.
  - rewrite Hbrk. simpl. apply u32_small. specialize (Hgrow _ _ Hg). unfold is_u32, u32_mod, HEADER in *. lia.
  - exists y. split; [done|lia].
  - intros a k Ha x Hx. destruct (live_below _ _ _ _ _ _ Hi Ha) as (_ & Hak & _).
    destruct (Hun a k Ha x Hx) as [P N]. simpl in *. split; [done|]. rewrite N.
    apply fn_lookup_insert_ne. lia.
Qed.
(** What malloc has done when it returns the block at [a] *)
Definition taken (nu : Z) (s : heap) (fb : list block) (live : gmap Z Z) (v : Z) (s' : heap) : Prop :=
  exists a fb', v = hadd a 1 /\ live !! a = None /\ heap_inv base s' fb' (<[a := nu]> live) /\
    total fb' = total fb - nu /\ h_brk s' = h_brk s /\
    forall b k, live !! b = Some k -> untouched s s' b k.

(** The block after [w], when it is not [base] *)
Lemma next_block s fb live w x :
  heap_inv base s fb live -> w ∈ (base, 0) :: fb -> x ∈ (base, 0) :: fb -> x.1 <> base -> h_ptr s w.1 = x.1 ->
  exists l1 l2, (base, 0) :: fb = l1 ++ w :: x :: l2.
Proof.
  intros Hi Hw Hx Hne Hp.
  assert (forall y, y ∈ (base, 0) :: fb -> h_size s y.1 = y.2) as Hsz.
  { intros y (k1 & k2 & Hk)%list_elem_of_split. by destruct (list_around _ _ _ _ _ _ _ Hi Hk) as (_ & ? & _). }
  apply list_elem_of_split in Hw as (l1 & l2 & Heq). exists l1.
  rewrite (heap_next _ _ _ _ _ _ _ Hi Heq) in Hp. destruct l2 as [|y l2]; simpl in Hp; [done|].
  exists l2. rewrite Heq. do 3 f_equal. assert (y ∈ (base, 0) :: fb) as Hy by (rewrite Heq; set_solver).
  apply Hsz in Hx, Hy. rewrite Hp in Hy. destruct x, y; simpl in *; congruence.
Qed.

(** Changing the list after [w] *)
Lemma retail s fb live l1 w r r' :
  heap_inv base s fb live -> (base, 0) :: fb = l1 ++ w :: r ->
  exists fb', (base, 0) :: fb' = l1 ++ w :: r' /\ total fb' = total fb - total r + total r' /\
    (forall P : block -> Prop, Forall P (tail (l1 ++ [w])) -> Forall P r' -> Forall P fb').
Proof.
  intros Hi Heq. destruct (base_first _ _ _ _ _ Heq) as [(-> & -> & ->)|(l1' & -> & ->)].
  - exists r'. split; [done|]. split; [lia|done].
  - exists (l1' ++ w :: r'). split; [done|]. rewrite !total_app. simpl. split; [lia|].
    intros P Hp Hr. change (w :: r') with ([w] ++ r'). rewrite (assoc_L (++)). by apply Forall_app.
Qed.

Lemma fits_sub brk live x a n :
  fits base brk live x -> 1 <= n -> x.1 <= a -> a + HEADER * n <= x.1 + HEADER * x.2 -> fits base brk live (a, n).
Proof.
  intros [U L T A] Hn Hlo Hhi. constructor; simpl; [done|lia|lia|].
  intros b k Hb. specialize (A b k Hb). unfold apart in *. simpl in *. lia.
Qed.

(** The other blocks of the list lie on one side of [x] or the other. *)
Lemma others_outside s fb live l1 x l2 y :
  heap_inv base s fb live -> (base, 0) :: fb = l1 ++ x :: l2 -> y ∈ l1 ++ l2 ->
  y.1 + HEADER * y.2 < x.1 \/ x.1 + HEADER * x.2 < y.1.
Proof.
  intros Hi Heq Hy. pose proof (hi_sorted _ _ _ _ Hi) as Hs. rewrite Heq in Hs.
  apply elem_of_app in Hy as [Hy|Hy].
  - left. change (before y x). eapply (StronglySorted_app_1_elem_of _ l1 (x :: l2)); [done|done|left].
  - right. apply StronglySorted_app_1_r, StronglySorted_inv in Hs as [_ Hall].
    rewrite Forall_forall in Hall. by apply Hall.
Qed.

(** A block of [nu] units at [a] leaves the free memory. *)
Lemma take_inv s s' fb fb' live a nu :
  heap_inv base s fb live -> h_brk s' = h_brk s ->
  linked s' ((base, 0) :: fb') base -> StronglySorted before ((base, 0) :: fb') ->
  h_freep s' ∈ map fst ((base, 0) :: fb') ->
  Forall (fits base (h_brk s) live) fb' -> Forall (fun y => apart y (a, nu)) fb' ->
  h_size s' a = nu -> fits base (h_brk s) live (a, nu) ->
  (forall b k, live !! b = Some k -> untouched s s' b k) ->
  live !! a = None /\ heap_inv base s' fb' (<[a := nu]> live).
Proof.
  intros Hi Hbrk Hl Hs Hfp Hf Hap Hsz Hfa Hun. split.
  { destruct (live !! a) as [k|] eqn:Ha; [|done]. pose proof (live_units _ _ _ _ _ _ Hi Ha).
    destruct Hfa as [U _ _ A]. specialize (A a k Ha). unfold apart, HEADER in *. simpl in *. lia. }
  constructor; try done.
  - apply (hi_base _ _ _ _ Hi).
  - rewrite Hbrk. apply (hi_brk _ _ _ _ Hi).
  - rewrite Hbrk. rewrite Forall_forall in Hf, Hap |- *. intros x Hx. destruct (Hf x Hx) as [U L T A].
    constructor; [done..|]. intros b k [[<- <-]|[_ Hb]]%lookup_insert_Some; [by apply Hap|by apply A].
  - rewrite Hbrk. intros b k [[<- <-]|[Hne Hb]]%lookup_insert_Some.
    + split; [done|]. eapply fits_weaken; [|done]. rewrite delete_insert_eq. apply delete_subseteq.
    + destruct (hi_live _ _ _ _ Hi b k Hb) as [Hszb [U L T A]]. split.
      { destruct (Hun b k Hb b) as [_ ->]; [unfold HEADER in *; simpl in *; lia|done]. }
      constructor; [done..|]. intros c m [Hne' Hc]%lookup_delete_Some.
      apply lookup_insert_Some in Hc as [[<- <-]|[_ Hc]]; [|apply A; by rewrite lookup_delete_ne].
      destruct Hfa as [_ _ _ A']. specialize (A' b k Hb). unfold apart in *. simpl in *. lia.
Qed.

(** [r] is what is left of [x :: l2] when [nu] units at [a], in [x], are taken. *)
Definition rest_of (x : block) (l2 : list block) (a nu : Z) (r : list block) : Prop :=
  (nu = x.2 /\ a = x.1 /\ r = l2) \/
  (1 <= x.2 - nu /\ a = x.1 + HEADER * (x.2 - nu) /\ r = (x.1, x.2 - nu) :: l2).

Lemma rest_sorted l1 w x l2 a nu r :
  rest_of x l2 a nu r -> 1 <= nu -> StronglySorted before (l1 ++ w :: x :: l2) -> StronglySorted before (l1 ++ w :: r).
Proof.
  intros Hr Hnu Hs. rewrite cons_middle, (assoc_L (++)) in Hs.
  pose proof (StronglySorted_app_1_r _ _ _ Hs) as [Hs2 Hxl]%StronglySorted_inv.
  change (w :: r) with ([w] ++ r). rewrite (assoc_L (++)). destruct Hr as [(_ & _ & ->)|(Hge & _ & ->)].
  - apply StronglySorted_app_2; [|by eapply StronglySorted_app_1_l|done].
    intros y z Hy Hz. eapply StronglySorted_app_1_elem_of; [done|done|by right].
  - eapply (sorted_replace _ x); [|done| |done|simpl; lia].
    + rewrite cons_middle, (assoc_L (++)) in Hs. by eapply StronglySorted_app_1_l.
    + eapply Forall_impl; [done|]. intros z. unfold before, HEADER. simpl. lia.
Qed.

Lemma take_common s s' fb live l1 w x l2 a nu r :
  heap_inv base s fb live -> (base, 0) :: fb = l1 ++ w :: x :: l2 -> 1 <= nu -> rest_of x l2 a nu r ->
  linked s' (l1 ++ w :: r) base -> h_brk s' = h_brk s -> h_freep s' = w.1 -> h_size s' a = nu ->
  (forall b k, live !! b = Some k -> untouched s s' b k) ->
  taken nu s fb live (hadd a 1) s'.
Proof.
  intros Hi Heq Hnu Hr Hl Hbrk Hfp Hsz Hun. pose proof Heq as Heqx. rewrite cons_middle, (assoc_L (++)) in Heqx.
  destruct (list_around _ _ _ _ _ _ _ Hi Heq) as (_ & _ & _ & _ & _ & _ & _ & [Hxf Hfl]%Forall_cons).
  destruct (retail s fb live l1 w (x :: l2) r Hi Heq) as (fb' & Heq' & Htot & Hall).
  pose proof (hi_sorted _ _ _ _ Hi) as Hs. rewrite Heq in Hs. apply (rest_sorted _ _ _ _ _ _ _ Hr Hnu) in Hs.
  rewrite <- Heq' in Hl, Hs.
  assert (forall y, y ∈ (l1 ++ [w]) ++ l2 -> y.1 + HEADER * y.2 < x.1 \/ x.1 + HEADER * x.2 < y.1) as Hout
    by (intros y; by eapply others_outside).
  assert (x.1 <= a /\ a + HEADER * nu <= x.1 + HEADER * x.2) as [Hlo Hhi]
    by (destruct Hr as [(-> & -> & _)|(? & -> & _)]; unfold HEADER; lia).
  assert (forall y, y ∈ (l1 ++ [w]) ++ l2 -> apart y (a, nu)) as Hap.
  { intros y Hy. specialize (Hout y Hy). unfold apart. simpl. lia. }
  destruct (take_inv s s' fb fb' live a nu) as [Hnone Hinv]; try done.
  - rewrite Hfp, Heq', map_app. set_solver.
  - apply Hall; [|by destruct Hr as [(_ & _ & ->)|(? & -> & ->)]; [|constructor; [eapply fits_sub; [done|..]; simpl; unfold HEADER in *; lia|]]].
    destruct (base_first _ _ _ _ _ Heqx) as [(Hl1 & _)|(k & Hk & Hfb)]; [by destruct l1|].
    rewrite Hk. simpl. pose proof (hi_free _ _ _ _ Hi) as Hf. rewrite Hfb in Hf. by apply Forall_app in Hf as [? _].
  - apply Hall; [apply Forall_forall; intros y Hy; apply Hap; destruct (l1 ++ [w]); set_solver|].
    destruct Hr as [(_ & _ & ->)|(? & -> & ->)]; [|constructor; [left; simpl; lia|]];
      apply Forall_forall; intros y Hy; apply Hap; set_solver.
  - by eapply fits_sub.
  - exists a, fb'. split_and!; try done. rewrite Htot. simpl.
    destruct Hr as [(-> & _ & ->)|(_ & _ & ->)]; simpl; lia.
Qed.

(** Taking the whole of the block [x] after [w] *)
Lemma take_whole s fb live l1 w x l2 :
  heap_inv base s fb live -> (base, 0) :: fb = l1 ++ w :: x :: l2 ->
  taken x.2 s fb live (hadd x.1 1) (set_freep w.1 (set_ptr w.1 (hd_addr l2 base) s)).
Proof.
  intros Hi Heq. assert (w ∈ (base, 0) :: fb) as Hw by (rewrite Heq; set_solver).
  destruct (list_around _ _ _ _ _ _ _ Hi Heq) as (Hl1 & Hnw & (Hpx & Hnx & Hl2) & _ & Hs2 & Hnin & Hwf & [[Ux _ _ _] Hfl]%Forall_cons).
  assert (only w.1 s (set_ptr w.1 (hd_addr l2 base) s)) as Ho by apply only_ptr.
  eapply take_common; try done; [by left|..].
  - apply (linked_same (set_ptr w.1 (hd_addr l2 base) s)); [done|]. apply linked_app.
    split; [by eapply linked_only|]. simpl. fn_simp. split_and!; try done.
    eapply linked_only; [done| |done]. apply above_not_in. intros y Hy.
    pose proof (hi_sorted _ _ _ _ Hi) as Hs. rewrite Heq in Hs.
    apply StronglySorted_app_1_r, StronglySorted_inv in Hs as [_ Hall]. rewrite Forall_forall in Hall.
    specialize (Hall y ltac:(by right)). destruct (all_units _ _ _ _ _ Hi Hw). unfold before, HEADER in *. lia.
  - intros b k Hb y Hy. destruct Ho as (Hsame & _). apply Hsame. intros ->.
    destruct (free_header_outside _ _ _ _ _ _ _ Hi Hw Hb); lia.
Qed.

(** Taking the tail of [x] *)
Lemma take_tail s fb live l1 w x l2 nu :
  heap_inv base s fb live -> (base, 0) :: fb = l1 ++ w :: x :: l2 -> 1 <= nu < x.2 ->
  let a := x.1 + HEADER * (x.2 - nu) in
  taken nu s fb live (hadd a 1) (set_freep w.1 (set_size a nu (set_size x.1 (x.2 - nu) s))).
Proof.
  intros Hi Heq Hnu a. assert (x ∈ (base, 0) :: fb) as Hx by (rewrite Heq; set_solver).
  pose proof Heq as Heqx. rewrite cons_middle, (assoc_L (++)) in Heqx.
  destruct (list_around _ _ _ _ _ _ _ Hi Heqx) as (Hl1 & Hnx & Hl2 & _ & _ & Hnin & [Hxb|Hxf] & Hfl).
  { rewrite Hxb in Hnu. simpl in Hnu. lia. }
  destruct (fits_small _ _ _ _ (hi_base _ _ _ _ Hi) (proj2 (hi_brk _ _ _ _ Hi)) Hxf) as (_ & Hx32 & _).
  assert (is_u32 nu /\ is_u32 (x.2 - nu)) as [Hu1 Hu2] by (unfold is_u32, u32_mod in *; lia).
  assert (a <> x.1) as Hax by (unfold a, HEADER; lia).
  set (s' := set_size a nu (set_size x.1 (x.2 - nu) s)).
  assert (forall y, y < x.1 \/ x.1 + HEADER * x.2 - HEADER < y -> same s s' y) as Hsame.
  { intros y Hy. assert (y <> a /\ y <> x.1) as [Hya Hyx] by (unfold a, HEADER in *; lia).
    split; [done|]. unfold s'. simpl. by rewrite !fn_lookup_insert_ne. }
  assert (forall y, y ∈ (l1 ++ [w]) ++ l2 -> same s s' y.1) as Hsame'.
  { intros y Hy. apply Hsame. assert (y ∈ (base, 0) :: fb) as Hyin by (rewrite Heq; set_solver).
    destruct (all_units _ _ _ _ _ Hi Hyin).
    destruct (others_outside _ _ _ _ _ _ _ Hi Heqx Hy); unfold HEADER in *; lia. }
  eapply (take_common s _ fb live l1 w x l2 a nu ((x.1, x.2 - nu) :: l2)); try done; [lia|right; split; [lia|done]|..].
  - apply (linked_same s'); [done|]. rewrite cons_middle, (assoc_L (++)). apply linked_app. split.
    { apply (linked_same s); [|done]. intros y Hy. apply Hsame'. set_solver. }
    destruct (list_around _ _ _ _ _ _ _ Hi Heq) as (_ & _ & (Hpx & _) & _).
    simpl. rewrite fn_lookup_insert_ne, fn_lookup_insert, u32_small by done. split_and!; try done.
    apply (linked_same s); [|done]. intros y Hy. apply Hsame'. set_solver.
  - simpl. rewrite fn_lookup_insert. by apply u32_small.
  - intros b k Hb y Hy. apply Hsame. destruct Hxf as [_ _ _ Hap]. specialize (Hap b k Hb).
    unfold apart, HEADER in *. simpl in *. lia.
Qed.

(** The body of the loop when the block fits *)
Lemma take_ok s fb live w x nu fuel :
  heap_inv base s fb live -> w ∈ (base, 0) :: fb -> x ∈ (base, 0) :: fb -> h_ptr s w.1 = x.1 -> 1 <= nu <= x.2 ->
  wp (malloc_loop grow (S fuel) nu w.1 x.1) (taken nu s fb live) s.
Proof.
  intros Hi Hw Hx Hp Hnu. pose proof Hx as (k1 & k2 & Hk)%list_elem_of_split.
  destruct (list_around _ _ _ _ _ _ _ Hi Hk) as (_ & Hnx & _ & _ & _ & _ & [->|Hxf] & _); [simpl in Hnu; lia|].
  assert (x.1 <> base) as Hne by (destruct Hxf; unfold HEADER in *; lia).
  destruct (next_block _ _ _ _ _ Hi Hw Hx Hne Hp) as (l1 & l2 & Heq).
  destruct (fits_small _ _ _ _ (hi_base _ _ _ _ Hi) (proj2 (hi_brk _ _ _ _ Hi)) Hxf) as (Ha32 & Hn32 & _).
  simpl. apply wp_bind, wp_gets. rewrite Hnx.
  destruct (Z.leb_spec nu x.2); [|lia]. destruct (Z.eqb_spec x.2 nu) as [<-|Hlt].
  - apply wp_bind, wp_gets, wp_bind, wp_modify, wp_bind, wp_modify, wp_ret.
    pose proof Heq as Heqx. rewrite cons_middle, (assoc_L (++)) in Heqx.
    rewrite (heap_next _ _ _ _ _ _ _ Hi Heqx). by eapply take_whole.
  - apply wp_bind, wp_modify, wp_bind, wp_gets, wp_bind, wp_modify, wp_bind, wp_modify, wp_ret. simpl.
    rewrite fn_lookup_insert, (u32_small (x.2 - nu)) by (unfold is_u32, u32_mod in *; lia).
    replace (hadd x.1 (x.2 - nu)) with (x.1 + HEADER * (x.2 - nu)).
    + eapply take_tail; [done|done|lia].
    + destruct Hxf as [_ _ T _]. pose proof (hi_brk _ _ _ _ Hi). unfold hadd. rewrite u32_small; [lia|].
      unfold is_u32, u32_mod, HEADER in *. lia.
Qed.

(** What the loop does at [freep], when nothing has fitted *)
Definition extend (k : nat) (nu : Z) : M heap Z :=
  p <- morecore grow (S k) nu ;;
  if p =? 0 then ret 0 else q <- ptr p ;; malloc_loop grow k nu p q.

(** The walk around the list, from the block after [w] to [f], which is [freep] *)
Lemma scan_ok s fb live f nu k (Q : Z -> heap -> Prop) todo w nxt :
  heap_inv base s fb live -> 1 <= nu -> h_freep s = f.1 -> f.1 ∉ map fst todo ->
  (forall x, x ∈ todo ++ [f] -> x ∈ (base, 0) :: fb) -> linked s (todo ++ [f]) nxt ->
  w ∈ (base, 0) :: fb -> h_ptr s w.1 = hd_addr (todo ++ [f]) nxt ->
  (forall v s', taken nu s fb live v s' -> Q v s') ->
  ((forall x, x ∈ todo ++ [f] -> x.2 < nu) -> wp (extend k nu) Q s) ->
  wp (malloc_loop grow (length todo + S k) nu w.1 (h_ptr s w.1)) Q s.
Proof.
  intros Hi Hnu Hfp. revert w. induction todo as [|x todo IH]; intros w Hnin Hin Hl Hw Hp Htake Hext.
  - simpl in Hp, Hl. rewrite Hp. destruct (decide (nu <= f.2)) as [Hfit|Hfit].
    { eapply wp_mono; [eapply take_ok; try done; apply Hin; set_solver|done]. }
    simpl. apply wp_bind, wp_gets. destruct Hl as (_ & -> & _). destruct (Z.leb_spec nu f.2); [lia|].
    apply wp_bind, wp_gets. rewrite Hfp, Z.eqb_refl. apply Hext.
    intros y [->|Hy]%elem_of_cons; [lia|by apply elem_of_nil in Hy].
  - simpl in Hp, Hl, Hnin. destruct Hl as (Hpx & Hnx & Hl). rewrite Hp.
    apply not_elem_of_cons in Hnin as [Hne Hnin].
    assert (x ∈ (base, 0) :: fb) as Hx by (apply Hin; left). destruct (decide (nu <= x.2)) as [Hfit|Hfit].
    { eapply wp_mono; [by eapply take_ok|done]. }
    change (length (x :: todo) + S k)%nat with (S (length todo + S k)).
    simpl. apply wp_bind, wp_gets. rewrite Hnx. destruct (Z.leb_spec nu x.2); [lia|].
    apply wp_bind, wp_gets. rewrite Hfp. destruct (Z.eqb_spec x.1 f.1); [congruence|].
    apply wp_bind, wp_gets. apply IH; try done.
    + intros y Hy. apply Hin. by right.
    + intros Hall. apply Hext. intros y [->|Hy]%elem_of_cons; [lia|by apply Hall].
Qed.

(** Once around the list, from the block after [freep] *)
Lemma round_ok s fb live nu k (Q : Z -> heap -> Prop) :
  heap_inv base s fb live -> 1 <= nu ->
  (forall v s', taken nu s fb live v s' -> Q v s') ->
  ((forall x, x ∈ (base, 0) :: fb -> x.2 < nu) -> wp (extend k nu) Q s) ->
  wp (malloc_loop grow (length fb + S k) nu (h_freep s) (h_ptr s (h_freep s))) Q s.
Proof.
  intros Hi Hnu Htake Hext. pose proof (hi_freep _ _ _ _ Hi) as Hfp.
  apply list_elem_of_fmap in Hfp as (f & Hfpe & Hfin). pose proof Hfin as (k1 & k2 & Hk)%list_elem_of_split.
  assert (linked s (f :: k2 ++ k1) f.1) as (Hpf & Hnf & Hrot).
  { apply linked_rotate. rewrite <- Hk. exact (hi_linked _ _ _ _ Hi). }
  destruct (list_around _ _ _ _ _ _ _ Hi Hk) as (_ & _ & _ & _ & _ & Hnin & _ & _).
  assert (forall x, x ∈ (k2 ++ k1) ++ [f] <-> x ∈ (base, 0) :: fb) as Hmem by (intros x; rewrite Hk; set_solver).
  replace (length fb) with (length (k2 ++ k1))
    by (apply (f_equal length) in Hk; simpl in Hk; rewrite length_app in *; simpl in Hk; lia).
  rewrite Hfpe. apply (scan_ok s fb live f nu k Q (k2 ++ k1) f (h_ptr s f.1)); try done.
  - rewrite map_app. apply not_elem_of_app. split; [|done]. apply above_not_in. intros y Hy.
    pose proof (hi_sorted _ _ _ _ Hi) as Hs. rewrite Hk in Hs.
    apply StronglySorted_app_1_r, StronglySorted_inv in Hs as [_ Hall]. rewrite Forall_forall in Hall.
    specialize (Hall y Hy). destruct (all_units _ _ _ _ _ Hi Hfin). unfold before, HEADER in *. lia.
  - intros x. apply Hmem.
  - apply linked_app. done.
  - rewrite Hpf at 1. by destruct (k2 ++ k1).
  - intros Hall. apply Hext. intros x Hx. by apply Hall, Hmem.
Qed.

(** What malloc promises: either the kernel has refused to grow the process,
    or a block of [nu] units has left the free memory, which may have grown. *)
Definition refused (nu : Z) (s : heap) (v : Z) (s' : heap) : Prop :=
  v = 0 /\ s' = s /\ grow (h_brk s) (HEADER * core_units nu) = false.

Definition allocated (nu : Z) (s : heap) (fb : list block) (live : gmap Z Z) (v : Z) (s' : heap) : Prop :=
  exists a fb', v = hadd a 1 /\ live !! a = None /\ heap_inv base s' fb' (<[a := nu]> live) /\
    HEADER * (total fb' + nu - total fb) = h_brk s' - h_brk s /\
    forall b k, live !! b = Some k -> untouched s s' b k.

Lemma malloc_loop_ok s fb live nu fuel :
  heap_inv base s fb live -> 1 <= nu -> HEADER * nu < 2147483648 -> (2 * length fb + 3 <= fuel)%nat ->
  wp (malloc_loop grow fuel nu (h_freep s) (h_ptr s (h_freep s)))
    (fun v s' => refused nu s v s' \/ allocated nu s fb live v s') s.
Proof using Hgrow.
  intros Hi Hnu Hsmall Hfuel.
  replace fuel with (length fb + S (fuel - S (length fb)))%nat by lia.
  set (k := (fuel - S (length fb))%nat). eapply round_ok; [done|done|..].
  { intros v s' (a & fb' & -> & Hnone & Hi' & Htot & Hbrk & Hun). right. exists a, fb'.
    split_and!; try done. rewrite Htot, Hbrk. lia. }
  intros _. unfold extend. apply wp_bind. eapply wp_mono; [by apply (morecore_ok s fb live); [..|lia]|].
  intros p s1 [(-> & -> & Hg)|(fb1 & -> & Hi1 & Htot1 & Hbrk1 & Hlen1 & (y & Hy & Hny) & Hun1)].
  { apply wp_ret. by left. }
  assert (h_freep s1 <> 0) as Hne.
  { pose proof (hi_freep _ _ _ _ Hi1) as (f & -> & Hf)%list_elem_of_fmap.
    destruct (all_units _ _ _ _ _ Hi1 Hf). pose proof (hi_base _ _ _ _ Hi1). lia. }
  destruct (Z.eqb_spec (h_freep s1) 0); [done|]. apply wp_bind, wp_gets.
  replace k with (length fb1 + S (k - S (length fb1)))%nat by lia. eapply round_ok; [done|done|..].
  2: { intros Hall. specialize (Hall y Hy). lia. }
  intros v s' (a & fb' & -> & Hnone & Hi' & Htot & Hbrk & Hun). right. exists a, fb'.
  split_and!; try done.
  - rewrite Htot, Hbrk, Hbrk1, Htot1. lia.
  - intros b j Hb x Hx. destruct (Hun b j Hb x Hx) as [P N], (Hun1 b j Hb x Hx) as [P1 N1].
    unfold same. by rewrite P, N.
Qed.

(** The allocator before the first call of malloc *)
Record unused (s : heap) : Prop := {
  un_freep : h_freep s = 0;
  un_base : 0 < base;
  un_brk : base + HEADER <= h_brk s < 2147483648;
}.

Definition first_list (s : heap) : heap := set_size base 0 (set_freep base (set_ptr base base s)).

Lemma unused_inv s : unused s -> heap_inv base (first_list s) [] ∅.
Proof.
  intros [F B K]. constructor; try done; simpl.
  - by fn_simp.
  - by repeat constructor.
  - left.
Qed.

Lemma unused_malloc s fuel nbytes :
  unused s -> malloc base grow fuel nbytes s = malloc base grow fuel nbytes (first_list s).
Proof.
  intros [F B K]. unfold malloc, bind, gets, when. rewrite F. simpl.
  by destruct (Z.eqb_spec base 0); [lia|].
Qed.

Lemma malloc_ok s fb live nbytes fuel :
  heap_inv base s fb live -> 1 <= units nbytes -> HEADER * units nbytes < 2147483648 ->
  (2 * length fb + 3 <= fuel)%nat ->
  wp (malloc base grow fuel nbytes)
    (fun v s' => refused (units nbytes) s v s' \/ allocated (units nbytes) s fb live v s') s.
Proof using Hgrow.
  intros Hi Hnu Hsmall Hfuel. unfold malloc. apply wp_bind, wp_gets.
  pose proof (hi_freep _ _ _ _ Hi) as (f & Hfp & Hf)%list_elem_of_fmap.
  destruct (all_units _ _ _ _ _ Hi Hf). pose proof (hi_base _ _ _ _ Hi).
  destruct (Z.eqb_spec (h_freep s) 0); [lia|]. apply wp_bind, wp_ret, wp_bind, wp_gets, wp_bind, wp_gets.
  by apply malloc_loop_ok.
Qed.
End Alloc.

(** The units are enough for the bytes asked for, below 2^32 - 8. *)
Lemma units_enough nbytes : 0 <= nbytes < u32_mod - HEADER ->
  1 <= units nbytes /\ nbytes <= HEADER * (units nbytes - 1) /\ HEADER * units nbytes <= nbytes + 2 * HEADER - 1.
Proof.
  intros H. unfold units. rewrite u32_small by (unfold is_u32, u32_mod, HEADER in *; lia).
  unfold HEADER, u32_mod in *. zlia.
Qed.

(** Nearer to 2^32 the sum overflows: the block has no room for any byte. *)
Lemma units_overflow nbytes : u32_mod - 7 <= nbytes < u32_mod -> units nbytes = 1.
Proof. unfold units, u32, u32_mod, HEADER. intros H. zlia. Qed.
