(* ===== verification/Grep.v ===== *)
(** * grep.c

    The matcher (match, matchhere, matchstar) and the loop that cuts the input
    into lines.  A C string is the list of its characters before the NUL, so
    [re[0] == 0] is the empty list and [text + 1] is the tail.  The matcher is
    compared with a denotation of the patterns; the loop with a filter on the
    lines of the input. *)

From S2P Require Import Prelude.

Local Open Scope Z_scope.

Abbreviation cstr := (list Z).

Definition ch_star : Z := 42.    (* '*' *)
Definition ch_dot : Z := 46.     (* '.' *)
Definition ch_hat : Z := 94.     (* '^' *)
Definition ch_dollar : Z := 36.  (* '$' *)
Definition ch_nl : Z := 10.      (* '\n' *)

(** ** The matcher *)

(** The do-while loop of matchstar; [here] is matchhere(re, .). *)
Fixpoint star_loop (here : cstr -> bool) (c : Z) (text : cstr) : bool :=
  if here text then true
  else
    match text with
    | [] => false
    | t :: text' => if (t =? c) || (c =? ch_dot) then star_loop here c text' else false
    end.

Fixpoint matchhere (re text : cstr) : bool :=
  match re with
  | [] => true
  | r0 :: re1 =>
      let rest :=
        if (r0 =? ch_dollar) && bool_decide (re1 = []) then bool_decide (text = [])
        else
          match text with
          | [] => false
          | t :: text' => if (r0 =? ch_dot) || (r0 =? t) then matchhere re1 text' else false
          end
      in
      match re1 with
      | r1 :: re2 => if r1 =? ch_star then star_loop (matchhere re2) r0 text else rest
      | [] => rest
      end
  end.

Definition matchstar (c : Z) (re text : cstr) : bool := star_loop (matchhere re) c text.

Fixpoint match_loop (re text : cstr) : bool :=
  if matchhere re text then true
  else
    match text with
    | [] => false
    | _ :: text' => match_loop re text'
    end.

Definition match_ (re text : cstr) : bool :=
  match re with
  | r0 :: re1 => if r0 =? ch_hat then matchhere re1 text else match_loop re text
  | [] => match_loop re text
  end.

(** ** The loop over the input *)

Definition BUFSIZE : nat := 1024.

(** strchr(p, c) in a NUL-terminated buffer: the index of the first [c], if no
    NUL comes before it. *)
Fixpoint strchr (p : cstr) (c : Z) : option nat :=
  match p with
  | [] => None
  | x :: p' => if x =? 0 then None else if x =? c then Some O else S <$> strchr p' c
  end.

(** The inner loop: lines of the buffer from [p] on; the lines written, and
    what is left from the last [p]. *)
Fixpoint lines_loop (fuel : nat) (pattern p out : cstr) : option (cstr * cstr) :=
  match fuel with
  | O => None
  | S fuel' =>
      match strchr p ch_nl with
      | None => Some (out, p)
      | Some q =>
          let line := take q p in
          let out' := if match_ pattern line then out ++ line ++ [ch_nl] else out in
          lines_loop fuel' pattern (drop (S q) p) out'
      end
  end.

Section Read.
(** read(fd, dst, n) hands over [amount left n] bytes of the input left. *)
Context (amount : cstr -> nat -> nat).

(** [buf] is what the buffer holds (its first [m] characters). *)
Fixpoint grep_loop (fuel : nat) (pattern buf input out : cstr) : option cstr :=
  match fuel with
  | O => None
  | S fuel' =>
      let n := amount input (BUFSIZE - length buf - 1) in
      if (n =? 0)%nat then Some out
      else
        let buf1 := buf ++ take n input in
        '(out1, p) ← lines_loop (S (length buf1)) pattern buf1 out;
        let buf2 := if (length p =? length buf1)%nat then [] else p in
        grep_loop fuel' pattern buf2 (drop n input) out1
  end.

Definition grep (pattern input : cstr) : option cstr :=
  grep_loop (S (length input)) pattern [] input [].
End Read.

(** ** What a pattern means *)

(** A character class, once or any number of times. *)
Inductive item := Once (c : Z) | Star (c : Z).

Definition class (c x : Z) : Prop := c = ch_dot \/ c = x.

Inductive denotes : list item -> cstr -> Prop :=
| denotes_nil : denotes [] []
| denotes_once c x its v : class c x -> denotes its v -> denotes (Once c :: its) (x :: v)
| denotes_star c u its v : Forall (class c) u -> denotes its v -> denotes (Star c :: its) (u ++ v).

(** The items of a pattern and whether it ends in the anchor [$]. *)
Fixpoint parse_items (re : cstr) : list item * bool :=
  match re with
  | [] => ([], false)
  | r0 :: re1 =>
      let rest :=
        if (r0 =? ch_dollar) && bool_decide (re1 = []) then ([], true)
        else let '(its, e) := parse_items re1 in (Once r0 :: its, e)
      in
      match re1 with
      | r1 :: re2 => if r1 =? ch_star then let '(its, e) := parse_items re2 in (Star r0 :: its, e) else rest
      | [] => rest
      end
  end.

(** [text] from its start on: items, then the end if the pattern is anchored. *)
Definition here_spec (re text : cstr) : Prop :=
  exists v w, text = v ++ w /\ denotes (parse_items re).1 v /\ ((parse_items re).2 = true -> w = []).

(** Somewhere in [text], or at its start after [^]. *)
Definition match_spec (re text : cstr) : Prop :=
  match re with
  | r0 :: re1 => if r0 =? ch_hat then here_spec re1 text else exists u v, text = u ++ v /\ here_spec re v
  | [] => True
  end.

(** ** The matcher is right *)

Lemma star_loop_spec here c text :
  star_loop here c text = true <->
  exists u v, text = u ++ v /\ Forall (class c) u /\ here v = true.
Proof.
  induction text as [|t text IH]; cbn [star_loop]; destruct (here _) eqn:Hh.
  - split; [|done]. intros _. by exists [], [].
  - split; [done|]. intros (u & v & Huv & _ & Hv). symmetry in Huv. apply app_nil in Huv as [-> ->]. congruence.
  - split; [|done]. intros _. by exists [], (t :: text).
  - destruct ((t =? c) || (c =? ch_dot)) eqn:Hc.
    + assert (class c t) as Hcl.
      { apply orb_true_iff in Hc as [H|H]; apply Z.eqb_eq in H; unfold class; auto. }
      rewrite IH. split.
      * intros (u & v & -> & Hu & Hv). exists (t :: u), v. auto.
      * intros ([|x u] & v & Huv & Hu & Hv); [simpl in Huv; congruence|].
        injection Huv as -> ->. apply Forall_cons in Hu as [_ Hu]. eauto.
    + split; [done|]. intros ([|x u] & v & Huv & Hu & Hv); [simpl in Huv; congruence|].
      injection Huv as -> ->. apply Forall_cons in Hu as [Hx _].
      apply orb_false_iff in Hc as [H1 H2]. apply Z.eqb_neq in H1, H2. destruct Hx; congruence.
Qed.

Lemma once_class r0 t : ((r0 =? ch_dot) || (r0 =? t)) = true <-> class r0 t.
Proof. unfold class. rewrite orb_true_iff, !Z.eqb_eq. done. Qed.

(** The three forms of a nonempty pattern. *)
Lemma matchhere_star r0 re2 text : matchhere (r0 :: ch_star :: re2) text = matchstar r0 re2 text.
Proof. done. Qed.

Definition is_star_next (re1 : cstr) : bool := match re1 with r1 :: _ => r1 =? ch_star | [] => false end.

Lemma matchhere_plain r0 re1 text :
  is_star_next re1 = false ->
  matchhere (r0 :: re1) text =
    if (r0 =? ch_dollar) && bool_decide (re1 = []) then bool_decide (text = [])
    else match text with [] => false | t :: text' => if (r0 =? ch_dot) || (r0 =? t) then matchhere re1 text' else false end.
Proof. intros Hs. destruct re1 as [|r1 re2]; [done|]. simpl in Hs. cbn [matchhere]. by rewrite Hs. Qed.

Lemma parse_plain r0 re1 :
  is_star_next re1 = false ->
  parse_items (r0 :: re1) =
    if (r0 =? ch_dollar) && bool_decide (re1 = []) then ([], true)
    else (Once r0 :: (parse_items re1).1, (parse_items re1).2).
Proof.
  intros Hs. destruct re1 as [|r1 re2].
  - cbn. by destruct (r0 =? ch_dollar).
  - simpl in Hs. set (re := r1 :: re2). cbn [parse_items]. unfold re at 1. rewrite Hs.
    destruct (_ && _); [done|]. by destruct (parse_items re).
Qed.

Lemma parse_star r0 re2 :
  parse_items (r0 :: ch_star :: re2) = (Star r0 :: (parse_items re2).1, (parse_items re2).2).
Proof. cbn. by destruct (parse_items re2). Qed.

Lemma here_spec_star r0 re2 text :
  here_spec (r0 :: ch_star :: re2) text <->
  exists u v, text = u ++ v /\ Forall (class r0) u /\ here_spec re2 v.
Proof.
  unfold here_spec. rewrite parse_star. simpl. split.
  - intros (v & w & -> & Hd & Hw). inversion Hd; subst. exists u, (v0 ++ w). rewrite app_assoc. eauto 10.
  - intros (u & v0 & -> & Hu & v & w & -> & Hd & Hw). exists (u ++ v), w. rewrite app_assoc.
    split; [done|]. split; [by constructor|done].
Qed.

Lemma here_spec_once r0 re1 text :
  is_star_next re1 = false -> (r0 =? ch_dollar) && bool_decide (re1 = []) = false ->
  here_spec (r0 :: re1) text <-> exists t text', text = t :: text' /\ class r0 t /\ here_spec re1 text'.
Proof.
  intros Hs Hd. unfold here_spec. rewrite parse_plain, Hd by done. simpl. split.
  - intros (v & w & -> & Hv & Hw). inversion Hv; subst. simpl. eauto 10.
  - intros (t & text' & -> & Hc & v & w & -> & Hv & Hw). exists (t :: v), w.
    split; [done|]. split; [by constructor|done].
Qed.

Lemma matchhere_spec re text : matchhere re text = true <-> here_spec re text.
Proof.
  remember (length re) as n eqn:Hn. revert re text Hn.
  induction n as [n IH] using lt_wf_ind. intros [|r0 re1] text ->.
  { split; [|done]. intros _. exists [], text. split; [done|]. split; [constructor|done]. }
  destruct (is_star_next re1) eqn:Hs.
  - destruct re1 as [|r1 re2]; [done|]. apply Z.eqb_eq in Hs as ->.
    rewrite matchhere_star, here_spec_star. unfold matchstar. rewrite star_loop_spec.
    assert (forall v, matchhere re2 v = true <-> here_spec re2 v) as Hre2
      by (intros v; apply (IH (length re2)); simpl; lia || done).
    by setoid_rewrite Hre2.
  - rewrite matchhere_plain by done. destruct (_ && _) eqn:Hd.
    + unfold here_spec. rewrite parse_plain, Hd by done. simpl. rewrite bool_decide_eq_true. split.
      * intros ->. exists [], []. split; [done|]. split; [constructor|done].
      * intros (v & w & -> & Hv & Hw). inversion Hv; subst. by apply Hw.
    + rewrite here_spec_once by done. destruct text as [|t text]; [naive_solver|].
      pose proof (once_class r0 t) as Hcl. destruct (_ || _).
      * rewrite (IH (length re1)) by (simpl; lia || done). naive_solver.
      * split; [done|]. intros (? & ? & [= <- <-] & Hc & _). by apply Hcl.
Qed.

Lemma match_loop_spec re text : match_loop re text = true <-> exists u v, text = u ++ v /\ here_spec re v.
Proof.
  induction text as [|t text IH]; cbn [match_loop]; destruct (matchhere _ _) eqn:Hm.
  - apply matchhere_spec in Hm. split; [|done]. intros _. by exists [], [].
  - split; [done|]. intros (u & v & Huv & Hv). symmetry in Huv. apply app_nil in Huv as [-> ->].
    apply matchhere_spec in Hv. congruence.
  - apply matchhere_spec in Hm. split; [|done]. intros _. by exists [], (t :: text).
  - rewrite IH. split.
    + intros (u & v & -> & Hv). by exists (t :: u), v.
    + intros ([|x u] & v & Huv & Hv).
      * apply matchhere_spec in Hv. simpl in Huv. congruence.
      * injection Huv as -> ->. eauto.
Qed.

Lemma match_spec_ok re text : match_ re text = true <-> match_spec re text.
Proof.
  destruct re as [|r0 re1]; cbn [match_ match_spec].
  - split; [done|]. intros _. by destruct text.
  - destruct (r0 =? ch_hat); [apply matchhere_spec|apply match_loop_spec].
Qed.

(** ** The lines of the input *)

(** The complete lines, and what follows the last newline. *)
Fixpoint lines (l : cstr) : list cstr * cstr :=
  match l with
  | [] => ([], [])
  | c :: l' =>
      let '(ls, r) := lines l' in
      if c =? ch_nl then ([] :: ls, r)
      else match ls with [] => ([], c :: r) | x :: ls' => ((c :: x) :: ls', r) end
  end.

Definition chosen (pattern : cstr) (ls : list cstr) : cstr :=
  concat ((fun x => x ++ [ch_nl]) <$> filter (fun x => match_ pattern x = true) ls).

Abbreviation no_nl := (Forall (fun x => x <> ch_nl)).

Lemma lines_prefix a b : no_nl a ->
  lines (a ++ b) = match lines b with
                   | ([], r) => ([], a ++ r)
                   | (x :: ls, r) => ((a ++ x) :: ls, r)
                   end.
Proof.
  induction a as [|c a IH]; intros Ha; [simpl; by destruct (lines b) as [[|] ?]|].
  apply Forall_cons in Ha as [Hc Ha]. simpl. rewrite IH by done. apply Z.eqb_neq in Hc. rewrite Hc.
  by destruct (lines b) as [[|] ?].
Qed.

Lemma lines_rem_no_nl l : no_nl (lines l).2.
Proof.
  induction l as [|c l IH]; simpl; [constructor|]. destruct (lines l) as [[|x ls] r]; simpl in *.
  all: destruct (Z.eqb_spec c ch_nl); simpl; auto.
Qed.

Lemma lines_rem_nonzero l : Forall (fun x => x <> 0) l -> Forall (fun x => x <> 0) (lines l).2.
Proof.
  induction l as [|c l IH]; simpl; [constructor|]. intros [Hc Hl]%Forall_cons. specialize (IH Hl).
  destruct (lines l) as [[|x ls] r]; simpl in *. all: destruct (Z.eqb_spec c ch_nl); simpl; auto.
Qed.

Lemma lines_app a b :
  lines (a ++ b) = ((lines a).1 ++ (lines ((lines a).2 ++ b)).1, (lines ((lines a).2 ++ b)).2).
Proof.
  induction a as [|c a IH]; simpl; [by destruct (lines b)|]. rewrite IH. clear IH.
  pose proof (lines_rem_no_nl a) as Hr. destruct (lines a) as [[|x ls] r]; simpl in *.
  all: destruct (Z.eqb_spec c ch_nl) as [|Hc]; simpl; try done.
  - apply Z.eqb_neq in Hc. rewrite Hc. by destruct (lines (r ++ b)) as [[|] ?].
Qed.

Lemma lines_no_nl a : no_nl a -> lines a = ([], a).
Proof. intros Ha. rewrite <- (app_nil_r a) at 1. rewrite lines_prefix by done. simpl. by rewrite app_nil_r. Qed.

Lemma chosen_app pattern l1 l2 : chosen pattern (l1 ++ l2) = chosen pattern l1 ++ chosen pattern l2.
Proof. unfold chosen. by rewrite filter_app, fmap_app, concat_app. Qed.

Lemma strchr_None p : Forall (fun x => x <> 0) p -> strchr p ch_nl = None -> no_nl p.
Proof.
  induction p as [|x p IH]; intros H0 Hn; [constructor|]. apply Forall_cons in H0 as [Hx H0].
  simpl in Hn. destruct (Z.eqb_spec x 0); [done|]. destruct (Z.eqb_spec x ch_nl); [done|].
  constructor; [done|]. apply IH; [done|]. by destruct (strchr p ch_nl).
Qed.

Lemma strchr_Some p q :
  strchr p ch_nl = Some q -> p = take q p ++ ch_nl :: drop (S q) p /\ no_nl (take q p).
Proof.
  revert q. induction p as [|x p IH]; intros q Hq; [done|]. simpl in Hq.
  destruct (x =? 0); [done|]. destruct (Z.eqb_spec x ch_nl) as [->|Hx].
  - injection Hq as <-. split; [done|constructor].
  - destruct (strchr p ch_nl) as [k|]; [|done]. injection Hq as <-. destruct (IH k eq_refl) as [Hp Hn].
    simpl. split; [by rewrite <- Hp|]. by constructor.
Qed.

Lemma lines_loop_spec fuel pattern p out :
  Forall (fun x => x <> 0) p -> (length p < fuel)%nat ->
  lines_loop fuel pattern p out = Some (out ++ chosen pattern (lines p).1, (lines p).2).
Proof.
  revert p out. induction fuel as [|fuel IH]; intros p out H0 Hf; [lia|]. cbn [lines_loop].
  destruct (strchr p ch_nl) as [q|] eqn:Hq.
  - destruct (strchr_Some p q Hq) as [Hp Hn]. set (x := take q p) in *. set (y := drop (S q) p) in *.
    rewrite Hp in H0 |- *. clearbody x y. subst p. rewrite IH.
    + rewrite lines_prefix by done. cbn [lines]. rewrite Z.eqb_refl. destruct (lines y) as [ls r]. simpl.
      rewrite app_nil_r. f_equal. f_equal. unfold chosen. rewrite filter_cons.
      destruct (decide (match_ pattern x = true)) as [->|Hm]; simpl; [by rewrite <- !app_assoc|].
      by destruct (match_ pattern x).
    + apply Forall_app in H0 as [_ H0]. by apply Forall_cons in H0 as [_ ?].
    + rewrite length_app in Hf. simpl in Hf. lia.
  - apply strchr_None in Hq; [|done]. rewrite lines_no_nl by done. simpl. by rewrite app_nil_r.
Qed.

(** ** grep on a file *)

(** A regular file hands over as much as is asked for and there is. *)
Definition file_amount (left : cstr) (n : nat) : nat := Nat.min n (length left).

Definition short (x : cstr) : Prop := (length x < BUFSIZE - 1)%nat.

Definition short_lines (l : cstr) : Prop := Forall short (lines l).1 /\ short (lines l).2.

Lemma short_prefix a b : no_nl a -> short_lines (a ++ b) -> short a.
Proof.
  intros Ha [Hf Hr]. rewrite lines_prefix in Hf, Hr by done. unfold short in *.
  destruct (lines b) as [[|x ls] r]; simpl in *; [rewrite length_app in Hr; lia|].
  apply Forall_cons in Hf as [Hx _]. rewrite length_app in Hx. lia.
Qed.

Lemma short_rest a b : short_lines (a ++ b) -> short_lines ((lines a).2 ++ b).
Proof. unfold short_lines. rewrite lines_app. simpl. by intros [[_ ?]%Forall_app ?]. Qed.

Lemma lines_nothing_or_less l : (lines l).1 = [] /\ (lines l).2 = l \/ (length (lines l).2 < length l)%nat.
Proof.
  induction l as [|c l IH]; simpl; [by left|]. destruct (lines l) as [[|x ls] r]; simpl in *.
  all: destruct (c =? ch_nl); simpl; intuition (subst; auto with lia).
  all: right; lia.
Qed.

Lemma grep_loop_file pattern fuel buf input out :
  Forall (fun x => x <> 0) (buf ++ input) -> no_nl buf -> short_lines (buf ++ input) ->
  (length input < fuel)%nat ->
  grep_loop file_amount fuel pattern buf input out = Some (out ++ chosen pattern (lines (buf ++ input)).1).
Proof.
  revert buf input out. induction fuel as [|fuel IH]; intros buf input out H0 Hb Hs Hf; [lia|].
  cbn [grep_loop]. pose proof (short_prefix buf input Hb Hs) as Hsb. unfold short in Hsb.
  set (n := file_amount input (BUFSIZE - length buf - 1)).
  assert (n = Nat.min (BUFSIZE - length buf - 1) (length input)) as Hn by done. clearbody n.
  destruct (Nat.eqb_spec n 0) as [Hz|Hnz].
  { assert (length input = 0)%nat as ->%nil_length_inv by lia.
    rewrite app_nil_r, lines_no_nl by done. simpl. by rewrite app_nil_r. }
  pose proof (take_drop n input) as Hxy. pose proof (length_take input n) as Hlx.
  pose proof (length_drop input n) as Hly. set (x := take n input) in *. set (y := drop n input) in *.
  clearbody x y. rewrite <- Hxy, app_assoc in H0, Hs |- *. apply Forall_app in H0 as [H01 H02].
  rewrite lines_loop_spec by (done || lia). simpl. rewrite (lines_app (buf ++ x)). simpl. rewrite chosen_app, app_assoc.
  destruct (lines_nothing_or_less (buf ++ x)) as [[Hl1 Hl2]|Hlt].
  - rewrite Hl1, Hl2, Nat.eqb_refl.
    pose proof (lines_rem_no_nl (buf ++ x)) as Hno. rewrite Hl2 in Hno.
    pose proof (short_prefix _ _ Hno Hs) as Hsh. unfold short in Hsh. rewrite length_app in Hsh.
    assert (length y = 0)%nat as ->%nil_length_inv by lia.
    rewrite !app_nil_r, Hl1. destruct fuel as [|fuel]; [lia|]. simpl. by rewrite !app_nil_r.
  - destruct (Nat.eqb_spec (length (lines (buf ++ x)).2) (length (buf ++ x))); [lia|].
    apply IH; [| |by apply short_rest|lia].
    + apply Forall_app. split; [|done]. by apply lines_rem_nonzero.
    + apply lines_rem_no_nl.
Qed.

Lemma grep_file pattern input :
  Forall (fun x => x <> 0) input -> short_lines input ->
  grep file_amount pattern input = Some (chosen pattern (lines input).1).
Proof. intros H0 Hs. unfold grep. rewrite grep_loop_file by (done || lia). done. Qed.

(** Lines, each with its newline, and the text after the last newline *)
Definition file_text (ls : list cstr) (rest : cstr) : cstr := concat ((fun x => x ++ [ch_nl]) <$> ls) ++ rest.

Lemma lines_text ls rest : Forall no_nl ls -> no_nl rest -> lines (file_text ls rest) = (ls, rest).
Proof.
  unfold file_text. intros Hls Hr. induction Hls as [|x ls Hx _ IH]; [by apply lines_no_nl|].
  cbn [fmap list_fmap concat]. rewrite <- !app_assoc, lines_prefix by done. cbn [app lines]. rewrite IH, Z.eqb_refl.
  by rewrite app_nil_r.
Qed.

Lemma grep_text pattern ls rest :
  Forall no_nl ls -> no_nl rest -> Forall (fun x => x <> 0) (file_text ls rest) -> Forall short ls -> short rest ->
  grep file_amount pattern (file_text ls rest) = Some (chosen pattern ls).
Proof.
  intros Hls Hr H0 Hs Hsr. rewrite grep_file by (done || (split; by rewrite lines_text)). by rewrite lines_text.
Qed.
