(* ===== verification/SchedProps.v ===== *)
(** * What the scheduler and the process table guarantee

    The properties of proc.c and trap.c, each with a concrete run that meets
    its hypotheses. *)

From S2P Require Import Prelude Mem KState Spinlock SkipList SkipListInv SkipListInsert.
From S2P Require Import SkipListDelete Mem KEnv Proc ProcQueue ProcInv ProcSwitch.
From S2P Require Import ProcLife ProcExit Boot Trap TrapInv System BumpEnv Random.

Local Open Scope c_scope.

(** ** More concrete states *)

(** init yields; the child's deadline is the earlier one. *)
Definition yielded : kst Z := final (run EvYield) with_child.

Lemma yielded_inv : inv yielded.
Proof. apply final_inv; [apply with_child_inv| |reflexivity]. exists 0. vm_compute. done. Qed.

#[local] Opaque booted running with_child yielded.

(** ** The properties *)

Section Props.
Context {E : Type} `{HE : KEnv E} {F : fault -> Prop} `{HK : !KEnvOk E F}.
Implicit Types s : kst E.

(** C1: every event of the system (a turn of the scheduler, an interrupt or a
    fault, yield, sleep, wakeup, fork, exit, wait, kill), in any state that
    satisfies the invariant of the process table, either runs to its end and
    re-establishes the invariant, or stops with the one panic that [event_panic]
    gives for it, and then it always does: a nice value out of range, the end of
    init by exit, by kill or by a fault, and a fault of the kernel itself.
    Otherwise an event does not panic, dereference a null pointer or run out of
    fuel; the remaining faults are those [F] of the operations of the allocator,
    the page tables and the file system.  delete does not find the process in
    the word that it reads outside the node array ([stray_ok]). *)
Theorem event_preserves_invariant (stray : kst E -> nptr -> option nat)
    (ideintr kbdintr uartintr : M (kst E) unit) ev s :
  (forall p, p < NPROC -> stray_ok stray p) ->
  handler_ok (F := F) ideintr -> handler_ok (F := F) kbdintr -> handler_ok (F := F) uartintr ->
  inv s -> enabled ev s ->
  match event_panic ev s with
  | Some msg => wpf (fun f => F f \/ f = FPanic msg) (exec stray ideintr kbdintr uartintr ev) (fun _ _ => False) s
  | None => wpf F (exec stray ideintr kbdintr uartintr ev) (fun _ s' => inv s') s
  end.
Proof. intros. by apply exec_ok. Qed.

(** C3: every state that the kernel reaches from boot, by pinit, userinit and
    any sequence of events, satisfies the invariant: the run queue is a
    well-formed skip list holding exactly the RUNNABLE and RUNNING processes in
    deadline order, the RUNNING process is the one on the processor, no lock is
    held, processes that do not run have a context to resume, live processes
    have a kernel stack and a page directory, and no parent is a zombie. *)
Theorem reachable_invariant (stray : kst E -> nptr -> option nat)
    (ideintr kbdintr uartintr : M (kst E) unit) e s :
  (forall p, p < NPROC -> stray_ok stray p) ->
  handler_ok (F := F) ideintr -> handler_ok (F := F) kbdintr -> handler_ok (F := F) uartintr ->
  ke_inv e -> reachable stray ideintr kbdintr uartintr e s ->
  inv s.
Proof. intros. by eapply (reachable_inv_lemma stray ideintr kbdintr uartintr). Qed.

(** C2: one turn of the scheduler picks a RUNNABLE process whose virtual
    deadline is the earliest of all RUNNABLE processes, makes it RUNNING with a
    full quantum on the processor and leaves every other process as it was;
    it picks none only when no process is RUNNABLE. *)
Theorem scheduler_picks_earliest s :
  inv s -> c_proc (k_cpu s) = None ->
  wp scheduler_pick (fun r s' =>
    match r with
    | None => inv s' /\ forall p, p < NPROC -> p_state (k_proc s p) <> RUNNABLE
    | Some p =>
        p < NPROC /\ p_state (k_proc s p) = RUNNABLE /\ c_proc (k_cpu s') = Some p /\
        k_proc s' p = set_p_ticks_left BFS_DEFAULT_QUANTUM (set_p_state RUNNING (k_proc s p)) /\
        (forall q, q <> p -> k_proc s' q = k_proc s q) /\
        (forall q, q < NPROC -> p_state (k_proc s q) = RUNNABLE ->
           (p_virt_deadline (k_proc s p) <= p_virt_deadline (k_proc s q))%Z)
    end) s.
Proof.
  intros Hinv Hcp. eapply wp_mono; [by apply scheduler_pick_ok|]. intros [p|] s'; cbn beta iota.
  - intros (Hp & Hst & [] & Hmin). done.
  - naive_solver.
Qed.

(** C8: insert, on a well-formed skip list that does not hold the process,
    finishes without a panic and links it at its place in deadline order on as
    many levels as the random numbers say (at least one, at most LEVELS),
    without disturbing the order of the others; the list is well formed again
    and max_skiplist_level counts the levels. *)
Theorem insert_enqueues s ps p :
  skiplist s ps -> p < NPROC -> p ∉ ps 0 ->
  let lvl := fst (roll LEVELS 0 (k_seed s)) in
  1 <= lvl <= LEVELS /\
  exists nd, let s' := inserted p lvl (snd (roll LEVELS 0 (k_seed s))) nd s in
    insert p s = Done (Z.of_nat lvl) s' /\
    skiplist s' (fun l => if bool_decide (l < lvl) then enqueue (deadline s) p (ps l) else ps l).
Proof.
  intros Hs Hp Hn lvl. pose proof (roll_bounds LEVELS 0 (k_seed s)) as Hb. rewrite LEVELS_eq in *.
  split; [subst lvl; rewrite LEVELS_eq; lia|]. subst lvl. rewrite <- LEVELS_eq in *. by apply insert_spec.
Qed.

(** C9: delete of a process of the list finishes, returns the number of levels
    it was on, unlinks it from all of them and keeps the others in order, when
    the stray words its search may read name no process. *)
Theorem delete_dequeues stray s ps p :
  skiplist s ps -> p ∈ ps 0 -> stray_ok stray p ->
  exists nd, delete stray p s = Done (p_max_skiplist_level (k_proc s p)) (deleted p nd s) /\
    skiplist (deleted p nd s) (fun l => dequeue p (ps l)).
Proof. apply delete_spec. Qed.

(** Deleting what was just inserted gives back the same queue on every
    level, and leaves the other processes' fields alone. *)
Theorem delete_insert_roundtrip stray s ps p :
  skiplist s ps -> p < NPROC -> p ∉ ps 0 -> stray_ok stray p ->
  wp (insert p ;; delete stray p) (fun v s' =>
    v = Z.of_nat (fst (roll LEVELS 0 (k_seed s))) /\
    (exists ps', skiplist s' ps' /\ forall l, l < LEVELS -> ps' l = ps l) /\
    forall q, q <> p -> k_proc s' q = k_proc s q) s.
Proof.
  intros Hs Hp Hn Hst. destruct (insert_spec s ps p Hs Hp Hn) as (nd & Hi & Hs').
  assert (p ∈ enqueued (deadline s) p (fst (roll LEVELS 0 (k_seed s))) ps 0) as Hin.
  { pose proof (roll_bounds LEVELS 0 (k_seed s)). unfold enqueued. rewrite bool_decide_true.
    - apply elem_of_enqueue. by left.
    - rewrite LEVELS_eq in *. lia. }
  destruct (delete_spec stray _ _ p Hs' Hin Hst) as (nd' & Hd & Hs'').
  apply wp_bind. eapply wp_intro; [exact Hi|]. eapply wp_intro; [exact Hd|].
  split; [by table|]. split.
  - eexists. split; [exact Hs''|]. intros l Hl. cbn beta.
    destruct Hs as [[slot Hwf] _]. destruct (wf_level _ _ _ _ Hwf l Hl).
    assert (p ∉ ps l) as Hnl by (intros Hpl; by eapply Hn, wf_subset).
    unfold enqueued. case_bool_decide; [by apply dequeue_enqueue|by apply dequeue_absent].
  - intros q Hq. by table.
Qed.

(** C12: when a process of deadline before [ticks + BFS_DEFAULT_QUANTUM] is in
    the queue, a process enqueued with a freshly computed deadline goes behind
    it, whatever its nice value: the processes up to it keep their places, so
    no stream of yields, forks or wakeups with fresh deadlines can starve it. *)
Theorem fresh_deadline_goes_behind s ps p q l r nice :
  skiplist s ps -> p < NPROC -> p ∉ ps 0 -> ps 0 = l ++ q :: r ->
  (NICE_FIRST_LEVEL <= nice <= NICE_LAST_LEVEL)%Z ->
  (0 <= k_ticks s <= 2147483647 - 40 * BFS_DEFAULT_QUANTUM)%Z ->
  p_virt_deadline (k_proc s p) = computevd nice (k_ticks s) ->
  (p_virt_deadline (k_proc s q) < k_ticks s + BFS_DEFAULT_QUANTUM)%Z ->
  wp (insert p) (fun _ s' => exists ps' r', skiplist s' ps' /\ ps' 0 = l ++ q :: r' /\ p ∈ r') s.
Proof.
  intros Hs Hp Hn Hq Hnice Ht Hd Hlt. pose proof Hs as [[slot Hwf] _].
  destruct (insert_spec s ps p Hs Hp Hn) as (nd & Hi & Hs'). eapply wp_intro; [exact Hi|].
  destruct (enqueue_behind (deadline s) p q l r) as (r' & He & Hin & _).
  { rewrite <- Hq. by apply (lo_sorted _ _ _ _ _ (wf_level _ _ _ _ Hwf 0 ltac:(rewrite LEVELS_eq; lia))). }
  { unfold deadline. rewrite Hd, computevd_exact by done.
    unfold NICE_FIRST_LEVEL, NICE_LAST_LEVEL, BFS_DEFAULT_QUANTUM in *. nia. }
  eexists _, r'. split; [exact Hs'|]. split; [|done]. unfold enqueued. rewrite bool_decide_true.
  - by rewrite Hq.
  - pose proof (roll_bounds LEVELS 0 (k_seed s)). rewrite LEVELS_eq in *. lia.
Qed.

(** The deadline of a process is its nice level's offset above the clock,
    between one and forty quanta, as long as the clock is forty quanta away
    from the largest int; then no addition or multiplication overflows. *)
Theorem deadline_window nice t :
  (NICE_FIRST_LEVEL <= nice <= NICE_LAST_LEVEL)%Z ->
  (0 <= t <= 2147483647 - 40 * BFS_DEFAULT_QUANTUM)%Z ->
  computevd nice t = (t + (nice + 21) * BFS_DEFAULT_QUANTUM)%Z /\
  (t + BFS_DEFAULT_QUANTUM <= computevd nice t <= t + 40 * BFS_DEFAULT_QUANTUM)%Z.
Proof.
  intros Hn Ht. rewrite computevd_exact by done. split; [done|].
  unfold NICE_FIRST_LEVEL, NICE_LAST_LEVEL, BFS_DEFAULT_QUANTUM in *. lia.
Qed.

(** The update of the seed in random is a permutation of the 32-bit words
    that fixes 0: distinct seeds stay distinct, and a seed that is not zero
    never becomes zero, so the dice of the skip list never get stuck. *)
Theorem random_seed_permutes x y :
  is_u32 x -> is_u32 y ->
  is_u32 (next_seed x) /\ (next_seed x = next_seed y <-> x = y) /\ (x <> 0%Z -> next_seed x <> 0%Z).
Proof.
  intros Hx Hy. split; [by apply next_seed_u32|]. split.
  - split; [by apply next_seed_inj|by intros ->].
  - intros Hne Hz. apply Hne, next_seed_inj; [done|unfold is_u32, u32_mod; lia|done].
Qed.

(** C39: delete reads through a pointer to no node: if the word at the address
    its search ended with (null, or the address below the node array) happens
    to be the process's own address, delete goes on to unlink that non-node. *)
Theorem delete_trusts_stray_word stray s ps p :
  skiplist s ps -> p ∈ ps 0 -> (forall s' q, q = NNull \/ q = NBelow -> stray s' q = Some p) ->
  exists s', delete stray p s = Undef s'.
Proof. intros Hs _ Hst. by apply (delete_stray_undef stray s ps). Qed.

(** C13: nicefork with a valid nice value either returns -1 and leaves every
    process alone, or returns the next pid and turns one UNUSED slot into a
    RUNNABLE child of the caller with that nice value, the deadline computed
    from it and the clock, the caller's memory size, registers (but 0 in eax),
    directory and open files; the invariant holds again in both cases. *)
Theorem nicefork_creates_child cur ip nice s :
  inv s -> c_proc (k_cpu s) = Some cur -> p_cwd (k_proc s cur) = Some ip ->
  (NICE_FIRST_LEVEL <= nice <= NICE_LAST_LEVEL)%Z ->
  wpf F (nicefork nice) (fun r s' => inv s' /\ c_proc (k_cpu s') = Some cur /\
    (r = (-1)%Z /\ (forall q, p_state (k_proc s q) <> UNUSED -> k_proc s' q = k_proc s q) \/
     exists np, r = k_nextpid s /\ np < NPROC /\ p_state (k_proc s np) = UNUSED /\
       (forall q, q <> np -> k_proc s' q = k_proc s q) /\
       forked cur ip nice (k_ticks s) r (k_proc s cur) (k_proc s np) (k_proc s' np))) s.
Proof. apply nicefork_ok. Qed.


(** C15: wait reaps a zombie child and returns its pid, leaving its slot UNUSED
    with pid, parent and kernel stack cleared; or returns -1, changing nothing,
    when the caller has no children or was killed; or puts the caller to sleep
    on itself, when it has children and none of them is a zombie. *)
Theorem wait_reaps_or_sleeps (stray : kst E -> nptr -> option nat) cur s :
  (forall p, p < NPROC -> stray_ok stray p) ->
  inv s -> c_proc (k_cpu s) = Some cur ->
  wpf F (wait_enter stray) (fun r s' => waited cur (k_proc s) r s') s.
Proof. intros. by apply wait_enter_ok. Qed.

(** kill marks the first process with the pid as killed and makes it
    RUNNABLE if it sleeps (so that it can notice), returns 0 and changes no
    other process; it returns -1 and changes nothing if there is none. *)
Theorem kill_marks_process pid s :
  inv s ->
  wp (kill pid) (fun v s' => inv s' /\ c_proc (k_cpu s') = c_proc (k_cpu s) /\
    match find_pid pid (k_proc s) proc_ids with
    | None => v = (-1)%Z /\ k_proc s' = k_proc s
    | Some p => v = 0%Z /\ killed_as (k_proc s p) (k_proc s' p) /\
        forall q, q <> p -> k_proc s' q = k_proc s q
    end) s.
Proof. apply kill_ok. Qed.

(** wakeup makes RUNNABLE, and enqueues, exactly the processes that sleep
    on the channel. *)
Theorem wakeup_wakes_sleepers ch s :
  inv s -> wp (wakeup ch) (fun _ s' => inv s' /\ c_proc (k_cpu s') = c_proc (k_cpu s) /\
    forall p, p < NPROC -> wakes ch (k_proc s p) (k_proc s' p)) s.
Proof. apply wakeup_ok. Qed.

(** Sleep, called with a lock held, releases that lock, takes the process
    out of the run queue as SLEEPING on the channel and enters the scheduler
    holding ptable.lock only, so no wakeup can come in between. *)
Theorem sleep_releases_and_leaves (stray : kst E -> nptr -> option nat) s p ch lk :
  (forall p, p < NPROC -> stray_ok stray p) ->
  inside lk (Some p) s ->
  wp (sleep_enter stray ch (Some lk)) (fun _ s' => mid s' /\ c_proc (k_cpu s') = Some p /\
    p_state (k_proc s' p) = SLEEPING /\ p_chan (k_proc s' p) = ch /\
    (forall q, q <> p -> k_proc s' q = k_proc s q)) s.
Proof.
  intros Hst (Hl & Hq & Hb & Hcp). eapply wp_mono; [by apply sleep_enter_mid|]. naive_solver.
Qed.

(** A clock tick takes one from the running process's quantum and makes it
    yield exactly when nothing is left; yield itself gives it the deadline
    computed from its nice value and the clock and puts it back in the queue. *)
Theorem clock_tick_yields_at_zero (stray : kst E -> nptr -> option nat) tf s p :
  (forall p, p < NPROC -> stray_ok stray p) ->
  inv s -> c_proc (k_cpu s) = Some p -> tf_trapno tf = (T_IRQ0 + IRQ_TIMER)%Z ->
  (0 < p_ticks_left (k_proc s p) <= BFS_DEFAULT_QUANTUM)%Z ->
  wp (clock_tick stray tf) (fun e s' => ended (Some p) e s' /\
    (e = Switches <-> p_ticks_left (k_proc s p) = 1%Z)) s.
Proof.
  intros Hst Hinv Hcp Hno Hq. eapply wp_mono; [by apply clock_tick_ok|]. intros e s' (He & _ & Hsw).
  split; [done|]. rewrite Hsw. unfold BFS_DEFAULT_QUANTUM in Hq. split.
  - intros (q & [= <-] & _ & Hz). rewrite i32_small in Hz by (unfold is_i32; lia). lia.
  - intros H1. exists p. split_and!; try done. by rewrite H1.
Qed.

(** pinit makes the process table and the skip list of a freshly loaded
    kernel satisfy the invariant with no process at all, and userinit then
    creates process 1, RUNNABLE with the initial registers; userinit fails only
    for lack of memory. *)
Theorem boot_creates_init e :
  ke_inv e ->
  wpf (userinit_faults (F := F)) (pinit ;; userinit) (fun _ s => inv s /\ c_proc (k_cpu s) = None /\
    exists p, first_process p s) (boot e).
Proof.
  intros He. apply wpf_bind. eapply wpf_mono; [by apply wpf_wp, pinit_ok|].
  intros _ s [Hs _]. by apply userinit_ok.
Qed.

End Props.

(** ** Runs that meet the hypotheses *)

Lemma boot_skiplist : skiplist (boot page0) (fun _ => []).
Proof. apply rows_free_skiplist. intros l _. split; done. Qed.

Definition one_queued : kst Z := final (insert 3) (boot page0).

Lemma one_queued_skiplist : exists ps, skiplist one_queued ps /\ 3 ∈ ps 0.
Proof.
  destruct (insert_spec (boot page0) (fun _ => []) 3 boot_skiplist) as (nd & Hi & Hs);
    [rewrite NPROC_eq; lia|set_solver|].
  eexists. split.
  - unfold one_queued, final. rewrite Hi. exact Hs.
  - pose proof (roll_bounds LEVELS 0 (k_seed (boot page0))). unfold enqueued. rewrite bool_decide_true.
    + apply elem_of_enqueue. by left.
    + rewrite LEVELS_eq in *. lia.
Qed.

(** A handler that wakes the sleepers on a buffer, as ideintr does *)
Definition disk_handler : M (kst Z) unit := waking (ret [ObjChan 7]).

Lemma disk_handler_ok : handler_ok (F := no_fault) disk_handler.
Proof. apply waking_handler. intros e He. exact He. Qed.

(** A turn of the scheduler, and forks by init with a nice value in range and out
    of range *)
Lemma event_preserves_invariant_witness :
  wpf no_fault (exec no_stray disk_handler no_handler no_handler EvSchedule) (fun _ s' => inv s') booted /\
  wpf no_fault (exec no_stray disk_handler no_handler no_handler (EvFork 5)) (fun _ s' => inv s') running /\
  wpf (fun f => no_fault f \/ f = FPanic "invalid nice value")
    (exec no_stray disk_handler no_handler no_handler (EvFork 100)) (fun _ _ => False) running.
Proof.
  assert (forall ev s, inv s -> enabled ev s -> match event_panic ev s with
    | Some msg => wpf (fun f => no_fault f \/ f = FPanic msg) (exec no_stray disk_handler no_handler no_handler ev) (fun _ _ => False) s
    | None => wpf no_fault (exec no_stray disk_handler no_handler no_handler ev) (fun _ s' => inv s') s end) as H.
  { intros ev s. exact (event_preserves_invariant no_stray disk_handler no_handler no_handler ev s no_stray_ok
      disk_handler_ok no_handler_ok no_handler_ok). }
  assert (exists p, c_proc (k_cpu running) = Some p) as Hrun by (exists 0; vm_compute; reflexivity).
  split; [|split].
  - apply (H EvSchedule booted booted_inv). vm_compute. reflexivity.
  - exact (H (EvFork 5) running running_inv (conj Hrun running_settled)).
  - exact (H (EvFork 100) running running_inv (conj Hrun running_settled)).
Defined.

Lemma reachable_invariant_witness : inv booted.
Proof.
  apply (reachable_invariant no_stray no_handler no_handler no_handler page0 booted).
  - exact no_stray_ok.
  - exact no_handler_ok.
  - exact no_handler_ok.
  - exact no_handler_ok.
  - exact page0_ok.
  - exact booted_reachable.
Defined.

Lemma scheduler_picks_earliest_witness : wp scheduler_pick (fun r _ => r <> None) booted.
Proof.
  eapply wp_mono.
  - apply (scheduler_picks_earliest booted booted_inv). vm_compute. reflexivity.
  - intros [p|] s' Hpost; [discriminate|]. exfalso. destruct Hpost as [_ Hno].
    apply (Hno 0); [rewrite NPROC_eq; lia|]. vm_compute. reflexivity.
Defined.

Lemma insert_enqueues_witness :
  exists nd, insert 3 (boot page0) =
    Done (Z.of_nat (fst (roll LEVELS 0 SEED))) (inserted 3 (fst (roll LEVELS 0 SEED)) (snd (roll LEVELS 0 SEED)) nd (boot page0)).
Proof.
  destruct (insert_enqueues (boot page0) (fun _ => []) 3 boot_skiplist) as (_ & nd & Hi & _).
  - rewrite NPROC_eq. lia.
  - apply not_elem_of_nil.
  - exists nd. exact Hi.
Defined.

Lemma delete_dequeues_witness :
  exists nd, delete no_stray 3 one_queued = Done 1%Z (deleted 3 nd one_queued).
Proof.
  destruct one_queued_skiplist as (ps & Hs & H3).
  destruct (delete_dequeues no_stray one_queued ps 3 Hs H3) as (nd & Hd & _).
  - apply no_stray_ok. rewrite NPROC_eq. lia.
  - exists nd. rewrite Hd. f_equal.
Defined.

Lemma nicefork_creates_child_witness :
  wpf no_fault (nicefork 5) (fun _ s' => inv s') running.
Proof.
  eapply wpf_mono.
  - apply (nicefork_creates_child 0 0 5 running running_inv).
    + vm_compute. reflexivity.
    + vm_compute. reflexivity.
    + vm_compute. split; discriminate.
  - intros r s' [Hs' _]. exact Hs'.
Defined.

(** The child runs. *)
Definition child_runs : kst Z := final (run EvSchedule) yielded.

Lemma child_runs_inv : inv child_runs.
Proof. apply final_inv; [apply yielded_inv|vm_compute; reflexivity|reflexivity]. Qed.

#[local] Opaque child_runs.


(** init waits for its child, which is not a zombie yet. *)
Lemma wait_reaps_or_sleeps_witness :
  wpf no_fault (wait_enter no_stray) (fun r s' => waited 0 (k_proc with_child) r s') with_child.
Proof.
  apply (wait_reaps_or_sleeps no_stray 0 with_child no_stray_ok with_child_inv). vm_compute. reflexivity.
Defined.

(** Process 3 waits with deadline 0 at tick 0; process 4 comes with nice -20. *)
Definition newcomer : kst Z := proc_set 4 (set_p_virt_deadline (computevd (-20) 0)) one_queued.

Lemma newcomer_skiplist : exists ps r, skiplist newcomer ps /\ ps 0 = [] ++ 3 :: r /\ 4 ∉ ps 0.
Proof.
  destruct (insert_spec (boot page0) (fun _ => []) 3 boot_skiplist) as (nd & Hi & Hs);
    [rewrite NPROC_eq; lia|set_solver|].
  exists (enqueued (deadline (boot page0)) 3 (fst (roll LEVELS 0 SEED)) (fun _ => [])), [].
  assert (enqueued (deadline (boot page0)) 3 (fst (roll LEVELS 0 SEED)) (fun _ => []) 0 = [3]) as Heq
    by (vm_compute; reflexivity).
  rewrite Heq. split; [|split; [reflexivity|intros H%list_elem_of_singleton; discriminate]].
  assert (skiplist one_queued (enqueued (deadline (boot page0)) 3 (fst (roll LEVELS 0 SEED)) (fun _ => []))) as Hq.
  { unfold one_queued, final. rewrite Hi. exact Hs. }
  apply (skiplist_ext one_queued newcomer); [reflexivity| |exact Hq].
  intros p Hp. rewrite Heq in Hp. apply list_elem_of_singleton in Hp as ->.
  unfold newcomer, deadline, proc_set. cbn -[insert one_queued]. by fn_simp.
Qed.

Lemma fresh_deadline_goes_behind_witness :
  wp (insert 4) (fun _ s' => exists ps' r', skiplist s' ps' /\ ps' 0 = [] ++ 3 :: r' /\ 4 ∈ r') newcomer.
Proof.
  destruct newcomer_skiplist as (ps & r & Hs & H0 & H4).
  apply (fresh_deadline_goes_behind newcomer ps 4 3 [] r (-20)).
  - exact Hs.
  - rewrite NPROC_eq. lia.
  - exact H4.
  - exact H0.
  - vm_compute. split; discriminate.
  - vm_compute. split; discriminate.
  - vm_compute. reflexivity.
  - vm_compute. reflexivity.
Defined.

Definition evil_stray (s : kst Z) (q : nptr) : option nat := Some 3.

Lemma delete_trusts_stray_word_witness : exists s', delete evil_stray 3 one_queued = Undef s'.
Proof.
  destruct one_queued_skiplist as (ps & Hs & H3).
  apply (delete_trusts_stray_word evil_stray one_queued ps 3 Hs H3). intros s q _. reflexivity.
Defined.
