(* ===== verification/IoProps.v ===== *)
(** * Properties of pipes, of the console and of the keyboard *)

From S2P Require Import Prelude Ring Pipe Ulib Console ConsoleInv Kbd.

Local Open Scope Z_scope.
Local Open Scope c_scope.

(** A pipe whose counters are about to wrap around holds one byte. *)
Definition near_wrap : psys :=
  mkPsys (mkPipe (fun _ => 7) 4294967295 0 true true)
    (fun i => if (i =? 0)%nat then TWrite 2 [1; 2] false else if (i =? 1)%nat then TRead 9 false else TDone 0)
    (fun _ => false) [7] [].

(** C22: A pipe is first-in first-out.  Whatever the interleaving of reads,
    writes, kills and closes, and also when the counters wrap around at 2^32,
    the bytes taken out followed by the bytes held are the bytes put in, and
    at most PIPESIZE bytes are held. *)
Theorem pipe_is_fifo s s' :
  fifo s -> pstep s s' -> exists l, holds (ps_pipe s') l /\ ps_in s' = ps_out s' ++ l /\ Z.of_nat (length l) <= PIPESIZE.
Proof.
  intros Hf Hs. destruct (fifo_step s s' Hf Hs) as (l & Hl & Hio). exists l. split_and!; [done..|]. apply Hl.
Qed.

Lemma near_wrap_fifo : fifo near_wrap.
Proof. exists [7]. split; [|done]. by split. Qed.

Lemma pipe_is_fifo_witness : exists s' l,
  pstep near_wrap s' /\ holds (ps_pipe s') l /\ ps_in s' = ps_out s' ++ l /\ Z.of_nat (length l) <= PIPESIZE.
Proof.
  eexists. pose proof (ps_write 0 2 [1; 2] _ _ _ _ near_wrap eq_refl eq_refl) as Hstep.
  destruct (pipe_is_fifo _ _ near_wrap_fifo Hstep) as (l & Hl). exists l. split; [exact Hstep|exact Hl].
Defined.

(** No wakeup is lost while nobody is killed.  In every state of such a
    run a reader sleeps only on an empty pipe that has a writer, and a writer
    only on a full pipe that has a reader. *)
Theorem pipe_sleepers_have_reason s :
  pcalm s ->
  (forall i n, ps_tasks s i = TRead n true -> pipe_empty (ps_pipe s) = true /\ writeopen (ps_pipe s) = true) /\
  (forall i n l, ps_tasks s i = TWrite n l true -> pipe_full (ps_pipe s) = true /\ readopen (ps_pipe s) = true).
Proof. intros [_ [Hw Hr _ _]]%pcalm_ok. split; [exact Hr|exact Hw]. Qed.

Definition fresh_psys : psys := mkPsys (new_pipe (fun _ => 0)) (fun _ => TDone 0) (fun _ => false) [] [].

(** A reader has started and gone to sleep on the new pipe. *)
Definition reader_asleep : psys :=
  mkPsys (new_pipe (fun _ => 0)) (<[0%nat := TRead 5 true]> (fun j => (<[0%nat := TRead 5 false]> (fun _ => TDone 0) : nat -> task) j))
    (<[0%nat := false]> (fun _ => false)) [] [].

Lemma reader_asleep_calm : pcalm reader_asleep.
Proof.
  eapply pcalm_step; [eapply pcalm_step; [apply (pcalm_new (fun _ => 0) (fun _ => TDone 0)); eauto|done|]|..].
  - eapply (ps_start 0 0 (TRead 5 false)); [done|]. right. eauto.
  - intros i. cbn. by destruct (decide (0%nat = i)) as [<-|]; [rewrite fn_lookup_insert|rewrite fn_lookup_insert_ne].
  - by apply (ps_read 0 5 (Sleeps ChRead) [] (new_pipe (fun _ => 0)) []).
Qed.

(** A writer that has been killed can fill an empty pipe and return -1
    without a wakeup: a run exists after which a reader sleeps on a full pipe
    whose ends are both open, and no other task is left. *)
Theorem killed_writer_strands_reader :
  exists s, preach s /\ ps_tasks s 0 = TRead 5 true /\ pipe_full (ps_pipe s) = true /\
    readopen (ps_pipe s) = true /\ writeopen (ps_pipe s) = true /\
    forall i, i <> 0%nat -> exists r, ps_tasks s i = TDone r.
Proof.
  assert (forall s, pcalm s -> preach s) as Hcalm by (induction 1; econstructor; eauto).
  set (bytes := replicate 513 65).
  assert (holds (ps_pipe reader_asleep) []) as Hnew by (by split).
  destruct (pipewrite_killed 513 bytes _ Hnew) as (rest' & p' & Hrun & Hf & Hro & Hwo); [done|].
  eexists. split; [eapply preach_step; [eapply preach_step; [eapply preach_step|]|]|].
  - apply Hcalm, reader_asleep_calm.
  - apply (ps_start 1 0 (TWrite 513 bytes false)); [done|]. left. eauto.
  - apply (ps_kill 1).
  - eapply (ps_write 1 513 bytes); [done|]. exact Hrun.
  - cbn [ps_tasks ps_pipe]. clear Hnew Hrun. clearbody bytes.
    refine (conj eq_refl (conj Hf (conj Hro (conj Hwo _)))). intros [|[|i]] Hi; [done|..]; eexists; reflexivity.
Qed.

(** A console whose cursor is at the end of row 23 and whose input counters are
    about to wrap around; the line "a" waits for a reader and "b" is edited. *)
Definition demo_console : console :=
  mkConsole false true [] 1919 (fun _ => 0) (fun i => if (i =? 126)%nat then 97 else if (i =? 127)%nat then 98 else 0)
    4294967294 4294967295 0 0.

Lemma demo_typing : typing ([97], [98]) demo_console.
Proof. split; [|done]. split; cbn; try done. by repeat constructor. Qed.

(** the keyboard interrupt turns any sequence of scan codes into the same
    sequence of editing steps on the input line: an ordinary character is
    appended while there is room, ^H removes one and ^U all characters that
    are not yet committed, a newline, ^D or a full buffer commits the line.
    This holds across the wrap-around of the counters; the echo neither
    panics nor leaves the screen. *)
Theorem keyboard_edits_line data shift line edit s :
  typing (line, edit) s -> 0 <= shift < 128 -> Forall (fun d => 0 <= d < 256) data ->
  wp (kbdintr data shift) (fun r s' =>
    typing (foldl type_char (line, edit) (fst (kbd_codes data shift))) s' /\
    r.1 = existsb (fun c => c =? ctrl 80) (fst (kbd_codes data shift)) /\ 0 <= r.2 < 128) s.
Proof.
  intros Ht Hs Hd. destruct (kbd_codes_bytes data shift Hs Hd) as (Hc & Hs2 & _). unfold kbdintr. apply wp_bind.
  eapply wp_mono; [by apply consoleintr_ok|]. intros dump s' [Ht' ->]. apply wp_ret. done.
Qed.

(** Keys: c, backspace, the return key *)
(** a stretch of consoleread takes characters from the committed line in
    order and no others: it returns after a newline, at ^D (which it leaves for
    the next call if it has delivered something), or with as many bytes as
    asked for; otherwise it has taken the whole line and sleeps, or gives up
    if the process is killed.  What is being edited is not touched. *)
Theorem consoleread_takes_line killed target n line edit s :
  typing (line, edit) s ->
  wp (consoleread (S (length line)) killed target n) (fun r s' =>
    exists rest, took killed target n line r.1 r.2 rest /\ typing (rest, edit) s') s.
Proof. intros Ht. apply consoleread_ok; [done|lia]. Qed.

(** whatever bytes are written to the console, consolewrite writes them
    all: the cursor stays in the first 24 rows, so the check in cgaputc never
    fails and no store leaves the screen memory. *)
Theorem consolewrite_in_bounds buf s :
  screen_ok s -> wp (consolewrite buf) (fun r s' => r = Z.of_nat (length buf) /\ printed s s' /\ 0 <= cn_pos s' < 1920) s.
Proof.
  intros Hs. unfold consolewrite. destruct (puts_ok (fun b => Z.land b 255) buf s Hs) as (s' & E & Hp). apply wp_bind.
  eapply wp_intro; [exact E|]. apply wp_ret. split; [done|]. split; [done|]. apply Hp.
Qed.

(** C38: kbdgetc maps every scan code in every state to a character code of one
    byte and keeps the modifier state within its seven bits, so every index
    into the tables of kbd.h is within bounds; the release of a key clears the
    modifier that its press set, toggles nothing, and leaves the others. *)
Theorem kbdgetc_well_typed shift data :
  0 <= shift < 128 -> 0 <= data < 256 ->
  wp (kbdgetc 1 data) (fun c shift' => 0 <= c < 256 /\ 0 <= shift' < 128) shift /\
  (shift < 64 -> data < 128 -> data <> 96 ->
    wp (kbdgetc 1 data ;; kbdgetc 1 (Z.lor data 128)) (fun c shift' =>
      c = 0 /\ shift' = clear (Z.lxor shift (togglecode data)) (shiftcode data)) shift).
Proof.
  intros Hs Hd. split.
  - destruct (key_in_range shift data Hs Hd) as (c & shift' & E & H). by eapply wp_intro.
  - intros Hs2 Hd2 Hn. destruct (press_release shift data) as (c & shift1 & E1 & E2); [lia..|done|]. apply wp_bind.
    eapply wp_intro; [exact E1|]. by eapply wp_intro.
Qed.

Lemma kbdgetc_well_typed_witness :
  wp (kbdgetc 1 42) (fun c shift' => 0 <= c < 256 /\ 0 <= shift' < 128) 8 /\
  (8 < 64 -> 42 < 128 -> 42 <> 96 ->
    wp (kbdgetc 1 42 ;; kbdgetc 1 (Z.lor 42 128)) (fun c shift' =>
      c = 0 /\ shift' = clear (Z.lxor 8 (togglecode 42)) (shiftcode 42)) 8).
Proof. apply (kbdgetc_well_typed 8 42); split; (discriminate || reflexivity). Defined.
