(* ===== verification/UserProps.v ===== *)
(** * Properties of the user programs: the shell, grep, the allocator *)

From stdpp Require Import gmap.
From S2P Require Import Prelude Ulib UserProgs Sh ShParse ShRun Umalloc UmallocAlloc Grep.

Local Open Scope c_scope.
Local Open Scope nat_scope.

(** ** The shell *)

(** ** The redirections that the parser makes *)

Lemma std_redirs_wrap c rs : std_redirs c -> Forall (fun r => rd_fd r = 0%Z \/ rd_fd r = 1%Z) rs -> std_redirs (wrap c rs).
Proof. intros Hc Hrs. revert c Hc. induction Hrs as [|r rs Hr Hrs IH]; intros c Hc; [done|]. by apply IH. Qed.

Lemma redirs_std ts rs : Redirs ts rs -> Forall (fun r => rd_fd r = 0%Z \/ rd_fd r = 1%Z) rs.
Proof. induction 1; constructor; cbn; auto. Qed.

Lemma args_std ts args rs : Args ts args rs -> Forall (fun r => rd_fd r = 0%Z \/ rd_fd r = 1%Z) rs.
Proof. induction 1 as [|? ? ? ? ? ? Hr ? IH]; [done|]. apply Forall_app. by split; [eapply redirs_std|]. Qed.

Lemma backs_std k c : std_redirs c -> std_redirs (backs k c).
Proof. revert c. induction k as [|k IH]; intros c Hc; [done|]. by apply IH. Qed.

Lemma grammar_std :
  (forall us c, Line us c -> std_redirs c) /\ (forall us c, ShParse.Pipe us c -> std_redirs c) /\
  (forall us c, ShParse.Exec us c -> std_redirs c).
Proof.
  apply grammar_ind; intros; cbn; auto using backs_std.
  - apply std_redirs_wrap; [done|]. apply Forall_app. split; [by eapply redirs_std|by eapply args_std].
  - apply std_redirs_wrap; [done|by eapply redirs_std].
Qed.

(** ** A line for the witnesses: [ls <f|wc] *)

Definition demo_line : list Z := [108; 115; 32; 60; 102; 124; 119; 99]%Z.
Definition demo_cmd : cmd := PIPE (REDIR (EXEC [(0, 2)]) 4 5 0 0) (EXEC [(6, 8)]).

Lemma demo_chars : Forall (fun c => c <> 0%Z) demo_line.
Proof. by repeat constructor. Qed.

Lemma demo_parse : exists s, parsecmd demo_line = Done (demo_cmd, [108; 115; 0; 60; 102; 0; 119; 99; 0]%Z) s.
Proof. eexists. vm_compute. reflexivity. Qed.

(** C31: on every line of characters, parsecmd ends: it returns the command that
    the grammar derives from the tokens of the line, with the words
    NUL-terminated, or it panics, and then the grammar derives no command.  In
    particular a line has at most one meaning. *)
Theorem parsecmd_decides_grammar buf :
  Forall (fun c => c <> 0%Z) buf ->
  match parsecmd buf with
  | Done (c, b) _ => b = nulterminate buf c /\ forall c', Line (tokens buf) c' <-> c' = c
  | Panic _ _ => forall c', ~ Line (tokens buf) c'
  | _ => False
  end.
Proof.
  intros Hnul. pose proof (parsecmd_sound buf Hnul) as Hs. pose proof (parsecmd_complete buf Hnul) as Hc.
  destruct (parsecmd buf) as [[c b] s|msg s|s|s]; try done.
  - destruct Hs as [Hl ->]. split; [done|]. intros c'. split; [|by intros ->]. intros [s' Hd]%Hc. by injection Hd as ->.
  - intros c' [s' Hd]%Hc. discriminate.
Qed.

Lemma parsecmd_decides_grammar_witness :
  match parsecmd demo_line with
  | Done (c, b) _ => b = nulterminate demo_line c /\ forall c', Line (tokens demo_line) c' <-> c' = c
  | Panic _ _ => forall c', ~ Line (tokens demo_line) c'
  | _ => False
  end.
Proof. exact (parsecmd_decides_grammar demo_line demo_chars). Defined.

(** when parsecmd returns, each argument and each file name of the command
    is a C string: a word of the line, of at least one character and without
    blanks and symbols, though the words were terminated in place. *)
Theorem parsecmd_terminates_words buf c b s w :
  Forall (fun c => c <> 0%Z) buf -> parsecmd buf = Done (c, b) s -> w ∈ spans c ->
  str_at b (fst w) = text buf w /\ text buf w <> [] /\ Forall plain (text buf w).
Proof.
  intros Hnul Hp Hw. pose proof (parsecmd_sound buf Hnul) as Hs. rewrite Hp in Hs. destruct Hs as [Hl ->].
  destruct (str_at_word buf Hnul c w Hl Hw) as [-> ((Hlt & Hle) & Hpl & _)]. split; [done|].
  unfold text, es in *. split.
  - intros He%(f_equal length). rewrite length_take, length_drop in He. cbn in He. lia.
  - apply Forall_lookup. intros k x Hx. apply lookup_take_Some in Hx as [Hx Hk]. rewrite lookup_drop in Hx.
    assert (char buf (w.1 + k) = x) as <- by (unfold char; by apply nth_lookup_Some). apply Hpl. lia.
Qed.

(** C33: every program that a command line starts, however its processes are
    interleaved and whichever calls fail, runs with the descriptors that the
    line asks for: the input or output of a redirection is the file, the two
    sides of a pipe are joined by it, no other descriptor differs from the
    shell's, and no end of a pipe stays open. *)
Theorem runcmd_wires_descriptors buf c b s (D D' : Z -> option chan) argv :
  Forall (fun c => c <> 0%Z) buf -> parsecmd buf = Done (c, b) s -> D 0%Z <> None -> D 1%Z <> None ->
  reaches D (runcmd b c) D' argv -> wired b c D D' argv.
Proof.
  intros Hnul Hp H0 H1. apply runcmd_wires; [|done..]. pose proof (parsecmd_sound buf Hnul) as Hs. rewrite Hp in Hs.
  apply (proj1 grammar_std (tokens buf) c), Hs.
Qed.

Definition shell_table : Z -> option chan := fun k => if decide (0 <= k < 3)%Z then Some (COther 0) else None.

Lemma shell_fresh : fresh shell_table 0.
Proof. intros k. unfold shell_table. by destruct (decide _). Qed.

Lemma shell_lowest : lowest shell_table 3 /\ lowest (<[3%Z := Some (CRead 0)]> shell_table) 4.
Proof.
  split; (split; [unfold NOFILE; lia|]; split; [reflexivity|]); intros k Hk; unfold insert, fn_insert, shell_table; repeat case_decide; (done || lia).
Qed.

Lemma demo_reaches : exists D', reaches shell_table (runcmd [108; 115; 0; 60; 102; 0; 119; 99; 0]%Z demo_cmd) D' [[119; 99]%Z].
Proof.
  eexists. unfold demo_cmd. cbn [runcmd]. destruct shell_lowest as [H3 H4].
  eapply reach_pipe; [exact H3|exact H4|exact shell_fresh|]. cbv beta iota.
  eapply (reach_parent _ 5%Z); [lia|]. change (5 =? -1)%Z with false. change (5 =? 0)%Z with false. cbv iota.
  eapply reach_child. change (0 =? -1)%Z with false. change (0 =? 0)%Z with true. cbv iota. eapply reach_close.
  eapply (reach_dup _ 3%Z (CRead 0) 0%Z); [reflexivity|split; [unfold NOFILE; lia|split; [reflexivity|lia]]|].
  eapply reach_close, reach_close. exact (reach_exec _ _ [[119; 99]%Z] _).
Qed.

Lemma runcmd_wires_descriptors_witness :
  exists D', let b := [108; 115; 0; 60; 102; 0; 119; 99; 0]%Z in
    reaches shell_table (runcmd b demo_cmd) D' [[119; 99]%Z] /\ wired b demo_cmd shell_table D' [[119; 99]%Z].
Proof.
  destruct demo_parse as [s Hs]. destruct demo_reaches as [D' Hr]. exists D'. split; [exact Hr|].
  refine (runcmd_wires_descriptors demo_line demo_cmd _ s shell_table D' _ demo_chars Hs _ _ Hr); discriminate.
Defined.

Local Open Scope Z_scope.

(** ** grep *)

(** C36: grep's backtracking matcher decides the language of the pattern:
    match(re, text) holds exactly when some part of the text (the start after
    a caret, up to the end before a dollar) is in the denotation of the
    pattern's items. *)
Theorem match_decides_language re text : match_ re text = true <-> match_spec re text.
Proof. apply match_spec_ok. Qed.

(** C37: what grep prints of a file that consists of the lines [ls], each ended
    by a newline, and the text [rest] after the last newline: exactly the lines
    of [ls] that match, in order, whatever the way they straddle its buffer;
    and nothing of [rest], even if it matches, so that grep misses a last line
    without a newline.  The file has no NUL, its lines are shorter than 1023
    characters, and read hands over as much as is asked for.  The loop ends. *)
Theorem grep_prints_terminated_lines pattern ls rest :
  Forall (Forall (fun c => c <> ch_nl)) ls -> Forall (fun c => c <> ch_nl) rest ->
  let input := concat ((fun x => x ++ [ch_nl]) <$> ls) ++ rest in
  Forall (fun c => c <> 0) input -> Forall (fun x => length x < 1023)%nat ls -> (length rest < 1023)%nat ->
  grep file_amount pattern input =
    Some (concat ((fun x => x ++ [ch_nl]) <$> filter (fun x => match_ pattern x = true) ls)).
Proof. intros Hls Hr input H0 Hs Hsr. by apply grep_text. Qed.

(** The lines ab, c and a, and then a without a newline, which is not printed *)
Lemma grep_prints_terminated_lines_witness :
  grep file_amount [97] [97; 98; 10; 99; 10; 97; 10; 97] = Some [97; 98; 10; 97; 10].
Proof.
  apply (grep_prints_terminated_lines [97] [[97; 98]; [99]; [97]] [97]);
    repeat constructor; try discriminate; simpl; lia.
Defined.

(** When read hands over a part of a line, as a pipe or the console may,
    grep drops that part: a matching line that arrives in two pieces is not
    printed, though the same line read at once is. *)
Theorem grep_drops_partial_reads :
  grep (fun left _ => Nat.min 1 (length left)) [97] [97; 10] = Some [] /\
  grep file_amount [97] [97; 10] = Some [97; 10].
Proof. by split. Qed.

(** ** The C library *)

(** printint prints every int in decimal and stays inside its buffer of 16
    characters, the least int included: a minus sign for a negative number,
    then the digits, without leading zeros, of the absolute value; atoi reads
    a printed number back. *)
Theorem printint_atoi_roundtrip xx :
  is_i32 xx ->
  exists sign digits, printint xx 10 true = Some (sign ++ digits) /\ (length (sign ++ digits) <= 11)%nat /\
    sign = (if xx <? 0 then [45] else []) /\ atoi digits = i32 (Z.abs xx) /\ Forall (fun c => is_digit c = true) digits /\
    (xx <> 0 -> hd 0 digits <> 48).
Proof.
  intros Hx. destruct (printint_ok 65 xx 10 true (or_introl eq_refl) Hx (or_introl eq_refl)) as (ds & Hp & Hv & Hl & Hall & Hlast).
  assert (magnitude xx true = Z.abs xx) as Hm.
  { unfold magnitude, is_i32, u32, u32_mod in *. destruct (Z.ltb_spec xx 0); cbn [andb]; [lia|]. rewrite Z.mod_small; lia. }
  cbn [andb] in Hp. eexists _, (reverse ds). split_and!; [exact Hp| |done| | |].
  - rewrite length_app, length_reverse. destruct (xx <? 0); cbn [length]; lia.
  - rewrite (atoi_digits 65) by (done || by left). by rewrite Hv, Hm.
  - apply Forall_reverse. eapply Forall_impl; [exact Hall|]. intros c (d & Hd & ->). by apply is_digit_char.
  - intros Hn. rewrite <- hd_reverse_last. intros He. apply Hlast; [lia|]. by rewrite He.
Qed.

(** ** wc, cat, ls *)

(** wc prints the number of newlines, of words (maximal runs without
    blanks) and of characters of its input, however read cuts the input into
    pieces, for an input below 2^31 characters.  Its loop ends. *)
Theorem wc_counts amount input :
  honest amount -> Z.of_nat (length input) < 2147483648 ->
  exists b, wc amount input =
    Some (Some (mkCounts (Z.of_nat (newlines input)) (Z.of_nat (word_starts false input)) (Z.of_nat (length input)) b)).
Proof.
  intros Hr Hl. unfold wc. rewrite wc_loop_ok by (done || lia).
  destruct (wc_fold input (mkCounts 0 0 0 false)) as [b ->]; [done..|]. by exists b.
Qed.

(** cat copies its input. *)
Theorem cat_copies amount input : honest amount -> cat amount (fun b => Z.of_nat (length b)) input = Some (input, true).
Proof. intros Hr. unfold cat. by rewrite (cat_loop_ok amount Hr) by (done || lia). Qed.

(** fmtname is the last part of the path, padded with blanks to DIRSIZ. *)
Theorem fmtname_pads dir base :
  47 ∉ base -> dir = [] \/ List.last dir 0 = 47 ->
  fmtname (dir ++ base) = base ++ repeat 32 (14 - length base).
Proof.
  intros Hb Hd. unfold fmtname, DIRSIZ. rewrite after_slash_spec, ustrlen_length by done.
  destruct (Z.leb_spec 14 (Z.of_nat (length base))).
  - replace (14 - length base)%nat with 0%nat by lia. by rewrite app_nil_r.
  - do 2 f_equal. lia.
Qed.

(** ** The allocator *)

(** C32: malloc finishes.  Either the kernel has refused to grow the process,
    malloc returns 0 and nothing has changed, or it returns a block that was
    not in use, apart from the blocks in use and from the free ones, with room
    for the bytes asked for; no block in use has been written, the free list
    is again sorted and without adjacent blocks, and no memory is lost: what
    has left the free list is the block, what has joined it is the growth of
    the process.  The first call, on the empty allocator, is a call on the
    list of [base] alone. *)
Theorem malloc_allocates base grow s fb live nbytes fuel :
  grows_below_kernbase grow -> heap_inv base s fb live -> 0 <= nbytes < 2147483632 ->
  (2 * length fb + 3 <= fuel)%nat ->
  nbytes <= HEADER * (units nbytes - 1) /\
  wp (malloc base grow fuel nbytes) (fun v s' =>
    refused grow (units nbytes) s v s' \/ allocated base (units nbytes) s fb live v s') s /\
  (forall s0, unused base s0 ->
    heap_inv base (first_list base s0) [] ∅ /\
    malloc base grow fuel nbytes s0 = malloc base grow fuel nbytes (first_list base s0)).
Proof.
  intros Hg Hi Hn Hf. destruct (units_enough nbytes) as (H1 & H2 & H3); [unfold u32_mod, HEADER; lia|].
  split; [done|]. split; [apply malloc_ok; try done; unfold HEADER in *; lia|].
  intros s0 Hs0. split; [by apply unused_inv|by apply unused_malloc].
Qed.

Definition example_grow (b n : Z) : bool := b + n <? 2147483648.

Definition example_heap : heap := first_list 64 (mkHeap (fun _ => 0) (fun _ => 0) 0 4096).

Lemma example_unused : heap_inv 64 example_heap [] ∅.
Proof. apply unused_inv. constructor; [reflexivity|lia|split; [discriminate|reflexivity]]. Qed.

Lemma malloc_allocates_witness :
  100 <= HEADER * (units 100 - 1) /\
  wp (malloc 64 example_grow 3 100) (fun v s' =>
    refused example_grow (units 100) example_heap v s' \/ allocated 64 (units 100) example_heap [] ∅ v s') example_heap /\
  (forall s0, unused 64 s0 ->
    heap_inv 64 (first_list 64 s0) [] ∅ /\ malloc 64 example_grow 3 100 s0 = malloc 64 example_grow 3 100 (first_list 64 s0)).
Proof.
  apply (malloc_allocates 64 example_grow example_heap [] ∅ 100 3).
  - intros b n H. unfold example_grow in H. lia.
  - exact example_unused.
  - lia.
  - simpl. lia.
Defined.

(** free finishes, and gives back exactly the block: it is no more in use,
    the free memory has grown by its units, the free list is again sorted and
    without adjacent blocks, and no other block in use has been written. *)
Theorem free_coalesces base s fb live b n fuel :
  heap_inv base s fb live -> live !! b = Some n -> (S (length fb) <= fuel)%nat ->
  wp (free fuel (hadd b 1)) (fun _ s' => exists fb',
    heap_inv base s' fb' (delete b live) /\ total fb' = total fb + n /\ h_brk s' = h_brk s /\
    forall a k, delete b live !! a = Some k -> untouched s s' a k) s.
Proof.
  intros Hi Hb Hf. eapply wp_mono; [by apply (free_ok base s fb live b n)|].
  intros _ s' (fb' & Hi' & Ht & Hk & _ & _ & Hun). by exists fb'.
Qed.

(** Sixteen units just above the break, in use *)
Definition used_heap : heap :=
  set_size 4096 16 (set_brk (u32 (4096 + HEADER * 16)) example_heap).
